(* ===== verification/_CoqProject ===== *)
-Q . S2P
Prelude.v
Compare.v
RustStr.v
Utf8.v
VersionOrder.v
BlsParse.v
BootCount.v
PeLoader.v
PeLoad.v
FsTypes.v
BootTypes.v
Policy.v
Menu.v
TrustLog.v
Nvram.v
Health.v
NvBootEntry.v
SecureBoot.v
SecurityOverride.v
Tpm.v
VolumeFs.v
BlockSource.v
Partitions.v
Initrd.v
Smbios.v
Acpi.v
FatFs.v
Dispatch.v
Mounts.v
InodeFs.v
Backends.v
Streams.v
Report.v
FwCfg.v
Uki.v
IsoBoot.v
BootFlow.v
Drivers.v
BootHoare.v
BootSafety.v
DriverSafety.v
Preflight.v
Discovery.v
Extras.v
MainLoop.v
Startup.v
Draw.v
Console.v
InputInit.v
HostMirror.v
UnitTests.v
PureTests.v
Pci.v
MemTest.v
DiagShell.v
