(* ===== verification/Prelude.v ===== *)
(** * LamBoot: a verification development in Rocq

    LamBoot (lamboot-core/src) is a UEFI boot loader.  A run assesses the health
    of the last ones, reads the platform's tables, mounts the ESP, reads the
    policy, loads filesystem drivers, mounts every volume it can read, finds
    boot entries, lets the operator or the policy choose one, measures it,
    verifies it, loads it with LamBoot's own PE loader or with the firmware's
    LoadImage, and hands the machine over; what bears on trust is recorded in
    a log on the ESP.  This development models that run, from [efi_main] to
    the hand-over, as Rocq functions and proves what makes it correct.

    ** Files and the code they model

    Foundations:
    - [Prelude]: outcomes of Rust code ([res], with [Panic]), machine integers,
      byte strings, tactics and hints; [Compare]: comparison functions, total
      preorders, stable sorting; [RustStr]: the [str]/[String] operations on
      lists of code points, with UTF-8 and UTF-16, number parsing and
      formatting; [Utf8]: the strict and the lossy UTF-8 decoders.
    - [FsTypes], [BootTypes]: fs_types.rs (canonical paths, UUIDs),
      boot_types.rs (entries, preflight results).

    Formats and decisions:
    - [VersionOrder], [BlsParse], [BootCount]: bls_parse.rs and the
      boot-counting names of bls.rs; [Policy]: policy.rs; [Uki]: uki.rs;
      [IsoBoot]: distro_iso.rs, loopback_cfg.rs.
    - [PeLoader], [PeLoad]: pe_loader_pure.rs and pe_loader.rs over an explicit
      memory and a list of effects.
    - [SecureBoot]: sb_classify_pure.rs, boot_route_pure.rs, the posture of
      secure.rs, read_limit_pure.rs, partition_classify_pure.rs;
      [SecurityOverride]: security_override.rs and [verify_image], the hooks in
      the firmware's tables as state; [Tpm]: tpm.rs.

    Firmware interfaces and persistent state:
    - [Nvram]: UEFI variables as an interface ([NvStore], [NvLaws]) with two
      stores; its clients [Health] (health.rs, version.rs) and [NvBootEntry]
      (boot_entry.rs, boot_entry_pure.rs).
    - [TrustLog] (trust_log.rs, trust_log_pure.rs), [Report] (report.rs,
      bootlog.rs, telemetry.rs, diag.rs): what is written and how.  The log's
      files are a map from paths (FAT ignores their case); an append may stop
      after any number of bytes, as the writes of [FatFs] may.
    - [Smbios] (smbios.rs, firmware_quirks.rs, hypervisor.rs), [Acpi]
      (acpi.rs), [FwCfg] (fw_cfg.rs, fw_cfg_config.rs): tables in memory and
      the host's device, as an interface [FwCfgPort] with laws.

    Disks and volumes:
    - [BlockSource] (block_source.rs): byte sources with the alignment
      arithmetic, interface [BlockSource] with [SourceLaws]; [Partitions]
      (partitions.rs): the scan and the superblock probe; [Dispatch]
      (fs_backend_lvm_dispatch.rs): the content probe over any source and the
      choice of a reader.
    - [VolumeFs] (fs.rs, fs_backend.rs): the read cache, paths, glob; [FatFs]
      (fs_backend_fat.rs, fs_writer.rs): the writable ESP over a
      SimpleFileSystem ([Sfs], [SfsLaws]) whose calls may fail at any point.
    - [Mounts] (main.rs 369-972, fs.rs, [mount_xbootldr]): the mount passes,
      with the firmware's rule that a BlockIO is opened exclusively once.
    - [InodeFs] (fs_backend_btrfs.rs, fs_backend_xfs.rs,
      fs_backend_lvm_btrfs.rs) and [Backends] (ext4, exFAT, ZFS, lamfold, FAT
      without the firmware, and their LVM variants): the adapters between the
      external filesystem crates and the trait [FsBackend]; [code_readers]
      puts them together into the readers [Mounts] works with.  [Streams]: the
      reader traits of the crates over a source (block_source.rs), opening a
      SimpleFileSystem once, open files as streams, and the sharing of a backend
      between a volume and its streams.

    The run:
    - [BootFlow] (boot.rs), [Drivers] (drivers.rs) and [Initrd] (initrd.rs) in
      a state, error and hand-over monad; [BootHoare], [BootSafety],
      [DriverSafety]: a program logic for it and its theorems.
    - [Preflight] (preflight.rs), [Discovery] (discovery.rs,
      discovery_pure.rs, autodiscovery.rs), [Menu] (gui.rs, console.rs,
      input.rs: selection, timers, keys and pointers), [Draw] (gui.rs: the frame
      buffer, the drawing and when it is done), [Console] (console.rs: what the
      text menu prints), [InputInit] (input.rs: finding the devices).
    - [Extras]: the operations of these components that the boot path does not
      call (kernel path resolution, OS identification, directory listings, the
      error report), and the path of the running image (boot_entry.rs).
    - [MainLoop]: the menu loop of main.rs, with the order of the volumes that it
      leaves when a tool returns ([reclaim_volumes]); [Startup]: the phases before it and
      the whole run ([run_bootloader], [efi_main]), for any [Machine].

    The diagnostic modules (lamboot-modules), programs of their own:
    - [Pci] (pci-inventory, the PCI screen of diag-shell), [MemTest]
      (mem-quick, the memory screen), [DiagShell] (diag-shell, nvme-diag): the
      shell shows what [Health] recorded, and a second walk over the SMBIOS
      structures is compared with the one of [Smbios].

    The tests that run on the host (lamboot-fs-tests and the test modules):
    - [HostMirror]: the copy of the volume cache the tests use, proved to simulate
      the one of [VolumeFs], and their in-memory filesystem; [UnitTests] and
      [PureTests]: the test functions of the repository as boolean definitions on
      the model, which all evaluate to true.

    ** What the theorems show

    - Trust, for a whole run ([Startup]) and for each attempt ([BootSafety],
      [DriverSafety], [SecurityOverride], [SecureBoot]): nothing starts that
      was not measured and recorded before; under Secure Boot nothing starts
      that neither shim nor the firmware accepted, unless the operator set
      native_pe to always; command lines are the measured ones; the override
      adds exactly shim's approval and is gone after every return; detection
      fails closed.
    - Recovery ([Startup], [MainLoop], [Menu], [Health], [BootCount]): the
      crash counter counts the runs since the last success; at the threshold
      a run boots unattended (as the code's comments say, not the guides); a
      menu left alone boots its default.
    - Memory safety and input formats ([PeLoad], [PeLoader], [Smbios], [Acpi],
      [Uki], [Policy], [BlsParse]): on arbitrary bytes no access leaves its
      bounds; accepted inputs mean what the reference says; the inputs that
      panic are characterised.
    - Storage ([FatFs], [VolumeFs], [BlockSource], [Dispatch], [Mounts],
      [InodeFs], [Backends], [Streams], [TrustLog], [Report], [NvBootEntry]): appends
      never lose, caches cannot be observed through one spelling of a path,
      sources return the requested
      bytes or an error, no partition is held twice, every readable partition
      is mounted, a file read through any backend is its bytes, symbolic links
      end, a stream is a cursor over the bytes of its file, logs and reports
      read back.
    - Presentation ([Menu], [Draw], [Console], [InputInit]): the screen shows
      the current state whenever input is awaited, a pointer selects what is
      drawn under it, no drawing leaves the buffer.
    - Diagnosis ([Pci], [MemTest], [DiagShell]): the inventory lists exactly
      the functions that answer, the memory tests find exactly the stuck bits
      and the address faults that are stated, the shell ends whatever the
      tables hold and shows what was recorded.

    ** Conventions, bounds and assumptions

    Integers are [Z] with the width's wrap-around, saturation or check written
    out; characters are code points, bytes are integers from 0 to 255.  A loop
    that is not structural takes fuel, with a proof that it suffices: version
    comparison (characters of both strings plus one), relocation (bytes of the
    directory), the fill loops of byte sources and of the backends (bytes asked for; each
    read returns at least one), symbolic links (41 rounds, as in the code), the ZFS label scan (its slots), the walks over
    SMBIOS, DMAR and IVRS tables (their bytes; every structure takes at least
    one; out of fuel would count as a panic, which the theorems exclude), UTF-8
    decoding (bytes), the Secure Boot read (two rounds), hooked calls (two
    rounds: a longer chain is a hook that calls itself for ever, reported as not
    returning).  A session takes as many rounds as the list that says what
    happens at its menus.

    Code outside the repository is a parameter: firmware services, shim, TPM,
    SHA-256, CPUID, the external filesystem crates, the compiled-in fonts and
    logo ([assets_ok]: their sizes).  What is assumed of it is a
    named hypothesis with an instance that satisfies it: [NvLaws] and
    [NvWritable] (variables), [SfsLaws] (files), [SourceLaws] and [device]
    (blocks), [FwCfgLaws] (the host's device), [memory] (a read returns as many
    bytes as asked for), [authenticates] (LoadImage consults the
    authentication services), [mount_env] (readers return).

    ** Not modelled

    Progress messages, the console reconnection and the breadcrumbs that boot.rs
    and pe_loader.rs print and store while an entry starts; reading LVM metadata
    and the external filesystem crates; the watchdog.  Of the tests on the host,
    those that need filesystem images, a built boot loader or an implementation
    of SHA-256. *)
From stdpp Require Export base list strings gmap sorting.
From Stdlib Require Export ZArith Lia.

Declare Scope lam_scope.
Delimit Scope lam_scope with lam.
Global Open Scope lam_scope.
Local Open Scope Z_scope.

#[global] Arguments Z.eqb : simpl never.
#[global] Arguments Z.leb : simpl never.
#[global] Arguments Z.ltb : simpl never.
#[global] Arguments Z.compare : simpl never.
#[global] Arguments Z.of_nat : simpl never.

(** ** Outcomes of Rust code

    A Rust function that returns [Result<A, E>] has three outcomes: the two
    values of the result, and a panic (which aborts the boot, the profile
    being [panic = "abort"]).  Code that cannot panic is modelled with [Ok]
    and [Err] only; indexing and slicing go through operations that produce
    [Panic] exactly where Rust does. *)
Inductive res (E A : Type) : Type :=
  | Ok (a : A)
  | Err (e : E)
  | Panic.
Arguments Ok {E A} a.
Arguments Err {E A} e.
Arguments Panic {E A}.

Definition res_bind {E A B : Type} (c : res E A) (k : A -> res E B) : res E B :=
  match c with
  | Ok a => k a
  | Err e => Err e
  | Panic => Panic
  end.

Notation "'let?' x := c 'in' k" := (res_bind c (fun x => k))
  (at level 10, x name, c at level 100, k at level 200,
   format "'[v' 'let?'  x  :=  c  'in' '/' k ']'") : lam_scope.
Notation "'guard?' b 'else' e 'in' k" := (if b then k else Err e)
  (at level 10, b at level 100, e at level 100, k at level 200,
   format "'[v' 'guard?'  b  'else'  e  'in' '/' k ']'") : lam_scope.

(** [ok_or]: the Rust adapter from [Option] to [Result]. *)
Definition ok_or {E A : Type} (o : option A) (e : E) : res E A :=
  match o with Some a => Ok a | None => Err e end.

(** [.ok()]: a panic stays a panic, so this is only used on calls that are
    proved not to panic; it maps [Panic] to [None]. *)
Definition res_ok {E A : Type} (r : res E A) : option A :=
  match r with Ok a => Some a | _ => None end.

(** [safe P r]: [r] does not panic, and its value satisfies [P] when it is [Ok].
    The lemmas below are the rules of a small logic for [res] programs. *)
Definition safe {E A : Type} (P : A -> Prop) (r : res E A) : Prop :=
  match r with Ok a => P a | Err _ => True | Panic => False end.

Lemma safe_bind {E A B : Type} (Q : A -> Prop) (P : B -> Prop) (c : res E A) (k : A -> res E B) :
  safe Q c -> (forall a, Q a -> safe P (k a)) -> safe P (res_bind c k).
Proof. destruct c; simpl; auto. Qed.

Lemma safe_guard {E A : Type} (P : A -> Prop) (b : bool) (e : E) (k : res E A) :
  (b = true -> safe P k) -> safe P (if b then k else Err e).
Proof. destruct b; simpl; auto. Qed.

Lemma safe_if {E A : Type} (P : A -> Prop) (b : bool) (x y : res E A) :
  (b = true -> safe P x) -> (b = false -> safe P y) -> safe P (if b then x else y).
Proof. destruct b; auto. Qed.

Lemma safe_mono {E A : Type} (P Q : A -> Prop) (r : res E A) :
  safe P r -> (forall a, P a -> Q a) -> safe Q r.
Proof. destruct r; simpl; auto. Qed.

Lemma safe_no_panic {E A : Type} (P : A -> Prop) (r : res E A) : safe P r -> r <> Panic.
Proof. by destruct r. Qed.

Lemma safe_ok {E A : Type} (P : A -> Prop) (r : res E A) (a : A) : safe P r -> r = Ok a -> P a.
Proof. by intros ? ->. Qed.

Lemma res_bind_ok {E A B : Type} (c : res E A) (k : A -> res E B) (b : B) :
  res_bind c k = Ok b -> exists a, c = Ok a /\ k a = Ok b.
Proof. destruct c; simpl; [eauto | done | done]. Qed.

(** ** Fixed-width integers *)
Definition u8_max : Z := 255.
Definition u16_max : Z := 65535.
Definition u32_max : Z := 4294967295.
Definition u64_max : Z := 18446744073709551615.
(** The targets are [x86_64-unknown-uefi] and [aarch64-unknown-uefi], so a
    [usize] has 64 bits and no allocation is longer than [isize::MAX]. *)
Definition usize_max : Z := u64_max.
Definition isize_max : Z := 9223372036854775807.

Definition wrap (w z : Z) : Z := z mod 2 ^ w.
Definition wrapping_add (w a b : Z) : Z := wrap w (a + b).
Definition wrapping_sub (w a b : Z) : Z := wrap w (a - b).
Definition saturating_add (max a b : Z) : Z := Z.min max (a + b).
Definition saturating_mul (max a b : Z) : Z := Z.min max (a * b).

Definition is_byte (b : Z) : Prop := 0 <= b <= 255.

#[export] Instance is_byte_dec (b : Z) : Decision (is_byte b).
Proof. unfold is_byte. apply _. Defined.

(** [len]: the length of a slice as the [usize] Rust computes with. *)
Definition len {A : Type} (l : list A) : Z := Z.of_nat (length l).

Lemma len_nonneg {A : Type} (l : list A) : 0 <= len l.
Proof. unfold len; lia. Qed.

Lemma len_app {A : Type} (l k : list A) : len (l ++ k) = len l + len k.
Proof. unfold len. rewrite length_app. lia. Qed.

Lemma len_cons {A : Type} (x : A) (l : list A) : len (x :: l) = 1 + len l.
Proof. unfold len. simpl length. lia. Qed.

Lemma len_nil {A : Type} : len ([] : list A) = 0.
Proof. done. Qed.

Create Rewrite HintDb lamlen.
#[export] Hint Rewrite @len_app @len_cons @len_nil : lamlen.

(** ** Slices: [&b[lo..hi]], [b.get(lo..hi)], and writing a sub-slice *)
Definition in_range {A : Type} (lo hi : Z) (l : list A) : bool :=
  (0 <=? lo) && (lo <=? hi) && (hi <=? len l).

Definition sub_list {A : Type} (lo hi : Z) (l : list A) : list A :=
  take (Z.to_nat (hi - lo)) (drop (Z.to_nat lo) l).

Definition slice {E A : Type} (lo hi : Z) (l : list A) : res E (list A) :=
  if in_range lo hi l then Ok (sub_list lo hi l) else Panic.

Definition get_range {A : Type} (lo hi : Z) (l : list A) : option (list A) :=
  if in_range lo hi l then Some (sub_list lo hi l) else None.

Definition index {E A : Type} (i : Z) (l : list A) : res E A :=
  match (if 0 <=? i then l !! Z.to_nat i else None) with
  | Some a => Ok a
  | None => Panic
  end.

(** [image[lo..lo + src.len()].copy_from_slice(src)] *)
Definition splice {A : Type} (lo : Z) (src l : list A) : list A :=
  take (Z.to_nat lo) l ++ src ++ drop (Z.to_nat lo + length src) l.

Lemma in_range_spec {A : Type} (lo hi : Z) (l : list A) :
  in_range lo hi l = true <-> 0 <= lo <= hi /\ hi <= len l.
Proof. unfold in_range. rewrite !andb_true_iff, !Z.leb_le. lia. Qed.

Lemma slice_ok {E A : Type} (lo hi : Z) (l : list A) :
  0 <= lo <= hi -> hi <= len l -> @slice E A lo hi l = Ok (sub_list lo hi l).
Proof.
  intros. unfold slice. destruct (in_range lo hi l) eqn:H1; [done|].
  apply not_true_iff_false in H1. rewrite in_range_spec in H1. lia.
Qed.

Lemma get_range_some {A : Type} (lo hi : Z) (l s : list A) :
  get_range lo hi l = Some s <->
  (0 <= lo <= hi /\ hi <= len l) /\ s = sub_list lo hi l.
Proof.
  unfold get_range. destruct (in_range lo hi l) eqn:H1.
  - apply in_range_spec in H1. split; [by intros [= <-]|by intros [_ ->]].
  - apply not_true_iff_false in H1. rewrite in_range_spec in H1.
    split; [done|by intros [? _]].
Qed.

Lemma index_in {E A : Type} (i : Z) (l : list A) : 0 <= i < len l -> exists a, @index E A i l = Ok a.
Proof.
  intros Hi. unfold index. rewrite (proj2 (Z.leb_le _ _)) by lia.
  destruct (lookup_lt_is_Some_2 l (Z.to_nat i)) as [a ->]; [unfold len in Hi; lia|eauto].
Qed.

Lemma index_out {E A : Type} (i : Z) (l : list A) : len l <= i -> @index E A i l = Panic.
Proof.
  intros Hi. unfold index. destruct (0 <=? i); [|done].
  by rewrite lookup_ge_None_2 by (unfold len in Hi; lia).
Qed.

Lemma length_sub_list {A : Type} (lo hi : Z) (l : list A) :
  0 <= lo <= hi -> hi <= len l -> length (sub_list lo hi l) = Z.to_nat (hi - lo).
Proof.
  unfold sub_list, len. intros. rewrite length_take, length_drop. lia.
Qed.

Lemma length_splice {A : Type} (lo : Z) (src l : list A) :
  0 <= lo -> lo + len src <= len l -> length (splice lo src l) = length l.
Proof.
  unfold splice, len. intros. rewrite !length_app, length_take, length_drop. lia.
Qed.

Lemma sub_list_lookup {A : Type} (lo hi : Z) (l : list A) (i : nat) :
  (i < Z.to_nat (hi - lo))%nat -> sub_list lo hi l !! i = l !! (Z.to_nat lo + i)%nat.
Proof. intros. unfold sub_list. rewrite lookup_take_lt by done. by rewrite lookup_drop. Qed.

Lemma splice_lookup_outside {A : Type} (lo : Z) (src l : list A) (i : nat) :
  0 <= lo -> lo + len src <= len l ->
  (Z.of_nat i < lo \/ lo + len src <= Z.of_nat i) ->
  splice lo src l !! i = l !! i.
Proof.
  unfold splice, len. intros ? ? [Hi|Hi].
  - rewrite lookup_app_l by (rewrite length_take; lia).
    by rewrite lookup_take_lt by lia.
  - rewrite lookup_app_r by (rewrite length_take; lia).
    rewrite length_take, lookup_app_r by lia.
    rewrite lookup_drop. f_equal. lia.
Qed.

Lemma sub_list_splice_same {A : Type} (lo : Z) (src l : list A) :
  0 <= lo -> lo + len src <= len l ->
  sub_list lo (lo + len src) (splice lo src l) = src.
Proof.
  unfold sub_list, splice, len. intros.
  replace (Z.to_nat (lo + Z.of_nat (length src) - lo)) with (length src) by lia.
  rewrite drop_app_length' by (rewrite length_take; lia).
  apply take_app_length.
Qed.

Lemma splice_sub_list {A : Type} (lo hi : Z) (l : list A) :
  0 <= lo <= hi -> hi <= len l -> splice lo (sub_list lo hi l) l = l.
Proof.
  intros H1 H2. apply list_eq. intros i. unfold splice.
  rewrite (length_sub_list lo hi l) by done. unfold len in *.
  destruct (decide (i < Z.to_nat lo)%nat).
  { rewrite lookup_app_l by (rewrite length_take; lia). by rewrite lookup_take_lt by lia. }
  rewrite lookup_app_r by (rewrite length_take; lia). rewrite length_take.
  rewrite Nat.min_l by lia.
  destruct (decide (i < Z.to_nat hi)%nat).
  - rewrite lookup_app_l by (rewrite length_sub_list; unfold len; lia).
    rewrite sub_list_lookup by lia. f_equal; lia.
  - rewrite lookup_app_r by (rewrite length_sub_list; unfold len; lia).
    rewrite length_sub_list by (unfold len; lia). rewrite lookup_drop. f_equal; lia.
Qed.

Lemma splice_splice {A : Type} (lo : Z) (s1 s2 l : list A) :
  0 <= lo -> lo + len s1 <= len l -> length s1 = length s2 ->
  splice lo s2 (splice lo s1 l) = splice lo s2 l.
Proof.
  unfold splice, len. intros H1 H2 H3.
  rewrite take_app_le by (rewrite length_take; lia).
  rewrite take_take, Nat.min_id. f_equal. f_equal.
  rewrite drop_app_ge by (rewrite length_take; lia).
  rewrite length_take, drop_app_ge by lia.
  rewrite drop_drop. f_equal. lia.
Qed.

Lemma Forall_sub_list {A : Type} (P : A -> Prop) (lo hi : Z) (l : list A) :
  Forall P l -> Forall P (sub_list lo hi l).
Proof. intros. unfold sub_list. by apply Forall_take, Forall_drop. Qed.

Lemma Forall_splice {A : Type} (P : A -> Prop) (lo : Z) (src l : list A) :
  Forall P src -> Forall P l -> Forall P (splice lo src l).
Proof. intros. unfold splice. rewrite !Forall_app. auto using Forall_take, Forall_drop. Qed.

(** ** Little-endian byte codecs: [from_le_bytes] and [to_le_bytes] *)
Fixpoint from_le (bs : list Z) : Z :=
  match bs with
  | [] => 0
  | b :: bs' => b + 256 * from_le bs'
  end.

Fixpoint to_le (n : nat) (z : Z) : list Z :=
  match n with
  | O => []
  | S n' => z mod 256 :: to_le n' (z / 256)
  end.

Lemma length_to_le (n : nat) (z : Z) : length (to_le n z) = n.
Proof. revert z. induction n; simpl; intros; congruence. Qed.

Lemma len_to_le (n : nat) (z : Z) : len (to_le n z) = Z.of_nat n.
Proof. unfold len. by rewrite length_to_le. Qed.

Lemma to_le_bytes (n : nat) (z : Z) : Forall is_byte (to_le n z).
Proof.
  revert z. induction n; simpl; intros; constructor; [|done].
  pose proof (Z.mod_pos_bound z 256 ltac:(lia)). unfold is_byte. lia.
Qed.

Lemma from_le_bound (bs : list Z) :
  Forall is_byte bs -> 0 <= from_le bs < 256 ^ Z.of_nat (length bs).
Proof.
  induction 1 as [|b bs Hb _ IH]; [simpl; lia|].
  simpl length. rewrite Nat2Z.inj_succ, Z.pow_succ_r by lia.
  unfold is_byte in Hb. simpl from_le. lia.
Qed.

Lemma from_to_le (n : nat) (z : Z) :
  0 <= z < 256 ^ Z.of_nat n -> from_le (to_le n z) = z.
Proof.
  revert z. induction n as [|n IH]; intros z Hz; simpl; [simpl in Hz; lia|].
  rewrite Nat2Z.inj_succ, Z.pow_succ_r in Hz by lia.
  rewrite IH by (split; [apply Z.div_pos; lia | apply Z.div_lt_upper_bound; lia]).
  pose proof (Z.div_mod z 256). lia.
Qed.

Lemma to_from_le (bs : list Z) :
  Forall is_byte bs -> to_le (length bs) (from_le bs) = bs.
Proof.
  induction 1 as [|b bs Hb _ IH]; [done|]. simpl. unfold is_byte in Hb. f_equal.
  - rewrite Z.mul_comm, Z_mod_plus_full. apply Z.mod_small; lia.
  - rewrite Z.mul_comm, Z.div_add, Z.div_small by lia. simpl. done.
Qed.

(** Cutting a sequence at a separator. *)
Lemma drop_app_cons {A : Type} (l r : list A) (c : A) : drop (S (length l)) (l ++ c :: r) = r.
Proof. induction l; simpl; [by rewrite drop_0|done]. Qed.

Lemma Forall_sublist_of {A : Type} (P : A -> Prop) (l k : list A) : l `sublist_of` k -> Forall P k -> Forall P l.
Proof. rewrite !Forall_forall. intros Hl Hk x Hx. by eapply Hk, elem_of_sublist. Qed.
