(* ===== verification/Compare.v ===== *)
(** * Comparators and stable sorting

    [core::cmp::Ordering] is Rocq's [comparison].  This file states what
    [slice::sort_by] requires of a comparator (the class [TotalCmp]), builds
    the comparators the boot menu uses from smaller ones, and models the
    stable sort with its two guarantees. *)
From S2P Require Import Prelude.
Local Open Scope Z_scope.

(** What Rust's [slice::sort_by] requires: reversing the arguments reverses
    the answer, and "not greater" is transitive. *)
Class TotalCmp {A : Type} (cmp : A -> A -> comparison) : Prop := {
  cmp_opp : forall x y, cmp y x = CompOpp (cmp x y);
  cmp_le_trans : forall x y z, cmp x y <> Gt -> cmp y z <> Gt -> cmp x z <> Gt
}.

Arguments cmp_opp {A} cmp {_} x y : rename.
Arguments cmp_le_trans {A} cmp {_} x y z : rename.

(** [Ordering::then]: the second answer decides only when the first is equal. *)
Definition cmp_then (c d : comparison) : comparison :=
  match c with Eq => d | _ => c end.

Definition cmp_le {A : Type} (cmp : A -> A -> comparison) (x y : A) : Prop :=
  cmp x y <> Gt.

(** Lexicographic comparison of sequences ([Ord] of slices, [str] and [Vec]):
    a proper prefix is smaller. *)
Fixpoint lex_cmp {A : Type} (cmp : A -> A -> comparison) (xs ys : list A) : comparison :=
  match xs, ys with
  | [], [] => Eq
  | [], _ :: _ => Lt
  | _ :: _, [] => Gt
  | x :: xs', y :: ys' => cmp_then (cmp x y) (lex_cmp cmp xs' ys')
  end.

(** [slice::sort_by], a stable sort: an element goes before the first one it
    is not greater than, so equal elements keep their order. *)
Fixpoint insert_by {A : Type} (cmp : A -> A -> comparison) (x : A) (l : list A) : list A :=
  match l with
  | [] => [x]
  | y :: l' => match cmp x y with
               | Gt => y :: insert_by cmp x l'
               | _ => x :: y :: l'
               end
  end.

Fixpoint sort_by {A : Type} (cmp : A -> A -> comparison) (l : list A) : list A :=
  match l with
  | [] => []
  | x :: l' => insert_by cmp x (sort_by cmp l')
  end.

Section total_cmp.
Context {A : Type} (cmp : A -> A -> comparison) {Hcmp : TotalCmp cmp}.

Lemma cmp_refl (x : A) : cmp x x = Eq.
Proof. pose proof (cmp_opp cmp x x). by destruct (cmp x x). Qed.

Lemma cmp_eq_sym (x y : A) : cmp x y = Eq -> cmp y x = Eq.
Proof. rewrite (cmp_opp cmp x y). by intros ->. Qed.

Lemma cmp_eq_l (x y z : A) : cmp x y = Eq -> cmp x z = cmp y z.
Proof.
  intros H. pose proof (cmp_eq_sym _ _ H) as H'.
  pose proof (cmp_le_trans cmp x y z) as T1. pose proof (cmp_le_trans cmp y x z) as T2.
  pose proof (cmp_le_trans cmp z x y) as T3. pose proof (cmp_le_trans cmp z y x) as T4.
  rewrite (cmp_opp cmp x z) in T3, T4. rewrite (cmp_opp cmp y z) in T3, T4.
  rewrite H in *. rewrite H' in *.
  destruct (cmp x z), (cmp y z); simpl in *; try done; exfalso; intuition congruence.
Qed.

Lemma cmp_eq_r (x y z : A) : cmp x y = Eq -> cmp z x = cmp z y.
Proof. intros H. rewrite (cmp_opp cmp x z), (cmp_opp cmp y z). by rewrite (cmp_eq_l x y z H). Qed.

Lemma cmp_lt_trans (x y z : A) : cmp x y = Lt -> cmp y z = Lt -> cmp x z = Lt.
Proof.
  intros E1 E2. pose proof (cmp_le_trans cmp x y z) as T. rewrite E1, E2 in T.
  destruct (cmp x z) eqn:E3; [|done|exfalso; intuition congruence].
  rewrite <- (cmp_eq_r x z y E3), (cmp_opp cmp x y), E1 in E2. done.
Qed.

Lemma insert_by_sorted (x : A) (l : list A) :
  StronglySorted (cmp_le cmp) l -> StronglySorted (cmp_le cmp) (insert_by cmp x l).
Proof.
  induction 1 as [|y l Hs IH Hf]; simpl; [repeat constructor|].
  assert (cmp x y <> Gt -> StronglySorted (cmp_le cmp) (x :: y :: l)) as Hle.
  { intros Hxy. repeat constructor; try done.
    eapply Forall_impl; [exact Hf|]. intros z. by apply cmp_le_trans. }
  destruct (cmp x y) eqn:E; [by apply Hle|by apply Hle|].
  constructor; [done|].
  assert (forall k, Forall (cmp_le cmp y) k -> Forall (cmp_le cmp y) (insert_by cmp x k))
    as Hins; [|by apply Hins].
  assert (cmp_le cmp y x) by (unfold cmp_le; by rewrite (cmp_opp cmp x y), E).
  induction 1; simpl; [by repeat constructor|].
  destruct (cmp x x0); repeat constructor; done.
Qed.

Lemma sort_by_sorted (l : list A) : StronglySorted (cmp_le cmp) (sort_by cmp l).
Proof. induction l; simpl; [constructor|]. by apply insert_by_sorted. Qed.
End total_cmp.

Lemma insert_by_perm {A : Type} (cmp : A -> A -> comparison) (x : A) (l : list A) :
  insert_by cmp x l ≡ₚ x :: l.
Proof.
  induction l as [|y l IH]; simpl; [done|].
  destruct (cmp x y); [done|done|]. rewrite IH. apply Permutation_swap.
Qed.

Lemma sort_by_perm {A : Type} (cmp : A -> A -> comparison) (l : list A) :
  sort_by cmp l ≡ₚ l.
Proof. induction l as [|x l IH]; simpl; [done|]. by rewrite insert_by_perm, IH. Qed.

Lemma sort_by_length {A : Type} (cmp : A -> A -> comparison) (l : list A) :
  length (sort_by cmp l) = length l.
Proof. apply Permutation_length, sort_by_perm. Qed.

(** ** Comparators built from others *)
#[export] Instance total_cmp_Z : TotalCmp Z.compare.
Proof.
  split; [intros; by rewrite Z.compare_antisym|].
  intros x y z. rewrite !Z.compare_gt_iff. lia.
Qed.

Lemma total_cmp_flip {A : Type} (cmp : A -> A -> comparison) :
  TotalCmp cmp -> TotalCmp (fun x y => CompOpp (cmp x y)).
Proof.
  intros [H1 H2]. split.
  - intros. by rewrite (H1 x y).
  - intros x y z Hxy Hyz. specialize (H2 z y x).
    rewrite (H1 x y), (H1 y z), (H1 x z) in H2. auto.
Qed.

Lemma total_cmp_on {A B : Type} (f : A -> B) (cmp : B -> B -> comparison) :
  TotalCmp cmp -> TotalCmp (fun x y => cmp (f x) (f y)).
Proof. intros [H1 H2]. split; eauto. Qed.

Lemma total_cmp_ext {A : Type} (c d : A -> A -> comparison) :
  (forall x y, c x y = d x y) -> TotalCmp c -> TotalCmp d.
Proof. intros H [H1 H2]. split; intros *; rewrite <- !H; eauto. Qed.

Lemma total_cmp_then {A : Type} (c d : A -> A -> comparison) :
  TotalCmp c -> TotalCmp d -> TotalCmp (fun x y => cmp_then (c x y) (d x y)).
Proof.
  intros Hc Hd. split.
  - intros x y. rewrite (cmp_opp c x y), (cmp_opp d x y).
    by destruct (c x y), (d x y).
  - intros x y z Hxy Hyz.
    destruct (c x y) eqn:E1; simpl in Hxy; [..|done].
    + rewrite (cmp_eq_l c x y z E1). destruct (c y z); simpl in *; eauto using cmp_le_trans.
    + destruct (c y z) eqn:E2; simpl in Hyz; [..|done].
      * rewrite <- (cmp_eq_r c y z x E2), E1. done.
      * rewrite (cmp_lt_trans c x y z E1 E2). done.
Qed.

#[export] Instance total_cmp_lex {A : Type} (cmp : A -> A -> comparison) :
  TotalCmp cmp -> TotalCmp (lex_cmp cmp).
Proof.
  intros Hc. split.
  - intros x. induction x as [|a x IH]; intros [|b y]; simpl; [done..|].
    rewrite (cmp_opp cmp a b), IH. by destruct (cmp a b), (lex_cmp cmp x y).
  - intros x. induction x as [|a x IH]; intros [|b y] [|c z]; simpl; try done.
    intros Hxy Hyz.
    destruct (cmp a b) eqn:E1; simpl in Hxy; [..|done].
    + rewrite (cmp_eq_l cmp a b c E1). destruct (cmp b c); simpl in *; eauto.
    + destruct (cmp b c) eqn:E2; simpl in Hyz; [..|done].
      * rewrite <- (cmp_eq_r cmp b c a E2), E1. done.
      * rewrite (cmp_lt_trans cmp a b c E1 E2). done.
Qed.

Lemma lex_cmp_eq {A : Type} (cmp : A -> A -> comparison) (xs ys : list A) :
  (forall x y, cmp x y = Eq -> x = y) -> lex_cmp cmp xs ys = Eq -> xs = ys.
Proof.
  intros Hc. revert ys. induction xs as [|x xs IH]; intros [|y ys]; simpl; try done.
  destruct (cmp x y) eqn:E; simpl; [|done|done].
  intros H. f_equal; eauto.
Qed.

(** A second comparator that only behaves within the classes of the first. *)
Lemma total_cmp_then_class {A : Type} (c d : A -> A -> comparison) :
  TotalCmp c ->
  (forall x y, c x y = Eq -> d y x = CompOpp (d x y)) ->
  (forall x y z, c x y = Eq -> c y z = Eq -> d x y <> Gt -> d y z <> Gt -> d x z <> Gt) ->
  TotalCmp (fun x y => cmp_then (c x y) (d x y)).
Proof.
  intros Hc Hopp Htr. split.
  - intros x y. rewrite (cmp_opp c x y). specialize (Hopp x y).
    destruct (c x y); simpl; auto.
  - intros x y z Hxy Hyz.
    destruct (c x y) eqn:E1; simpl in Hxy; [..|done].
    + rewrite (cmp_eq_l c x y z E1). destruct (c y z) eqn:E2; simpl in *; eauto.
    + destruct (c y z) eqn:E2; simpl in Hyz; [..|done].
      * rewrite <- (cmp_eq_r c y z x E2), E1. done.
      * rewrite (cmp_lt_trans c x y z E1 E2). done.
Qed.

(** Sorting only looks at the comparisons between the elements. *)
Lemma insert_by_ext {A : Type} (c d : A -> A -> comparison) (x : A) (l : list A) :
  (forall y, y ∈ l -> c x y = d x y) -> insert_by c x l = insert_by d x l.
Proof.
  induction l as [|y l IH]; intros H; simpl; [done|].
  rewrite (H y) by set_solver. destruct (d x y); [done|done|]. f_equal. apply IH. set_solver.
Qed.

Lemma sort_by_ext {A : Type} (c d : A -> A -> comparison) (l : list A) :
  (forall x y, x ∈ l -> y ∈ l -> c x y = d x y) -> sort_by c l = sort_by d l.
Proof.
  induction l as [|x l IH]; intros H; simpl; [done|].
  rewrite IH by set_solver. apply insert_by_ext. intros y Hy.
  apply H; [set_solver|]. rewrite sort_by_perm in Hy. set_solver.
Qed.

Lemma StronglySorted_impl_in {A : Type} (R S : A -> A -> Prop) (l : list A) :
  (forall x y, x ∈ l -> y ∈ l -> R x y -> S x y) -> StronglySorted R l -> StronglySorted S l.
Proof.
  intros H Hs. induction Hs as [|x l Hs IH Hf]; [constructor|]. constructor.
  - apply IH. set_solver.
  - rewrite Forall_forall in *. intros y Hy. apply H; [set_solver..|]. by apply Hf.
Qed.
