(* ===== verification/RustStr.v ===== *)
(** * Rust strings

    A [str] is modelled as the list of its [char]s, each a Unicode scalar
    value in [Z]; [str_bytes] is its UTF-8 encoding.  Rust addresses strings
    by byte offset, but every offset in the modelled code comes from a search
    and is used to cut at the place found, so positions are character indices
    here.  The order of UTF-8 strings is the order of their code points, so
    [str_cmp] is the [Ord] of [str].

    [to_lowercase] is exact on ASCII and on the two characters whose lower
    case contains ASCII (U+0130 and U+212A); every other character is kept,
    which no comparison with an ASCII pattern can tell from its lower case. *)
From S2P Require Import Prelude Compare.
Local Open Scope Z_scope.

Abbreviation str := (list Z).

(** ASCII literals *)
Definition lit (s : string) : list Z :=
  (fun a => Z.of_N (Ascii.N_of_ascii a)) <$> String.list_ascii_of_string s.
Arguments lit : simpl never.

Definition c_tab : Z := 9.
Definition c_lf : Z := 10.
Definition c_cr : Z := 13.
Definition c_space : Z := 32.
Definition c_quote : Z := 34.
Definition c_hash : Z := 35.
Definition c_dollar : Z := 36.
Definition c_squote : Z := 39.
Definition c_lparen : Z := 40.
Definition c_rparen : Z := 41.
Definition c_star : Z := 42.
Definition c_plus : Z := 43.
Definition c_comma : Z := 44.
Definition c_dash : Z := 45.
Definition c_dot : Z := 46.
Definition c_slash : Z := 47.
Definition c_colon : Z := 58.
Definition c_equals : Z := 61.
Definition c_lbracket : Z := 91.
Definition c_backslash : Z := 92.
Definition c_rbracket : Z := 93.
Definition c_caret : Z := 94.
Definition c_underscore : Z := 95.
Definition c_lbrace : Z := 123.
Definition c_rbrace : Z := 125.
Definition c_tilde : Z := 126.

(** ** Character classes *)
Definition is_scalar (c : Z) : bool :=
  ((0 <=? c) && (c <=? 55295)) || ((57344 <=? c) && (c <=? 1114111)).

Definition is_ascii_digit (c : Z) : bool := (48 <=? c) && (c <=? 57).
Definition is_ascii_uppercase (c : Z) : bool := (65 <=? c) && (c <=? 90).
Definition is_ascii_lowercase (c : Z) : bool := (97 <=? c) && (c <=? 122).
Definition is_ascii_alphabetic (c : Z) : bool :=
  is_ascii_uppercase c || is_ascii_lowercase c.
Definition is_ascii_alphanumeric (c : Z) : bool :=
  is_ascii_alphabetic c || is_ascii_digit c.
Definition is_ascii_hexdigit (c : Z) : bool :=
  is_ascii_digit c || ((65 <=? c) && (c <=? 70)) || ((97 <=? c) && (c <=? 102)).
(** [u8::is_ascii_whitespace]: no vertical tab. *)
Definition is_ascii_whitespace (c : Z) : bool :=
  (c =? 9) || (c =? 10) || (c =? 12) || (c =? 13) || (c =? 32).
(** [char::is_whitespace]: the Unicode [White_Space] property. *)
Definition is_whitespace (c : Z) : bool :=
  ((9 <=? c) && (c <=? 13)) || (c =? 32) || (c =? 133) || (c =? 160)
  || (c =? 5760) || ((8192 <=? c) && (c <=? 8202)) || (c =? 8232)
  || (c =? 8233) || (c =? 8239) || (c =? 8287) || (c =? 12288).

(** ** Searching *)
Fixpoint find_char (p : Z -> bool) (s : str) : option nat :=
  match s with
  | [] => None
  | c :: s' => if p c then Some O else S <$> find_char p s'
  end.

Fixpoint rfind_char (p : Z -> bool) (s : str) : option nat :=
  match s with
  | [] => None
  | c :: s' => match rfind_char p s' with
               | Some i => Some (S i)
               | None => if p c then Some O else None
               end
  end.

Fixpoint strip_prefix (pre s : str) : option (list Z) :=
  match pre, s with
  | [], _ => Some s
  | _ :: _, [] => None
  | a :: pre', b :: s' => if a =? b then strip_prefix pre' s' else None
  end.

Definition strip_suffix (suf s : str) : option (list Z) :=
  reverse <$> strip_prefix (reverse suf) (reverse s).

Definition starts_with (pre s : str) : bool := bool_decide (is_Some (strip_prefix pre s)).
Definition ends_with (suf s : str) : bool := bool_decide (is_Some (strip_suffix suf s)).

Fixpoint find_sub (pat s : str) : option nat :=
  if starts_with pat s then Some O
  else match s with
       | [] => None
       | _ :: s' => S <$> find_sub pat s'
       end.

Definition contains (pat s : str) : bool := bool_decide (is_Some (find_sub pat s)).
Definition contains_char (c : Z) (s : str) : bool := existsb (Z.eqb c) s.

(** ** Trimming *)
Fixpoint drop_while (p : Z -> bool) (s : str) : list Z :=
  match s with
  | [] => []
  | c :: s' => if p c then drop_while p s' else s
  end.

Fixpoint take_while (p : Z -> bool) (s : str) : list Z :=
  match s with
  | [] => []
  | c :: s' => if p c then c :: take_while p s' else []
  end.

Definition drop_while_end (p : Z -> bool) (s : str) : list Z :=
  reverse (drop_while p (reverse s)).

Definition trim_start (s : str) : list Z := drop_while is_whitespace s.
Definition trim_end (s : str) : list Z := drop_while_end is_whitespace s.
Definition trim (s : str) : list Z := trim_end (trim_start s).
(** [trim_matches(c)] for a character. *)
Definition trim_matches (c : Z) (s : str) : list Z :=
  drop_while_end (Z.eqb c) (drop_while (Z.eqb c) s).

(** [trim_end_matches(suf)] for a non-empty pattern: every trailing copy goes.
    Each round removes at least one character, so the length is enough fuel. *)
Fixpoint trim_end_matches_go (fuel : nat) (suf s : str) : list Z :=
  match fuel with
  | O => s
  | S n => match strip_suffix suf s with
           | Some s' => trim_end_matches_go n suf s'
           | None => s
           end
  end.
Definition trim_end_matches (suf s : str) : list Z :=
  trim_end_matches_go (length s) suf s.

(** ** Splitting *)
Fixpoint split_on (p : Z -> bool) (s : str) : list (list Z) :=
  match s with
  | [] => [[]]
  | c :: s' =>
      if p c then [] :: split_on p s'
      else match split_on p s' with
           | [] => [[c]]
           | w :: ws => (c :: w) :: ws
           end
  end.

Definition split_char (c : Z) (s : str) : list (list Z) := split_on (Z.eqb c) s.

Definition is_empty (s : str) : bool := match s with [] => true | _ => false end.

Definition split_whitespace (s : str) : list (list Z) :=
  List.filter (fun w => negb (is_empty w)) (split_on is_whitespace s).

Definition chomp_cr (l : str) : list Z :=
  match strip_suffix [c_cr] l with Some l' => l' | None => l end.

(** [str::lines]: the text after the last newline is a line only when it is
    not empty, and keeps its carriage return. *)
Fixpoint lines_of (ps : list (list Z)) : list (list Z) :=
  match ps with
  | [] => []
  | [p] => if is_empty p then [] else [p]
  | p :: ps' => chomp_cr p :: lines_of ps'
  end.
Definition lines (s : str) : list (list Z) := lines_of (split_char c_lf s).

Definition split_once (c : Z) (s : str) : option (list Z * list Z) :=
  match find_char (Z.eqb c) s with
  | Some i => Some (take i s, drop (S i) s)
  | None => None
  end.

Definition rsplit_once (c : Z) (s : str) : option (list Z * list Z) :=
  match rfind_char (Z.eqb c) s with
  | Some i => Some (take i s, drop (S i) s)
  | None => None
  end.

(** [path.rsplit(c).next()] is always [Some]: the text after the last [c]. *)
Definition rsplit_next (c : Z) (s : str) : list Z :=
  match rsplit_once c s with Some (_, l) => l | None => s end.

Fixpoint join_with (sep : str) (ws : list (list Z)) : list Z :=
  match ws with
  | [] => []
  | [w] => w
  | w :: ws' => w ++ sep ++ join_with sep ws'
  end.

(** ** Replacing and case *)
Definition replace_char (c : Z) (by_ s : str) : list Z :=
  flat_map (fun d => if c =? d then by_ else [d]) s.

(** [replace(pat, to)] for a non-empty pattern, left to right; [skip] counts
    the characters of the match being passed over. *)
Fixpoint replace_sub_go (skip : nat) (pat to s : str) : list Z :=
  match s with
  | [] => []
  | c :: s' =>
      match skip with
      | S k => replace_sub_go k pat to s'
      | O => if starts_with pat s
             then to ++ replace_sub_go (pred (length pat)) pat to s'
             else c :: replace_sub_go O pat to s'
      end
  end.
Definition replace_sub (pat to s : str) : list Z := replace_sub_go O pat to s.

Definition to_ascii_lower_char (c : Z) : Z := if is_ascii_uppercase c then c + 32 else c.
Definition to_ascii_upper_char (c : Z) : Z := if is_ascii_lowercase c then c - 32 else c.
Definition to_ascii_lowercase (s : str) : list Z := to_ascii_lower_char <$> s.
Definition to_ascii_uppercase (s : str) : list Z := to_ascii_upper_char <$> s.
Definition eq_ignore_ascii_case (a b : str) : bool :=
  bool_decide (to_ascii_lowercase a = to_ascii_lowercase b).

Definition to_lower_char (c : Z) : list Z :=
  if c =? 304 then [105; 775]
  else if c =? 8490 then [107]
  else [to_ascii_lower_char c].
Definition to_lowercase (s : str) : list Z := flat_map to_lower_char s.

Definition str_cmp : list Z -> list Z -> comparison := lex_cmp Z.compare.

(** ** Encodings *)
Definition char_utf8 (c : Z) : list Z :=
  if c <? 128 then [c]
  else if c <? 2048 then [192 + c / 64; 128 + c mod 64]
  else if c <? 65536 then [224 + c / 4096; 128 + (c / 64) mod 64; 128 + c mod 64]
  else [240 + c / 262144; 128 + (c / 4096) mod 64; 128 + (c / 64) mod 64; 128 + c mod 64].
Definition str_bytes (s : str) : list Z := flat_map char_utf8 s.
(** [str::len], a number of bytes. *)
Definition str_len (s : str) : Z := len (str_bytes s).

Definition char_utf16 (c : Z) : list Z :=
  if c <? 65536 then [c]
  else [55296 + (c - 65536) / 1024; 56320 + (c - 65536) mod 1024].
Definition encode_utf16 (s : str) : list Z := flat_map char_utf16 s.

Definition is_high_surrogate (u : Z) : bool := (55296 <=? u) && (u <=? 56319).
Definition is_low_surrogate (u : Z) : bool := (56320 <=? u) && (u <=? 57343).

(** [String::from_utf16_lossy]: an unpaired surrogate becomes U+FFFD. *)
Fixpoint from_utf16_lossy (us : list Z) : list Z :=
  match us with
  | [] => []
  | u :: us' =>
      if is_high_surrogate u then
        match us' with
        | v :: us'' =>
            if is_low_surrogate v
            then 65536 + (u - 55296) * 1024 + (v - 56320) :: from_utf16_lossy us''
            else 65533 :: from_utf16_lossy us'
        | [] => [65533]
        end
      else if is_low_surrogate u then 65533 :: from_utf16_lossy us'
      else u :: from_utf16_lossy us'
  end.

(** UTF-16 loses nothing. *)
Lemma from_encode_utf16 (s : list Z) :
  Forall (fun c => is_scalar c = true) s -> from_utf16_lossy (encode_utf16 s) = s.
Proof.
  induction 1 as [|c s Hc _ IH]; [done|]. unfold encode_utf16 in *. cbn [flat_map].
  unfold is_scalar in Hc. unfold char_utf16 at 1. destruct (Z.ltb_spec c 65536).
  - cbn [app from_utf16_lossy]. unfold is_high_surrogate, is_low_surrogate.
    destruct (Z.leb_spec 55296 c), (Z.leb_spec c 56319), (Z.leb_spec 56320 c), (Z.leb_spec c 57343);
      simpl; try lia; by rewrite IH.
  - pose proof (Z.div_lt_upper_bound (c - 65536) 1024 1024).
    pose proof (Z.div_pos (c - 65536) 1024). pose proof (Z.mod_pos_bound (c - 65536) 1024).
    pose proof (Z.div_mod (c - 65536) 1024).
    cbn [app from_utf16_lossy]. unfold is_high_surrogate, is_low_surrogate.
    destruct (Z.leb_spec 55296 (55296 + (c - 65536) / 1024)); [|lia].
    destruct (Z.leb_spec (55296 + (c - 65536) / 1024) 56319); [|lia].
    destruct (Z.leb_spec 56320 (56320 + (c - 65536) mod 1024)); [|lia].
    destruct (Z.leb_spec (56320 + (c - 65536) mod 1024) 57343); [|lia].
    cbn [andb]. rewrite IH. f_equal. lia.
Qed.

(** ** Numbers *)
Fixpoint parse_digits (acc : Z) (s : str) : option Z :=
  match s with
  | [] => Some acc
  | c :: s' => if is_ascii_digit c then parse_digits (acc * 10 + (c - 48)) s' else None
  end.

(** [s.parse::<uN>().ok()] for an unsigned type with the given maximum: an
    optional plus sign, then at least one digit, within range. *)
Definition parse_uint (max : Z) (s : str) : option Z :=
  let digits := match s with c :: s' => if c =? c_plus then s' else s | [] => s end in
  if is_empty digits then None
  else match parse_digits 0 digits with
       | Some n => if n <=? max then Some n else None
       | None => None
       end.

(** [format!("{n}")]; the number of bits is enough fuel for the digits. *)
Fixpoint dec_go (fuel : nat) (n : Z) (acc : str) : list Z :=
  match fuel with
  | O => acc
  | S f => let acc' := (48 + n mod 10) :: acc in
           if n / 10 =? 0 then acc' else dec_go f (n / 10) acc'
  end.
Definition fmt_dec (n : Z) : list Z := dec_go (S (Z.to_nat (Z.log2 n))) n [].

(** [format!("{s:0>width$}")]: pad with zeros on the left. *)
Definition pad_zero (width : nat) (s : str) : list Z :=
  replicate (width - length s) 48 ++ s.

Definition hex_lower_digit (d : Z) : Z := if d <? 10 then 48 + d else 87 + d.
Definition hex_upper_digit (d : Z) : Z := if d <? 10 then 48 + d else 55 + d.

(** [format!("{n:0w$x}")] for a value below [16 ^ w]. *)
Fixpoint fmt_hex_go (digit : Z -> Z) (w : nat) (n : Z) (acc : str) : list Z :=
  match w with
  | O => acc
  | S w' => fmt_hex_go digit w' (n / 16) (digit (n mod 16) :: acc)
  end.
Definition fmt_hex_lower (w : nat) (n : Z) : list Z := fmt_hex_go hex_lower_digit w n [].
Definition fmt_hex_upper (w : nat) (n : Z) : list Z := fmt_hex_go hex_upper_digit w n [].

(** ** Lemmas on scanning *)
Lemma take_drop_while (p : Z -> bool) (s : list Z) : take_while p s ++ drop_while p s = s.
Proof. induction s as [|c s IH]; simpl; [done|]. destruct (p c); simpl; congruence. Qed.

Lemma drop_while_length (p : Z -> bool) (s : list Z) :
  (length (drop_while p s) <= length s)%nat.
Proof. induction s as [|c s IH]; simpl; [done|]. destruct (p c); simpl; lia. Qed.

Lemma drop_while_idem (p : Z -> bool) (s : list Z) :
  drop_while p (drop_while p s) = drop_while p s.
Proof. induction s as [|c s IH]; simpl; [done|]. destruct (p c) eqn:E; [done|]. simpl. by rewrite E. Qed.

Lemma drop_while_head (p : Z -> bool) (s : list Z) (x : Z) (r : list Z) :
  drop_while p s = x :: r -> p x = false.
Proof. induction s as [|c s IH]; simpl; [done|]. destruct (p c) eqn:E; [done|congruence]. Qed.

Lemma drop_while_false_head (p : Z -> bool) (x : Z) (s : list Z) :
  p x = true -> (length (drop_while p (x :: s)) <= length s)%nat.
Proof. intros H. simpl. rewrite H. apply drop_while_length. Qed.

Lemma take_while_all (p : Z -> bool) (s : list Z) : Forall (fun c => p c = true) (take_while p s).
Proof. induction s as [|c s IH]; simpl; [done|]. destruct (p c) eqn:E; by constructor. Qed.

Lemma take_while_app (p : Z -> bool) (s t : list Z) :
  Forall (fun c => p c = true) s -> take_while p (s ++ t) = s ++ take_while p t.
Proof. induction 1 as [|c s Hc _ IH]; simpl; [done|]. by rewrite Hc, IH. Qed.

Lemma drop_while_app (p : Z -> bool) (s t : list Z) :
  Forall (fun c => p c = true) s -> drop_while p (s ++ t) = drop_while p t.
Proof. induction 1 as [|c s Hc _ IH]; simpl; [done|]. by rewrite Hc. Qed.

Lemma drop_while_suffix (p : Z -> bool) (s : list Z) :
  exists pre, s = pre ++ drop_while p s /\ Forall (fun c => p c = true) pre.
Proof. exists (take_while p s). by rewrite take_drop_while; eauto using take_while_all. Qed.

Lemma Forall_drop_while (P : Z -> Prop) (p : Z -> bool) (s : list Z) :
  Forall P s -> Forall P (drop_while p s).
Proof. induction 1 as [|c s Hc Hs IH]; simpl; [done|]. destruct (p c); [done|by constructor]. Qed.

Lemma Forall_trim (P : Z -> Prop) (s : list Z) : Forall P s -> Forall P (trim s).
Proof.
  intros H. unfold trim, trim_end, drop_while_end, trim_start.
  by apply Forall_reverse, Forall_drop_while, Forall_reverse, Forall_drop_while.
Qed.

(** ** Lemmas on searching *)
Lemma find_char_app (p : Z -> bool) (l : list Z) (c : Z) (r : list Z) :
  Forall (fun x => p x = false) l -> p c = true -> find_char p (l ++ c :: r) = Some (length l).
Proof.
  intros Hl Hc. induction Hl as [|x l Hx _ IH]; simpl; [by rewrite Hc|]. by rewrite Hx, IH.
Qed.

Lemma find_char_none (p : Z -> bool) (s : list Z) :
  find_char p s = None <-> Forall (fun x => p x = false) s.
Proof.
  induction s as [|c s IH]; simpl; [by split|]. destruct (p c) eqn:E.
  - split; [done|]. intros [? _]%Forall_cons. congruence.
  - rewrite fmap_None, IH. split; [by constructor|by intros [_ ?]%Forall_cons].
Qed.

Lemma find_char_some (p : Z -> bool) (s : list Z) (i : nat) :
  find_char p s = Some i ->
  exists l c r, s = l ++ c :: r /\ length l = i /\ p c = true /\ Forall (fun x => p x = false) l.
Proof.
  revert i. induction s as [|c s IH]; intros i; simpl; [done|]. destruct (p c) eqn:E.
  - intros [= <-]. by exists [], c, s.
  - intros (j & Hj & ->)%fmap_Some.
    destruct (IH j Hj) as (l & d & r & -> & Hl & Hd & HF).
    exists (c :: l), d, r. simpl. rewrite Hl. split_and!; [done..|by constructor].
Qed.

Lemma rfind_char_none (p : Z -> bool) (s : list Z) :
  rfind_char p s = None <-> Forall (fun x => p x = false) s.
Proof.
  induction s as [|c s IH]; simpl; [by split|]. destruct (rfind_char p s) eqn:Er.
  - split; [done|]. intros [_ H2]%Forall_cons. by apply IH in H2.
  - destruct (p c) eqn:E; split; try done.
    + intros [? _]%Forall_cons. congruence.
    + intros _. constructor; [done|]. by apply IH.
Qed.

Lemma rfind_char_app (p : Z -> bool) (l : list Z) (c : Z) (r : list Z) :
  Forall (fun x => p x = false) r -> p c = true -> rfind_char p (l ++ c :: r) = Some (length l).
Proof.
  intros Hr Hc. induction l as [|x l IH]; simpl.
  - apply rfind_char_none in Hr. by rewrite Hr, Hc.
  - by rewrite IH.
Qed.

Lemma rfind_char_some (p : Z -> bool) (s : list Z) (i : nat) :
  rfind_char p s = Some i ->
  exists l c r, s = l ++ c :: r /\ length l = i /\ p c = true /\ Forall (fun x => p x = false) r.
Proof.
  revert i. induction s as [|c s IH]; intros i; simpl; [done|].
  destruct (rfind_char p s) as [j|] eqn:Er.
  - intros [= <-]. destruct (IH j eq_refl) as (l & d & r & -> & Hl & Hd & HF).
    exists (c :: l), d, r. simpl. by rewrite Hl.
  - destruct (p c) eqn:E; [|done]. intros [= <-]. exists [], c, s.
    split_and!; [done..|]. by apply rfind_char_none.
Qed.

Lemma strip_prefix_some (pre s r : list Z) : strip_prefix pre s = Some r <-> s = pre ++ r.
Proof.
  revert s. induction pre as [|a pre IH]; intros [|b s]; simpl; try (naive_solver congruence).
  destruct (Z.eqb_spec a b) as [->|Hne]; [rewrite IH; naive_solver|naive_solver].
Qed.

Lemma strip_suffix_some (suf s r : list Z) : strip_suffix suf s = Some r <-> s = r ++ suf.
Proof.
  unfold strip_suffix. rewrite fmap_Some. setoid_rewrite strip_prefix_some. split.
  - intros (x & Hx & ->). apply (f_equal reverse) in Hx.
    rewrite reverse_involutive, reverse_app, reverse_involutive in Hx. done.
  - intros ->. exists (reverse r). by rewrite reverse_app, reverse_involutive.
Qed.

Lemma starts_with_spec (pre s : list Z) : starts_with pre s = true <-> exists r, s = pre ++ r.
Proof.
  unfold starts_with. rewrite bool_decide_eq_true. unfold is_Some.
  by setoid_rewrite strip_prefix_some.
Qed.

Lemma ends_with_spec (suf s : list Z) : ends_with suf s = true <-> exists r, s = r ++ suf.
Proof.
  unfold ends_with. rewrite bool_decide_eq_true. unfold is_Some.
  by setoid_rewrite strip_suffix_some.
Qed.

Lemma find_sub_some (pat s : list Z) : is_Some (find_sub pat s) <-> exists l r, s = l ++ pat ++ r.
Proof.
  induction s as [|c s IH]; simpl; destruct (starts_with pat _) eqn:E.
  - apply starts_with_spec in E as [r ->]. split; [|eauto]. intros _. by exists [], r.
  - split; [by intros [? ?]|]. intros (l & r & H).
    destruct l; simplify_eq/=. apply not_true_iff_false in E. rewrite starts_with_spec in E. naive_solver.
  - apply starts_with_spec in E as [r Hr]. split; [|eauto]. intros _. by exists [], r.
  - rewrite fmap_is_Some, IH. apply not_true_iff_false in E. rewrite starts_with_spec in E.
    split; [intros (l & r & ->); by exists (c :: l), r|].
    intros (l & r & H). destruct l as [|d l]; simplify_eq/=; [naive_solver|eauto].
Qed.

Lemma contains_spec (pat s : list Z) : contains pat s = true <-> exists l r, s = l ++ pat ++ r.
Proof. unfold contains. rewrite bool_decide_eq_true. apply find_sub_some. Qed.

(** ** Lemmas on trailing patterns *)
Lemma trim_end_matches_go_S (n : nat) (suf s : list Z) :
  suf <> [] -> (length s <= n)%nat -> trim_end_matches_go (S n) suf s = trim_end_matches_go n suf s.
Proof.
  intros Hs. revert s. induction n as [|n IH]; intros s Hn.
  - destruct s; [|simpl in Hn; lia]. simpl. destruct (strip_suffix suf []) as [r|] eqn:E; [|done].
    apply strip_suffix_some in E. by destruct r, suf.
  - simpl. destruct (strip_suffix suf s) as [r|] eqn:E; [|done].
    apply strip_suffix_some in E as ->. rewrite length_app in Hn.
    assert (length suf <> 0%nat) by (by destruct suf). apply IH. lia.
Qed.

Lemma trim_end_matches_fuel (n : nat) (suf s : list Z) :
  suf <> [] -> (length s <= n)%nat -> trim_end_matches_go n suf s = trim_end_matches suf s.
Proof.
  intros Hs. induction n as [|n IH]; intros Hn.
  - unfold trim_end_matches. by destruct s; [|simpl in Hn; lia].
  - destruct (decide (length s = S n)) as [E|E].
    + unfold trim_end_matches. by rewrite E.
    + rewrite trim_end_matches_go_S by (done || lia). apply IH. lia.
Qed.

Lemma trim_end_matches_app (suf s : list Z) :
  suf <> [] -> trim_end_matches suf (s ++ suf) = trim_end_matches suf s.
Proof.
  intros Hs. rewrite <- (trim_end_matches_fuel (S (length (s ++ suf)))) by (done || lia).
  simpl. assert (strip_suffix suf (s ++ suf) = Some s) as -> by by apply strip_suffix_some.
  apply trim_end_matches_fuel; [done|]. rewrite length_app. lia.
Qed.

Lemma trim_end_matches_id (suf s : list Z) :
  ends_with suf s = false -> trim_end_matches suf s = s.
Proof.
  unfold ends_with, trim_end_matches. intros H%bool_decide_eq_false.
  destruct s as [|c s]; [done|]. simpl. destruct (strip_suffix suf (c :: s)) eqn:E; [|done].
  exfalso. eauto.
Qed.

Lemma ends_with_last (suf s : list Z) (c d : Z) :
  c <> d -> ends_with (suf ++ [c]) (s ++ [d]) = false.
Proof.
  intros Hne. apply not_true_iff_false. rewrite ends_with_spec. intros [r Hr].
  rewrite app_assoc in Hr. apply app_inj_2 in Hr as [_ [=]]; [done|done].
Qed.

(** ** Numbers: printing and parsing *)
Lemma parse_digits_dec_go (fuel : nat) (n : Z) (acc : list Z) :
  0 <= n < 2 ^ Z.of_nat fuel -> (0 < fuel)%nat ->
  parse_digits 0 (dec_go fuel n acc) = parse_digits n acc.
Proof.
  revert n acc. induction fuel as [|f IH]; intros n acc Hn Hf; [lia|]. simpl.
  pose proof (Z.mod_pos_bound n 10 ltac:(lia)) as Hm.
  pose proof (Z.div_mod n 10 ltac:(lia)) as Hd.
  assert (forall m, parse_digits m ((48 + n mod 10) :: acc)
                    = parse_digits (m * 10 + n mod 10) acc) as Hp.
  { intros m. simpl.
    assert (is_ascii_digit (48 + n mod 10) = true) as -> by (unfold is_ascii_digit; lia).
    f_equal. lia. }
  destruct (Z.eqb_spec (n / 10) 0) as [E|E]; [rewrite Hp; f_equal; lia|].
  rewrite Nat2Z.inj_succ, Z.pow_succ_r in Hn by lia.
  assert (f <> 0%nat) by (intros ->; simpl in Hn; apply E, Z.div_small; lia).
  rewrite IH by (split_and?; lia || (split; [apply Z.div_pos; lia|apply Z.div_lt_upper_bound; lia])).
  rewrite Hp. f_equal. lia.
Qed.

Lemma dec_go_digits (fuel : nat) (n : Z) (acc : list Z) :
  Forall (fun c => is_ascii_digit c = true) acc ->
  Forall (fun c => is_ascii_digit c = true) (dec_go fuel n acc).
Proof.
  revert n acc. induction fuel as [|f IH]; intros n acc Hacc; simpl; [done|].
  pose proof (Z.mod_pos_bound n 10 ltac:(lia)).
  assert (is_ascii_digit (48 + n mod 10) = true) by (unfold is_ascii_digit; lia).
  destruct (n / 10 =? 0); auto.
Qed.

Lemma dec_go_nonempty (fuel : nat) (n : Z) (acc : list Z) :
  (0 < fuel)%nat \/ acc <> [] -> dec_go fuel n acc <> [].
Proof.
  revert n acc. induction fuel as [|f IH]; intros n acc H; simpl; [naive_solver lia|].
  destruct (n / 10 =? 0); [done|]. apply IH. by right.
Qed.

Lemma fmt_dec_digits (n : Z) : Forall (fun c => is_ascii_digit c = true) (fmt_dec n).
Proof. by apply dec_go_digits. Qed.

Lemma fmt_dec_nonempty (n : Z) : fmt_dec n <> [].
Proof. apply dec_go_nonempty. left; lia. Qed.

Lemma parse_digits_fmt_dec (n : Z) : 0 <= n -> parse_digits 0 (fmt_dec n) = Some n.
Proof.
  intros Hn. unfold fmt_dec. rewrite parse_digits_dec_go; [done| |lia]. split; [done|].
  rewrite Nat2Z.inj_succ, Z2Nat.id by apply Z.log2_nonneg.
  destruct (decide (n = 0)) as [->|]; [done|]. apply Z.log2_spec. lia.
Qed.

Lemma pad_zero_digits (w : nat) (s : list Z) :
  Forall (fun c => is_ascii_digit c = true) s ->
  Forall (fun c => is_ascii_digit c = true) (pad_zero w s).
Proof. intros. apply Forall_app. split; [by apply Forall_replicate|done]. Qed.

Lemma pad_zero_nonempty (w : nat) (s : list Z) : s <> [] -> pad_zero w s <> [].
Proof. unfold pad_zero. intros ? H%app_eq_nil. naive_solver. Qed.

Lemma parse_digits_pad_zero (w : nat) (s : list Z) :
  parse_digits 0 (pad_zero w s) = parse_digits 0 s.
Proof. unfold pad_zero. induction (w - length s)%nat as [|k IH]; simpl; done. Qed.

(** Parsing undoes zero-padded printing, for a value in the type's range. *)
Lemma parse_uint_pad (max : Z) (w : nat) (n : Z) :
  0 <= n <= max -> parse_uint max (pad_zero w (fmt_dec n)) = Some n.
Proof.
  intros Hn. unfold parse_uint.
  pose proof (pad_zero_digits w _ (fmt_dec_digits n)) as Hd.
  pose proof (pad_zero_nonempty w _ (fmt_dec_nonempty n)) as Hne.
  pose proof (parse_digits_pad_zero w (fmt_dec n)) as Hp.
  rewrite parse_digits_fmt_dec in Hp by lia.
  destruct (pad_zero w (fmt_dec n)) as [|c s] eqn:E; [done|].
  apply Forall_cons in Hd as [Hc _].
  assert (c =? c_plus = false) as -> by (unfold is_ascii_digit, c_plus in *; lia).
  simpl is_empty. cbv iota. rewrite Hp.
  destruct (Z.leb_spec n max); [done|lia].
Qed.

(** A digit string holds none of the separators of a counted file name. *)
Lemma parse_digits_ge (s : list Z) (acc v : Z) : 0 <= acc -> parse_digits acc s = Some v -> 0 <= v.
Proof.
  revert acc. induction s as [|c s IH]; intros acc Ha; simpl; [by intros [= <-]|].
  destruct (is_ascii_digit c) eqn:E; [|done]. apply IH.
  unfold is_ascii_digit in E. lia.
Qed.

Lemma parse_uint_bound (max : Z) (s : list Z) (v : Z) :
  0 <= max -> parse_uint max s = Some v -> 0 <= v <= max.
Proof.
  intros Hm. unfold parse_uint. cbv zeta. destruct (is_empty _); [done|].
  destruct (parse_digits 0 _) eqn:E; [|done]. destruct (Z.leb_spec z max); [|done].
  intros [= <-]. apply parse_digits_ge in E; lia.
Qed.

Lemma digits_lack (c : Z) (s : list Z) :
  is_ascii_digit c = false -> Forall (fun d => is_ascii_digit d = true) s ->
  Forall (fun d => (c =? d) = false) s.
Proof.
  intros Hc Hs. eapply Forall_impl; [exact Hs|]. intros d Hd. apply Z.eqb_neq. intros ->. congruence.
Qed.

(** ** Lemmas on splitting and joining *)
Lemma split_on_cons (p : Z -> bool) (w : list Z) (c : Z) (s : list Z) :
  Forall (fun x => p x = false) w -> p c = true ->
  split_on p (w ++ c :: s) = w :: split_on p s.
Proof.
  intros Hw Hc. induction Hw as [|x w Hx _ IH]; simpl; [by rewrite Hc|]. by rewrite Hx, IH.
Qed.

Lemma split_on_none (p : Z -> bool) (w : list Z) :
  Forall (fun x => p x = false) w -> split_on p w = [w].
Proof. induction 1 as [|x w Hx _ IH]; simpl; [done|]. by rewrite Hx, IH. Qed.

Lemma split_on_words (p : Z -> bool) (s : list Z) :
  Forall (Forall (fun x => p x = false)) (split_on p s).
Proof.
  induction s as [|c s IH]; simpl; [by repeat constructor|]. destruct (p c) eqn:E.
  - by constructor.
  - destruct (split_on p s) as [|w ws]; [by repeat constructor|].
    apply Forall_cons in IH as [? ?]. by repeat constructor.
Qed.

Lemma split_on_nonempty (p : Z -> bool) (s : list Z) : split_on p s <> [].
Proof. destruct s; simpl; [done|]. destruct (p z); [done|]. by destruct (split_on p s). Qed.

Lemma split_on_join (p : Z -> bool) (c : Z) (ws : list (list Z)) :
  p c = true -> Forall (Forall (fun x => p x = false)) ws -> ws <> [] ->
  split_on p (join_with [c] ws) = ws.
Proof.
  intros Hc Hws. induction Hws as [|w ws Hw Hws IH]; intros Hne; [done|].
  destruct ws as [|w' ws]; [by apply split_on_none|].
  change (join_with [c] (w :: w' :: ws)) with (w ++ c :: join_with [c] (w' :: ws)).
  rewrite split_on_cons by done. by rewrite IH.
Qed.

Definition is_word (w : list Z) : Prop :=
  w <> [] /\ Forall (fun x => is_whitespace x = false) w.

Lemma split_whitespace_words (s : list Z) : Forall is_word (split_whitespace s).
Proof.
  unfold split_whitespace. pose proof (split_on_words is_whitespace s) as H.
  induction H as [|w ws Hw _ IH]; simpl; [done|].
  destruct w; simpl; [done|]. by constructor.
Qed.

Lemma filter_nonempty_words (ws : list (list Z)) :
  Forall is_word ws -> List.filter (fun w => negb (is_empty w)) ws = ws.
Proof.
  induction 1 as [|w ws [Hw _] _ IH]; simpl; [done|]. destruct w; [done|]. simpl. by rewrite IH.
Qed.

Lemma split_whitespace_join (ws : list (list Z)) :
  Forall is_word ws -> split_whitespace (join_with [c_space] ws) = ws.
Proof.
  intros H. unfold split_whitespace. destruct (decide (ws = [])) as [->|Hne]; [done|].
  rewrite split_on_join; [by apply filter_nonempty_words|done| |done].
  eapply Forall_impl; [exact H|]. by intros w [_ ?].
Qed.

Lemma Forall_list_filter {A : Type} (P : A -> Prop) (f : A -> bool) (l : list A) :
  Forall P l -> Forall P (List.filter f l).
Proof. induction 1; simpl; [done|]. destruct (f x); auto. Qed.

Lemma list_filter_all {A : Type} (f : A -> bool) (l : list A) :
  Forall (fun x => f x = true) (List.filter f l).
Proof. induction l as [|x l IH]; simpl; [done|]. destruct (f x) eqn:E; auto. Qed.

Lemma replace_char_lacks (c d : Z) (s : list Z) :
  c <> d -> Forall (fun x => x <> c) (replace_char c [d] s).
Proof.
  intros Hne. induction s as [|x s IH]; simpl; [done|].
  destruct (Z.eqb_spec c x); simpl; constructor; auto.
Qed.

Lemma replace_char_id (c : Z) (by_ s : list Z) :
  Forall (fun x => x <> c) s -> replace_char c by_ s = s.
Proof.
  induction 1 as [|x s Hx _ IH]; simpl; [done|].
  destruct (Z.eqb_spec c x); [congruence|]. simpl. by rewrite IH.
Qed.
