(* ===== verification/Utf8.v ===== *)
(** * Decoding UTF-8, as [String::from_utf8] and [String::from_utf8_lossy] do

    One step reads a character or, on malformed input, the longest prefix that
    could have started one. *)
From S2P Require Import Prelude RustStr.
Local Open Scope Z_scope.

Definition is_cont (b : Z) : bool := (128 <=? b) && (b <=? 191).
Definition between (lo hi b : Z) : bool := (lo <=? b) && (b <=? hi).

(** The byte at a position, 0 past the end. *)
Definition byte_at (bs : list Z) (i : nat) : Z := default 0 (bs !! i).

(** The second bytes a three- or four-byte lead admits. *)
Definition second3 (b c : Z) : bool :=
  ((b =? 224) && between 160 191 c) || (between 225 236 b && is_cont c)
  || ((b =? 237) && between 128 159 c) || (between 238 239 b && is_cont c).
Definition second4 (b c : Z) : bool :=
  ((b =? 240) && between 144 191 c) || (between 241 243 b && is_cont c) || ((b =? 244) && between 128 143 c).

(** The character, or [None] for a malformed sequence, and the bytes consumed. *)
Definition utf8_step (bs : list Z) : option Z * nat :=
  let b := byte_at bs 0 in
  let c := byte_at bs 1 in
  let d := byte_at bs 2 in
  let e := byte_at bs 3 in
  if b <? 128 then (Some b, 1%nat)
  else if between 194 223 b then
    if is_cont c then (Some ((b - 192) * 64 + (c - 128)), 2%nat) else (None, 1%nat)
  else if between 224 239 b then
    if second3 b c then
      if is_cont d then (Some ((b - 224) * 4096 + (c - 128) * 64 + (d - 128)), 3%nat) else (None, 2%nat)
    else (None, 1%nat)
  else if between 240 244 b then
    if second4 b c then
      if is_cont d then
        if is_cont e
        then (Some ((b - 240) * 262144 + (c - 128) * 4096 + (d - 128) * 64 + (e - 128)), 4%nat)
        else (None, 3%nat)
      else (None, 2%nat)
    else (None, 1%nat)
  else (None, 1%nat).

(** Every step consumes a byte, so the length is enough fuel. *)
Fixpoint utf8_chunks (fuel : nat) (bs : list Z) : list (option Z) :=
  match fuel, bs with
  | S f, _ :: _ => let '(c, n) := utf8_step bs in c :: utf8_chunks f (drop n bs)
  | _, _ => []
  end.

Definition from_utf8 (bs : list Z) : option (list Z) := mapM id (utf8_chunks (length bs) bs).

Definition from_utf8_lossy (bs : list Z) : list Z :=
  (fun c => default 65533 c) <$> utf8_chunks (length bs) bs.

Lemma byte_at_0 (b : Z) (bs : list Z) : byte_at (b :: bs) 0 = b.
Proof. done. Qed.
Lemma byte_at_S (b : Z) (bs : list Z) (i : nat) : byte_at (b :: bs) (S i) = byte_at bs i.
Proof. done. Qed.
Ltac bytes_at := cbn [app]; rewrite ?byte_at_S, ?byte_at_0.

Ltac bytes_cases :=
  repeat match goal with
  | |- context [?a <? ?b] => destruct (Z.ltb_spec a b); try lia
  | |- context [?a <=? ?b] => destruct (Z.leb_spec a b); try lia
  | |- context [?a =? ?b] => destruct (Z.eqb_spec a b); try lia
  end.

(** A scalar value's encoding is one step. *)
Lemma utf8_step_char (c : Z) (rest : list Z) :
  is_scalar c = true -> utf8_step (char_utf8 c ++ rest) = (Some c, length (char_utf8 c)).
Proof.
  unfold is_scalar, char_utf8. intros Hc. destruct (Z.ltb_spec c 128).
  { unfold utf8_step. bytes_at. destruct (Z.ltb_spec c 128); [done|lia]. }
  destruct (Z.ltb_spec c 2048).
  { pose proof (Z.div_mod c 64). pose proof (Z.mod_pos_bound c 64).
    assert (2 <= c / 64 < 32) by (split; [apply Z.div_le_lower_bound|apply Z.div_lt_upper_bound]; lia).
    unfold utf8_step, is_cont, between. bytes_at.
    bytes_cases; cbn [andb length]; do 2 f_equal; lia. }
  destruct (Z.ltb_spec c 65536).
  { pose proof (Z.div_mod c 64). pose proof (Z.mod_pos_bound c 64).
    pose proof (Z.div_mod (c / 64) 64). pose proof (Z.mod_pos_bound (c / 64) 64).
    assert (c / 64 / 64 = c / 4096) as E by (rewrite Z.div_div by lia; done). rewrite E in *.
    assert (0 <= c / 4096 < 16) by (split; [apply Z.div_pos|apply Z.div_lt_upper_bound]; lia).
    unfold utf8_step, second3, is_cont, between. bytes_at.
    bytes_cases; cbn [andb orb length]; do 2 f_equal; lia. }
  pose proof (Z.div_mod c 64). pose proof (Z.mod_pos_bound c 64).
  pose proof (Z.div_mod (c / 64) 64). pose proof (Z.mod_pos_bound (c / 64) 64).
  pose proof (Z.div_mod (c / 4096) 64). pose proof (Z.mod_pos_bound (c / 4096) 64).
  assert (c / 64 / 64 = c / 4096) as E by (rewrite Z.div_div by lia; done). rewrite E in *.
  assert (c / 4096 / 64 = c / 262144) as E' by (rewrite Z.div_div by lia; done). rewrite E' in *.
  assert (c < 1114112) by (revert Hc; bytes_cases; done).
  assert (0 <= c / 262144 < 5) by (split; [apply Z.div_pos|apply Z.div_lt_upper_bound]; lia).
  unfold utf8_step, second4, is_cont, between. bytes_at.
  bytes_cases; cbn [andb orb length]; do 2 f_equal; lia.
Qed.

Lemma char_utf8_nonempty (c : Z) : char_utf8 c <> [].
Proof. unfold char_utf8. by repeat case_match. Qed.

Lemma utf8_chunks_bytes (s : list Z) (n : nat) :
  Forall (fun c => is_scalar c = true) s -> (length (str_bytes s) <= n)%nat ->
  utf8_chunks n (str_bytes s) = Some <$> s.
Proof.
  intros Hs. revert n. induction Hs as [|c s Hc _ IH]; intros n Hn; [by destruct n|].
  unfold str_bytes in *. cbn [flat_map] in *. rewrite length_app in Hn.
  pose proof (char_utf8_nonempty c) as Hne.
  destruct n as [|n]; [destruct (char_utf8 c); [done|simpl in Hn; lia]|].
  cbn [utf8_chunks]. destruct (char_utf8 c ++ flat_map char_utf8 s) as [|b bs] eqn:E.
  { by destruct (char_utf8 c). }
  rewrite <- E, utf8_step_char by done. cbn [fmap list_fmap]. f_equal.
  rewrite drop_app_length. apply IH. destruct (char_utf8 c); [done|simpl in Hn; lia].
Qed.

(** Text survives encoding and decoding. *)
Lemma from_utf8_bytes (s : list Z) :
  Forall (fun c => is_scalar c = true) s -> from_utf8 (str_bytes s) = Some s.
Proof.
  intros Hs. unfold from_utf8. rewrite utf8_chunks_bytes by done.
  induction s as [|c s IH]; [done|]. apply Forall_cons in Hs as [_ Hs]. cbn. by rewrite IH.
Qed.

Lemma from_utf8_lossy_bytes (s : list Z) :
  Forall (fun c => is_scalar c = true) s -> from_utf8_lossy (str_bytes s) = s.
Proof.
  intros Hs. unfold from_utf8_lossy. rewrite utf8_chunks_bytes by done.
  clear Hs. induction s as [|c s IH]; [done|]. cbn. by rewrite IH.
Qed.
