(* ===== verification/VersionOrder.v ===== *)
(** * Version comparison ([version_compare] of bls_parse.rs)

    The UAPI.10 version comparison that orders boot entries, as the loop the
    source writes, and a reference definition: a version is read as a
    sequence of tokens and two versions are compared token by token in a
    fixed rank order.  The loop is shown to terminate and to compute the
    reference, and hence to be a total preorder, which is what [sort_by] and
    the "highest version wins" rules of the boot menu rely on. *)
From S2P Require Import Prelude Compare RustStr.
Local Open Scope Z_scope.

Definition is_version_char (b : Z) : bool :=
  is_ascii_alphanumeric b || (b =? c_tilde) || (b =? c_caret) || (b =? c_dash) || (b =? c_dot).

(** One round of the [loop]: it returns, or continues at later positions.
    The state is the part of each string from its current index on. *)
Inductive vc_round : Type :=
  | VReturn (o : comparison)
  | VContinue (a b : list Z).

Definition head_is (c : Z) (s : list Z) : bool :=
  match s with x :: _ => x =? c | [] => false end.

(** The three one-character markers [-], [^] and [.] are handled alike: the
    side that has the marker sorts lower, and both sides skip it. *)
Definition vc_marker (c : Z) (a b : list Z) (rest : vc_round) : vc_round :=
  let am := head_is c a in
  let bm := head_is c b in
  if am || bm then
    if negb am then VReturn Gt
    else if negb bm then VReturn Lt
    else VContinue (tail a) (tail b)
  else rest.

Definition vc_numeric (a b : list Z) : vc_round :=
  let a := drop_while (Z.eqb 48) a in
  let b := drop_while (Z.eqb 48) b in
  let a_span := take_while is_ascii_digit a in
  let b_span := take_while is_ascii_digit b in
  if negb (length a_span =? length b_span)%nat
  then VReturn (length a_span ?= length b_span)%nat
  else match lex_cmp Z.compare a_span b_span with
       | Eq => VContinue (drop_while is_ascii_digit a) (drop_while is_ascii_digit b)
       | o => VReturn o
       end.

Definition vc_alpha (a b : list Z) : vc_round :=
  match lex_cmp Z.compare (take_while is_ascii_alphabetic a) (take_while is_ascii_alphabetic b) with
  | Eq => VContinue (drop_while is_ascii_alphabetic a) (drop_while is_ascii_alphabetic b)
  | o => VReturn o
  end.

Definition vc_iter (a0 b0 : list Z) : vc_round :=
  let a := drop_while (fun c => negb (is_version_char c)) a0 in
  let b := drop_while (fun c => negb (is_version_char c)) b0 in
  vc_marker c_tilde a b
    match a, b with
    | [], [] => VReturn Eq
    | [], _ :: _ => VReturn Lt
    | _ :: _, [] => VReturn Gt
    | x :: a', y :: b' =>
        vc_marker c_dash a b (vc_marker c_caret a b (vc_marker c_dot a b
          (if is_ascii_digit x || is_ascii_digit y then vc_numeric a b
           else if is_ascii_alphabetic x || is_ascii_alphabetic y then vc_alpha a b
           else VContinue a' b')))
    end.

Fixpoint vc_loop (fuel : nat) (a b : list Z) : option comparison :=
  match fuel with
  | O => None
  | S n => match vc_iter a b with
           | VReturn o => Some o
           | VContinue a' b' => vc_loop n a' b'
           end
  end.

(** Every round that continues consumes at least one byte, so the lengths are
    enough fuel ([vc_loop_key] below). *)
Definition version_compare (a b : list Z) : comparison :=
  default Eq (vc_loop (S (length (str_bytes a) + length (str_bytes b)))
                      (str_bytes a) (str_bytes b)).

(** ** The reference: ranked tokens *)
Inductive vtok : Type :=
  | KTilde | KEnd | KDash | KCaret | KDot
  | KZeroLow            (* an all-zero number followed, zeros apart, by a marker or the end *)
  | KAlpha (w : list Z)
  | KZeroHigh           (* an all-zero number followed, zeros apart, by a number *)
  | KNum (digits : list Z)
  | KZero.              (* an all-zero number, before its successor is known *)

Definition vrank (t : vtok) : Z :=
  match t with
  | KTilde => 0 | KEnd => 1 | KDash => 2 | KCaret => 3 | KDot => 4
  | KZeroLow => 5 | KZero => 5 | KAlpha _ => 6 | KZeroHigh => 7 | KNum _ => 8
  end.

Definition vpayload (t : vtok) : list Z :=
  match t with
  | KAlpha w => w
  | KNum d => len d :: d
  | _ => []
  end.

Definition vtok_cmp (t u : vtok) : comparison :=
  cmp_then (vrank t ?= vrank u) (lex_cmp Z.compare (vpayload t) (vpayload u)).

(** The first token of a byte string and what follows it. *)
Definition vnext (a0 : list Z) : vtok * list Z :=
  let a := drop_while (fun c => negb (is_version_char c)) a0 in
  match a with
  | [] => (KEnd, [])
  | x :: a' =>
      if x =? c_tilde then (KTilde, a')
      else if x =? c_dash then (KDash, a')
      else if x =? c_caret then (KCaret, a')
      else if x =? c_dot then (KDot, a')
      else if is_ascii_digit x then
        let d := drop_while (Z.eqb 48) a in
        (match take_while is_ascii_digit d with [] => KZero | ds => KNum ds end,
         drop_while is_ascii_digit d)
      else (KAlpha (take_while is_ascii_alphabetic a), drop_while is_ascii_alphabetic a)
  end.

(** A zero in front of a word is ignored; in front of a marker or the end it
    ranks between the markers and the words, in front of a number between
    the words and the numbers. *)
Definition vcons (t : vtok) (k : list vtok) : list vtok :=
  match t, k with
  | KZero, KAlpha _ :: _ => k
  | KZero, (KNum _ | KZeroHigh) :: _ => KZeroHigh :: k
  | KZero, _ => KZeroLow :: k
  | _, _ => t :: k
  end.

Fixpoint vkey_go (fuel : nat) (a : list Z) : list vtok :=
  match fuel with
  | O => [KEnd]
  | S n => match vnext a with
           | (KEnd, _) => [KEnd]
           | (t, rest) => vcons t (vkey_go n rest)
           end
  end.

Definition vkey (a : list Z) : list vtok := vkey_go (S (length a)) a.

Definition version_compare_ref (a b : list Z) : comparison :=
  lex_cmp vtok_cmp (vkey (str_bytes a)) (vkey (str_bytes b)).

(** ** The loop round, read on tokens *)
Abbreviation vskip := (drop_while (fun c => negb (is_version_char c))).

Definition vround (ta tb : vtok) (ra rb a b : list Z) : vc_round :=
  match ta, tb with
  | KTilde, KTilde | KDash, KDash | KCaret, KCaret | KDot, KDot | KZero, KZero => VContinue ra rb
  | KEnd, KEnd => VReturn Eq
  | KZero, KAlpha _ => VContinue ra b
  | KAlpha _, KZero => VContinue a rb
  | KAlpha _, KAlpha _ | KNum _, KNum _ =>
      match lex_cmp Z.compare (vpayload ta) (vpayload tb) with
      | Eq => VContinue ra rb
      | o => VReturn o
      end
  | _, _ => VReturn (vrank ta ?= vrank tb)
  end.

Lemma version_char_cases (x : Z) :
  negb (is_version_char x) = false ->
  (x =? c_tilde) = false -> (x =? c_dash) = false -> (x =? c_caret) = false ->
  (x =? c_dot) = false -> is_ascii_digit x = false -> is_ascii_alphabetic x = true.
Proof.
  unfold is_version_char, is_ascii_alphanumeric. intros H E1 E2 E3 E4 E5.
  rewrite E1, E2, E3, E4, E5 in H. by destruct (is_ascii_alphabetic x).
Qed.

Lemma digit_not_alpha (x : Z) : is_ascii_digit x = true -> is_ascii_alphabetic x = false.
Proof. unfold is_ascii_digit, is_ascii_alphabetic, is_ascii_uppercase, is_ascii_lowercase. lia. Qed.

Lemma not_digit_scan (x : Z) (a : list Z) :
  is_ascii_digit x = false ->
  drop_while (Z.eqb 48) (x :: a) = x :: a /\
  take_while is_ascii_digit (x :: a) = [] /\
  drop_while is_ascii_digit (x :: a) = x :: a.
Proof.
  intros H. assert ((48 =? x) = false) as E by (unfold is_ascii_digit in H; lia).
  simpl. by rewrite E, H.
Qed.

Lemma lex_cmp_len (xs ys : list Z) :
  lex_cmp Z.compare (len xs :: xs) (len ys :: ys) =
  if negb (length xs =? length ys)%nat then (length xs ?= length ys)%nat
  else lex_cmp Z.compare xs ys.
Proof.
  cbn [lex_cmp]. unfold len. rewrite Nat2Z.inj_compare.
  destruct (Nat.eqb_spec (length xs) (length ys)) as [E|E]; simpl.
  - by rewrite E, Nat.compare_refl.
  - by destruct (Nat.compare_spec (length xs) (length ys)).
Qed.

Ltac head_bools x :=
  destruct (x =? c_tilde) eqn:?; destruct (x =? c_dash) eqn:?;
  destruct (x =? c_caret) eqn:?; destruct (x =? c_dot) eqn:?;
  try (exfalso; unfold c_tilde, c_dash, c_caret, c_dot in *; lia).

Lemma marker_not_digit (c x : Z) :
  (x =? c) = true -> (c = c_tilde \/ c = c_dash \/ c = c_caret \/ c = c_dot) ->
  is_ascii_digit x = false.
Proof. unfold is_ascii_digit, c_tilde, c_dash, c_caret, c_dot. lia. Qed.

Lemma vc_iter_round (a b : list Z) :
  vc_iter a b = vround (vnext a).1 (vnext b).1 (vnext a).2 (vnext b).2 (vskip a) (vskip b).
Proof.
  unfold vc_iter, vnext.
  destruct (vskip a) as [|x a'] eqn:Ea; destruct (vskip b) as [|y b'] eqn:Eb; try done.
  - apply drop_while_head in Eb. unfold vc_marker; simpl. head_bools y; simpl; try done.
    destruct (is_ascii_digit y) eqn:Ed; [|done]. simpl.
    by destruct (take_while is_ascii_digit _).
  - apply drop_while_head in Ea. unfold vc_marker; simpl. head_bools x; simpl; try done.
    destruct (is_ascii_digit x) eqn:Ed; [|done]. simpl.
    by destruct (take_while is_ascii_digit _).
  - apply drop_while_head in Ea. apply drop_while_head in Eb.
    pose proof (version_char_cases x Ea) as Hx. pose proof (version_char_cases y Eb) as Hy.
    unfold vc_marker. cbn [head_is].
    head_bools x; head_bools y; cbn [orb negb tail]; try done;
      try (destruct (is_ascii_digit y) eqn:Edy; simpl; [|done];
           by destruct (take_while is_ascii_digit _));
      try (destruct (is_ascii_digit x) eqn:Edx; simpl; [|done];
           by destruct (take_while is_ascii_digit _)).
    specialize (Hx eq_refl eq_refl eq_refl eq_refl).
    specialize (Hy eq_refl eq_refl eq_refl eq_refl).
    destruct (is_ascii_digit x) eqn:Edx; destruct (is_ascii_digit y) eqn:Edy; simpl orb.
    + unfold vc_numeric.
      set (da := drop_while (Z.eqb 48) (x :: a')). set (db := drop_while (Z.eqb 48) (y :: b')).
      destruct (take_while is_ascii_digit da) as [|p ps] eqn:Pa;
        destruct (take_while is_ascii_digit db) as [|q qs] eqn:Pb; try done.
      cbn [fst snd vround vpayload]. rewrite lex_cmp_len.
      destruct (Nat.eqb_spec (length (p :: ps)) (length (q :: qs))) as [E|E]; cbn [negb].
      * by destruct (lex_cmp Z.compare (p :: ps) (q :: qs)).
      * by destruct (Nat.compare_spec (length (p :: ps)) (length (q :: qs))).
    + destruct (not_digit_scan y b' Edy) as (E1 & E2 & E3).
      unfold vc_numeric. rewrite E1, E2, E3.
      set (da := drop_while (Z.eqb 48) (x :: a')).
      by destruct (take_while is_ascii_digit da) as [|p ps].
    + destruct (not_digit_scan x a' Edx) as (E1 & E2 & E3).
      unfold vc_numeric. rewrite E1, E2, E3.
      set (db := drop_while (Z.eqb 48) (y :: b')).
      by destruct (take_while is_ascii_digit db) as [|p ps].
    + rewrite (Hx eq_refl), (Hy eq_refl). simpl orb. cbn [fst snd vround vpayload].
      unfold vc_alpha. by destruct (lex_cmp _ _ _).
Qed.

(** ** Tokenizing makes progress, so the fuel of [vkey] is enough *)
Lemma vnext_skip (a : list Z) : vnext (vskip a) = vnext a.
Proof. unfold vnext. by rewrite drop_while_idem. Qed.

Lemma vnext_shorter (a : list Z) :
  (vnext a).1 = KEnd \/ (length (vnext a).2 < length a)%nat.
Proof.
  unfold vnext. pose proof (drop_while_length (fun c => negb (is_version_char c)) a) as Hl.
  destruct (vskip a) as [|x a'] eqn:Ea; [by left|]. right.
  apply drop_while_head in Ea. simpl in Hl.
  pose proof (version_char_cases x Ea) as Hx.
  head_bools x; try (simpl; lia).
  destruct (is_ascii_digit x) eqn:Ed; cbn [fst snd].
  - pose proof (drop_while_length is_ascii_digit (drop_while (Z.eqb 48) (x :: a'))) as H1.
    destruct (48 =? x) eqn:E0.
    + pose proof (drop_while_false_head (Z.eqb 48) x a' E0). lia.
    + assert (drop_while (Z.eqb 48) (x :: a') = x :: a') as -> by (simpl; by rewrite E0).
      pose proof (drop_while_false_head is_ascii_digit x a' Ed). lia.
  - pose proof (drop_while_false_head is_ascii_alphabetic x a' (Hx eq_refl eq_refl eq_refl eq_refl eq_refl)).
    lia.
Qed.

Lemma vkey_go_fuel (n m : nat) (a : list Z) :
  (length a < n)%nat -> (length a < m)%nat -> vkey_go n a = vkey_go m a.
Proof.
  revert m a. induction n as [|n IH]; intros [|m] a Hn Hm; try lia. simpl.
  destruct (vnext_shorter a) as [E|Hs]; destruct (vnext a) as [t r]; simpl in *.
  - by rewrite E.
  - by rewrite (IH m r) by lia.
Qed.

Lemma vkey_unfold (a : list Z) :
  vkey a = match (vnext a).1 with
           | KEnd => [KEnd]
           | t => vcons t (vkey (vnext a).2)
           end.
Proof.
  unfold vkey. destruct (vnext_shorter a) as [E|Hs].
  - simpl. destruct (vnext a) as [t r]. simpl in *. by rewrite E.
  - rewrite <- (vkey_go_fuel (length a) (S (length (vnext a).2)) (vnext a).2) by lia.
    cbn [vkey_go]. by destruct (vnext a) as [[] r].
Qed.

Lemma vkey_skip (a : list Z) : vkey (vskip a) = vkey a.
Proof. by rewrite (vkey_unfold (vskip a)), vnext_skip, <- vkey_unfold. Qed.

(** A key is never empty and holds no undecided zero. *)
Definition vhead_ok (k : list vtok) : Prop :=
  match k with [] | KZero :: _ => False | _ => True end.

Lemma vkey_go_head_ok (n : nat) (a : list Z) : vhead_ok (vkey_go n a).
Proof.
  revert a. induction n as [|n IH]; intros a; simpl; [done|].
  destruct (vnext a) as [t r]. specialize (IH r).
  destruct t; simpl; try done. by destruct (vkey_go n r) as [|[] ?].
Qed.

(** The cases of [vround], on keys. *)
Lemma vcons_zero_zero (k l : list vtok) :
  vhead_ok k -> vhead_ok l ->
  lex_cmp vtok_cmp (vcons KZero k) (vcons KZero l) = lex_cmp vtok_cmp k l.
Proof. destruct k as [|[] k]; destruct l as [|[] l]; done. Qed.

Lemma vcons_zero_alpha (k l : list vtok) (w : list Z) :
  vhead_ok k ->
  lex_cmp vtok_cmp (vcons KZero k) (KAlpha w :: l) = lex_cmp vtok_cmp k (KAlpha w :: l).
Proof. destruct k as [|[] k]; done. Qed.

Lemma vcons_alpha_zero (k l : list vtok) (w : list Z) :
  vhead_ok l ->
  lex_cmp vtok_cmp (KAlpha w :: k) (vcons KZero l) = lex_cmp vtok_cmp (KAlpha w :: k) l.
Proof. destruct l as [|[] l]; done. Qed.

Lemma vnext_raw (a : list Z) :
  match (vnext a).1 with KZeroLow | KZeroHigh => False | _ => True end.
Proof.
  unfold vnext. destruct (vskip a) as [|x a']; [done|]. repeat case_match; simplify_eq/=; done.
Qed.

Lemma vtok_cmp_payload (t u : vtok) (k l : list vtok) :
  vrank t = vrank u ->
  lex_cmp vtok_cmp (t :: k) (u :: l) =
  cmp_then (lex_cmp Z.compare (vpayload t) (vpayload u)) (lex_cmp vtok_cmp k l).
Proof. intros E. simpl. unfold vtok_cmp. by rewrite E, Z.compare_refl. Qed.

Definition vround_key (r : vc_round) : comparison :=
  match r with
  | VReturn o => o
  | VContinue a b => lex_cmp vtok_cmp (vkey a) (vkey b)
  end.

(** One round of the loop preserves the comparison of the keys. *)
Lemma vc_iter_key (a b : list Z) :
  vround_key (vc_iter a b) = lex_cmp vtok_cmp (vkey a) (vkey b).
Proof.
  rewrite vc_iter_round.
  pose proof (vkey_skip a) as Ska. pose proof (vkey_skip b) as Skb.
  rewrite (vkey_unfold a) in *. rewrite (vkey_unfold b) in *.
  pose proof (vkey_go_head_ok (S (length (vnext a).2)) (vnext a).2) as Ha.
  pose proof (vkey_go_head_ok (S (length (vnext b).2)) (vnext b).2) as Hb.
  change (vhead_ok (vkey (vnext a).2)) in Ha. change (vhead_ok (vkey (vnext b).2)) in Hb.
  generalize dependent (vnext a).2. generalize dependent (vnext b).2. intros rb Skb Hb ra Ska Ha.
  pose proof (vnext_raw a) as Ra. pose proof (vnext_raw b) as Rb.
  destruct (vnext a).1, (vnext b).1; try done; cbn [vround vround_key];
    try rewrite Ska; try rewrite Skb; try done;
    try (by destruct (vkey ra) as [|[] ?]); try (by destruct (vkey rb) as [|[] ?]).
  - cbn [vcons]. rewrite vtok_cmp_payload by done. by destruct (lex_cmp Z.compare _ _).
  - cbn [vcons]. rewrite vtok_cmp_payload by done. by destruct (lex_cmp Z.compare _ _).
  - by rewrite vcons_zero_zero.
Qed.

Lemma vround_shorter (a b a' b' : list Z) :
  vc_iter a b = VContinue a' b' -> (length a' + length b' < length a + length b)%nat.
Proof.
  rewrite vc_iter_round.
  pose proof (vnext_shorter a) as Ha. pose proof (vnext_shorter b) as Hb.
  pose proof (drop_while_length (fun c => negb (is_version_char c)) a) as La.
  pose proof (drop_while_length (fun c => negb (is_version_char c)) b) as Lb.
  destruct (vnext a).1, (vnext b).1; cbn [vround]; try done;
    try destruct (lex_cmp Z.compare _ _); intros [= <- <-];
    destruct Ha, Hb; try done; lia.
Qed.

Lemma vc_loop_key (n : nat) (a b : list Z) :
  (length a + length b < n)%nat ->
  vc_loop n a b = Some (lex_cmp vtok_cmp (vkey a) (vkey b)).
Proof.
  revert a b. induction n as [|n IH]; intros a b Hn; [lia|]. simpl.
  pose proof (vc_iter_key a b) as Hk. destruct (vc_iter a b) as [o|a' b'] eqn:E; simpl in Hk.
  - by rewrite Hk.
  - apply vround_shorter in E. rewrite IH by lia. by rewrite Hk.
Qed.

Lemma version_compare_eq_ref (a b : list Z) : version_compare a b = version_compare_ref a b.
Proof. unfold version_compare, version_compare_ref. by rewrite vc_loop_key by lia. Qed.

#[export] Instance total_cmp_vtok : TotalCmp vtok_cmp.
Proof.
  apply (total_cmp_then (fun t u => vrank t ?= vrank u)
           (fun t u => lex_cmp Z.compare (vpayload t) (vpayload u)));
    apply (total_cmp_on _ _); apply _.
Qed.

#[export] Instance total_cmp_version : TotalCmp version_compare.
Proof.
  apply (total_cmp_ext version_compare_ref).
  - intros. symmetry. apply version_compare_eq_ref.
  - apply (total_cmp_on (fun s => vkey (str_bytes s)) (lex_cmp vtok_cmp)). apply _.
Qed.

(** [version_compare] is a total preorder on arbitrary strings: swapping the
    arguments reverses the answer, every string equals itself, and "not newer"
    is transitive.  This is what sorting the menu and picking the highest
    version rely on. *)
Theorem version_compare_preorder (a b c : list Z) :
  version_compare b a = CompOpp (version_compare a b) /\
  version_compare a a = Eq /\
  (version_compare a b <> Gt -> version_compare b c <> Gt -> version_compare a c <> Gt).
Proof.
  split_and!; [apply cmp_opp, _|apply cmp_refl, _|apply cmp_le_trans, _].
Qed.

(** C39. The comparison loop returns within as many rounds as the two strings have
    bytes, plus one, and its answer is the reference order on token sequences:
    tilde, end, dash, caret, dot, word, number, from low to high, numbers
    compared by length then digits after dropping leading zeros. *)
Theorem version_compare_refines_tokens (fuel : nat) (a b : list Z) :
  (length (str_bytes a) + length (str_bytes b) < fuel)%nat ->
  vc_loop fuel (str_bytes a) (str_bytes b) = Some (version_compare a b) /\
  version_compare a b = version_compare_ref a b.
Proof.
  intros Hf. rewrite vc_loop_key by done. rewrite version_compare_eq_ref. done.
Qed.

Lemma version_compare_refines_tokens_witness :
  vc_loop 20 (str_bytes (lit "6.19.9")) (str_bytes (lit "6.19.11")) = Some Lt /\
  version_compare_ref (lit "6.19.9") (lit "6.19.11") = Lt.
Proof.
  pose proof (version_compare_refines_tokens 20 (lit "6.19.9") (lit "6.19.11")
                ltac:(vm_compute; lia)) as [H1 H2].
  rewrite H1, <- H2. vm_compute. done.
Defined.
