(* ===== verification/BlsParse.v ===== *)
(** * Boot Loader Specification entries (bls_parse.rs)

    The parser of a [.conf] entry, the comparison that orders the boot menu,
    and the helpers on file names, options and paths.  The version comparison
    it uses is in VersionOrder.v. *)
From S2P Require Import Prelude Compare RustStr VersionOrder.
Local Open Scope Z_scope.

Record BlsEntry : Type := mkBls {
  b_id : list Z;
  b_filename : list Z;
  b_title : option (list Z);
  b_version : option (list Z);
  b_machine_id : option (list Z);
  b_sort_key : option (list Z);
  b_linux : option (list Z);
  b_initrd : list (list Z);
  b_efi : option (list Z);
  b_options : list (list Z);
  b_architecture : option (list Z);
  b_tries_left : option Z;
  b_tries_done : option Z;
  b_source_volume_index : Z;
  b_source_backend_tag : list Z
}.

(** Field assignments ([entry.f = v]). *)
Definition set_id (v : list Z) (e : BlsEntry) : BlsEntry :=
  mkBls v (b_filename e) (b_title e) (b_version e) (b_machine_id e) (b_sort_key e) (b_linux e)
        (b_initrd e) (b_efi e) (b_options e) (b_architecture e) (b_tries_left e) (b_tries_done
        e) (b_source_volume_index e) (b_source_backend_tag e).
Definition set_title (v : option (list Z)) (e : BlsEntry) : BlsEntry :=
  mkBls (b_id e) (b_filename e) v (b_version e) (b_machine_id e) (b_sort_key e) (b_linux e)
        (b_initrd e) (b_efi e) (b_options e) (b_architecture e) (b_tries_left e) (b_tries_done
        e) (b_source_volume_index e) (b_source_backend_tag e).
Definition set_version (v : option (list Z)) (e : BlsEntry) : BlsEntry :=
  mkBls (b_id e) (b_filename e) (b_title e) v (b_machine_id e) (b_sort_key e) (b_linux e)
        (b_initrd e) (b_efi e) (b_options e) (b_architecture e) (b_tries_left e) (b_tries_done
        e) (b_source_volume_index e) (b_source_backend_tag e).
Definition set_machine_id (v : option (list Z)) (e : BlsEntry) : BlsEntry :=
  mkBls (b_id e) (b_filename e) (b_title e) (b_version e) v (b_sort_key e) (b_linux e)
        (b_initrd e) (b_efi e) (b_options e) (b_architecture e) (b_tries_left e) (b_tries_done
        e) (b_source_volume_index e) (b_source_backend_tag e).
Definition set_sort_key (v : option (list Z)) (e : BlsEntry) : BlsEntry :=
  mkBls (b_id e) (b_filename e) (b_title e) (b_version e) (b_machine_id e) v (b_linux e)
        (b_initrd e) (b_efi e) (b_options e) (b_architecture e) (b_tries_left e) (b_tries_done
        e) (b_source_volume_index e) (b_source_backend_tag e).
Definition set_linux (v : option (list Z)) (e : BlsEntry) : BlsEntry :=
  mkBls (b_id e) (b_filename e) (b_title e) (b_version e) (b_machine_id e) (b_sort_key e) v
        (b_initrd e) (b_efi e) (b_options e) (b_architecture e) (b_tries_left e) (b_tries_done
        e) (b_source_volume_index e) (b_source_backend_tag e).
Definition set_initrd (v : list (list Z)) (e : BlsEntry) : BlsEntry :=
  mkBls (b_id e) (b_filename e) (b_title e) (b_version e) (b_machine_id e) (b_sort_key e)
        (b_linux e) v (b_efi e) (b_options e) (b_architecture e) (b_tries_left e)
        (b_tries_done e) (b_source_volume_index e) (b_source_backend_tag e).
Definition set_efi (v : option (list Z)) (e : BlsEntry) : BlsEntry :=
  mkBls (b_id e) (b_filename e) (b_title e) (b_version e) (b_machine_id e) (b_sort_key e)
        (b_linux e) (b_initrd e) v (b_options e) (b_architecture e) (b_tries_left e)
        (b_tries_done e) (b_source_volume_index e) (b_source_backend_tag e).
Definition set_options (v : list (list Z)) (e : BlsEntry) : BlsEntry :=
  mkBls (b_id e) (b_filename e) (b_title e) (b_version e) (b_machine_id e) (b_sort_key e)
        (b_linux e) (b_initrd e) (b_efi e) v (b_architecture e) (b_tries_left e) (b_tries_done
        e) (b_source_volume_index e) (b_source_backend_tag e).
Definition set_architecture (v : option (list Z)) (e : BlsEntry) : BlsEntry :=
  mkBls (b_id e) (b_filename e) (b_title e) (b_version e) (b_machine_id e) (b_sort_key e)
        (b_linux e) (b_initrd e) (b_efi e) (b_options e) v (b_tries_left e) (b_tries_done e)
        (b_source_volume_index e) (b_source_backend_tag e).
Definition set_tries_left (v : option Z) (e : BlsEntry) : BlsEntry :=
  mkBls (b_id e) (b_filename e) (b_title e) (b_version e) (b_machine_id e) (b_sort_key e)
        (b_linux e) (b_initrd e) (b_efi e) (b_options e) (b_architecture e) v (b_tries_done e)
        (b_source_volume_index e) (b_source_backend_tag e).
Definition set_tries_done (v : option Z) (e : BlsEntry) : BlsEntry :=
  mkBls (b_id e) (b_filename e) (b_title e) (b_version e) (b_machine_id e) (b_sort_key e)
        (b_linux e) (b_initrd e) (b_efi e) (b_options e) (b_architecture e) (b_tries_left e) v
        (b_source_volume_index e) (b_source_backend_tag e).
Definition set_source_volume_index (v : Z) (e : BlsEntry) : BlsEntry :=
  mkBls (b_id e) (b_filename e) (b_title e) (b_version e) (b_machine_id e) (b_sort_key e)
        (b_linux e) (b_initrd e) (b_efi e) (b_options e) (b_architecture e) (b_tries_left e)
        (b_tries_done e) v (b_source_backend_tag e).
Definition set_source_backend_tag (v : list Z) (e : BlsEntry) : BlsEntry :=
  mkBls (b_id e) (b_filename e) (b_title e) (b_version e) (b_machine_id e) (b_sort_key e)
        (b_linux e) (b_initrd e) (b_efi e) (b_options e) (b_architecture e) (b_tries_left e)
        (b_tries_done e) (b_source_volume_index e) v.

(** [PartialEq for BlsEntry]: every field but the two source references. *)
Definition bls_eq (a b : BlsEntry) : bool :=
  bool_decide (b_id a = b_id b)
  && bool_decide (b_filename a = b_filename b)
  && bool_decide (b_title a = b_title b)
  && bool_decide (b_version a = b_version b)
  && bool_decide (b_machine_id a = b_machine_id b)
  && bool_decide (b_sort_key a = b_sort_key b)
  && bool_decide (b_linux a = b_linux b)
  && bool_decide (b_initrd a = b_initrd b)
  && bool_decide (b_efi a = b_efi b)
  && bool_decide (b_options a = b_options b)
  && bool_decide (b_architecture a = b_architecture b)
  && bool_decide (b_tries_left a = b_tries_left b)
  && bool_decide (b_tries_done a = b_tries_done b).

Inductive BootCountState : Type := Good | Indeterminate | Bad.

#[export] Instance BootCountState_eq_dec : EqDecision BootCountState.
Proof. solve_decision. Defined.

(** Forward slashes become backslashes and a leading one is ensured. *)
Definition normalize_path (path : list Z) : list Z :=
  let s := replace_char c_slash [c_backslash] path in
  if starts_with [c_backslash] s then s else c_backslash :: s.

Definition strip_grub_variables (s : list Z) : list Z :=
  join_with [c_space]
    (List.filter (fun token => negb (starts_with [c_dollar] token)) (split_whitespace s)).

(** The entry before any field is read: everything absent. *)
Definition bls_blank (filename : list Z) : BlsEntry :=
  mkBls [] filename None None None None None [] None [] None None None 0 [].

(** The boot-counting suffix [<base>+<tries_left>[-<tries_done>].conf]. *)
Definition parse_name (filename : list Z) (entry : BlsEntry) : BlsEntry :=
  let name_without_ext := trim_end_matches (lit ".conf") filename in
  match rfind_char (Z.eqb c_plus) name_without_ext with
  | Some plus_pos =>
      let entry := set_id (take plus_pos name_without_ext) entry in
      let count_part := drop (S plus_pos) name_without_ext in
      match find_char (Z.eqb c_dash) count_part with
      | Some dash_pos =>
          let entry := set_tries_left (parse_uint u32_max (take dash_pos count_part)) entry in
          set_tries_done (parse_uint u32_max (drop (S dash_pos) count_part)) entry
      | None =>
          let entry := set_tries_left (parse_uint u32_max count_part) entry in
          set_tries_done (Some 0) entry
      end
  | None => set_id name_without_ext entry
  end.

(** The [match key] of the field loop. *)
Definition apply_field (key value : list Z) (entry : BlsEntry) : BlsEntry :=
  if decide (key = lit "title") then set_title (Some value) entry
  else if decide (key = lit "version") then set_version (Some value) entry
  else if decide (key = lit "machine-id") then set_machine_id (Some value) entry
  else if decide (key = lit "sort-key") then set_sort_key (Some value) entry
  else if decide (key = lit "linux") then set_linux (Some (normalize_path value)) entry
  else if decide (key = lit "efi") then set_efi (Some (normalize_path value)) entry
  else if decide (key = lit "initrd") then
    set_initrd (b_initrd entry ++ map normalize_path (split_whitespace value)) entry
  else if decide (key = lit "options") then set_options (b_options entry ++ [value]) entry
  else if decide (key = lit "architecture") then set_architecture (Some value) entry
  else entry.

(** One iteration of [for line in content.lines()]. *)
Definition parse_line (entry : BlsEntry) (raw : list Z) : BlsEntry :=
  let line := trim raw in
  if is_empty line || starts_with [c_hash] line then entry
  else match find_char is_ascii_whitespace line with
       | None => entry
       | Some pos => apply_field (take pos line) (trim_start (drop pos line)) entry
       end.

Definition parse (filename content : list Z) : option BlsEntry :=
  let entry := parse_name filename (bls_blank filename) in
  let entry := foldl parse_line entry (lines content) in
  if bool_decide (b_linux entry = None) && bool_decide (b_efi entry = None)
  then None else Some entry.

Definition boot_count_state (e : BlsEntry) : BootCountState :=
  match b_tries_left e with
  | None => Good
  | Some n => if n =? 0 then Bad else Indeterminate
  end.

Definition combined_options (e : BlsEntry) : list Z :=
  strip_grub_variables (join_with [c_space] (b_options e)).

Definition cleaned_initrd (e : BlsEntry) : list (list Z) :=
  List.filter (fun s => negb (starts_with [c_dollar] s)
                        && negb (starts_with [c_backslash; c_dollar] s)
                        && negb (starts_with [c_slash; c_dollar] s)) (b_initrd e).

(** [None] sorts after [Some]. *)
Definition cmp_opt_str (a b : option (list Z)) : comparison :=
  match a, b with
  | None, None => Eq
  | None, Some _ => Gt
  | Some _, None => Lt
  | Some a, Some b => str_cmp a b
  end.

Definition is_some {A : Type} (o : option A) : bool :=
  match o with Some _ => true | None => false end.

(** [match cmp { Equal => {}, c => return c }], then the rest. *)
Definition bls_sort_compare (a b : BlsEntry) (ignore_sort_key : bool) : comparison :=
  let a_bad := bool_decide (boot_count_state a = Bad) in
  let b_bad := bool_decide (boot_count_state b = Bad) in
  let fallback :=
    if is_some (b_version a) && is_some (b_version b)
    then CompOpp (version_compare (b_id a) (b_id b))
    else str_cmp (b_id a) (b_id b) in
  let ver_cmp := version_compare (default [] (b_version a)) (default [] (b_version b)) in
  let mid_cmp := cmp_opt_str (b_machine_id a) (b_machine_id b) in
  if negb (eqb a_bad b_bad) then (if a_bad then Gt else Lt)
  else if ignore_sort_key then
    cmp_then mid_cmp
      (if is_some (b_version a) && is_some (b_version b)
       then cmp_then (CompOpp ver_cmp) fallback else fallback)
  else
    let a_has_sk := is_some (b_sort_key a) in
    let b_has_sk := is_some (b_sort_key b) in
    if negb (eqb a_has_sk b_has_sk) then (if a_has_sk then Lt else Gt)
    else if a_has_sk && b_has_sk then
      cmp_then (cmp_opt_str (b_sort_key a) (b_sort_key b))
        (cmp_then mid_cmp (cmp_then (CompOpp ver_cmp) fallback))
    else fallback.

Definition count_digits_in_filename (filename : list Z) (marker : Z) : nat :=
  let name := trim_end_matches (lit ".conf") filename in
  match rfind_char (Z.eqb marker) name with
  | Some pos => length (take_while is_ascii_digit (drop (S pos) name))
  | None => 0%nat
  end.

(** The two build targets. *)
Inductive target_arch : Type := X86_64 | Aarch64.

Definition is_native_architecture (target : target_arch) (arch : list Z) : bool :=
  let arch_lower := to_lowercase arch in
  match target with
  | X86_64 => bool_decide (arch_lower = lit "x64") || bool_decide (arch_lower = lit "x86_64")
              || bool_decide (arch_lower = lit "x86-64")
  | Aarch64 => bool_decide (arch_lower = lit "aa64") || bool_decide (arch_lower = lit "aarch64")
               || bool_decide (arch_lower = lit "arm64")
  end.

Definition has_extension_ignore_case (filename ext : list Z) : bool :=
  match rfind_char (Z.eqb c_dot) filename with
  | None => false
  | Some dot_pos => eq_ignore_ascii_case (drop (S dot_pos) filename) ext
  end.

(** ** Paths *)
(** The form every path of a parsed entry has: UEFI separators, absolute. *)
Definition normalized (p : list Z) : Prop :=
  (exists r, p = c_backslash :: r) /\ Forall (fun c => c <> c_slash) p.

Lemma normalize_path_normalized (p : list Z) : normalized (normalize_path p).
Proof.
  unfold normalize_path, normalized.
  pose proof (replace_char_lacks c_slash c_backslash p ltac:(done)) as Hl.
  destruct (starts_with [c_backslash] _) eqn:E.
  - apply starts_with_spec in E as [r Hr]. rewrite Hr in *. eauto.
  - split; [eauto|]. by constructor.
Qed.

Lemma normalize_path_id (p : list Z) : normalized p -> normalize_path p = p.
Proof.
  intros [[r Hr] Hl]. unfold normalize_path. rewrite replace_char_id by done.
  assert (starts_with [c_backslash] p = true) as ->; [|done].
  apply starts_with_spec. by exists r.
Qed.

(** ** The invariant of a parsed entry *)
Definition bls_paths_wf (e : BlsEntry) : Prop :=
  (forall p, b_linux e = Some p -> normalized p) /\
  (forall p, b_efi e = Some p -> normalized p) /\
  Forall normalized (b_initrd e).

Lemma apply_field_wf (k v : list Z) (e : BlsEntry) :
  bls_paths_wf e -> bls_paths_wf (apply_field k v e).
Proof.
  intros (Hl & He & Hi). unfold apply_field.
  repeat case_decide; unfold bls_paths_wf; split_and!; simpl; try done;
    try (intros ? [= <-]; apply normalize_path_normalized).
  apply Forall_app. split; [done|]. apply Forall_map, Forall_true. apply normalize_path_normalized.
Qed.

Lemma parse_line_wf (e : BlsEntry) (l : list Z) : bls_paths_wf e -> bls_paths_wf (parse_line e l).
Proof.
  intros H. unfold parse_line. destruct (_ || _); [done|].
  destruct (find_char _ _); [by apply apply_field_wf|done].
Qed.

(** Lines only touch the fields they name: the name-derived fields stay. *)
Definition same_name (e e' : BlsEntry) : Prop :=
  b_id e' = b_id e /\ b_filename e' = b_filename e /\
  b_tries_left e' = b_tries_left e /\ b_tries_done e' = b_tries_done e.

Lemma parse_line_name (e : BlsEntry) (l : list Z) : same_name e (parse_line e l).
Proof.
  unfold parse_line, apply_field. destruct (_ || _); [done|].
  destruct (find_char _ _); [|done]. by repeat case_decide.
Qed.

Lemma foldl_parse_line_name (ls : list (list Z)) (e : BlsEntry) :
  same_name e (foldl parse_line e ls).
Proof.
  revert e. induction ls as [|l ls IH]; intros e; simpl; [done|].
  pose proof (parse_line_name e l). pose proof (IH (parse_line e l)).
  unfold same_name in *. intuition congruence.
Qed.

Lemma foldl_parse_line_wf (ls : list (list Z)) (e : BlsEntry) :
  bls_paths_wf e -> bls_paths_wf (foldl parse_line e ls).
Proof. revert e. induction ls as [|l ls IH]; intros e H; simpl; [done|]. by apply IH, parse_line_wf. Qed.

Lemma parse_name_blank (f : list Z) :
  bls_paths_wf (parse_name f (bls_blank f)) /\ b_filename (parse_name f (bls_blank f)) = f.
Proof.
  unfold parse_name. destruct (rfind_char _ _); [destruct (find_char _ _)|];
    by repeat split; simpl.
Qed.

Lemma parse_some (f c : list Z) (e : BlsEntry) :
  parse f c = Some e ->
  e = foldl parse_line (parse_name f (bls_blank f)) (lines c) /\
  (b_linux e <> None \/ b_efi e <> None).
Proof.
  unfold parse. destruct (_ && _) eqn:E; [done|]. intros [= <-]. split; [done|].
  apply andb_false_iff in E as [E%bool_decide_eq_false|E%bool_decide_eq_false]; auto.
Qed.

(** ** The order of the menu *)
#[export] Instance total_cmp_str : TotalCmp str_cmp.
Proof. unfold str_cmp. apply _. Qed.

#[export] Instance total_cmp_opt_str : TotalCmp cmp_opt_str.
Proof.
  split.
  - intros [x|] [y|]; simpl; try done. apply cmp_opp, _.
  - intros [x|] [y|] [z|]; simpl; try done. apply cmp_le_trans, _.
Qed.

Definition has_version (e : BlsEntry) : bool := is_some (b_version e).
Definition bad_rank (e : BlsEntry) : Z := if decide (boot_count_state e = Bad) then 1 else 0.
Definition sk_rank (e : BlsEntry) : Z := if is_some (b_sort_key e) then 0 else 1.

Section menu_order.
(** Entries that all carry a version, or all carry none. *)
Context (v : bool).

Definition id_cmp (a b : BlsEntry) : comparison :=
  if v then CompOpp (version_compare (b_id a) (b_id b)) else str_cmp (b_id a) (b_id b).
Definition mid_cmp (a b : BlsEntry) : comparison :=
  cmp_opt_str (b_machine_id a) (b_machine_id b).
Definition ver_cmp (a b : BlsEntry) : comparison :=
  CompOpp (version_compare (default [] (b_version a)) (default [] (b_version b))).
Definition keyed_cmp (a b : BlsEntry) : comparison :=
  cmp_then (cmp_opt_str (b_sort_key a) (b_sort_key b))
    (cmp_then (mid_cmp a b) (cmp_then (ver_cmp a b) (id_cmp a b))).
Definition unkeyed_cmp (a b : BlsEntry) : comparison :=
  cmp_then (mid_cmp a b) (if v then cmp_then (ver_cmp a b) (id_cmp a b) else id_cmp a b).
Definition default_cmp (a b : BlsEntry) : comparison :=
  cmp_then (sk_rank a ?= sk_rank b)
    (if is_some (b_sort_key a) && is_some (b_sort_key b) then keyed_cmp a b else id_cmp a b).
Definition menu_cmp (ign : bool) (a b : BlsEntry) : comparison :=
  cmp_then (bad_rank a ?= bad_rank b) (if ign then unkeyed_cmp a b else default_cmp a b).

#[local] Instance total_id_cmp : TotalCmp id_cmp.
Proof.
  unfold id_cmp. destruct v.
  - apply (total_cmp_flip (fun a b => version_compare (b_id a) (b_id b))).
    apply (total_cmp_on b_id version_compare), _.
  - apply (total_cmp_on b_id str_cmp), _.
Qed.
#[local] Instance total_mid_cmp : TotalCmp mid_cmp.
Proof. apply (total_cmp_on b_machine_id cmp_opt_str), _. Qed.
#[local] Instance total_ver_cmp : TotalCmp ver_cmp.
Proof.
  apply (total_cmp_flip (fun a b => version_compare (default [] (b_version a)) (default [] (b_version b)))).
  apply (total_cmp_on (fun e => default [] (b_version e)) version_compare), _.
Qed.
#[local] Instance total_ver_id_cmp : TotalCmp (fun a b => cmp_then (ver_cmp a b) (id_cmp a b)).
Proof. apply total_cmp_then; apply _. Qed.
#[local] Instance total_keyed_cmp : TotalCmp keyed_cmp.
Proof.
  apply (total_cmp_then (fun a b => cmp_opt_str (b_sort_key a) (b_sort_key b))).
  - apply (total_cmp_on b_sort_key cmp_opt_str), _.
  - apply (total_cmp_then mid_cmp); apply _.
Qed.
#[local] Instance total_unkeyed_cmp : TotalCmp unkeyed_cmp.
Proof. apply (total_cmp_then mid_cmp); [apply _|]. destruct v; apply _. Qed.

Lemma sk_rank_eq (a b : BlsEntry) :
  (sk_rank a ?= sk_rank b) = Eq -> is_some (b_sort_key a) = is_some (b_sort_key b).
Proof.
  unfold sk_rank. rewrite Z.compare_eq_iff.
  by destruct (is_some (b_sort_key a)), (is_some (b_sort_key b)).
Qed.

#[local] Instance total_default_cmp : TotalCmp default_cmp.
Proof.
  apply (total_cmp_then_class (fun a b => sk_rank a ?= sk_rank b)).
  - apply (total_cmp_on sk_rank Z.compare), _.
  - intros x y ->%sk_rank_eq. destruct (is_some (b_sort_key y)); apply cmp_opp, _.
  - intros x y z ->%sk_rank_eq ->%sk_rank_eq.
    destruct (is_some (b_sort_key z)); apply cmp_le_trans, _.
Qed.

Lemma total_menu_cmp (ign : bool) : TotalCmp (menu_cmp ign).
Proof.
  apply (total_cmp_then (fun a b => bad_rank a ?= bad_rank b)).
  - apply (total_cmp_on bad_rank Z.compare), _.
  - destruct ign; apply _.
Qed.

(** On entries that agree on having a version, the code's comparison is
    the composition above. *)
Lemma bls_sort_compare_menu (ign : bool) (a b : BlsEntry) :
  has_version a = v -> has_version b = v -> bls_sort_compare a b ign = menu_cmp ign a b.
Proof.
  unfold has_version. intros Ha Hb. unfold bls_sort_compare, menu_cmp, bad_rank, unkeyed_cmp,
    default_cmp, sk_rank, keyed_cmp, id_cmp, ver_cmp, mid_cmp.
  rewrite Ha, Hb.
  replace (v && v) with v by (by destruct v).
  destruct (decide (boot_count_state a = Bad)) as [E1|E1];
    destruct (decide (boot_count_state b = Bad)) as [E2|E2];
    rewrite ?(bool_decide_eq_true_2 _ E1), ?(bool_decide_eq_true_2 _ E2),
            ?(bool_decide_eq_false_2 _ E1), ?(bool_decide_eq_false_2 _ E2); simpl; try done;
    destruct ign; try done;
    by destruct (is_some (b_sort_key a)), (is_some (b_sort_key b)).
Qed.
End menu_order.

(** The key of a line, as the field loop reads it; [None] for a line it skips. *)
Definition line_key (raw : list Z) : option (list Z) :=
  let line := trim raw in
  if is_empty line || starts_with [c_hash] line then None
  else (fun pos => take pos line) <$> find_char is_ascii_whitespace line.

Definition names_image (raw : list Z) : Prop :=
  line_key raw = Some (lit "linux") \/ line_key raw = Some (lit "efi").

Definition no_image (e : BlsEntry) : Prop := b_linux e = None /\ b_efi e = None.

Lemma parse_line_image (e : BlsEntry) (raw : list Z) :
  no_image (parse_line e raw) <-> no_image e /\ ~ names_image raw.
Proof.
  unfold parse_line, names_image, line_key, no_image.
  destruct (_ || _); [naive_solver|].
  destruct (find_char is_ascii_whitespace (trim raw)) as [pos|]; simpl; [|naive_solver].
  unfold apply_field. generalize (take pos (trim raw)). intros k.
  repeat case_decide; subst; simpl; split; try naive_solver;
    intros [? Hk]; split_and?; try done; exfalso; apply Hk; auto.
Qed.

Lemma foldl_parse_line_image (ls : list (list Z)) (e : BlsEntry) :
  no_image (foldl parse_line e ls) <-> no_image e /\ Forall (fun l => ~ names_image l) ls.
Proof.
  revert e. induction ls as [|l ls IH]; intros e; simpl.
  - rewrite Forall_nil. naive_solver.
  - rewrite IH, parse_line_image, Forall_cons. tauto.
Qed.

(** [BlsEntry::parse] rejects a file exactly when none of its lines names an
    image: no line whose key is [linux] or [efi].  Nothing else in the file
    name or the contents makes it fail. *)
Theorem parse_rejects_iff (filename content : list Z) :
  parse filename content = None <-> Forall (fun l => ~ names_image l) (lines content).
Proof.
  unfold parse.
  assert (no_image (parse_name filename (bls_blank filename))) as Hn.
  { unfold parse_name. by destruct (rfind_char _ _); [destruct (find_char _ _)|]. }
  pose proof (foldl_parse_line_image (lines content) (parse_name filename (bls_blank filename))) as H.
  destruct (_ && _) eqn:E.
  - apply andb_true_iff in E as [E1%bool_decide_eq_true E2%bool_decide_eq_true].
    unfold no_image in *. tauto.
  - split; [done|]. intros Hf. destruct (proj2 H (conj Hn Hf)) as [H1 H2].
    rewrite H1, H2, !bool_decide_eq_true_2 in E by done. done.
Qed.

(** C40. A parsed entry names an image, every path in it ([linux], [efi], [initrd])
    is absolute with UEFI separators only, and its file name is the one given. *)
Theorem parse_entry_wf (filename content : list Z) (e : BlsEntry) :
  parse filename content = Some e ->
  (b_linux e <> None \/ b_efi e <> None) /\ bls_paths_wf e /\ b_filename e = filename.
Proof.
  intros (He & Himg)%parse_some. destruct (parse_name_blank filename) as [Hwf Hf].
  split_and!; [done| |].
  - rewrite He. by apply foldl_parse_line_wf.
  - destruct (foldl_parse_line_name (lines content) (parse_name filename (bls_blank filename)))
      as (_ & H & _). by rewrite He, H.
Qed.

Lemma parse_entry_wf_witness :
  exists e, parse (lit "a+3-0.conf") (lit "linux /vmlinuz") = Some e /\
    b_linux e = Some (lit "\vmlinuz") /\ bls_paths_wf e.
Proof.
  eexists. split; [vm_compute; reflexivity|].
  match goal with |- b_linux ?e = _ /\ _ =>
    destruct (parse_entry_wf (lit "a+3-0.conf") (lit "linux /vmlinuz") e) as (_ & H & _);
      [vm_compute; reflexivity|]
  end.
  split; [vm_compute; reflexivity|exact H].
Defined.

(** The options handed to the kernel: the words of the [options] lines in
    order, less exactly the GRUB variables (the words that start with [$]). *)
Theorem combined_options_words (e : BlsEntry) :
  split_whitespace (combined_options e) =
  List.filter (fun w => negb (starts_with [c_dollar] w))
              (split_whitespace (join_with [c_space] (b_options e))).
Proof.
  unfold combined_options, strip_grub_variables.
  apply split_whitespace_join, Forall_list_filter, split_whitespace_words.
Qed.

(** Sorting the entries of a volume, when all of them carry a version or none
    does: the result holds the same entries, is in the order of
    [bls_sort_compare], and no failed entry ([tries_left] at zero) comes
    before one that is not. *)
Theorem menu_sorted (ign v : bool) (es : list BlsEntry) :
  Forall (fun e => has_version e = v) es ->
  let sorted := sort_by (fun a b => bls_sort_compare a b ign) es in
  sorted ≡ₚ es /\
  StronglySorted (fun a b => bls_sort_compare a b ign <> Gt) sorted /\
  StronglySorted (fun a b => boot_count_state a = Bad -> boot_count_state b = Bad) sorted.
Proof.
  intros Hv. simpl. rewrite Forall_forall in Hv.
  assert (sort_by (fun a b => bls_sort_compare a b ign) es = sort_by (menu_cmp v ign) es) as ->.
  { apply sort_by_ext. intros. apply bls_sort_compare_menu; auto. }
  pose proof (sort_by_perm (menu_cmp v ign) es) as Hp.
  pose proof (sort_by_sorted (menu_cmp v ign) (Hcmp := total_menu_cmp v ign) es) as Hs.
  assert (forall x, x ∈ sort_by (menu_cmp v ign) es -> has_version x = v) as Hv'.
  { intros x Hx. rewrite Hp in Hx. auto. }
  split_and!; [done|..]; eapply StronglySorted_impl_in; [|exact Hs| |exact Hs]; intros x y Hx Hy Hle.
  - rewrite (bls_sort_compare_menu v); auto.
  - unfold cmp_le, menu_cmp, bad_rank in Hle. intros Hb.
    rewrite decide_True in Hle by done. by case_decide.
Qed.

Definition demo_entry (id : string) (ver : option string) (tries : option Z) : BlsEntry :=
  mkBls (lit id) (lit id ++ lit ".conf") None (lit <$> ver) None None (Some (lit "\vmlinuz"))
        [] None [] None tries (Some 0) 0 [].

Lemma menu_sorted_witness :
  let es := [demo_entry "old" (Some "6.1") None; demo_entry "failed" (Some "6.9") (Some 0);
             demo_entry "new" (Some "6.10") None] in
  let sorted := sort_by (fun a b => bls_sort_compare a b true) es in
  map b_id sorted = [lit "new"; lit "old"; lit "failed"] /\
  StronglySorted (fun a b => bls_sort_compare a b true <> Gt) sorted.
Proof.
  split; [vm_compute; reflexivity|].
  apply (menu_sorted true true). repeat constructor.
Defined.

(** The comparison is not transitive when entries with and without a version
    are mixed and carry no sort key: the file-name fallback is descending
    between two versioned entries and ascending otherwise. *)
Theorem bls_sort_compare_cycle :
  let a := demo_entry "a" (Some "1") None in
  let b := demo_entry "b" None None in
  let c := demo_entry "c" (Some "1") None in
  bls_sort_compare a b false = Lt /\ bls_sort_compare b c false = Lt /\
  bls_sort_compare c a false = Lt.
Proof. vm_compute. done. Qed.
