(* ===== verification/BootCount.v ===== *)
(** * Boot counting ([decrement_boot_count] of bls.rs)

    A counted entry is a file [<id>+<left>-<done>.conf]; each boot attempt
    renames it with one try less, and an entry whose tries are used up is
    failed.  This file models the computation of the new name and relates it
    to the parser of file names in BlsParse.v. *)
From S2P Require Import Prelude Compare RustStr VersionOrder BlsParse.
Local Open Scope Z_scope.

(** The new file name, or [None] when there is nothing to decrement.  The
    rename itself and the [LoaderBootCountPath] variable come after it. *)
Definition next_count_name (entry : BlsEntry) : option (list Z) :=
  match b_tries_left entry with
  | None => None
  | Some tries_left =>
      if tries_left =? 0 then None
      else
        let tries_done := default 0 (b_tries_done entry) in
        let new_left := tries_left - 1 in
        let new_done := saturating_add u32_max tries_done 1 in
        let left_width := count_digits_in_filename (b_filename entry) c_plus in
        let done_width := count_digits_in_filename (b_filename entry) c_dash in
        let new_suffix :=
          if (0 <? done_width)%nat
          then [c_plus] ++ pad_zero (Nat.max left_width 1) (fmt_dec new_left)
               ++ [c_dash] ++ pad_zero (Nat.max done_width 1) (fmt_dec new_done)
          else [c_plus] ++ pad_zero (Nat.max left_width 1) (fmt_dec new_left) in
        Some (b_id entry ++ new_suffix ++ lit ".conf")
  end.

(** The counters the parser reads from a file name. *)
Definition entry_of_name (filename : list Z) : BlsEntry := parse_name filename (bls_blank filename).

(** A counted file name, its numbers zero-padded to given widths. *)
Definition counted_name (id : list Z) (wl wd : nat) (l d : Z) : list Z :=
  (id ++ [c_plus] ++ pad_zero wl (fmt_dec l) ++ [c_dash] ++ pad_zero wd (fmt_dec d)) ++ lit ".conf".

Section counted.
Context (id : list Z) (wl wd : nat) (l d : Z).
Context (Hl : 0 <= l <= u32_max) (Hd : 0 <= d <= u32_max).

Let L := pad_zero wl (fmt_dec l).
Let D := pad_zero wd (fmt_dec d).

Lemma counted_digits :
  Forall (fun c => is_ascii_digit c = true) L /\ Forall (fun c => is_ascii_digit c = true) D /\
  L <> [] /\ D <> [].
Proof.
  split_and!; [apply pad_zero_digits, fmt_dec_digits..|
               apply pad_zero_nonempty, fmt_dec_nonempty|apply pad_zero_nonempty, fmt_dec_nonempty].
Qed.

Lemma counted_stem :
  trim_end_matches (lit ".conf") (counted_name id wl wd l d) = id ++ [c_plus] ++ L ++ [c_dash] ++ D.
Proof.
  unfold counted_name. rewrite trim_end_matches_app by done.
  apply trim_end_matches_id.
  destruct counted_digits as (_ & HD & _ & HDn).
  fold L D. destruct (exists_last HDn) as (D' & x & E). rewrite E in *.
  apply Forall_app in HD as [_ [Hx _]%Forall_cons].
  rewrite !app_assoc. change (lit ".conf") with (lit ".con" ++ [102]).
  apply ends_with_last. intros <-. done.
Qed.

Lemma counted_plus :
  rfind_char (Z.eqb c_plus) (id ++ [c_plus] ++ L ++ [c_dash] ++ D) = Some (length id).
Proof.
  destruct counted_digits as (HL & HD & _). apply rfind_char_app; [|done].
  apply Forall_app. split; [by apply digits_lack|].
  constructor; [done|]. by apply digits_lack.
Qed.

Lemma counted_minus :
  rfind_char (Z.eqb c_dash) (id ++ [c_plus] ++ L ++ [c_dash] ++ D)
  = Some (length (id ++ [c_plus] ++ L)).
Proof.
  destruct counted_digits as (_ & HD & _). rewrite !app_assoc, <- app_assoc.
  apply rfind_char_app; [by apply digits_lack|done].
Qed.

Lemma counted_after_plus :
  drop (S (length id)) (id ++ [c_plus] ++ L ++ [c_dash] ++ D) = L ++ [c_dash] ++ D.
Proof. apply drop_app_cons. Qed.

(** The parser reads back the name's id and counters. *)
Lemma counted_parse :
  let e := entry_of_name (counted_name id wl wd l d) in
  b_id e = id /\ b_tries_left e = Some l /\ b_tries_done e = Some d.
Proof.
  unfold entry_of_name, parse_name. rewrite counted_stem, counted_plus, counted_after_plus.
  destruct counted_digits as (HL & _).
  change (L ++ [c_dash] ++ D) with (L ++ c_dash :: D).
  rewrite (find_char_app (Z.eqb c_dash) L c_dash D); [|by apply digits_lack|done].
  rewrite take_app_length, drop_app_cons, take_app_length.
  simpl. unfold L, D. by rewrite !parse_uint_pad.
Qed.

Lemma counted_widths :
  count_digits_in_filename (counted_name id wl wd l d) c_plus = length L /\
  count_digits_in_filename (counted_name id wl wd l d) c_dash = length D.
Proof.
  unfold count_digits_in_filename. rewrite counted_stem, counted_plus, counted_minus.
  destruct counted_digits as (HL & HD & _). split.
  - rewrite counted_after_plus. rewrite take_while_app by done. simpl.
    by rewrite app_nil_r.
  - assert (id ++ [c_plus] ++ L ++ [c_dash] ++ D = (id ++ [c_plus] ++ L) ++ c_dash :: D) as ->
      by by rewrite <- !app_assoc.
    rewrite drop_app_cons. rewrite <- (app_nil_r D) at 1. rewrite take_while_app by done.
    simpl. by rewrite app_nil_r.
Qed.

(** One decrement: one try less, one attempt more, the widths kept. *)
Lemma counted_next :
  next_count_name (entry_of_name (counted_name id wl wd l d)) =
  if l =? 0 then None
  else Some (counted_name id (length L) (length D) (l - 1) (saturating_add u32_max d 1)).
Proof.
  destruct counted_parse as (E1 & E2 & E3). destruct counted_widths as [W1 W2].
  destruct counted_digits as (_ & _ & NL & ND).
  assert (length L <> 0%nat /\ length D <> 0%nat) as [NL' ND'] by (by destruct L, D).
  unfold next_count_name. rewrite E1, E2, E3. destruct (l =? 0); [done|].
  assert (b_filename (entry_of_name (counted_name id wl wd l d)) = counted_name id wl wd l d) as ->
    by apply parse_name_blank.
  rewrite W1, W2. assert ((0 <? length D)%nat = true) as -> by (apply Nat.ltb_lt; lia).
  rewrite !Nat.max_l by lia. simpl. unfold counted_name. by rewrite <- !app_assoc.
Qed.
End counted.

(** One decrement of a counted file name: the renamed file is read back with the
    same id, one try less and one attempt more (saturating), at the widths of
    the old name.  A name with no try left is not renamed. *)
Theorem decrement_roundtrip (id : list Z) (wl wd : nat) (l d : Z) :
  0 <= l <= u32_max -> 0 <= d <= u32_max ->
  match next_count_name (entry_of_name (counted_name id wl wd l d)) with
  | None => l = 0
  | Some f =>
      let e := entry_of_name f in
      b_id e = id /\ b_tries_left e = Some (l - 1) /\
      b_tries_done e = Some (Z.min u32_max (d + 1))
  end.
Proof.
  intros Hl Hd. rewrite counted_next by done. destruct (Z.eqb_spec l 0); [done|].
  apply counted_parse; unfold saturating_add; lia.
Qed.

Lemma decrement_roundtrip_witness :
  next_count_name (entry_of_name (lit "fedora-6.1+03-0.conf")) = Some (lit "fedora-6.1+02-1.conf") /\
  b_tries_left (entry_of_name (lit "fedora-6.1+02-1.conf")) = Some 2.
Proof.
  pose proof (decrement_roundtrip (lit "fedora-6.1") 2 1 3 0 ltac:(unfold u32_max; lia)
                ltac:(unfold u32_max; lia)) as H.
  split; [vm_compute; reflexivity|]. apply H.
Defined.

(** The names an entry goes through over [n] boot attempts. *)
Fixpoint after_boots (n : nat) (filename : list Z) : option (list Z) :=
  match n with
  | O => Some filename
  | S n' => match next_count_name (entry_of_name filename) with
            | Some f => after_boots n' f
            | None => None
            end
  end.

Lemma after_boots_counted (n : nat) (id : list Z) (wl wd : nat) (l d : Z) :
  0 <= l <= u32_max -> 0 <= d <= u32_max -> Z.of_nat n <= l ->
  exists wl' wd' d', 0 <= d' <= u32_max /\
    after_boots n (counted_name id wl wd l d) = Some (counted_name id wl' wd' (l - Z.of_nat n) d').
Proof.
  revert wl wd l d. induction n as [|n IH]; intros wl wd l d Hl Hd Hn.
  - exists wl, wd, d. simpl. by rewrite Z.sub_0_r.
  - simpl. rewrite counted_next by done. destruct (Z.eqb_spec l 0); [lia|].
    destruct (IH (length (pad_zero wl (fmt_dec l))) (length (pad_zero wd (fmt_dec d)))
                (l - 1) (saturating_add u32_max d 1)) as (wl' & wd' & d' & Hd' & E);
      [lia|unfold saturating_add, u32_max in *; lia|lia|].
    exists wl', wd', d'. split; [done|]. rewrite E. do 2 f_equal. lia.
Qed.

(** The assessment of a counted entry ends: with [l] tries, after [l] boot
    attempts the entry is failed ([Bad]), it is not failed before, and no
    further rename happens. *)
Theorem boot_counter_exhausts (id : list Z) (wl wd : nat) (l d : Z) :
  0 <= l <= u32_max -> 0 <= d <= u32_max ->
  (exists f, after_boots (Z.to_nat l) (counted_name id wl wd l d) = Some f /\
     boot_count_state (entry_of_name f) = Bad /\ next_count_name (entry_of_name f) = None) /\
  (forall n f, Z.of_nat n < l -> after_boots n (counted_name id wl wd l d) = Some f ->
     boot_count_state (entry_of_name f) = Indeterminate).
Proof.
  intros Hl Hd. split.
  - destruct (after_boots_counted (Z.to_nat l) id wl wd l d) as (wl' & wd' & d' & Hd' & E); [lia..|].
    rewrite E. eexists; split; [done|].
    replace (l - Z.of_nat (Z.to_nat l)) with 0 by lia.
    rewrite counted_next by lia. split; [|done].
    unfold boot_count_state. destruct (counted_parse id wl' wd' 0 d') as (_ & -> & _); [lia|lia|done].
  - intros n f Hn Hf.
    destruct (after_boots_counted n id wl wd l d) as (wl' & wd' & d' & Hd' & E); [lia..|].
    rewrite E in Hf. simplify_eq. unfold boot_count_state.
    destruct (counted_parse id wl' wd' (l - Z.of_nat n) d') as (_ & -> & _); [lia|lia|].
    destruct (Z.eqb_spec (l - Z.of_nat n) 0); [lia|done].
Qed.

Lemma boot_counter_exhausts_witness :
  exists f, after_boots 3 (lit "arch+3-0.conf") = Some f /\
    boot_count_state (entry_of_name f) = Bad /\ f = lit "arch+0-3.conf".
Proof.
  destruct (boot_counter_exhausts (lit "arch") 1 1 3 0 ltac:(unfold u32_max; lia)
              ltac:(unfold u32_max; lia)) as [(f & H1 & H2 & _) _].
  exists f. split; [exact H1|]. split; [exact H2|].
  revert H1. vm_compute. congruence.
Defined.

(** A name with tries and no attempt counter keeps no attempt counter unless
    its id has a dash followed by a digit, whose run of digits then sets the
    width of the new counter. *)
Theorem decrement_loses_done :
  next_count_name (entry_of_name (lit "arch+3.conf")) = Some (lit "arch+2.conf") /\
  next_count_name (entry_of_name (lit "linux-20240101+3.conf"))
    = Some (lit "linux-20240101+2-00000001.conf").
Proof. vm_compute. done. Qed.
