(* ===== verification/PeLoader.v ===== *)
(** * PE/COFF parsing, validation and relocation (pe_loader_pure.rs)

    The hand-written header parser, the conformance checks, and the
    application of base relocations to the loaded image.  Reads that Rust
    bounds-checks ([get]) give errors; indexing and slicing give [Panic]
    when out of range, and no input reaches one.

    Offsets into the headers are sums of values below [2^32] and small
    constants and cannot overflow a 64-bit [usize]; the cursor arithmetic of
    the relocation loop is written with the wrap-around of a release build. *)
From S2P Require Import Prelude RustStr BlsParse.
Local Open Scope Z_scope.

Definition MAX_IMAGE_SIZE : Z := 256 * 1024 * 1024.
Definition MAX_SECTIONS : Z := 256.
Definition PE32_PLUS_MAGIC : Z := 523.    (* 0x20B *)
Definition PE32_MAGIC : Z := 267.         (* 0x10B *)
Definition MACHINE_X86_64 : Z := 34404.   (* 0x8664 *)
Definition MACHINE_AARCH64 : Z := 43620.  (* 0xAA64 *)
Definition SUBSYSTEM_EFI_APPLICATION : Z := 10.
Definition SUBSYSTEM_EFI_BOOT_SERVICE_DRIVER : Z := 11.
Definition SUBSYSTEM_EFI_RUNTIME_DRIVER : Z := 12.
Definition REL_ABSOLUTE : Z := 0.
Definition REL_HIGH : Z := 1.
Definition REL_LOW : Z := 2.
Definition REL_HIGHLOW : Z := 3.
Definition REL_DIR64 : Z := 10.
Definition IMAGE_SCN_MEM_EXECUTE_BIT : Z := 29.  (* 0x2000_0000 *)

Inductive PeLoadError : Type :=
  | TooShort (have need : Z)
  | BadDosSignature
  | NtOffsetOutOfBounds (off : Z)
  | BadNtSignature
  | UnsupportedMachine (m : Z)
  | UnsupportedPe32
  | BadOptionalHeaderMagic (m : Z)
  | UnsupportedSubsystem (s : Z)
  | ImageTooLarge (claimed max : Z)
  | TooManySections (claimed max : Z)
  | HasImports
  | HasTlsCallbacks
  | SectionOutOfBounds (section_index : Z) (detail : string)
  | RelocationMalformed (detail : string)
  | UnsupportedRelocationType (t : Z)
  | EntryPointOutOfBounds
  | ParseFailed (detail : string).

Definition as_log_token (e : PeLoadError) : string :=
  match e with
  | TooShort _ _ => "pe_too_short"
  | BadDosSignature => "pe_bad_dos_sig"
  | NtOffsetOutOfBounds _ => "pe_nt_offset_oob"
  | BadNtSignature => "pe_bad_nt_sig"
  | UnsupportedMachine _ => "pe_unsupported_machine"
  | UnsupportedPe32 => "pe_unsupported_pe32"
  | BadOptionalHeaderMagic _ => "pe_bad_opt_magic"
  | UnsupportedSubsystem _ => "pe_unsupported_subsystem"
  | ImageTooLarge _ _ => "pe_image_too_large"
  | TooManySections _ _ => "pe_too_many_sections"
  | HasImports => "pe_has_imports"
  | HasTlsCallbacks => "pe_has_tls"
  | SectionOutOfBounds _ _ => "pe_section_oob"
  | RelocationMalformed _ => "pe_reloc_malformed"
  | UnsupportedRelocationType _ => "pe_reloc_unsupported"
  | EntryPointOutOfBounds => "pe_entry_oob"
  | ParseFailed _ => "pe_parse_failed"
  end.

Record SectionPlan : Type := mkSection {
  sp_index : Z;
  sp_virt_addr : Z;
  sp_virt_size : Z;
  sp_raw_offset : Z;
  sp_copy_len : Z;
  sp_executable : bool
}.

Record DataDir : Type := mkDataDir { dd_virtual_address : Z; dd_size : Z }.

Record PeSummary : Type := mkSummary {
  pe_machine : Z;
  pe_subsystem : Z;
  pe_preferred_base : Z;
  pe_size_of_image : Z;
  pe_entry_rva : Z;
  pe_num_sections : Z;
  pe_opt_magic : Z;
  pe_sections : list SectionPlan;
  pe_reloc_dir : option DataDir;
  pe_import_dir_size : Z;
  pe_tls_dir_size : Z;
  pe_entry_in_executable_section : bool
}.

(** ** Fixed-width readers *)
Definition rd_u16 (b : list Z) (off : Z) : res PeLoadError Z :=
  let? s := ok_or (get_range off (off + 2) b) (ParseFailed "u16 read past end of image") in
  Ok (from_le s).

Definition rd_u32 (b : list Z) (off : Z) : res PeLoadError Z :=
  let? s := ok_or (get_range off (off + 4) b) (ParseFailed "u32 read past end of image") in
  Ok (from_le s).

Definition rd_u64 (b : list Z) (off : Z) : res PeLoadError Z :=
  let? s := ok_or (get_range off (off + 8) b) (ParseFailed "u64 read past end of image") in
  Ok (from_le s).

(** [u32::from_le_bytes(b[off..off + 4].try_into().unwrap())] *)
Definition idx_u32 (b : list Z) (off : Z) : res PeLoadError Z :=
  let? s := slice off (off + 4) b in Ok (from_le s).

Definition idx_u16 (b : list Z) (off : Z) : res PeLoadError Z :=
  let? s := slice off (off + 2) b in Ok (from_le s).

Definition read_data_dir (bytes : list Z) (start n_rva idx : Z) : option DataDir :=
  if n_rva <=? idx then None
  else
    let off := start + idx * 8 in
    match res_ok (rd_u32 bytes off), res_ok (rd_u32 bytes (off + 4)) with
    | Some virtual_address, Some size =>
        if (virtual_address =? 0) && (size =? 0) then None
        else Some (mkDataDir virtual_address size)
    | _, _ => None
    end.

(** ** The section table *)
Fixpoint parse_sections (n : nat) (i start entry_rva : Z) (bytes : list Z)
    (sections : list SectionPlan) (entry_in_exec : bool)
    : res PeLoadError (list SectionPlan * bool) :=
  match n with
  | O => Ok (sections, entry_in_exec)
  | S n' =>
      let base := start + i * 40 in
      let? virt_size := idx_u32 bytes (base + 8) in
      let? virt_addr := idx_u32 bytes (base + 12) in
      let? raw_size := idx_u32 bytes (base + 16) in
      let? raw_offset := idx_u32 bytes (base + 20) in
      let? characteristics := idx_u32 bytes (base + 36) in
      let copy_len := Z.min raw_size virt_size in
      let executable := Z.testbit characteristics IMAGE_SCN_MEM_EXECUTE_BIT in
      let sections := sections ++ [mkSection i virt_addr virt_size raw_offset copy_len executable] in
      let entry_in_exec :=
        if executable && (virt_addr <=? entry_rva) && (entry_rva <? virt_addr + virt_size)
        then true else entry_in_exec in
      parse_sections n' (i + 1) start entry_rva bytes sections entry_in_exec
  end.

Definition sig_mz : list Z := [77; 90].
Definition sig_pe : list Z := [80; 69; 0; 0].

(** [parse_headers], that is [parse_headers_with_diag] with no callback. *)
Definition parse_headers (bytes : list Z) : res PeLoadError PeSummary :=
  guard? 64 <=? len bytes else TooShort (len bytes) 64 in
  let? dos := slice 0 2 bytes in
  guard? bool_decide (dos = sig_mz) else BadDosSignature in
  let? e_lfanew := idx_u32 bytes 60 in
  guard? saturating_add usize_max e_lfanew 4 <=? len bytes else NtOffsetOutOfBounds e_lfanew in
  let nt_off := e_lfanew in
  let? sig := slice nt_off (nt_off + 4) bytes in
  guard? bool_decide (sig = sig_pe) else BadNtSignature in
  let coff_off := nt_off + 4 in
  let? machine := rd_u16 bytes coff_off in
  let? num_sections := rd_u16 bytes (coff_off + 2) in
  let? size_of_optional_header := rd_u16 bytes (coff_off + 16) in
  let opt_off := coff_off + 20 in
  let? opt_magic := rd_u16 bytes opt_off in
  if negb (opt_magic =? PE32_PLUS_MAGIC) then
    Ok (mkSummary machine 0 0 0 0 num_sections opt_magic [] None 0 0 false)
  else
    let? entry_rva := rd_u32 bytes (opt_off + 16) in
    let? preferred_base := rd_u64 bytes (opt_off + 24) in
    let? size_of_image := rd_u32 bytes (opt_off + 56) in
    let? subsystem := rd_u16 bytes (opt_off + 68) in
    let? number_of_rva_and_sizes := rd_u32 bytes (opt_off + 108) in
    let data_dir_start := opt_off + 112 in
    let import_dir_size :=
      match read_data_dir bytes data_dir_start number_of_rva_and_sizes 1 with
      | Some d => dd_size d | None => 0 end in
    let reloc_dir := read_data_dir bytes data_dir_start number_of_rva_and_sizes 5 in
    let tls_dir_size :=
      match read_data_dir bytes data_dir_start number_of_rva_and_sizes 9 with
      | Some d => dd_size d | None => 0 end in
    guard? num_sections <=? MAX_SECTIONS else TooManySections num_sections MAX_SECTIONS in
    let sections_offset_start := opt_off + size_of_optional_header in
    let needed := Z.min usize_max (num_sections * 40) in
    guard? saturating_add usize_max sections_offset_start needed <=? len bytes
      else ParseFailed "section table extends past file end" in
    let? table := parse_sections (Z.to_nat num_sections) 0 sections_offset_start entry_rva bytes [] false in
    Ok (mkSummary machine subsystem preferred_base size_of_image entry_rva num_sections
                  opt_magic (fst table) reloc_dir import_dir_size tls_dir_size (snd table)).

(** ** Validation *)
Definition expected_machine (target : target_arch) : Z :=
  match target with X86_64 => MACHINE_X86_64 | Aarch64 => MACHINE_AARCH64 end.

Definition section_ok (size_of_image : Z) (bytes : list Z) (plan : SectionPlan) : res PeLoadError unit :=
  let virt_end := saturating_add u64_max (sp_virt_addr plan) (sp_virt_size plan) in
  guard? virt_end <=? size_of_image
    else SectionOutOfBounds (sp_index plan) "virtual range exceeds SizeOfImage" in
  if 0 <? sp_copy_len plan then
    let raw_end := saturating_add usize_max (sp_raw_offset plan) (sp_copy_len plan) in
    guard? raw_end <=? len bytes
      else SectionOutOfBounds (sp_index plan) "raw range exceeds input" in
    Ok tt
  else Ok tt.

Fixpoint sections_ok (size_of_image : Z) (bytes : list Z) (plans : list SectionPlan)
    : res PeLoadError unit :=
  match plans with
  | [] => Ok tt
  | p :: ps => let? _u := section_ok size_of_image bytes p in sections_ok size_of_image bytes ps
  end.

Definition subsystem_ok (s : Z) : bool :=
  (s =? SUBSYSTEM_EFI_APPLICATION) || (s =? SUBSYSTEM_EFI_BOOT_SERVICE_DRIVER)
  || (s =? SUBSYSTEM_EFI_RUNTIME_DRIVER).

Definition validate_headers (target : target_arch) (s : PeSummary) (bytes : list Z)
    : res PeLoadError unit :=
  guard? pe_machine s =? expected_machine target else UnsupportedMachine (pe_machine s) in
  guard? negb (pe_opt_magic s =? PE32_MAGIC) else UnsupportedPe32 in
  guard? pe_opt_magic s =? PE32_PLUS_MAGIC else BadOptionalHeaderMagic (pe_opt_magic s) in
  guard? subsystem_ok (pe_subsystem s) else UnsupportedSubsystem (pe_subsystem s) in
  guard? pe_size_of_image s <=? MAX_IMAGE_SIZE
    else ImageTooLarge (pe_size_of_image s) MAX_IMAGE_SIZE in
  guard? pe_import_dir_size s =? 0 else HasImports in
  guard? pe_tls_dir_size s =? 0 else HasTlsCallbacks in
  let? _u := sections_ok (pe_size_of_image s) bytes (pe_sections s) in
  guard? pe_entry_rva s <? pe_size_of_image s else EntryPointOutOfBounds in
  guard? pe_entry_in_executable_section s else EntryPointOutOfBounds in
  Ok tt.

(** ** Relocations *)
Definition usize_add (a b : Z) : Z := wrap 64 (a + b).

(** [image[rva..rva + n]] read as an integer, [delta] added modulo the width,
    and written back. *)
Definition fixup (n : nat) (rva delta : Z) (image : list Z) : res PeLoadError (list Z) :=
  let? slot := slice rva (usize_add rva (Z.of_nat n)) image in
  let v := from_le slot in
  Ok (splice rva (to_le n (wrapping_add (8 * Z.of_nat n) v (wrap (8 * Z.of_nat n) delta))) image).

(** One entry of a block: its type in the top four bits, its offset below. *)
Definition apply_entry (delta virt_addr entry : Z) (image : list Z) : res PeLoadError (list Z) :=
  let reloc_type := Z.shiftr entry 12 in
  let within_page := Z.land entry 4095 in
  let target_rva := saturating_add usize_max virt_addr within_page in
  if reloc_type =? REL_ABSOLUTE then Ok image
  else if reloc_type =? REL_DIR64 then
    guard? usize_add target_rva 8 <=? len image
      else RelocationMalformed "DIR64 fixup target out of bounds" in
    fixup 8 target_rva delta image
  else if reloc_type =? REL_HIGHLOW then
    guard? usize_add target_rva 4 <=? len image
      else RelocationMalformed "HIGHLOW fixup target out of bounds" in
    fixup 4 target_rva delta image
  else Err (UnsupportedRelocationType reloc_type).

Fixpoint apply_entries (n : nat) (off delta virt_addr : Z) (reloc_bytes image : list Z)
    : res PeLoadError (list Z) :=
  match n with
  | O => Ok image
  | S n' =>
      let? entry := idx_u16 reloc_bytes off in
      let? image := apply_entry delta virt_addr entry image in
      apply_entries n' (off + 2) delta virt_addr reloc_bytes image
  end.

(** The [while cursor < reloc_bytes.len()] loop.  Every round that goes on
    moves the cursor by at least eight, so the length is enough fuel. *)
Fixpoint reloc_loop (fuel : nat) (cursor delta : Z) (reloc_bytes image : list Z)
    : option (res PeLoadError (list Z)) :=
  match fuel with
  | O => None
  | S f =>
      if negb (cursor <? len reloc_bytes) then Some (Ok image)
      else if len reloc_bytes <? usize_add cursor 8
      then Some (Err (RelocationMalformed "block header truncated"))
      else match idx_u32 reloc_bytes cursor, idx_u32 reloc_bytes (usize_add cursor 4) with
           | Ok virt_addr, Ok size_of_block =>
               if size_of_block =? 0 then Some (Ok image)
               else if size_of_block <? 8 then Some (Err (RelocationMalformed "SizeOfBlock < 8"))
               else if len reloc_bytes <? usize_add cursor size_of_block
               then Some (Err (RelocationMalformed "block extends past directory"))
               else
                 let entries_bytes := size_of_block - 8 in
                 if negb (entries_bytes mod 2 =? 0)
                 then Some (Err (RelocationMalformed "odd entries_bytes"))
                 else match apply_entries (Z.to_nat (entries_bytes / 2)) (usize_add cursor 8)
                              delta virt_addr reloc_bytes image with
                      | Ok image' => reloc_loop f (usize_add cursor size_of_block) delta reloc_bytes image'
                      | Err e => Some (Err e)
                      | Panic => Some Panic
                      end
           | _, _ => Some Panic
           end
  end.

Definition apply_relocations_to_slice (image : list Z) (preferred_base actual_base : Z)
    (reloc_bytes : list Z) : res PeLoadError (list Z) :=
  let delta := wrapping_sub 64 actual_base preferred_base in
  if delta =? 0 then Ok image
  else default Panic (reloc_loop (S (length reloc_bytes)) 0 delta reloc_bytes image).

(** ** Digests *)
(** [hex_encode_32]: two lower-case digits per byte. *)
Definition hex_encode_32 (digest : list Z) : list Z :=
  flat_map (fun b => [RustStr.hex_lower_digit (Z.shiftr b 4); RustStr.hex_lower_digit (Z.land b 15)]) digest.

(** ** Readers are safe *)
Section readers.
Context (b : list Z) (Hb : Forall is_byte b).

Lemma from_le_sub_bound (lo hi : Z) :
  0 <= lo <= hi -> hi <= len b -> 0 <= from_le (sub_list lo hi b) < 256 ^ (hi - lo).
Proof.
  intros H1 H2. pose proof (from_le_bound (sub_list lo hi b) (Forall_sub_list _ lo hi b Hb)) as H.
  rewrite length_sub_list in H by done. rewrite Z2Nat.id in H by lia. done.
Qed.

Lemma ok_or_range_safe (lo n : Z) (e : PeLoadError) :
  0 <= n ->
  safe (fun v => 0 <= v < 256 ^ n /\ 0 <= lo /\ lo + n <= len b)
    (let? s := ok_or (get_range lo (lo + n) b) e in Ok (from_le s)).
Proof.
  intros Hn. destruct (get_range lo (lo + n) b) as [s|] eqn:E; [|done].
  apply get_range_some in E as [[H1 H2] ->]. simpl. split; [|lia].
  pose proof (from_le_sub_bound lo (lo + n)) as H.
  replace (lo + n - lo) with n in H by lia. apply H; lia.
Qed.

Lemma rd_u16_safe (off : Z) : safe (fun v => 0 <= v < 2 ^ 16) (rd_u16 b off).
Proof. eapply safe_mono; [apply (ok_or_range_safe off 2); lia|]. simpl. lia. Qed.

Lemma rd_u32_safe (off : Z) : safe (fun v => 0 <= v < 2 ^ 32) (rd_u32 b off).
Proof. eapply safe_mono; [apply (ok_or_range_safe off 4); lia|]. simpl. lia. Qed.

Lemma rd_u64_safe (off : Z) : safe (fun v => 0 <= v < 2 ^ 64) (rd_u64 b off).
Proof. eapply safe_mono; [apply (ok_or_range_safe off 8); lia|]. simpl. lia. Qed.

Lemma idx_u32_safe (off : Z) :
  0 <= off -> off + 4 <= len b -> safe (fun v => 0 <= v < 2 ^ 32) (idx_u32 b off).
Proof.
  intros H1 H2. unfold idx_u32. rewrite slice_ok by lia. simpl.
  pose proof (from_le_sub_bound off (off + 4)) as H.
  replace (off + 4 - off) with 4 in H by lia. simpl in H. lia.
Qed.

Lemma idx_u16_safe (off : Z) :
  0 <= off -> off + 2 <= len b -> safe (fun v => 0 <= v < 2 ^ 16) (idx_u16 b off).
Proof.
  intros H1 H2. unfold idx_u16. rewrite slice_ok by lia. simpl.
  pose proof (from_le_sub_bound off (off + 2)) as H.
  replace (off + 2 - off) with 2 in H by lia. simpl in H. lia.
Qed.

(** ** The section table *)
Definition section_wf (s : SectionPlan) : Prop :=
  0 <= sp_virt_addr s < 2 ^ 32 /\ 0 <= sp_virt_size s < 2 ^ 32 /\
  0 <= sp_raw_offset s < 2 ^ 32 /\ 0 <= sp_copy_len s <= sp_virt_size s.

(** The entry point lies in an executable section. *)
Definition entry_in (entry : Z) (s : SectionPlan) : Prop :=
  sp_executable s = true /\ sp_virt_addr s <= entry < sp_virt_addr s + sp_virt_size s.

Definition table_wf (entry : Z) (t : list SectionPlan * bool) : Prop :=
  Forall section_wf t.1 /\ (t.2 = true -> Exists (entry_in entry) t.1).

Lemma parse_sections_safe (n : nat) (i start entry : Z) (secs : list SectionPlan) (ex : bool) :
  0 <= start -> 0 <= i -> start + (i + Z.of_nat n) * 40 <= len b ->
  table_wf entry (secs, ex) ->
  safe (fun t => table_wf entry t /\ length t.1 = (length secs + n)%nat)
    (parse_sections n i start entry b secs ex).
Proof.
  revert i secs ex. induction n as [|n IH]; intros i secs ex Hs Hi Hlen [Hwf Hex]; simpl parse_sections.
  { simpl. split; [done|lia]. }
  eapply safe_bind; [apply idx_u32_safe; lia|]. intros vs Hvs.
  eapply safe_bind; [apply idx_u32_safe; lia|]. intros va Hva.
  eapply safe_bind; [apply idx_u32_safe; lia|]. intros rs Hrs.
  eapply safe_bind; [apply idx_u32_safe; lia|]. intros ro Hro.
  eapply safe_bind; [apply idx_u32_safe; lia|]. intros ch Hch.
  eapply safe_mono; [apply IH; [lia..|]|].
  - split; simpl.
    + apply Forall_app. split; [done|]. constructor; [|done]. unfold section_wf; cbv beta in *; simpl; lia.
    + intros E. apply Exists_app. destruct (_ && _ && _) eqn:Ec; [|left; auto].
      right. constructor. unfold entry_in. simpl.
      rewrite !andb_true_iff in Ec. destruct Ec as [[? ?] ?]. split; [done|lia].
  - intros t [Ht Hl]. split; [done|]. rewrite Hl, length_app. simpl. lia.
Qed.

(** ** Parsing *)
Definition summary_wf (s : PeSummary) : Prop :=
  table_wf (pe_entry_rva s) (pe_sections s, pe_entry_in_executable_section s) /\
  0 <= pe_size_of_image s < 2 ^ 32 /\ 0 <= pe_entry_rva s < 2 ^ 32 /\
  0 <= pe_preferred_base s < 2 ^ 64 /\
  (forall d, pe_reloc_dir s = Some d ->
     0 <= dd_virtual_address d < 2 ^ 32 /\ 0 <= dd_size d < 2 ^ 32) /\
  (pe_opt_magic s = PE32_PLUS_MAGIC ->
     len (pe_sections s) = pe_num_sections s /\ pe_num_sections s <= MAX_SECTIONS).

Ltac safe_step :=
  match goal with
  | |- safe _ (res_bind (rd_u16 _ _) _) => eapply safe_bind; [apply rd_u16_safe|intros ? ?; cbv beta in *]
  | |- safe _ (res_bind (rd_u32 _ _) _) => eapply safe_bind; [apply rd_u32_safe|intros ? ?; cbv beta in *]
  | |- safe _ (res_bind (rd_u64 _ _) _) => eapply safe_bind; [apply rd_u64_safe|intros ? ?; cbv beta in *]
  | |- safe _ (if _ then _ else Err _) => apply safe_guard; intros ?
  end.

Lemma read_data_dir_bound (start n_rva idx : Z) (d : DataDir) :
  read_data_dir b start n_rva idx = Some d ->
  0 <= dd_virtual_address d < 2 ^ 32 /\ 0 <= dd_size d < 2 ^ 32.
Proof.
  unfold read_data_dir. destruct (n_rva <=? idx); [done|].
  pose proof (rd_u32_safe (start + idx * 8)) as H1. pose proof (rd_u32_safe (start + idx * 8 + 4)) as H2.
  destruct (rd_u32 b (start + idx * 8)), (rd_u32 b (start + idx * 8 + 4)); simpl in *; try done.
  destruct (_ && _); [done|]. by intros [= <-].
Qed.

Lemma parse_headers_safe : safe summary_wf (parse_headers b).
Proof.
  unfold parse_headers. safe_step. rewrite slice_ok by lia. cbn [res_bind]. safe_step.
  eapply safe_bind; [apply idx_u32_safe; lia|]. intros nt Hnt. cbv beta zeta in *.
  safe_step. unfold saturating_add, usize_max, u64_max in *.
  rewrite slice_ok by lia. cbn [res_bind]. do 5 safe_step.
  apply safe_if; intros Hm.
  { simpl. unfold summary_wf, table_wf. simpl. split_and!; try lia; try done. }
  do 7 safe_step. eapply safe_bind.
  { apply (parse_sections_safe _ 0 _ _ [] false); [lia|lia| |by repeat constructor].
    rewrite Z2Nat.id by lia. lia. }
  intros t [Ht Hl]. simpl. unfold summary_wf. simpl.
  destruct t as [secs ex]. simpl in *. split_and!; try done; try lia.
  - intros d. apply read_data_dir_bound.
  - intros _. split; [unfold len; lia|lia].
Qed.
End readers.

(** ** Validation, read as a predicate *)
Definition loadable (target : target_arch) (s : PeSummary) (bytes : list Z) : Prop :=
  pe_machine s = expected_machine target /\
  pe_opt_magic s = PE32_PLUS_MAGIC /\
  subsystem_ok (pe_subsystem s) = true /\
  pe_size_of_image s <= MAX_IMAGE_SIZE /\
  pe_import_dir_size s = 0 /\ pe_tls_dir_size s = 0 /\
  Forall (fun p => sp_virt_addr p + sp_virt_size p <= pe_size_of_image s /\
                   (0 < sp_copy_len p -> sp_raw_offset p + sp_copy_len p <= len bytes))
         (pe_sections s) /\
  pe_entry_rva s < pe_size_of_image s /\ pe_entry_in_executable_section s = true.

Lemma guard_ok {E A : Type} (b : bool) (e : E) (k : res E A) (a : A) :
  (if b then k else Err e) = Ok a <-> b = true /\ k = Ok a.
Proof. destruct b; naive_solver. Qed.

Lemma bind_unit_ok {E A : Type} (c : res E unit) (k : res E A) (a : A) :
  (let? _u := c in k) = Ok a <-> c = Ok tt /\ k = Ok a.
Proof. destruct c as [[]| |]; naive_solver. Qed.

Lemma section_ok_iff (size : Z) (bytes : list Z) (p : SectionPlan) :
  section_wf p -> size < 2 ^ 32 -> len bytes <= isize_max ->
  section_ok size bytes p = Ok tt <->
  sp_virt_addr p + sp_virt_size p <= size /\
  (0 < sp_copy_len p -> sp_raw_offset p + sp_copy_len p <= len bytes).
Proof.
  intros (H1 & H2 & H3 & H4) Hs Hl. unfold section_ok, saturating_add, usize_max, u64_max, isize_max in *.
  rewrite guard_ok, Z.leb_le. destruct (Z.ltb_spec 0 (sp_copy_len p)).
  - rewrite guard_ok, Z.leb_le. split; [intros (? & ? & _); lia|].
    intros [? Hr]. specialize (Hr ltac:(done)). split_and!; [lia..|done].
  - split; [intros [? _]; lia|]. intros [? _]. split; [lia|done].
Qed.

Lemma sections_ok_iff (size : Z) (bytes : list Z) (ps : list SectionPlan) :
  Forall section_wf ps -> size < 2 ^ 32 -> len bytes <= isize_max ->
  sections_ok size bytes ps = Ok tt <->
  Forall (fun p => sp_virt_addr p + sp_virt_size p <= size /\
                   (0 < sp_copy_len p -> sp_raw_offset p + sp_copy_len p <= len bytes)) ps.
Proof.
  intros Hwf Hs Hl. induction Hwf as [|p ps Hp _ IH]; simpl; [by split|].
  rewrite bind_unit_ok, section_ok_iff, IH, Forall_cons by done. done.
Qed.

Lemma validate_headers_iff (target : target_arch) (s : PeSummary) (bytes : list Z) :
  summary_wf s -> len bytes <= isize_max ->
  validate_headers target s bytes = Ok tt <-> loadable target s bytes.
Proof.
  intros ((Hwf & _) & Hsz & _) Hl. unfold validate_headers, loadable.
  rewrite !guard_ok, !bind_unit_ok, !guard_ok, sections_ok_iff by (done || lia).
  rewrite negb_true_iff, !Z.eqb_eq, Z.eqb_neq, Z.leb_le, Z.ltb_lt.
  assert (PE32_PLUS_MAGIC <> PE32_MAGIC) by done. split; [tauto|].
  intros (? & E & ? & ? & ? & ? & ? & ? & ?). rewrite E. tauto.
Qed.

Lemma sections_ok_safe (size : Z) (bytes : list Z) (ps : list SectionPlan) :
  safe (fun _ => True) (sections_ok size bytes ps).
Proof.
  induction ps as [|p ps IH]; simpl; [done|]. apply (safe_bind (fun _ => True)); [|by intros].
  unfold section_ok. apply safe_guard. intros _. apply safe_if; intros _; [|done].
  by apply safe_guard.
Qed.

Lemma validate_headers_no_panic (target : target_arch) (s : PeSummary) (bytes : list Z) :
  validate_headers target s bytes <> Panic.
Proof.
  apply (safe_no_panic (fun _ => True)). unfold validate_headers.
  repeat (apply safe_guard; intros _). eapply safe_bind; [apply sections_ok_safe|intros [] _].
  by repeat (apply safe_guard; intros _).
Qed.

(** C13. Parsing and validating arbitrary bytes never panics, and an image passes both
    exactly when the parsed header meets every loading condition: machine and
    magic of the build target, an EFI subsystem, at most 256 MiB, no imports
    or TLS, all sections inside image and file, and an entry point inside the
    image in a section marked executable. *)
Theorem parse_validate_correct (target : target_arch) (bytes : list Z) :
  Forall is_byte bytes -> len bytes <= isize_max ->
  match parse_headers bytes with
  | Panic => False
  | Err _ => True
  | Ok s =>
      validate_headers target s bytes <> Panic /\
      (validate_headers target s bytes = Ok tt <-> loadable target s bytes) /\
      (validate_headers target s bytes = Ok tt ->
         Exists (entry_in (pe_entry_rva s)) (pe_sections s) /\
         Forall (fun p => sp_virt_addr p + sp_copy_len p <= MAX_IMAGE_SIZE) (pe_sections s))
  end.
Proof.
  intros Hb Hl. pose proof (parse_headers_safe bytes Hb) as Hs.
  destruct (parse_headers bytes) as [s| |]; simpl in Hs; try done.
  pose proof (validate_headers_iff target s bytes Hs Hl) as Hiff.
  split; [apply validate_headers_no_panic|]. split; [done|].
  rewrite Hiff. intros (_ & _ & _ & Hmax & _ & _ & Hsec & _ & Hex).
  destruct Hs as ((Hwf & Hent) & _). simpl in *. split; [by apply Hent|].
  rewrite Forall_forall in *. intros p Hp. specialize (Hsec p Hp). specialize (Hwf p Hp).
  unfold section_wf in Hwf. lia.
Qed.

(** ** Relocation: a reference reading of the table *)

(** The fixups an entry list names: width in bytes and target. *)
Fixpoint entry_targets (n : nat) (off virt_addr : Z) (rb : list Z) : list (nat * Z) :=
  match n with
  | O => []
  | S n' =>
      let entry := from_le (sub_list off (off + 2) rb) in
      let rva := virt_addr + Z.land entry 4095 in
      (if Z.shiftr entry 12 =? REL_DIR64 then [(8%nat, rva)]
       else if Z.shiftr entry 12 =? REL_HIGHLOW then [(4%nat, rva)] else [])
      ++ entry_targets n' (off + 2) virt_addr rb
  end.

Fixpoint table_targets (fuel : nat) (cursor : Z) (rb : list Z) : list (nat * Z) :=
  match fuel with
  | O => []
  | S f =>
      if negb (cursor <? len rb) then []
      else
        let virt_addr := from_le (sub_list cursor (cursor + 4) rb) in
        let size := from_le (sub_list (cursor + 4) (cursor + 8) rb) in
        if size =? 0 then []
        else entry_targets (Z.to_nat ((size - 8) / 2)) (cursor + 8) virt_addr rb
             ++ table_targets f (cursor + size) rb
  end.

Definition reloc_targets (rb : list Z) : list (nat * Z) := table_targets (S (length rb)) 0 rb.

(** A slot of [n] bytes at [rva] moved by [delta]. *)
Definition read_slot (t : nat * Z) (image : list Z) : Z :=
  from_le (sub_list t.2 (t.2 + Z.of_nat t.1) image).

Definition move_slot (delta : Z) (image : list Z) (t : nat * Z) : list Z :=
  splice t.2 (to_le t.1 ((read_slot t image + delta) mod 256 ^ Z.of_nat t.1)) image.

Definition slot_in (image_len : Z) (t : nat * Z) : Prop :=
  (t.1 = 8%nat \/ t.1 = 4%nat) /\ 0 <= t.2 /\ t.2 + Z.of_nat t.1 <= image_len.

Definition slots_apart (t u : nat * Z) : Prop :=
  t.2 + Z.of_nat t.1 <= u.2 \/ u.2 + Z.of_nat u.1 <= t.2.

Lemma usize_add_id (a b : Z) : 0 <= a -> 0 <= b -> a + b < 2 ^ 64 -> usize_add a b = a + b.
Proof. intros. unfold usize_add, wrap. apply Z.mod_small. lia. Qed.

Lemma move_slot_length (delta : Z) (image : list Z) (t : nat * Z) :
  slot_in (len image) t -> length (move_slot delta image t) = length image.
Proof.
  intros (_ & H1 & H2). unfold move_slot. apply length_splice; [done|].
  by rewrite len_to_le.
Qed.

Lemma move_slot_bytes (delta : Z) (image : list Z) (t : nat * Z) :
  Forall is_byte image -> Forall is_byte (move_slot delta image t).
Proof. intros. apply Forall_splice; [apply to_le_bytes|done]. Qed.

Lemma fixup_move (n : nat) (rva delta : Z) (image : list Z) :
  (n = 8%nat \/ n = 4%nat) -> 0 <= rva < 2 ^ 33 -> usize_add rva (Z.of_nat n) <= len image ->
  fixup n rva delta image = Ok (move_slot delta image (n, rva)) /\ slot_in (len image) (n, rva).
Proof.
  intros Hn Hr Hl. rewrite usize_add_id in Hl by lia.
  unfold fixup, move_slot, slot_in, read_slot. rewrite usize_add_id by lia.
  rewrite slice_ok by lia. cbn [res_bind fst snd]. split; [|lia].
  unfold wrapping_add, wrap. rewrite Z.add_mod_idemp_r by lia.
  replace (2 ^ (8 * Z.of_nat n)) with (256 ^ Z.of_nat n); [done|].
  by rewrite Z.pow_mul_r by lia.
Qed.

Definition reloc_post (delta : Z) (image : list Z) (ts : list (nat * Z)) (image' : list Z) : Prop :=
  image' = foldl (move_slot delta) image ts /\ Forall (slot_in (len image)) ts.

Lemma foldl_move_length (delta : Z) (image : list Z) (ts : list (nat * Z)) :
  Forall (slot_in (len image)) ts -> length (foldl (move_slot delta) image ts) = length image.
Proof.
  intros H. revert image H. induction ts as [|t ts IH]; intros image H; simpl; [done|].
  apply Forall_cons in H as [Ht Hts]. pose proof (move_slot_length delta image t Ht) as Hl.
  rewrite IH; [done|]. unfold len in *. by rewrite Hl.
Qed.

Lemma reloc_post_app (delta : Z) (image image' image'' : list Z) (ts us : list (nat * Z)) :
  reloc_post delta image ts image' -> reloc_post delta image' us image'' ->
  reloc_post delta image (ts ++ us) image''.
Proof.
  intros [-> H1] [-> H2]. split; [by rewrite foldl_app|].
  apply Forall_app. split; [done|]. unfold len in *. by rewrite foldl_move_length in H2.
Qed.

Lemma apply_entry_safe (delta virt_addr entry : Z) (image : list Z) :
  0 <= virt_addr < 2 ^ 32 -> 0 <= entry < 2 ^ 16 ->
  safe (reloc_post delta image
          (let rva := virt_addr + Z.land entry 4095 in
           if Z.shiftr entry 12 =? REL_DIR64 then [(8%nat, rva)]
           else if Z.shiftr entry 12 =? REL_HIGHLOW then [(4%nat, rva)] else []))
       (apply_entry delta virt_addr entry image).
Proof.
  intros Hv He. unfold apply_entry.
  assert (0 <= Z.land entry 4095 < 4096) as Hw.
  { change 4095 with (Z.ones 12). rewrite Z.land_ones by lia. apply Z.mod_pos_bound. lia. }
  assert (saturating_add usize_max virt_addr (Z.land entry 4095) = virt_addr + Z.land entry 4095) as ->
    by (unfold saturating_add, usize_max, u64_max; lia).
  destruct (Z.eqb_spec (Z.shiftr entry 12) REL_ABSOLUTE) as [->|]; [by split|].
  destruct (Z.eqb_spec (Z.shiftr entry 12) REL_DIR64).
  { apply safe_guard. intros Hg%Z.leb_le.
    destruct (fixup_move 8 (virt_addr + Z.land entry 4095) delta image) as [-> Hs]; [auto|lia|done|].
    split; [done|]. by constructor. }
  destruct (Z.eqb_spec (Z.shiftr entry 12) REL_HIGHLOW); [|done].
  apply safe_guard. intros Hg%Z.leb_le.
  destruct (fixup_move 4 (virt_addr + Z.land entry 4095) delta image) as [-> Hs]; [auto|lia|done|].
  split; [done|]. by constructor.
Qed.

Lemma apply_entries_safe (n : nat) (off delta virt_addr : Z) (rb image : list Z) :
  Forall is_byte rb -> 0 <= virt_addr < 2 ^ 32 -> 0 <= off -> off + 2 * Z.of_nat n <= len rb ->
  safe (reloc_post delta image (entry_targets n off virt_addr rb))
       (apply_entries n off delta virt_addr rb image).
Proof.
  intros Hb Hv. revert off image. induction n as [|n IH]; intros off image Ho Hl.
  { by split. }
  cbn [apply_entries entry_targets].
  unfold idx_u16. rewrite slice_ok by lia. cbn [res_bind].
  pose proof (from_le_sub_bound rb Hb off (off + 2) ltac:(lia) ltac:(lia)) as He.
  replace (off + 2 - off) with 2 in He by lia. change (256 ^ 2) with (2 ^ 16) in He.
  eapply safe_bind; [by apply apply_entry_safe|]. intros image' Himg. cbv beta in Himg.
  eapply safe_mono; [apply IH; lia|]. intros image'' H2. by eapply reloc_post_app.
Qed.

Lemma reloc_loop_safe (fuel : nat) (cursor delta : Z) (rb image : list Z) :
  Forall is_byte rb -> len rb <= isize_max -> 0 <= cursor <= len rb ->
  len rb - cursor < Z.of_nat fuel ->
  exists r, reloc_loop fuel cursor delta rb image = Some r /\
            safe (reloc_post delta image (table_targets fuel cursor rb)) r.
Proof.
  intros Hb Hl. revert cursor image. induction fuel as [|f IH]; intros cursor image Hc Hf; [lia|].
  unfold isize_max in Hl. simpl.
  destruct (negb (cursor <? len rb)) eqn:Ec; [eexists; split; [done|by split]|].
  destruct (len rb <? usize_add cursor 8) eqn:E8; [by eexists|].
  rewrite usize_add_id in E8 by lia. rewrite (usize_add_id cursor 4) by lia.
  unfold idx_u32. rewrite !slice_ok by lia. cbn [res_bind].
  replace (cursor + 4 + 4) with (cursor + 8) by lia.
  pose proof (from_le_sub_bound rb Hb cursor (cursor + 4) ltac:(lia) ltac:(lia)) as Hv.
  pose proof (from_le_sub_bound rb Hb (cursor + 4) (cursor + 8) ltac:(lia) ltac:(lia)) as Hs.
  replace (cursor + 4 - cursor) with 4 in Hv by lia.
  replace (cursor + 8 - (cursor + 4)) with 4 in Hs by lia. change (256 ^ 4) with (2 ^ 32) in *.
  set (virt := from_le (sub_list cursor (cursor + 4) rb)) in *.
  set (size := from_le (sub_list (cursor + 4) (cursor + 8) rb)) in *.
  destruct (size =? 0) eqn:E0; [eexists; split; [done|by split]|].
  destruct (size <? 8) eqn:Es; [by eexists|].
  rewrite (usize_add_id cursor size), (usize_add_id cursor 8) by lia.
  destruct (len rb <? cursor + size) eqn:Ex; [by eexists|].
  destruct (negb ((size - 8) mod 2 =? 0)) eqn:Eodd; [by eexists|].
  pose proof (apply_entries_safe (Z.to_nat ((size - 8) / 2)) (cursor + 8) delta virt rb image
                Hb Hv ltac:(lia)) as He.
  pose proof (Z.mul_div_le (size - 8) 2 ltac:(lia)) as Hdiv.
  pose proof (Z.div_pos (size - 8) 2 ltac:(lia) ltac:(lia)) as Hdiv0.
  rewrite Z2Nat.id in He by done. specialize (He ltac:(lia)).
  destruct (apply_entries _ _ _ _ _ _) as [image'| |].
  - destruct (IH (cursor + size) image') as (r & Er & Hr); [lia..|].
    exists r. split; [exact Er|]. eapply safe_mono; [exact Hr|]. intros image'' H2.
    by eapply reloc_post_app.
  - by eexists.
  - done.
Qed.

Lemma apply_relocations_safe (image rb : list Z) (preferred actual : Z) :
  Forall is_byte rb -> len rb <= isize_max ->
  safe (fun image' => if wrapping_sub 64 actual preferred =? 0 then image' = image
                      else reloc_post (wrapping_sub 64 actual preferred) image (reloc_targets rb) image')
       (apply_relocations_to_slice image preferred actual rb).
Proof.
  intros Hb Hl. unfold apply_relocations_to_slice.
  destruct (wrapping_sub 64 actual preferred =? 0); [done|].
  destruct (reloc_loop_safe (S (length rb)) 0 (wrapping_sub 64 actual preferred) rb image)
    as (r & -> & Hr); [done|done|unfold len; lia|unfold len; lia|exact Hr].
Qed.

(** ** What moving a set of slots does *)
Lemma sub_list_ext {A : Type} (lo hi : Z) (l l' : list A) :
  0 <= lo <= hi -> length l = length l' ->
  (forall i, lo <= Z.of_nat i < hi -> l !! i = l' !! i) -> sub_list lo hi l = sub_list lo hi l'.
Proof.
  intros Hr Hlen H. apply list_eq. intros i. unfold sub_list.
  destruct (decide (i < Z.to_nat (hi - lo))%nat).
  - rewrite !lookup_take_lt by done. rewrite !lookup_drop. apply H. lia.
  - rewrite !lookup_take_ge by lia. done.
Qed.

Lemma move_slot_outside (delta : Z) (image : list Z) (t : nat * Z) (i : nat) :
  slot_in (len image) t -> (Z.of_nat i < t.2 \/ t.2 + Z.of_nat t.1 <= Z.of_nat i) ->
  move_slot delta image t !! i = image !! i.
Proof.
  intros (_ & H1 & H2) Hi. unfold move_slot.
  apply splice_lookup_outside; [done|by rewrite len_to_le|by rewrite len_to_le].
Qed.

Lemma move_slot_same (delta : Z) (image : list Z) (t : nat * Z) :
  slot_in (len image) t ->
  read_slot t (move_slot delta image t) = (read_slot t image + delta) mod 256 ^ Z.of_nat t.1.
Proof.
  intros (_ & H1 & H2). unfold read_slot at 1, move_slot.
  set (v := (read_slot t image + delta) mod 256 ^ Z.of_nat t.1).
  pose proof (sub_list_splice_same t.2 (to_le t.1 v) image) as H. rewrite len_to_le in H.
  rewrite H by done. apply from_to_le. apply Z.mod_pos_bound. lia.
Qed.

Lemma foldl_move_outside (delta : Z) (ts : list (nat * Z)) (image : list Z) (i : nat) :
  Forall (slot_in (len image)) ts ->
  Forall (fun t => Z.of_nat i < t.2 \/ t.2 + Z.of_nat t.1 <= Z.of_nat i) ts ->
  foldl (move_slot delta) image ts !! i = image !! i.
Proof.
  revert image. induction ts as [|t ts IH]; intros image H Ho; simpl; [done|].
  apply Forall_cons in H as [Ht Hts]. apply Forall_cons in Ho as [Hot Hots].
  rewrite IH; [by apply move_slot_outside| |done].
  unfold len in *. by rewrite move_slot_length.
Qed.

Lemma foldl_move_read (delta : Z) (ts : list (nat * Z)) (image : list Z) (t : nat * Z) :
  slot_in (len image) t -> Forall (slot_in (len image)) ts -> Forall (slots_apart t) ts ->
  read_slot t (foldl (move_slot delta) image ts) = read_slot t image.
Proof.
  intros (_ & Ht1 & Ht2) H Ha. unfold read_slot. f_equal. apply sub_list_ext; [lia| |].
  - by rewrite foldl_move_length.
  - intros i Hi. apply foldl_move_outside; [done|].
    eapply Forall_impl; [exact Ha|]. unfold slots_apart. intros u Hu. lia.
Qed.

Lemma foldl_move_bytes (delta : Z) (ts : list (nat * Z)) (image : list Z) :
  Forall is_byte image -> Forall is_byte (foldl (move_slot delta) image ts).
Proof. revert image. induction ts; intros; simpl; auto using move_slot_bytes. Qed.

(** Applying relocations to arbitrary image and table bytes never panics or runs
    past its table, and when it succeeds the image keeps its length and its
    bytes stay bytes. *)
Theorem apply_relocations_no_panic (image rb : list Z) (preferred actual : Z) :
  Forall is_byte image -> Forall is_byte rb -> len rb <= isize_max ->
  match apply_relocations_to_slice image preferred actual rb with
  | Ok image' => length image' = length image /\ Forall is_byte image'
  | Err _ => True
  | Panic => False
  end.
Proof.
  intros Hi Hb Hl. pose proof (apply_relocations_safe image rb preferred actual Hb Hl) as H.
  destruct (apply_relocations_to_slice image preferred actual rb); simpl in H; [|done|done].
  destruct (_ =? 0); [by subst|]. destruct H as [-> Hs].
  split; [by apply foldl_move_length|by apply foldl_move_bytes].
Qed.

Lemma apply_relocations_no_panic_witness :
  match apply_relocations_to_slice (replicate 8 1) 0 4096 [1; 2; 3] with
  | Ok image' => length image' = 8%nat /\ Forall is_byte image'
  | Err _ => True
  | Panic => False
  end.
Proof.
  apply (apply_relocations_no_panic (replicate 8 1) [1; 2; 3] 0 4096).
  - repeat constructor; vm_compute; congruence.
  - repeat constructor; vm_compute; congruence.
  - vm_compute. congruence.
Defined.

(** C14. A successful relocation does what the table says and nothing else: with
    [delta] the distance from the preferred to the actual base, every slot a
    DIR64 or HIGHLOW entry names, and that no other entry overlaps, holds its
    old value plus [delta] modulo its width, and every byte outside the named
    slots is unchanged. *)
Theorem apply_relocations_moves (image rb image' : list Z) (preferred actual : Z) :
  Forall is_byte rb -> len rb <= isize_max ->
  apply_relocations_to_slice image preferred actual rb = Ok image' ->
  wrapping_sub 64 actual preferred <> 0 ->
  let delta := wrapping_sub 64 actual preferred in
  let ts := reloc_targets rb in
  (forall i : nat, Forall (fun t => Z.of_nat i < t.2 \/ t.2 + Z.of_nat t.1 <= Z.of_nat i) ts ->
     image' !! i = image !! i) /\
  (forall ts1 t ts2, ts = ts1 ++ t :: ts2 -> Forall (slots_apart t) (ts1 ++ ts2) ->
     read_slot t image' = (read_slot t image + delta) mod 256 ^ Z.of_nat t.1).
Proof.
  intros Hb Hl Hok Hd. cbv zeta.
  pose proof (apply_relocations_safe image rb preferred actual Hb Hl) as H. rewrite Hok in H.
  simpl in H. destruct (Z.eqb_spec (wrapping_sub 64 actual preferred) 0); [done|].
  destruct H as [-> Hs]. split; [intros; by apply foldl_move_outside|].
  intros ts1 t ts2 E Ha. rewrite E in *. rewrite foldl_app. simpl.
  apply Forall_app in Hs as [Hs1 [Hst Hs2]%Forall_cons].
  apply Forall_app in Ha as [Ha1 Ha2].
  pose proof (foldl_move_length (wrapping_sub 64 actual preferred) image ts1 Hs1) as L1.
  set (im1 := foldl (move_slot (wrapping_sub 64 actual preferred)) image ts1) in *.
  assert (len im1 = len image) as L1' by (unfold len; by rewrite L1).
  assert (slot_in (len im1) t) as Hst' by (by rewrite L1').
  assert (len (move_slot (wrapping_sub 64 actual preferred) im1 t) = len image) as L2
    by (unfold len in *; by rewrite move_slot_length).
  rewrite foldl_move_read by (by rewrite ?L2).
  rewrite move_slot_same by (by rewrite L1'). unfold im1.
  by rewrite foldl_move_read.
Qed.

(** A block at page zero with one DIR64 entry at offset 4 and a padding entry. *)
Definition demo_relocs : list Z := [0; 0; 0; 0; 12; 0; 0; 0; 4; 160; 0; 0].

Lemma apply_relocations_moves_witness :
  exists image', apply_relocations_to_slice (replicate 16 1) 4096 8192 demo_relocs = Ok image' /\
    reloc_targets demo_relocs = [(8%nat, 4)] /\
    read_slot (8%nat, 4) image' = 72340172838076673 + 4096.
Proof.
  eexists. split; [vm_compute; reflexivity|]. split; [vm_compute; reflexivity|].
  match goal with |- read_slot _ ?im = _ =>
    destruct (apply_relocations_moves (replicate 16 1) demo_relocs im 4096 8192) as [_ H]
  end.
  - repeat constructor; vm_compute; congruence.
  - vm_compute. congruence.
  - vm_compute. reflexivity.
  - vm_compute. congruence.
  - rewrite (H [] (8%nat, 4) []); [vm_compute; reflexivity|vm_compute; reflexivity|constructor].
Defined.

(** A minimal x86_64 EFI application: headers, one executable section that
    covers the entry point, no data directories. *)
Definition demo_pe : list Z :=
  sig_mz ++ replicate 58 0 ++ to_le 4 64            (* DOS header, e_lfanew = 64 *)
  ++ sig_pe
  ++ to_le 2 MACHINE_X86_64 ++ to_le 2 1 ++ replicate 12 0 ++ to_le 2 112 ++ replicate 2 0
  ++ to_le 2 PE32_PLUS_MAGIC ++ replicate 14 0 ++ to_le 4 4096 ++ replicate 4 0
  ++ to_le 8 4194304 ++ replicate 24 0 ++ to_le 4 8192 ++ replicate 8 0
  ++ to_le 2 SUBSYSTEM_EFI_APPLICATION ++ replicate 38 0 ++ to_le 4 0
  ++ replicate 8 0 ++ to_le 4 16 ++ to_le 4 4096 ++ to_le 4 16 ++ to_le 4 240
  ++ replicate 12 0 ++ to_le 4 536870912
  ++ replicate 16 204.

Lemma parse_validate_correct_witness :
  exists s, parse_headers demo_pe = Ok s /\ validate_headers X86_64 s demo_pe = Ok tt /\
    Exists (entry_in (pe_entry_rva s)) (pe_sections s).
Proof.
  eexists. split; [vm_compute; reflexivity|]. split; [vm_compute; reflexivity|].
  pose proof (parse_validate_correct X86_64 demo_pe) as H.
  assert (Forall is_byte demo_pe) as Hb by (apply (bool_decide_unpack _); vm_compute; exact I).
  specialize (H Hb ltac:(vm_compute; congruence)).
  match type of H with match ?p with _ => _ end =>
    let r := eval vm_compute in p in change p with r in H
  end.
  destruct H as (_ & _ & H). apply H. vm_compute. reflexivity.
Defined.

(** The hexadecimal digest in the trust log has two characters per byte, all of
    them lower-case hexadecimal digits (so the unchecked UTF-8 conversion is
    sound), and distinct digests are printed differently. *)
Theorem hex_encode_faithful (d : list Z) :
  Forall is_byte d ->
  length (hex_encode_32 d) = (2 * length d)%nat /\
  Forall (fun c => is_ascii_digit c = true \/ 97 <= c <= 102) (hex_encode_32 d) /\
  (forall d', Forall is_byte d' -> hex_encode_32 d = hex_encode_32 d' -> d = d').
Proof.
  assert (forall b, is_byte b -> 0 <= Z.shiftr b 4 < 16 /\ 0 <= Z.land b 15 < 16 /\
            b = 16 * Z.shiftr b 4 + Z.land b 15) as Hn.
  { intros b Hb. unfold is_byte in Hb. change 15 with (Z.ones 4).
    rewrite Z.land_ones, Z.shiftr_div_pow2 by lia. change (2 ^ 4) with 16.
    pose proof (Z.div_mod b 16). pose proof (Z.mod_pos_bound b 16).
    pose proof (Z.div_lt_upper_bound b 16 16). pose proof (Z.div_pos b 16). lia. }
  assert (forall x, 0 <= x < 16 ->
            is_ascii_digit (hex_lower_digit x) = true \/ 97 <= hex_lower_digit x <= 102) as Hdig.
  { intros x Hx. unfold hex_lower_digit, is_ascii_digit.
    destruct (Z.ltb_spec x 10); [left|right]; lia. }
  assert (forall x y, 0 <= x < 16 -> 0 <= y < 16 ->
            hex_lower_digit x = hex_lower_digit y -> x = y) as Hinj.
  { intros x y Hx Hy. unfold hex_lower_digit.
    destruct (Z.ltb_spec x 10), (Z.ltb_spec y 10); lia. }
  assert (forall b d, hex_encode_32 (b :: d) =
            hex_lower_digit (Z.shiftr b 4) :: hex_lower_digit (Z.land b 15) :: hex_encode_32 d)
    as Hcons by done.
  induction 1 as [|b d Hb Hd IH].
  - split_and!; [done..|]. intros [|? ?] _; [done|]. by rewrite Hcons.
  - destruct IH as (IH1 & IH2 & IH3). destruct (Hn b Hb) as (H1 & H2 & H3). rewrite Hcons.
    split_and!; [simpl; lia|constructor; [by apply Hdig|constructor; [by apply Hdig|done]]|].
    intros [|b' d'] Hd'; [done|]. apply Forall_cons in Hd' as [Hb' Hd'].
    destruct (Hn b' Hb') as (H1' & H2' & H3'). rewrite Hcons. intros [= E1 E2 E3].
    apply Hinj in E1, E2; try done. f_equal; [lia|auto].
Qed.

Lemma hex_encode_faithful_witness :
  length (hex_encode_32 [171; 5]) = 4%nat /\ hex_encode_32 [171; 5] = lit "ab05".
Proof.
  split; [|vm_compute; reflexivity].
  apply (hex_encode_faithful [171; 5]). repeat constructor; vm_compute; congruence.
Defined.
