(* ===== verification/PeLoad.v ===== *)
(** * Loading a PE image into memory (pe_loader.rs)

    [load_pe] parses and validates the bytes, allocates pages, clears them,
    copies the sections with raw pointers, relocates, and installs the
    [LoadedImageProtocol].  The firmware services and the digest are not this
    program's code: they are the fields of [Firmware], and each run records
    what it asked of them.  A raw copy outside its allocation is undefined
    behaviour and is given the outcome [Panic]. *)
From S2P Require Import Prelude RustStr BlsParse PeLoader.
Local Open Scope Z_scope.

Record Firmware : Type := {
  (* [allocate_pages(AllocateType::Address(base), _, pages)] succeeds *)
  fw_alloc_at : Z -> Z -> bool;
  (* [allocate_pages(AllocateType::AnyPages, _, pages)]: the address *)
  fw_alloc_any : Z -> option Z;
  (* [install_protocol_interface]: base, image size, size of load options in bytes *)
  fw_install : Z -> Z -> Z -> option Z;
  (* [sha2::Sha256] of a byte string *)
  fw_sha256 : list Z -> list Z
}.

(** [allocate_pages] returns a [NonNull] pointer. *)
Definition allocations_non_null (fw : Firmware) : Prop :=
  forall pages base, fw_alloc_any fw pages = Some base -> 0 < base.

Inductive pe_effect : Type :=
  | EAlloc (base pages : Z)
  | EFree (base pages : Z)
  | EInstall (handle base size : Z)
  | EEnter (entry handle : Z).

Record LoadedImage : Type := mkLoaded {
  li_image_base : Z;
  li_image_size : Z;
  li_entry_point : Z;
  li_handle : Z;
  li_pages_allocated : Z;
  li_sha256 : list Z;
  li_source_backend : list Z;
  li_load_options : option (list Z);
  li_memory : list Z             (* the contents of the allocated pages *)
}.

(** [size.div_ceil(4096)] *)
Definition pages_for (size : Z) : Z := (size + 4095) / 4096.

(** The base and the pages, the preferred base being tried first. *)
Definition allocate_image_pages (fw : Firmware) (s : PeSummary) : res PeLoadError (Z * Z) :=
  let pages := pages_for (pe_size_of_image s) in
  if (0 <? pe_preferred_base s) && fw_alloc_at fw (pe_preferred_base s) pages
  then Ok (pe_preferred_base s, pages)
  else match fw_alloc_any fw pages with
       | Some base => Ok (base, pages)
       | None => Err (ParseFailed "allocate_pages failed")
       end.

(** [ptr::copy_nonoverlapping(bytes + raw_offset, image_base + virt_addr, copy_len)] *)
Definition copy_section (bytes mem : list Z) (p : SectionPlan) : res PeLoadError (list Z) :=
  if sp_copy_len p =? 0 then Ok mem
  else
    let? src := slice (sp_raw_offset p) (sp_raw_offset p + sp_copy_len p) bytes in
    if in_range (sp_virt_addr p) (sp_virt_addr p + sp_copy_len p) mem
    then Ok (splice (sp_virt_addr p) src mem)
    else Panic.

Fixpoint copy_sections (bytes mem : list Z) (ps : list SectionPlan) : res PeLoadError (list Z) :=
  match ps with
  | [] => Ok mem
  | p :: ps' => let? mem := copy_section bytes mem p in copy_sections bytes mem ps'
  end.

(** The relocation step.  An image without a relocation directory is taken to
    relocate itself and is left as it is. *)
Definition relocate_image (s : PeSummary) (actual_base : Z) (mem : list Z) : res PeLoadError (list Z) :=
  if actual_base =? pe_preferred_base s then Ok mem
  else match pe_reloc_dir s with
       | Some d =>
           if dd_size d <=? 0 then Ok mem
           else
             let image := take (Z.to_nat (pe_size_of_image s)) mem in
             let reloc_start := dd_virtual_address d in
             let reloc_end := saturating_add usize_max reloc_start (dd_size d) in
             guard? reloc_end <=? len image
               else RelocationMalformed "reloc directory outside image bounds" in
             let? reloc_bytes := slice reloc_start reloc_end image in
             let? image' := apply_relocations_to_slice image (pe_preferred_base s) actual_base reloc_bytes in
             Ok (image' ++ drop (Z.to_nat (pe_size_of_image s)) mem)
       | None => Ok mem
       end.

Definition free_pages (base pages : Z) : list pe_effect :=
  if base =? 0 then [] else [EFree base pages].

Definition load_options_size (load_options : option (list Z)) : Z :=
  match load_options with Some buf => wrap 32 (len buf * 2) | None => 0 end.

(** Install the protocol and build the [LoadedImage]; the end of [load_pe]
    repeats these steps word for word. *)
Definition finish_load_without_relocs (fw : Firmware) (s : PeSummary) (sha256 : list Z)
    (load_options : option (list Z)) (source_backend : list Z) (base pages : Z) (mem : list Z)
    : res PeLoadError LoadedImage * list pe_effect :=
  match fw_install fw base (pe_size_of_image s) (load_options_size load_options) with
  | None => (Err (ParseFailed "install_protocol_interface failed"), free_pages base pages)
  | Some handle =>
      (Ok (mkLoaded base (pe_size_of_image s) (base + pe_entry_rva s) handle pages sha256
                    source_backend load_options mem),
       [EInstall handle base (pe_size_of_image s)])
  end.

(** The part of [load_pe] after the pages are allocated. *)
Definition load_into (fw : Firmware) (s : PeSummary) (bytes : list Z)
    (load_options : option (list Z)) (source_backend : list Z) (base pages : Z)
    : res PeLoadError LoadedImage * list pe_effect :=
  let sha256 := fw_sha256 fw bytes in
  let mem := replicate (Z.to_nat (pages * 4096)) 0 in
  match (let? mem := copy_sections bytes mem (pe_sections s) in relocate_image s base mem) with
  | Panic => (Panic, [])
  | Err e => (Err e, free_pages base pages)
  | Ok mem =>
      finish_load_without_relocs fw s sha256 load_options source_backend base pages mem
  end.

Definition load_pe (fw : Firmware) (target : target_arch) (bytes : list Z)
    (load_options : option (list Z)) (source_backend : list Z)
    : res PeLoadError LoadedImage * list pe_effect :=
  match parse_headers bytes with
  | Panic => (Panic, [])
  | Err e => (Err e, [])
  | Ok s =>
      match validate_headers target s bytes with
      | Panic => (Panic, [])
      | Err e => (Err e, [])
      | Ok _ =>
          match allocate_image_pages fw s with
          | Panic => (Panic, [])
          | Err e => (Err e, [])
          | Ok (base, pages) =>
              let '(r, effects) := load_into fw s bytes load_options source_backend base pages in
              (r, EAlloc base pages :: effects)
          end
      end
  end.

(** [Drop for LoadedImage] *)
Definition drop_image (img : LoadedImage) : list pe_effect :=
  if (0 <? li_pages_allocated img) && negb (li_image_base img =? 0)
  then [EFree (li_image_base img) (li_pages_allocated img)] else [].

(** [start_image]: [entry] is the loaded code; [None] when it does not return. *)
Definition start_image (entry : Z -> Z -> option Z) (img : LoadedImage) : option Z * list pe_effect :=
  match entry (li_entry_point img) (li_handle img) with
  | None => (None, [EEnter (li_entry_point img) (li_handle img)])
  | Some status =>
      (Some status, EEnter (li_entry_point img) (li_handle img) :: drop_image img)
  end.

(** ** Copying the sections *)
Section copying.
Context (bytes : list Z) (size : Z).

Definition section_fits (mem_len : Z) (p : SectionPlan) : Prop :=
  section_wf p /\ sp_virt_addr p + sp_virt_size p <= mem_len /\
  (0 < sp_copy_len p -> sp_raw_offset p + sp_copy_len p <= len bytes).

Lemma copy_section_fits (mem : list Z) (p : SectionPlan) :
  section_fits (len mem) p ->
  copy_section bytes mem p =
  Ok (if sp_copy_len p =? 0 then mem
      else splice (sp_virt_addr p) (sub_list (sp_raw_offset p) (sp_raw_offset p + sp_copy_len p) bytes) mem).
Proof.
  intros ((H1 & H2 & H3 & H4) & Hv & Hr). unfold copy_section.
  destruct (Z.eqb_spec (sp_copy_len p) 0); [done|].
  rewrite slice_ok by lia. simpl.
  assert (in_range (sp_virt_addr p) (sp_virt_addr p + sp_copy_len p) mem = true) as ->; [|done].
  apply in_range_spec. lia.
Qed.

Lemma copy_section_safe (mem : list Z) (p : SectionPlan) :
  Forall is_byte bytes -> Forall is_byte mem -> section_fits (len mem) p ->
  safe (fun mem' => length mem' = length mem /\ Forall is_byte mem' /\
          (forall i : nat, Z.of_nat i < sp_virt_addr p \/ sp_virt_addr p + sp_copy_len p <= Z.of_nat i ->
             mem' !! i = mem !! i) /\
          sub_list (sp_virt_addr p) (sp_virt_addr p + sp_copy_len p) mem'
          = sub_list (sp_raw_offset p) (sp_raw_offset p + sp_copy_len p) bytes)
       (copy_section bytes mem p).
Proof.
  intros Hb Hm Hf. rewrite copy_section_fits by done. destruct Hf as ((H1 & H2 & H3 & H4) & Hv & Hr).
  simpl. destruct (Z.eqb_spec (sp_copy_len p) 0) as [E|E].
  - rewrite E, !Z.add_0_r. split_and!; [done..|]. unfold sub_list. by rewrite !Z.sub_diag.
  - set (src := sub_list (sp_raw_offset p) (sp_raw_offset p + sp_copy_len p) bytes).
    assert (len src = sp_copy_len p) as Hl.
    { unfold len, src. rewrite length_sub_list by lia. lia. }
    split_and!.
    + apply length_splice; lia.
    + apply Forall_splice; [by apply Forall_sub_list|done].
    + intros i Hi. apply splice_lookup_outside; lia.
    + pose proof (sub_list_splice_same (sp_virt_addr p) src mem) as H. rewrite Hl in H. apply H; lia.
Qed.

Definition virt_apart (p q : SectionPlan) : Prop :=
  sp_virt_addr p + sp_copy_len p <= sp_virt_addr q \/ sp_virt_addr q + sp_copy_len q <= sp_virt_addr p.

(** After the loop: bytes outside every section's range are as before, and a
    section that later ones do not overlap holds its file bytes. *)
Definition copied (mem : list Z) (ps : list SectionPlan) (mem' : list Z) : Prop :=
  length mem' = length mem /\ Forall is_byte mem' /\
  (forall i : nat,
     Forall (fun p => Z.of_nat i < sp_virt_addr p \/ sp_virt_addr p + sp_copy_len p <= Z.of_nat i) ps ->
     mem' !! i = mem !! i) /\
  (forall ps1 p ps2, ps = ps1 ++ p :: ps2 -> Forall (virt_apart p) ps2 ->
     sub_list (sp_virt_addr p) (sp_virt_addr p + sp_copy_len p) mem'
     = sub_list (sp_raw_offset p) (sp_raw_offset p + sp_copy_len p) bytes).

Lemma copy_sections_safe (mem : list Z) (ps : list SectionPlan) :
  Forall is_byte bytes -> Forall is_byte mem -> Forall (section_fits (len mem)) ps ->
  safe (copied mem ps) (copy_sections bytes mem ps).
Proof.
  intros Hb. revert mem. induction ps as [|p ps IH]; intros mem Hm Hf; simpl.
  { unfold copied. split_and!; [done..|]. by intros [|? ?]. }
  apply Forall_cons in Hf as [Hp Hps].
  eapply safe_bind; [by apply copy_section_safe|].
  intros m1 (L1 & B1 & O1 & S1). cbv beta in *.
  assert (len m1 = len mem) as Hlen by (unfold len; by rewrite L1).
  eapply safe_mono; [apply IH; [done|by rewrite Hlen]|].
  intros m2 (L2 & B2 & O2 & S2). unfold copied. split_and!; [congruence|done| |].
  - intros i [Hi His]%Forall_cons. rewrite O2 by done. auto.
  - intros [|q ps1] p' ps2 [= -> ->] Ha; [|by eapply S2].
    rewrite <- S1. destruct Hp as ((H1 & H2 & H3 & H4) & Hv & Hr).
    apply sub_list_ext; [lia|by rewrite L2|].
    intros i Hi. apply O2. eapply Forall_impl; [exact Ha|]. unfold virt_apart. intros u Hu. lia.
Qed.
End copying.

(** ** The whole load *)
Lemma pages_for_cover (size : Z) : 0 <= size -> size <= pages_for size * 4096 < size + 4096.
Proof.
  intros. unfold pages_for. pose proof (Z.div_mod (size + 4095) 4096).
  pose proof (Z.mod_pos_bound (size + 4095) 4096). lia.
Qed.

(** The cleared pages the sections are copied into. *)
Definition blank_pages (s : PeSummary) : list Z :=
  replicate (Z.to_nat (pages_for (pe_size_of_image s) * 4096)) 0.

Lemma len_blank_pages (s : PeSummary) :
  0 <= pe_size_of_image s -> len (blank_pages s) = pages_for (pe_size_of_image s) * 4096.
Proof.
  intros H. unfold len, blank_pages. rewrite length_replicate.
  pose proof (pages_for_cover _ H). lia.
Qed.

Lemma blank_pages_bytes (s : PeSummary) : Forall is_byte (blank_pages s).
Proof. apply Forall_replicate. unfold is_byte. lia. Qed.

(** What relocation leaves in memory: the slots the table names moved by the
    distance from the preferred base; everything as it was when nothing is to
    be moved. *)
Definition no_relocation (s : PeSummary) (base : Z) : Prop :=
  base = pe_preferred_base s \/ match pe_reloc_dir s with Some d => dd_size d <= 0 | None => True end.

Definition relocated (s : PeSummary) (base : Z) (mem mem' : list Z) : Prop :=
  length mem' = length mem /\ Forall is_byte mem' /\
  (no_relocation s base -> mem' = mem) /\
  (forall d, pe_reloc_dir s = Some d -> 0 < dd_size d ->
     wrapping_sub 64 base (pe_preferred_base s) <> 0 ->
     let image := take (Z.to_nat (pe_size_of_image s)) mem in
     let table := sub_list (dd_virtual_address d) (dd_virtual_address d + dd_size d) image in
     mem' = foldl (move_slot (wrapping_sub 64 base (pe_preferred_base s))) image (reloc_targets table)
            ++ drop (Z.to_nat (pe_size_of_image s)) mem).

Lemma relocate_image_safe (s : PeSummary) (base : Z) (mem : list Z) :
  summary_wf s -> pe_size_of_image s <= len mem -> Forall is_byte mem ->
  safe (relocated s base mem) (relocate_image s base mem).
Proof.
  intros (_ & Hsz & _ & _ & Hdir & _) Hlen Hb. unfold relocate_image, relocated, no_relocation.
  destruct (Z.eqb_spec base (pe_preferred_base s)) as [->|Hne].
  { simpl. split_and!; [done..|]. intros d _ _ []. unfold wrapping_sub. by rewrite Z.sub_diag. }
  destruct (pe_reloc_dir s) as [d|] eqn:Ed; [|by simpl].
  destruct (Z.leb_spec (dd_size d) 0).
  { simpl. split_and!; [done..|]. intros d' [= <-]. lia. }
  destruct (Hdir d eq_refl) as [Hv Hs].
  set (image := take _ mem). apply safe_guard. intros Hend%Z.leb_le.
  assert (len image = pe_size_of_image s) as Hi.
  { unfold len, image. rewrite length_take. unfold len in Hlen. lia. }
  assert (saturating_add usize_max (dd_virtual_address d) (dd_size d) = dd_virtual_address d + dd_size d)
    as Hsat by (unfold saturating_add, usize_max, u64_max; lia).
  rewrite Hsat in *. rewrite slice_ok by lia. cbn [res_bind].
  set (table := sub_list _ _ image).
  assert (Forall is_byte table) as Hbt by (apply Forall_sub_list, Forall_take, Hb).
  assert (len table <= isize_max) as Htl.
  { unfold len, table. rewrite length_sub_list by lia. unfold isize_max. lia. }
  eapply safe_bind; [by apply apply_relocations_safe|]. intros image' Hp. cbv beta in Hp. simpl.
  assert (image' = image \/ Forall (slot_in (len image)) (reloc_targets table) /\
    image' = foldl (move_slot (wrapping_sub 64 base (pe_preferred_base s))) image (reloc_targets table))
    as Himg by (destruct (_ =? 0); [by left|right; destruct Hp; done]).
  split_and!.
  - rewrite <- (take_drop (Z.to_nat (pe_size_of_image s)) mem) at 2. rewrite !length_app. f_equal.
    destruct Himg as [->|[Hsl ->]]; [done|]. by apply foldl_move_length.
  - apply Forall_app. split; [|by apply Forall_drop].
    destruct Himg as [->|[_ ->]]; [|apply foldl_move_bytes]; by apply Forall_take.
  - intros [?|?]; lia.
  - intros d' [= <-] _ Hd. destruct (Z.eqb_spec (wrapping_sub 64 base (pe_preferred_base s)) 0); [done|].
    by destruct Hp as [-> _].
Qed.

Lemma loadable_fits (target : target_arch) (s : PeSummary) (bytes : list Z) :
  summary_wf s -> loadable target s bytes ->
  Forall (section_fits bytes (len (blank_pages s))) (pe_sections s).
Proof.
  intros ((Hwf & _) & Hsz & _) (_ & _ & _ & _ & _ & _ & Hs & _). simpl in Hwf.
  rewrite len_blank_pages by lia. pose proof (pages_for_cover (pe_size_of_image s)).
  apply Forall_forall. intros p Hp. rewrite Forall_forall in Hwf, Hs.
  destruct (Hs p Hp). unfold section_fits. split_and!; [by apply Hwf|lia|done].
Qed.

Lemma fill_safe (target : target_arch) (s : PeSummary) (bytes : list Z) (base : Z) :
  Forall is_byte bytes -> summary_wf s -> loadable target s bytes ->
  safe (fun mem' => exists mem, copied bytes (blank_pages s) (pe_sections s) mem /\ relocated s base mem mem')
       (let? mem := copy_sections bytes (blank_pages s) (pe_sections s) in relocate_image s base mem).
Proof.
  intros Hb Hwf Hl. eapply safe_bind.
  { apply copy_sections_safe; [done|apply blank_pages_bytes|by eapply loadable_fits]. }
  intros mem Hc. assert (Hc' := Hc). destruct Hc' as (L & B & _).
  eapply safe_mono; [apply relocate_image_safe; [done| |done]|by eauto].
  destruct Hwf as (_ & Hsz & _). unfold len. rewrite L. fold (len (blank_pages s)).
  rewrite len_blank_pages by lia. pose proof (pages_for_cover (pe_size_of_image s)). lia.
Qed.

(** What the firmware has been asked to do, and what is in memory, when
    [load_pe] returns. *)
Definition load_spec (target : target_arch) (bytes : list Z)
    (out : res PeLoadError LoadedImage * list pe_effect) : Prop :=
  match out with
  | (Panic, _) => False
  | (Err _, ef) => ef = [] \/ exists base pages, ef = [EAlloc base pages; EFree base pages]
  | (Ok img, ef) =>
      ef = [EAlloc (li_image_base img) (li_pages_allocated img);
            EInstall (li_handle img) (li_image_base img) (li_image_size img)] /\
      0 < li_image_base img /\ 0 < li_pages_allocated img /\
      li_image_size img <= li_pages_allocated img * 4096 /\
      len (li_memory img) = li_pages_allocated img * 4096 /\
      li_image_base img <= li_entry_point img < li_image_base img + li_image_size img /\
      exists s mem,
        parse_headers bytes = Ok s /\ loadable target s bytes /\
        Exists (entry_in (li_entry_point img - li_image_base img)) (pe_sections s) /\
        copied bytes (blank_pages s) (pe_sections s) mem /\
        relocated s (li_image_base img) mem (li_memory img)
  end.

Lemma allocate_image_pages_spec (fw : Firmware) (s : PeSummary) :
  allocations_non_null fw ->
  safe (fun '(base, pages) => 0 < base /\ pages = pages_for (pe_size_of_image s))
       (allocate_image_pages fw s).
Proof.
  intros Ha. unfold allocate_image_pages. destruct (_ && _) eqn:E.
  - apply andb_true_iff in E as [E%Z.ltb_lt _]. done.
  - destruct (fw_alloc_any fw _) eqn:E'; [|done]. apply Ha in E'. done.
Qed.

Lemma load_pe_spec (fw : Firmware) (target : target_arch) (bytes : list Z)
    (load_options : option (list Z)) (source_backend : list Z) :
  Forall is_byte bytes -> len bytes <= isize_max -> allocations_non_null fw ->
  load_spec target bytes (load_pe fw target bytes load_options source_backend).
Proof.
  intros Hb Hlen Ha. unfold load_pe.
  pose proof (parse_headers_safe bytes Hb) as Hp.
  destruct (parse_headers bytes) as [s|e|] eqn:Ep; simpl in Hp; [|by left|done].
  destruct (validate_headers target s bytes) as [[]|e|] eqn:Ev;
    [|by left|by eapply validate_headers_no_panic].
  pose proof Ev as Hl. apply validate_headers_iff in Hl; [|done|done].
  pose proof (allocate_image_pages_spec fw s Ha) as Halloc.
  destruct (allocate_image_pages fw s) as [[base pages]|e|]; simpl in Halloc; [|by left|done].
  destruct Halloc as [Hbase ->]. unfold load_into, finish_load_without_relocs. fold (blank_pages s).
  pose proof (fill_safe target s bytes base Hb Hp Hl) as Hf.
  assert (free_pages base (pages_for (pe_size_of_image s))
          = [EFree base (pages_for (pe_size_of_image s))]) as Hfree.
  { unfold free_pages. destruct (Z.eqb_spec base 0); [lia|done]. }
  destruct (let? _ := _ in _) as [mem|e|]; [|simpl; rewrite Hfree; right; eauto|done].
  destruct (fw_install fw _ _ _) as [h|]; [|simpl; rewrite Hfree; right; eauto].
  destruct Hf as (mem0 & Hc & Hr). destruct Hp as ((_ & Hex) & Hsz & He & _).
  destruct Hl as (? & ? & ? & ? & ? & ? & ? & Hin & Hexe).
  pose proof (pages_for_cover (pe_size_of_image s)).
  cbn [load_spec li_image_base li_pages_allocated li_image_size li_handle li_entry_point li_memory].
  split_and!; try done; try lia.
  - rewrite <- len_blank_pages by lia. destruct Hc as [L _], Hr as [L' _]. unfold len. by rewrite L', L.
  - exists s, mem0. split_and!; try done. replace (base + pe_entry_rva s - base) with (pe_entry_rva s) by lia.
    by apply Hex.
Qed.

(** C12. Loading arbitrary bytes never reads or writes outside the file or the
    allocated pages; a failed load leaves no pages allocated and installs
    nothing; a successful one holds exactly the pages it allocated, has
    installed one protocol for them, and its entry point lies in an executable
    section inside them. *)
Theorem load_pe_safe (fw : Firmware) (target : target_arch) (bytes : list Z)
    (load_options : option (list Z)) (source_backend : list Z) :
  Forall is_byte bytes -> len bytes <= isize_max -> allocations_non_null fw ->
  load_spec target bytes (load_pe fw target bytes load_options source_backend).
Proof. apply load_pe_spec. Qed.

(** A firmware that grants any address, and a toy digest. *)
Definition demo_firmware : Firmware := {|
  fw_alloc_at base pages := false;
  fw_alloc_any pages := if pages <=? 16 then Some 1048576 else None;
  fw_install base size lo := Some 77;
  fw_sha256 bs := replicate 32 (len bs mod 256)
|}.

Lemma load_pe_safe_witness :
  exists img, (load_pe demo_firmware X86_64 demo_pe None (lit "Native")).1 = Ok img /\
    li_image_base img <= li_entry_point img < li_image_base img + li_image_size img.
Proof.
  pose proof (load_pe_safe demo_firmware X86_64 demo_pe None (lit "Native")) as H.
  assert (Forall is_byte demo_pe) as Hb by (apply (bool_decide_unpack _); vm_compute; exact I).
  specialize (H Hb ltac:(vm_compute; congruence)).
  assert (allocations_non_null demo_firmware) as Hn.
  { intros pages base. simpl. destruct (pages <=? 16); [intros [= <-]; lia|done]. }
  specialize (H Hn).
  destruct (load_pe demo_firmware X86_64 demo_pe None (lit "Native")) as [[img|e|] ef] eqn:E.
  - exists img. split; [done|]. apply H.
  - exfalso. vm_compute in E. discriminate E.
  - destruct H.
Defined.

(** In a loaded image that needs no relocation, every section that later
    sections do not overlap holds its file bytes, and every byte outside all
    sections is zero. *)
Theorem load_pe_contents (fw : Firmware) (target : target_arch) (bytes : list Z)
    (load_options : option (list Z)) (source_backend : list Z) (img : LoadedImage) (ef : list pe_effect)
    (s : PeSummary) :
  Forall is_byte bytes -> len bytes <= isize_max -> allocations_non_null fw ->
  load_pe fw target bytes load_options source_backend = (Ok img, ef) ->
  parse_headers bytes = Ok s -> no_relocation s (li_image_base img) ->
  (forall ps1 p ps2, pe_sections s = ps1 ++ p :: ps2 -> Forall (virt_apart p) ps2 ->
     sub_list (sp_virt_addr p) (sp_virt_addr p + sp_copy_len p) (li_memory img)
     = sub_list (sp_raw_offset p) (sp_raw_offset p + sp_copy_len p) bytes) /\
  (forall i : nat, Z.of_nat i < li_image_size img ->
     Forall (fun p => Z.of_nat i < sp_virt_addr p \/ sp_virt_addr p + sp_copy_len p <= Z.of_nat i)
            (pe_sections s) -> li_memory img !! i = Some 0).
Proof.
  intros Hb Hlen Ha E Es Hn. pose proof (load_pe_spec fw target bytes load_options source_backend Hb Hlen Ha) as H.
  rewrite E in H. destruct H as (_ & _ & _ & Hsz & Hm & _ & s' & mem & Es' & _ & _ & Hc & Hr).
  rewrite Es in Es'. injection Es' as <-.
  destruct Hr as (_ & _ & Hsame & _). rewrite (Hsame Hn) in *.
  destruct Hc as (L & _ & Hout & Hsec). split; [done|].
  intros i Hi Hp. rewrite Hout by done. unfold blank_pages. apply lookup_replicate. split; [done|].
  unfold blank_pages in L. rewrite length_replicate in L. unfold len in Hm. lia.
Qed.

Lemma load_pe_contents_witness :
  exists img, (load_pe demo_firmware X86_64 demo_pe None (lit "Native")).1 = Ok img /\
    sub_list 4096 4112 (li_memory img) = sub_list 240 256 demo_pe.
Proof.
  destruct (load_pe demo_firmware X86_64 demo_pe None (lit "Native")) as [[img|e|] ef] eqn:E;
    [|exfalso; vm_compute in E; discriminate E..].
  exists img. split; [done|].
  assert (Forall is_byte demo_pe) as Hb by (apply (bool_decide_unpack _); vm_compute; exact I).
  assert (allocations_non_null demo_firmware) as Hn.
  { intros pages base. simpl. destruct (pages <=? 16); [intros [= <-]; lia|done]. }
  destruct (load_pe_contents demo_firmware X86_64 demo_pe None (lit "Native") img ef
    (mkSummary MACHINE_X86_64 10 4194304 8192 4096 1 PE32_PLUS_MAGIC
       [mkSection 0 4096 16 240 16 true] None 0 0 true)) as [H _].
  - done.
  - vm_compute; congruence.
  - done.
  - done.
  - vm_compute. reflexivity.
  - right. exact I.
  - apply (H [] (mkSection 0 4096 16 240 16 true) []); [reflexivity|constructor].
Defined.

(** Running a loaded image whose entry point returns gives back exactly the
    pages the load allocated, once; one that never returns keeps them. *)
Theorem start_image_balances (fw : Firmware) (target : target_arch) (bytes : list Z)
    (load_options : option (list Z)) (source_backend : list Z) (img : LoadedImage) (ef : list pe_effect)
    (entry : Z -> Z -> option Z) :
  Forall is_byte bytes -> len bytes <= isize_max -> allocations_non_null fw ->
  load_pe fw target bytes load_options source_backend = (Ok img, ef) ->
  ef ++ (start_image entry img).2 =
    [EAlloc (li_image_base img) (li_pages_allocated img);
     EInstall (li_handle img) (li_image_base img) (li_image_size img);
     EEnter (li_entry_point img) (li_handle img)]
    ++ (if entry (li_entry_point img) (li_handle img)
        then [EFree (li_image_base img) (li_pages_allocated img)] else []).
Proof.
  intros Hb Hlen Ha E. pose proof (load_pe_spec fw target bytes load_options source_backend Hb Hlen Ha) as H.
  rewrite E in H. destruct H as (-> & Hbase & Hpages & _).
  unfold start_image, drop_image. destruct (Z.ltb_spec 0 (li_pages_allocated img)); [|lia].
  destruct (Z.eqb_spec (li_image_base img) 0); [lia|].
  by destruct (entry _ _).
Qed.

Lemma start_image_balances_witness :
  exists img ef, load_pe demo_firmware X86_64 demo_pe None (lit "Native") = (Ok img, ef) /\
    ef ++ (start_image (fun _ _ => Some 0) img).2 =
    [EAlloc (li_image_base img) (li_pages_allocated img);
     EInstall (li_handle img) (li_image_base img) (li_image_size img);
     EEnter (li_entry_point img) (li_handle img);
     EFree (li_image_base img) (li_pages_allocated img)].
Proof.
  destruct (load_pe demo_firmware X86_64 demo_pe None (lit "Native")) as [[img|e|] ef] eqn:E;
    [|exfalso; vm_compute in E; discriminate E..].
  exists img, ef. split; [done|].
  apply (start_image_balances demo_firmware X86_64 demo_pe None (lit "Native") img ef (fun _ _ => Some 0)).
  - apply (bool_decide_unpack _); vm_compute; exact I.
  - vm_compute; congruence.
  - intros pages base. simpl. destruct (pages <=? 16); [intros [= <-]; lia|done].
  - done.
Defined.
