(* ===== verification/FsTypes.v ===== *)
(** * Paths and filesystem value types (fs_types.rs)

    [PathBuf] is a newtype of [String]; its values are made by [from_str],
    [parent], [join] and [to_owned].  The specification of a canonical path is
    the rendering of a list of names; [from_str] is related to walking a list
    of segments from the root, and [join] to walking on from a directory. *)
From S2P Require Import Prelude Compare RustStr.
Local Open Scope Z_scope.

Inductive PathError : Type := PathEmpty | NotAbsolute | AboveRoot.

Definition path_error_text (e : PathError) : list Z :=
  match e with
  | PathEmpty => lit "path is empty"
  | NotAbsolute => lit "path is not absolute"
  | AboveRoot => lit "path traverses above root"
  end.

Inductive FileKind : Type := Regular | Directory | Symlink | OtherKind.

#[export] Instance FileKind_eq_dec : EqDecision FileKind.
Proof. solve_decision. Defined.

Record Metadata : Type := mkMetadata {
  md_kind : FileKind;
  md_size : Z;
  md_mode : Z;
  md_read_only : bool;
  md_source_backend : list Z
}.

Record DirEntry : Type := mkDirEntry { de_name : list Z; de_kind : FileKind; de_size : Z }.

(** The loop over [s.split('/')]; the top of [stack] is its first element. *)
Fixpoint path_walk (stack : list (list Z)) (segments : list (list Z)) : option (list (list Z)) :=
  match segments with
  | [] => Some stack
  | seg :: rest =>
      if bool_decide (seg = []) || bool_decide (seg = [c_dot]) then path_walk stack rest
      else if bool_decide (seg = [c_dot; c_dot]) then
        match stack with
        | [] => None
        | _ :: below => path_walk below rest
        end
      else path_walk (seg :: stack) rest
  end.

(** The output loop over the stack, bottom first. *)
Definition path_render (segs : list (list Z)) : list Z :=
  match segs with
  | [] => [c_slash]
  | _ => flat_map (fun seg => c_slash :: seg) segs
  end.

Definition path_from_str (s : str) : res PathError (list Z) :=
  if is_empty s then Err PathEmpty
  else if negb (starts_with [c_slash] s) then Err NotAbsolute
  else match path_walk [] (split_char c_slash s) with
       | None => Err AboveRoot
       | Some stack => Ok (path_render (rev stack))
       end.

Definition path_file_name (p : str) : list Z :=
  match rsplit_once c_slash p with
  | Some (_, last) => last
  | None => []
  end.

Definition path_parent (p : str) : list Z :=
  if bool_decide (p = [c_slash]) then [c_slash]
  else match rsplit_once c_slash p with
       | Some (head, _) => if negb (is_empty head) then head else [c_slash]
       | None => [c_slash]
       end.

Definition path_join (p child : str) : res PathError (list Z) :=
  if starts_with [c_slash] child then path_from_str child
  else
    let combined := if ends_with [c_slash] p then p ++ child else p ++ [c_slash] ++ child in
    path_from_str combined.

(** ** UUIDs *)
Definition uuid_from_fat_serial (serial : Z) : list Z := to_le 4 serial ++ replicate 12 0.

Definition hex_bytes (bs : list Z) : list Z := flat_map (fmt_hex_lower 2) bs.

Definition uuid_display (b : list Z) : list Z :=
  hex_bytes (take 4 b) ++ [c_dash] ++ hex_bytes (take 2 (drop 4 b)) ++ [c_dash]
  ++ hex_bytes (take 2 (drop 6 b)) ++ [c_dash] ++ hex_bytes (take 2 (drop 8 b)) ++ [c_dash]
  ++ hex_bytes (take 6 (drop 10 b)).

(** ** Canonical paths *)
Definition path_name (n : list Z) : Prop :=
  n <> [] /\ n <> [c_dot] /\ n <> [c_dot; c_dot] /\ Forall (fun c => (c_slash =? c) = false) n.

Definition canonical (p : list Z) : Prop := exists ns, Forall path_name ns /\ p = path_render ns.

Lemma path_walk_names (segs stack : list (list Z)) :
  Forall (Forall (fun c => (c_slash =? c) = false)) segs -> Forall path_name stack ->
  match path_walk stack segs with Some st => Forall path_name st | None => True end.
Proof.
  revert stack. induction segs as [|seg segs IH]; intros stack Hs Hst; simpl; [done|].
  apply Forall_cons in Hs as [Hseg Hs].
  destruct (bool_decide_reflect (seg = [])); simpl; [by apply IH|].
  destruct (bool_decide_reflect (seg = [c_dot])); simpl; [by apply IH|].
  destruct (bool_decide_reflect (seg = [c_dot; c_dot])).
  - destruct Hst; [done|]. by apply IH.
  - apply IH; [done|]. by constructor.
Qed.

Lemma path_walk_app (s1 s2 stack : list (list Z)) :
  path_walk stack (s1 ++ s2) =
  match path_walk stack s1 with Some st => path_walk st s2 | None => None end.
Proof.
  revert stack. induction s1 as [|seg s1 IH]; intros stack; simpl; [done|].
  destruct (_ || _); [done|]. destruct (bool_decide _); [|done]. by destruct stack.
Qed.

Lemma path_walk_push (ns stack : list (list Z)) :
  Forall path_name ns -> path_walk stack ns = Some (rev ns ++ stack).
Proof.
  intros H. revert stack. induction H as [|n ns Hn _ IH]; intros stack; simpl; [done|].
  destruct Hn as (H1 & H2 & H3 & _). rewrite !bool_decide_eq_false_2 by done. simpl.
  rewrite IH. by rewrite <- app_assoc.
Qed.

Lemma path_walk_skip_empty (stack segs : list (list Z)) :
  path_walk stack ([] :: segs) = path_walk stack segs.
Proof. done. Qed.

Lemma split_path_render (ns : list (list Z)) :
  Forall path_name ns ->
  split_char c_slash (path_render ns) = match ns with [] => [[]; []] | _ => [] :: ns end.
Proof.
  intros H. destruct H as [|n ns Hn Hns]; [done|].
  unfold path_render, split_char. destruct Hn as (_ & _ & _ & Hn). cbn [flat_map app].
  simpl. f_equal. revert n Hn. induction Hns as [|m ns Hm _ IH]; intros n Hn; simpl.
  - rewrite app_nil_r. by apply split_on_none.
  - destruct Hm as (_ & _ & _ & Hm). rewrite split_on_cons by done. by rewrite IH.
Qed.

Lemma path_render_slash (ns : list (list Z)) : exists r, path_render ns = c_slash :: r.
Proof. destruct ns; simpl; eauto. Qed.

Lemma starts_with_slash (r : list Z) : starts_with [c_slash] (c_slash :: r) = true.
Proof. apply starts_with_spec. by exists r. Qed.

Lemma path_walk_render (ns stack : list (list Z)) :
  Forall path_name ns -> path_walk stack (split_char c_slash (path_render ns)) = Some (rev ns ++ stack).
Proof.
  intros H. rewrite split_path_render by done. destruct ns; [done|].
  rewrite path_walk_skip_empty. by apply path_walk_push.
Qed.

Lemma path_from_str_walk (r : list Z) :
  path_from_str (c_slash :: r) =
  match path_walk [] (split_char c_slash r) with
  | None => Err AboveRoot
  | Some stack => Ok (path_render (rev stack))
  end.
Proof. unfold path_from_str. rewrite starts_with_slash. done. Qed.

Lemma path_from_str_render (ns : list (list Z)) :
  Forall path_name ns -> path_from_str (path_render ns) = Ok (path_render ns).
Proof.
  intros H. pose proof (path_walk_render ns [] H) as Hw. destruct (path_render_slash ns) as [r E].
  rewrite E in *. rewrite path_from_str_walk.
  change (split_char c_slash (c_slash :: r)) with ([] :: split_char c_slash r) in Hw.
  rewrite path_walk_skip_empty in Hw. by rewrite Hw, app_nil_r, rev_involutive, E.
Qed.

Lemma path_from_str_canonical (s p : list Z) : path_from_str s = Ok p -> canonical p.
Proof.
  unfold path_from_str. destruct (is_empty s); [done|]. destruct (negb _); [done|].
  pose proof (path_walk_names (split_char c_slash s) [] (split_on_words _ _) (Forall_nil_2 _)) as H.
  destruct (path_walk _ _) as [st|]; [|done]. intros [= <-]. exists (rev st).
  split; [|done]. by apply Forall_rev.
Qed.

Lemma path_render_inj (ns ms : list (list Z)) :
  Forall path_name ns -> Forall path_name ms -> path_render ns = path_render ms -> ns = ms.
Proof.
  intros Hn Hm E. assert (path_walk [] (split_char c_slash (path_render ns))
    = path_walk [] (split_char c_slash (path_render ms))) as E' by by rewrite E.
  rewrite !path_walk_render, !app_nil_r in E' by done. injection E' as E'.
  by rewrite <- (rev_involutive ns), E', rev_involutive.
Qed.

Lemma path_render_snoc (ns : list (list Z)) (n : list Z) :
  path_render (ns ++ [n]) = (match ns with [] => [] | _ => path_render ns end) ++ c_slash :: n.
Proof.
  destruct ns as [|m ns]; simpl; [by rewrite app_nil_r|].
  rewrite flat_map_app. simpl. by rewrite app_nil_r, <- app_assoc.
Qed.

Lemma rsplit_once_app (l r : list Z) (c : Z) :
  Forall (fun d => (c =? d) = false) r -> rsplit_once c (l ++ c :: r) = Some (l, r).
Proof.
  intros H. unfold rsplit_once. rewrite rfind_char_app by (done || apply Z.eqb_refl).
  by rewrite take_app_length, drop_app_cons.
Qed.

Lemma path_snoc_parts (ns : list (list Z)) (n : list Z) :
  path_name n ->
  path_parent (path_render (ns ++ [n])) = path_render ns /\
  path_file_name (path_render (ns ++ [n])) = n.
Proof.
  intros (H1 & _ & _ & H4). unfold path_parent, path_file_name.
  rewrite path_render_snoc, rsplit_once_app by done. split; [|done].
  destruct ns as [|m ns].
  - simpl. rewrite bool_decide_eq_false_2; [done|]. intros [= ?]. done.
  - rewrite bool_decide_eq_false_2; [done|].
    destruct (path_render_slash (m :: ns)) as [r ->]. intros [= E]. by destruct r.
Qed.

(** How deep a segment takes the walk. *)
Definition seg_depth (seg : list Z) : Z :=
  if decide (seg = [] \/ seg = [c_dot]) then 0 else if decide (seg = [c_dot; c_dot]) then -1 else 1.

Definition depth (segs : list (list Z)) : Z := foldr (fun seg d => seg_depth seg + d) 0 segs.

Lemma path_walk_none (segs stack : list (list Z)) :
  path_walk stack segs = None <-> exists k, len stack + depth (take k segs) < 0.
Proof.
  revert stack. induction segs as [|seg segs IH]; intros stack; simpl.
  { split; [done|]. intros [k Hk]. rewrite take_nil in Hk. simpl in Hk. pose proof (len_nonneg stack). lia. }
  assert (forall stack', len stack' = len stack + seg_depth seg ->
    (path_walk stack' segs = None <-> exists k, len stack + depth (take k (seg :: segs)) < 0)) as Step.
  { intros stack' Hl. rewrite IH. split.
    - intros [k Hk]. exists (S k). simpl. lia.
    - intros [[|k] Hk]; simpl in Hk; [pose proof (len_nonneg stack); lia|]. exists k. lia. }
  unfold seg_depth in Step.
  destruct (bool_decide_reflect (seg = [])), (bool_decide_reflect (seg = [c_dot])); simpl;
    try (apply Step; rewrite decide_True by auto; lia).
  rewrite decide_False in Step by naive_solver.
  destruct (bool_decide_reflect (seg = [c_dot; c_dot])).
  - rewrite decide_True in Step by done. destruct stack as [|x stack].
    + split; [|done]. intros _. exists 1%nat. simpl. unfold seg_depth.
      rewrite decide_False, decide_True by naive_solver. unfold len. simpl. lia.
    + apply Step. rewrite len_cons. lia.
  - rewrite decide_False in Step by done. apply Step. rewrite len_cons. lia.
Qed.

Lemma split_char_join (s child : list Z) :
  split_char c_slash (s ++ [c_slash] ++ child) = split_char c_slash s ++ split_char c_slash child.
Proof.
  unfold split_char. simpl ([c_slash] ++ child). induction s as [|x s IH]; [done|].
  simpl.
  destruct (c_slash =? x); [by rewrite IH|]. rewrite IH.
  pose proof (split_on_nonempty (Z.eqb c_slash) s). by destruct (split_on _ s).
Qed.

Lemma path_join_walk (ns : list (list Z)) (child : list Z) :
  Forall path_name ns -> starts_with [c_slash] child = false ->
  path_join (path_render ns) child =
  match path_walk (rev ns) (split_char c_slash child) with
  | None => Err AboveRoot
  | Some stack => Ok (path_render (rev stack))
  end.
Proof.
  intros Hn Hc. unfold path_join. rewrite Hc.
  destruct (ends_with [c_slash] (path_render ns)) eqn:Ee.
  - assert (ns = []) as ->.
    { destruct ns as [|n ns _] using rev_ind; [done|]. exfalso.
      apply Forall_app in Hn as [_ [(H1 & _ & _ & H4) _]%Forall_cons].
      rewrite path_render_snoc in Ee. apply ends_with_spec in Ee as [r Ee].
      destruct n as [|c n _] using rev_ind; [done|]. apply Forall_app in H4 as [_ [H4 _]%Forall_cons].
      rewrite app_comm_cons, app_assoc in Ee. apply app_inj_tail in Ee as [_ ->]. done. }
    simpl. by rewrite path_from_str_walk.
  - destruct (path_render_slash ns) as [r E]. rewrite E. cbn [app].
    rewrite path_from_str_walk. pose proof (path_walk_render ns [] Hn) as Hw. rewrite E in Hw.
    change (split_char c_slash (c_slash :: r)) with ([] :: split_char c_slash r) in Hw.
    rewrite path_walk_skip_empty in Hw.
    change (r ++ c_slash :: child) with (r ++ [c_slash] ++ child).
    rewrite split_char_join, path_walk_app, Hw, app_nil_r. done.
Qed.

(** [PathBuf::from_str] yields only canonical paths (a list of names, none of
    them empty, [.], [..] or holding a slash), is the identity on canonical
    paths, and fails only as documented: on the empty string, on a relative
    path, or when some prefix of the path has more [..] than names. *)
Theorem path_from_str_correct (s : list Z) :
  match path_from_str s with
  | Ok p => canonical p /\ path_from_str p = Ok p
  | Err PathEmpty => s = []
  | Err NotAbsolute => s <> [] /\ (forall r, s <> c_slash :: r)
  | Err AboveRoot => exists k, depth (take k (split_char c_slash s)) < 0
  | Panic => False
  end.
Proof.
  destruct (path_from_str s) as [p|e|] eqn:E.
  - pose proof (path_from_str_canonical s p E) as Hc. split; [done|].
    destruct Hc as (ns & Hn & ->). by apply path_from_str_render.
  - unfold path_from_str in E. destruct s as [|c r]; [by injection E as <-|]. cbn [is_empty] in E.
    destruct (starts_with [c_slash] (c :: r)) eqn:Es; cbn [negb] in E.
    + destruct (path_walk [] _) eqn:Ew; [done|]. injection E as <-.
      apply path_walk_none in Ew as [k Hk]. exists k. unfold len in Hk. simpl in Hk. lia.
    + injection E as <-. split; [done|]. intros r' [= -> ->]. by rewrite starts_with_slash in Es.
  - unfold path_from_str in E. destruct (is_empty s); [done|]. destruct (negb _); [done|].
    by destruct (path_walk _ _).
Qed.

(** Joining a relative child onto a canonical directory never leaves the
    filesystem: the result is the canonical path reached by walking the
    child's segments from that directory, and the join fails exactly when some
    prefix of the child climbs above the root. *)
Theorem path_join_confined (ns : list (list Z)) (child : list Z) :
  Forall path_name ns -> starts_with [c_slash] child = false ->
  match path_join (path_render ns) child with
  | Ok p => canonical p /\ path_walk (rev ns) (split_char c_slash child) <> None
  | Err e => e = AboveRoot /\ exists k, len ns + depth (take k (split_char c_slash child)) < 0
  | Panic => False
  end.
Proof.
  intros Hn Hc. rewrite path_join_walk by done.
  pose proof (path_walk_names (split_char c_slash child) (rev ns) (split_on_words _ _)
                ltac:(by apply Forall_rev)) as H.
  destruct (path_walk (rev ns) _) as [st|] eqn:Ew.
  - split; [|done]. exists (rev st). split; [by apply Forall_rev|done].
  - split; [done|]. apply path_walk_none in Ew as [k Hk]. exists k.
    unfold len in *. by rewrite length_rev in Hk.
Qed.

Lemma path_join_confined_witness :
  path_join (lit "/boot/loader") (lit "../efi//./x") = Ok (lit "/boot/efi/x") /\
  canonical (lit "/boot/efi/x").
Proof.
  pose proof (path_join_confined [lit "boot"; lit "loader"] (lit "../efi//./x")) as H.
  assert (Forall path_name [lit "boot"; lit "loader"]) as Hn.
  { repeat constructor; vm_compute; try discriminate; repeat constructor. }
  specialize (H Hn eq_refl).
  change (path_join (path_render [lit "boot"; lit "loader"]) (lit "../efi//./x"))
    with (Ok (E:=PathError) (lit "/boot/efi/x")) in H.
  split; [vm_compute; reflexivity|apply H].
Defined.

(** A canonical path other than the root is its parent joined with its file
    name, its parent is canonical, and its file name is a plain name. *)
Theorem path_parent_file_name (p : list Z) :
  canonical p -> p <> [c_slash] ->
  canonical (path_parent p) /\ path_name (path_file_name p) /\
  path_join (path_parent p) (path_file_name p) = Ok p.
Proof.
  intros (ns & Hn & ->) Hroot. destruct ns as [|n ns _] using rev_ind; [done|].
  apply Forall_app in Hn as [Hns [Hn _]%Forall_cons].
  destruct (path_snoc_parts ns n Hn) as [-> ->]. split_and!; [by exists ns|done|].
  assert (Hn' := Hn). destruct Hn' as (H1 & H2 & H3 & H4).
  rewrite path_join_walk; [|done|].
  - unfold split_char. rewrite split_on_none by done. simpl.
    rewrite !bool_decide_eq_false_2 by done. simpl. by rewrite rev_involutive.
  - apply not_true_iff_false. rewrite starts_with_spec. intros [r ->].
    by apply Forall_cons in H4 as [? _].
Qed.

Lemma path_parent_file_name_witness :
  path_join (path_parent (lit "/EFI/Linux/arch.efi")) (path_file_name (lit "/EFI/Linux/arch.efi"))
  = Ok (lit "/EFI/Linux/arch.efi").
Proof.
  apply (path_parent_file_name (lit "/EFI/Linux/arch.efi")).
  - exists [lit "EFI"; lit "Linux"; lit "arch.efi"]. split; [|reflexivity].
    repeat constructor; vm_compute; try discriminate; repeat constructor.
  - vm_compute. discriminate.
Defined.
