(* ===== verification/BootTypes.v ===== *)
(** * Boot entries and preflight results (boot_types.rs) *)
From S2P Require Import Prelude RustStr.
Local Open Scope Z_scope.

Inductive IsoSource : Type :=
  | IsoFile (iso_path : list Z)
  | IsoOptical (handle : Z) (label : list Z).

Inductive EntryKind : Type :=
  | Chainload (path : list Z)
  | Uki (path options : list Z)
  | LinuxLegacy (kernel_path : list Z) (initrd_paths : list (list Z)) (options : list Z)
  | Iso (source : IsoSource).

Inductive Icon : Type := IconWindows | IconLinux | IconEfi | IconRecovery | IconNetwork | IconTools.

Inductive Severity : Type := SevOk | SevWarning | SevError.

Inductive PreflightStatus : Type := PfOk | PfWarning | PfError.

#[export] Instance Severity_eq_dec : EqDecision Severity.
Proof. solve_decision. Defined.

#[export] Instance Icon_eq_dec : EqDecision Icon.
Proof. solve_decision. Defined.

Record CheckResult : Type := mkCheck { ck_severity : Severity; ck_message : list Z }.

Record PreflightResult : Type := mkPreflight {
  pf_status : PreflightStatus;
  pf_checks : list CheckResult
}.

Record BootEntry : Type := mkBoot {
  be_id : list Z;
  be_name : list Z;
  be_kind : EntryKind;
  be_icon : Icon;
  be_bls_filename : option (list Z);
  be_preflight : option PreflightResult;
  be_source_volume_index : nat;
  be_source_backend_tag : list Z
}.

Definition has_severity (s : Severity) (c : CheckResult) : bool := bool_decide (ck_severity c = s).

(** [PreflightResult::from_checks] *)
Definition from_checks (checks : list CheckResult) : PreflightResult :=
  let status :=
    if existsb (has_severity SevError) checks then PfError
    else if existsb (has_severity SevWarning) checks then PfWarning
    else PfOk in
  mkPreflight status checks.

Definition first_issue (r : PreflightResult) : option CheckResult :=
  List.find (fun c => negb (has_severity SevOk c)) (pf_checks r).

(** The tag and index a caller stamps on the entries of one volume. *)
Definition stamp_source (index : nat) (tag : list Z) (e : BootEntry) : BootEntry :=
  mkBoot (be_id e) (be_name e) (be_kind e) (be_icon e) (be_bls_filename e) (be_preflight e) index tag.

(** ** The severity order *)
Definition severity_rank (s : Severity) : nat :=
  match s with SevOk => 0 | SevWarning => 1 | SevError => 2 end.

Definition status_rank (s : PreflightStatus) : nat :=
  match s with PfOk => 0 | PfWarning => 1 | PfError => 2 end.

Definition worst (checks : list CheckResult) : nat :=
  foldr (fun c r => Nat.max (severity_rank (ck_severity c)) r) 0%nat checks.

Lemma from_checks_worst (checks : list CheckResult) :
  status_rank (pf_status (from_checks checks)) = worst checks.
Proof.
  unfold from_checks, worst. induction checks as [|[s m] checks IH]; [done|]. simpl in *.
  unfold has_severity at 1 3. cbn [ck_severity].
  destruct s; simpl; revert IH; destruct (existsb (has_severity SevError) checks),
    (existsb (has_severity SevWarning) checks); simpl; intros <-; done.
Qed.
