(* ===== verification/Policy.v ===== *)
(** * Policy: configuration, floor, path rules and the default entry (policy.rs)

    The policy file is read line by line with the current section as loop
    state; each [key = value] line updates one field of [Policy].
    [path_matches_pattern] lowers both strings with [to_lowercase], which is
    exact for ASCII here, so the theorems on path rules are about ASCII paths
    and patterns. *)
From S2P Require Import Prelude Compare RustStr VersionOrder BlsParse BootTypes.
Local Open Scope Z_scope.

Definition DEFAULT_TIMEOUT_MS : Z := 5000.
Definition DEFAULT_CRASH_THRESHOLD : Z := 3.
Definition MAX_CRASH_THRESHOLD : Z := 10.
Definition MAX_WATCHDOG_GRACE_SECONDS : Z := 300.
Definition FLOOR_REQUIRE_SECURE_BOOT : bool := false.
Definition FLOOR_REQUIRE_MEASURED_BOOT : bool := false.

Inductive FontSize : Type := FontSmall | FontMedium | FontLarge.
Inductive DriversLegacyMode : Type := DriversAuto | DriversAlways | DriversNever.
Inductive LoaderNativePeMode : Type := NativeAuto | NativeAlways | NativeNever.

Definition DriversLegacyMode_parse (s : str) : DriversLegacyMode :=
  let l := to_lowercase s in
  if bool_decide (l = lit "auto") then DriversAuto
  else if bool_decide (l = lit "always") then DriversAlways
  else if bool_decide (l = lit "never") then DriversNever
  else DriversAuto.

Definition LoaderNativePeMode_parse (s : str) : LoaderNativePeMode :=
  let l := to_lowercase s in
  if bool_decide (l = lit "auto") then NativeAuto
  else if bool_decide (l = lit "always") then NativeAlways
  else if bool_decide (l = lit "never") then NativeNever
  else NativeAuto.

Definition LoaderNativePeMode_as_log_token (m : LoaderNativePeMode) : list Z :=
  match m with
  | NativeAuto => lit "auto"
  | NativeAlways => lit "always"
  | NativeNever => lit "never"
  end.

Record Policy : Type := mkPolicy {
  version : Z;
  default_timeout_ms : Z;
  default_entry : option (list Z);
  default_pattern : option (list Z);
  bls_ignore_sort_key : bool;
  secure_boot_required : bool;
  measured_boot : bool;
  fallback_order : list (list Z);
  allowlist : list (list Z);
  denylist : list (list Z);
  ui_theme : list Z;
  ui_font_size : FontSize;
  watchdog_enabled : bool;
  watchdog_grace_seconds : Z;
  crash_threshold : Z;
  modules_enabled : bool;
  drivers_legacy : DriversLegacyMode;
  loader_native_pe : LoaderNativePeMode;
  diagnostics_verbose : bool;
  iso_enabled : bool;
  iso_optical_enabled : bool;
  self_install_boot_entry : bool
}.

(** [Default for Policy] *)
Definition default_policy : Policy := {|
  version := 1;
  default_timeout_ms := DEFAULT_TIMEOUT_MS;
  default_entry := None;
  default_pattern := None;
  bls_ignore_sort_key := false;
  secure_boot_required := false;
  measured_boot := true;
  fallback_order := [];
  allowlist := [];
  denylist := [];
  ui_theme := lit "default";
  ui_font_size := FontMedium;
  watchdog_enabled := true;
  watchdog_grace_seconds := 15;
  crash_threshold := DEFAULT_CRASH_THRESHOLD;
  modules_enabled := true;
  drivers_legacy := DriversAuto;
  loader_native_pe := NativeAuto;
  diagnostics_verbose := false;
  iso_enabled := false;
  iso_optical_enabled := false;
  self_install_boot_entry := true
|}.

(** ** Field updates: [policy.field = value] *)
Definition set_version (v : Z) (p : Policy) : Policy :=
  mkPolicy v (default_timeout_ms p) (default_entry p) (default_pattern p) (bls_ignore_sort_key p)
    (secure_boot_required p) (measured_boot p) (fallback_order p) (allowlist p) (denylist p)
    (ui_theme p) (ui_font_size p) (watchdog_enabled p) (watchdog_grace_seconds p)
    (crash_threshold p) (modules_enabled p) (drivers_legacy p) (loader_native_pe p)
    (diagnostics_verbose p) (iso_enabled p) (iso_optical_enabled p) (self_install_boot_entry p).

Definition set_default_timeout_ms (v : Z) (p : Policy) : Policy :=
  mkPolicy (version p) v (default_entry p) (default_pattern p) (bls_ignore_sort_key p)
    (secure_boot_required p) (measured_boot p) (fallback_order p) (allowlist p) (denylist p)
    (ui_theme p) (ui_font_size p) (watchdog_enabled p) (watchdog_grace_seconds p)
    (crash_threshold p) (modules_enabled p) (drivers_legacy p) (loader_native_pe p)
    (diagnostics_verbose p) (iso_enabled p) (iso_optical_enabled p) (self_install_boot_entry p).

Definition set_default_entry (v : option (list Z)) (p : Policy) : Policy :=
  mkPolicy (version p) (default_timeout_ms p) v (default_pattern p) (bls_ignore_sort_key p)
    (secure_boot_required p) (measured_boot p) (fallback_order p) (allowlist p) (denylist p)
    (ui_theme p) (ui_font_size p) (watchdog_enabled p) (watchdog_grace_seconds p)
    (crash_threshold p) (modules_enabled p) (drivers_legacy p) (loader_native_pe p)
    (diagnostics_verbose p) (iso_enabled p) (iso_optical_enabled p) (self_install_boot_entry p).

Definition set_default_pattern (v : option (list Z)) (p : Policy) : Policy :=
  mkPolicy (version p) (default_timeout_ms p) (default_entry p) v (bls_ignore_sort_key p)
    (secure_boot_required p) (measured_boot p) (fallback_order p) (allowlist p) (denylist p)
    (ui_theme p) (ui_font_size p) (watchdog_enabled p) (watchdog_grace_seconds p)
    (crash_threshold p) (modules_enabled p) (drivers_legacy p) (loader_native_pe p)
    (diagnostics_verbose p) (iso_enabled p) (iso_optical_enabled p) (self_install_boot_entry p).

Definition set_bls_ignore_sort_key (v : bool) (p : Policy) : Policy :=
  mkPolicy (version p) (default_timeout_ms p) (default_entry p) (default_pattern p) v
    (secure_boot_required p) (measured_boot p) (fallback_order p) (allowlist p) (denylist p)
    (ui_theme p) (ui_font_size p) (watchdog_enabled p) (watchdog_grace_seconds p)
    (crash_threshold p) (modules_enabled p) (drivers_legacy p) (loader_native_pe p)
    (diagnostics_verbose p) (iso_enabled p) (iso_optical_enabled p) (self_install_boot_entry p).

Definition set_secure_boot_required (v : bool) (p : Policy) : Policy :=
  mkPolicy (version p) (default_timeout_ms p) (default_entry p) (default_pattern p)
    (bls_ignore_sort_key p) v (measured_boot p) (fallback_order p) (allowlist p) (denylist p)
    (ui_theme p) (ui_font_size p) (watchdog_enabled p) (watchdog_grace_seconds p)
    (crash_threshold p) (modules_enabled p) (drivers_legacy p) (loader_native_pe p)
    (diagnostics_verbose p) (iso_enabled p) (iso_optical_enabled p) (self_install_boot_entry p).

Definition set_measured_boot (v : bool) (p : Policy) : Policy :=
  mkPolicy (version p) (default_timeout_ms p) (default_entry p) (default_pattern p)
    (bls_ignore_sort_key p) (secure_boot_required p) v (fallback_order p) (allowlist p) (denylist p)
    (ui_theme p) (ui_font_size p) (watchdog_enabled p) (watchdog_grace_seconds p)
    (crash_threshold p) (modules_enabled p) (drivers_legacy p) (loader_native_pe p)
    (diagnostics_verbose p) (iso_enabled p) (iso_optical_enabled p) (self_install_boot_entry p).

Definition set_fallback_order (v : list (list Z)) (p : Policy) : Policy :=
  mkPolicy (version p) (default_timeout_ms p) (default_entry p) (default_pattern p)
    (bls_ignore_sort_key p) (secure_boot_required p) (measured_boot p) v (allowlist p) (denylist p)
    (ui_theme p) (ui_font_size p) (watchdog_enabled p) (watchdog_grace_seconds p)
    (crash_threshold p) (modules_enabled p) (drivers_legacy p) (loader_native_pe p)
    (diagnostics_verbose p) (iso_enabled p) (iso_optical_enabled p) (self_install_boot_entry p).

Definition set_allowlist (v : list (list Z)) (p : Policy) : Policy :=
  mkPolicy (version p) (default_timeout_ms p) (default_entry p) (default_pattern p)
    (bls_ignore_sort_key p) (secure_boot_required p) (measured_boot p) (fallback_order p) v
    (denylist p) (ui_theme p) (ui_font_size p) (watchdog_enabled p) (watchdog_grace_seconds p)
    (crash_threshold p) (modules_enabled p) (drivers_legacy p) (loader_native_pe p)
    (diagnostics_verbose p) (iso_enabled p) (iso_optical_enabled p) (self_install_boot_entry p).

Definition set_denylist (v : list (list Z)) (p : Policy) : Policy :=
  mkPolicy (version p) (default_timeout_ms p) (default_entry p) (default_pattern p)
    (bls_ignore_sort_key p) (secure_boot_required p) (measured_boot p) (fallback_order p)
    (allowlist p) v (ui_theme p) (ui_font_size p) (watchdog_enabled p) (watchdog_grace_seconds p)
    (crash_threshold p) (modules_enabled p) (drivers_legacy p) (loader_native_pe p)
    (diagnostics_verbose p) (iso_enabled p) (iso_optical_enabled p) (self_install_boot_entry p).

Definition set_ui_theme (v : list Z) (p : Policy) : Policy :=
  mkPolicy (version p) (default_timeout_ms p) (default_entry p) (default_pattern p)
    (bls_ignore_sort_key p) (secure_boot_required p) (measured_boot p) (fallback_order p)
    (allowlist p) (denylist p) v (ui_font_size p) (watchdog_enabled p) (watchdog_grace_seconds p)
    (crash_threshold p) (modules_enabled p) (drivers_legacy p) (loader_native_pe p)
    (diagnostics_verbose p) (iso_enabled p) (iso_optical_enabled p) (self_install_boot_entry p).

Definition set_ui_font_size (v : FontSize) (p : Policy) : Policy :=
  mkPolicy (version p) (default_timeout_ms p) (default_entry p) (default_pattern p)
    (bls_ignore_sort_key p) (secure_boot_required p) (measured_boot p) (fallback_order p)
    (allowlist p) (denylist p) (ui_theme p) v (watchdog_enabled p) (watchdog_grace_seconds p)
    (crash_threshold p) (modules_enabled p) (drivers_legacy p) (loader_native_pe p)
    (diagnostics_verbose p) (iso_enabled p) (iso_optical_enabled p) (self_install_boot_entry p).

Definition set_watchdog_enabled (v : bool) (p : Policy) : Policy :=
  mkPolicy (version p) (default_timeout_ms p) (default_entry p) (default_pattern p)
    (bls_ignore_sort_key p) (secure_boot_required p) (measured_boot p) (fallback_order p)
    (allowlist p) (denylist p) (ui_theme p) (ui_font_size p) v (watchdog_grace_seconds p)
    (crash_threshold p) (modules_enabled p) (drivers_legacy p) (loader_native_pe p)
    (diagnostics_verbose p) (iso_enabled p) (iso_optical_enabled p) (self_install_boot_entry p).

Definition set_watchdog_grace_seconds (v : Z) (p : Policy) : Policy :=
  mkPolicy (version p) (default_timeout_ms p) (default_entry p) (default_pattern p)
    (bls_ignore_sort_key p) (secure_boot_required p) (measured_boot p) (fallback_order p)
    (allowlist p) (denylist p) (ui_theme p) (ui_font_size p) (watchdog_enabled p) v
    (crash_threshold p) (modules_enabled p) (drivers_legacy p) (loader_native_pe p)
    (diagnostics_verbose p) (iso_enabled p) (iso_optical_enabled p) (self_install_boot_entry p).

Definition set_crash_threshold (v : Z) (p : Policy) : Policy :=
  mkPolicy (version p) (default_timeout_ms p) (default_entry p) (default_pattern p)
    (bls_ignore_sort_key p) (secure_boot_required p) (measured_boot p) (fallback_order p)
    (allowlist p) (denylist p) (ui_theme p) (ui_font_size p) (watchdog_enabled p)
    (watchdog_grace_seconds p) v (modules_enabled p) (drivers_legacy p) (loader_native_pe p)
    (diagnostics_verbose p) (iso_enabled p) (iso_optical_enabled p) (self_install_boot_entry p).

Definition set_modules_enabled (v : bool) (p : Policy) : Policy :=
  mkPolicy (version p) (default_timeout_ms p) (default_entry p) (default_pattern p)
    (bls_ignore_sort_key p) (secure_boot_required p) (measured_boot p) (fallback_order p)
    (allowlist p) (denylist p) (ui_theme p) (ui_font_size p) (watchdog_enabled p)
    (watchdog_grace_seconds p) (crash_threshold p) v (drivers_legacy p) (loader_native_pe p)
    (diagnostics_verbose p) (iso_enabled p) (iso_optical_enabled p) (self_install_boot_entry p).

Definition set_drivers_legacy (v : DriversLegacyMode) (p : Policy) : Policy :=
  mkPolicy (version p) (default_timeout_ms p) (default_entry p) (default_pattern p)
    (bls_ignore_sort_key p) (secure_boot_required p) (measured_boot p) (fallback_order p)
    (allowlist p) (denylist p) (ui_theme p) (ui_font_size p) (watchdog_enabled p)
    (watchdog_grace_seconds p) (crash_threshold p) (modules_enabled p) v (loader_native_pe p)
    (diagnostics_verbose p) (iso_enabled p) (iso_optical_enabled p) (self_install_boot_entry p).

Definition set_loader_native_pe (v : LoaderNativePeMode) (p : Policy) : Policy :=
  mkPolicy (version p) (default_timeout_ms p) (default_entry p) (default_pattern p)
    (bls_ignore_sort_key p) (secure_boot_required p) (measured_boot p) (fallback_order p)
    (allowlist p) (denylist p) (ui_theme p) (ui_font_size p) (watchdog_enabled p)
    (watchdog_grace_seconds p) (crash_threshold p) (modules_enabled p) (drivers_legacy p) v
    (diagnostics_verbose p) (iso_enabled p) (iso_optical_enabled p) (self_install_boot_entry p).

Definition set_diagnostics_verbose (v : bool) (p : Policy) : Policy :=
  mkPolicy (version p) (default_timeout_ms p) (default_entry p) (default_pattern p)
    (bls_ignore_sort_key p) (secure_boot_required p) (measured_boot p) (fallback_order p)
    (allowlist p) (denylist p) (ui_theme p) (ui_font_size p) (watchdog_enabled p)
    (watchdog_grace_seconds p) (crash_threshold p) (modules_enabled p) (drivers_legacy p)
    (loader_native_pe p) v (iso_enabled p) (iso_optical_enabled p) (self_install_boot_entry p).

Definition set_iso_enabled (v : bool) (p : Policy) : Policy :=
  mkPolicy (version p) (default_timeout_ms p) (default_entry p) (default_pattern p)
    (bls_ignore_sort_key p) (secure_boot_required p) (measured_boot p) (fallback_order p)
    (allowlist p) (denylist p) (ui_theme p) (ui_font_size p) (watchdog_enabled p)
    (watchdog_grace_seconds p) (crash_threshold p) (modules_enabled p) (drivers_legacy p)
    (loader_native_pe p) (diagnostics_verbose p) v (iso_optical_enabled p)
    (self_install_boot_entry p).

Definition set_iso_optical_enabled (v : bool) (p : Policy) : Policy :=
  mkPolicy (version p) (default_timeout_ms p) (default_entry p) (default_pattern p)
    (bls_ignore_sort_key p) (secure_boot_required p) (measured_boot p) (fallback_order p)
    (allowlist p) (denylist p) (ui_theme p) (ui_font_size p) (watchdog_enabled p)
    (watchdog_grace_seconds p) (crash_threshold p) (modules_enabled p) (drivers_legacy p)
    (loader_native_pe p) (diagnostics_verbose p) (iso_enabled p) v (self_install_boot_entry p).

Definition set_self_install_boot_entry (v : bool) (p : Policy) : Policy :=
  mkPolicy (version p) (default_timeout_ms p) (default_entry p) (default_pattern p)
    (bls_ignore_sort_key p) (secure_boot_required p) (measured_boot p) (fallback_order p)
    (allowlist p) (denylist p) (ui_theme p) (ui_font_size p) (watchdog_enabled p)
    (watchdog_grace_seconds p) (crash_threshold p) (modules_enabled p) (drivers_legacy p)
    (loader_native_pe p) (diagnostics_verbose p) (iso_enabled p) (iso_optical_enabled p) v.

(** ** Path rules *)
Definition path_matches_pattern (path pattern : str) : bool :=
  if bool_decide (pattern = [c_star]) then true
  else
    let path_lower := to_lowercase path in
    let pattern_lower := to_lowercase pattern in
    if negb (contains_char c_star pattern_lower) then bool_decide (path_lower = pattern_lower)
    else if starts_with [c_star] pattern_lower && ends_with [c_star] pattern_lower then
      let middle := take (length pattern_lower - 2) (drop 1 pattern_lower) in
      contains middle path_lower
    else match strip_prefix [c_star] pattern_lower with
         | Some suffix => ends_with suffix path_lower
         | None =>
             if ends_with [c_star] pattern_lower
             then starts_with (take (length pattern_lower - 1) pattern_lower) path_lower
             else bool_decide (path_lower = pattern_lower)
         end.

Definition rule_matches (path pattern : str) : bool :=
  if contains_char c_star pattern then path_matches_pattern path pattern
  else eq_ignore_ascii_case path pattern.

Definition is_denied (p : Policy) (path : str) : bool := existsb (rule_matches path) (denylist p).

Definition allowed (p : Policy) (path : str) : bool :=
  if bool_decide (allowlist p = []) then negb (is_denied p path)
  else existsb (rule_matches path) (allowlist p) && negb (is_denied p path).

(** ** The compiled-in floor *)
Record PolicyClampReport : Type := mkClamp {
  clamp_field : string;
  clamp_esp_value : list Z;
  clamp_floor_value : list Z
}.

Definition apply_policy_floor (p : Policy) : Policy * list PolicyClampReport :=
  let '(p, r) :=
    if MAX_CRASH_THRESHOLD <? crash_threshold p
    then (set_crash_threshold MAX_CRASH_THRESHOLD p,
          [mkClamp "crash_threshold" (fmt_dec (crash_threshold p)) (fmt_dec MAX_CRASH_THRESHOLD)])
    else (p, []) in
  let '(p, r) :=
    if MAX_WATCHDOG_GRACE_SECONDS <? watchdog_grace_seconds p
    then (set_watchdog_grace_seconds MAX_WATCHDOG_GRACE_SECONDS p,
          r ++ [mkClamp "watchdog_grace_seconds" (fmt_dec (watchdog_grace_seconds p))
                        (fmt_dec MAX_WATCHDOG_GRACE_SECONDS)])
    else (p, r) in
  let '(p, r) :=
    if FLOOR_REQUIRE_SECURE_BOOT && negb (secure_boot_required p)
    then (set_secure_boot_required true p,
          r ++ [mkClamp "secure_boot_required" (lit "false") (lit "true")])
    else (p, r) in
  if FLOOR_REQUIRE_MEASURED_BOOT && negb (measured_boot p)
  then (set_measured_boot true p, r ++ [mkClamp "measured_boot" (lit "false") (lit "true")])
  else (p, r).

(** ** The policy file *)
Definition parse_toml_array (raw : str) : list (list Z) :=
  let raw := trim raw in
  let inner :=
    if starts_with [c_lbracket] raw && ends_with [c_rbracket] raw
    then take (length raw - 2) (drop 1 raw) else raw in
  List.filter (fun s => negb (is_empty s))
    ((fun s => trim_matches c_squote (trim_matches c_quote (trim s))) <$> split_char c_comma inner).

Definition is_true (value : str) : bool := bool_decide (value = lit "true").

(** [if let Ok(v) = value.parse() { field = v }] *)
Definition set_parsed (max : Z) (set : Z -> Policy -> Policy) (value : str) (p : Policy) : Policy :=
  match parse_uint max value with Some v => set v p | None => p end.

Definition parse_font_size (value : str) : FontSize :=
  if bool_decide (value = lit "small") then FontSmall
  else if bool_decide (value = lit "large") then FontLarge
  else FontMedium.

Definition apply_config_value (key raw_value : str) (p : Policy) : Policy :=
  let value := trim_matches c_quote raw_value in
  if bool_decide (key = lit "version") then set_parsed u32_max set_version value p
  else if bool_decide (key = lit "default_timeout_ms")
    then set_parsed u32_max set_default_timeout_ms value p
  else if bool_decide (key = lit "default_entry") then set_default_entry (Some value) p
  else if bool_decide (key = lit "default_pattern") then set_default_pattern (Some value) p
  else if bool_decide (key = lit "bls_ignore_sort_key")
    then set_bls_ignore_sort_key (is_true value) p
  else if bool_decide (key = lit "security.secure_boot_required")
    then set_secure_boot_required (is_true value) p
  else if bool_decide (key = lit "security.measured_boot") then set_measured_boot (is_true value) p
  else if bool_decide (key = lit "security.crash_threshold")
    then set_parsed u8_max set_crash_threshold value p
  else if bool_decide (key = lit "security.fallback_order")
    then set_fallback_order (parse_toml_array raw_value) p
  else if bool_decide (key = lit "security.allowlist") then set_allowlist (parse_toml_array raw_value) p
  else if bool_decide (key = lit "security.denylist") then set_denylist (parse_toml_array raw_value) p
  else if bool_decide (key = lit "ui.theme") then set_ui_theme value p
  else if bool_decide (key = lit "ui.font_size") then set_ui_font_size (parse_font_size value) p
  else if bool_decide (key = lit "watchdog.enabled") then set_watchdog_enabled (is_true value) p
  else if bool_decide (key = lit "watchdog.grace_seconds")
    then set_parsed u32_max set_watchdog_grace_seconds value p
  else if bool_decide (key = lit "modules.enabled") then set_modules_enabled (is_true value) p
  else if bool_decide (key = lit "drivers.legacy_uefi_drivers")
    then set_drivers_legacy (DriversLegacyMode_parse value) p
  else if bool_decide (key = lit "loader.native_pe")
    then set_loader_native_pe (LoaderNativePeMode_parse value) p
  else if bool_decide (key = lit "diagnostics.verbose") then set_diagnostics_verbose (is_true value) p
  else if bool_decide (key = lit "boot-from-iso.enabled") then set_iso_enabled (is_true value) p
  else if bool_decide (key = lit "boot-from-iso.optical") then set_iso_optical_enabled (is_true value) p
  else if bool_decide (key = lit "boot-entry.self_install")
    then set_self_install_boot_entry (negb (bool_decide (value = lit "false"))) p
  else p.

(** One line: the state is the policy and the current section. *)
Definition policy_line (st : Policy * list Z) (line : str) : Policy * list Z :=
  let '(p, current_section) := st in
  let line := trim line in
  if is_empty line || starts_with [c_hash] line then (p, current_section)
  else if starts_with [c_lbracket] line then
    match rfind_char (Z.eqb c_rbracket) line with
    | Some end_ => (p, trim (take (end_ - 1) (drop 1 line)))
    | None => (p, current_section)
    end
  else match split_once c_equals line with
       | Some (key, value) =>
           let key := trim key in
           let value := trim value in
           let qualified := if is_empty current_section then key
                            else current_section ++ [c_dot] ++ key in
           (apply_config_value qualified value p, current_section)
       | None => (p, current_section)
       end.

Definition parse_policy_toml (toml : str) : Policy :=
  fst (foldl policy_line (default_policy, []) (lines toml)).

(** [load_policy]: [content] is what reading the policy file returned. *)
Definition load_policy {E : Type} (content : res E (list Z)) : res E (Policy * list PolicyClampReport) :=
  let? content := content in
  Ok (apply_policy_floor (parse_policy_toml content)).

(** ** The default entry *)
Fixpoint best_match (entries : list BootEntry) (pattern : str) (eligible : list nat)
    (best : option (nat * list Z)) : res False (option (nat * list Z)) :=
  match eligible with
  | [] => Ok best
  | idx :: rest =>
      let? entry := index (Z.of_nat idx) entries in
      let best :=
        if path_matches_pattern (be_id entry) pattern then
          let pick := match best with
                      | None => true
                      | Some (_, current_best_id) =>
                          bool_decide (version_compare (be_id entry) current_best_id = Gt)
                      end in
          if pick then Some (idx, be_id entry) else best
        else best in
      best_match entries pattern rest best
  end.

Fixpoint exact_match (entries : list BootEntry) (default_id : str) (eligible : list nat)
    : res False (option nat) :=
  match eligible with
  | [] => Ok None
  | idx :: rest =>
      let? entry := index (Z.of_nat idx) entries in
      if bool_decide (be_id entry = default_id) then Ok (Some idx)
      else exact_match entries default_id rest
  end.

Definition select_default_entry (entries : list BootEntry) (boot_eligible : list nat) (p : Policy)
    : res False (option nat) :=
  let? by_pattern :=
    match default_pattern p with
    | Some pattern => best_match entries pattern boot_eligible None
    | None => Ok None
    end in
  match by_pattern with
  | Some (idx, _) => Ok (Some idx)
  | None =>
      match default_entry p with
      | Some default_id => exact_match entries default_id boot_eligible
      | None => Ok None
      end
  end.

(** ** The floor *)
Definition clamp_entry (field : string) (value limit : Z) : list PolicyClampReport :=
  if limit <? value then [mkClamp field (fmt_dec value) (fmt_dec limit)] else [].

Lemma apply_policy_floor_eq (p : Policy) :
  apply_policy_floor p =
  (set_crash_threshold (Z.min (crash_threshold p) MAX_CRASH_THRESHOLD)
     (set_watchdog_grace_seconds (Z.min (watchdog_grace_seconds p) MAX_WATCHDOG_GRACE_SECONDS) p),
   clamp_entry "crash_threshold" (crash_threshold p) MAX_CRASH_THRESHOLD
   ++ clamp_entry "watchdog_grace_seconds" (watchdog_grace_seconds p) MAX_WATCHDOG_GRACE_SECONDS).
Proof.
  unfold apply_policy_floor, clamp_entry. simpl.
  destruct (Z.ltb_spec MAX_CRASH_THRESHOLD (crash_threshold p)); simpl;
    destruct (Z.ltb_spec MAX_WATCHDOG_GRACE_SECONDS (watchdog_grace_seconds p)); simpl;
    rewrite ?(Z.min_l (crash_threshold p)), ?(Z.min_r (crash_threshold p)) by lia;
    rewrite ?(Z.min_l (watchdog_grace_seconds p)), ?(Z.min_r (watchdog_grace_seconds p)) by lia;
    destruct p; done.
Qed.

(** ** Assignments of a policy file *)
(** The qualified keys and values of the file, in order. *)
Fixpoint assignments (section : list Z) (ls : list (list Z)) : list (list Z * list Z) :=
  match ls with
  | [] => []
  | l :: ls' =>
      let l := trim l in
      if is_empty l || starts_with [c_hash] l then assignments section ls'
      else if starts_with [c_lbracket] l then
        match rfind_char (Z.eqb c_rbracket) l with
        | Some e => assignments (trim (take (e - 1) (drop 1 l))) ls'
        | None => assignments section ls'
        end
      else match split_once c_equals l with
           | Some (k, v) =>
               ((if is_empty section then trim k else section ++ [c_dot] ++ trim k), trim v)
               :: assignments section ls'
           | None => assignments section ls'
           end
  end.

Lemma fold_policy_line (ls : list (list Z)) (p : Policy) (section : list Z) :
  fst (foldl policy_line (p, section) ls) =
  foldl (fun p kv => apply_config_value kv.1 kv.2 p) p (assignments section ls).
Proof.
  revert p section. induction ls as [|l ls IH]; intros p section; [done|].
  cbn [foldl assignments]. unfold policy_line at 2. cbv zeta.
  destruct (_ || _); [apply IH|]. destruct (starts_with _ _).
  - destruct (rfind_char _ _); apply IH.
  - destruct (split_once _ _) as [[k v]|]; apply IH.
Qed.

(** The last value assigned to a key. *)
Definition last_value (k : list Z) (l : list (list Z * list Z)) : option (list Z) :=
  snd <$> last (filter (fun kv => kv.1 = k) l).

Lemma fold_last_value {A : Type} (get : Policy -> A) (k : list Z) (f : list Z -> A) :
  (forall key v p, get (apply_config_value key v p) = if bool_decide (key = k) then f v else get p) ->
  forall l p, get (foldl (fun p kv => apply_config_value kv.1 kv.2 p) p l) =
    match last_value k l with Some v => f v | None => get p end.
Proof.
  intros H l. unfold last_value. induction l as [|[key v] l IH] using rev_ind; intros p; [done|].
  rewrite foldl_app. simpl. rewrite H. rewrite filter_app, filter_cons, filter_nil. simpl.
  destruct (decide (key = k)) as [->|Hne].
  - rewrite bool_decide_eq_true_2 by done. by rewrite last_snoc.
  - rewrite bool_decide_eq_false_2 by done. by rewrite app_nil_r, IH.
Qed.

(** Case analysis over the keys [apply_config_value] knows. *)
Ltac key_decided :=
  match goal with |- context [bool_decide (lit ?s = lit ?t)] =>
    let b := eval vm_compute in (bool_decide (lit s = lit t)) in
    change (bool_decide (lit s = lit t)) with b
  end.

Ltac config_cases :=
  let key := fresh "key" in
  intros key ? ?; unfold apply_config_value, set_parsed; cbv zeta;
  repeat (match goal with |- context [bool_decide (key = lit ?s)] =>
            destruct (bool_decide_reflect (key = lit s)) as [->|] end;
          [repeat key_decided; cbn iota; try done; repeat case_match; done|]);
  done.

Lemma config_secure_boot (key v : list Z) (p : Policy) :
  secure_boot_required (apply_config_value key v p) =
  if bool_decide (key = lit "security.secure_boot_required")
  then is_true (trim_matches c_quote v) else secure_boot_required p.
Proof. revert key v p. config_cases. Qed.

Lemma config_measured_boot (key v : list Z) (p : Policy) :
  measured_boot (apply_config_value key v p) =
  if bool_decide (key = lit "security.measured_boot")
  then is_true (trim_matches c_quote v) else measured_boot p.
Proof. revert key v p. config_cases. Qed.

Lemma config_allowlist (key v : list Z) (p : Policy) :
  allowlist (apply_config_value key v p) =
  if bool_decide (key = lit "security.allowlist") then parse_toml_array v else allowlist p.
Proof. revert key v p. config_cases. Qed.

Lemma config_denylist (key v : list Z) (p : Policy) :
  denylist (apply_config_value key v p) =
  if bool_decide (key = lit "security.denylist") then parse_toml_array v else denylist p.
Proof. revert key v p. config_cases. Qed.

Lemma config_native_pe (key v : list Z) (p : Policy) :
  loader_native_pe (apply_config_value key v p) =
  if bool_decide (key = lit "loader.native_pe")
  then LoaderNativePeMode_parse (trim_matches c_quote v) else loader_native_pe p.
Proof. revert key v p. config_cases. Qed.

(** The integer fields hold values of their Rust types. *)
Definition policy_wf (p : Policy) : Prop :=
  0 <= version p <= u32_max /\ 0 <= default_timeout_ms p <= u32_max /\
  0 <= watchdog_grace_seconds p <= u32_max /\ 0 <= crash_threshold p <= u8_max.

Lemma apply_config_value_wf (key v : list Z) (p : Policy) :
  policy_wf p -> policy_wf (apply_config_value key v p).
Proof.
  intros H. unfold apply_config_value, set_parsed. cbv zeta.
  repeat (case_bool_decide;
    [first [exact H
           |destruct (parse_uint _ _) eqn:E; [apply parse_uint_bound in E; [|by vm_compute]|exact H];
            unfold policy_wf in *; simpl; lia]|]).
  exact H.
Qed.

Lemma parse_policy_wf (toml : list Z) : policy_wf (parse_policy_toml toml).
Proof.
  unfold parse_policy_toml. rewrite fold_policy_line.
  assert (policy_wf default_policy) as H by (vm_compute; intuition discriminate).
  revert H. generalize default_policy. generalize (assignments [] (lines toml)).
  intros l. induction l as [|kv l IH]; intros p H; simpl; [done|].
  by apply IH, apply_config_value_wf.
Qed.

(** What a load must report: each field of the parsed policy that exceeds its
    ceiling, with its value in the file and the ceiling. *)
Definition exceeding (q : Policy) : list PolicyClampReport :=
  (if decide (10 < crash_threshold q) then [mkClamp "crash_threshold" (fmt_dec (crash_threshold q)) (lit "10")] else []) ++
  (if decide (300 < watchdog_grace_seconds q)
   then [mkClamp "watchdog_grace_seconds" (fmt_dec (watchdog_grace_seconds q)) (lit "300")] else []).

(** C37. Whatever the policy file says, the loaded policy is the parsed one with
    the two limited fields brought down to their compiled-in ceilings, 10 crashes
    and 300 seconds, and each clamp is reported: the report lists exactly the
    fields that exceed their ceiling, with the value of the file and the
    ceiling.  A file that cannot be read loads no policy. *)
Theorem load_policy_floor {E : Type} (content : list Z) :
  let q := parse_policy_toml content in
  (exists p, load_policy (E:=E) (Ok content) = Ok (p, exceeding q) /\
     p = set_crash_threshold (Z.min (crash_threshold q) 10)
           (set_watchdog_grace_seconds (Z.min (watchdog_grace_seconds q) 300) q) /\
     0 <= crash_threshold p <= 10 /\ 0 <= watchdog_grace_seconds p <= 300 /\
     (exceeding q = [] <-> p = q)) /\
  forall e, load_policy (E:=E) (Err e) = Err e.
Proof.
  intros q. split; [|done]. unfold load_policy. cbn [res_bind]. rewrite apply_policy_floor_eq. fold q. eexists. split.
  { do 2 f_equal. unfold exceeding, clamp_entry, MAX_CRASH_THRESHOLD, MAX_WATCHDOG_GRACE_SECONDS.
    repeat case_decide; repeat case_match; done || lia. }
  pose proof (parse_policy_wf content) as (_ & _ & Hw & Hc). fold q in Hw, Hc. clearbody q.
  unfold exceeding, MAX_CRASH_THRESHOLD, MAX_WATCHDOG_GRACE_SECONDS. simpl. split_and!; [done|lia..|]. split.
  - repeat case_decide; [done..|]. intros _. rewrite !Z.min_l by lia. by destruct q.
  - intros E'. assert (Ec := f_equal crash_threshold E'). assert (Ew := f_equal watchdog_grace_seconds E'). simpl in Ec, Ew.
    by rewrite !decide_False by lia.
Qed.

(** A file that asks for more than both ceilings. *)
Definition greedy_policy : list Z :=
  lit "[security]" ++ [c_lf] ++ lit "crash_threshold = 200" ++ [c_lf] ++ lit "[watchdog]" ++ [c_lf] ++
  lit "grace_seconds = 86400" ++ [c_lf].

Lemma load_policy_floor_witness :
  exists p, load_policy (E := Empty_set) (Ok greedy_policy) =
    Ok (p, [mkClamp "crash_threshold" (lit "200") (lit "10"); mkClamp "watchdog_grace_seconds" (lit "86400") (lit "300")]) /\
    crash_threshold p = 10 /\ watchdog_grace_seconds p = 300.
Proof.
  destruct (load_policy_floor (E := Empty_set) greedy_policy) as [(p & Hl & Hp & _) _]. exists p.
  split; [rewrite Hl; vm_compute; reflexivity|]. rewrite Hp. vm_compute. split; reflexivity.
Defined.

(** Each security field of a parsed policy file is decided by the last
    assignment to its section-qualified key, and keeps its default when there
    is none; no other line of the file can change it. *)
Theorem parse_policy_last_wins (toml : list Z) :
  let p := parse_policy_toml toml in
  let value k := last_value (lit k) (assignments [] (lines toml)) in
  secure_boot_required p =
    from_option (fun v => is_true (trim_matches c_quote v)) false (value "security.secure_boot_required") /\
  measured_boot p =
    from_option (fun v => is_true (trim_matches c_quote v)) true (value "security.measured_boot") /\
  allowlist p = from_option parse_toml_array [] (value "security.allowlist") /\
  denylist p = from_option parse_toml_array [] (value "security.denylist") /\
  loader_native_pe p =
    from_option (fun v => LoaderNativePeMode_parse (trim_matches c_quote v)) NativeAuto (value "loader.native_pe").
Proof.
  cbv zeta. unfold parse_policy_toml. rewrite fold_policy_line.
  split_and!.
  - erewrite (fold_last_value secure_boot_required) by (intros; apply config_secure_boot).
    by destruct (last_value _ _).
  - erewrite (fold_last_value measured_boot) by (intros; apply config_measured_boot).
    by destruct (last_value _ _).
  - erewrite (fold_last_value allowlist) by (intros; apply config_allowlist).
    by destruct (last_value _ _).
  - erewrite (fold_last_value denylist) by (intros; apply config_denylist).
    by destruct (last_value _ _).
  - erewrite (fold_last_value loader_native_pe) by (intros; apply config_native_pe).
    by destruct (last_value _ _).
Qed.

(** ** Path rules against the glob reading of the documentation *)
Inductive glob : list Z -> list Z -> Prop :=
  | glob_nil : glob [] []
  | glob_char c p s : c <> c_star -> glob p s -> glob (c :: p) (c :: s)
  | glob_star_nil p s : glob p s -> glob (c_star :: p) s
  | glob_star_cons p c s : glob (c_star :: p) s -> glob (c_star :: p) (c :: s).

Definition star_free (p : list Z) : Prop := Forall (fun c => c <> c_star) p.

Lemma glob_star_iff (p s : list Z) : glob (c_star :: p) s <-> exists l r, s = l ++ r /\ glob p r.
Proof.
  split.
  - intros H. remember (c_star :: p) as q eqn:Eq. induction H as [|c p' s Hc H IH|p' s H IH|p' c s H IH].
    + done.
    + by injection Eq as -> ->.
    + injection Eq as ->. by exists [], s.
    + injection Eq as ->. destruct IH as (l & r & -> & Hg); [done|]. by exists (c :: l), r.
  - intros (l & r & -> & Hg). induction l; simpl; by constructor.
Qed.

Lemma glob_app_free (m p s : list Z) :
  star_free m -> glob (m ++ p) s <-> exists r, s = m ++ r /\ glob p r.
Proof.
  intros H. revert s. induction H as [|c m Hc _ IH]; intros s; simpl.
  { split; [by exists s|]. by intros (r & -> & ?). }
  split.
  - intros Hg. inversion Hg; subst; [|done..]. apply IH in H3 as (r & -> & Hr). by exists r.
  - intros (r & -> & Hr). constructor; [done|]. apply IH. by exists r.
Qed.

Lemma glob_star_all (s : list Z) : glob [c_star] s.
Proof. apply glob_star_iff. exists s, []. rewrite app_nil_r. split; [done|constructor]. Qed.

Lemma glob_nil_iff (s : list Z) : glob [] s <-> s = [].
Proof. split; [by inversion 1|intros ->; constructor]. Qed.

(** Patterns with stars only at their ends. *)
Inductive edge_glob : list Z -> Prop :=
  | edge_exact m : star_free m -> edge_glob m
  | edge_prefix m : star_free m -> edge_glob (m ++ [c_star])
  | edge_suffix m : star_free m -> edge_glob (c_star :: m)
  | edge_infix m : star_free m -> edge_glob (c_star :: m ++ [c_star]).

Definition ascii (s : list Z) : Prop := Forall (fun c => 0 <= c < 128) s.

Lemma to_lowercase_ascii (s : list Z) : ascii s -> to_lowercase s = to_ascii_lowercase s.
Proof.
  induction 1 as [|c s Hc _ IH]; [done|]. unfold to_lowercase in *. simpl. rewrite IH.
  unfold to_lower_char. destruct (Z.eqb_spec c 304); [lia|]. destruct (Z.eqb_spec c 8490); [lia|]. done.
Qed.

Lemma lower_star (c : Z) : to_ascii_lower_char c = c_star <-> c = c_star.
Proof. unfold to_ascii_lower_char, is_ascii_uppercase, c_star. case_match; lia. Qed.

Lemma lower_star_free (m : list Z) : star_free m -> star_free (to_ascii_lowercase m).
Proof. intros H. apply Forall_fmap. eapply Forall_impl; [exact H|]. intros c Hc. simpl. by rewrite lower_star. Qed.

Lemma contains_char_iff (c : Z) (s : list Z) : contains_char c s = true <-> c ∈ s.
Proof.
  unfold contains_char. rewrite existsb_exists. setoid_rewrite Z.eqb_eq. split.
  - intros (x & Hx & ->). by apply list_elem_of_In.
  - intros H. exists c. split; [by apply list_elem_of_In|done].
Qed.

Lemma star_free_contains (m : list Z) : star_free m -> contains_char c_star m = false.
Proof.
  intros H. apply not_true_iff_false. rewrite contains_char_iff. intros Hin.
  unfold star_free in H. rewrite Forall_forall in H. by apply (H c_star).
Qed.

Lemma star_free_no_prefix (m : list Z) : star_free m -> starts_with [c_star] m = false.
Proof.
  intros H. apply not_true_iff_false. rewrite starts_with_spec. intros [r ->].
  by apply Forall_cons in H as [? _].
Qed.

Lemma star_free_no_suffix (m : list Z) : star_free m -> ends_with [c_star] m = false.
Proof.
  intros H. apply not_true_iff_false. rewrite ends_with_spec. intros [r ->].
  apply Forall_app in H as [_ [? _]%Forall_cons]. done.
Qed.

Lemma ends_with_star (m : list Z) : ends_with [c_star] (m ++ [c_star]) = true.
Proof. apply ends_with_spec. by exists m. Qed.

Lemma starts_with_star (m : list Z) : starts_with [c_star] (c_star :: m) = true.
Proof. apply starts_with_spec. by exists m. Qed.

(** The comparison once both sides are in lower case. *)
Definition lower_match (path pattern : list Z) : bool :=
  if negb (contains_char c_star pattern) then bool_decide (path = pattern)
  else if starts_with [c_star] pattern && ends_with [c_star] pattern then
    contains (take (length pattern - 2) (drop 1 pattern)) path
  else match strip_prefix [c_star] pattern with
       | Some suffix => ends_with suffix path
       | None => if ends_with [c_star] pattern
                 then starts_with (take (length pattern - 1) pattern) path
                 else bool_decide (path = pattern)
       end.

Lemma lower_match_exact (m path : list Z) : star_free m -> lower_match path m = true <-> glob m path.
Proof.
  intros H. unfold lower_match. rewrite star_free_contains by done. simpl.
  rewrite bool_decide_eq_true, <- (app_nil_r m) at 1. rewrite <- (app_nil_r m) at 2.
  rewrite glob_app_free by done. setoid_rewrite glob_nil_iff. split; [|naive_solver].
  intros ->. by exists [].
Qed.

Lemma lower_match_prefix (m path : list Z) :
  star_free m -> lower_match path (m ++ [c_star]) = true <-> glob (m ++ [c_star]) path.
Proof.
  intros H. rewrite glob_app_free by done. unfold lower_match.
  assert (contains_char c_star (m ++ [c_star]) = true) as ->.
  { apply contains_char_iff, elem_of_app. right. by apply list_elem_of_singleton. }
  cbn [negb]. rewrite ends_with_star. destruct m as [|c m].
  { cbn [app]. rewrite (starts_with_star []). cbn [andb]. split; [intros _|intros _; by destruct path].
    exists path. split; [done|apply glob_star_all]. }
  assert (starts_with [c_star] ((c :: m) ++ [c_star]) = false) as ->.
  { apply not_true_iff_false. rewrite starts_with_spec. intros [r [= ->]]. by apply Forall_cons in H as [? _]. }
  simpl andb. cbn [app strip_prefix]. destruct (Z.eqb_spec c_star c) as [<-|Hc];
    [by apply Forall_cons in H as [? _]|]. change (c :: m ++ [c_star]) with ((c :: m) ++ [c_star]).
  rewrite length_app, Nat.add_sub, take_app_length, starts_with_spec.
  split; intros [r Hr]; exists r; [split; [done|apply glob_star_all]|by destruct Hr].
Qed.

Lemma contains_star_head (m : list Z) : contains_char c_star (c_star :: m) = true.
Proof. apply contains_char_iff. by left. Qed.

Lemma lower_match_suffix (m path : list Z) :
  star_free m -> lower_match path (c_star :: m) = true <-> glob (c_star :: m) path.
Proof.
  intros H. destruct m as [|c m _] using rev_ind.
  { apply (lower_match_prefix [] path). constructor. }
  rewrite glob_star_iff. unfold lower_match. rewrite contains_star_head, starts_with_star.
  assert (ends_with [c_star] (c_star :: m ++ [c]) = false) as ->.
  { apply not_true_iff_false. rewrite ends_with_spec. intros [r Hr].
    rewrite app_comm_cons in Hr. apply app_inj_tail in Hr as [_ ->].
    apply Forall_app in H as [_ [? _]%Forall_cons]. done. }
  cbn [negb andb strip_prefix]. rewrite Z.eqb_refl, ends_with_spec. split.
  - intros [l ->]. exists l, (m ++ [c]). split; [done|]. rewrite <- (app_nil_r (m ++ [c])) at 1.
    apply glob_app_free; [done|]. exists []. by rewrite app_nil_r, glob_nil_iff.
  - intros (l & r & -> & Hr). rewrite <- (app_nil_r (m ++ [c])) in Hr.
    apply glob_app_free in Hr as (r' & -> & ->%glob_nil_iff); [|done]. exists l. by rewrite app_nil_r.
Qed.

Lemma lower_match_infix (m path : list Z) :
  star_free m -> lower_match path (c_star :: m ++ [c_star]) = true <-> glob (c_star :: m ++ [c_star]) path.
Proof.
  intros H. rewrite glob_star_iff. unfold lower_match. rewrite contains_star_head, starts_with_star.
  rewrite app_comm_cons, ends_with_star. cbn [negb andb].
  assert (take (length ((c_star :: m) ++ [c_star]) - 2) (drop 1 ((c_star :: m) ++ [c_star])) = m) as ->.
  { rewrite length_app. simpl drop. apply take_app_length'. simpl. lia. }
  rewrite contains_spec. split.
  - intros (l & r & ->). exists l, (m ++ r). split; [done|]. apply glob_app_free; [done|].
    exists r. split; [done|apply glob_star_all].
  - intros (l & r & -> & Hr). apply glob_app_free in Hr as (r' & -> & _); [|done]. eauto.
Qed.

Lemma lower_match_glob (pattern path : list Z) :
  edge_glob pattern -> lower_match path pattern = true <-> glob pattern path.
Proof.
  destruct 1; auto using lower_match_exact, lower_match_prefix, lower_match_suffix, lower_match_infix.
Qed.

Lemma edge_glob_lower (pattern : list Z) : edge_glob pattern -> edge_glob (to_ascii_lowercase pattern).
Proof.
  destruct 1; unfold to_ascii_lowercase; rewrite ?fmap_cons, ?fmap_app;
    constructor; by apply lower_star_free.
Qed.

Lemma rule_matches_glob (path pattern : list Z) :
  ascii path -> ascii pattern -> edge_glob pattern ->
  rule_matches path pattern = true <-> glob (to_ascii_lowercase pattern) (to_ascii_lowercase path).
Proof.
  intros Hp Hq He. rewrite <- lower_match_glob by by apply edge_glob_lower.
  unfold rule_matches. destruct (contains_char c_star pattern) eqn:Ec.
  - unfold path_matches_pattern. case_bool_decide as Hs.
    + subst. split; [|done]. intros _. apply lower_match_glob; [|apply glob_star_all].
      apply (edge_suffix []). constructor.
    + rewrite !to_lowercase_ascii by done. done.
  - unfold lower_match, eq_ignore_ascii_case.
    assert (contains_char c_star (to_ascii_lowercase pattern) = false) as ->; [|done].
    apply not_true_iff_false. rewrite contains_char_iff. intros (c & Hc & Hin)%list_elem_of_fmap.
    symmetry in Hc. apply lower_star in Hc as ->. apply contains_char_iff in Hin. congruence.
Qed.

(** C38. For ASCII paths and rules whose stars stand at their ends, the policy
    admits a path exactly when the allow list is empty or one of its globs
    matches, and no glob of the deny list matches: deny overrides allow, and
    case does not matter. *)
Theorem allowed_iff (p : Policy) (path : list Z) :
  ascii path -> Forall (fun q => ascii q /\ edge_glob q) (allowlist p ++ denylist p) ->
  let hit q := glob (to_ascii_lowercase q) (to_ascii_lowercase path) in
  allowed p path = true <->
  (allowlist p = [] \/ Exists hit (allowlist p)) /\ ~ Exists hit (denylist p).
Proof.
  intros Hp [Ha Hd]%Forall_app hit.
  assert (forall l, Forall (fun q => ascii q /\ edge_glob q) l ->
    existsb (rule_matches path) l = true <-> Exists hit l) as Hex.
  { intros l Hl. rewrite existsb_exists, Exists_exists. rewrite Forall_forall in Hl.
    setoid_rewrite <- list_elem_of_In. split.
    - intros (q & Hq & Hm). exists q. split; [done|]. destruct (Hl q Hq). by apply rule_matches_glob.
    - intros (q & Hq & Hm). exists q. split; [done|]. destruct (Hl q Hq). by apply rule_matches_glob. }
  assert (negb (is_denied p path) = true <-> ~ Exists hit (denylist p)) as Hden.
  { unfold is_denied. rewrite negb_true_iff, <- not_true_iff_false, Hex by done. done. }
  unfold allowed. case_bool_decide as He.
  - rewrite Hden. naive_solver.
  - rewrite andb_true_iff, Hden, Hex by done. naive_solver.
Qed.

Lemma allowed_iff_witness :
  let p := set_denylist [lit "\EFI\evil\*"] (set_allowlist [lit "*.efi"] default_policy) in
  allowed p (lit "\EFI\Linux\ARCH.EFI") = true /\ allowed p (lit "\efi\EVIL\x.efi") = false /\
  Exists (fun q => glob (to_ascii_lowercase q) (to_ascii_lowercase (lit "\EFI\Linux\ARCH.EFI"))) (allowlist p).
Proof.
  split; [reflexivity|]. split; [reflexivity|].
  pose proof (allowed_iff (set_denylist [lit "\EFI\evil\*"] (set_allowlist [lit "*.efi"] default_policy))
                (lit "\EFI\Linux\ARCH.EFI")) as H.
  destruct H as [H _].
  - repeat constructor; vm_compute; congruence.
  - apply Forall_cons_2; [|apply Forall_cons_2; [|constructor]]; split.
    + repeat constructor; vm_compute; congruence.
    + apply (edge_suffix (lit ".efi")). repeat constructor; vm_compute; congruence.
    + repeat constructor; vm_compute; congruence.
    + apply (edge_prefix (lit "\EFI\evil\")). repeat constructor; vm_compute; congruence.
  - destruct H as [[Hn|Hx] _]; [reflexivity|vm_compute in Hn; discriminate Hn|exact Hx].
Defined.

(** A star inside a pattern is not a wildcard: the rule matches only a path
    that holds the star itself. *)
Theorem inner_star_is_literal (a b path : list Z) :
  ascii a -> ascii b -> ascii path -> star_free a -> star_free b -> a <> [] -> b <> [] -> star_free path ->
  path_matches_pattern path (a ++ c_star :: b) = false.
Proof.
  intros Aa Ab Ap Ha Hb Na Nb Hp. unfold path_matches_pattern.
  rewrite bool_decide_eq_false_2 by (destruct a; [done|intros [= -> E]; by destruct a]).
  assert (ascii (a ++ c_star :: b)) as Aq.
  { apply Forall_app. split; [done|]. constructor; [unfold c_star; lia|done]. }
  rewrite !to_lowercase_ascii by done. unfold to_ascii_lowercase. rewrite fmap_app, fmap_cons.
  apply lower_star_free in Ha, Hb, Hp. unfold to_ascii_lowercase in *.
  assert (to_ascii_lower_char <$> a <> []) as Na' by (by destruct a).
  assert (to_ascii_lower_char <$> b <> []) as Nb' by (by destruct b).
  change (to_ascii_lower_char c_star) with c_star.
  revert Ha Hb Hp Na' Nb'. generalize (to_ascii_lower_char <$> a), (to_ascii_lower_char <$> b), (to_ascii_lower_char <$> path).
  clear. intros a b path Ha Hb Hp Na Nb.
  assert (contains_char c_star (a ++ c_star :: b) = true) as ->.
  { apply contains_char_iff, elem_of_app. right. by left. }
  destruct a as [|x a]; [done|]. assert (x <> c_star) as Hx by (by apply Forall_cons in Ha as [? _]).
  assert (starts_with [c_star] ((x :: a) ++ c_star :: b) = false) as ->.
  { apply not_true_iff_false. rewrite starts_with_spec. intros [r [= E _]]. congruence. }
  assert (ends_with [c_star] ((x :: a) ++ c_star :: b) = false) as ->.
  { apply not_true_iff_false. rewrite ends_with_spec. intros [r E].
    destruct b as [|y b _] using rev_ind; [done|]. rewrite app_comm_cons, app_assoc in E.
    apply app_inj_tail in E as [_ ->]. apply Forall_app in Hb as [_ [? _]%Forall_cons]. done. }
  cbn [negb andb app strip_prefix]. destruct (Z.eqb_spec c_star x); [congruence|].
  apply bool_decide_eq_false_2. intros ->. change (x :: a ++ c_star :: b) with ((x :: a) ++ c_star :: b) in Hp.
  apply Forall_app in Hp as [_ [? _]%Forall_cons]. done.
Qed.

(** ** The default entry *)
Section selection.
Context (entries : list BootEntry).

Definition eligible_ok (eligible : list nat) : Prop := Forall (fun i => (i < length entries)%nat) eligible.

(** [i] is an eligible index whose entry satisfies [P]. *)
Definition candidate (P : BootEntry -> Prop) (eligible : list nat) (i : nat) : Prop :=
  i ∈ eligible /\ exists e, entries !! i = Some e /\ P e.

Lemma index_lookup (i : nat) :
  (i < length entries)%nat -> exists e, entries !! i = Some e /\ @index False _ (Z.of_nat i) entries = Ok e.
Proof.
  intros Hi. destruct (lookup_lt_is_Some_2 entries i Hi) as [e He]. exists e. split; [done|].
  unfold index. destruct (Z.leb_spec 0 (Z.of_nat i)); [|lia]. by rewrite Nat2Z.id, He.
Qed.

Definition matching (pattern : list Z) (e : BootEntry) : Prop := path_matches_pattern (be_id e) pattern = true.

(** What the scan has found after the indices [seen]. *)
Definition best_of (pattern : list Z) (seen : list nat) (best : option (nat * list Z)) : Prop :=
  match best with
  | None => forall i, ~ candidate (matching pattern) seen i
  | Some (i, id) =>
      candidate (fun e => matching pattern e /\ be_id e = id) seen i /\
      forall j, candidate (matching pattern) seen j ->
        exists e, entries !! j = Some e /\ version_compare (be_id e) id <> Gt
  end.

Lemma best_of_step (pattern : list Z) (seen : list nat) (best : option (nat * list Z)) (idx : nat) (e : BootEntry) :
  entries !! idx = Some e -> best_of pattern seen best ->
  best_of pattern (seen ++ [idx])
    (if path_matches_pattern (be_id e) pattern then
       if match best with
          | None => true
          | Some (_, cur) => bool_decide (version_compare (be_id e) cur = Gt)
          end then Some (idx, be_id e) else best
     else best).
Proof.
  intros He Hb.
  assert (forall (P : BootEntry -> Prop) j, candidate P (seen ++ [idx]) j ->
    candidate P seen j \/ j = idx /\ P e) as Hsnoc.
  { intros P j [Hj (e' & He' & Hp)]. apply elem_of_app in Hj as [Hj| ->%list_elem_of_singleton].
    - left. split; eauto.
    - right. split; [done|]. congruence. }
  assert (forall (P : BootEntry -> Prop) j, candidate P seen j -> candidate P (seen ++ [idx]) j) as Hw.
  { intros P j [Hj ?]. split; [|done]. apply elem_of_app. by left. }
  destruct (path_matches_pattern (be_id e) pattern) eqn:Em.
  - destruct best as [[i cur]|].
    + destruct Hb as [Hi Hmax]. case_bool_decide as Hgt.
      * split.
        { split; [apply elem_of_app; right; by apply list_elem_of_singleton|]. by exists e. }
        intros j Hj. apply Hsnoc in Hj as [Hj|[-> _]].
        -- destruct (Hmax j Hj) as (e' & He' & Hle). exists e'. split; [done|].
           eapply (cmp_le_trans version_compare); [exact Hle|].
           rewrite (cmp_opp version_compare), Hgt. done.
        -- exists e. split; [done|]. by rewrite (cmp_refl version_compare).
      * split; [by apply Hw|]. intros j Hj. apply Hsnoc in Hj as [Hj|[-> _]]; [by apply Hmax|].
        by exists e.
    + split.
      { split; [apply elem_of_app; right; by apply list_elem_of_singleton|]. by exists e. }
      intros j Hj. apply Hsnoc in Hj as [Hj|[-> _]]; [by apply Hb in Hj|].
      exists e. split; [done|]. by rewrite (cmp_refl version_compare).
  - destruct best as [[i cur]|].
    + destruct Hb as [Hi Hmax]. split; [by apply Hw|].
      intros j Hj. apply Hsnoc in Hj as [Hj|[_ Hm]]; [by apply Hmax|]. unfold matching in Hm. congruence.
    + intros j Hj. apply Hsnoc in Hj as [Hj|[_ Hm]]; [by eapply Hb|]. unfold matching in Hm. congruence.
Qed.

Lemma best_match_spec (pattern : list Z) (eligible seen : list nat) (best : option (nat * list Z)) :
  eligible_ok eligible -> best_of pattern seen best ->
  exists best', best_match entries pattern eligible best = Ok best' /\
    best_of pattern (seen ++ eligible) best'.
Proof.
  intros Hok. revert seen best. induction Hok as [|idx rest Hi _ IH]; intros seen best Hb; simpl.
  { exists best. by rewrite app_nil_r. }
  destruct (index_lookup idx Hi) as (e & He & ->). simpl.
  rewrite cons_middle, app_assoc. apply IH. by apply best_of_step.
Qed.

Lemma exact_match_spec (id : list Z) (eligible : list nat) :
  eligible_ok eligible ->
  exists r, exact_match entries id eligible = Ok r /\
    match r with
    | Some i => candidate (fun e => be_id e = id) eligible i
    | None => forall i, ~ candidate (fun e => be_id e = id) eligible i
    end.
Proof.
  induction 1 as [|idx rest Hi _ (r & Er & IH)]; simpl.
  { exists None. split; [done|]. intros i [H _]. by apply not_elem_of_nil in H. }
  destruct (index_lookup idx Hi) as (e & He & ->). simpl. case_bool_decide as Hid.
  - exists (Some idx). split; [done|]. split; [by left|]. eauto.
  - exists r. split; [done|]. destruct r as [i|].
    + destruct IH as [Hin ?]. split; [by right|done].
    + intros i [Hin (e' & He' & Hid')]. apply elem_of_cons in Hin as [->|Hin].
      * congruence.
      * apply (IH i). split; eauto.
Qed.
End selection.

(** With eligible indices in range the selection never panics.  When an
    eligible entry matches [default_pattern], the result is such an entry and
    no matching entry has a greater version; otherwise it is an eligible entry
    with the id [default_entry], and it is absent only when there is none. *)
Theorem select_default_entry_correct (entries : list BootEntry) (eligible : list nat) (p : Policy) :
  eligible_ok entries eligible ->
  let pattern_hit i := exists pat, default_pattern p = Some pat /\ candidate entries (matching pat) eligible i in
  let id_hit i := exists id, default_entry p = Some id /\ candidate entries (fun e => be_id e = id) eligible i in
  match select_default_entry entries eligible p with
  | Ok (Some i) =>
      (pattern_hit i /\ forall j e f, pattern_hit j -> entries !! i = Some e -> entries !! j = Some f ->
         version_compare (be_id f) (be_id e) <> Gt) \/
      ((forall j, ~ pattern_hit j) /\ id_hit i)
  | Ok None => forall j, ~ pattern_hit j /\ ~ id_hit j
  | _ => False
  end.
Proof.
  intros Hok ph ih. unfold select_default_entry.
  assert (exists best, match default_pattern p with
      | Some pattern => best_match entries pattern eligible None | None => Ok None end = Ok best /\
    match default_pattern p with Some pat => best_of entries pat eligible best | None => best = None end)
    as (best & -> & Hb).
  { destruct (default_pattern p) as [pat|]; [|by eauto].
    destruct (best_match_spec entries pat eligible [] None Hok) as (b & ? & ?).
    { intros i [H _]. by apply not_elem_of_nil in H. } by exists b. }
  simpl. destruct best as [[i id]|].
  - destruct (default_pattern p) as [pat|] eqn:Ep; [|done]. destruct Hb as [Hi Hmax]. left. split.
    + exists pat. split; [done|]. destruct Hi as [? (e & ? & ? & ?)]. split; eauto.
    + intros j e f (pat' & [= <-] & Hj) He Hf. destruct Hi as [_ (e' & He' & _ & <-)].
      destruct (Hmax j Hj) as (f' & Hf' & Hle). congruence.
  - assert (forall j, ~ ph j) as Hnone.
    { intros j (pat & Ep & Hj). rewrite Ep in Hb. by apply (Hb j). }
    destruct (default_entry p) as [id|] eqn:Ei.
    + destruct (exact_match_spec entries id eligible Hok) as (r & -> & Hr). destruct r as [i|].
      * right. split; [done|]. by exists id.
      * intros j. split; [done|]. intros (id' & [= <-] & Hj). by apply (Hr j).
    + intros j. split; [done|]. by intros (id' & ? & _).
Qed.

Definition demo_boot (id : string) : BootEntry :=
  mkBoot (lit id) (lit id) (Chainload (lit "\x.efi")) IconLinux None None 0 (lit "FAT").

Lemma select_default_entry_correct_witness :
  exists i, select_default_entry [demo_boot "bls-debian-6.9"; demo_boot "win"; demo_boot "bls-debian-6.19"]
    [0; 1; 2]%nat (set_default_pattern (Some (lit "bls-debian-*")) default_policy) = Ok (Some i) /\
  exists pat, default_pattern (set_default_pattern (Some (lit "bls-debian-*")) default_policy) = Some pat /\
    candidate [demo_boot "bls-debian-6.9"; demo_boot "win"; demo_boot "bls-debian-6.19"]
      (matching pat) [0; 1; 2]%nat i.
Proof.
  pose proof (select_default_entry_correct
    [demo_boot "bls-debian-6.9"; demo_boot "win"; demo_boot "bls-debian-6.19"] [0; 1; 2]%nat
    (set_default_pattern (Some (lit "bls-debian-*")) default_policy)) as H.
  assert (eligible_ok [demo_boot "bls-debian-6.9"; demo_boot "win"; demo_boot "bls-debian-6.19"] [0; 1; 2]%nat)
    as Hok by (repeat constructor; simpl; lia).
  specialize (H Hok). cbv zeta in H.
  exists 2%nat. split; [vm_compute; reflexivity|].
  assert (select_default_entry [demo_boot "bls-debian-6.9"; demo_boot "win"; demo_boot "bls-debian-6.19"]
    [0; 1; 2]%nat (set_default_pattern (Some (lit "bls-debian-*")) default_policy) = Ok (Some 2%nat)) as E
    by (vm_compute; reflexivity).
  rewrite E in H. destruct H as [[H _]|[_ (id & Hid & _)]]; [exact H|discriminate Hid].
Defined.

(** The documented example: TOML escapes the backslashes of a path, the reader
    does not undo it, so the rule has two backslashes for each one and matches
    no path. *)
Definition documented_policy : list Z :=
  lit "[security]" ++ [c_lf] ++ lit "denylist = [" ++ [c_quote]
  ++ lit "\\EFI\\Linux\\vmlinuz-6.18.0-broken" ++ [c_quote] ++ lit "]" ++ [c_lf].

Theorem documented_denylist_ignored :
  denylist (parse_policy_toml documented_policy) = [lit "\\EFI\\Linux\\vmlinuz-6.18.0-broken"] /\
  allowed (parse_policy_toml documented_policy) (lit "\EFI\Linux\vmlinuz-6.18.0-broken") = true.
Proof. split; vm_compute; reflexivity. Qed.
