(* ===== verification/Menu.v ===== *)
(** * Input and the two menus (input.rs, console.rs, gui.rs)

    Polling the input devices, and the menus as machines over the events it
    gives.  Arithmetic is that of the release profile, which wraps around.
    Drawing is in [Draw] and [Console]; the layout that decides what the mouse
    hits is here. *)
From S2P Require Import Prelude Compare RustStr VersionOrder BlsParse BootTypes Policy.
Local Open Scope Z_scope.

Definition wrap_i32 (z : Z) : Z := (z + 2 ^ 31) mod 2 ^ 32 - 2 ^ 31.

(** ** Events *)
Inductive Key : Type :=
  | KeyUp | KeyDown | KeyLeft | KeyRight | KeyEnter | KeyEscape | KeyF1 | KeyF2 | KeyF12
  | KeyChar (c : Z) | KeyBackspace | KeyTab.

Inductive MouseButton : Type := ButtonLeft | ButtonRight | ButtonMiddle.

Inductive InputEvent : Type :=
  | KeyPress (k : Key)
  | MouseMove (x y : Z)
  | MouseClick (x y : Z) (b : MouseButton)
  | NoEvent.

(** ** Polling *)
Record InputManager : Type := mkInput {
  im_mouse_x : Z;
  im_mouse_y : Z;
  im_button_down : bool;
  im_width : Z;
  im_height : Z;
  im_tablet : bool                     (* a USB tablet was found *)
}.

Inductive ScanCode : Type :=
  | SC_UP | SC_DOWN | SC_LEFT | SC_RIGHT | SC_ESCAPE | SC_FUNCTION_1 | SC_FUNCTION_2 | SC_FUNCTION_12 | SC_OTHER.
Inductive UefiKey : Type := Printable (c : Z) | Special (s : ScanCode).

Record PointerState : Type := mkPointer { ps_dx : Z; ps_dy : Z; ps_button : bool }.
Record AbsolutePointerState : Type := mkAbsState { as_x : Z; as_y : Z; as_buttons : Z }.
Record AbsolutePointerMode : Type := mkAbsMode { am_min_x : Z; am_min_y : Z; am_max_x : Z; am_max_y : Z }.

(** What the devices answer during one poll; [None]: not ready or an error. *)
Record Devices : Type := mkDevices {
  dv_tablet : option (list Z);
  dv_pointers : list (option PointerState);
  dv_absolute : list (option (AbsolutePointerState * AbsolutePointerMode));
  dv_conin : option UefiKey;
  dv_keyboards : list (option UefiKey)
}.

Definition move_to (x y : Z) (im : InputManager) : InputManager :=
  mkInput (Z.min (Z.max x 0) (wrap_i32 (im_width im - 1))) (Z.min (Z.max y 0) (wrap_i32 (im_height im - 1)))
    (im_button_down im) (im_width im) (im_height im) (im_tablet im).

Definition set_button (b : bool) (im : InputManager) : InputManager :=
  mkInput (im_mouse_x im) (im_mouse_y im) b (im_width im) (im_height im) (im_tablet im).

(** The button edge: a click on a press, the new button state otherwise. *)
Definition button_edge (pressed : bool) (im : InputManager) : option InputEvent * InputManager :=
  if pressed && negb (im_button_down im) then
    (Some (MouseClick (im_mouse_x im) (im_mouse_y im) ButtonLeft), set_button true im)
  else if negb pressed && im_button_down im then (None, set_button false im)
  else (None, im).

Definition moved (im : InputManager) : InputEvent := MouseMove (im_mouse_x im) (im_mouse_y im).

Definition TABLET_REPORT_SIZE : Z := 6.
Definition TABLET_MAX_COORD : Z := 0x7FFF.

Definition poll_usb_tablet (d : Devices) (im : InputManager) : option InputEvent * InputManager :=
  if negb (im_tablet im) then (None, im)
  else
    match dv_tablet d with
    | Some (buttons :: x0 :: x1 :: y0 :: y1 :: _ :: _) =>
        let new_x := Z.quot (wrap_i32 (from_le [x0; x1] * im_width im)) TABLET_MAX_COORD in
        let new_y := Z.quot (wrap_i32 (from_le [y0; y1] * im_height im)) TABLET_MAX_COORD in
        let im := move_to new_x new_y im in
        let '(ev, im) := button_edge (negb (Z.land buttons 1 =? 0)) im in
        (Some (default (moved im) ev), im)
    | _ => (None, im)
    end.

Definition process_pointer_state (st : PointerState) (im : InputManager) : option InputEvent * InputManager :=
  let im := move_to (wrap_i32 (im_mouse_x im + ps_dx st)) (wrap_i32 (im_mouse_y im + ps_dy st)) im in
  let '(ev, im) := button_edge (ps_button st) im in
  match ev with
  | Some ev => (Some ev, im)
  | None => if negb (ps_dx st =? 0) || negb (ps_dy st =? 0) then (Some (moved im), im) else (None, im)
  end.

Fixpoint poll_standard_pointer (states : list (option PointerState)) (im : InputManager)
    : option InputEvent * InputManager :=
  match states with
  | [] => (None, im)
  | None :: rest => poll_standard_pointer rest im
  | Some st :: rest =>
      match process_pointer_state st im with
      | (Some ev, im') => (Some ev, im')
      | (None, im') => poll_standard_pointer rest im'
      end
  end.

(** [rel as u128 * screen as u128 / range as u128] as an [i32] *)
Definition scale (cur lo hi screen : Z) : Z :=
  let range := Z.max (Z.max 0 (hi - lo)) 1 in
  wrap_i32 (Z.max 0 (cur - lo) * screen / range).

Fixpoint poll_absolute_pointer (states : list (option (AbsolutePointerState * AbsolutePointerMode)))
    (im : InputManager) : option InputEvent * InputManager :=
  match states with
  | [] => (None, im)
  | None :: rest => poll_absolute_pointer rest im
  | Some (st, mode) :: _ =>
      let new_x := scale (as_x st) (am_min_x mode) (am_max_x mode) (im_width im) in
      let new_y := scale (as_y st) (am_min_y mode) (am_max_y mode) (im_height im) in
      let im := move_to new_x new_y im in
      let '(ev, im) := button_edge (negb (Z.land (as_buttons st) 1 =? 0)) im in
      (Some (default (moved im) ev), im)
  end.

Definition uefi_key_to_event (k : UefiKey) : option InputEvent :=
  match k with
  | Printable c => Some (KeyPress (KeyChar c))
  | Special SC_UP => Some (KeyPress KeyUp)
  | Special SC_DOWN => Some (KeyPress KeyDown)
  | Special SC_LEFT => Some (KeyPress KeyLeft)
  | Special SC_RIGHT => Some (KeyPress KeyRight)
  | Special SC_ESCAPE => Some (KeyPress KeyEscape)
  | Special SC_FUNCTION_1 => Some (KeyPress KeyF1)
  | Special SC_FUNCTION_2 => Some (KeyPress KeyF2)
  | Special SC_FUNCTION_12 => Some (KeyPress KeyF12)
  | Special SC_OTHER => None
  end.

Fixpoint first_key (keys : list (option UefiKey)) : InputEvent :=
  match keys with
  | [] => NoEvent
  | k :: rest =>
      match k ≫= uefi_key_to_event with
      | Some ev => ev
      | None => first_key rest
      end
  end.

Definition poll_keyboard (d : Devices) : InputEvent :=
  match dv_conin d ≫= uefi_key_to_event with
  | Some ev => ev
  | None => first_key (dv_keyboards d)
  end.

Definition poll (d : Devices) (im : InputManager) : InputEvent * InputManager :=
  match poll_usb_tablet d im with
  | (Some ev, im) => (ev, im)
  | (None, im) =>
      match poll_standard_pointer (dv_pointers d) im with
      | (Some ev, im) => (ev, im)
      | (None, im) =>
          match poll_absolute_pointer (dv_absolute d) im with
          | (Some ev, im) => (ev, im)
          | (None, im) => (poll_keyboard d, im)
          end
      end
  end.

(** ** How a menu ends *)
Inductive menu_end : Type :=
  | Selected (e : BootEntry)
  | RebootToFirmware                  (* [health::reboot_to_firmware_setup], no return *)
  | Reboot                            (* [health::reboot], no return *)
  | MenuPanic.

Definition is_tool (e : BootEntry) : bool := bool_decide (be_icon e = IconTools).
Definition has_bootable (entries : list BootEntry) : bool := existsb (fun e => negb (is_tool e)) entries.

Definition menu_timeout (entries : list BootEntry) (p : Policy) : Z :=
  if has_bootable entries then default_timeout_ms p else 0.

(** ** The text menu (console.rs) *)
Record TextMenu : Type := mkText {
  tm_selected : nat;
  tm_interacted : bool;
  tm_frames : Z                        (* u32 *)
}.

Definition text_new : TextMenu := mkText 0 false 0.

Section text.
Context (entries : list BootEntry) (p : Policy).

(** The start of a round: boot when the time is up. *)
Definition text_auto (t : TextMenu) : option menu_end * TextMenu :=
  let timeout := menu_timeout entries p in
  if negb (tm_interacted t) && (0 <? timeout) then
    let elapsed := wrap 32 (tm_frames t * 100) in
    if (timeout <=? elapsed) && has_bootable entries then
      match select_default_entry entries (seq 0 (length entries)) p with
      | Ok o =>
          let t := mkText (default (tm_selected t) o) (tm_interacted t) (tm_frames t) in
          match entries !! tm_selected t with
          | Some e => (Some (Selected e), t)
          | None => (None, t)
          end
      | _ => (Some MenuPanic, t)
      end
    else (None, t)
  else (None, t).

Definition text_select (i : nat) (t : TextMenu) : TextMenu := mkText i true (tm_frames t).

Definition text_key (k : Key) (t : TextMenu) : menu_end + TextMenu :=
  let t := text_select (tm_selected t) t in
  let enter :=
    match entries !! tm_selected t with
    | Some e => inl (Selected e)
    | None => if Nat.eqb (tm_selected t - length entries) 0 then inl RebootToFirmware else inl Reboot
    end in
  match k with
  | KeyUp => inr (text_select (pred (tm_selected t)) t)
  | KeyDown =>
      if (tm_selected t <? length entries + 2 - 1)%nat then inr (text_select (S (tm_selected t)) t) else inr t
  | KeyEnter => enter
  | KeyF2 => inl RebootToFirmware
  | KeyF12 => inl Reboot
  | KeyChar c =>
      if c =? 13 then enter
      else if (48 <=? c) && (c <=? 57) then
        match entries !! Z.to_nat (c - 48) with
        | Some e => inl (Selected e)
        | None => inr t
        end
      else inr t
  | _ => inr t
  end.

Definition text_event (ev : InputEvent) (t : TextMenu) : menu_end + TextMenu :=
  match ev with
  | KeyPress k => text_key k t
  | NoEvent => inr (mkText (tm_selected t) (tm_interacted t) (wrap 32 (tm_frames t + 1)))
  | _ => inr t
  end.

(** The loop over the events that have arrived; [inr]: it waits for the next. *)
Fixpoint text_menu (t : TextMenu) (evs : list InputEvent) : menu_end + TextMenu :=
  match text_auto t with
  | (Some r, _) => inl r
  | (None, t) =>
      match evs with
      | [] => inr t
      | ev :: rest => match text_event ev t with inl r => inl r | inr t => text_menu t rest end
      end
  end.
End text.

(** ** The graphical menu (gui.rs) *)
Definition BOOT_TILE_H : Z := 60.
Definition TOOL_TILE_H : Z := 40.
Definition TILE_GAP : Z := 6.
Definition HEADER_H : Z := 140.
Definition FOOTER_H : Z := 50.
Definition MARGIN : Z := 20.
Definition COL_GAP : Z := 20.

Inductive Column : Type := ColLeft | ColRight.

#[export] Instance Column_eq_dec : EqDecision Column.
Proof. solve_decision. Defined.

Record GuiMenu : Type := mkGui {
  gm_sel_idx : nat;
  gm_sel_col : Column;
  gm_scroll_left : nat;
  gm_scroll_right : nat;
  gm_interacted : bool;
  gm_timed_out : bool;
  gm_frames : Z;                       (* u32 *)
  gm_help : bool                       (* in [show_help], waiting for a key *)
}.

Definition gui_new : GuiMenu := mkGui 0 ColLeft 0 0 false false 0 false.

(** The indices of the entries that satisfy [f], from [i] on. *)
Fixpoint indices_where (f : BootEntry -> bool) (i : nat) (entries : list BootEntry) : list nat :=
  match entries with
  | [] => []
  | e :: rest => if f e then i :: indices_where f (S i) rest else indices_where f (S i) rest
  end.

Definition boot_indices (entries : list BootEntry) : list nat := indices_where (fun e => negb (is_tool e)) 0 entries.
Definition tool_indices (entries : list BootEntry) : list nat := indices_where is_tool 0 entries.

Section gui.
Context (width height : Z) (entries : list BootEntry) (p : Policy).

#[local] Notation boots := (boot_indices entries).
#[local] Notation tools := (tool_indices entries).

Definition content_bottom : Z := Z.max 0 (height - FOOTER_H).
Definition content_height : Z := Z.max 0 (content_bottom - HEADER_H).
Definition left_col_w : Z := wrap 64 (wrap 64 (width - 2 * MARGIN - COL_GAP) * 55) / 100.
Definition right_col_x : Z := wrap 64 (MARGIN + left_col_w + COL_GAP).
Definition right_col_w : Z := wrap 64 (width - right_col_x - MARGIN).
Definition max_visible_boot : nat := Z.to_nat (Z.max (content_height / (BOOT_TILE_H + TILE_GAP)) 1).

Definition scroll_to (sel scroll : nat) : nat :=
  if (sel <? scroll)%nat then sel
  else if (scroll + max_visible_boot <=? sel)%nat then (sel + 1 - max_visible_boot)%nat
  else scroll.

Definition adjust_scroll (g : GuiMenu) : GuiMenu :=
  match gm_sel_col g with
  | ColLeft => mkGui (gm_sel_idx g) ColLeft (scroll_to (gm_sel_idx g) (gm_scroll_left g)) (gm_scroll_right g)
                 (gm_interacted g) (gm_timed_out g) (gm_frames g) (gm_help g)
  | ColRight => mkGui (gm_sel_idx g) ColRight (gm_scroll_left g) (scroll_to (gm_sel_idx g) (gm_scroll_right g))
                 (gm_interacted g) (gm_timed_out g) (gm_frames g) (gm_help g)
  end.

Definition gui_select (c : Column) (i : nat) (g : GuiMenu) : GuiMenu :=
  mkGui i c (gm_scroll_left g) (gm_scroll_right g) (gm_interacted g) (gm_timed_out g) (gm_frames g) (gm_help g).

Definition gui_touch (g : GuiMenu) : GuiMenu :=
  mkGui (gm_sel_idx g) (gm_sel_col g) (gm_scroll_left g) (gm_scroll_right g) true (gm_timed_out g) (gm_frames g) (gm_help g).

Definition gui_set_help (b : bool) (g : GuiMenu) : GuiMenu :=
  mkGui (gm_sel_idx g) (gm_sel_col g) (gm_scroll_left g) (gm_scroll_right g) (gm_interacted g) (gm_timed_out g)
    (gm_frames g) b.

(** The first of [n] tiles of height [h] and pitch [h + gap] from [y] that holds [my]. *)
Fixpoint tile_at (n i : nat) (y h pitch my : Z) : option nat :=
  match n with
  | O => None
  | S n' => if (y <=? my) && (my <? y + h) then Some i else tile_at n' (S i) (y + pitch) h pitch my
  end.

Definition hit_test (scroll_left : nat) (mx my : Z) : option (Column * nat) :=
  let left :=
    let lx := MARGIN in
    let lw := wrap_i32 left_col_w in
    if (lx <=? mx) && (mx <? wrap_i32 (lx + lw)) then
      tile_at (Nat.min max_visible_boot (length boots)) 0 HEADER_H BOOT_TILE_H (BOOT_TILE_H + TILE_GAP) my
    else None in
  match left with
  | Some vi => Some (ColLeft, (scroll_left + vi)%nat)
  | None =>
      let rx := wrap_i32 right_col_x in
      let rw := wrap_i32 right_col_w in
      if (rx <=? mx) && (mx <? wrap_i32 (rx + rw)) then
        let n := length tools in
        let pitch := TOOL_TILE_H + TILE_GAP in
        match tile_at n 0 HEADER_H TOOL_TILE_H pitch my with
        | Some i => Some (ColRight, i)
        | None =>
            match tile_at 2 0 (HEADER_H + Z.of_nat n * pitch + 12) TOOL_TILE_H pitch my with
            | Some i => Some (ColRight, (n + i)%nat)
            | None => None
            end
        end
      else None
  end.

Definition execute_system_action (action : nat) (g : GuiMenu) : menu_end + GuiMenu :=
  match action with
  | 0%nat => inl RebootToFirmware
  | 1%nat => inl Reboot
  | _ => inr g
  end.

(** [entries[ids[i]].clone()], both indexings checked. *)
Definition pick_entry (ids : list nat) (i : nat) : menu_end :=
  match ids !! i with
  | Some idx => match entries !! idx with Some e => Selected e | None => MenuPanic end
  | None => MenuPanic
  end.

(** The start of a round: boot when the time is up. *)
Definition gui_auto (g : GuiMenu) : option menu_end * GuiMenu :=
  let timeout := menu_timeout entries p in
  let timed_out :=
    if negb (gm_interacted g) && (0 <? timeout)
    then (timeout <=? wrap 32 (gm_frames g * 16)) || gm_timed_out g else gm_timed_out g in
  let g := mkGui (gm_sel_idx g) (gm_sel_col g) (gm_scroll_left g) (gm_scroll_right g) (gm_interacted g) timed_out
             (gm_frames g) (gm_help g) in
  if timed_out && negb (gm_interacted g) && negb (bool_decide (boots = [])) then
    match select_default_entry entries boots p with
    | Ok (Some idx) => (Some (match entries !! idx with Some e => Selected e | None => MenuPanic end), g)
    | Ok None => (Some (pick_entry boots 0), g)
    | _ => (Some MenuPanic, g)
    end
  else (None, g).

Definition gui_activate (c : Column) (i : nat) (g : GuiMenu) : menu_end + GuiMenu :=
  match c with
  | ColLeft => if (i <? length boots)%nat then inl (pick_entry boots i) else inr g
  | ColRight =>
      if (i <? length tools)%nat then inl (pick_entry tools i)
      else execute_system_action (i - length tools) g
  end.

Definition gui_key (k : Key) (g : GuiMenu) : menu_end + GuiMenu :=
  let g := gui_touch g in
  match k with
  | KeyUp =>
      if (0 <? gm_sel_idx g)%nat then inr (adjust_scroll (gui_select (gm_sel_col g) (pred (gm_sel_idx g)) g)) else inr g
  | KeyDown =>
      let max := match gm_sel_col g with ColLeft => length boots | ColRight => (length tools + 2)%nat end in
      if (gm_sel_idx g + 1 <? max)%nat then inr (adjust_scroll (gui_select (gm_sel_col g) (S (gm_sel_idx g)) g)) else inr g
  | KeyLeft =>
      if bool_decide (gm_sel_col g = ColRight)
      then inr (gui_select ColLeft (Nat.min (gm_sel_idx g) (pred (length boots))) g) else inr g
  | KeyRight =>
      if bool_decide (gm_sel_col g = ColLeft)
      then inr (gui_select ColRight (Nat.min (gm_sel_idx g) (pred (length tools + 2))) g) else inr g
  | KeyEnter => gui_activate (gm_sel_col g) (gm_sel_idx g) g
  | KeyChar c => if c =? 13 then gui_activate (gm_sel_col g) (gm_sel_idx g) g else inr g
  | KeyF2 => execute_system_action 0 g
  | KeyF12 => execute_system_action 1 g
  | KeyF1 => inr (gui_set_help true g)
  | _ => inr g
  end.

Definition gui_event (ev : InputEvent) (g : GuiMenu) : menu_end + GuiMenu :=
  match ev with
  | KeyPress k => gui_key k g
  | MouseMove x y =>
      match hit_test (gm_scroll_left g) x y with
      | Some (c, i) => inr (gui_select c i g)
      | None => inr g
      end
  | MouseClick x y _ =>
      let g := gui_touch g in
      match hit_test (gm_scroll_left g) x y with
      | Some (c, i) => gui_activate c i (gui_select c i g)
      | None => inr g
      end
  | NoEvent =>
      inr (mkGui (gm_sel_idx g) (gm_sel_col g) (gm_scroll_left g) (gm_scroll_right g) (gm_interacted g)
             (gm_timed_out g) (wrap 32 (gm_frames g + 1)) (gm_help g))
  end.

(** In the help screen only a key ends the wait; nothing else is done with events. *)
Fixpoint gui_menu (g : GuiMenu) (evs : list InputEvent) : menu_end + GuiMenu :=
  if gm_help g then
    match evs with
    | [] => inr g
    | KeyPress _ :: rest => gui_menu (gui_set_help false g) rest
    | _ :: rest => gui_menu g rest
    end
  else
    match gui_auto g with
    | (Some r, _) => inl r
    | (None, g) =>
        match evs with
        | [] => inr g
        | ev :: rest => match gui_event ev g with inl r => inl r | inr g => gui_menu g rest end
        end
    end.
End gui.

(** ** What can be chosen *)
Lemma indices_where_lookup (f : BootEntry -> bool) (entries : list BootEntry) (k i : nat) :
  i ∈ indices_where f k entries -> (k <= i)%nat /\ exists e, entries !! (i - k)%nat = Some e /\ f e = true.
Proof.
  revert k. induction entries as [|e rest IH]; intros k; simpl; [by intros ?%not_elem_of_nil|].
  destruct (f e) eqn:E; [rewrite elem_of_cons; intros [->|Hi]|intros Hi].
  { split; [lia|]. exists e. by rewrite Nat.sub_diag. }
  all: apply IH in Hi as [Hk (e' & He & Hf)]; split; [lia|]; exists e'; split; [|done];
    by replace (i - k)%nat with (S (i - S k)) by lia.
Qed.

Lemma boot_indices_lookup (entries : list BootEntry) (i : nat) :
  i ∈ boot_indices entries -> exists e, entries !! i = Some e /\ is_tool e = false.
Proof.
  intros Hi. apply indices_where_lookup in Hi as [_ (e & He & Hf)]. rewrite Nat.sub_0_r in He.
  exists e. split; [done|by destruct (is_tool e)].
Qed.

Lemma tool_indices_lookup (entries : list BootEntry) (i : nat) :
  i ∈ tool_indices entries -> exists e, entries !! i = Some e /\ is_tool e = true.
Proof.
  intros Hi. apply indices_where_lookup in Hi as [_ (e & He & Hf)]. rewrite Nat.sub_0_r in He. eauto.
Qed.

Lemma indices_where_nil (f : BootEntry -> bool) (entries : list BootEntry) (k : nat) :
  indices_where f k entries = [] <-> existsb f entries = false.
Proof.
  revert k. induction entries as [|e rest IH]; intros k; simpl; [done|]. destruct (f e); simpl; [done|apply IH].
Qed.

Lemma has_bootable_boots (entries : list BootEntry) : has_bootable entries = negb (bool_decide (boot_indices entries = [])).
Proof.
  unfold has_bootable, boot_indices. case_bool_decide as H; simpl.
  - by apply indices_where_nil in H.
  - destruct (existsb _ entries) eqn:E; [done|]. by apply indices_where_nil with (k := 0%nat) in E.
Qed.

Lemma select_default_in (entries : list BootEntry) (eligible : list nat) (p : Policy) :
  eligible_ok entries eligible ->
  exists o, select_default_entry entries eligible p = Ok o /\ forall i, o = Some i -> i ∈ eligible.
Proof.
  intros Hok. unfold select_default_entry.
  assert (exists best, match default_pattern p with
      | Some pattern => best_match entries pattern eligible None | None => Ok None end = Ok best /\
      forall i id, best = Some (i, id) -> i ∈ eligible) as (best & -> & Hb).
  { destruct (default_pattern p) as [pat|]; [|by exists None].
    destruct (best_match_spec entries pat eligible [] None Hok) as (b & E & Hb).
    { intros i [H _]. by apply not_elem_of_nil in H. }
    exists b. split; [done|]. intros i id ->. simpl in Hb. apply Hb. }
  simpl. destruct best as [[i id]|]; [exists (Some i); naive_solver|].
  destruct (default_entry p) as [id|]; [|by exists None].
  destruct (exact_match_spec entries id eligible Hok) as (r & -> & Hr). exists r. split; [done|].
  intros i ->. apply Hr.
Qed.

Lemma seq_eligible (entries : list BootEntry) : eligible_ok entries (seq 0 (length entries)).
Proof. apply Forall_forall. intros i Hi. apply elem_of_seq in Hi. lia. Qed.

Lemma boots_eligible (entries : list BootEntry) : eligible_ok entries (boot_indices entries).
Proof.
  apply Forall_forall. intros i Hi. apply boot_indices_lookup in Hi as (e & He & _).
  by eapply lookup_lt_Some.
Qed.

(** An end the menu may have: no panic, and a chosen entry is one of the entries. *)
Definition fair_end (entries : list BootEntry) (r : menu_end) : Prop :=
  match r with
  | Selected e => e ∈ entries
  | RebootToFirmware | Reboot => True
  | MenuPanic => False
  end.

Definition fair {A : Type} (entries : list BootEntry) (r : menu_end + A) : Prop :=
  match r with inl r => fair_end entries r | inr _ => True end.

Lemma selected_fair (entries : list BootEntry) (i : nat) (e : BootEntry) :
  entries !! i = Some e -> fair_end entries (Selected e).
Proof. intros H. by eapply list_elem_of_lookup_2. Qed.

Lemma pick_entry_fair (entries : list BootEntry) (ids : list nat) (i : nat) :
  (i < length ids)%nat -> (forall j, j ∈ ids -> is_Some (entries !! j)) -> fair_end entries (pick_entry entries ids i).
Proof.
  intros Hi Hids. unfold pick_entry. destruct (lookup_lt_is_Some_2 ids i Hi) as [j Hj]. rewrite Hj.
  destruct (Hids j) as [e He]; [by eapply list_elem_of_lookup_2|]. rewrite He. by eapply selected_fair.
Qed.

Section text_fair.
Context (entries : list BootEntry) (p : Policy).

Lemma text_auto_fair (t : TextMenu) : forall r t', text_auto entries p t = (Some r, t') -> fair_end entries r.
Proof.
  intros r t'. unfold text_auto. destruct (_ && (0 <? _)); [|done]. destruct (_ && has_bootable entries); [|done].
  destruct (select_default_in entries (seq 0 (length entries)) p (seq_eligible entries)) as (o & -> & _).
  destruct (entries !! _) eqn:E; [|done]. intros [= <- _]. by eapply selected_fair.
Qed.

Lemma text_event_fair (ev : InputEvent) (t : TextMenu) : fair entries (text_event entries ev t).
Proof.
  assert (forall i, fair (A := TextMenu) entries match entries !! i with
    | Some e => inl (Selected e)
    | None => if Nat.eqb (i - length entries) 0 then inl RebootToFirmware else inl Reboot end) as Henter.
  { intros i. destruct (entries !! i) eqn:E; [by eapply selected_fair|by destruct (Nat.eqb _ _)]. }
  destruct ev as [k| | |]; simpl; try done. destruct k; simpl; try done; try apply Henter.
  - by destruct (_ <? _)%nat.
  - destruct (_ =? 13); [apply Henter|]. destruct (_ && _); [|done].
    destruct (entries !! _) eqn:E; [by eapply selected_fair|done].
Qed.

Lemma text_menu_fair (evs : list InputEvent) (t : TextMenu) : fair entries (text_menu entries p t evs).
Proof.
  revert t. induction evs as [|ev evs IH]; intros t; simpl;
    destruct (text_auto entries p t) as [[r|] t'] eqn:E; try (by eapply text_auto_fair); [done|].
  pose proof (text_event_fair ev t') as H. by destruct (text_event entries ev t').
Qed.
End text_fair.

Section gui_fair.
Context (width height : Z) (entries : list BootEntry) (p : Policy).

Lemma boots_some (j : nat) : j ∈ boot_indices entries -> is_Some (entries !! j).
Proof. intros (e & -> & _)%boot_indices_lookup. eauto. Qed.

Lemma tools_some (j : nat) : j ∈ tool_indices entries -> is_Some (entries !! j).
Proof. intros (e & -> & _)%tool_indices_lookup. eauto. Qed.

Lemma gui_auto_fair (g : GuiMenu) : forall r g', gui_auto entries p g = (Some r, g') -> fair_end entries r.
Proof.
  intros r g'. unfold gui_auto. cbv zeta. destruct (_ && negb (bool_decide _)) eqn:Eb; [|done].
  apply andb_true_iff in Eb as [_ Hne]. apply negb_true_iff, bool_decide_eq_false in Hne.
  destruct (select_default_in entries (boot_indices entries) p (boots_eligible entries)) as (o & -> & Hin).
  destruct o as [i|]; intros [= <- _].
  - destruct (boots_some i) as [e He]; [by apply Hin|]. rewrite He. by eapply selected_fair.
  - apply pick_entry_fair; [destruct (boot_indices entries); [done|simpl; lia]|apply boots_some].
Qed.

Lemma gui_activate_fair (c : Column) (i : nat) (g : GuiMenu) : fair entries (gui_activate entries c i g).
Proof.
  unfold gui_activate. destruct c;
    [destruct (Nat.ltb_spec i (length (boot_indices entries)))|destruct (Nat.ltb_spec i (length (tool_indices entries)))];
    try (by apply pick_entry_fair; eauto using boots_some, tools_some); [done|].
  by destruct (i - _)%nat as [|[|]].
Qed.

Lemma gui_event_fair (ev : InputEvent) (g : GuiMenu) : fair entries (gui_event width height entries ev g).
Proof.
  destruct ev as [k|x y|x y b|]; simpl; [|by destruct (hit_test _ _ _ _ _ _) as [[]|]| |done].
  - destruct k; simpl; try done; try apply gui_activate_fair;
      repeat match goal with |- context [if ?b then _ else _] => destruct b end; done || apply gui_activate_fair.
  - destruct (hit_test _ _ _ _ _ _) as [[]|]; [apply gui_activate_fair|done].
Qed.

Lemma gui_menu_fair (evs : list InputEvent) (g : GuiMenu) : fair entries (gui_menu width height entries p g evs).
Proof.
  revert g. induction evs as [|ev evs IH]; intros g; simpl; (destruct (gm_help g); [by try destruct ev|]);
    destruct (gui_auto entries p g) as [[r|] g'] eqn:E; try (by eapply gui_auto_fair); [done|].
  pose proof (gui_event_fair ev g') as H. by destruct (gui_event width height entries ev g').
Qed.
End gui_fair.

(** Whatever events arrive, in whatever order and number, neither menu
    panics, and an entry either of them returns is one of the entries it was
    given. *)
Theorem menu_choice_offered (width height : Z) (entries : list BootEntry) (p : Policy) (t : TextMenu) (g : GuiMenu)
    (evs : list InputEvent) :
  fair entries (text_menu entries p t evs) /\ fair entries (gui_menu width height entries p g evs).
Proof. split; [apply text_menu_fair|apply gui_menu_fair]. Qed.

(** ** Nobody at the keyboard *)
Definition no_key (ev : InputEvent) : Prop := match ev with KeyPress _ => False | _ => True end.
Definition no_press (ev : InputEvent) : Prop :=
  match ev with KeyPress _ | MouseClick _ _ _ => False | _ => True end.

Definition idle_rounds (evs : list InputEvent) : Z :=
  Z.of_nat (length (List.filter (fun ev => match ev with NoEvent => true | _ => false end) evs)).

Lemma idle_rounds_none (evs : list InputEvent) : idle_rounds (NoEvent :: evs) = 1 + idle_rounds evs.
Proof. unfold idle_rounds. simpl length. lia. Qed.

(** The entry an unattended menu boots. *)
Definition text_default (entries : list BootEntry) (p : Policy) : option BootEntry :=
  match select_default_entry entries (seq 0 (length entries)) p with
  | Ok o => entries !! default 0%nat o
  | _ => None
  end.

Definition gui_default (entries : list BootEntry) (p : Policy) : option BootEntry :=
  match select_default_entry entries (boot_indices entries) p with
  | Ok o => (match o with Some i => Some i | None => boot_indices entries !! 0%nat end) ≫= (entries !!.)
  | _ => None
  end.

Lemma has_bootable_nonempty (entries : list BootEntry) : has_bootable entries = true -> (0 < length entries)%nat.
Proof. destruct entries; simpl; [done|lia]. Qed.

Lemma text_default_some (entries : list BootEntry) (p : Policy) :
  has_bootable entries = true -> is_Some (text_default entries p).
Proof.
  intros Hb%has_bootable_nonempty. unfold text_default.
  destruct (select_default_in entries (seq 0 (length entries)) p (seq_eligible entries)) as (o & -> & Hin).
  apply lookup_lt_is_Some_2. destruct o as [i|]; simpl; [|done]. specialize (Hin i eq_refl). apply elem_of_seq in Hin. lia.
Qed.

Lemma gui_default_some (entries : list BootEntry) (p : Policy) :
  has_bootable entries = true -> exists e, gui_default entries p = Some e /\ is_tool e = false.
Proof.
  rewrite has_bootable_boots. intros Hb%negb_true_iff%bool_decide_eq_false. unfold gui_default.
  destruct (select_default_in entries (boot_indices entries) p (boots_eligible entries)) as (o & -> & Hin).
  assert (exists i, i ∈ boot_indices entries /\
    match o with Some i => Some i | None => boot_indices entries !! 0%nat end = Some i) as (i & Hi & ->).
  { destruct o as [i|]; [by exists i; auto|]. destruct (boot_indices entries) as [|i l]; [done|].
    exists i. split; [apply elem_of_cons; by left|done]. }
  apply boot_indices_lookup in Hi as (e & He & Ht). by exists e.
Qed.

Section unattended.
Context (entries : list BootEntry) (p : Policy).
Context (Hboot : has_bootable entries = true).
Context (Htime : 0 < default_timeout_ms p <= u32_max - 99).

#[local] Notation timeout := (default_timeout_ms p).

Lemma menu_timeout_bootable : menu_timeout entries p = timeout.
Proof. unfold menu_timeout. by rewrite Hboot. Qed.

Lemma wrap32_small (z : Z) : 0 <= z < 2 ^ 32 -> wrap 32 z = z.
Proof. intros H. unfold wrap. by apply Z.mod_small. Qed.

Lemma text_auto_unattended (t : TextMenu) :
  tm_selected t = 0%nat -> tm_interacted t = false -> 0 <= tm_frames t -> 100 * tm_frames t < timeout + 100 ->
  exists t', text_auto entries p t =
    if timeout <=? 100 * tm_frames t then (Selected <$> text_default entries p, t') else (None, t).
Proof.
  intros Hs Hi H0 Hk. unfold text_auto. rewrite menu_timeout_bootable, Hi, Hboot, andb_true_r, (Z.mul_comm 100).
  unfold u32_max in Htime. rewrite wrap32_small by lia. replace (0 <? timeout) with true by lia. simpl.
  destruct (timeout <=? _) eqn:E; [|by exists t].
  destruct (text_default_some entries p Hboot) as [e He]. rewrite He. revert He. unfold text_default.
  destruct (select_default_entry _ _ _) as [o| |]; try done. simpl. rewrite Hs. intros ->. by eexists.
Qed.

Lemma text_unattended (evs : list InputEvent) (t : TextMenu) :
  tm_selected t = 0%nat -> tm_interacted t = false -> 0 <= tm_frames t -> 100 * tm_frames t < timeout + 100 ->
  Forall no_key evs ->
  exists e, text_default entries p = Some e /\
    text_menu entries p t evs =
      if timeout <=? 100 * (tm_frames t + idle_rounds evs) then inl (Selected e)
      else inr (mkText 0 false (tm_frames t + idle_rounds evs)).
Proof.
  intros Hs Hi H0 Hk Hev. destruct (text_default_some entries p Hboot) as [e He]. exists e. split; [done|].
  revert t Hs Hi H0 Hk. induction Hev as [|ev evs Hno Hev IH]; intros t Hs Hi H0 Hk; simpl;
    destruct (text_auto_unattended t Hs Hi H0 Hk) as [t' ->].
  - unfold idle_rounds. simpl. rewrite Z.add_0_r, He. destruct (timeout <=? _); [done|].
    destruct t; simpl in *; by subst.
  - destruct (Z.leb_spec timeout (100 * tm_frames t)).
    { rewrite He. simpl. replace (timeout <=? _) with true; [done|]. symmetry. apply Z.leb_le.
      unfold idle_rounds. lia. }
    destruct ev as [k| | |]; [done|by apply IH|by apply IH|]. simpl.
    unfold u32_max in Htime. rewrite wrap32_small by lia.
    rewrite IH by (simpl; lia || done). by rewrite idle_rounds_none, Z.add_assoc.
Qed.

Lemma gui_auto_unattended (g : GuiMenu) :
  gm_interacted g = false -> gm_timed_out g = false -> 0 <= gm_frames g -> 16 * gm_frames g < timeout + 16 ->
  exists g', gui_auto entries p g =
    if timeout <=? 16 * gm_frames g then (Selected <$> gui_default entries p, g') else (None, g).
Proof.
  intros Hi Ht H0 Hk. unfold gui_auto. rewrite menu_timeout_bootable, Hi, Ht, orb_false_r, (Z.mul_comm 16).
  unfold u32_max in Htime. rewrite wrap32_small by lia. replace (0 <? timeout) with true by lia. cbn [negb andb].
  rewrite <- has_bootable_boots, Hboot. destruct (timeout <=? _) eqn:E; simpl; [|exists g; destruct g; simpl in *; by subst].
  destruct (gui_default_some entries p Hboot) as (e & He & _). rewrite He. revert He. unfold gui_default, pick_entry.
  destruct (select_default_entry _ _ _) as [[i|]| |]; try done; simpl; [intros ->; by eexists|].
  destruct (boot_indices entries !! 0%nat) as [i|]; [|done]. simpl. intros ->. by eexists.
Qed.

Lemma gui_unattended (width height : Z) (evs : list InputEvent) (g : GuiMenu) :
  gm_interacted g = false -> gm_timed_out g = false -> gm_help g = false ->
  0 <= gm_frames g -> 16 * gm_frames g < timeout + 16 -> Forall no_press evs ->
  exists e g', gui_default entries p = Some e /\ is_tool e = false /\ gm_interacted g' = false /\
    gui_menu width height entries p g evs =
      if timeout <=? 16 * (gm_frames g + idle_rounds evs) then inl (Selected e) else inr g'.
Proof.
  intros Hi Ht Hh H0 Hk Hev. destruct (gui_default_some entries p Hboot) as (e & He & Hte). exists e.
  revert g Hi Ht Hh H0 Hk. induction Hev as [|ev evs Hno Hev IH]; intros g Hi Ht Hh H0 Hk; simpl; rewrite Hh;
    destruct (gui_auto_unattended g Hi Ht H0 Hk) as [g1 ->].
  - exists g. split_and!; try done. unfold idle_rounds. simpl. rewrite Z.add_0_r, He. by destruct (timeout <=? _).
  - destruct (Z.leb_spec timeout (16 * gm_frames g)).
    { exists g. split_and!; try done. rewrite He. simpl. replace (timeout <=? _) with true; [done|]. symmetry.
      apply Z.leb_le. unfold idle_rounds. lia. }
    destruct ev as [k|x y|x y b|]; try done; simpl.
    + destruct (hit_test _ _ _ _ _ _) as [[c i]|]; [|by apply IH].
      destruct (IH (gui_select c i g)) as (g2 & Hg2); try done. by exists g2.
    + unfold u32_max in Htime. rewrite wrap32_small by lia.
      destruct (IH (mkGui (gm_sel_idx g) (gm_sel_col g) (gm_scroll_left g) (gm_scroll_right g) (gm_interacted g)
             (gm_timed_out g) (gm_frames g + 1) (gm_help g))) as (g2 & Ha & Hb & Hc & Hd); try done; simpl; try lia.
      exists g2. split_and!; try done. by rewrite Hd, idle_rounds_none, Z.add_assoc.
Qed.
End unattended.

(** C15. A machine nobody touches boots.  With an entry that is not a tool and a
    timeout set (at most [u32_max - 99] ms, so that the clock does not wrap
    around before it expires), a menu that sees no key - and, in the graphical
    one, no click; the pointer may move - returns its default entry as soon as
    the rounds in which nothing arrived amount to the timeout (100 ms each in
    the text menu, 16 ms in the graphical one), and waits until then.  The
    graphical default is never a tool. *)
Theorem unattended_boots_default (width height : Z) (entries : list BootEntry) (p : Policy) (evs : list InputEvent) :
  has_bootable entries = true -> 0 < default_timeout_ms p <= u32_max - 99 ->
  (Forall no_key evs -> exists e, text_default entries p = Some e /\
     text_menu entries p text_new evs =
       if default_timeout_ms p <=? 100 * idle_rounds evs then inl (Selected e)
       else inr (mkText 0 false (idle_rounds evs))) /\
  (Forall no_press evs -> exists e g', gui_default entries p = Some e /\ is_tool e = false /\ gm_interacted g' = false /\
     gui_menu width height entries p gui_new evs =
       if default_timeout_ms p <=? 16 * idle_rounds evs then inl (Selected e) else inr g').
Proof.
  intros Hb Ht. split; intros Hev.
  - apply (text_unattended entries p Hb Ht evs text_new); done || simpl; lia.
  - apply (gui_unattended entries p Hb Ht width height evs gui_new); done || simpl; lia.
Qed.

#[local] Notation demo_bootable := (demo_boot "bls-a").

Lemma unattended_boots_default_witness :
  has_bootable [demo_bootable] = true /\
  gui_menu 1024 768 [demo_bootable] default_policy gui_new (MouseMove 3 4 :: repeat NoEvent 400) = inl (Selected demo_bootable) /\
  ((Forall no_key (repeat NoEvent 400) -> exists e, text_default [demo_bootable] default_policy = Some e /\
     text_menu [demo_bootable] default_policy text_new (repeat NoEvent 400) =
       if default_timeout_ms default_policy <=? 100 * idle_rounds (repeat NoEvent 400) then inl (Selected e)
       else inr (mkText 0 false (idle_rounds (repeat NoEvent 400)))) /\
  (Forall no_press (repeat NoEvent 400) -> exists e g', gui_default [demo_bootable] default_policy = Some e /\
     is_tool e = false /\ gm_interacted g' = false /\
     gui_menu 1024 768 [demo_bootable] default_policy gui_new (repeat NoEvent 400) =
       if default_timeout_ms default_policy <=? 16 * idle_rounds (repeat NoEvent 400) then inl (Selected e) else inr g')).
Proof.
  split; [reflexivity|]. split; [vm_compute; reflexivity|].
  apply (unattended_boots_default 1024 768 [demo_bootable] default_policy (repeat NoEvent 400)); [reflexivity|].
  vm_compute. split; [reflexivity|discriminate].
Defined.

(** Once a key was pressed, no menu boots by itself: without a further key (or click) it waits for ever. *)
Lemma text_attended (entries : list BootEntry) (p : Policy) (evs : list InputEvent) (t : TextMenu) :
  tm_interacted t = true -> Forall no_key evs -> exists t', text_menu entries p t evs = inr t' /\ tm_interacted t' = true.
Proof.
  intros Hi Hev. revert t Hi. induction Hev as [|ev evs Hno Hev IH]; intros t Hi; simpl; unfold text_auto; rewrite Hi; simpl.
  - by exists t.
  - destruct ev; try done; by apply IH.
Qed.

Lemma gui_attended (width height : Z) (entries : list BootEntry) (p : Policy) (evs : list InputEvent) (g : GuiMenu) :
  gm_interacted g = true -> Forall no_press evs ->
  exists g', gui_menu width height entries p g evs = inr g' /\ gm_interacted g' = true.
Proof.
  intros Hi Hev. revert g Hi. induction Hev as [|ev evs Hno Hev IH]; intros g Hi; simpl; unfold gui_auto; rewrite Hi;
    cbn [negb andb]; rewrite ?andb_false_r; simpl; destruct (gm_help g) eqn:Hh; try (by eexists).
  - destruct ev; try done; by apply IH.
  - destruct ev as [k|x y|x y b|]; try done; simpl; [destruct (hit_test _ _ _ _ _ _) as [[]|]|]; by apply IH.
Qed.

(** ** The selection of the graphical menu *)
Section gui_inv.
Context (width height : Z) (entries : list BootEntry) (p : Policy).

#[local] Notation boots := (boot_indices entries).
#[local] Notation tools := (tool_indices entries).
#[local] Notation mv := (max_visible_boot height).

(** The selection names a tile, and the left column is scrolled so that a full page is shown. *)
Definition gui_inv (g : GuiMenu) : Prop :=
  (match gm_sel_col g with
   | ColLeft => gm_sel_idx g < Nat.max 1 (length boots)
   | ColRight => gm_sel_idx g < length tools + 2
   end)%nat /\
  (gm_scroll_left g + Nat.min mv (length boots) <= length boots)%nat.

Lemma max_visible_pos : (1 <= mv)%nat.
Proof. unfold max_visible_boot. lia. Qed.

Lemma tile_at_bound (n i : nat) (y h pitch my : Z) (r : nat) : tile_at n i y h pitch my = Some r -> (i <= r < i + n)%nat.
Proof.
  revert i y. induction n as [|n IH]; intros i y; simpl; [done|]. destruct (_ && _).
  - intros [= <-]. lia.
  - intros H. apply IH in H. lia.
Qed.

Lemma hit_test_inv (g : GuiMenu) (mx my : Z) (c : Column) (i : nat) :
  gui_inv g -> hit_test width height entries (gm_scroll_left g) mx my = Some (c, i) -> gui_inv (gui_select c i g).
Proof.
  intros [Hsel Hscroll]. unfold hit_test. intros H. split; simpl; [|done].
  match type of H with match ?l with _ => _ end = _ => destruct l as [vi|] eqn:E end.
  - injection H as <- <-. destruct (_ && _); [|done]. apply tile_at_bound in E. lia.
  - destruct (_ && _) in H; [|done].
    destruct (tile_at (length tools) _ _ _ _ _) as [j|] eqn:E1; [injection H as <- <-; apply tile_at_bound in E1; lia|].
    destruct (tile_at 2 _ _ _ _ _) as [j|] eqn:E2; [|done]. injection H as <- <-. apply tile_at_bound in E2. lia.
Qed.

Lemma adjust_scroll_inv (g : GuiMenu) : gui_inv g -> gui_inv (adjust_scroll height g).
Proof.
  intros [Hsel Hscroll]. pose proof max_visible_pos. unfold adjust_scroll, gui_inv. destruct (gm_sel_col g); simpl; [|done].
  split; [done|]. unfold scroll_to. destruct (Nat.ltb_spec (gm_sel_idx g) (gm_scroll_left g)); [lia|].
  destruct (Nat.leb_spec (gm_scroll_left g + mv) (gm_sel_idx g)); lia.
Qed.

Lemma gui_activate_inr (c : Column) (i : nat) (g g' : GuiMenu) : gui_activate entries c i g = inr g' -> g' = g.
Proof.
  unfold gui_activate. destruct c; destruct (_ <? _)%nat; try congruence.
  destruct (i - _)%nat as [|[|]]; simpl; congruence.
Qed.

Lemma gui_event_inv (ev : InputEvent) (g g' : GuiMenu) :
  gui_inv g -> gui_event width height entries ev g = inr g' -> gui_inv g'.
Proof.
  intros Hg. destruct ev as [k|x y|x y b|]; simpl.
  - destruct k; simpl; try (intros [= <-]; exact Hg); try done; try (intros H%gui_activate_inr; by subst).
    + destruct (Nat.ltb_spec 0 (gm_sel_idx g)); intros [= <-]; [|done]. apply adjust_scroll_inv.
      destruct Hg as [Hs Hl]; split; simpl; [destruct (gm_sel_col g); lia|done].
    + destruct (Nat.ltb_spec (gm_sel_idx g + 1) (match gm_sel_col g with ColLeft => length boots | ColRight => length tools + 2 end)%nat);
        intros [= <-]; [|done]. apply adjust_scroll_inv.
      destruct Hg as [Hs Hl]; split; simpl; [destruct (gm_sel_col g); lia|done].
    + case_bool_decide; intros [= <-]; [|done]. destruct Hg as [Hs Hl]; split; simpl; [lia|done].
    + case_bool_decide; intros [= <-]; [|done]. destruct Hg as [Hs Hl]; split; simpl; [lia|done].
    + destruct (_ =? 13); [intros H%gui_activate_inr; by subst|by intros [= <-]].
  - destruct (hit_test _ _ _ _ _ _) as [[c i]|] eqn:E; intros [= <-]; [by eapply hit_test_inv|done].
  - destruct (hit_test _ _ _ _ _ _) as [[c i]|] eqn:E; [|by intros [= <-]].
    intros H%gui_activate_inr. subst. by apply (hit_test_inv (gui_touch g) x y).
  - by intros [= <-].
Qed.

Lemma gui_auto_inv (g g' : GuiMenu) : gui_inv g -> gui_auto entries p g = (None, g') -> gui_inv g'.
Proof.
  intros Hg. unfold gui_auto. cbv zeta.
  destruct (_ && negb (bool_decide _)); [destruct (select_default_entry _ _ _) as [[|]| |]; done|]. by intros [= <-].
Qed.

Lemma gui_menu_inv (evs : list InputEvent) (g g' : GuiMenu) :
  gui_inv g -> gui_menu width height entries p g evs = inr g' -> gui_inv g'.
Proof.
  revert g. induction evs as [|ev evs IH]; intros g Hg; simpl; (destruct (gm_help g); [first [by intros [= <-]|by destruct ev; apply IH]|]);
    destruct (gui_auto entries p g) as [[r|] g1] eqn:E; try done; apply gui_auto_inv in E; [|done| |done].
  - by intros [= <-].
  - destruct (gui_event width height entries ev g1) as [|g2] eqn:Eg; [done|]. apply IH. by eapply gui_event_inv.
Qed.
End gui_inv.

(** The entry whose tile is highlighted, if the highlighted tile is an entry's. *)
Definition highlighted (entries : list BootEntry) (g : GuiMenu) : option BootEntry :=
  (match gm_sel_col g with ColLeft => boot_indices entries | ColRight => tool_indices entries end)
    !! gm_sel_idx g ≫= (entries !!.).

Lemma gui_activate_highlighted (height : Z) (entries : list BootEntry) (g : GuiMenu) :
  gui_inv height entries g ->
  gui_activate entries (gm_sel_col g) (gm_sel_idx g) g =
    match highlighted entries g with
    | Some e => inl (Selected e)
    | None =>
        match gm_sel_col g with
        | ColLeft => inr g
        | ColRight => inl (if Nat.eqb (gm_sel_idx g) (length (tool_indices entries)) then RebootToFirmware else Reboot)
        end
    end.
Proof.
  intros [Hsel _]. unfold gui_activate, highlighted, pick_entry. destruct (gm_sel_col g).
  - destruct (Nat.ltb_spec (gm_sel_idx g) (length (boot_indices entries))) as [H|H].
    + destruct (lookup_lt_is_Some_2 _ _ H) as [j Hj]. rewrite Hj. simpl.
      destruct (boots_some entries j) as [e ->]; [by eapply list_elem_of_lookup_2|done].
    + by rewrite (lookup_ge_None_2 _ _ H).
  - destruct (Nat.ltb_spec (gm_sel_idx g) (length (tool_indices entries))) as [H|H].
    + destruct (lookup_lt_is_Some_2 _ _ H) as [j Hj]. rewrite Hj. simpl.
      destruct (tools_some entries j) as [e ->]; [by eapply list_elem_of_lookup_2|done].
    + rewrite (lookup_ge_None_2 _ _ H). simpl.
      destruct (Nat.eqb_spec (gm_sel_idx g) (length (tool_indices entries))) as [->|Hne]; [by rewrite Nat.sub_diag|].
      by replace (gm_sel_idx g - _)%nat with 1%nat by lia.
Qed.

(** C21. In every state the graphical menu reaches, the selection names one of
    the tiles, the left column is scrolled so that a full page of entries is
    drawn (or all of them), and Enter does what the highlighted tile says: it
    returns that entry, or runs that system action - the first entry of an empty
    left column excepted, where Enter does nothing. *)
Theorem gui_enter_highlighted (width height : Z) (entries : list BootEntry) (p : Policy) (evs : list InputEvent) (g : GuiMenu) :
  gui_menu width height entries p gui_new evs = inr g ->
  gui_inv height entries g /\
  gui_event width height entries (KeyPress KeyEnter) g =
    match highlighted entries g with
    | Some e => inl (Selected e)
    | None =>
        match gm_sel_col g with
        | ColLeft => inr (gui_touch g)
        | ColRight => inl (if Nat.eqb (gm_sel_idx g) (length (tool_indices entries)) then RebootToFirmware else Reboot)
        end
    end.
Proof.
  intros H. assert (gui_inv height entries g) as Hg.
  { eapply gui_menu_inv; [|exact H]. split; simpl; lia. }
  split; [done|]. exact (gui_activate_highlighted height entries (gui_touch g) Hg).
Qed.

#[local] Notation demo_many := (demo_bootable :: repeat (demo_boot "bls-b") 12).
#[local] Notation demo_keys := (repeat (KeyPress KeyDown) 12 ++ [KeyPress KeyRight; KeyPress KeyUp; KeyPress KeyLeft]).

Lemma gui_enter_highlighted_witness :
  exists g, gui_menu 800 600 demo_many default_policy gui_new demo_keys = inr g /\
  gui_inv 600 demo_many g /\
  gui_event 800 600 demo_many (KeyPress KeyEnter) g =
    match highlighted demo_many g with
    | Some e => inl (Selected e)
    | None =>
        match gm_sel_col g with
        | ColLeft => inr (gui_touch g)
        | ColRight => inl (if Nat.eqb (gm_sel_idx g) (length (tool_indices demo_many)) then RebootToFirmware else Reboot)
        end
    end.
Proof.
  exists (mkGui 0 ColLeft 7 0 true false 0 false). split; [vm_compute; reflexivity|].
  apply (gui_enter_highlighted 800 600 demo_many default_policy demo_keys). vm_compute. reflexivity.
Defined.

(** The selected tile need not be drawn: coming back from the right column to a
    scrolled left one selects an entry above the page, and Enter boots it. *)
Lemma selection_off_page :
  exists g, gui_menu 800 600 demo_many default_policy gui_new demo_keys = inr g /\
    gm_sel_col g = ColLeft /\ (gm_sel_idx g < gm_scroll_left g)%nat /\
    gui_menu 800 600 demo_many default_policy gui_new (demo_keys ++ [KeyPress KeyEnter]) = inl (Selected demo_bootable).
Proof. exists (mkGui 0 ColLeft 7 0 true false 0 false). split_and!; vm_compute; try reflexivity. lia. Qed.

(** A pointer that keeps moving holds the timer: no number of rounds boots. *)
Lemma moving_pointer_holds_timer (width height : Z) (entries : list BootEntry) (p : Policy) (moves : list (Z * Z)) :
  has_bootable entries = true -> 0 < default_timeout_ms p <= u32_max - 99 ->
  exists g, gui_menu width height entries p gui_new ((fun m => MouseMove m.1 m.2) <$> moves) = inr g.
Proof.
  intros Hb Ht. set (evs := _ <$> moves).
  assert (Forall no_press evs) as Hev by (apply Forall_fmap, Forall_true; done).
  assert (idle_rounds evs = 0) as H0 by (unfold evs; clear; induction moves; done).
  destruct (gui_unattended entries p Hb Ht width height evs gui_new) as (e & g' & _ & _ & _ & ->); try done; simpl; try lia.
  rewrite H0. replace (_ <=? _) with false by lia. eauto.
Qed.

(** ** The pointer *)
Section pointer.
Context (d : Devices).

Definition on_screen (im : InputManager) : Prop :=
  0 < im_width im < 2 ^ 31 /\ 0 < im_height im < 2 ^ 31 /\
  0 <= im_mouse_x im < im_width im /\ 0 <= im_mouse_y im < im_height im.

Lemma wrap_i32_small (z : Z) : - 2 ^ 31 <= z < 2 ^ 31 -> wrap_i32 z = z.
Proof. intros H. unfold wrap_i32. rewrite Z.mod_small; lia. Qed.

Lemma move_to_on_screen (x y : Z) (im : InputManager) : on_screen im -> on_screen (move_to x y im).
Proof. unfold on_screen, move_to. simpl. intros (Hw & Hh & _ & _). rewrite !wrap_i32_small by lia. lia. Qed.

Lemma button_edge_on_screen (b : bool) (im : InputManager) : on_screen im -> on_screen (button_edge b im).2.
Proof. intros H. unfold button_edge. destruct (b && _); [done|]. by destruct (negb b && _). Qed.

(** What an event of the pointer says about the pointer. *)
Definition event_at (im : InputManager) (ev : option InputEvent) : Prop :=
  match ev with
  | Some (MouseMove x y) | Some (MouseClick x y _) => x = im_mouse_x im /\ y = im_mouse_y im
  | _ => True
  end.

Lemma button_edge_at (b : bool) (im : InputManager) :
  event_at (button_edge b im).2 (button_edge b im).1 /\
  event_at (button_edge b im).2 (Some (default (moved (button_edge b im).2) (button_edge b im).1)).
Proof. unfold button_edge. destruct (b && _); [done|]. by destruct (negb b && _). Qed.

(** A stage of the poll keeps the pointer on the screen and reports where it is. *)
Definition stage_ok (f : InputManager -> option InputEvent * InputManager) : Prop :=
  forall im, on_screen im -> on_screen (f im).2 /\ event_at (f im).2 (f im).1.

(** Moving and then looking at the button. *)
Lemma move_button_ok (x y : Z) (b : bool) :
  stage_ok (fun im => let '(ev, im) := button_edge b (move_to x y im) in (Some (default (moved im) ev), im)).
Proof.
  intros im H. pose proof (button_edge_at b (move_to x y im)) as [_ Hat].
  pose proof (button_edge_on_screen b _ (move_to_on_screen x y im H)) as Hon.
  by destruct (button_edge b (move_to x y im)).
Qed.

Lemma usb_tablet_ok : stage_ok (poll_usb_tablet d).
Proof.
  intros im H. unfold poll_usb_tablet. destruct (negb _); [done|].
  destruct (dv_tablet d) as [[|b [|x0 [|x1 [|y0 [|y1 [|]]]]]]|]; try done. by apply move_button_ok.
Qed.

Lemma process_pointer_ok (st : PointerState) : stage_ok (process_pointer_state st).
Proof.
  intros im H. unfold process_pointer_state. set (im' := move_to _ _ im).
  pose proof (button_edge_at (ps_button st) im') as [Hat _].
  pose proof (button_edge_on_screen (ps_button st) im' (move_to_on_screen _ _ im H)) as Hon.
  destruct (button_edge (ps_button st) im') as [[ev|] im2]; [done|]. by destruct (_ || _).
Qed.

Lemma standard_pointer_ok (states : list (option PointerState)) : stage_ok (poll_standard_pointer states).
Proof.
  induction states as [|[st|] rest IH]; intros im H; simpl; [done| |by apply IH].
  pose proof (process_pointer_ok st im H) as Hp.
  destruct (process_pointer_state st im) as [[ev|] im2]; [done|]. apply IH, Hp.
Qed.

Lemma absolute_pointer_ok (states : list (option (AbsolutePointerState * AbsolutePointerMode))) :
  stage_ok (poll_absolute_pointer states).
Proof.
  induction states as [|[[st mode]|] rest IH]; intros im H; simpl; [done| |by apply IH]. by apply move_button_ok.
Qed.
End pointer.

Lemma uefi_key_is_press (k : UefiKey) (ev : InputEvent) : uefi_key_to_event k = Some ev -> exists key, ev = KeyPress key.
Proof. destruct k as [c|[]]; simpl; intros [= <-]; by eexists. Qed.

Lemma first_key_spec (ks : list (option UefiKey)) : first_key ks = NoEvent \/ exists key, first_key ks = KeyPress key.
Proof.
  induction ks as [|[k|] ks IH]; simpl; [by left| |done]. destruct (uefi_key_to_event k) eqn:E; [|done].
  apply uefi_key_is_press in E. by right.
Qed.

Lemma poll_keyboard_spec (d : Devices) : poll_keyboard d = NoEvent \/ exists key, poll_keyboard d = KeyPress key.
Proof.
  unfold poll_keyboard. destruct (dv_conin d) as [k|]; simpl; [|apply first_key_spec].
  destruct (uefi_key_to_event k) eqn:E; [|apply first_key_spec]. apply uefi_key_is_press in E. by right.
Qed.

(** One poll of the input: whatever the devices report - coordinates out
    of range, moves that overflow - the pointer stays on the screen, and a move
    or click is reported at the pointer's position. *)
Theorem poll_keeps_pointer (d : Devices) (im : InputManager) :
  on_screen im -> on_screen (poll d im).2 /\ event_at (poll d im).2 (Some (poll d im).1).
Proof.
  intros H. unfold poll. pose proof (usb_tablet_ok d im H) as Ht.
  destruct (poll_usb_tablet d im) as [[ev|] im1]; [done|]. destruct Ht as [H1 _]. simpl in H1.
  pose proof (standard_pointer_ok (dv_pointers d) im1 H1) as Hs.
  destruct (poll_standard_pointer (dv_pointers d) im1) as [[ev|] im2]; [done|]. destruct Hs as [H2 _]. simpl in H2.
  pose proof (absolute_pointer_ok (dv_absolute d) im2 H2) as Ha.
  destruct (poll_absolute_pointer (dv_absolute d) im2) as [[ev|] im3]; [done|]. simpl. split; [apply Ha|].
  by destruct (poll_keyboard_spec d) as [->|[key ->]].
Qed.

Lemma poll_keeps_pointer_witness :
  let d := mkDevices None [Some (mkPointer (2 ^ 31 - 1) (- 5) true)] [] (Some (Printable 13)) [] in
  let im := mkInput 512 384 false 1024 768 false in
  on_screen im /\ (poll d im).1 = MouseClick 0 379 ButtonLeft /\
  (on_screen (poll d im).2 /\ event_at (poll d im).2 (Some (poll d im).1)).
Proof.
  intros d im. assert (on_screen im) as H by (unfold on_screen, im; simpl; lia).
  split; [exact H|]. split; [vm_compute; reflexivity|]. apply (poll_keeps_pointer d im H).
Defined.
