(* ===== verification/TrustLog.v ===== *)
(** * The trust log (trust_log_pure.rs, trust_log.rs)

    An accumulator of evidence events, serialised as JSON lines and appended
    to a file on the ESP, the default one or the one that was set; an append may
    stop after any number of bytes.  The reader of that file is not part of the program;
    [read_log] is the specification of what a JSON-lines consumer sees, and
    the round trip with it is what makes the log trustworthy: no path, note or
    status that an attacker controls can forge, split or hide a record. *)
From S2P Require Import Prelude Compare RustStr FsTypes.
Local Open Scope Z_scope.

(** ** The [verified_via] vocabulary *)
Definition V_SHIM_MOK : list Z := lit "shim_mok".
Definition V_FIRMWARE_DB_FALLBACK : list Z := lit "firmware_db_fallback".
Definition V_DEGRADED_TRUST_SB_OFF : list Z := lit "degraded_trust_sb_off".
Definition V_DEGRADED_TRUST_SB_DIRECT : list Z := lit "degraded_trust_sb_direct".
Definition V_SHIM_REJECTED : list Z := lit "shim_rejected".
Definition V_NATIVE_PE_LOADER : list Z := lit "native_pe_loader".
Definition V_FIRMWARE_LOADIMAGE : list Z := lit "firmware_loadimage".

Definition ALL_VERIFIED_VIA : list (list Z) :=
  [V_SHIM_MOK; V_FIRMWARE_DB_FALLBACK; V_DEGRADED_TRUST_SB_OFF; V_DEGRADED_TRUST_SB_DIRECT;
   V_SHIM_REJECTED; V_NATIVE_PE_LOADER; V_FIRMWARE_LOADIMAGE].

Inductive ReportSbState : Type := ReportOff | ReportShim | ReportDirect.

Definition report_verified_via (sb : ReportSbState) : list Z :=
  match sb with
  | ReportOff => V_DEGRADED_TRUST_SB_OFF
  | ReportDirect => V_DEGRADED_TRUST_SB_DIRECT
  | ReportShim => V_SHIM_MOK
  end.

Definition report_loader (native_pe_never is_chainload : bool) : list Z :=
  if is_chainload || native_pe_never then V_FIRMWARE_LOADIMAGE else V_NATIVE_PE_LOADER.

(** ** Events *)
Record TrustEvent : Type := mkEvent {
  ev_event : list Z;
  ev_path : list Z;
  ev_size : Z;
  ev_sha256_hex : list Z;
  ev_verified_via : list Z;
  ev_status : list Z;
  ev_note : list Z;
  ev_verifier_tag : list Z
}.

Definition event_new (event : str) : TrustEvent := mkEvent event [] 0 [] [] [] [] [].
Definition with_verifier_tag (tag : str) (e : TrustEvent) : TrustEvent :=
  mkEvent (ev_event e) (ev_path e) (ev_size e) (ev_sha256_hex e) (ev_verified_via e) (ev_status e) (ev_note e) tag.
Definition with_path (p : str) (e : TrustEvent) : TrustEvent :=
  mkEvent (ev_event e) p (ev_size e) (ev_sha256_hex e) (ev_verified_via e) (ev_status e) (ev_note e) (ev_verifier_tag e).
Definition with_size (s : Z) (e : TrustEvent) : TrustEvent :=
  mkEvent (ev_event e) (ev_path e) s (ev_sha256_hex e) (ev_verified_via e) (ev_status e) (ev_note e) (ev_verifier_tag e).
Definition with_verified_via (v : str) (e : TrustEvent) : TrustEvent :=
  mkEvent (ev_event e) (ev_path e) (ev_size e) (ev_sha256_hex e) v (ev_status e) (ev_note e) (ev_verifier_tag e).
(** The argument is the [Debug] rendering of the status. *)
Definition with_status (s : str) (e : TrustEvent) : TrustEvent :=
  mkEvent (ev_event e) (ev_path e) (ev_size e) (ev_sha256_hex e) (ev_verified_via e) s (ev_note e) (ev_verifier_tag e).
Definition with_note (n : str) (e : TrustEvent) : TrustEvent :=
  mkEvent (ev_event e) (ev_path e) (ev_size e) (ev_sha256_hex e) (ev_verified_via e) (ev_status e) n (ev_verifier_tag e).
Definition with_sha256 (hex : str) (e : TrustEvent) : TrustEvent :=
  mkEvent (ev_event e) (ev_path e) (ev_size e) hex (ev_verified_via e) (ev_status e) (ev_note e) (ev_verifier_tag e).

(** ** Serialisation *)
Definition escape_char (c : Z) : list Z :=
  if c =? c_quote then [c_backslash; c_quote]
  else if c =? c_backslash then [c_backslash; c_backslash]
  else if c =? c_lf then [c_backslash; 110]
  else if c =? c_cr then [c_backslash; 114]
  else if c =? c_tab then [c_backslash; 116]
  else if c <? 32 then [c_backslash; 117] ++ fmt_hex_lower 4 c
  else [c].

Definition push_kv (key val : str) (quote : bool) : list Z :=
  [c_quote] ++ key ++ [c_quote; c_colon]
  ++ (if quote then [c_quote] ++ flat_map escape_char val ++ [c_quote] else val).

Definition push_optional (key val : str) : list Z :=
  if is_empty val then [] else [c_comma] ++ push_kv key val true.

Definition event_line (seq : Z) (ev : TrustEvent) : list Z :=
  [c_lbrace] ++ push_kv (lit "seq") (fmt_dec seq) false
  ++ [c_comma] ++ push_kv (lit "event") (ev_event ev) true
  ++ [c_comma] ++ push_kv (lit "path") (ev_path ev) true
  ++ [c_comma] ++ push_kv (lit "size") (fmt_dec (ev_size ev)) false
  ++ [c_comma] ++ push_kv (lit "sha256") (ev_sha256_hex ev) true
  ++ [c_comma] ++ push_kv (lit "verified_via") (ev_verified_via ev) true
  ++ [c_comma] ++ push_kv (lit "status") (ev_status ev) true
  ++ push_optional (lit "verifier_tag") (ev_verifier_tag ev)
  ++ push_optional (lit "note") (ev_note ev)
  ++ [c_rbrace; c_lf].

Definition serialize_events (committed : list TrustEvent) (boot_seq : Z) : list Z :=
  mjoin (imap (fun i ev => event_line (Z.of_nat i + boot_seq) ev) committed).

(** ** The accumulator *)
Record TrustLog : Type := mkLog {
  tl_events : list TrustEvent;
  tl_committed : list TrustEvent;
  tl_boot_seq : Z;
  tl_quiet : bool;
  tl_log_path : list Z
}.

Definition log_new : TrustLog := mkLog [] [] 0 false (lit "/loader/boot-trust.log").
Definition set_quiet (q : bool) (t : TrustLog) : TrustLog :=
  mkLog (tl_events t) (tl_committed t) (tl_boot_seq t) q (tl_log_path t).
Definition set_log_path (p : str) (t : TrustLog) : TrustLog :=
  mkLog (tl_events t) (tl_committed t) (tl_boot_seq t) (tl_quiet t) p.

(** [record], without the console line it also prints when not quiet. *)
Definition record (ev : TrustEvent) (t : TrustLog) : TrustLog :=
  mkLog (tl_events t ++ [ev]) (tl_committed t) (tl_boot_seq t) (tl_quiet t) (tl_log_path t).

Definition serialize_merged (t : TrustLog) : list Z * TrustLog :=
  let committed := tl_committed t ++ tl_events t in
  (serialize_events committed (tl_boot_seq t),
   mkLog [] committed (tl_boot_seq t) (tl_quiet t) (tl_log_path t)).

Definition serialize_pending (t : TrustLog) : list Z * TrustLog :=
  if bool_decide (length (tl_events t) = 0%nat) then ([], t)
  else
    let start_seq := len (tl_committed t) + tl_boot_seq t in
    (serialize_events (tl_events t) start_seq,
     mkLog [] (tl_committed t ++ tl_events t) (tl_boot_seq t) (tl_quiet t) (tl_log_path t)).

(** *** The files on the ESP *)
(** Contents in bytes by canonical path, whose case FAT ignores; a file that is
    missing counts as empty. *)
Notation LogFiles := (gmap (list Z) (list Z)).
Definition log_file_at (files : LogFiles) (path : list Z) : list Z := default [] (files !! to_ascii_lowercase path).

(** What [true_append] comes to: success, or an error after some of the bytes
    were written (see [FatFs]). *)
Inductive append_outcome : Type := Appended | Stopped (n : nat).
Definition appender : Type := list Z -> list Z -> list Z -> append_outcome.   (* path, contents, data *)

Definition landed (o : append_outcome) (data : list Z) : list Z :=
  match o with Appended => data | Stopped n => take n data end.

Definition append_log (ap : appender) (path data : list Z) (files : LogFiles) : LogFiles :=
  let old := log_file_at files path in <[to_ascii_lowercase path := old ++ landed (ap path old data) data]> files.

(** [flush]: [fat] says the target volume takes an [EspWriter]; the result of
    the append is only logged. *)
Definition flush (fat : bool) (ap : appender) (t : TrustLog) (files : LogFiles) : TrustLog * LogFiles :=
  if bool_decide (length (tl_events t) = 0%nat) then (t, files)
  else
    let '(buf, t') := serialize_pending t in
    if negb fat then (t', files)
    else match path_from_str (tl_log_path t') with
         | Ok path => (t', append_log ap path (str_bytes buf) files)
         | _ => (t', files)
         end.

(** ** Reading the log back *)
Inductive jval : Type := JNum (n : Z) | JStr (s : list Z).

Definition hex_digit_val (c : Z) : option Z :=
  if is_ascii_digit c then Some (c - 48)
  else if (97 <=? c) && (c <=? 102) then Some (c - 87)
  else if (65 <=? c) && (c <=? 70) then Some (c - 55)
  else None.

Definition unescape (c : Z) : option Z :=
  if (c =? c_quote) || (c =? c_backslash) || (c =? c_slash) then Some c
  else if c =? 110 then Some c_lf
  else if c =? 114 then Some c_cr
  else if c =? 116 then Some c_tab
  else if c =? 98 then Some 8
  else if c =? 102 then Some 12
  else None.

(** The rest of a JSON string after its opening quote.  A raw control
    character is not allowed inside one. *)
Fixpoint read_string (s : list Z) : option (list Z * list Z) :=
  match s with
  | [] => None
  | c :: s1 =>
      if c =? c_quote then Some ([], s1)
      else if c <? 32 then None
      else if negb (c =? c_backslash) then
        match read_string s1 with Some (v, r) => Some (c :: v, r) | None => None end
      else match s1 with
           | u :: s2 =>
               if u =? 117 then
                 match s2 with
                 | a :: b :: d :: e :: s3 =>
                     match hex_digit_val a, hex_digit_val b, hex_digit_val d, hex_digit_val e with
                     | Some a, Some b, Some d, Some e =>
                         match read_string s3 with
                         | Some (v, r) => Some ((a * 4096 + b * 256 + d * 16 + e) :: v, r)
                         | None => None
                         end
                     | _, _, _, _ => None
                     end
                 | _ => None
                 end
               else match unescape u, read_string s2 with
                    | Some x, Some (v, r) => Some (x :: v, r)
                    | _, _ => None
                    end
           | [] => None
           end
  end.

Definition read_value (s : list Z) : option (jval * list Z) :=
  match s with
  | c :: s' =>
      if c =? c_quote then
        match read_string s' with Some (v, r) => Some (JStr v, r) | None => None end
      else
        let ds := take_while is_ascii_digit s in
        if is_empty ds then None
        else match parse_digits 0 ds with
             | Some n => Some (JNum n, drop_while is_ascii_digit s)
             | None => None
             end
  | [] => None
  end.

(** The members of an object up to its closing brace. *)
Fixpoint read_fields (fuel : nat) (s : list Z) : option (list (list Z * jval) * list Z) :=
  match fuel, s with
  | S f, q :: s1 =>
      if negb (q =? c_quote) then None
      else match read_string s1 with
           | Some (k, c :: s2) =>
               if negb (c =? c_colon) then None
               else match read_value s2 with
                    | Some (v, d :: s3) =>
                        if d =? c_rbrace then Some ([(k, v)], s3)
                        else if d =? c_comma then
                          match read_fields f s3 with
                          | Some (fs, r) => Some ((k, v) :: fs, r)
                          | None => None
                          end
                        else None
                    | _ => None
                    end
           | _ => None
           end
  | _, _ => None
  end.

Fixpoint read_records (fuel : nat) (s : list Z) : option (list (list (list Z * jval))) :=
  match fuel, s with
  | _, [] => Some []
  | S f, b :: s1 =>
      if negb (b =? c_lbrace) then None
      else match read_fields (length s1) s1 with
           | Some (fs, n :: s2) =>
               if negb (n =? c_lf) then None
               else match read_records f s2 with
                    | Some rs => Some (fs :: rs)
                    | None => None
                    end
           | _ => None
           end
  | O, _ :: _ => None
  end.

Definition read_log (s : list Z) : option (list (list (list Z * jval))) := read_records (length s) s.

(** The members a record is to have, in the documented order. *)
Definition optional_field (key val : list Z) : list (list Z * jval) :=
  if is_empty val then [] else [(key, JStr val)].

Definition event_object (seq : Z) (ev : TrustEvent) : list (list Z * jval) :=
  [(lit "seq", JNum seq); (lit "event", JStr (ev_event ev)); (lit "path", JStr (ev_path ev));
   (lit "size", JNum (ev_size ev)); (lit "sha256", JStr (ev_sha256_hex ev));
   (lit "verified_via", JStr (ev_verified_via ev)); (lit "status", JStr (ev_status ev))]
  ++ optional_field (lit "verifier_tag") (ev_verifier_tag ev) ++ optional_field (lit "note") (ev_note ev).

(** ** Printing objects *)
Definition print_field (f : list Z * jval) : list Z :=
  match snd f with
  | JNum n => push_kv (fst f) (fmt_dec n) false
  | JStr s => push_kv (fst f) s true
  end.

Lemma event_line_fields (seq : Z) (ev : TrustEvent) :
  event_line seq ev =
  [c_lbrace] ++ join_with [c_comma] (print_field <$> event_object seq ev) ++ [c_rbrace; c_lf].
Proof.
  unfold event_line, event_object, optional_field, push_optional.
  destruct (is_empty (ev_verifier_tag ev)), (is_empty (ev_note ev)); cbn [app fmap list_fmap join_with];
    unfold print_field; cbn [fst snd]; repeat (rewrite <- app_assoc; cbn [app]); done.
Qed.

Lemma hex_digit_val_lower (d : Z) : 0 <= d < 16 -> hex_digit_val (hex_lower_digit d) = Some d.
Proof.
  intros H. unfold hex_digit_val, hex_lower_digit, is_ascii_digit.
  destruct (Z.ltb_spec d 10).
  - destruct (Z.leb_spec 48 (48 + d)), (Z.leb_spec (48 + d) 57); try lia. simpl. f_equal; lia.
  - destruct (Z.leb_spec 48 (87 + d)), (Z.leb_spec (87 + d) 57); try lia.
    destruct (Z.leb_spec 97 (87 + d)), (Z.leb_spec (87 + d) 102); try lia. simpl. f_equal; lia.
Qed.

Lemma read_escaped_char (c : Z) (rest v r : list Z) :
  0 <= c -> read_string rest = Some (v, r) -> read_string (escape_char c ++ rest) = Some (c :: v, r).
Proof.
  intros Hc Hr. unfold escape_char.
  destruct (Z.eqb_spec c c_quote) as [->|]; [simpl; by rewrite Hr|].
  destruct (Z.eqb_spec c c_backslash) as [->|]; [simpl; by rewrite Hr|].
  destruct (Z.eqb_spec c c_lf) as [->|]; [simpl; by rewrite Hr|].
  destruct (Z.eqb_spec c c_cr) as [->|]; [simpl; by rewrite Hr|].
  destruct (Z.eqb_spec c c_tab) as [->|]; [simpl; by rewrite Hr|].
  destruct (Z.ltb_spec c 32).
  - assert (exists n : nat, c = Z.of_nat n /\ (n < 32)%nat) as (k & -> & Hk).
    { exists (Z.to_nat c). lia. }
    do 32 (destruct k as [|k]; [simpl; by rewrite Hr|]). lia.
  - cbn [app read_string]. destruct (Z.eqb_spec c c_quote); [done|]. destruct (Z.ltb_spec c 32); [lia|].
    destruct (Z.eqb_spec c c_backslash); [done|]. simpl. by rewrite Hr.
Qed.

Lemma read_escaped (s rest : list Z) :
  Forall (fun c => 0 <= c) s -> read_string (flat_map escape_char s ++ c_quote :: rest) = Some (s, rest).
Proof.
  induction 1 as [|c s Hc _ IH]; [done|]. simpl flat_map. rewrite <- app_assoc.
  by apply read_escaped_char.
Qed.

Definition chars (s : list Z) : Prop := Forall (fun c => 0 <= c) s.

Definition field_ok (f : list Z * jval) : Prop :=
  flat_map escape_char (fst f) = fst f /\ chars (fst f) /\
  match snd f with JNum n => 0 <= n | JStr s => chars s end.

Lemma read_value_printed (v : jval) (d : Z) (rest : list Z) :
  match v with JNum n => 0 <= n | JStr s => chars s end -> is_ascii_digit d = false ->
  read_value (match v with JNum n => fmt_dec n
                         | JStr s => [c_quote] ++ flat_map escape_char s ++ [c_quote] end ++ d :: rest)
  = Some (v, d :: rest).
Proof.
  intros Hv Hd. destruct v as [n|s].
  - pose proof (fmt_dec_digits n) as Hds. pose proof (fmt_dec_nonempty n) as Hne.
    pose proof (parse_digits_fmt_dec n Hv) as Hp.
    destruct (fmt_dec n) as [|c ds] eqn:E; [done|].
    assert (is_ascii_digit c = true) as Hc by (by apply Forall_cons in Hds as [? _]).
    unfold read_value. cbn [app]. destruct (Z.eqb_spec c c_quote) as [->|]; [done|].
    change (c :: ds ++ d :: rest) with ((c :: ds) ++ d :: rest).
    rewrite take_while_app, drop_while_app by done. cbn [take_while drop_while]. rewrite Hd, app_nil_r.
    cbn [is_empty]. by rewrite Hp.
  - cbn [app]. unfold read_value. rewrite Z.eqb_refl, <- app_assoc. cbn [app].
    by rewrite read_escaped.
Qed.

Lemma print_field_eq (f : list Z * jval) (rest : list Z) :
  flat_map escape_char (fst f) = fst f ->
  print_field f ++ rest =
  c_quote :: flat_map escape_char (fst f) ++ c_quote :: c_colon ::
    match snd f with JNum n => fmt_dec n
                   | JStr s => [c_quote] ++ flat_map escape_char s ++ [c_quote] end ++ rest.
Proof.
  intros ->. destruct f as [k [n|s]]; unfold print_field, push_kv; cbn [fst snd app];
    by repeat (rewrite <- app_assoc; cbn [app]).
Qed.

Lemma read_fields_printed (fs : list (list Z * jval)) (fuel : nat) (rest : list Z) :
  Forall field_ok fs -> fs <> [] -> (length fs <= fuel)%nat ->
  read_fields fuel (join_with [c_comma] (print_field <$> fs) ++ c_rbrace :: rest) = Some (fs, rest).
Proof.
  intros H. revert fuel. induction H as [|f fs Hf Hfs IH]; intros fuel Hne Hfuel; [done|].
  destruct fuel as [|fuel]; [simpl in Hfuel; lia|]. destruct Hf as (Hk & Hkc & Hv).
  assert (forall d tail, is_ascii_digit d = false ->
    read_fields (S fuel) (print_field f ++ d :: tail) =
    if d =? c_rbrace then Some ([f], tail)
    else if d =? c_comma then
      match read_fields fuel tail with Some (fs, r) => Some (f :: fs, r) | None => None end
    else None) as Step.
  { intros d tail Hd. rewrite print_field_eq by done. cbn [read_fields]. rewrite Z.eqb_refl. cbn [negb].
    rewrite read_escaped by done. rewrite Z.eqb_refl. cbn [negb].
    rewrite read_value_printed by done. by destruct f. }
  destruct fs as [|g fs].
  - cbn [fmap list_fmap join_with]. by rewrite Step.
  - change (join_with [c_comma] (print_field <$> f :: g :: fs))
      with (print_field f ++ [c_comma] ++ join_with [c_comma] (print_field <$> g :: fs)).
    rewrite <- !app_assoc. cbn [app]. rewrite Step by done.
    change (c_comma =? c_rbrace) with false. rewrite Z.eqb_refl. cbn iota.
    rewrite IH; [done|done|]. simpl in Hfuel |- *. lia.
Qed.

Definition event_ok (ev : TrustEvent) : Prop :=
  chars (ev_event ev) /\ chars (ev_path ev) /\ 0 <= ev_size ev /\ chars (ev_sha256_hex ev) /\
  chars (ev_verified_via ev) /\ chars (ev_status ev) /\ chars (ev_note ev) /\ chars (ev_verifier_tag ev).

Lemma lit_field_ok (k : string) (v : jval) :
  flat_map escape_char (lit k) = lit k ->
  match v with JNum n => 0 <= n | JStr s => chars s end -> field_ok (lit k, v).
Proof.
  intros H Hv. split_and!; [done| |done]. apply Forall_fmap, Forall_true. intros a. simpl. lia.
Qed.

Lemma event_object_ok (seq : Z) (ev : TrustEvent) :
  0 <= seq -> event_ok ev -> Forall field_ok (event_object seq ev).
Proof.
  intros Hs (H1 & H2 & H3 & H4 & H5 & H6 & H7 & H8). unfold event_object, optional_field.
  destruct (is_empty (ev_verifier_tag ev)), (is_empty (ev_note ev)); cbn [app];
    repeat (apply Forall_cons_2; [by apply lit_field_ok|]); constructor.
Qed.

Lemma length_join_ge (fs : list (list Z * jval)) :
  (length fs <= length (join_with [c_comma] (print_field <$> fs)))%nat.
Proof.
  assert (forall f, (1 <= length (print_field f))%nat) as H1.
  { intros [k [n|s]]; unfold print_field, push_kv; simpl; lia. }
  induction fs as [|f fs IH]; [simpl; lia|]. destruct fs as [|g fs].
  - simpl. apply H1.
  - change (join_with [c_comma] (print_field <$> f :: g :: fs))
      with (print_field f ++ [c_comma] ++ join_with [c_comma] (print_field <$> g :: fs)).
    rewrite !length_app. specialize (H1 f). change (length (f :: g :: fs)) with (S (length (g :: fs))).
    change (length [c_comma]) with 1%nat. lia.
Qed.

(** A log is a sequence of numbered events. *)
Definition log_lines (l : list (Z * TrustEvent)) : list Z := mjoin ((fun p => event_line p.1 p.2) <$> l).
Definition log_objects (l : list (Z * TrustEvent)) : list (list (list Z * jval)) :=
  (fun p => event_object p.1 p.2) <$> l.

Lemma read_records_lines (l : list (Z * TrustEvent)) (fuel : nat) :
  Forall (fun p => 0 <= p.1 /\ event_ok p.2) l -> (length l <= fuel)%nat ->
  read_records fuel (log_lines l) = Some (log_objects l).
Proof.
  intros H. revert fuel. induction H as [|[seq ev] l [Hs He] _ IH]; intros fuel Hf; [by destruct fuel|].
  destruct fuel as [|fuel]; [simpl in Hf; lia|]. simpl in Hs, He.
  unfold log_lines. cbn [fmap list_fmap]. unfold mjoin. cbn [list_join]. fold (log_lines l).
  cbn [fst snd]. rewrite event_line_fields. cbn [app read_records]. rewrite Z.eqb_refl. cbn [negb].
  rewrite <- app_assoc. cbn [app].
  rewrite read_fields_printed; [|by apply event_object_ok|done|].
  - rewrite Z.eqb_refl. cbn [negb]. change (list_join _) with (log_lines l).
    rewrite IH by (simpl in Hf; lia). done.
  - rewrite length_app. pose proof (length_join_ge (event_object seq ev)). lia.
Qed.

Definition numbered (start : Z) (evs : list TrustEvent) : list (Z * TrustEvent) :=
  imap (fun i ev => (Z.of_nat i + start, ev)) evs.

Lemma serialize_numbered (evs : list TrustEvent) (start : Z) :
  serialize_events evs start = log_lines (numbered start evs).
Proof.
  unfold serialize_events, log_lines, numbered. f_equal.
  revert start. induction evs as [|e evs IH]; intros start; [done|]. simpl.
  f_equal. specialize (IH (start + 1)). etransitivity; [etransitivity; [|exact IH]|].
  - apply imap_ext. intros i x _. simpl. f_equal. lia.
  - f_equal. apply imap_ext. intros i x _. simpl. f_equal. lia.
Qed.

Lemma numbered_app (start : Z) (evs evs' : list TrustEvent) :
  numbered start (evs ++ evs') = numbered start evs ++ numbered (len evs + start) evs'.
Proof.
  unfold numbered. rewrite imap_app. f_equal. apply imap_ext. intros i x _. simpl. f_equal.
  unfold len. lia.
Qed.

Lemma numbered_ok (start : Z) (evs : list TrustEvent) :
  0 <= start -> Forall event_ok evs -> Forall (fun p => 0 <= p.1 /\ event_ok p.2) (numbered start evs).
Proof.
  intros Hs H. apply Forall_lookup. intros i [n e]. unfold numbered. rewrite list_lookup_imap.
  destruct (evs !! i) as [e'|] eqn:E; [|done]. intros [= <- <-]. simpl.
  split; [lia|]. by eapply Forall_lookup_1.
Qed.

Lemma log_lines_app (l k : list (Z * TrustEvent)) : log_lines (l ++ k) = log_lines l ++ log_lines k.
Proof. unfold log_lines. by rewrite fmap_app, join_app. Qed.

Lemma log_lines_length (l : list (Z * TrustEvent)) : (length l <= length (log_lines l))%nat.
Proof.
  induction l as [|[n e] l IH]; [simpl; lia|].
  change (log_lines ((n, e) :: l)) with (event_line n e ++ log_lines l). rewrite length_app.
  assert (1 <= length (event_line n e))%nat by (unfold event_line; simpl; lia). simpl length at 1. lia.
Qed.

Lemma read_log_lines (l : list (Z * TrustEvent)) :
  Forall (fun p => 0 <= p.1 /\ event_ok p.2) l -> read_log (log_lines l) = Some (log_objects l).
Proof. intros H. apply read_records_lines; [done|apply log_lines_length]. Qed.

(** C34. A JSON-lines reader gets back from the serialised log exactly the
    recorded events, with consecutive sequence numbers and every field intact,
    whatever characters paths, notes and statuses contain: no field content can
    end its record, start another one or add a member. *)
Theorem trust_log_roundtrip (evs : list TrustEvent) (start : Z) :
  0 <= start -> Forall event_ok evs ->
  read_log (serialize_events evs start) = Some (imap (fun i ev => event_object (Z.of_nat i + start) ev) evs).
Proof.
  intros Hs He. rewrite serialize_numbered, read_log_lines by by apply numbered_ok.
  f_equal. unfold log_objects, numbered. by rewrite fmap_imap.
Qed.

(** An event whose note tries to close its record and forge another. *)
Definition demo_event : TrustEvent :=
  with_note (lit "x" ++ [c_quote; c_rbrace; c_lf; c_lbrace; c_quote; 7]) (with_path (lit "\EFI\Linux\a.efi")
    (event_new (lit "image_verified"))).

Lemma trust_log_roundtrip_witness :
  read_log (serialize_events [demo_event; event_new (lit "boot_start")] 3)
  = Some [event_object 3 demo_event; event_object 4 (event_new (lit "boot_start"))].
Proof.
  apply (trust_log_roundtrip [demo_event; event_new (lit "boot_start")] 3).
  - lia.
  - apply (bool_decide_unpack _). vm_compute. exact I.
Defined.

(** ** The log as a state machine *)
Inductive log_op : Type :=
  | OpRecord (ev : TrustEvent)
  | OpSetPath (p : list Z)
  | OpFlush (fat : bool) (outcome : append_outcome).

Definition log_step (st : TrustLog * LogFiles) (op : log_op) : TrustLog * LogFiles :=
  let '(t, files) := st in
  match op with
  | OpRecord ev => (record ev t, files)
  | OpSetPath p => (set_log_path p t, files)
  | OpFlush fat outcome => flush fat (fun _ _ _ => outcome) t files
  end.

Definition recorded (ops : list log_op) : list TrustEvent :=
  omap (fun op => match op with OpRecord ev => Some ev | _ => None end) ops.

(** The flushes whose append succeeds, and the paths a log can be written to. *)
Definition reliable (op : log_op) : Prop :=
  match op with
  | OpRecord _ => True
  | OpSetPath p => is_Some (res_ok (path_from_str p))
  | OpFlush fat outcome => fat = true /\ outcome = Appended
  end.

(** What one flush wrote: numbered events, the file they went to (none when
    there is no writer or no path), and how much of their lines arrived. *)
Record block : Type := mkBlock { bk_file : option (list Z); bk_events : list (Z * TrustEvent); bk_outcome : append_outcome }.

Definition block_in (q : list Z) (b : block) : list Z :=
  if decide (to_ascii_lowercase <$> bk_file b = Some (to_ascii_lowercase q)) then landed (bk_outcome b) (str_bytes (log_lines (bk_events b))) else [].

Definition whole (b : block) : Prop := is_Some (bk_file b) /\ bk_outcome b = Appended.

(** The log paths that were in force: the default and those set. *)
Definition paths_of (ops : list log_op) : list (list Z) :=
  lit "/loader/boot-trust.log" :: omap (fun op => match op with OpSetPath p => Some p | _ => None end) ops.

Definition names_file (ps : list (list Z)) (b : block) : Prop :=
  forall q, bk_file b = Some q -> exists p, p ∈ ps /\ path_from_str p = Ok q.

Definition log_inv (files0 : LogFiles) (ops : list log_op) (st : TrustLog * LogFiles) : Prop :=
  let '(t, files) := st in
  tl_boot_seq t = 0 /\ tl_committed t ++ tl_events t = recorded ops /\ tl_log_path t ∈ paths_of ops /\
  (Forall reliable ops -> is_Some (res_ok (path_from_str (tl_log_path t)))) /\
  exists bs, mjoin (bk_events <$> bs) = numbered 0 (tl_committed t) /\ Forall (names_file (paths_of ops)) bs /\
    (forall q, log_file_at files q = log_file_at files0 q ++ mjoin (block_in q <$> bs)) /\
    (Forall reliable ops -> Forall whole bs).

Lemma paths_of_snoc (ops : list log_op) (op : log_op) (p : list Z) : p ∈ paths_of ops -> p ∈ paths_of (ops ++ [op]).
Proof. unfold paths_of. rewrite omap_app, !elem_of_cons, elem_of_app. tauto. Qed.

Lemma names_file_snoc (ops : list log_op) (op : log_op) (bs : list block) :
  Forall (names_file (paths_of ops)) bs -> Forall (names_file (paths_of (ops ++ [op]))) bs.
Proof.
  intros H. eapply Forall_impl; [exact H|]. intros b Hb q Hq. destruct (Hb q Hq) as (p & Hp & E).
  exists p. split; [by apply paths_of_snoc|done].
Qed.

Lemma append_log_at (ap : appender) (path data : list Z) (files : LogFiles) (q : list Z) :
  log_file_at (append_log ap path data files) q =
  log_file_at files q ++ if decide (to_ascii_lowercase path = to_ascii_lowercase q)
                         then landed (ap path (log_file_at files path) data) data else [].
Proof.
  unfold append_log. destruct (decide _) as [Hq|Hq]; cbv zeta; unfold log_file_at at 1.
  - rewrite Hq, lookup_insert_eq. unfold log_file_at. by rewrite Hq.
  - rewrite lookup_insert_ne by done. by rewrite app_nil_r.
Qed.

(** A step that flushes nothing. *)
Lemma log_inv_quiet (files0 files : LogFiles) (ops : list log_op) (op : log_op) (t t' : TrustLog) :
  log_inv files0 ops (t, files) -> tl_boot_seq t' = tl_boot_seq t -> tl_committed t' = tl_committed t ->
  tl_committed t' ++ tl_events t' = recorded (ops ++ [op]) -> tl_log_path t' ∈ paths_of (ops ++ [op]) ->
  (reliable op -> is_Some (res_ok (path_from_str (tl_log_path t))) -> is_Some (res_ok (path_from_str (tl_log_path t')))) ->
  log_inv files0 (ops ++ [op]) (t', files).
Proof.
  intros (Hb & _ & _ & Hr & bs & Hj & Hn & Hf & Hw) Eb Ec Ed Ep Ho. split_and!; [by rewrite Eb|done|done| |].
  - intros [H1 H2]%Forall_app. apply (Forall_singleton reliable) in H2. exact (Ho H2 (Hr H1)).
  - exists bs. rewrite Ec. split_and!; [done|by apply names_file_snoc|done|].
    intros [H1 _]%Forall_app. exact (Hw H1).
Qed.

Lemma log_step_inv (files0 : LogFiles) (ops : list log_op) (op : log_op) (st : TrustLog * LogFiles) :
  log_inv files0 ops st -> log_inv files0 (ops ++ [op]) (log_step st op).
Proof.
  destruct st as [t files]. intros Hinv. pose proof Hinv as (Hb & Hd & Hp & Hr & bs & Hj & Hn & Hf & Hw).
  assert (forall ev, recorded (ops ++ [OpRecord ev]) = recorded ops ++ [ev]) as Hrec by (intros; unfold recorded; by rewrite omap_app).
  assert (recorded (ops ++ [op]) = recorded ops \/ exists ev, op = OpRecord ev) as Hnorec.
  { destruct op; [right; by eexists|left..]; unfold recorded; rewrite omap_app; apply app_nil_r. }
  destruct op as [ev|p|fat outcome]; cbn [log_step].
  - apply (log_inv_quiet _ _ _ _ t); [done..| |by apply paths_of_snoc|done]. simpl. by rewrite Hrec, app_assoc, Hd.
  - destruct Hnorec as [Hnr|[? ?]]; [|done]. apply (log_inv_quiet _ _ _ _ t); [done..|by rewrite Hnr| |done]. simpl.
    unfold paths_of. rewrite omap_app, elem_of_cons, elem_of_app. right. right. by left.
  - destruct Hnorec as [Hnr|[? ?]]; [|done]. unfold flush. case_bool_decide as Hlen.
    { apply (log_inv_quiet _ _ _ _ t); [done..|by rewrite Hnr|by apply paths_of_snoc|done]. }
    unfold serialize_pending. rewrite bool_decide_eq_false_2 by done. cbn [tl_log_path]. rewrite Hb, Z.add_0_r.
    set (t' := mkLog [] (tl_committed t ++ tl_events t) 0 (tl_quiet t) (tl_log_path t)).
    set (file := if fat then res_ok (path_from_str (tl_log_path t)) else None).
    set (b := mkBlock file (numbered (len (tl_committed t)) (tl_events t)) outcome).
    assert (forall files', (forall q, log_file_at files' q = log_file_at files q ++ block_in q b) ->
      log_inv files0 (ops ++ [OpFlush fat outcome]) (t', files')) as Hgo.
    { intros files' Hf'. split_and!; [done|simpl; by rewrite app_nil_r, Hnr|by apply paths_of_snoc| |].
      { intros [H1 _]%Forall_app. by apply Hr. }
      exists (bs ++ [b]). split_and!.
      - rewrite fmap_app, join_app, Hj. simpl. by rewrite app_nil_r, numbered_app, Z.add_0_r.
      - apply Forall_app. split; [by apply names_file_snoc|]. apply Forall_singleton. intros q Hq. simpl in Hq. unfold file in Hq.
        destruct fat; [|done]. exists (tl_log_path t). split; [by apply paths_of_snoc|]. by destruct (path_from_str _); simplify_eq/=.
      - intros q. rewrite Hf', Hf, fmap_app, join_app. simpl. by rewrite app_nil_r, app_assoc.
      - intros [H1 [-> ->]%Forall_singleton]%Forall_app. apply Forall_app. split; [by apply Hw|]. apply Forall_singleton.
        split; [by apply Hr|done]. }
    assert (file = None -> forall q, log_file_at files q = log_file_at files q ++ block_in q b) as Hskip.
    { intros Hfile q. unfold block_in. simpl. rewrite Hfile, decide_False by done. by rewrite app_nil_r. }
    unfold file in *. destruct fat; cbn [negb]; [|by apply Hgo, Hskip].
    destruct (path_from_str (tl_log_path t)) as [path| |]; [|by apply Hgo, Hskip..].
    apply Hgo. intros q. rewrite append_log_at. f_equal. unfold block_in. simpl. rewrite serialize_numbered.
    destruct (decide (to_ascii_lowercase path = _)) as [Hq|Hq]; [by rewrite Hq, decide_True|by rewrite decide_False by naive_solver].
Qed.

Lemma log_run_inv (files0 : LogFiles) (ops : list log_op) :
  log_inv files0 ops (foldl log_step (log_new, files0) ops).
Proof.
  induction ops as [|op ops IH] using rev_ind; [|rewrite foldl_app; by apply log_step_inv].
  split_and!; [done|done|by left| |].
  - intros _. vm_compute. by eexists.
  - exists []. split_and!; [done|constructor| |constructor]. intros q. by rewrite app_nil_r.
Qed.

Lemma whole_blocks (q : list Z) (bs : list block) :
  Forall whole bs -> (forall b, b ∈ bs -> forall q', bk_file b = Some q' -> q' = q) ->
  mjoin (block_in q <$> bs) = str_bytes (log_lines (mjoin (bk_events <$> bs))).
Proof.
  induction 1 as [|b bs [[q' Hq'] Ho] _ IH]; intros Hq; [done|]. rewrite !fmap_cons. unfold mjoin. cbn [list_join].
  rewrite log_lines_app. unfold str_bytes at 1. rewrite flat_map_app. f_equal; [|apply IH; intros b' Hb'; apply Hq; by right].
  unfold block_in. rewrite (Hq b ltac:(left) q' Hq') in Hq'. rewrite decide_True by by rewrite Hq'. by rewrite Ho.
Qed.

(** C35. Take any sequence of records, path changes and flushes of a boot, each
    append of which succeeds or stops after any number of bytes.  Nothing that was
    recorded is dropped from memory or reordered.  The events given to the disk
    fall into consecutive blocks, one for each flush, with the sequence numbers
    going on from block to block; a block goes to one file, the default path or
    one that was set (in any case), and every file is its old contents followed by
    what arrived of its blocks: the whole lines of a block, or a prefix of them
    where the append stopped.  So no flush changes what is there, none is repeated, and only a
    failed append can leave a torn record.  When every append succeeds and the
    path is not changed, the file is its old contents and all committed records,
    numbered from zero. *)
Theorem trust_log_append_only (ops : list log_op) (files0 : LogFiles) :
  let '(t, files) := foldl log_step (log_new, files0) ops in
  tl_committed t ++ tl_events t = recorded ops /\
  (exists bs, mjoin (bk_events <$> bs) = numbered 0 (tl_committed t) /\
     Forall (names_file (paths_of ops)) bs /\
     (forall q, log_file_at files q = log_file_at files0 q ++ mjoin (block_in q <$> bs)) /\
     (Forall reliable ops -> Forall whole bs)) /\
  (Forall reliable ops -> (forall p, OpSetPath p ∉ ops) ->
   log_file_at files (lit "/loader/boot-trust.log") =
   log_file_at files0 (lit "/loader/boot-trust.log") ++ str_bytes (serialize_events (tl_committed t) 0)).
Proof.
  pose proof (log_run_inv files0 ops) as H. destruct (foldl log_step (log_new, files0) ops) as [t files].
  destruct H as (_ & Hd & _ & _ & bs & Hj & Hn & Hf & Hw). split_and!; [done|by exists bs|].
  intros Hrel Hset. rewrite Hf. f_equal. rewrite serialize_numbered, <- Hj. apply whole_blocks; [by apply Hw|].
  intros b Hb q Hq. rewrite Forall_forall in Hn. destruct (Hn b Hb q Hq) as (p & Hp & E).
  apply elem_of_cons in Hp as [->|Hp]; [vm_compute in E; by injection E as <-|]. exfalso.
  apply list_elem_of_omap in Hp as ([| |] & Hin & Hp); simplify_eq. by apply Hset in Hin.
Qed.

(** A log that a file of the last run is left in front of, and an append that
    stops inside a record. *)
Lemma trust_log_append_only_witness :
  let ops := [OpRecord (event_new (lit "boot_start")); OpFlush true Appended;
              OpRecord demo_event; OpFlush true (Stopped 20); OpRecord (event_new (lit "late")); OpFlush true Appended] in
  let path := lit "/loader/boot-trust.log" in
  let '(t, files) := foldl log_step (log_new, {[ path := lit "old" ]}) ops in
  tl_committed t ++ tl_events t = recorded ops /\
  log_file_at files path = lit "old" ++ str_bytes (event_line 0 (event_new (lit "boot_start")))
    ++ take 20 (str_bytes (event_line 1 demo_event)) ++ str_bytes (event_line 2 (event_new (lit "late"))).
Proof.
  pose proof (trust_log_append_only
    [OpRecord (event_new (lit "boot_start")); OpFlush true Appended; OpRecord demo_event; OpFlush true (Stopped 20);
     OpRecord (event_new (lit "late")); OpFlush true Appended] {[ lit "/loader/boot-trust.log" := lit "old" ]}) as T.
  cbv zeta. set (r := foldl _ _ _) in *.
  assert (log_file_at r.2 (lit "/loader/boot-trust.log") = lit "old" ++ str_bytes (event_line 0 (event_new (lit "boot_start")))
    ++ take 20 (str_bytes (event_line 1 demo_event)) ++ str_bytes (event_line 2 (event_new (lit "late")))) as E
    by (vm_compute; reflexivity).
  destruct r as [t files]. exact (conj (proj1 T) E).
Defined.
