(* ===== verification/Nvram.v ===== *)
(** * UEFI variables: the interface the boot state and the boot entry use

    The variable services are firmware, not this program: [NvStore] is what
    the code calls, [NvLaws] what the UEFI specification (8.2, Variable
    Services) promises of them.  A store may refuse any write (a read-only or
    full variable store); a refused write changes nothing, and an accepted one
    is read back and leaves every other variable alone.  All writes of this
    program use the same attributes, which the model leaves out.  Two stores
    discharge the laws: one that accepts every write, and one that has a
    predicate for the writes it accepts. *)
From S2P Require Import Prelude RustStr.
Local Open Scope Z_scope.

(** A variable is named by its vendor GUID and its name. *)
Definition var_key : Type := (list Z * list Z)%type.

Class NvStore (St : Type) := {
  nv_get : var_key -> St -> option (list Z);
  nv_set : var_key -> list Z -> St -> St * bool
}.

Class NvLaws (St : Type) `{NvStore St} : Prop := {
  nv_get_set : forall k d s, d <> [] -> (nv_set k d s).2 = true -> nv_get k (nv_set k d s).1 = Some d;
  nv_get_other : forall k k' d s, k <> k' -> nv_get k' (nv_set k d s).1 = nv_get k' s;
  nv_get_refused : forall k k' d s, (nv_set k d s).2 = false -> nv_get k' (nv_set k d s).1 = nv_get k' s
}.

(** A store that accepts every write. *)
Class NvWritable (St : Type) `{NvStore St} : Prop :=
  nv_accepts : forall k d s, (nv_set k d s).2 = true.

(** [runtime::get_variable(name, vendor, &mut buf)] with a buffer of [n]
    bytes: a longer variable does not fit and the call fails. *)
Definition get_variable `{NvStore St} (n : Z) (k : var_key) (s : St) : option (list Z) :=
  match nv_get k s with
  | Some d => if len d <=? n then Some d else None
  | None => None
  end.

(** [let _ = runtime::set_variable(..)]: the outcome is dropped. *)
Definition set_ignoring `{NvStore St} (k : var_key) (d : list Z) (s : St) : St := (nv_set k d s).1.

Section laws.
Context `{NvLaws St}.

Lemma get_ignoring_other (k k' : var_key) (d : list Z) (s : St) :
  k <> k' -> nv_get k' (set_ignoring k d s) = nv_get k' s.
Proof. apply nv_get_other. Qed.

Lemma get_ignoring_same `{!NvWritable St} (k : var_key) (d : list Z) (s : St) :
  d <> [] -> nv_get k (set_ignoring k d s) = Some d.
Proof. intros Hd. apply nv_get_set; [done|apply nv_accepts]. Qed.

(** A write keeps the old value or sets the new one. *)
Lemma get_ignoring_cases (k k' : var_key) (d : list Z) (s : St) :
  d <> [] -> nv_get k' (set_ignoring k d s) = nv_get k' s \/ k = k' /\ nv_get k' (set_ignoring k d s) = Some d.
Proof.
  intros Hd. unfold set_ignoring. destruct (decide (k = k')) as [->|Hne].
  - destruct (nv_set k' d s).2 eqn:E.
    + right. split; [done|]. by apply nv_get_set.
    + left. by apply nv_get_refused.
  - left. by apply nv_get_other.
Qed.
End laws.

(** ** Stores *)
Definition var_map : Type := gmap var_key (list Z).

#[export] Instance map_store : NvStore var_map := {
  nv_get k s := s !! k;
  nv_set k d s := (if is_empty d then delete k s else <[k := d]> s, true)
}.

#[export] Instance map_store_laws : NvLaws var_map.
Proof.
  split; simpl.
  - intros k d s Hd _. destruct d; [done|]. simpl. apply lookup_insert_eq.
  - intros k k' d s Hne. destruct (is_empty d); [by apply lookup_delete_ne|by apply lookup_insert_ne].
  - done.
Qed.

#[export] Instance map_store_writable : NvWritable var_map.
Proof. intros k d s. done. Qed.

(** A store that refuses the writes its guard rejects. *)
Record guarded_map : Type := mkGuarded { gm_vars : var_map; gm_guard : var_key -> bool }.

#[export] Instance guarded_store : NvStore guarded_map := {
  nv_get k s := gm_vars s !! k;
  nv_set k d s :=
    if gm_guard s k
    then (mkGuarded (if is_empty d then delete k (gm_vars s) else <[k := d]> (gm_vars s)) (gm_guard s), true)
    else (s, false)
}.

#[export] Instance guarded_store_laws : NvLaws guarded_map.
Proof.
  split; simpl.
  - intros k d [m g] Hd. simpl. destruct (g k); simpl; [|done]. intros _.
    destruct d; [done|]. simpl. apply lookup_insert_eq.
  - intros k k' d [m g] Hne. simpl. destruct (g k); simpl; [|done].
    destruct (is_empty d); [by apply lookup_delete_ne|by apply lookup_insert_ne].
  - intros k k' d [m g]. simpl. destruct (g k); simpl; done.
Qed.
