(* ===== verification/Health.v ===== *)
(** * Boot health (health.rs, version.rs)

    Crash detection across boots through UEFI variables.  Every function takes
    the variable store and returns it; the clock, the VM generation id and the
    package version are arguments. *)
From S2P Require Import Prelude RustStr Nvram.
Local Open Scope Z_scope.

Definition LAMBOOT_VENDOR : list Z := lit "4c414d42-4f4f-5400-0000-000000000001".
Definition LOADER_VENDOR : list Z := lit "4a67b082-0a4c-41cf-b6c7-440b29bb8c4f".
Definition EFI_GLOBAL_VARIABLE : list Z := lit "8be4df61-93ca-11d2-aa0d-00e098032b8c".

Definition STATE_VAR : var_key := (LAMBOOT_VENDOR, lit "LamBootState").
Definition CRASH_COUNTER_VAR : var_key := (LAMBOOT_VENDOR, lit "LamBootCrashCount").
Definition LAST_ENTRY_VAR : var_key := (LAMBOOT_VENDOR, lit "LamBootLastEntry").
Definition TIMESTAMP_VAR : var_key := (LAMBOOT_VENDOR, lit "LamBootTimestamp").
Definition VERSION_VAR : var_key := (LAMBOOT_VENDOR, lit "LamBootVersion").
Definition VMGENID_VAR : var_key := (LAMBOOT_VENDOR, lit "LamBootVmGenId").
Definition LOADER_INFO_VAR : var_key := (LOADER_VENDOR, lit "LoaderInfo").
Definition LOADER_ENTRY_SELECTED_VAR : var_key := (LOADER_VENDOR, lit "LoaderEntrySelected").
Definition LOADER_BOOT_COUNT_PATH_VAR : var_key := (LOADER_VENDOR, lit "LoaderBootCountPath").
Definition OS_INDICATIONS_VAR : var_key := (EFI_GLOBAL_VARIABLE, lit "OsIndications").
Definition OS_INDICATIONS_SUPPORTED_VAR : var_key := (EFI_GLOBAL_VARIABLE, lit "OsIndicationsSupported").
Definition EFI_OS_INDICATIONS_BOOT_TO_FW_UI : Z := 1.

Inductive BootState : Type := Fresh | Booting | BootedOK | CrashLoop.

#[export] Instance BootState_eq_dec : EqDecision BootState.
Proof. solve_decision. Defined.

Definition state_to_u8 (s : BootState) : Z :=
  match s with Fresh => 0 | Booting => 1 | BootedOK => 2 | CrashLoop => 3 end.

Definition state_from_u8 (v : Z) : BootState :=
  if v =? 1 then Booting else if v =? 2 then BootedOK else if v =? 3 then CrashLoop else Fresh.

(** The fields of [uefi::runtime::Time] that are stored. *)
Record efi_time : Type := mkTime {
  t_year : Z; t_month : Z; t_day : Z; t_hour : Z; t_minute : Z; t_second : Z
}.

(** ** version.rs *)
Definition NAME : list Z := lit "LamBoot".

Fixpoint parse_u32_or_zero_go (n : Z) (s : list Z) : Z :=
  match s with
  | [] => n
  | b :: s' => if (b <? 48) || (57 <? b) then 0 else parse_u32_or_zero_go (n * 10 + (b - 48)) s'
  end.
Definition parse_u32_or_zero (s : list Z) : Z := parse_u32_or_zero_go 0 s.

(** The package version: the three components and the whole string. *)
Record pkg_version : Type := mkVersion {
  v_string : list Z; v_major : list Z; v_minor : list Z; v_patch : list Z
}.

Definition VERSION_PACKED_U32 (v : pkg_version) : Z :=
  Z.lor (Z.lor (Z.shiftl (parse_u32_or_zero (v_major v)) 16) (Z.shiftl (parse_u32_or_zero (v_minor v)) 8))
        (parse_u32_or_zero (v_patch v)).

Definition loader_info_utf16le (v : pkg_version) : list Z :=
  flat_map (to_le 2) (encode_utf16 (NAME ++ [c_space] ++ v_string v)) ++ [0; 0].

Section ops.
Context `{NvStore St}.

Definition get_state (s : St) : BootState :=
  match get_variable 1 STATE_VAR s with
  | Some (b :: _) => state_from_u8 b
  | _ => Fresh
  end.

Definition set_state (st : BootState) (s : St) : St * bool := nv_set STATE_VAR [state_to_u8 st] s.

Definition get_crash_counter (s : St) : Z :=
  match get_variable 1 CRASH_COUNTER_VAR s with
  | Some (b :: _) => b
  | _ => 0
  end.

Definition write_timestamp (time : option efi_time) (s : St) : St :=
  match time with
  | Some t =>
      set_ignoring TIMESTAMP_VAR
        [Z.land (t_year t) 255; wrap 8 (Z.shiftr (t_year t) 8); t_month t; t_day t; t_hour t;
         t_minute t; t_second t; 0] s
  | None => set_ignoring TIMESTAMP_VAR (replicate 8 0) s
  end.

(** The second write is only made when the first succeeds. *)
Definition set_loader_info (v : pkg_version) (s : St) : St :=
  let '(s, ok) := nv_set LOADER_INFO_VAR (loader_info_utf16le v) s in
  if ok then set_ignoring VERSION_VAR (to_le 4 (VERSION_PACKED_U32 v)) s else s.

Definition get_vmgenid (s : St) : option (list Z) :=
  match get_variable 16 VMGENID_VAR s with
  | Some d => if len d =? 16 then Some d else None
  | None => None
  end.

Definition next_counter (prev : BootState) (counter : Z) : Z :=
  match prev with
  | Booting => saturating_add u8_max counter 1
  | BootedOK | Fresh => 0
  | CrashLoop => counter
  end.

(** The generation id to store, when the VM has one that is not the stored one. *)
Definition changed_genid (vmgenid : option (list Z)) (s : St) : option (list Z) :=
  match vmgenid with
  | Some current => if bool_decide (get_vmgenid s = Some current) then None else Some current
  | None => None
  end.

(** The counter this boot reports, and the store it leaves. *)
Definition assess_boot_health (vmgenid : option (list Z)) (time : option efi_time) (v : pkg_version) (s : St)
    : Z * St :=
  match changed_genid vmgenid s with
  | Some current =>
      let s := (set_state Fresh s).1 in
      let s := set_ignoring CRASH_COUNTER_VAR [0] s in
      let s := set_ignoring VMGENID_VAR current s in
      let s := write_timestamp time s in
      (0, set_loader_info v s)
  | None =>
      let counter := next_counter (get_state s) (get_crash_counter s) in
      let s := set_ignoring CRASH_COUNTER_VAR [counter] s in
      let s := (set_state Booting s).1 in
      let s := write_timestamp time s in
      (counter, set_loader_info v s)
  end.

Definition is_crash_loop (threshold : Z) (s : St) : bool := threshold <=? get_crash_counter s.

(** Each byte of the string followed by a zero byte, then two zero bytes. *)
Definition widen_bytes (bytes : list Z) : list Z := flat_map (fun b => [b; 0]) bytes ++ [0; 0].

Definition record_boot_entry (entry_id : str) (s : St) : St * bool :=
  let bytes := take 128 (str_bytes entry_id) in
  let '(s, ok) := nv_set LAST_ENTRY_VAR bytes s in
  if ok then (set_ignoring LOADER_ENTRY_SELECTED_VAR (widen_bytes bytes) s, true) else (s, false).

Definition set_boot_count_path (path : str) (s : St) : St * bool :=
  nv_set LOADER_BOOT_COUNT_PATH_VAR (widen_bytes (take 256 (str_bytes path))) s.

Definition mark_boot_success (time : option efi_time) (s : St) : St * bool :=
  let '(s, ok) := set_state BootedOK s in
  if negb ok then (s, false)
  else
    let '(s, ok) := nv_set CRASH_COUNTER_VAR [0] s in
    if negb ok then (s, false) else (write_timestamp time s, true).

(** A little-endian number of at most eight bytes, zero extended. *)
Definition read_indications (k : var_key) (s : St) : Z :=
  match get_variable 8 k s with
  | Some d => from_le (take 8 d)
  | None => 0
  end.

(** [reboot_to_firmware_setup] up to the reset. *)
Definition reboot_to_firmware_setup (s : St) : St :=
  let supported := read_indications OS_INDICATIONS_SUPPORTED_VAR s in
  if negb (Z.land supported EFI_OS_INDICATIONS_BOOT_TO_FW_UI =? 0) then
    let current := read_indications OS_INDICATIONS_VAR s in
    set_ignoring OS_INDICATIONS_VAR (to_le 8 (Z.lor current EFI_OS_INDICATIONS_BOOT_TO_FW_UI)) s
  else s.
End ops.

(** ** Frames *)
Section frames.
Context `{NvLaws St}.

Lemma write_timestamp_other (time : option efi_time) (k : var_key) (s : St) :
  k <> TIMESTAMP_VAR -> nv_get k (write_timestamp time s) = nv_get k s.
Proof. intros Hk. unfold write_timestamp. destruct time; apply get_ignoring_other; congruence. Qed.

Lemma set_loader_info_other (v : pkg_version) (k : var_key) (s : St) :
  k <> LOADER_INFO_VAR -> k <> VERSION_VAR -> nv_get k (set_loader_info v s) = nv_get k s.
Proof.
  intros H1 H2. unfold set_loader_info.
  pose proof (nv_get_other LOADER_INFO_VAR k (loader_info_utf16le v) s) as Ho.
  destruct (nv_set LOADER_INFO_VAR (loader_info_utf16le v) s) as [s1 ok]. simpl in Ho.
  destruct ok; [rewrite get_ignoring_other by congruence|]; apply Ho; congruence.
Qed.

Lemma set_state_other (b : BootState) (k : var_key) (s : St) :
  k <> STATE_VAR -> nv_get k (set_state b s).1 = nv_get k s.
Proof. intros Hk. apply nv_get_other. congruence. Qed.

Lemma get_variable_ext (n : Z) (k : var_key) (s s' : St) :
  nv_get k s' = nv_get k s -> get_variable n k s' = get_variable n k s.
Proof. intros E. unfold get_variable. by rewrite E. Qed.

Definition own_vars : list var_key :=
  [STATE_VAR; CRASH_COUNTER_VAR; TIMESTAMP_VAR; VERSION_VAR; VMGENID_VAR; LOADER_INFO_VAR].

Lemma assess_frame (g : option (list Z)) (time : option efi_time) (v : pkg_version) (k : var_key) (s : St) :
  k ∉ own_vars -> nv_get k (assess_boot_health g time v s).2 = nv_get k s.
Proof.
  unfold own_vars. rewrite !not_elem_of_cons. intros (H1 & H2 & H3 & H4 & H5 & H6 & _).
  unfold assess_boot_health. destruct (changed_genid g s); simpl;
    by rewrite set_loader_info_other, write_timestamp_other, ?get_ignoring_other, ?set_state_other,
      ?get_ignoring_other by congruence.
Qed.
End frames.

Ltac key_neq := let E := fresh in intros E; vm_compute in E; discriminate E.

Ltac nv_frame :=
  repeat first
    [rewrite set_loader_info_other by key_neq
    |rewrite write_timestamp_other by key_neq
    |rewrite set_state_other by key_neq
    |rewrite get_ignoring_other by key_neq].

(** ** The state machine on a store that accepts writes *)
Section machine.
Context `{NvLaws St} `{!NvWritable St}.

(** What the next boot will find. *)
Definition seen (s : St) (b : BootState) (c : Z) : Prop := get_state s = b /\ get_crash_counter s = c.

Lemma state_u8_roundtrip (b : BootState) : state_from_u8 (state_to_u8 b) = b.
Proof. by destruct b. Qed.

Lemma get_state_stored (b : BootState) (s : St) :
  nv_get STATE_VAR s = Some [state_to_u8 b] -> get_state s = b.
Proof. intros E. unfold get_state, get_variable. rewrite E. simpl. apply state_u8_roundtrip. Qed.

Lemma get_counter_stored (c : Z) (s : St) :
  nv_get CRASH_COUNTER_VAR s = Some [c] -> get_crash_counter s = c.
Proof. intros E. unfold get_crash_counter, get_variable. by rewrite E. Qed.

Lemma set_state_same (b : BootState) (s : St) : nv_get STATE_VAR (set_state b s).1 = Some [state_to_u8 b].
Proof. apply nv_get_set; [done|apply nv_accepts]. Qed.

Lemma assess_counts (g : option (list Z)) (time : option efi_time) (v : pkg_version) (s : St) :
  changed_genid g s = None ->
  let '(c, s') := assess_boot_health g time v s in
  c = next_counter (get_state s) (get_crash_counter s) /\ seen s' Booting c /\ changed_genid g s' = None.
Proof.
  intros Hg. unfold assess_boot_health. rewrite Hg. split; [done|]. split; [split|].
  - apply get_state_stored. nv_frame. apply set_state_same.
  - apply get_counter_stored. nv_frame. by apply get_ignoring_same.
  - rewrite <- Hg. unfold changed_genid, get_vmgenid. destruct g; [|done].
    rewrite (get_variable_ext 16 VMGENID_VAR s); [done|]. by nv_frame.
Qed.

Lemma assess_resets (g : list Z) (time : option efi_time) (v : pkg_version) (s : St) :
  len g = 16 -> changed_genid (Some g) s = Some g ->
  let '(c, s') := assess_boot_health (Some g) time v s in
  c = 0 /\ seen s' Fresh 0 /\ changed_genid (Some g) s' = None.
Proof.
  intros Hl Hg. unfold assess_boot_health. rewrite Hg. split; [done|]. split; [split|].
  - apply get_state_stored. nv_frame. apply set_state_same.
  - apply get_counter_stored. nv_frame. by apply get_ignoring_same.
  - unfold changed_genid, get_vmgenid, get_variable. nv_frame.
    rewrite get_ignoring_same by (by destruct g). rewrite Hl, Z.leb_refl, Hl, Z.eqb_refl.
    by rewrite bool_decide_eq_true_2.
Qed.

Lemma mark_success_seen (g : option (list Z)) (time : option efi_time) (s : St) :
  changed_genid g s = None ->
  let '(s', ok) := mark_boot_success time s in
  ok = true /\ seen s' BootedOK 0 /\ changed_genid g s' = None.
Proof.
  intros Hg. unfold mark_boot_success.
  pose proof (nv_accepts STATE_VAR [state_to_u8 BootedOK] s) as A1. fold (set_state BootedOK s) in A1.
  pose proof (set_state_same BootedOK s) as G1.
  pose proof (fun k => set_state_other BootedOK k s) as F1.
  destruct (set_state BootedOK s) as [s1 ok1]. simpl in *. subst ok1. cbn [negb].
  pose proof (nv_accepts CRASH_COUNTER_VAR [0] s1) as A2.
  pose proof (nv_get_set CRASH_COUNTER_VAR [0] s1 ltac:(done) A2) as G2.
  pose proof (fun k => nv_get_other CRASH_COUNTER_VAR k [0] s1) as F2.
  destruct (nv_set CRASH_COUNTER_VAR [0] s1) as [s2 ok2]. simpl in *. subst ok2. cbn [negb].
  split; [done|]. split; [split|].
  - apply get_state_stored. nv_frame. rewrite F2 by key_neq. done.
  - apply get_counter_stored. by nv_frame.
  - rewrite <- Hg. unfold changed_genid, get_vmgenid. destruct g; [|done].
    rewrite (get_variable_ext 16 VMGENID_VAR s); [done|]. nv_frame.
    rewrite F2, F1 by key_neq. done.
Qed.

(** A boot: the assessment, and later either a mark of success or nothing. *)
Definition boot_once (g : option (list Z)) (time : option efi_time) (v : pkg_version) (s : St) (ok : bool) : St :=
  let s1 := (assess_boot_health g time v s).2 in
  if ok then (mark_boot_success time s1).1 else s1.

(** The number of failed boots since the last successful one. *)
Definition trailing_failures (history : list bool) : Z :=
  foldl (fun n ok => if ok : bool then 0 else n + 1) 0 history.

Definition health_inv (g : option (list Z)) (n : Z) (s : St) : Prop :=
  0 <= n /\ changed_genid g s = None /\
  (if decide (n = 0) then get_state s = Fresh \/ get_state s = BootedOK
   else get_state s = Booting /\ get_crash_counter s = Z.min 255 (n - 1)).

Lemma health_inv_counter (g : option (list Z)) (n : Z) (s : St) :
  health_inv g n s -> next_counter (get_state s) (get_crash_counter s) = Z.min 255 n.
Proof.
  intros (Hn & _ & Hs). destruct (decide (n = 0)) as [->|].
  - by destruct Hs as [-> | ->].
  - destruct Hs as [-> ->]. unfold next_counter, saturating_add, u8_max. lia.
Qed.

Lemma boot_once_inv (g : option (list Z)) (time : option efi_time) (v : pkg_version) (n : Z) (s : St) (ok : bool) :
  health_inv g n s -> health_inv g (if ok then 0 else n + 1) (boot_once g time v s ok).
Proof.
  intros Hi. pose proof (health_inv_counter g n s Hi) as Hc. destruct Hi as (Hn & Hg & _).
  unfold boot_once. pose proof (assess_counts g time v s Hg) as Ha.
  destruct (assess_boot_health g time v s) as [c s1]. cbn [snd]. destruct Ha as (-> & [S1 C1] & G1).
  destruct ok.
  - pose proof (mark_success_seen g time s1 G1) as Hm. destruct (mark_boot_success time s1) as [s2 okm].
    destruct Hm as (_ & [S2 _] & G2). cbn [fst]. split_and!; [lia|done|]. rewrite decide_True by done. by right.
  - split_and!; [lia|done|]. rewrite decide_False by lia. split; [done|]. rewrite C1, Hc. f_equal. lia.
Qed.

Lemma boots_inv (g : option (list Z)) (time : option efi_time) (v : pkg_version) (history : list bool) (s : St) (n : Z) :
  health_inv g n s ->
  health_inv g (foldl (fun n ok => if ok : bool then 0 else n + 1) n history) (foldl (boot_once g time v) s history).
Proof.
  revert s n. induction history as [|ok h IH]; intros s n Hi; [done|]. simpl. by apply IH, boot_once_inv.
Qed.
End machine.

(** From a machine that last booted well (or never), with the VM generation
    unchanged, the counter reported after any history of good and failed boots
    is the number of failures since the last success, saturating at 255, and
    the crash-loop test fires exactly when it reaches the threshold. *)
Theorem crash_counter_counts_failures `{NvLaws St} `{!NvWritable St} (g : option (list Z))
    (time : option efi_time) (v : pkg_version) (s : St) (history : list bool) (threshold : Z) :
  changed_genid g s = None -> (get_state s = Fresh \/ get_state s = BootedOK) ->
  let '(c, s') := assess_boot_health g time v (foldl (boot_once g time v) s history) in
  c = Z.min 255 (trailing_failures history) /\
  is_crash_loop threshold s' = (threshold <=? Z.min 255 (trailing_failures history)).
Proof.
  intros Hg Hs. assert (health_inv g 0 s) as Hi.
  { split_and!; [lia|done|]. by rewrite decide_True by done. }
  apply (boots_inv g time v history) in Hi. fold (trailing_failures history) in Hi.
  pose proof (health_inv_counter _ _ _ Hi) as Hc. destruct Hi as (_ & Hg' & _).
  pose proof (assess_counts g time v _ Hg') as Ha.
  destruct (assess_boot_health g time v (foldl (boot_once g time v) s history)) as [c s'].
  destruct Ha as (-> & [_ C] & _). split; [done|]. unfold is_crash_loop. by rewrite C, Hc.
Qed.

Definition demo_version : pkg_version := mkVersion (lit "0.11.0") (lit "0") (lit "11") (lit "0").

Lemma crash_counter_counts_failures_witness :
  let s' := (assess_boot_health None None demo_version
               (foldl (boot_once None None demo_version) (∅ : var_map) [false; true; false; false])).2 in
  is_crash_loop 2 s' = true /\ is_crash_loop 3 s' = false.
Proof.
  pose proof (fun t => crash_counter_counts_failures None None demo_version (∅ : var_map)
                [false; true; false; false] t) as H.
  pose proof (H 2 eq_refl (or_introl eq_refl)) as H2. pose proof (H 3 eq_refl (or_introl eq_refl)) as H3.
  clear H. destruct (assess_boot_health None None demo_version
    (foldl (boot_once None None demo_version) (∅ : var_map) [false; true; false; false])) as [c s'].
  destruct H2 as [_ H2], H3 as [_ H3]. split; [exact H2|exact H3].
Defined.

(** The first boot after a VM generation change (snapshot restore, clone)
    never counts the earlier failures: it reports zero, is not a crash loop for
    any positive threshold, remembers the new generation, and boots counted from
    there start from zero. *)
Theorem generation_change_resets `{NvLaws St} `{!NvWritable St} (g : list Z)
    (time : option efi_time) (v : pkg_version) (s : St) (history : list bool) (threshold : Z) :
  len g = 16 -> get_vmgenid s <> Some g -> 0 < threshold ->
  let '(c, s') := assess_boot_health (Some g) time v s in
  c = 0 /\ is_crash_loop threshold s' = false /\ get_vmgenid s' = Some g /\
  (assess_boot_health (Some g) time v (foldl (boot_once (Some g) time v) s' history)).1
  = Z.min 255 (trailing_failures history).
Proof.
  intros Hl Hne Ht. assert (changed_genid (Some g) s = Some g) as Hg.
  { unfold changed_genid. by rewrite bool_decide_eq_false_2. }
  pose proof (assess_resets g time v s Hl Hg) as Ha.
  destruct (assess_boot_health (Some g) time v s) as [c s']. destruct Ha as (-> & [HS HC] & HG).
  split_and!; [done| | |].
  - unfold is_crash_loop. rewrite HC. apply Z.leb_gt. lia.
  - unfold changed_genid in HG. by case_bool_decide.
  - assert (health_inv (Some g) 0 s') as Hi.
    { split_and!; [lia|done|]. rewrite decide_True by done. by left. }
    apply (boots_inv (Some g) time v history) in Hi. fold (trailing_failures history) in Hi.
    pose proof (health_inv_counter _ _ _ Hi) as Hc. destruct Hi as (_ & Hg' & _).
    pose proof (assess_counts (Some g) time v _ Hg') as Ha.
    destruct (assess_boot_health (Some g) time v _) as [c s'']. destruct Ha as (-> & _). done.
Qed.

Lemma generation_change_resets_witness :
  let s := foldl (boot_once None None demo_version) (∅ : var_map) [false; false; false] in
  (assess_boot_health None None demo_version s).1 = 3 /\
  (assess_boot_health (Some (replicate 16 7)) None demo_version s).1 = 0.
Proof.
  cbv zeta. split; [vm_compute; reflexivity|].
  pose proof (generation_change_resets (replicate 16 7) None demo_version
    (foldl (boot_once None None demo_version) (∅ : var_map) [false; false; false]) [] 3) as H.
  assert (get_vmgenid (foldl (boot_once None None demo_version) (∅ : var_map) [false; false; false])
          <> Some (replicate 16 7)) as Hne by key_neq.
  specialize (H eq_refl Hne ltac:(lia)).
  destruct (assess_boot_health (Some (replicate 16 7)) None demo_version
    (foldl (boot_once None None demo_version) (∅ : var_map) [false; false; false])) as [c s'].
  apply H.
Defined.

(** On any variable store, even one that refuses writes, the assessment
    reports a counter computed from what was stored, and it changes no variable
    but its own six. *)
Theorem assess_degrades_gracefully `{NvLaws St} (g : option (list Z)) (time : option efi_time)
    (v : pkg_version) (s : St) :
  let '(c, s') := assess_boot_health g time v s in
  (c = 0 \/ c = next_counter (get_state s) (get_crash_counter s)) /\
  (forall k, k ∉ own_vars -> nv_get k s' = nv_get k s).
Proof.
  pose proof (fun k => assess_frame g time v k s) as Hf.
  unfold assess_boot_health in *. destruct (changed_genid g s); simpl in *; auto.
Qed.

Lemma assess_degrades_gracefully_witness :
  let s := mkGuarded {[ STATE_VAR := [1]; CRASH_COUNTER_VAR := [2] ]} (fun _ => false) in
  (assess_boot_health None None demo_version s).1 = 3 /\
  nv_get LAST_ENTRY_VAR (assess_boot_health None None demo_version s).2 = None.
Proof.
  cbv zeta. split; [vm_compute; reflexivity|].
  pose proof (assess_degrades_gracefully None None demo_version
    (mkGuarded {[ STATE_VAR := [1]; CRASH_COUNTER_VAR := [2] ]} (fun _ => false))) as H.
  destruct (assess_boot_health None None demo_version
    (mkGuarded {[ STATE_VAR := [1]; CRASH_COUNTER_VAR := [2] ]} (fun _ => false))) as [c s'].
  destruct H as [_ H]. simpl. etransitivity; [apply H|vm_compute; reflexivity].
  apply (bool_decide_unpack _). vm_compute. exact I.
Defined.

(** ** Firmware setup *)
(** Asking for the firmware setup sets the request bit and keeps every
    other bit of OsIndications; firmware that does not support it is left
    alone. *)
Theorem firmware_setup_sets_one_bit `{NvLaws St} `{!NvWritable St} (s : St) :
  (forall d, nv_get OS_INDICATIONS_VAR s = Some d -> Forall is_byte d) ->
  let supported := Z.testbit (read_indications OS_INDICATIONS_SUPPORTED_VAR s) 0 in
  let before := read_indications OS_INDICATIONS_VAR s in
  let after := read_indications OS_INDICATIONS_VAR (reboot_to_firmware_setup s) in
  (supported = true -> after = Z.setbit before 0) /\
  (supported = false -> reboot_to_firmware_setup s = s).
Proof.
  intros Hb. cbv zeta. unfold reboot_to_firmware_setup, EFI_OS_INDICATIONS_BOOT_TO_FW_UI.
  assert (forall x, Z.land x 1 =? 0 = negb (Z.testbit x 0)) as Hbit.
  { intros x. change 1 with (Z.ones 1). rewrite Z.land_ones by lia. change (2 ^ 1) with 2.
    rewrite Z.bit0_odd, Zmod_odd. by destruct (Z.odd x). }
  rewrite Hbit. destruct (Z.testbit _ 0); cbn [negb]; split; [|done|done|done]. intros _.
  set (b := read_indications OS_INDICATIONS_VAR s).
  assert (0 <= b < 2 ^ 64) as Hr.
  { unfold b, read_indications, get_variable. destruct (nv_get OS_INDICATIONS_VAR s) as [d|] eqn:E; [|lia].
    specialize (Hb d eq_refl). destruct (len d <=? 8); [|lia].
    pose proof (from_le_bound (take 8 d) ltac:(by apply Forall_take)) as Hf.
    assert (256 ^ Z.of_nat (length (take 8 d)) <= 256 ^ 8); [|lia].
    apply Z.pow_le_mono_r; [lia|]. rewrite length_take. lia. }
  unfold read_indications at 1, get_variable. rewrite get_ignoring_same by done.
  change (len (to_le 8 _) <=? 8) with true. cbn iota. rewrite take_ge by done.
  assert (0 <= Z.lor b 1 < 2 ^ 64) as Hlor.
  { split; [apply Z.lor_nonneg; lia|]. destruct (Z.eq_dec (Z.lor b 1) 0) as [->|Hnz]; [lia|].
    apply Z.log2_lt_pow2; [pose proof (Z.lor_nonneg b 1); lia|]. rewrite Z.log2_lor by lia.
    apply Z.max_lub_lt; [|done]. destruct (Z.eq_dec b 0) as [->|]; [done|]. apply Z.log2_lt_pow2; lia. }
  rewrite from_to_le by exact Hlor. by rewrite Z.setbit_spec'.
Qed.

Lemma firmware_setup_sets_one_bit_witness :
  let s : var_map := {[ OS_INDICATIONS_SUPPORTED_VAR := to_le 8 65; OS_INDICATIONS_VAR := to_le 8 64 ]} in
  read_indications OS_INDICATIONS_VAR (reboot_to_firmware_setup s) = 65.
Proof.
  cbv zeta.
  pose proof (firmware_setup_sets_one_bit
    ({[ OS_INDICATIONS_SUPPORTED_VAR := to_le 8 65; OS_INDICATIONS_VAR := to_le 8 64 ]} : var_map)) as H.
  destruct H as [H _].
  - intros d Hd. vm_compute in Hd. injection Hd as <-. apply (bool_decide_unpack _). vm_compute. exact I.
  - etransitivity; [apply H; vm_compute; reflexivity|vm_compute; reflexivity].
Defined.

(** ** Entry identifiers as UTF-16 *)
Lemma ascii_bytes (s : list Z) : Forall (fun c => 0 <= c < 128) s -> str_bytes s = s.
Proof.
  induction 1 as [|c s Hc _ IH]; [done|]. unfold str_bytes in *. simpl. rewrite IH.
  unfold char_utf8. destruct (Z.ltb_spec c 128); [done|lia].
Qed.

(** For an ASCII entry id of at most 128 characters, the store holds the id
    itself in LamBootLastEntry and its NUL-terminated UTF-16LE form in
    LoaderEntrySelected. *)
Theorem record_boot_entry_ascii `{NvLaws St} `{!NvWritable St} (id : list Z) (s : St) :
  Forall (fun c => 0 <= c < 128) id -> id <> [] -> (length id <= 128)%nat ->
  let '(s', ok) := record_boot_entry id s in
  ok = true /\ nv_get LAST_ENTRY_VAR s' = Some id /\
  nv_get LOADER_ENTRY_SELECTED_VAR s' = Some (flat_map (to_le 2) (encode_utf16 id ++ [0])).
Proof.
  intros Ha Hne Hl. unfold record_boot_entry. rewrite ascii_bytes, take_ge by done.
  pose proof (nv_accepts LAST_ENTRY_VAR id s) as A.
  pose proof (nv_get_set LAST_ENTRY_VAR id s Hne A) as G.
  destruct (nv_set LAST_ENTRY_VAR id s) as [s1 ok]. simpl in *. subst ok. split_and!; [done| |].
  - rewrite get_ignoring_other by key_neq. done.
  - rewrite get_ignoring_same by (unfold widen_bytes; by destruct id). f_equal.
    unfold widen_bytes. rewrite flat_map_app. f_equal. clear G s1 s Hne Hl.
    induction Ha as [|c id Hc _ IH]; [done|]. unfold encode_utf16 in *. simpl. rewrite IH.
    unfold char_utf16. destruct (Z.ltb_spec c 65536); [|lia]. simpl.
    rewrite Z.mod_small by lia. rewrite Z.div_small by lia. done.
Qed.

Lemma record_boot_entry_ascii_witness :
  nv_get LOADER_ENTRY_SELECTED_VAR (record_boot_entry (lit "arch") (∅ : var_map)).1
  = Some [97; 0; 114; 0; 99; 0; 104; 0; 0; 0].
Proof.
  pose proof (record_boot_entry_ascii (lit "arch") (∅ : var_map)) as H.
  assert (Forall (fun c => 0 <= c < 128) (lit "arch")) as Ha by (repeat constructor; vm_compute; congruence).
  specialize (H Ha ltac:(done) ltac:(vm_compute; lia)).
  destruct (record_boot_entry (lit "arch") (∅ : var_map)) as [s' ok]. destruct H as (_ & _ & H).
  etransitivity; [exact H|vm_compute; reflexivity].
Defined.
