(* ===== verification/NvBootEntry.v ===== *)
(** * The persistent boot entry (boot_entry_pure.rs, boot_entry.rs)

    Codecs of the [Boot####] and [BootOrder] variables and the self-install
    that uses them on a variable store.  The device path of the running image
    comes from the firmware and is an argument. *)
From S2P Require Import Prelude Compare RustStr Nvram.
Local Open Scope Z_scope.

Definition LOAD_OPTION_ACTIVE : Z := 1.

Definition encode_load_option (attributes : Z) (description : str) (device_path optional_data : list Z)
    : list Z :=
  let fpl_len := if len device_path <=? u16_max then len device_path else u16_max in
  to_le 4 attributes ++ to_le 2 fpl_len ++ flat_map (to_le 2) (encode_utf16 description)
  ++ to_le 2 0 ++ device_path ++ optional_data.

(** The [while i + 1 < bytes.len()] loop: code units up to a NUL. *)
Fixpoint description_units (bytes : list Z) : list Z :=
  match bytes with
  | b0 :: b1 :: rest =>
      let unit := from_le [b0; b1] in
      if unit =? 0 then [] else unit :: description_units rest
  | _ => []
  end.

Definition parse_load_option_description (bytes : list Z) : option (list Z) :=
  if len bytes <? 6 then None else Some (from_utf16_lossy (description_units (drop 6 bytes))).

(** [chunks_exact(2)]: a trailing odd byte is dropped. *)
Fixpoint decode_boot_order (bytes : list Z) : list Z :=
  match bytes with
  | b0 :: b1 :: rest => from_le [b0; b1] :: decode_boot_order rest
  | _ => []
  end.

Definition encode_boot_order (order : list Z) : list Z := flat_map (to_le 2) order.

Definition boot_order_with_front (order : list Z) (new : Z) : list Z :=
  if bool_decide (new ∈ order) then order else new :: order.

(** [(0..=max).find(|n| !used.contains(n))] *)
Definition first_free_boot_number (used : list Z) (max : Z) : option Z :=
  List.find (fun n => negb (bool_decide (n ∈ used))) (seqZ 0 (max + 1)).

Definition boot_var_name (num : Z) : list Z := lit "Boot" ++ fmt_hex_upper 4 num.

(** ** Self-loop detection: [path] is what [running_image_file_path] found. *)
Definition booted_via_removable_fallback (path : option (list Z)) : bool :=
  match path with
  | Some p =>
      let up := to_ascii_uppercase p in
      ends_with (lit "\EFI\BOOT\BOOTX64.EFI") up || ends_with (lit "/EFI/BOOT/BOOTX64.EFI") up
  | None => false
  end.

(** ** The self-install *)
Definition GLOBAL : list Z := lit "8be4df61-93ca-11d2-aa0d-00e098032b8c".
Definition BOOT_ORDER : var_key := (GLOBAL, lit "BootOrder").
Definition boot_key (num : Z) : var_key := (GLOBAL, boot_var_name num).
Definition BOOT_SCAN_MAX : Z := 255.

Inductive SelfInstall : Type :=
  | Created (num : Z)
  | AlreadyPresent (num : Z)
  | NoDevicePath
  | InstallFailed.

(** What the firmware gives for the device path of the installed binary: the
    protocols may be missing, or building the path may fail. *)
Inductive device_path_result : Type :=
  | PathMissing
  | PathFailed
  | PathBytes (bytes : list Z).

Section install.
Context `{NvStore St}.

(** The idempotency scan over [Boot0000..Boot00FF]. *)
Fixpoint scan_slots (nums : list Z) (description : str) (s : St) (used : list Z) (existing : option Z)
    : list Z * option Z :=
  match nums with
  | [] => (used, existing)
  | num :: rest =>
      match nv_get (boot_key num) s with
      | Some data =>
          let existing :=
            match existing with
            | None => if bool_decide (parse_load_option_description data = Some description)
                      then Some num else None
            | Some n => Some n
            end in
          scan_slots rest description s (used ++ [num]) existing
      | None => scan_slots rest description s used existing
      end
  end.

Definition ensure_named_boot_entry (dp : device_path_result) (description : str) (s : St)
    : SelfInstall * St :=
  match dp with
  | PathMissing => (NoDevicePath, s)
  | PathFailed => (InstallFailed, s)
  | PathBytes dp_bytes =>
      let '(used, existing) := scan_slots (seqZ 0 (BOOT_SCAN_MAX + 1)) description s [] None in
      match existing with
      | Some num => (AlreadyPresent num, s)
      | None =>
          match first_free_boot_number used BOOT_SCAN_MAX with
          | None => (InstallFailed, s)
          | Some num =>
              let option := encode_load_option LOAD_OPTION_ACTIVE description dp_bytes [] in
              let '(s, ok) := nv_set (boot_key num) option s in
              if negb ok then (InstallFailed, s)
              else
                let order_bytes := default [] (nv_get BOOT_ORDER s) in
                let order := decode_boot_order order_bytes in
                let new_order := boot_order_with_front order num in
                (Created num, set_ignoring BOOT_ORDER (encode_boot_order new_order) s)
          end
      end
  end.
End install.

(** ** Codecs *)
Lemma from_le_pair (u : Z) : 0 <= u < 65536 -> from_le [u mod 256; (u / 256) mod 256] = u.
Proof. intros H. apply (from_to_le 2 u). exact H. Qed.

Lemma decode_encode_order (order rest : list Z) :
  Forall (fun n => 0 <= n <= u16_max) order ->
  decode_boot_order (encode_boot_order order ++ rest) = order ++ decode_boot_order rest.
Proof.
  unfold u16_max. induction 1 as [|n order Hn _ IH]; [done|].
  change (encode_boot_order (n :: order)) with (n mod 256 :: (n / 256) mod 256 :: encode_boot_order order).
  cbn [app decode_boot_order]. rewrite from_le_pair by lia. by rewrite IH.
Qed.

Lemma description_units_encode (us rest : list Z) :
  Forall (fun u => 0 < u < 65536) us ->
  description_units (flat_map (to_le 2) us ++ to_le 2 0 ++ rest) = us.
Proof.
  induction 1 as [|u us Hu _ IH]; [done|].
  change (flat_map (to_le 2) (u :: us)) with (u mod 256 :: (u / 256) mod 256 :: flat_map (to_le 2) us).
  cbn [app description_units]. rewrite from_le_pair by lia.
  destruct (Z.eqb_spec u 0); [lia|]. f_equal. exact IH.
Qed.

(** Text that UTF-16 can carry without a NUL. *)
Definition text (s : list Z) : Prop := Forall (fun c => is_scalar c = true /\ c <> 0) s.

Lemma char_utf16_units (c : Z) :
  is_scalar c = true -> c <> 0 -> Forall (fun u => 0 < u < 65536) (char_utf16 c).
Proof.
  unfold is_scalar, char_utf16. intros Hc Hz. destruct (Z.ltb_spec c 65536).
  - constructor; [lia|constructor].
  - pose proof (Z.div_lt_upper_bound (c - 65536) 1024 1024).
    pose proof (Z.div_pos (c - 65536) 1024). pose proof (Z.mod_pos_bound (c - 65536) 1024).
    constructor; [lia|constructor; [lia|constructor]].
Qed.

Lemma description_roundtrip (attributes : Z) (description : list Z) (dp opt : list Z) :
  text description ->
  parse_load_option_description (encode_load_option attributes description dp opt) = Some description.
Proof.
  intros Ht. unfold parse_load_option_description, encode_load_option.
  set (fpl := if len dp <=? u16_max then len dp else u16_max).
  rewrite !len_app, !len_to_le.
  pose proof (len_nonneg (flat_map (to_le 2) (encode_utf16 description))).
  pose proof (len_nonneg dp). pose proof (len_nonneg opt).
  rewrite (proj2 (Z.ltb_ge _ 6)) by lia.
  f_equal.
  assert (forall r, drop 6 (to_le 4 attributes ++ to_le 2 fpl ++ r) = r) as Hdrop.
  { intros r. rewrite app_assoc. apply drop_app_length'. by rewrite length_app, !length_to_le. }
  rewrite Hdrop, description_units_encode.
  - apply from_encode_utf16. eapply Forall_impl; [exact Ht|]. by intros c [? _].
  - clear - Ht. induction Ht as [|c s [Hc Hz] _ IH]; [constructor|]. unfold encode_utf16 in *. simpl.
    apply Forall_app. split; [by apply char_utf16_units|done].
Qed.

(** ** Names of boot variables *)
Lemma fmt_hex_go_app (digit : Z -> Z) (w : nat) (n : Z) (acc : list Z) :
  fmt_hex_go digit w n acc = fmt_hex_go digit w n [] ++ acc.
Proof.
  revert n acc. induction w as [|w IH]; intros n acc; [done|]. simpl.
  rewrite IH, (IH _ [_]), <- app_assoc. done.
Qed.

Lemma fmt_hex_inj (digit : Z -> Z) (w : nat) (n m : Z) :
  (forall a b, 0 <= a < 16 -> 0 <= b < 16 -> digit a = digit b -> a = b) ->
  0 <= n < 16 ^ Z.of_nat w -> 0 <= m < 16 ^ Z.of_nat w ->
  fmt_hex_go digit w n [] = fmt_hex_go digit w m [] -> n = m.
Proof.
  intros Hd. revert n m. induction w as [|w IH]; intros n m Hn Hm E.
  { simpl in Hn, Hm. lia. }
  rewrite Nat2Z.inj_succ, Z.pow_succ_r in Hn, Hm by lia. simpl in E.
  rewrite (fmt_hex_go_app _ _ _ [_]), (fmt_hex_go_app digit w (m / 16) [_]) in E.
  apply app_inj_tail in E as [E1 E2].
  apply Hd in E2; [|apply Z.mod_pos_bound; lia|apply Z.mod_pos_bound; lia].
  assert (n / 16 = m / 16) as E3.
  { apply IH; [split; [apply Z.div_pos; lia|apply Z.div_lt_upper_bound; lia]
              |split; [apply Z.div_pos; lia|apply Z.div_lt_upper_bound; lia]|done]. }
  rewrite (Z.div_mod n 16), (Z.div_mod m 16) by lia. congruence.
Qed.

Lemma hex_upper_digit_inj (a b : Z) :
  0 <= a < 16 -> 0 <= b < 16 -> hex_upper_digit a = hex_upper_digit b -> a = b.
Proof. unfold hex_upper_digit. intros. repeat case_match; lia. Qed.

Definition slot (n : Z) : Prop := 0 <= n <= BOOT_SCAN_MAX.

Lemma boot_key_inj (n m : Z) : slot n -> slot m -> boot_key n = boot_key m -> n = m.
Proof.
  unfold slot, BOOT_SCAN_MAX. intros Hn Hm E.
  apply (f_equal snd) in E. cbn [boot_key snd] in E. unfold boot_var_name in E. apply app_inv_head in E.
  apply (fmt_hex_inj hex_upper_digit 4); [apply hex_upper_digit_inj|simpl; lia|simpl; lia|exact E].
Qed.

Lemma length_fmt_hex_go (digit : Z -> Z) (w : nat) (n : Z) : length (fmt_hex_go digit w n []) = w.
Proof.
  revert n. induction w as [|w IH]; intros n; [done|]. simpl.
  rewrite fmt_hex_go_app, length_app, IH. simpl. lia.
Qed.

Lemma boot_key_not_order (n : Z) : boot_key n <> BOOT_ORDER.
Proof.
  intros E. apply (f_equal (length ∘ snd)) in E. cbn [boot_key snd compose] in E.
  unfold boot_var_name, fmt_hex_upper in E. rewrite length_app, length_fmt_hex_go in E.
  vm_compute in E. discriminate E.
Qed.

(** ** The scan *)
Section scan.
Context `{NvStore St} (description : list Z) (s : St).

Definition slot_used (n : Z) : Prop := is_Some (nv_get (boot_key n) s).
Definition slot_named (n : Z) : Prop :=
  exists d, nv_get (boot_key n) s = Some d /\ parse_load_option_description d = Some description.

Lemma scan_slots_spec (nums used : list Z) (existing : option Z) :
  let '(used', existing') := scan_slots nums description s used existing in
  (forall n, n ∈ used' <-> n ∈ used \/ n ∈ nums /\ slot_used n) /\
  match existing with
  | Some e => existing' = Some e
  | None => match existing' with
            | Some e => exists l r, nums = l ++ e :: r /\ slot_named e /\ Forall (fun n => ~ slot_named n) l
            | None => Forall (fun n => ~ slot_named n) nums
            end
  end.
Proof.
  revert used existing. induction nums as [|num nums IH]; intros used existing; cbn [scan_slots].
  { split; [set_solver|]. by destruct existing. }
  destruct (nv_get (boot_key num) s) as [d|] eqn:E.
  - set (ex := match existing with None => _ | Some n => Some n end).
    specialize (IH (used ++ [num]) ex). destruct (scan_slots nums description s (used ++ [num]) ex) as [used' ex'].
    destruct IH as [Hu He]. split.
    { intros n. rewrite Hu. unfold slot_used. rewrite elem_of_app, list_elem_of_singleton, elem_of_cons.
      split; [intros [[?| ->]|[? ?]]|intros [?|[[->|?] ?]]]; eauto 6. }
    unfold ex in He. destruct existing as [e|]; [done|]. case_bool_decide as Hp.
    + rewrite He. exists [], nums. split; [done|]. split; [by exists d|constructor].
    + assert (~ slot_named num) as Hn by (intros (d' & Hd & ?); congruence). destruct ex' as [e|].
      * destruct He as (l & r & -> & Hs & Hl). exists (num :: l), r. split; [done|]. split; [done|by constructor].
      * by constructor.
  - specialize (IH used existing). destruct (scan_slots nums description s used existing) as [used' ex'].
    destruct IH as [Hu He]. assert (~ slot_used num) as Hnu by (unfold slot_used; rewrite E; intros [? ?]; done).
    split.
    { intros n. rewrite Hu, elem_of_cons. naive_solver. }
    destruct existing as [e|]; [done|].
    assert (~ slot_named num) as Hn by (intros (d' & Hd & ?); congruence). destruct ex' as [e|].
    + destruct He as (l & r & -> & Hs & Hl). exists (num :: l), r. split; [done|]. split; [done|by constructor].
    + by constructor.
Qed.

Lemma first_free_spec (used : list Z) (max : Z) :
  match first_free_boot_number used max with
  | Some n => 0 <= n <= max /\ n ∉ used /\ (forall m, 0 <= m < n -> m ∈ used)
  | None => forall n, 0 <= n <= max -> n ∈ used
  end.
Proof.
  unfold first_free_boot_number.
  assert (forall k lo, match List.find (fun n => negb (bool_decide (n ∈ used))) (seqZ lo (Z.of_nat k)) with
    | Some n => lo <= n < lo + Z.of_nat k /\ n ∉ used /\ (forall m, lo <= m < n -> m ∈ used)
    | None => forall n, lo <= n < lo + Z.of_nat k -> n ∈ used end) as Hgen.
  { induction k as [|k IH]; intros lo; [simpl; lia|].
    rewrite seqZ_cons by lia. replace (Z.pred (Z.of_nat (S k))) with (Z.of_nat k) by lia. cbn [List.find].
    case_bool_decide as Hu; cbn [negb].
    - specialize (IH (Z.succ lo)). destruct (List.find _ (seqZ (Z.succ lo) (Z.of_nat k))) as [n|].
      + destruct IH as (? & ? & Hm). split_and!; [lia|lia|done|].
        intros m Hmn. destruct (decide (m = lo)) as [->|]; [done|apply Hm; lia].
      + intros n Hn. destruct (decide (n = lo)) as [->|]; [done|apply IH; lia].
    - split_and!; [lia|lia|done|]. intros m ?. lia. }
  destruct (decide (0 <= max + 1)) as [Hm|Hm].
  - specialize (Hgen (Z.to_nat (max + 1)) 0). rewrite Z2Nat.id in Hgen by done.
    destruct (List.find _ _) as [n|]; [destruct Hgen as (? & ? & ?); split_and!; [lia|lia|done|done]|].
    intros n Hn. apply Hgen. lia.
  - rewrite seqZ_nil by lia. simpl. lia.
Qed.
End scan.

Lemma seqZ_slots (n : Z) : n ∈ seqZ 0 (BOOT_SCAN_MAX + 1) <-> slot n.
Proof. rewrite elem_of_seqZ. unfold slot. lia. Qed.

Section correct.
Context `{NvLaws St}.

(** The layout of a load option without optional data (UEFI specification,
    3.1.3): attributes, length of the path list, description with its NUL, path
    list; and of a boot order: two bytes for each number. *)
Definition active_option (description dp : list Z) : list Z :=
  to_le 4 1 ++ to_le 2 (Z.min (len dp) 65535) ++ flat_map (to_le 2) (encode_utf16 description) ++ [0; 0] ++ dp.

Definition order_bytes (order : list Z) : list Z := flat_map (to_le 2) order.

(** A variable that holds the numbers [order], with an odd byte behind them or not. *)
Definition holds_order (order raw : list Z) : Prop :=
  Forall (fun n => 0 <= n <= 65535) order /\ exists odd, (length odd <= 1)%nat /\ raw = order_bytes order ++ odd.

Lemma encode_active_option (description dp : list Z) :
  encode_load_option LOAD_OPTION_ACTIVE description dp [] = active_option description dp.
Proof.
  unfold encode_load_option, active_option, LOAD_OPTION_ACTIVE, u16_max. rewrite app_nil_r.
  destruct (Z.leb_spec (len dp) 65535); [by rewrite Z.min_l by lia|by rewrite Z.min_r by lia].
Qed.

Lemma decode_holds (order raw : list Z) : holds_order order raw -> decode_boot_order raw = order.
Proof.
  intros (Ho & odd & Hodd & ->). change (order_bytes order) with (encode_boot_order order).
  rewrite decode_encode_order by done. destruct odd as [|? []]; simpl in *; [by rewrite app_nil_r..|lia].
Qed.

Lemma order_bytes_nonempty (order : list Z) (n : Z) : n ∈ order -> order_bytes order <> [].
Proof. intros Hn. destruct order; [by apply not_elem_of_nil in Hn|done]. Qed.

(** The new number is in front, unless it is listed already. *)
Definition fronted (order : list Z) (n : Z) : list Z := if decide (n ∈ order) then order else n :: order.

Lemma fronted_bytes (order : list Z) (n : Z) :
  encode_boot_order (boot_order_with_front order n) = order_bytes (fronted order n) /\ order_bytes (fronted order n) <> [].
Proof.
  unfold boot_order_with_front, fronted. case_bool_decide; destruct (decide (n ∈ order)); try done.
  split; [done|]. by apply (order_bytes_nonempty _ n).
Qed.

(** The state after a self-install that created slot [n]: the slot was free,
    every other variable but BootOrder is as it was, and BootOrder has the old
    numbers behind the new one unless the firmware refuses to write it. *)
Definition installed (dp description : list Z) (s s' : St) (n : Z) : Prop :=
  slot n /\ nv_get (boot_key n) s = None /\
  (forall m, slot m -> ~ slot_named description s m) /\
  nv_get (boot_key n) s' = Some (active_option description dp) /\
  (let s1 := (nv_set (boot_key n) (active_option description dp) s).1 in
   forall order, holds_order order (default [] (nv_get BOOT_ORDER s)) ->
     nv_get BOOT_ORDER s' = Some (order_bytes (fronted order n)) \/
     (nv_set BOOT_ORDER (order_bytes (fronted order n)) s1).2 = false /\ nv_get BOOT_ORDER s' = nv_get BOOT_ORDER s) /\
  (forall k, k <> boot_key n -> k <> BOOT_ORDER -> nv_get k s' = nv_get k s).

Lemma ensure_spec (dp description : list Z) (s : St) :
  let '(r, s') := ensure_named_boot_entry (PathBytes dp) description s in
  match r with
  | Created n => installed dp description s s' n
  | AlreadyPresent n => slot n /\ slot_named description s n /\ s' = s
  | InstallFailed =>
      (forall k, nv_get k s' = nv_get k s) /\ (forall m, slot m -> ~ slot_named description s m)
  | NoDevicePath => False
  end.
Proof.
  unfold ensure_named_boot_entry.
  pose proof (scan_slots_spec description s (seqZ 0 (BOOT_SCAN_MAX + 1)) [] None) as Hscan.
  destruct (scan_slots _ description s [] None) as [used existing]. destruct Hscan as [Hu He].
  destruct existing as [e|].
  { destruct He as (l & r & Heq & Hn & _). split_and!; [|done|done].
    apply seqZ_slots. rewrite Heq. apply elem_of_app. right. by left. }
  assert (forall m, slot m -> ~ slot_named description s m) as Hnone.
  { intros m Hm. rewrite Forall_forall in He. by apply He, seqZ_slots. }
  pose proof (first_free_spec used BOOT_SCAN_MAX) as Hf.
  destruct (first_free_boot_number used BOOT_SCAN_MAX) as [n|]; [|done].
  destruct Hf as (Hn & Hfree & _).
  rewrite encode_active_option. set (opt := active_option description dp).
  pose proof (nv_get_set (boot_key n) opt s ltac:(done)) as Gs.
  pose proof (fun k => nv_get_other (boot_key n) k opt s) as Go.
  pose proof (fun k => nv_get_refused (boot_key n) k opt s) as Gr.
  destruct (nv_set (boot_key n) opt s) as [s1 ok] eqn:Es1. simpl in Gs, Go, Gr.
  destruct ok; cbn [negb]; [|split; [intros k; by apply Gr|done]].
  rewrite (Go BOOT_ORDER) by apply boot_key_not_order.
  unfold installed. split_and!.
  - done.
  - destruct (nv_get (boot_key n) s) eqn:E; [|done]. exfalso. apply Hfree, Hu. right.
    split; [by apply seqZ_slots|]. unfold slot_used. by rewrite E.
  - done.
  - rewrite get_ignoring_other; [by apply Gs|]. apply not_eq_sym, boot_key_not_order.
  - cbv zeta. fold opt. rewrite Es1. cbn [fst]. intros order Ho. rewrite (decode_holds _ _ Ho). destruct (fronted_bytes order n) as [-> Hne].
    unfold set_ignoring. cbn [fst]. destruct ((nv_set BOOT_ORDER (order_bytes (fronted order n)) s1).2) eqn:Ew; [left; by apply nv_get_set|right].
    split; [done|]. rewrite nv_get_refused by done. apply Go, boot_key_not_order.
  - intros k Hk Ho. rewrite get_ignoring_other by congruence. apply Go. congruence.
Qed.
End correct.


Definition demo_nvram : var_map :=
  {[ boot_key 0 := encode_load_option 1 (lit "Windows Boot Manager") (replicate 8 1) [];
     BOOT_ORDER := to_le 2 0 ]}.


(** The self-install is idempotent: run again on the store it left, on this
    or any later boot, it finds its own entry and changes nothing. *)
Theorem ensure_named_boot_entry_idempotent `{NvLaws St} (dp dp' description : list Z) (s s' : St) (n : Z) :
  text description ->
  ensure_named_boot_entry (PathBytes dp) description s = (Created n, s') ->
  ensure_named_boot_entry (PathBytes dp') description s' = (AlreadyPresent n, s').
Proof.
  intros Ht E. pose proof (ensure_spec dp description s) as Hs. rewrite E in Hs.
  destruct Hs as (Hn & _ & Hnone & Hset & _ & Hother).
  assert (slot_named description s' n) as Hname.
  { eexists. split; [exact Hset|]. rewrite <- encode_active_option. by apply description_roundtrip. }
  pose proof (ensure_spec dp' description s') as Hs'.
  destruct (ensure_named_boot_entry (PathBytes dp') description s') as [r s2] eqn:E2. destruct r as [m|m| |].
  - destruct Hs' as (_ & _ & Hnone' & _). by apply Hnone' in Hname.
  - destruct Hs' as (Hm & Hnm & ->). f_equal. f_equal. destruct (decide (m = n)) as [->|Hne]; [done|].
    exfalso. apply (Hnone m Hm). destruct Hnm as (d & Hd & Hp). exists d. split; [|done].
    rewrite <- Hother; [done| |apply boot_key_not_order]. intros K. by apply boot_key_inj in K.
  - done.
  - destruct Hs' as [_ Hnone']. by apply Hnone' in Hname.
Qed.

Lemma ensure_named_boot_entry_idempotent_witness :
  exists s', ensure_named_boot_entry (PathBytes (replicate 12 4)) (lit "LamBoot") demo_nvram = (Created 1, s') /\
    ensure_named_boot_entry (PathBytes []) (lit "LamBoot") s' = (AlreadyPresent 1, s').
Proof.
  destruct (ensure_named_boot_entry (PathBytes (replicate 12 4)) (lit "LamBoot") demo_nvram) as [r s'] eqn:E.
  assert ((ensure_named_boot_entry (PathBytes (replicate 12 4)) (lit "LamBoot") demo_nvram).1 = Created 1) as Hr
    by (vm_compute; reflexivity).
  rewrite E in Hr. cbn [fst] in Hr. subst r. exists s'. split; [done|].
  apply (ensure_named_boot_entry_idempotent (replicate 12 4) [] (lit "LamBoot") demo_nvram s' 1); [|exact E].
  repeat constructor; vm_compute; congruence.
Defined.

(** The [Boot####] and [BootOrder] codecs lose nothing: the description of
    an encoded load option is read back for any text without NUL, supplementary
    characters included, and a boot order decodes to the numbers encoded. *)
Theorem load_option_roundtrip (attributes : Z) (description dp opt order : list Z) :
  text description -> Forall (fun n => 0 <= n <= u16_max) order ->
  parse_load_option_description (encode_load_option attributes description dp opt) = Some description /\
  decode_boot_order (encode_boot_order order) = order.
Proof.
  intros Ht Ho. split; [by apply description_roundtrip|].
  pose proof (decode_encode_order order [] Ho) as E. by rewrite !app_nil_r in E.
Qed.

Lemma load_option_roundtrip_witness :
  parse_load_option_description (encode_load_option 1 (lit "LamBoot" ++ [128190]) (replicate 4 9) []) =
    Some (lit "LamBoot" ++ [128190]) /\
  decode_boot_order (encode_boot_order [0; 513; 65535]) = [0; 513; 65535].
Proof.
  apply (load_option_roundtrip 1 (lit "LamBoot" ++ [128190]) (replicate 4 9) [] [0; 513; 65535]).
  - repeat constructor; vm_compute; congruence.
  - repeat constructor; vm_compute; congruence.
Defined.
