(* ===== verification/SecureBoot.v ===== *)
(** * Secure Boot posture, load route and small decisions
    (sb_classify_pure.rs, secure.rs, boot_route_pure.rs, read_limit_pure.rs,
    partition_classify_pure.rs) *)
From S2P Require Import Prelude RustStr Policy.
Local Open Scope Z_scope.

(** ** Reading the SecureBoot variable *)
Inductive SbReadOutcome : Type :=
  | SbValue (v : option Z)
  | SbNotFound
  | SbUnsupported
  | SbBufferTooSmall
  | SbTransientError.

(** [next n] is the outcome of the [n]th read.  The loop state is [attempt];
    two rounds are enough, since the second always returns. *)
Fixpoint classify_loop (fuel : nat) (attempt : nat) (next : nat -> SbReadOutcome) : option bool :=
  match fuel with
  | O => None
  | S f =>
      match next attempt with
      | SbValue (Some byte) => Some (byte =? 1)
      | SbNotFound | SbUnsupported => Some false
      | SbBufferTooSmall => Some true
      | SbValue None | SbTransientError =>
          if Nat.eqb attempt 0 then classify_loop f (S attempt) next else Some true
      end
  end.

Definition classify_secure_boot (next : nat -> SbReadOutcome) : bool :=
  default true (classify_loop 2 0 next).

(** [runtime::get_variable] into a one-byte buffer, as [secure.rs] maps it. *)
Inductive var_read : Type := ReadOk (data : list Z) | ReadErr (status : Z).

Definition STATUS_NOT_FOUND : Z := 14.
Definition STATUS_UNSUPPORTED : Z := 3.
Definition STATUS_BUFFER_TOO_SMALL : Z := 5.

Definition sb_outcome (r : var_read) : SbReadOutcome :=
  match r with
  | ReadOk (b :: _) => SbValue (Some b)
  | ReadOk [] => SbValue None
  | ReadErr e =>
      if e =? STATUS_NOT_FOUND then SbNotFound
      else if e =? STATUS_UNSUPPORTED then SbUnsupported
      else if e =? STATUS_BUFFER_TOO_SMALL then SbBufferTooSmall
      else SbTransientError
  end.

Definition read_secure_boot_enabled (reads : nat -> var_read) : bool :=
  classify_secure_boot (fun n => sb_outcome (reads n)).

Inductive SecureBootState : Type := SbDisabled | SbActiveWithShim | SbActiveDirect.

#[export] Instance SecureBootState_eq_dec : EqDecision SecureBootState.
Proof. solve_decision. Defined.

(** [shim]: a handle for the ShimLock protocol exists. *)
Definition detect_secure_boot (reads : nat -> var_read) (shim : bool) : SecureBootState :=
  if negb (read_secure_boot_enabled reads) then SbDisabled
  else if shim then SbActiveWithShim else SbActiveDirect.

(** ** The load route *)
Inductive NativePeMode : Type := PeAuto | PeAlways | PeNever.
Inductive SbPosture : Type := PostureDisabled | PostureActiveWithShim | PostureActiveDirect.
Inductive LoadRoute : Type := RouteNative | RouteFirmware.

Definition decide_load_route (mode : NativePeMode) (posture : SbPosture) : LoadRoute :=
  match mode with
  | PeNever => RouteFirmware
  | PeAlways => RouteNative
  | PeAuto => match posture with PostureActiveDirect => RouteFirmware | _ => RouteNative end
  end.

(** [choose_load_path] of boot.rs. *)
Definition choose_load_path (mode : LoaderNativePeMode) (sb : SecureBootState) : LoadRoute :=
  let mode := match mode with
              | NativeAuto => PeAuto | NativeAlways => PeAlways | NativeNever => PeNever end in
  let posture := match sb with
                 | SbDisabled => PostureDisabled
                 | SbActiveWithShim => PostureActiveWithShim
                 | SbActiveDirect => PostureActiveDirect
                 end in
  decide_load_route mode posture.

(** ** Read limit *)
Definition MAX_BOOT_FILE_BYTES : Z := 512 * 1024 * 1024.
Record TooLarge : Type := mkTooLarge { tl_size : Z; tl_max : Z }.

Definition checked_read_len (size : Z) : res TooLarge Z :=
  if MAX_BOOT_FILE_BYTES <? size then Err (mkTooLarge size MAX_BOOT_FILE_BYTES)
  else if size <=? usize_max then Ok size else Err (mkTooLarge size MAX_BOOT_FILE_BYTES).

(** ** MBR partition types *)
Definition mbr_os_type_is_mountable (os_type : Z) : bool :=
  negb (existsb (Z.eqb os_type) [0; 5; 15; 133; 238; 239]).

(** ** Fail closed *)
(** A read that decides: a byte, an absent variable, or one too large. *)
Definition decisive (o : SbReadOutcome) : option bool :=
  match o with
  | SbValue (Some b) => Some (b =? 1)
  | SbNotFound | SbUnsupported => Some false
  | SbBufferTooSmall => Some true
  | SbValue None | SbTransientError => None
  end.

Lemma classify_secure_boot_spec (next : nat -> SbReadOutcome) :
  classify_secure_boot next =
  match decisive (next 0%nat) with
  | Some b => b
  | None => match decisive (next 1%nat) with Some b => b | None => true end
  end.
Proof.
  unfold classify_secure_boot. cbn [classify_loop Nat.eqb].
  destruct (next 0%nat) as [[b|]| | | |]; try done; cbn [decisive];
    destruct (next 1%nat) as [[b'|]| | | |]; done.
Qed.

(** What a read of the variable says, in terms of the call of the firmware:
    EFI_NOT_FOUND is 14, EFI_UNSUPPORTED 3 and EFI_BUFFER_TOO_SMALL 5 (UEFI
    specification, appendix D). *)
Definition says_off (r : var_read) : Prop :=
  match r with
  | ReadOk (b :: _) => b <> 1
  | ReadOk [] => False
  | ReadErr e => e = 14 \/ e = 3
  end.

Definition says_nothing (r : var_read) : Prop :=
  match r with
  | ReadOk (_ :: _) => False
  | ReadOk [] => True
  | ReadErr e => e <> 14 /\ e <> 3 /\ e <> 5
  end.

Lemma decisive_off (r : var_read) : decisive (sb_outcome r) = Some false <-> says_off r.
Proof.
  destruct r as [[|b l]|e]; simpl; [done| |].
  - destruct (Z.eqb_spec b 1); naive_solver.
  - unfold sb_outcome, STATUS_NOT_FOUND, STATUS_UNSUPPORTED, STATUS_BUFFER_TOO_SMALL.
    destruct (Z.eqb_spec e 14), (Z.eqb_spec e 3), (Z.eqb_spec e 5); simpl; naive_solver lia.
Qed.

Lemma decisive_nothing (r : var_read) : decisive (sb_outcome r) = None <-> says_nothing r.
Proof.
  destruct r as [[|b l]|e]; simpl; [done|done|].
  unfold sb_outcome, STATUS_NOT_FOUND, STATUS_UNSUPPORTED, STATUS_BUFFER_TOO_SMALL.
  destruct (Z.eqb_spec e 14), (Z.eqb_spec e 3), (Z.eqb_spec e 5); simpl; naive_solver lia.
Qed.

(** C11. Secure Boot detection fails closed: the no-verification posture is
    reported exactly when a read of the variable positively says that Secure
    Boot is off (a byte that is not one) or absent (EFI_NOT_FOUND,
    EFI_UNSUPPORTED), and that read is the first or follows a first one that
    said nothing (no data, or an error other than EFI_BUFFER_TOO_SMALL).
    Otherwise the posture is the one of shim exactly when its protocol is
    there. *)
Theorem detect_fails_closed (reads : nat -> var_read) (shim : bool) :
  (detect_secure_boot reads shim = SbDisabled <->
     says_off (reads 0%nat) \/ says_nothing (reads 0%nat) /\ says_off (reads 1%nat)) /\
  (detect_secure_boot reads shim <> SbDisabled ->
     detect_secure_boot reads shim = if shim then SbActiveWithShim else SbActiveDirect).
Proof.
  rewrite <- !decisive_off, <- decisive_nothing.
  unfold detect_secure_boot, read_secure_boot_enabled. rewrite classify_secure_boot_spec.
  destruct (decisive (sb_outcome (reads 0%nat))) as [[]|], (decisive (sb_outcome (reads 1%nat))) as [[]|], shim;
    simpl; naive_solver.
Qed.

(** [Always] takes the native loader even when nothing verified the image. *)
Theorem always_skips_db_check : choose_load_path NativeAlways SbActiveDirect = RouteNative.
Proof. done. Qed.

Lemma native_route (mode : LoaderNativePeMode) (sb : SecureBootState) :
  choose_load_path mode sb = RouteNative -> sb <> SbActiveDirect \/ mode = NativeAlways.
Proof. destruct mode, sb; simpl; naive_solver. Qed.
