(* ===== verification/SecurityOverride.v ===== *)
(** * The security override around LoadImage (security_override.rs, secure.rs)

    While LamBoot asks the firmware to load an image, the firmware's
    authentication services are routed through shim.  The model keeps the
    statics of the module, the two slots of the firmware's protocol tables and
    the diagnostic counters; the firmware is a program that calls through those
    slots any number of times ([fw_prog]).  The specification is an oracle: the
    same program with the verdicts [hooked_auth] prescribes. *)
From S2P Require Import Prelude RustStr SecureBoot Nvram.
Local Open Scope Z_scope.

Inductive Status : Type :=
  | SUCCESS | ABORTED | SECURITY_VIOLATION | NOT_FOUND | LOAD_ERROR | INVALID_PARAMETER | UNSUPPORTED
  | OtherStatus (code : Z).

#[export] Instance Status_eq_dec : EqDecision Status.
Proof. solve_decision. Defined.

(** ** Shim *)
Record Shim : Type := mkShim {
  shim_handle : bool;                    (* a handle with ShimLock exists *)
  shim_open : bool;                      (* it opens exclusively *)
  shim_lock_verify : list Z -> bool      (* ShimLock::Verify *)
}.

Definition shim_lock_present (sh : Shim) : bool := shim_handle sh.

(** [verify_image(..).is_ok()] *)
Definition verify_image (sh : Shim) (image_data : list Z) (state : SecureBootState) : bool :=
  match state with
  | SbDisabled => true
  | SbActiveWithShim => shim_handle sh && shim_open sh && shim_lock_verify sh image_data
  | SbActiveDirect => true
  end.

Definition SHIM_LOCK_VENDOR : list Z := lit "605dab50-e046-4300-abb6-3dd810dd8b23".
Definition SHIM_RETAIN : var_key := (SHIM_LOCK_VENDOR, lit "ShimRetainProtocol").

Definition request_shim_retain_protocol `{NvStore St} (sh : Shim) (s : St) : St :=
  if negb (shim_handle sh) then s else set_ignoring SHIM_RETAIN [1] s.

(** ** The statics *)
(** What a slot of a protocol table points to. *)
Inductive hook : Type := FirmwareHook | LamBootHook.

#[export] Instance hook_eq_dec : EqDecision hook.
Proof. solve_decision. Defined.

Record Counters : Type := mkCounters {
  HOOK2_CALLS : Z;
  SHIM_VALIDATE_CALLS : Z;
  SHIM_VALIDATE_TRUE : Z;
  DELEGATE_CALLS : Z;
  SHIMLOCK_NOT_FOUND : Z
}.

Definition diagnostic_counters (c : Counters) : Z * Z * Z * Z * Z :=
  (HOOK2_CALLS c, SHIM_VALIDATE_CALLS c, SHIM_VALIDATE_TRUE c, DELEGATE_CALLS c, SHIMLOCK_NOT_FOUND c).

(** The statics, and the slots of the firmware's two protocol tables.  The
    pointers are null or point to the table of their protocol. *)
Record Override : Type := mkOverride {
  OVERRIDE_ACTIVE : bool;
  SECURITY : bool;                       (* not null *)
  SECURITY2 : bool;
  ORIGINAL_HOOK : option hook;
  ORIGINAL_HOOK2 : option hook;
  file_authentication_state : hook;      (* of the firmware's table *)
  file_authentication : hook;
  counters : Counters
}.

Definition set_counters (c : Counters) (o : Override) : Override :=
  mkOverride (OVERRIDE_ACTIVE o) (SECURITY o) (SECURITY2 o) (ORIGINAL_HOOK o) (ORIGINAL_HOOK2 o)
    (file_authentication_state o) (file_authentication o) c.

(** [fetch_add(1)] on each counter. *)
Definition inc (n : Z) : Z := wrapping_add 64 n 1.
#[local] Arguments inc : simpl never.
#[local] Arguments wrap : simpl never.
Definition inc_hook2 '(mkCounters h s t d n : Counters) : Counters := mkCounters (inc h) s t d n.
Definition inc_shim '(mkCounters h s t d n : Counters) : Counters := mkCounters h (inc s) t d n.
Definition inc_shim_true '(mkCounters h s t d n : Counters) : Counters := mkCounters h s (inc t) d n.
Definition inc_delegate '(mkCounters h s t d n : Counters) : Counters := mkCounters h s t (inc d) n.
Definition inc_not_found '(mkCounters h s t d n : Counters) : Counters := mkCounters h s t d (inc n).
Definition bump (f : Counters -> Counters) (o : Override) : Override := set_counters (f (counters o)) o.

(** ** The firmware *)
Inductive arch_protocol : Type := SecurityArch | Security2Arch.

Record SecurityFw : Type := mkSecurityFw {
  sf_systab : bool;                                        (* there is a system table *)
  sf_boot_services : bool;                                 (* with boot services *)
  sf_locate : arch_protocol -> bool;                       (* LocateProtocol succeeds *)
  sf_auth_state : Z -> Z -> Status;                        (* the firmware's own services *)
  sf_auth : Z -> option (list Z) -> bool -> Status         (* [None]: a null buffer *)
}.

(** What the firmware does inside a boot service: calls of the authentication
    services through the protocol tables, then a result, or no return. *)
Inductive fw_prog (A : Type) : Type :=
  | FwDone (r : res Status A)
  | FwNever
  | FwAuthState (auth_status file : Z) (k : Status -> fw_prog A)
  | FwAuth (device_path : Z) (buffer : option (list Z)) (boot_policy : bool) (k : Status -> fw_prog A).
Arguments FwDone {A} r.
Arguments FwNever {A}.
Arguments FwAuthState {A} auth_status file k.
Arguments FwAuth {A} device_path buffer boot_policy k.

(** [None]: the service does not return. *)
Definition fw_result (A : Type) : Type := option (res Status A).

Section override.
Context (sh : Shim) (fw : SecurityFw).

Definition locate_raw_protocol (g : arch_protocol) : bool :=
  if negb (sf_systab fw) then false
  else if negb (sf_boot_services fw) then false
  else sf_locate fw g.

Definition shim_validate (buffer : list Z) (o : Override) : bool * Override :=
  if negb (shim_handle sh) then (false, bump inc_not_found o)
  else if negb (shim_open sh) then (false, o)
  else (shim_lock_verify sh buffer, o).

(** [call] is how a function pointer is called. *)
Definition hook_security (call : hook -> Override -> option Status) (o : Override) : option Status :=
  match ORIGINAL_HOOK o with
  | Some f => call f o
  | None => Some SECURITY_VIOLATION
  end.

Definition hook_security2 (call : hook -> Override -> option Status * Override)
    (file_buffer : option (list Z)) (o : Override) : option Status * Override :=
  let delegate o :=
    let o := bump inc_delegate o in
    match ORIGINAL_HOOK2 o with
    | Some f => call f o
    | None => (Some SECURITY_VIOLATION, o)
    end in
  let o := bump inc_hook2 o in
  match file_buffer with
  | Some buf =>
      if 0 <? len buf then
        let o := bump inc_shim o in
        let '(ok, o) := shim_validate buf o in
        if ok then (Some SUCCESS, bump inc_shim_true o) else delegate o
      else delegate o
  | None => delegate o
  end.

(** Calling through a slot.  A LamBoot hook whose saved original is itself
    calls itself for ever; any other chain of calls has at most two links, so
    two rounds decide ([None]: it never returns). *)
Fixpoint call_security (fuel : nat) (auth_status file : Z) (h : hook) (o : Override) : option Status :=
  match fuel with
  | O => None
  | S f =>
      match h with
      | FirmwareHook => Some (sf_auth_state fw auth_status file)
      | LamBootHook => hook_security (call_security f auth_status file) o
      end
  end.

Fixpoint call_security2 (fuel : nat) (device_path : Z) (buffer : option (list Z)) (boot_policy : bool)
    (h : hook) (o : Override) : option Status * Override :=
  match fuel with
  | O => (None, o)
  | S f =>
      match h with
      | FirmwareHook => (Some (sf_auth fw device_path buffer boot_policy), o)
      | LamBootHook => hook_security2 (call_security2 f device_path buffer boot_policy) buffer o
      end
  end.

(** A boot service running against the tables. *)
Fixpoint fw_run {A : Type} (p : fw_prog A) (o : Override) : fw_result A * Override :=
  match p with
  | FwDone r => (Some r, o)
  | FwNever => (None, o)
  | FwAuthState st file k =>
      match call_security 2 st file (file_authentication_state o) o with
      | Some status => fw_run (k status) o
      | None => (None, o)
      end
  | FwAuth dp buffer policy k =>
      match call_security2 2 dp buffer policy (file_authentication o) o with
      | (Some status, o') => fw_run (k status) o'
      | (None, o') => (None, o')
      end
  end.

(** ** Install and uninstall *)
(** The guard is returned iff the override was installed. *)
Definition install_security_override (o : Override) : bool * Override :=
  if OVERRIDE_ACTIVE o then (false, o)
  else
    let security2 := locate_raw_protocol Security2Arch in
    let security := locate_raw_protocol SecurityArch in
    if negb security2 && negb security then
      (false, mkOverride false (SECURITY o) (SECURITY2 o) (ORIGINAL_HOOK o) (ORIGINAL_HOOK2 o)
                (file_authentication_state o) (file_authentication o) (counters o))
    else
      (true, mkOverride true security security2
               (if security then Some (file_authentication_state o) else ORIGINAL_HOOK o)
               (if security2 then Some (file_authentication o) else ORIGINAL_HOOK2 o)
               (if security then LamBootHook else file_authentication_state o)
               (if security2 then LamBootHook else file_authentication o)
               (counters o)).

Definition uninstall_security_override (o : Override) : Override :=
  if negb (OVERRIDE_ACTIVE o) then o
  else
    mkOverride false false false
      (if SECURITY o then None else ORIGINAL_HOOK o)
      (if SECURITY2 o then None else ORIGINAL_HOOK2 o)
      (if SECURITY o then default (file_authentication_state o) (ORIGINAL_HOOK o)
       else file_authentication_state o)
      (if SECURITY2 o then default (file_authentication o) (ORIGINAL_HOOK2 o) else file_authentication o)
      (counters o).

(** [let _guard = install_security_override(); body], the guard being dropped
    on every return of [body]. *)
Definition with_override {A : Type} (body : Override -> fw_result A * Override) (o : Override)
    : fw_result A * Override :=
  let '(guard, o1) := install_security_override o in
  match body o1 with
  | (Some r, o2) => (Some r, if guard then uninstall_security_override o2 else o2)
  | (None, o2) => (None, o2)
  end.

(** ** Specification *)
Definition shim_accepts (b : list Z) : bool := shim_handle sh && shim_open sh && shim_lock_verify sh b.

Definition hooked_auth (dp : Z) (buffer : option (list Z)) (policy : bool) : Status :=
  match buffer with
  | Some b => if locate_raw_protocol Security2Arch && ((0 <? len b) && shim_accepts b) then SUCCESS
              else sf_auth fw dp buffer policy
  | None => sf_auth fw dp buffer policy
  end.

(** The firmware program with its questions answered by an oracle. *)
Fixpoint oracle_run {A : Type} (auth_state : Z -> Z -> Status) (auth : Z -> option (list Z) -> bool -> Status)
    (p : fw_prog A) : fw_result A :=
  match p with
  | FwDone r => Some r
  | FwNever => None
  | FwAuthState st file k => oracle_run auth_state auth (k (auth_state st file))
  | FwAuth dp buffer policy k => oracle_run auth_state auth (k (auth dp buffer policy))
  end.

(** No override is installed: the tables are the firmware's own. *)
Definition pristine (o : Override) : Prop :=
  exists c, o = mkOverride false false false None None FirmwareHook FirmwareHook c.

(** Every call of the hook ended with shim's approval or at the firmware. *)
Definition accounted (c : Counters) : Prop :=
  wrap 64 (HOOK2_CALLS c) = wrap 64 (SHIM_VALIDATE_TRUE c + DELEGATE_CALLS c).

(** The state while the override is installed. *)
Definition hooked (c : Counters) : Override :=
  let security := locate_raw_protocol SecurityArch in
  let security2 := locate_raw_protocol Security2Arch in
  mkOverride true security security2
    (if security then Some FirmwareHook else None) (if security2 then Some FirmwareHook else None)
    (if security then LamBootHook else FirmwareHook) (if security2 then LamBootHook else FirmwareHook) c.

Lemma call_security_hooked (st file : Z) (c : Counters) :
  call_security 2 st file (file_authentication_state (hooked c)) (hooked c) = Some (sf_auth_state fw st file).
Proof. unfold hooked. simpl. by destruct (locate_raw_protocol SecurityArch). Qed.

Lemma accounted_true (h s t d n s' n' : Z) :
  accounted (mkCounters h s t d n) -> accounted (mkCounters (inc h) s' (inc t) d n').
Proof.
  unfold accounted, inc, wrapping_add, wrap. cbn. intros H. rewrite Zmod_mod.
  rewrite Zplus_mod_idemp_l, <- Zplus_mod_idemp_l, H, Zplus_mod_idemp_l. f_equal. lia.
Qed.

Lemma accounted_delegate (h s t d n s' n' : Z) :
  accounted (mkCounters h s t d n) -> accounted (mkCounters (inc h) s' t (inc d) n').
Proof.
  unfold accounted, inc, wrapping_add, wrap. cbn. intros H. rewrite Zmod_mod.
  rewrite Zplus_mod_idemp_r, <- Zplus_mod_idemp_l, H, Zplus_mod_idemp_l. f_equal. lia.
Qed.
#[local] Opaque inc wrap accounted.

Lemma bump_hooked (f : Counters -> Counters) (c : Counters) : bump f (hooked c) = hooked (f c).
Proof. done. Qed.

(** The hook answers as specified and keeps the account. *)
Lemma call_security2_hooked (dp : Z) (buffer : option (list Z)) (policy : bool) (c : Counters) :
  accounted c ->
  exists c', accounted c' /\
    call_security2 2 dp buffer policy (file_authentication (hooked c)) (hooked c) =
    (Some (hooked_auth dp buffer policy), hooked c').
Proof.
  intros Hc. unfold hooked_auth. cbn [file_authentication hooked].
  destruct (locate_raw_protocol Security2Arch) eqn:E2.
  2:{ exists c. split; [done|]. simpl. by destruct buffer. }
  cbn [call_security2]. unfold hook_security2, shim_validate, shim_accepts.
  destruct c as [h s t d n].
  destruct buffer as [b|]; [destruct (0 <? len b)|];
    [destruct (shim_handle sh); [destruct (shim_open sh); [destruct (shim_lock_verify sh b)|]|]|..];
    cbn [negb andb]; rewrite !bump_hooked; cbn [ORIGINAL_HOOK2 hooked]; rewrite ?E2;
    (eexists; split; [|reflexivity]); first [by eapply accounted_delegate | by eapply accounted_true].
Qed.

Lemma fw_run_hooked {A : Type} (p : fw_prog A) (c : Counters) :
  accounted c ->
  exists c', accounted c' /\ fw_run p (hooked c) = (oracle_run (sf_auth_state fw) hooked_auth p, hooked c').
Proof.
  revert c. induction p as [r| |st file k IH|dp buffer policy k IH]; intros c Hc.
  - by exists c.
  - by exists c.
  - cbn [fw_run oracle_run]. rewrite call_security_hooked. by apply IH.
  - cbn [fw_run oracle_run].
    destruct (call_security2_hooked dp buffer policy c Hc) as (c' & Hc' & ->). by apply IH.
Qed.

(** Without the override the firmware answers by itself. *)
Lemma fw_run_pristine {A : Type} (p : fw_prog A) (o : Override) :
  pristine o -> fw_run p o = (oracle_run (sf_auth_state fw) (sf_auth fw) p, o).
Proof.
  intros [c ->]. induction p as [r| |st file k IH|dp buffer policy k IH]; [done|done|apply IH..].
Qed.

Lemma install_pristine (c : Counters) :
  install_security_override (mkOverride false false false None None FirmwareHook FirmwareHook c) =
  if locate_raw_protocol Security2Arch || locate_raw_protocol SecurityArch then (true, hooked c)
  else (false, mkOverride false false false None None FirmwareHook FirmwareHook c).
Proof.
  unfold install_security_override, hooked. simpl.
  by destruct (locate_raw_protocol Security2Arch), (locate_raw_protocol SecurityArch).
Qed.

Lemma uninstall_hooked (c : Counters) : pristine (uninstall_security_override (hooked c)).
Proof.
  exists c. unfold hooked. simpl.
  by destruct (locate_raw_protocol Security2Arch), (locate_raw_protocol SecurityArch).
Qed.

Lemma hooked_auth_unpublished (dp : Z) (buffer : option (list Z)) (policy : bool) :
  locate_raw_protocol Security2Arch = false -> hooked_auth dp buffer policy = sf_auth fw dp buffer policy.
Proof. unfold hooked_auth. intros ->. by destruct buffer. Qed.

Lemma oracle_run_ext {A : Type} (auth_state : Z -> Z -> Status)
    (auth auth' : Z -> option (list Z) -> bool -> Status) (p : fw_prog A) :
  (forall dp b q, auth dp b q = auth' dp b q) -> oracle_run auth_state auth p = oracle_run auth_state auth' p.
Proof. intros H. induction p; simpl; [done|done|done|]. by rewrite H. Qed.

(** A service run under the override computes the oracle's result and, when it
    returns, leaves the firmware's tables as they were. *)
Lemma with_override_run {A : Type} (p : fw_prog A) (o : Override) :
  pristine o -> accounted (counters o) ->
  (with_override (fw_run p) o).1 = oracle_run (sf_auth_state fw) hooked_auth p /\
  ((with_override (fw_run p) o).1 <> None ->
     pristine (with_override (fw_run p) o).2 /\ accounted (counters (with_override (fw_run p) o).2)).
Proof.
  intros [c ->] Hc. unfold with_override. rewrite install_pristine.
  destruct (locate_raw_protocol Security2Arch || locate_raw_protocol SecurityArch) eqn:E.
  - destruct (fw_run_hooked p c Hc) as (c' & Hc' & ->).
    destruct (oracle_run _ _ p) as [r|]; simpl; [|done].
    split; [done|]. intros _. destruct (uninstall_hooked c') as [c2 E2].
    split; [by exists c2|]. done.
  - apply orb_false_elim in E as [E2 _].
    rewrite fw_run_pristine by (by exists c).
    rewrite (oracle_run_ext _ hooked_auth (sf_auth fw)) by (intros; by apply hooked_auth_unpublished).
    destruct (oracle_run _ _ p) as [r|]; simpl; [|done]. split; [done|]. intros _. split; [by exists c|done].
Qed.
End override.

(** The override as it is at start-up. *)
Definition override_init : Override :=
  mkOverride false false false None None FirmwareHook FirmwareHook (mkCounters 0 0 0 0 0).

Lemma override_init_pristine : pristine override_init.
Proof. by eexists. Qed.

(** An installed override refuses a second one and is left alone. *)
Lemma install_nested (fw : SecurityFw) (c : Counters) :
  install_security_override fw (hooked fw c) = (false, hooked fw c).
Proof. done. Qed.

(** C9. The security override is scoped and adds exactly shim's approval: whatever
    the firmware does inside the service (any sequence of authentication calls
    through its tables), the service behaves as if each buffer were accepted
    when shim accepts it and judged by the firmware otherwise; when it returns,
    the firmware's tables and the override's state are as before, and the
    diagnostic counters account for every call; a nested install is refused
    and changes nothing. *)
Theorem override_scoped {A : Type} (sh : Shim) (fw : SecurityFw) (p : fw_prog A) (o : Override) :
  pristine o -> accounted (counters o) ->
  (with_override fw (fw_run sh fw p) o).1 = oracle_run (sf_auth_state fw) (hooked_auth sh fw) p /\
  ((with_override fw (fw_run sh fw p) o).1 <> None ->
     pristine (with_override fw (fw_run sh fw p) o).2 /\
     accounted (counters (with_override fw (fw_run sh fw p) o).2)) /\
  (forall c, install_security_override fw (hooked fw c) = (false, hooked fw c)).
Proof.
  intros Ho Hc. destruct (with_override_run sh fw p o Ho Hc) as [? ?].
  split; [done|]. split; [done|]. apply install_nested.
Qed.

(** A firmware that rejects every buffer, and a shim that accepts [[7]]. *)
Definition demo_security : SecurityFw := mkSecurityFw true true (fun _ => true)
  (fun _ _ => SUCCESS) (fun _ _ _ => SECURITY_VIOLATION).
Definition demo_shim (good : list Z) : Shim := mkShim true true (fun b => bool_decide (b = good)).

(** LoadImage of the specification: authenticate the buffer, then load it. *)
Definition spec_load_image (handle : Z) (b : list Z) : fw_prog Z :=
  FwAuth 0 (Some b) false (fun st => match st with SUCCESS => FwDone (Ok handle) | e => FwDone (Err e) end).

Lemma override_scoped_witness :
  (with_override demo_security (fw_run (demo_shim [7]) demo_security (spec_load_image 5 [7])) override_init).1
    = Some (Ok 5) /\
  (with_override demo_security (fw_run (demo_shim [7]) demo_security (spec_load_image 5 [8])) override_init).1
    = Some (Err SECURITY_VIOLATION).
Proof.
  split.
  - destruct (override_scoped (demo_shim [7]) demo_security (spec_load_image 5 [7]) override_init) as [E _];
      [apply override_init_pristine|reflexivity|]. rewrite E. vm_compute. reflexivity.
  - destruct (override_scoped (demo_shim [7]) demo_security (spec_load_image 5 [8]) override_init) as [E _];
      [apply override_init_pristine|reflexivity|]. rewrite E. vm_compute. reflexivity.
Defined.
