(* ===== verification/Tpm.v ===== *)
(** * Measured boot (tpm.rs)

    What each component extends into which PCR.  The TCG2 protocol is firmware:
    [Tpm] holds its answers. *)
From S2P Require Import Prelude RustStr.
Local Open Scope Z_scope.

Definition PCR_BOOT_CODE : Z := 4.
Definition PCR_BOOT_CONFIG : Z := 5.
Definition PCR_KERNEL_CMDLINE : Z := 12.

Inductive EventType : Type := EFI_BOOT_SERVICES_APPLICATION | IPL.

(** The arguments of [TpmContext::measure]. *)
Record Measurement : Type := mkMeasurement {
  m_pcr : Z;
  m_event_type : EventType;
  m_pe_coff_image : bool;               (* the flag PE_COFF_IMAGE *)
  m_data : list Z;
  m_description : list Z
}.

Record Tpm : Type := mkTpm {
  tcg_handle : bool;                                    (* a handle with TCG2 exists *)
  tcg_open : bool;                                      (* it opens exclusively *)
  tcg_capability : option bool;                         (* get_capability: tpm_present *)
  tcg_event : Z -> EventType -> list Z -> bool;         (* PcrEventInputs::new_in_box *)
  tcg_extend : Measurement -> bool                      (* hash_log_extend_event *)
}.

Definition check_tpm_available (t : Tpm) : bool :=
  if negb (tcg_handle t) then false
  else if negb (tcg_open t) then false
  else default false (tcg_capability t).

(** Whether the PCR was extended. *)
Definition measure (t : Tpm) (m : Measurement) : bool :=
  if negb (tcg_handle t) then false
  else if negb (tcg_open t) then false
  else if negb (tcg_event t (m_pcr m) (m_event_type m) (m_description m)) then false
  else tcg_extend t m.

Definition kernel_measurement (kernel_data : list Z) : Measurement :=
  mkMeasurement PCR_BOOT_CODE EFI_BOOT_SERVICES_APPLICATION true kernel_data (lit "LamBoot: Kernel Image").
Definition measure_kernel (t : Tpm) (kernel_data : list Z) : bool := measure t (kernel_measurement kernel_data).

Definition measure_config (t : Tpm) (config_data : list Z) : bool :=
  measure t (mkMeasurement PCR_BOOT_CONFIG IPL false config_data (lit "LamBoot: Boot Configuration")).

(** UTF-16, little endian, without a NUL. *)
Definition cmdline_measurement (cmdline : str) : Measurement :=
  mkMeasurement PCR_KERNEL_CMDLINE IPL false (flat_map (to_le 2) (encode_utf16 cmdline))
    (lit "LamBoot: Kernel Command Line").
Definition measure_cmdline (t : Tpm) (cmdline : str) : bool := measure t (cmdline_measurement cmdline).

Definition driver_measurement (data path : list Z) : Measurement :=
  mkMeasurement PCR_BOOT_CODE EFI_BOOT_SERVICES_APPLICATION true data
    (str_bytes (lit "LamBoot: Driver " ++ path)).
Definition measure_driver (t : Tpm) (data path : list Z) : bool := measure t (driver_measurement data path).

Definition bls_measurement (entry_data entry_id : list Z) : Measurement :=
  mkMeasurement PCR_BOOT_CONFIG IPL false entry_data (str_bytes (lit "LamBoot: BLS Entry " ++ entry_id)).
Definition measure_bls_entry (t : Tpm) (entry_data entry_id : list Z) : bool := measure t (bls_measurement entry_data entry_id).

(** ** What a command-line measurement commits to *)
Lemma flat_map_to_le_inj (us vs : list Z) :
  Forall (fun u => 0 <= u < 65536) us -> Forall (fun u => 0 <= u < 65536) vs ->
  flat_map (to_le 2) us = flat_map (to_le 2) vs -> us = vs.
Proof.
  intros Hu. revert vs. induction Hu as [|u us Hu _ IH]; intros [|v vs] Hv E; [done|done|done|].
  apply Forall_cons in Hv as [Hv Hvs]. cbn [flat_map] in E. apply app_inj_1 in E as [E1 E2]; [|done].
  f_equal; [|by apply IH].
  rewrite <- (from_to_le 2 u), <- (from_to_le 2 v) by done. by rewrite E1.
Qed.

Lemma char_utf16_bound (c : Z) : is_scalar c = true -> Forall (fun u => 0 <= u < 65536) (char_utf16 c).
Proof.
  unfold is_scalar, char_utf16. intros Hc. destruct (Z.ltb_spec c 65536).
  - constructor; [lia|constructor].
  - pose proof (Z.div_lt_upper_bound (c - 65536) 1024 1024).
    pose proof (Z.div_pos (c - 65536) 1024). pose proof (Z.mod_pos_bound (c - 65536) 1024).
    constructor; [lia|constructor; [lia|constructor]].
Qed.

Lemma encode_utf16_bound (s : list Z) :
  Forall (fun c => is_scalar c = true) s -> Forall (fun u => 0 <= u < 65536) (encode_utf16 s).
Proof. induction 1; [constructor|]. cbn. apply Forall_app. split; [by apply char_utf16_bound|done]. Qed.

(** The measured bytes determine the command line. *)
Lemma cmdline_measurement_inj (s t : list Z) :
  Forall (fun c => is_scalar c = true) s -> Forall (fun c => is_scalar c = true) t ->
  m_data (cmdline_measurement s) = m_data (cmdline_measurement t) -> s = t.
Proof.
  intros Hs Ht E. simpl in E. apply flat_map_to_le_inj in E; [|by apply encode_utf16_bound..].
  rewrite <- (from_encode_utf16 s), <- (from_encode_utf16 t) by done. by rewrite E.
Qed.
