(* ===== verification/VolumeFs.v ===== *)
(** * Volumes and their read cache (fs.rs, fs_backend.rs)

    A backend answers on canonical paths; it is what an external filesystem
    crate or the firmware provides.  A volume adds path normalization and an
    LRU cache of what was read, which writers invalidate. *)
From S2P Require Import Prelude RustStr Utf8 FsTypes SecurityOverride.
Local Open Scope Z_scope.

Inductive FsError : Type :=
  | FsNotFound
  | FsPermissionDenied
  | FsIsDirectory
  | FsNotDirectory
  | FsInvalidPath (reason : string)
  | FsUnsupported (what : string)
  | FsUnsupportedFeature (feature : string) (backend : list Z)
  | FsCorrupt (what : string)
  | FsIntegrityFailed (what : string)
  | FsFileTooLarge (size max : Z)
  | FsIo (source : Status)
  | FsBackendOther.

(** Error codes have the top bit set. *)
Definition efi_error (n : Z) : Status := OtherStatus (2 ^ 63 + n).

Definition to_uefi_status (e : FsError) : Status :=
  match e with
  | FsNotFound => NOT_FOUND
  | FsPermissionDenied => efi_error 15
  | FsIsDirectory | FsNotDirectory | FsInvalidPath _ => INVALID_PARAMETER
  | FsUnsupported _ | FsUnsupportedFeature _ _ => UNSUPPORTED
  | FsCorrupt _ => efi_error 10
  | FsIntegrityFailed _ => SECURITY_VIOLATION
  | FsFileTooLarge _ _ => efi_error 9
  | FsIo source => source
  | FsBackendOther => efi_error 7
  end.

Definition path_fs_error (e : PathError) : FsError :=
  match e with
  | PathEmpty => FsInvalidPath "empty"
  | NotAbsolute => FsInvalidPath "not absolute"
  | AboveRoot => FsInvalidPath "above root"
  end.

Definition map_err {E F A : Type} (f : E -> F) (r : res E A) : res F A :=
  match r with Ok a => Ok a | Err e => Err (f e) | Panic => Panic end.

(** The read surface of the trait [FsBackend]. *)
Record FsBackend : Type := mkBackend {
  fb_read : list Z -> res FsError (list Z);
  fb_read_at : list Z -> Z -> Z -> res FsError (list Z);
  fb_exists : list Z -> res FsError bool;
  fb_read_dir : list Z -> res FsError (list DirEntry)
}.

(** ** The cache *)
Definition CACHE_BYTES_LIMIT : Z := 8 * 1024 * 1024.

Record CacheKey : Type := mkKey { ck_path : list Z; ck_offset : Z; ck_len : Z }.

#[export] Instance CacheKey_eq_dec : EqDecision CacheKey.
Proof. solve_decision. Defined.

Definition full_read (path : list Z) : CacheKey := mkKey path 0 usize_max.
Definition range (path : list Z) (offset n : Z) : CacheKey := mkKey path offset n.

(** [entries] from the front (most recent) to the back. *)
Record VolumeCache : Type := mkCache {
  vc_entries : list (CacheKey * list Z);
  vc_used : Z;
  vc_limit : Z
}.

Definition cache_new : VolumeCache := mkCache [] 0 CACHE_BYTES_LIMIT.

(** The first entry with the key, and the others in order. *)
Fixpoint remove_key (key : CacheKey) (es : list (CacheKey * list Z))
    : option (list Z * list (CacheKey * list Z)) :=
  match es with
  | [] => None
  | (k, d) :: es' =>
      if bool_decide (k = key) then Some (d, es')
      else match remove_key key es' with
           | Some (d', rest) => Some (d', (k, d) :: rest)
           | None => None
           end
  end.

Definition cache_get (key : CacheKey) (c : VolumeCache) : option (list Z * VolumeCache) :=
  match remove_key key (vc_entries c) with
  | Some (d, rest) => Some (d, mkCache ((key, d) :: rest) (vc_used c) (vc_limit c))
  | None => None
  end.

(** The eviction loop, on the entries from the back: [while used + n > limit]
    pop the back, until there is none left. *)
Fixpoint evict (n limit used : Z) (back : list (CacheKey * list Z)) : list (CacheKey * list Z) * Z :=
  match back with
  | [] => ([], used)
  | (k, d) :: back' =>
      if limit <? used + n then evict n limit (Z.max 0 (used - len d)) back' else (back, used)
  end.

Definition cache_insert (key : CacheKey) (data : list Z) (c : VolumeCache) : VolumeCache :=
  let n := len data in
  if vc_limit c <? n then c
  else
    let '(back, used) := evict n (vc_limit c) (vc_used c) (rev (vc_entries c)) in
    mkCache ((key, data) :: rev back) (used + n) (vc_limit c).

Definition total (es : list (CacheKey * list Z)) : Z :=
  foldr (fun e acc => len e.2 + acc) 0 es.

Definition has_path (path : list Z) (e : CacheKey * list Z) : bool := bool_decide (ck_path e.1 = path).

Definition invalidate_path (path : list Z) (c : VolumeCache) : VolumeCache :=
  let freed := total (List.filter (has_path path) (vc_entries c)) in
  mkCache (List.filter (fun e => negb (has_path path e)) (vc_entries c))
    (Z.max 0 (vc_used c - freed)) (vc_limit c).

(** ** Reading *)
Definition cached (key : CacheKey) (direct : res FsError (list Z)) (c : VolumeCache)
    : res FsError (list Z) * VolumeCache :=
  match cache_get key c with
  | Some (d, c') => (Ok d, c')
  | None =>
      match direct with
      | Ok data => (Ok data, cache_insert key data c)
      | Err e => (Err e, c)
      | Panic => (Panic, c)
      end
  end.

Definition volume_read (b : FsBackend) (path : list Z) (c : VolumeCache) : res FsError (list Z) * VolumeCache :=
  cached (full_read path) (fb_read b path) c.

Definition volume_read_at (b : FsBackend) (path : list Z) (offset n : Z) (c : VolumeCache)
    : res FsError (list Z) * VolumeCache :=
  cached (range path offset n) (fb_read_at b path offset n) c.

(** ** Paths as strings *)
Definition normalize_path_string (s : str) : list Z :=
  if is_empty s then [c_slash]
  else
    let translated := (fun c => if c =? c_backslash then c_slash else c) <$> s in
    if negb (starts_with [c_slash] translated) then c_slash :: translated else translated.

(** Run [f] on the canonical path. *)
Definition on_path {A : Type} (s : str) (f : list Z -> res FsError A) : res FsError A :=
  match path_from_str (normalize_path_string s) with
  | Ok p => f p
  | Err e => Err (path_fs_error e)
  | Panic => Panic
  end.

Definition read_str (b : FsBackend) (s : str) : res FsError (list Z) := on_path s (fb_read b).
Definition read_at_str (b : FsBackend) (s : str) (offset n : Z) : res FsError (list Z) :=
  on_path s (fun p => fb_read_at b p offset n).

Definition read_to_string_str (b : FsBackend) (s : str) : res FsError (list Z) :=
  match read_str b s with
  | Ok bytes => match from_utf8 bytes with
                | Some t => Ok t
                | None => Err (FsInvalidPath "non-UTF-8 file content")
                end
  | Err e => Err e
  | Panic => Panic
  end.

Definition exists_str (b : FsBackend) (s : str) : bool :=
  match on_path s (fb_exists b) with Ok x => x | _ => false end.

Definition read_dir_str (b : FsBackend) (s : str) : res FsError (list (list Z)) :=
  match on_path s (fb_read_dir b) with
  | Ok es => Ok (de_name <$> es)
  | Err e => Err e
  | Panic => Panic
  end.

(** ** Glob *)
Definition matches_glob (name pattern : str) : bool :=
  if bool_decide (pattern = [c_star]) || bool_decide (pattern = lit "*.*") then true
  else if starts_with [c_star] pattern && ends_with [c_star] pattern && (2 <=? str_len pattern)
  then contains (removelast (tail pattern)) name
  else match strip_prefix [c_star] pattern with
       | Some suffix => ends_with suffix name
       | None =>
           match strip_suffix [c_star] pattern with
           | Some prefix => starts_with prefix name
           | None => bool_decide (name = pattern)
           end
       end.

Definition glob (b : FsBackend) (pattern : str) : list (list Z) :=
  match rfind_char (Z.eqb c_slash) (normalize_path_string pattern) with
  | None => []
  | Some slash_pos =>
      let normalized := normalize_path_string pattern in
      let dir := if Nat.eqb slash_pos 0 then [c_slash] else take slash_pos normalized in
      let file_pattern := drop (S slash_pos) normalized in
      match path_from_str dir with
      | Ok p =>
          match fb_read_dir b p with
          | Ok entries =>
              omap (fun e =>
                if matches_glob (de_name e) file_pattern
                then Some (if bool_decide (dir = [c_slash]) then [c_slash] ++ de_name e
                           else dir ++ [c_slash] ++ de_name e)
                else None) entries
          | _ => []
          end
      | _ => []
      end
  end.

(** ** The volume as the boot layer sees it *)
Record Volume : Type := mkVolume {
  vol_tag : list Z;
  vol_label : option (list Z);
  vol_backend : FsBackend
}.

Definition vol_exists (v : Volume) (path : list Z) : bool := exists_str (vol_backend v) path.
Definition vol_read (v : Volume) (path : list Z) : res Status (list Z) :=
  map_err to_uefi_status (read_str (vol_backend v) path).
Definition vol_read_dir (v : Volume) (path : list Z) : res Status (list (list Z)) :=
  map_err to_uefi_status (read_dir_str (vol_backend v) path).

(** ** Coherence of the cache *)
(** [seen]: the paths read so far.  An entry is for one of them and holds what the
    filesystem answers now. *)
Definition entry_ok (seen : list (list Z)) (b : FsBackend) (e : CacheKey * list Z) : Prop :=
  let k := e.1 in
  ck_path k ∈ seen /\
  if bool_decide (ck_len k = usize_max) then ck_offset k = 0 /\ fb_read b (ck_path k) = Ok e.2
  else fb_read_at b (ck_path k) (ck_offset k) (ck_len k) = Ok e.2.

Definition cache_ok (seen : list (list Z)) (b : FsBackend) (c : VolumeCache) : Prop :=
  vc_used c = total (vc_entries c) /\ vc_used c <= vc_limit c /\
  Forall (entry_ok seen b) (vc_entries c).

Lemma total_nonneg (es : list (CacheKey * list Z)) : 0 <= total es.
Proof. induction es as [|e es IH]; simpl; [done|]. pose proof (len_nonneg e.2). lia. Qed.

Lemma total_app (es fs : list (CacheKey * list Z)) : total (es ++ fs) = total es + total fs.
Proof. induction es as [|e es IH]; simpl; [done|]. lia. Qed.

Lemma total_rev (es : list (CacheKey * list Z)) : total (rev es) = total es.
Proof. induction es as [|e es IH]; [done|]. cbn [rev]. rewrite total_app, IH. simpl. lia. Qed.

Lemma remove_key_spec (key : CacheKey) (es : list (CacheKey * list Z)) :
  match remove_key key es with
  | Some (d, rest) => total es = len d + total rest /\ es ≡ₚ (key, d) :: rest
  | None => True
  end.
Proof.
  induction es as [|[k d] es IH]; [done|]. cbn [remove_key].
  destruct (bool_decide_reflect (k = key)) as [->|_]; [done|].
  destruct (remove_key key es) as [[d' rest]|]; [|done]. destruct IH as [Ht Hp].
  split; [simpl; lia|]. rewrite Hp. apply Permutation_swap.
Qed.

Lemma evict_spec (n limit used : Z) (back : list (CacheKey * list Z)) :
  used = total back -> 0 <= n <= limit ->
  let '(back', used') := evict n limit used back in
  used' = total back' /\ used' + n <= limit /\ back' `sublist_of` back.
Proof.
  revert used. induction back as [|[k d] back IH]; intros used Hu Hn; simpl in *;
    [split; [done|]; split; [lia|constructor]|].
  pose proof (total_nonneg back). destruct (Z.ltb_spec limit (used + n)); [|by simpl; auto].
  pose proof (len_nonneg d). specialize (IH (Z.max 0 (used - len d)) ltac:(lia) Hn).
  destruct (evict n limit _ back) as [back' used']. destruct IH as (? & ? & ?).
  split; [done|]. split; [done|]. by constructor.
Qed.

Lemma cache_get_ok (seen : list (list Z)) (b : FsBackend) (key : CacheKey) (c : VolumeCache) :
  cache_ok seen b c ->
  match cache_get key c with Some (d, c') => entry_ok seen b (key, d) /\ cache_ok seen b c' | None => True end.
Proof.
  intros (Hu & Hl & He). unfold cache_get. pose proof (remove_key_spec key (vc_entries c)) as H.
  destruct (remove_key key (vc_entries c)) as [[d rest]|]; [|done]. destruct H as [Ht Hp].
  rewrite Hp in He. apply Forall_cons in He as He'. split; [apply He'|].
  split; [simpl; lia|]. split; [done|]. done.
Qed.

Lemma cache_insert_ok (seen : list (list Z)) (b : FsBackend) (key : CacheKey) (data : list Z) (c : VolumeCache) :
  cache_ok seen b c -> entry_ok seen b (key, data) -> cache_ok seen b (cache_insert key data c).
Proof.
  intros (Hu & Hl & He) Hd. unfold cache_insert. destruct (Z.ltb_spec (vc_limit c) (len data)); [done|].
  pose proof (evict_spec (len data) (vc_limit c) (vc_used c) (rev (vc_entries c))) as H'.
  rewrite total_rev in H'. pose proof (len_nonneg data). specialize (H' Hu ltac:(lia)).
  destruct (evict _ _ _ _) as [back used]. destruct H' as (? & ? & Hsub).
  split; [simpl; rewrite total_rev; lia|]. split; [done|].
  constructor; [done|]. apply Forall_rev. apply Forall_rev in He. by eapply Forall_sublist_of.
Qed.

Lemma total_filter (p : CacheKey * list Z -> bool) (es : list (CacheKey * list Z)) :
  total es = total (List.filter p es) + total (List.filter (fun e => negb (p e)) es).
Proof. induction es as [|e es IH]; [done|]. simpl. destruct (p e); simpl; lia. Qed.

(** What has been read under another path than [path] reads the same. *)
Definition agree_except (seen : list (list Z)) (path : list Z) (b b' : FsBackend) : Prop :=
  forall q, q ∈ seen -> q <> path -> fb_read b q = fb_read b' q /\ forall o n, fb_read_at b q o n = fb_read_at b' q o n.

(** After a write and its invalidation the cache is right for the new contents. *)
Lemma invalidate_path_ok (seen : list (list Z)) (b b' : FsBackend) (path : list Z) (c : VolumeCache) :
  cache_ok seen b c -> agree_except seen path b b' -> cache_ok seen b' (invalidate_path path c).
Proof.
  intros (Hu & Hl & He) Hb. pose proof (total_filter (has_path path) (vc_entries c)) as Ht.
  pose proof (total_nonneg (List.filter (has_path path) (vc_entries c))).
  pose proof (total_nonneg (List.filter (fun e => negb (has_path path e)) (vc_entries c))).
  split; [simpl; lia|]. split; [simpl; lia|]. simpl.
  apply List.Forall_forall. intros e [Hin Hne]%filter_In.
  apply (proj1 (List.Forall_forall _ _) He) in Hin as [Hs Hin]. unfold has_path in Hne.
  destruct (bool_decide_reflect (ck_path e.1 = path)) as [|Hp]; [done|].
  destruct (Hb _ Hs Hp) as [H1 H2]. split; [done|]. by rewrite <- H1, <- H2.
Qed.

Lemma cache_ok_see (seen : list (list Z)) (b : FsBackend) (p : list Z) (c : VolumeCache) :
  cache_ok seen b c -> cache_ok (p :: seen) b c.
Proof.
  intros (Hu & Hl & He). split_and!; [done..|]. eapply Forall_impl; [exact He|]. intros e [Hs ?]. split; [by right|done].
Qed.

Lemma cached_ok (seen : list (list Z)) (b : FsBackend) (key : CacheKey) (direct : res FsError (list Z)) (c : VolumeCache) :
  cache_ok seen b c -> (forall d, entry_ok seen b (key, d) <-> direct = Ok d) ->
  (cached key direct c).1 = direct /\ cache_ok seen b (cached key direct c).2.
Proof.
  intros Hc Hd. unfold cached. pose proof (cache_get_ok seen b key c Hc) as H.
  destruct (cache_get key c) as [[d c']|].
  - destruct H as [H ?]. split; [symmetry; by apply Hd|done].
  - destruct direct as [data| |]; [|done..]. split; [done|]. apply cache_insert_ok; [done|by apply Hd].
Qed.

(** ** Histories of reads and writes *)
Inductive fs_op : Type :=
  | OpRead (path : list Z)
  | OpReadAt (path : list Z) (offset n : Z)
  | OpWrite (path : list Z) (after : FsBackend).

(** What the operations return, through the cache and directly. *)
Fixpoint run_cached (b : FsBackend) (c : VolumeCache) (ops : list fs_op)
    : list (res FsError (list Z)) * VolumeCache :=
  match ops with
  | [] => ([], c)
  | OpRead p :: ops' =>
      let '(r, c1) := volume_read b p c in
      let '(rs, c2) := run_cached b c1 ops' in (r :: rs, c2)
  | OpReadAt p o n :: ops' =>
      let '(r, c1) := volume_read_at b p o n c in
      let '(rs, c2) := run_cached b c1 ops' in (r :: rs, c2)
  | OpWrite p b' :: ops' => run_cached b' (invalidate_path p c) ops'
  end.

Fixpoint run_direct (b : FsBackend) (ops : list fs_op) : list (res FsError (list Z)) :=
  match ops with
  | [] => []
  | OpRead p :: ops' => fb_read b p :: run_direct b ops'
  | OpReadAt p o n :: ops' => fb_read_at b p o n :: run_direct b ops'
  | OpWrite p b' :: ops' => run_direct b' ops'
  end.

(** No ranged read asks for the whole address space (the length that marks a
    full read), and a write changes nothing that was read before under another
    path than its own: on a filesystem on which several spellings name one
    file, a file that is written was read under that spelling only. *)
Fixpoint ops_ok (seen : list (list Z)) (b : FsBackend) (ops : list fs_op) : Prop :=
  match ops with
  | [] => True
  | OpRead p :: ops' => ops_ok (p :: seen) b ops'
  | OpReadAt p o n :: ops' => n < usize_max /\ ops_ok (p :: seen) b ops'
  | OpWrite p b' :: ops' => agree_except seen p b b' /\ ops_ok seen b' ops'
  end.

Lemma run_cached_ok (ops : list fs_op) (seen : list (list Z)) (b : FsBackend) (c : VolumeCache) :
  cache_ok seen b c -> ops_ok seen b ops ->
  (run_cached b c ops).1 = run_direct b ops /\ exists seen' b', cache_ok seen' b' (run_cached b c ops).2.
Proof.
  revert seen b c. induction ops as [|[p|p o n|p b'] ops IH]; intros seen b c Hc Hok; cbn [run_cached run_direct].
  - split; [done|by exists seen, b].
  - destruct (cached_ok (p :: seen) b (full_read p) (fb_read b p) c (cache_ok_see _ _ _ _ Hc)) as [E Hc1].
    { intros d. unfold entry_ok, full_read. cbn. rewrite bool_decide_true by done. set_solver. }
    unfold volume_read. destruct (cached _ _ c) as [r c1]. simpl in E, Hc1. subst r.
    destruct (IH _ b c1 Hc1 Hok) as [E2 H2]. destruct (run_cached b c1 ops) as [rs c2]. simpl in *.
    by rewrite E2.
  - destruct Hok as [Hn Hok].
    destruct (cached_ok (p :: seen) b (range p o n) (fb_read_at b p o n) c (cache_ok_see _ _ _ _ Hc)) as [E Hc1].
    { intros d. unfold entry_ok, range. cbn. rewrite bool_decide_false by lia. set_solver. }
    unfold volume_read_at. destruct (cached _ _ c) as [r c1]. simpl in E, Hc1. subst r.
    destruct (IH _ b c1 Hc1 Hok) as [E2 H2]. destruct (run_cached b c1 ops) as [rs c2]. simpl in *.
    by rewrite E2.
  - destruct Hok as [Hb Hok]. eapply IH; [by eapply invalidate_path_ok|done].
Qed.

Lemma cache_new_ok (b : FsBackend) : cache_ok [] b cache_new.
Proof. by split; [|split]. Qed.

Lemma run_cached_limit (ops : list fs_op) (b : FsBackend) (c : VolumeCache) :
  vc_limit (run_cached b c ops).2 = vc_limit c.
Proof.
  assert (forall key direct c, vc_limit (cached key direct c).2 = vc_limit c) as Hc.
  { intros key direct c'. unfold cached, cache_get, cache_insert.
    destruct (remove_key _ _) as [[? ?]|]; [done|]. destruct direct; [|done..].
    destruct (_ <? _); [done|]. by destruct (evict _ _ _ _). }
  revert b c. induction ops as [|[p|p o n|p b'] ops IH]; intros b c; cbn [run_cached]; [done|..].
  - specialize (Hc (full_read p) (fb_read b p) c). unfold volume_read. destruct (cached _ _ c) as [r c1].
    specialize (IH b c1). destruct (run_cached b c1 ops). simpl in *. congruence.
  - specialize (Hc (range p o n) (fb_read_at b p o n) c). unfold volume_read_at. destruct (cached _ _ c) as [r c1].
    specialize (IH b c1). destruct (run_cached b c1 ops). simpl in *. congruence.
  - by rewrite IH.
Qed.

(** C32. The read cache is invisible and bounded.  Take any history of whole and
    ranged reads, and of writes that drop their path from the cache, in which a
    write changes nothing that was read before under another path (so a file that
    is written has been read under the spelling that is written only; FAT takes
    several, see [stale_other_spelling]).  Then every read returns exactly what
    the filesystem holds at that moment, and the bytes kept are accounted for and
    never exceed the limit of 8 MiB. *)
Theorem volume_cache_transparent (b : FsBackend) (ops : list fs_op) :
  ops_ok [] b ops ->
  (run_cached b cache_new ops).1 = run_direct b ops /\
  vc_used (run_cached b cache_new ops).2 = total (vc_entries (run_cached b cache_new ops).2) /\
  vc_used (run_cached b cache_new ops).2 <= CACHE_BYTES_LIMIT.
Proof.
  intros Hok. destruct (run_cached_ok ops [] b cache_new (cache_new_ok b) Hok) as [E (seen & b' & Hu & Hl & _)].
  rewrite run_cached_limit in Hl. done.
Qed.

(** A filesystem of one file. *)
Definition one_file (name content : list Z) : FsBackend := {|
  fb_read p := if bool_decide (p = name) then Ok content else Err FsNotFound;
  fb_read_at p o n :=
    if bool_decide (p = name) then Ok (take (Z.to_nat n) (drop (Z.to_nat o) content)) else Err FsNotFound;
  fb_exists p := Ok (bool_decide (p = name));
  fb_read_dir _ := Ok []
|}.

(** On a filesystem that ignores case a write leaves the copy cached under
    another spelling of its path in place. *)
Definition caseless (name content : list Z) : FsBackend := {|
  fb_read p := if eq_ignore_ascii_case p name then Ok content else Err FsNotFound;
  fb_read_at p o n :=
    if eq_ignore_ascii_case p name then Ok (take (Z.to_nat n) (drop (Z.to_nat o) content)) else Err FsNotFound;
  fb_exists p := Ok (eq_ignore_ascii_case p name);
  fb_read_dir _ := Ok []
|}.

(** Two files on such a filesystem, the written one under one spelling. *)
Definition two_files (log other : list Z) : FsBackend := {|
  fb_read p := if eq_ignore_ascii_case p (lit "/LOG") then Ok log
               else if eq_ignore_ascii_case p (lit "/cfg") then Ok other else Err FsNotFound;
  fb_read_at p o n :=
    let cut d := take (Z.to_nat n) (drop (Z.to_nat o) d) in
    if eq_ignore_ascii_case p (lit "/LOG") then Ok (cut log)
    else if eq_ignore_ascii_case p (lit "/cfg") then Ok (cut other) else Err FsNotFound;
  fb_exists _ := Ok true;
  fb_read_dir _ := Ok []
|}.

Lemma volume_cache_transparent_witness :
  (run_cached (two_files [1; 2] [9]) cache_new
     [OpRead (lit "/log"); OpReadAt (lit "/log") 1 1; OpRead (lit "/CFG"); OpRead (lit "/log");
      OpWrite (lit "/log") (two_files [3] [9]); OpRead (lit "/log"); OpRead (lit "/CFG")]).1 =
  [Ok [1; 2]; Ok [2]; Ok [9]; Ok [1; 2]; Ok [3]; Ok [9]].
Proof.
  destruct (volume_cache_transparent (two_files [1; 2] [9])
     [OpRead (lit "/log"); OpReadAt (lit "/log") 1 1; OpRead (lit "/CFG"); OpRead (lit "/log");
      OpWrite (lit "/log") (two_files [3] [9]); OpRead (lit "/log"); OpRead (lit "/CFG")]) as [E _].
  - simpl. split; [done|]. split; [|done]. intros q Hq Hne.
    repeat (apply elem_of_cons in Hq as [->|Hq]; [first [done|by split; intros; vm_compute]|]). by apply elem_of_nil in Hq.
  - rewrite E. vm_compute. reflexivity.
Defined.

Theorem stale_other_spelling :
  (run_cached (caseless (lit "/LOG") [1]) cache_new
     [OpRead (lit "/log"); OpWrite (lit "/LOG") (caseless (lit "/LOG") [1; 2]); OpRead (lit "/log")]).1 =
  [Ok [1]; Ok [1]].
Proof. vm_compute. reflexivity. Qed.
