(* ===== verification/BlockSource.v ===== *)
(** * Byte sources over block devices and files (block_source.rs)

    Every filesystem reader sits on one adapter, [SourceReader::fill_at], over
    a source that can seek and read.  The interface is the class [BlockSource];
    [SourceLaws] and [SourceReliable] say what a source promises (it presents a
    fixed byte sequence, and its reads do not fail), the two sources of the
    program discharge them from what a block device or a filesystem promises,
    and the adapter is proved against the interface alone. *)
From S2P Require Import Prelude RustStr FsTypes SecurityOverride VolumeFs.
Local Open Scope Z_scope.

(** ** Block alignment *)
Definition checked_add (max a b : Z) : option Z := if a + b <=? max then Some (a + b) else None.
Definition checked_mul (max a b : Z) : option Z := if a * b <=? max then Some (a * b) else None.

(** The first block, the number of bytes to read, and where the range starts in them. *)
Definition compute_aligned_read (start_byte dst_len block_size : Z) : option (Z * Z * Z) :=
  if (dst_len =? 0) || (block_size =? 0) then None
  else
    let first_lba := start_byte / block_size in
    match checked_add u64_max start_byte dst_len with
    | None => None
    | Some end_byte =>
        let last_lba := (end_byte - 1) / block_size in
        let aligned_blocks := last_lba - first_lba + 1 in
        match checked_mul u64_max aligned_blocks block_size with
        | None => None
        | Some aligned_len =>
            let intra := start_byte - first_lba * block_size in
            match checked_add usize_max intra dst_len with
            | None => None
            | Some e => if aligned_len <? e then None else Some (first_lba, aligned_len, intra)
            end
        end
    end.

(** ** The interface of a source *)
Inductive SeekFrom : Type := SeekStart (x : Z) | SeekEnd (x : Z) | SeekCurrent (x : Z).

(** [read] gets the length of the destination and returns the bytes written to
    its front. *)
Class BlockSource (Src : Type) := {
  bs_read : Z -> Src -> res string (list Z) * Src;
  bs_seek : SeekFrom -> Src -> res string Z * Src;
  bs_byte_len : Src -> Z
}.

Definition i64_max : Z := 9223372036854775807.
Definition i64_min : Z := -9223372036854775808.

(** The checked arithmetic both sources share; [base] is the position or the length. *)
Definition seek_signed (base x : Z) (too_big overflow negative : string) : res string Z :=
  if i64_max <? base then Err too_big
  else if (base + x <? i64_min) || (i64_max <? base + x) then Err overflow
  else if base + x <? 0 then Err negative
  else Ok (base + x).

(** ** The adapter *)
Inductive SourceReaderError : Type :=
  | SeekFailed (e : string)
  | ReadFailed (e : string)
  | EofBeforeCompleted.

Section adapter.
Context `{BlockSource Src}.

(** [while filled < buf.len()]: one round per read; [None] if the rounds run out. *)
Fixpoint fill_loop (fuel : nat) (size : Z) (filled : list Z) (s : Src)
    : option (res SourceReaderError (list Z) * Src) :=
  if len filled <? size then
    match fuel with
    | O => None
    | S fuel' =>
        match bs_read (size - len filled) s with
        | (Ok got, s') =>
            if len got =? 0 then Some (Err EofBeforeCompleted, s')
            else fill_loop fuel' size (filled ++ got) s'
        | (Err e, s') => Some (Err (ReadFailed e), s')
        | (Panic, s') => Some (Panic, s')
        end
    end
  else Some (Ok filled, s).

(** A read that does not end the loop adds a byte, so [size] rounds are enough. *)
Definition fill_at (offset size : Z) (s : Src) : option (res SourceReaderError (list Z) * Src) :=
  if size =? 0 then Some (Ok [], s)
  else
    match bs_seek (SeekStart offset) s with
    | (Ok _, s') => fill_loop (Z.to_nat size) size [] s'
    | (Err e, s') => Some (Err (SeekFailed e), s')
    | (Panic, s') => Some (Panic, s')
    end.
End adapter.

(** ** [BlockIoSource] *)
Record BlockIO : Type := mkBlockIO {
  bio_block_size : Z;                                (* u32 *)
  bio_last_block : Z;                                (* u64, the highest block number *)
  bio_read_blocks : Z -> Z -> option (list Z)        (* first block, bytes *)
}.

Record BlockIoSource : Type := mkBio {
  bios_io : BlockIO;
  bios_block_size : Z;
  bios_position : Z;
  bios_media_len : Z
}.

Definition from_block_io (io : BlockIO) : res FsError BlockIoSource :=
  let block_size := bio_block_size io in
  if block_size =? 0 then Err (FsUnsupported "block_size=0")
  else
    let media_len := saturating_mul u64_max (saturating_add u64_max (bio_last_block io) 1) block_size in
    Ok (mkBio io block_size 0 media_len).

Definition bio_at (s : BlockIoSource) (position : Z) : BlockIoSource :=
  mkBio (bios_io s) (bios_block_size s) position (bios_media_len s).

Definition bio_read (n : Z) (s : BlockIoSource) : res string (list Z) * BlockIoSource :=
  if n =? 0 then (Ok [], s)
  else
    let remaining := Z.max 0 (bios_media_len s - bios_position s) in
    if remaining =? 0 then (Ok [], s)
    else
      let want := Z.min n remaining in
      match compute_aligned_read (bios_position s) want (bios_block_size s) with
      | None => (Err "alignment-compute overflow"%string, s)
      | Some (first_lba, aligned_len, intra) =>
          match bio_read_blocks (bios_io s) first_lba aligned_len with
          | None => (Err "BlockIO::read_blocks failed"%string, s)
          | Some buf =>
              match slice intra (intra + want) buf with
              | Ok dst => (Ok dst, bio_at s (saturating_add u64_max (bios_position s) want))
              | Err e => (Err e, s)
              | Panic => (Panic, s)
              end
          end
      end.

Definition bio_seek (pos : SeekFrom) (s : BlockIoSource) : res string Z * BlockIoSource :=
  let new :=
    match pos with
    | SeekStart x => Ok x
    | SeekEnd x =>
        seek_signed (bios_media_len s) x "media_len overflows i64" "seek-from-end overflow" "seek-from-end negative"
    | SeekCurrent x =>
        seek_signed (bios_position s) x "position overflows i64" "seek-from-current overflow"
          "seek-from-current negative"
    end in
  match new with
  | Ok p => (Ok p, bio_at s p)
  | Err e => (Err e, s)
  | Panic => (Panic, s)
  end.

#[export] Instance bio_source : BlockSource BlockIoSource := {
  bs_read := bio_read;
  bs_seek := bio_seek;
  bs_byte_len := bios_media_len
}.

(** ** [FileBlockSource]: a file of a shared backend *)
Record SharedBackend : Type := mkShared {
  sb_backend : FsBackend;
  sb_size : list Z -> res FsError Z;       (* [metadata(path)?.size] *)
  sb_borrowed : bool                       (* the cell is borrowed elsewhere *)
}.

Record FileBlockSource : Type := mkFileSource {
  fbs_shared : SharedBackend;
  fbs_path : list Z;
  fbs_len : Z;
  fbs_position : Z
}.

Definition file_source_new (shared : SharedBackend) (path : list Z) : res FsError FileBlockSource :=
  if sb_borrowed shared then Err (FsUnsupported "file-block-source: holding backend busy")
  else let? size := sb_size shared path in Ok (mkFileSource shared path size 0).

Definition file_at (s : FileBlockSource) (position : Z) : FileBlockSource :=
  mkFileSource (fbs_shared s) (fbs_path s) (fbs_len s) position.

Definition file_read (n : Z) (s : FileBlockSource) : res string (list Z) * FileBlockSource :=
  if n =? 0 then (Ok [], s)
  else
    let remaining := Z.max 0 (fbs_len s - fbs_position s) in
    if remaining =? 0 then (Ok [], s)
    else if sb_borrowed (fbs_shared s) then (Err "holding backend busy (reentrant borrow)"%string, s)
    else
      let want := Z.min n remaining in
      match fb_read_at (sb_backend (fbs_shared s)) (fbs_path s) (fbs_position s) want with
      | Ok got =>
          let k := Z.min (len got) n in
          (Ok (take (Z.to_nat k) got), file_at s (saturating_add u64_max (fbs_position s) k))
      | Err _ => (Err "holding read_at failed"%string, s)
      | Panic => (Panic, s)
      end.

Definition file_seek (pos : SeekFrom) (s : FileBlockSource) : res string Z * FileBlockSource :=
  let new :=
    match pos with
    | SeekStart x => Ok x
    | SeekEnd x => seek_signed (fbs_len s) x "len overflows i64" "seek-from-end overflow" "seek-from-end negative"
    | SeekCurrent x =>
        seek_signed (fbs_position s) x "position overflows i64" "seek-from-current overflow"
          "seek-from-current negative"
    end in
  match new with
  | Ok p => (Ok p, file_at s p)
  | Err e => (Err e, s)
  | Panic => (Panic, s)
  end.

#[export] Instance file_source : BlockSource FileBlockSource := {
  bs_read := file_read;
  bs_seek := file_seek;
  bs_byte_len := fbs_len
}.

(** ** What a source promises *)
Class SourceLaws (Src : Type) `{BlockSource Src} := {
  (** The source presents the bytes and its cursor is at the position. *)
  src_at : Src -> list Z -> Z -> Prop;
  (** Its device does not fail. *)
  src_good : Src -> Prop;
  src_len : forall s data p, src_at s data p -> bs_byte_len s = len data /\ len data <= u64_max;
  src_seek : forall s data p x,
    src_at s data p -> 0 <= x <= u64_max ->
    exists s', bs_seek (SeekStart x) s = (Ok x, s') /\ src_at s' data x /\ (src_good s -> src_good s');
  src_read : forall s data p n,
    src_at s data p -> 0 <= p <= u64_max -> 0 < n <= isize_max ->
    match bs_read n s with
    | (Ok got, s') =>
        src_at s' data (p + len got) /\ got = sub_list p (p + len got) data /\ len got <= n /\
        p + len got <= Z.max p (len data) /\ (len got = 0 <-> len data <= p) /\ (src_good s -> src_good s')
    | (Err _, s') => ~ src_good s /\ src_at s' data p
    | (Panic, _) => False
    end
}.

(** ** Alignment *)
Lemma checked_add_spec (max a b : Z) :
  match checked_add max a b with Some c => c = a + b /\ a + b <= max | None => max < a + b end.
Proof. unfold checked_add. destruct (Z.leb_spec (a + b) max); [done|lia]. Qed.

Lemma checked_mul_spec (max a b : Z) :
  match checked_mul max a b with Some c => c = a * b /\ a * b <= max | None => max < a * b end.
Proof. unfold checked_mul. destruct (Z.leb_spec (a * b) max); [done|lia]. Qed.

(** The blocks from the one of the first byte to the one of the last. *)
Lemma aligned_cover (start n bs : Z) :
  0 <= start -> 0 < n -> 0 < bs ->
  let first := start / bs in
  let alen := ((start + n - 1) / bs - first + 1) * bs in
  first * bs + start mod bs = start /\ 0 <= start mod bs < bs /\
  start mod bs + n <= alen < start mod bs + n + bs /\ first * bs + alen = ((start + n - 1) / bs + 1) * bs.
Proof.
  intros H1 H2 H3. simpl.
  pose proof (Z.div_mod start bs ltac:(lia)). pose proof (Z.mod_pos_bound start bs H3).
  pose proof (Z.div_mod (start + n - 1) bs ltac:(lia)). pose proof (Z.mod_pos_bound (start + n - 1) bs H3).
  nia.
Qed.

(** [compute_aligned_read] gives the smallest run of whole blocks that
    covers the byte range and the place of the range in it; it gives nothing
    exactly when the range or the run does not fit in 64 bits. *)
Theorem aligned_read_exact (start n bs : Z) :
  0 <= start -> 0 < n -> 0 < bs ->
  match compute_aligned_read start n bs with
  | Some (lba, alen, intra) =>
      lba = start / bs /\ lba * bs + intra = start /\ 0 <= intra < bs /\ alen mod bs = 0 /\
      intra + n <= alen < intra + n + bs /\ lba * bs + alen = ((start + n - 1) / bs + 1) * bs
  | None => u64_max < start + n \/ u64_max < ((start + n - 1) / bs - start / bs + 1) * bs
  end.
Proof.
  intros H1 H2 H3. unfold compute_aligned_read.
  rewrite (proj2 (Z.eqb_neq n 0)), (proj2 (Z.eqb_neq bs 0)) by lia. simpl.
  pose proof (aligned_cover start n bs H1 H2 H3) as (Hs & Hm & Hc & He). simpl in *.
  pose proof (checked_add_spec u64_max start n) as Ha. destruct (checked_add u64_max start n); [|by left].
  destruct Ha as [-> Ha].
  pose proof (checked_mul_spec u64_max ((start + n - 1) / bs - start / bs + 1) bs) as Hb.
  destruct (checked_mul _ _ _); [|by right]. destruct Hb as [-> Hb].
  assert (start - start / bs * bs = start mod bs) as -> by lia.
  pose proof (checked_add_spec usize_max (start mod bs) n) as Hd. unfold usize_max in *.
  destruct (checked_add u64_max (start mod bs) n); [|exfalso; lia]. destruct Hd as [-> _].
  rewrite (proj2 (Z.ltb_ge _ _)) by lia. by rewrite Z_mod_mult.
Qed.

Lemma aligned_read_exact_witness :
  0 <= 1000 /\ 0 < 100 /\ compute_aligned_read 1000 100 512 = Some (1, 1024, 488) /\ 1 = 1000 / 512.
Proof.
  split; [lia|]. split; [lia|]. split; [reflexivity|].
  pose proof (aligned_read_exact 1000 100 512 ltac:(lia) ltac:(lia) ltac:(lia)) as H. vm_compute in H. apply H.
Defined.

(** ** The adapter against the interface *)
Section fill.
Context `{SourceLaws Src}.

Lemma sub_list_snoc {A : Type} (lo m n : Z) (l : list A) :
  0 <= lo -> 0 <= m -> 0 <= n -> lo + m + n <= len l ->
  sub_list lo (lo + m) l ++ sub_list (lo + m) (lo + m + n) l = sub_list lo (lo + m + n) l.
Proof.
  intros H1 H2 H3 H4. unfold sub_list.
  replace (Z.to_nat (lo + m + n - lo)) with (Z.to_nat m + Z.to_nat n)%nat by lia.
  replace (Z.to_nat (lo + m)) with (Z.to_nat lo + Z.to_nat m)%nat by lia.
  rewrite <- drop_drop.
  replace (Z.to_nat (lo + m - lo)) with (Z.to_nat m) by lia.
  replace (Z.to_nat (lo + m + n - (lo + m))) with (Z.to_nat n) by lia.
  rewrite <- (take_drop (Z.to_nat m) (drop (Z.to_nat lo) l)) at 3.
  rewrite take_app_add'; [done|]. rewrite length_take, length_drop. unfold len in *. lia.
Qed.

Definition fill_ok (data : list Z) (off size : Z) (s0 : Src) (r : res SourceReaderError (list Z)) : Prop :=
  match r with
  | Ok bytes => bytes = sub_list off (off + size) data /\ off + size <= len data
  | Err EofBeforeCompleted => len data < off + size
  | Err (ReadFailed _) => ~ src_good s0
  | Err (SeekFailed _) | Panic => False
  end.

Lemma fill_loop_ok (data : list Z) (off size : Z) (s0 : Src) (fuel : nat) (filled : list Z) (s : Src) :
  0 <= off <= u64_max -> 0 < size <= isize_max -> (Z.to_nat (size - len filled) <= fuel)%nat ->
  src_at s data (off + len filled) -> (src_good s0 -> src_good s) ->
  len filled <= size -> (filled = [] \/ off + len filled <= len data) ->
  filled = sub_list off (off + len filled) data ->
  exists r s' p', fill_loop fuel size filled s = Some (r, s') /\ src_at s' data p' /\ fill_ok data off size s0 r.
Proof.
  revert filled s. induction fuel as [|fuel IH]; intros filled s Ho Hz Hf Hat Hg Hle Hin Hd; simpl;
    pose proof (len_nonneg filled); (destruct (Z.ltb_spec (len filled) size); [|]).
  2,4: exists (Ok filled), s, (off + len filled); split; [done|]; split; [done|]; simpl; assert (len filled = size) as E by lia;
    rewrite E in Hd, Hin; split; [done|]; destruct Hin as [->|?]; [change (len (@nil Z)) with 0 in E; lia|done].
  { lia. }
  pose proof (src_len _ _ _ Hat) as [_ Hlen].
  assert (off + len filled <= u64_max) by (destruct Hin as [->|?]; [change (len (@nil Z)) with 0|]; lia).
  pose proof (src_read s data (off + len filled) (size - len filled) Hat ltac:(lia) ltac:(lia)) as Hr.
  destruct (bs_read (size - len filled) s) as [[got|e|] s']; [| |done].
  2:{ destruct Hr as [Hr Hat']. exists (Err (ReadFailed e)), s'. eexists. split; [done|]. split; [exact Hat'|].
      intros Hs. by apply Hr, Hg. }
  destruct Hr as (Hat' & Hgot & Hmax & Hend & Hz0 & Hg'). pose proof (len_nonneg got).
  destruct (Z.eqb_spec (len got) 0) as [E|E].
  - exists (Err EofBeforeCompleted), s'. eexists. split; [done|]. split; [exact Hat'|]. simpl. apply Hz0 in E. lia.
  - assert (off + len filled + len got <= len data) by (destruct (Z.le_gt_cases (len data) (off + len filled)); [by exfalso; apply E, Hz0|lia]).
    apply IH; rewrite ?len_app, ?Z.add_assoc; auto; try lia.
    rewrite Hgot at 1. rewrite Hd at 1. apply sub_list_snoc; lia.
Qed.
End fill.

(** Whatever the source does, the loop ends within its rounds. *)
Lemma fill_loop_total `{BlockSource Src} (fuel : nat) (size : Z) (filled : list Z) (s : Src) :
  (Z.to_nat (size - len filled) <= fuel)%nat -> fill_loop fuel size filled s <> None.
Proof.
  revert filled s. induction fuel as [|fuel IH]; intros filled s Hf; simpl;
    destruct (Z.ltb_spec (len filled) size); try done; [lia|].
  destruct (bs_read _ s) as [[got|e|] s']; [|done..]. pose proof (len_nonneg got).
  destruct (Z.eqb_spec (len got) 0); [done|]. apply IH. rewrite len_app. lia.
Qed.

(** Filling a buffer over a lawful source. *)
Lemma fill_at_ok `{SourceLaws Src} (s : Src) (data : list Z) (p off size : Z) :
  src_at s data p -> 0 <= off <= u64_max -> 0 < size <= isize_max ->
  exists r s' p', fill_at off size s = Some (r, s') /\ src_at s' data p' /\ fill_ok data off size s r.
Proof.
  intros Hat Ho Hz. unfold fill_at. rewrite (proj2 (Z.eqb_neq size 0)) by lia.
  destruct (src_seek s data p off Hat Ho) as (s' & -> & Hat' & Hg).
  destruct (fill_loop_ok data off size s (Z.to_nat size) [] s') as (r & s'' & p' & E & Hp' & Hr); auto;
    rewrite ?len_nil, ?Z.add_0_r; auto; try lia.
  { unfold sub_list. by rewrite Z.sub_diag. }
  exists r, s'', p'. split; [exact E|]. split; [exact Hp'|exact Hr].
Qed.

(** C23. Over any lawful source, filling a buffer from an offset returns, and
    returns exactly the bytes of the source at that offset or an error; it
    reports the end of the source exactly when the range passes it, and a read
    error only when the device failed.  The source is ready for the next read
    afterwards. *)
Theorem fill_at_refines `{SourceLaws Src} (s : Src) (data : list Z) (p off size : Z) :
  src_at s data p -> 0 <= off <= u64_max -> 0 < size <= isize_max ->
  exists r s' p', fill_at off size s = Some (r, s') /\ src_at s' data p' /\
    match r with
    | Ok bytes => bytes = sub_list off (off + size) data /\ off + size <= len data
    | Err EofBeforeCompleted => len data < off + size
    | Err (ReadFailed _) => ~ src_good s
    | Err (SeekFailed _) | Panic => False
    end.
Proof. apply fill_at_ok. Qed.

(** ** The block device is a lawful source

    UEFI 2.10, 13.9.2: reading whole blocks within the media gives their bytes
    or an error. *)
Record device (io : BlockIO) (data : list Z) : Prop := {
  dev_block : 0 < bio_block_size io;
  dev_last : 0 <= bio_last_block io;
  dev_len : len data = (bio_last_block io + 1) * bio_block_size io;
  dev_max : len data <= u64_max;
  dev_bytes : forall lba n buf,
    0 <= lba -> 0 < n -> n mod bio_block_size io = 0 -> lba * bio_block_size io + n <= len data ->
    bio_read_blocks io lba n = Some buf -> buf = sub_list (lba * bio_block_size io) (lba * bio_block_size io + n) data
}.

Definition device_good (io : BlockIO) : Prop :=
  forall lba n, 0 <= lba -> 0 < n -> n mod bio_block_size io = 0 ->
    lba * bio_block_size io + n <= (bio_last_block io + 1) * bio_block_size io -> bio_read_blocks io lba n <> None.

Definition bio_presents (s : BlockIoSource) (data : list Z) (p : Z) : Prop :=
  device (bios_io s) data /\ bios_block_size s = bio_block_size (bios_io s) /\
  bios_media_len s = len data /\ bios_position s = p.

(** The run of blocks stays on the device when the range does. *)
Lemma aligned_on_device (io : BlockIO) (data : list Z) (p n : Z) :
  device io data -> 0 <= p -> 0 < n -> p + n <= len data ->
  exists lba alen intra,
    compute_aligned_read p n (bio_block_size io) = Some (lba, alen, intra) /\
    0 <= lba /\ 0 < alen /\ alen mod bio_block_size io = 0 /\ lba * bio_block_size io + alen <= len data /\
    lba * bio_block_size io + intra = p /\ 0 <= intra /\ intra + n <= alen.
Proof.
  intros [Hb Hl Hlen Hmax _] Hp Hn Hle.
  pose proof (aligned_read_exact p n (bio_block_size io) Hp Hn Hb) as H.
  assert ((p + n - 1) / bio_block_size io + 1 <= bio_last_block io + 1).
  { assert ((p + n - 1) / bio_block_size io < bio_last_block io + 1) by (apply Z.div_lt_upper_bound; lia). lia. }
  assert (0 <= p / bio_block_size io) by (apply Z.div_pos; lia).
  destruct (compute_aligned_read p n (bio_block_size io)) as [[[lba alen] intra]|].
  - destruct H as (-> & E1 & E2 & E3 & E4 & E5). do 3 eexists. split; [done|].
    split; [done|]. split; [lia|]. split; [done|]. split; [rewrite E5, Hlen; nia|]. lia.
  - exfalso. destruct H as [H|H]; [lia|]. nia.
Qed.

Lemma sub_list_sub_list {A : Type} (a b c d : Z) (l : list A) :
  0 <= a -> 0 <= c -> c <= d -> d <= b - a -> b <= len l ->
  sub_list c d (sub_list a b l) = sub_list (a + c) (a + d) l.
Proof.
  intros H1 H2 H3 H4 H5. unfold sub_list. rewrite skipn_firstn_comm, drop_drop, take_take.
  f_equal; [lia|f_equal; lia].
Qed.

Lemma len_sub_list {A : Type} (lo hi : Z) (l : list A) :
  0 <= lo <= hi -> hi <= len l -> len (sub_list lo hi l) = hi - lo.
Proof. intros. unfold len. rewrite length_sub_list by done. lia. Qed.

(** One read of the block source. *)
Lemma bio_read_spec (s : BlockIoSource) (data : list Z) (p n : Z) :
  bio_presents s data p -> 0 <= p -> 0 < n ->
  if len data <=? p then bio_read n s = (Ok [], s)
  else
    let want := Z.min n (len data - p) in
    bio_read n s = (Ok (sub_list p (p + want) data), bio_at s (p + want)) \/
    (exists e, bio_read n s = (Err e, s)) /\ ~ device_good (bios_io s).
Proof.
  intros (Hd & Hbs & Hml & Hpos) Hp Hn. unfold bio_read. rewrite (proj2 (Z.eqb_neq n 0)), Hml, Hpos, Hbs by lia.
  destruct (Z.leb_spec (len data) p) as [Hle|Hgt].
  { by rewrite Z.max_l, Z.eqb_refl by lia. }
  rewrite Z.max_r, (proj2 (Z.eqb_neq _ _)) by lia. cbv zeta.
  set (want := Z.min n (len data - p)).
  destruct (aligned_on_device (bios_io s) data p want Hd Hp ltac:(lia) ltac:(lia))
    as (lba & alen & intra & -> & H1 & H2 & H3 & H4 & H5 & H6 & H7).
  destruct (bio_read_blocks (bios_io s) lba alen) as [buf|] eqn:E.
  - left. pose proof (dev_bytes _ _ Hd lba alen buf H1 H2 H3 H4 E) as ->.
    assert (len (sub_list (lba * bio_block_size (bios_io s)) (lba * bio_block_size (bios_io s) + alen) data) = alen)
      as El by (pose proof (dev_block _ _ Hd); rewrite len_sub_list; nia).
    pose proof (dev_block _ _ Hd). pose proof (dev_max _ _ Hd).
    rewrite slice_ok by lia. rewrite sub_list_sub_list by nia.
    unfold saturating_add. rewrite Z.min_r by lia.
    replace (lba * bio_block_size (bios_io s) + (intra + want)) with (p + want) by lia. by rewrite H5.
  - right. split; [by eexists|]. intros Hg. apply (Hg lba alen); try done. rewrite <- (dev_len _ _ Hd). lia.
Qed.

#[export] Instance bio_laws : SourceLaws BlockIoSource.
Proof.
  refine {| src_at := bio_presents; src_good s := device_good (bios_io s) |}.
  - intros s data p (Hd & _ & Hml & _). split; [done|by apply dev_max in Hd].
  - intros s data p x (Hd & Hbs & Hml & _) Hx. exists (bio_at s x). by split_and!.
  - intros s data p n Hp Hp0 Hn. pose proof (bio_read_spec s data p n Hp ltac:(lia) ltac:(lia)) as H.
    pose proof Hp as (Hd & Hbs & Hml & Hpos). change (bs_read n s) with (bio_read n s).
    destruct (Z.leb_spec (len data) p) as [Hle|Hgt].
    + rewrite H, len_nil, Z.add_0_r. split; [done|]. unfold sub_list. rewrite Z.sub_diag.
      split; [done|]. split_and!; [lia|lia|lia|done].
    + destruct H as [->|[[e ->] Hg]]; [|by split].
      rewrite len_sub_list by lia. replace (p + (p + Z.min n (len data - p) - p)) with (p + Z.min n (len data - p)) by lia.
      split; [by split_and!|]. split; [done|]. split; [lia|]. split; [lia|]. split; [lia|done].
Defined.

(** ** A file of a backend is a lawful source

    The backend's [read_at] gives a non-empty front of the requested range of
    the file, or an error. *)
Record file_of (shared : SharedBackend) (path data : list Z) : Prop := {
  fo_max : len data <= u64_max;
  fo_bytes : forall off n got,
    0 <= off -> 0 < n -> off + n <= len data -> fb_read_at (sb_backend shared) path off n = Ok got ->
    0 < len got <= n /\ got = sub_list off (off + len got) data;
  fo_no_panic : forall off n, 0 <= off -> 0 < n -> fb_read_at (sb_backend shared) path off n <> Panic
}.

Definition file_good (shared : SharedBackend) (path : list Z) : Prop :=
  sb_borrowed shared = false /\ forall off n e, 0 <= off -> 0 < n -> fb_read_at (sb_backend shared) path off n <> Err e.

Definition file_presents (s : FileBlockSource) (data : list Z) (p : Z) : Prop :=
  file_of (fbs_shared s) (fbs_path s) data /\ fbs_len s = len data /\ fbs_position s = p.

#[export] Instance file_laws : SourceLaws FileBlockSource.
Proof.
  refine {| src_at := file_presents; src_good s := file_good (fbs_shared s) (fbs_path s) |}.
  - intros s data p (Hf & Hl & _). split; [done|by apply fo_max in Hf].
  - intros s data p x (Hf & Hl & _) Hx. exists (file_at s x). by split_and!.
  - intros s data p n (Hf & Hl & Hpos) Hp Hn. simpl. unfold file_read.
    rewrite (proj2 (Z.eqb_neq n 0)), Hl, Hpos by lia. pose proof (len_nonneg data).
    destruct (Z.eqb_spec (Z.max 0 (len data - p)) 0) as [E|E].
    { rewrite len_nil, Z.add_0_r. split; [by split_and!|]. unfold sub_list. rewrite Z.sub_diag.
      split; [done|]. split_and!; [lia|lia|lia|done]. }
    destruct (sb_borrowed (fbs_shared s)) eqn:Eb; [by split; [intros [Hb _]; congruence|split_and!]|]. cbv zeta.
    destruct (fb_read_at _ _ _ _) as [got|e|] eqn:Er; [|split; [intros [_ Hg]; by eapply Hg; [| |exact Er]; lia|by split_and!]|by eapply fo_no_panic; [done| | |exact Er]; lia].
    apply (fo_bytes _ _ _ Hf) in Er as [Hg Eg]; [|lia..]. pose proof (fo_max _ _ _ Hf).
    rewrite Z.min_l by lia.
    assert (take (Z.to_nat (len got)) got = got) as -> by (unfold len; by rewrite Nat2Z.id, firstn_all).
    unfold saturating_add. rewrite Z.min_r by lia.
    split; [by split_and!|]. split; [done|]. split; [lia|]. split; [lia|]. split; [lia|done].
Defined.

(** ** Opening *)
Lemma from_block_io_presents (io : BlockIO) (data : list Z) :
  device io data -> exists s, from_block_io io = Ok s /\ bios_io s = io /\ bio_presents s data 0.
Proof.
  intros Hd. unfold from_block_io. pose proof (dev_block _ _ Hd). pose proof (dev_last _ _ Hd).
  pose proof (dev_len _ _ Hd) as Hl. pose proof (dev_max _ _ Hd).
  rewrite (proj2 (Z.eqb_neq _ 0)) by lia. eexists. split; [done|]. split; [done|]. split_and!; try done.
  simpl. unfold saturating_add, saturating_mul.
  rewrite (Z.min_r u64_max (bio_last_block io + 1)) by nia. rewrite Hl. apply Z.min_r. lia.
Qed.

Lemma file_source_presents (shared : SharedBackend) (path data : list Z) :
  file_of shared path data -> sb_borrowed shared = false -> sb_size shared path = Ok (len data) ->
  exists s, file_source_new shared path = Ok s /\ file_presents s data 0.
Proof. intros Hf Hb Hs. unfold file_source_new. rewrite Hb, Hs. simpl. eexists. split; [done|]. by split_and!. Qed.

(** A disk that holds the bytes and serves every read. *)
Definition list_io (bs : Z) (data : list Z) : BlockIO :=
  mkBlockIO bs (len data / bs - 1) (fun lba n => get_range (lba * bs) (lba * bs + n) data).

Lemma list_io_device (bs : Z) (data : list Z) :
  0 < bs -> data <> [] -> len data mod bs = 0 -> len data <= u64_max ->
  device (list_io bs data) data /\ device_good (list_io bs data).
Proof.
  intros Hb Hne Hm Hmax.
  assert (0 < len data) by (destruct data; [done|rewrite len_cons; pose proof (len_nonneg data); lia]).
  pose proof (Z.div_mod (len data) bs ltac:(lia)). assert (0 < len data / bs) by nia.
  split; [split; simpl; [done|lia|lia|done|]|].
  - intros lba n buf _ _ _ _ E. by apply get_range_some in E as [_ E].
  - intros lba n ? ? ? ? E. simpl in *. unfold get_range in E.
    destruct (in_range _ _ _) eqn:Er; [done|]. apply not_true_iff_false in Er. apply Er, in_range_spec. nia.
Qed.

Definition demo_disk : list Z := map (fun i => Z.of_nat i mod 256) (seq 0 128).
Definition demo_io : BlockIO := list_io 8 demo_disk.

Lemma demo_device : device demo_io demo_disk /\ device_good demo_io.
Proof. by apply list_io_device. Qed.

Lemma fill_at_refines_witness :
  exists s s', from_block_io demo_io = Ok s /\ fill_at 13 10 s = Some (Ok (sub_list 13 23 demo_disk), s').
Proof.
  destruct (from_block_io_presents demo_io demo_disk (proj1 demo_device)) as (s & Hs & Hio & Hp).
  assert (src_at s demo_disk 0) as Hat by exact Hp.
  destruct (fill_at_refines s demo_disk 0 13 10 Hat ltac:(done) ltac:(done)) as (r & s' & p' & E & _ & Hr).
  exists s, s'. split; [done|]. rewrite E.
  destruct r as [bytes|[e|e|]|]; simpl in Hr; try done.
  - by destruct Hr as [-> _].
  - exfalso. apply Hr. rewrite Hio. apply demo_device.
Defined.
