(* ===== verification/Partitions.v ===== *)
(** * Partitions (partitions.rs)

    Which partitions the firmware shows, what filesystem is on them, and what
    is derived from them.  A handle is a number; opening a protocol on it is a
    function of the handle; a GUID is its canonical text.  A failed block read
    leaves the buffer as it was allocated, filled with zeroes. *)
From S2P Require Import Prelude Compare RustStr VersionOrder BlsParse FsTypes BootTypes SecureBoot SecurityOverride VolumeFs BlockSource.
Local Open Scope Z_scope.

Definition Guid : Type := list Z.
Definition GUID_ZERO : Guid := lit "00000000-0000-0000-0000-000000000000".

Definition ROOT_PARTITION_TYPE (a : target_arch) : Guid :=
  match a with
  | X86_64 => lit "4f68bce3-e8cd-4db1-96e7-fbcaf984b709"
  | Aarch64 => lit "b921b045-1df0-41c3-af44-4c6f280d3fae"
  end.
Definition XBOOTLDR_PARTITION_TYPE : Guid := lit "bc13c2ff-59e6-4262-a352-b275fd6f7172".
Definition ESP_PARTITION_TYPE : Guid := lit "c12a7328-f81f-11d2-ba4b-00a0c93ec93b".

Inductive PartType : Type := PartRoot | PartXbootldr | PartOpaque.

#[export] Instance PartType_eq_dec : EqDecision PartType.
Proof. solve_decision. Defined.

Record DiscoveredPartition : Type := mkPart {
  dp_type : PartType;
  dp_unique_guid : Guid;
  dp_handle : Z
}.

(** What [PartitionInfo] says of a handle. *)
Inductive PartitionInfo : Type :=
  | InfoGpt (entry : option (Guid * Guid))         (* type and unique GUID *)
  | InfoMbr (record : option Z)                    (* the OS type *)
  | InfoOther.

Record Media : Type := mkMedia {
  md_io : BlockIO;
  md_logical_partition : bool;
  md_present : bool
}.

Record PartFw : Type := mkPartFw {
  pw_info_handles : option (list Z);               (* find_handles::<PartitionInfo>() *)
  pw_info : Z -> option PartitionInfo;             (* opened exclusively *)
  pw_block_handles : option (list Z);              (* find_handles::<BlockIO>() *)
  pw_sfs_handles : list Z;                         (* of SimpleFileSystem, none on error *)
  pw_shared : Z -> option Media;                   (* BlockIO opened with GetProtocol *)
  pw_exclusive : Z -> option Media;                (* BlockIO opened exclusively *)
  pw_open_volume : Z -> bool                       (* SimpleFileSystem opens and open_volume succeeds *)
}.

(** ** The scan *)
Section scan.
Context (a : target_arch) (fw : PartFw).

Definition classify_gpt_partition (entry : option (Guid * Guid)) : option (PartType * Guid) :=
  match entry with
  | None => None
  | Some (type_guid, unique_guid) =>
      if bool_decide (type_guid = ESP_PARTITION_TYPE) then None
      else
        let part_type :=
          if bool_decide (type_guid = ROOT_PARTITION_TYPE a) then PartRoot
          else if bool_decide (type_guid = XBOOTLDR_PARTITION_TYPE) then PartXbootldr
          else PartOpaque in
        Some (part_type, unique_guid)
  end.

Definition classify_mbr_partition (record : option Z) : option (PartType * Guid) :=
  match record with
  | None => None
  | Some os_type => if negb (mbr_os_type_is_mountable os_type) then None else Some (PartOpaque, GUID_ZERO)
  end.

Definition classify (info : PartitionInfo) : option (PartType * Guid) :=
  match info with
  | InfoGpt entry => classify_gpt_partition entry
  | InfoMbr record => classify_mbr_partition record
  | InfoOther => None
  end.

(** One handle of the firmware's partition tables. *)
Definition scan_info (handle : Z) : option DiscoveredPartition :=
  match pw_info fw handle with
  | None => None
  | Some info =>
      match classify info with
      | Some (t, g) => Some (mkPart t g handle)
      | None => None
      end
  end.

Definition scan_block_io_logical_partitions_without_fs : list Z :=
  match pw_block_handles fw with
  | None => []
  | Some handles =>
      List.filter (fun h =>
        negb (bool_decide (h ∈ pw_sfs_handles fw)) &&
        match pw_shared fw h with Some m => md_logical_partition m | None => false end) handles
  end.

(** The third source; a handle already seen is skipped. *)
Fixpoint scan_rest (handles : list Z) (seen : list Z) : list DiscoveredPartition :=
  match handles with
  | [] => []
  | h :: rest =>
      if bool_decide (h ∈ seen) then scan_rest rest seen
      else mkPart PartOpaque GUID_ZERO h :: scan_rest rest (seen ++ [h])
  end.

Definition scan_discoverable_partitions : list DiscoveredPartition :=
  let results := match pw_info_handles fw with Some hs => omap scan_info hs | None => [] end in
  results ++ scan_rest scan_block_io_logical_partitions_without_fs (dp_handle <$> results).
End scan.

(** ** The root parameter *)
Definition format_partuuid (g : Guid) : list Z := g.

Definition is_root (p : DiscoveredPartition) : bool := bool_decide (dp_type p = PartRoot).

Definition append_root (partuuid : list Z) (e : BootEntry) : BootEntry :=
  match be_kind e with
  | LinuxLegacy kernel_path initrd_paths options =>
      if negb (contains (lit "root=") options) then
        mkBoot (be_id e) (be_name e)
          (LinuxLegacy kernel_path initrd_paths (options ++ lit " root=PARTUUID=" ++ partuuid ++ lit " rw"))
          (be_icon e) (be_bls_filename e) (be_preflight e) (be_source_volume_index e) (be_source_backend_tag e)
      else e
  | _ => e
  end.

Definition auto_append_root (entries : list BootEntry) (partitions : list DiscoveredPartition) : list BootEntry :=
  match List.find is_root partitions with
  | None => entries
  | Some root => append_root (format_partuuid (dp_unique_guid root)) <$> entries
  end.

(** ** Superblocks *)
Inductive FsType : Type := FsExt4 | FsBtrfs | FsXfs | FsF2fs | FsZfs | FsExFat | FsUnknown.

#[export] Instance FsType_eq_dec : EqDecision FsType.
Proof. solve_decision. Defined.

Record FsInfo : Type := mkFsInfo { fi_type : FsType; fi_uuid : option (list Z) }.

(** [n.div_ceil(d)] *)
Definition div_ceil (n d : Z) : Z := n / d + (if n mod d =? 0 then 0 else 1).

(** [vec![0u8; n]] after a read: the flag and the buffer. *)
Definition read_into (io : BlockIO) (lba n : Z) : bool * list Z :=
  match bio_read_blocks io lba n with
  | Some buf => (true, buf)
  | None => (false, replicate (Z.to_nat n) 0)
  end.

Definition format_fs_uuid (bytes : list Z) : list Z :=
  if len bytes <? 16 then lit "unknown" else uuid_display (take 16 bytes).

Definition parse_ext4_superblock (sb : list Z) : option FsInfo :=
  if len sb <? 0x78 then None
  else
    let magic := from_le (sub_list 0x38 0x3A sb) in
    if negb (magic =? 0xEF53) then None
    else Some (mkFsInfo FsExt4 (Some (format_fs_uuid (sub_list 0x68 0x78 sb)))).

(** The slots of the ZFS label, from offset [off]; one round per slot. *)
Fixpoint zfs_scan (fuel : nat) (off : Z) (buf : list Z) : res FsError bool :=
  match fuel with
  | O => Ok false
  | S fuel' =>
      if off + 8 <=? len buf then
        let? m := slice off (off + 8) buf in
        if (from_le m =? 0x00bab10c) || (from_le (rev m) =? 0x00bab10c) then Ok true
        else zfs_scan fuel' (off + 1024) buf
      else Ok false
  end.

Definition try_ext4 (io : BlockIO) : bool * list Z * option FsInfo :=
  let bs := bio_block_size io in
  let '(ok, buf) := read_into io (1024 / bs) (div_ceil 4096 bs * bs) in
  (ok, buf,
   if ok then
     match get_range (1024 mod bs) (len buf) buf with
     | Some sb => parse_ext4_superblock sb
     | None => None
     end
   else None).

Definition try_btrfs (io : BlockIO) : res FsError (option FsInfo) :=
  let bs := bio_block_size io in
  let '(ok, buf) := read_into io (0x10000 / bs) (div_ceil 4096 bs * bs) in
  let sb := 0x10000 mod bs in
  if ok && (sb + 0x200 <=? len buf) then
    let? magic := slice (sb + 0x40) (sb + 0x48) buf in
    if bool_decide (magic = lit "_BHRfS_M") then
      let? uuid := slice (sb + 0x20) (sb + 0x30) buf in
      Ok (Some (mkFsInfo FsBtrfs (Some (format_fs_uuid uuid))))
    else Ok None
  else Ok None.

(** XFS, then exFAT on the same sector. *)
Definition try_sector0 (io : BlockIO) : res FsError (option FsInfo) :=
  let bs := bio_block_size io in
  let '(ok, buf) := read_into io 0 (Z.max bs 512) in
  let? magic := (if ok && (0x60 <=? len buf) then slice 0 4 buf else Ok []) in
  if bool_decide (magic = lit "XFSB") then
    let? uuid := slice 0x20 0x30 buf in
    Ok (Some (mkFsInfo FsXfs (Some (format_fs_uuid uuid))))
  else
    let? magic := (if 0x68 <=? len buf then slice 3 11 buf else Ok []) in
    if bool_decide (magic = lit "EXFAT   ") then
      let? s := slice 100 104 buf in
      let serial := from_le s in
      Ok (Some (mkFsInfo FsExFat
        (Some (fmt_hex_upper 4 (Z.shiftr serial 16) ++ [c_dash] ++ fmt_hex_upper 4 (Z.land serial 0xFFFF)))))
    else Ok None.

Definition try_f2fs (bs : Z) (ext4_buf : list Z) : res FsError (option FsInfo) :=
  let sb := 1024 mod bs in
  if sb + 4 <=? len ext4_buf then
    let? m := slice sb (sb + 4) ext4_buf in
    if (from_le m =? 0xF2F52010) && (sb + 0x7C <=? len ext4_buf) then
      let? uuid := slice (sb + 0x6C) (sb + 0x7C) ext4_buf in
      Ok (Some (mkFsInfo FsF2fs (Some (format_fs_uuid uuid))))
    else Ok None
  else Ok None.

Definition try_zfs (io : BlockIO) : res FsError (option FsInfo) :=
  let bs := bio_block_size io in
  let '(ok, buf) := read_into io (0x20000 / bs) (div_ceil 131072 bs * bs) in
  if ok then
    let? found := zfs_scan (S (Z.to_nat (len buf / 1024))) 0 buf in
    Ok (if found : bool then Some (mkFsInfo FsZfs None) else None)
  else Ok None.

Definition or_next (r : res FsError (option FsInfo)) (next : res FsError (option FsInfo)) : res FsError (option FsInfo) :=
  match r with Ok None => next | _ => r end.

Definition probe_superblock (m : option Media) : res FsError (option FsInfo) :=
  match m with
  | None => Ok None
  | Some m =>
      let io := md_io m in
      if bio_block_size io =? 0 then Ok None
      else
        let '(ok, ext4_buf, ext4) := try_ext4 io in
        match ext4 with
        | Some info => Ok (Some info)
        | None =>
            or_next (try_btrfs io)
              (or_next (try_sector0 io) (or_next (try_f2fs (bio_block_size io) ext4_buf) (try_zfs io)))
        end
  end.

(** ** LVM and optical discs *)
Definition has_labelone (io : BlockIO) : res FsError bool :=
  let bs := bio_block_size io in
  if bs =? 0 then Ok false
  else
    let '(ok, buf) := read_into io (512 / bs) (div_ceil 1024 bs * bs) in
    let offset := 512 mod bs in
    if negb ok then Ok false
    else if len buf <? offset + 8 then Ok false
    else let? sig := slice offset (offset + 8) buf in Ok (bool_decide (sig = lit "LABELONE")).

Definition probe_lvm_pv (m : option Media) : res FsError bool :=
  match m with None => Ok false | Some m => has_labelone (md_io m) end.

Fixpoint lvm_handles (fw : PartFw) (handles : list Z) : res FsError (list Z) :=
  match handles with
  | [] => Ok []
  | h :: rest =>
      match pw_shared fw h with
      | Some m =>
          if negb (md_logical_partition m) then lvm_handles fw rest
          else
            let? hit := has_labelone (md_io m) in
            let? out := lvm_handles fw rest in
            Ok (if hit : bool then h :: out else out)
      | None => lvm_handles fw rest
      end
  end.

Definition scan_block_io_partitions_for_lvm (fw : PartFw) : res FsError (list Z) :=
  match pw_block_handles fw with None => Ok [] | Some handles => lvm_handles fw handles end.

(** Stops at the first NUL; the bytes are characters. *)
Fixpoint take_until_nul (raw : list Z) : list Z :=
  match raw with
  | [] => []
  | b :: rest => if b =? 0 then [] else b :: take_until_nul rest
  end.

Definition parse_pvd_label (raw : list Z) : list Z := trim_end (take_until_nul raw).

(** The label of the disc in a drive, if it is one with an ISO 9660 volume. *)
Definition optical_label (m : Media) : res FsError (option (list Z)) :=
  if negb (md_present m) || md_logical_partition m || negb (bio_block_size (md_io m) =? 2048) then Ok None
  else
    match bio_read_blocks (md_io m) 16 2048 with
    | None => Ok None
    | Some buf =>
        let? kind := index 0 buf in
        let? id := slice 1 6 buf in
        if negb (kind =? 1) || negb (bool_decide (id = lit "CD001")) then Ok None
        else let? raw := slice 40 72 buf in Ok (Some (parse_pvd_label raw))
    end.

Fixpoint optical_handles (fw : PartFw) (handles : list Z) : res FsError (list (Z * list Z)) :=
  match handles with
  | [] => Ok []
  | h :: rest =>
      match pw_shared fw h with
      | None => optical_handles fw rest
      | Some m =>
          let? l := optical_label m in
          let? out := optical_handles fw rest in
          Ok (match l with Some label => (h, label) :: out | None => out end)
      end
  end.

Definition scan_optical_handles (fw : PartFw) : res FsError (list (Z * list Z)) :=
  match pw_block_handles fw with None => Ok [] | Some handles => optical_handles fw handles end.

(** ** Probing reads inside its buffers *)
(** A read of [n] bytes fills a buffer of [n] bytes. *)
Definition sized_io (io : BlockIO) : Prop :=
  0 <= bio_block_size io /\ forall lba n buf, bio_read_blocks io lba n = Some buf -> len buf = n.

Lemma read_into_len (io : BlockIO) (lba n : Z) : sized_io io -> 0 <= n -> len (read_into io lba n).2 = n.
Proof.
  intros [_ Hs] Hn. unfold read_into. destruct (bio_read_blocks io lba n) as [buf|] eqn:E; simpl; [by eapply Hs|].
  unfold len. rewrite length_replicate. lia.
Qed.

Lemma div_ceil_covers (n d : Z) : 0 < d -> n <= div_ceil n d * d < n + d.
Proof.
  intros Hd. unfold div_ceil. pose proof (Z.div_mod n d ltac:(lia)). pose proof (Z.mod_pos_bound n d Hd).
  destruct (Z.eqb_spec (n mod d) 0); nia.
Qed.

(** Slices with their bounds, discharged by arithmetic. *)
Ltac slices := repeat (rewrite slice_ok by lia; cbn [res_bind]).

Lemma zfs_scan_ok (fuel : nat) (off : Z) (buf : list Z) : 0 <= off -> exists b, zfs_scan fuel off buf = Ok b.
Proof.
  revert off. induction fuel as [|fuel IH]; intros off Ho; simpl; [by eexists|].
  destruct (Z.leb_spec (off + 8) (len buf)); [|by eexists]. slices.
  destruct (_ || _); [by eexists|]. apply IH. lia.
Qed.

Section no_panic.
Context (io : BlockIO) (Hio : sized_io io) (Hbs : 0 < bio_block_size io).

Lemma try_btrfs_ok : exists r, try_btrfs io = Ok r.
Proof.
  unfold try_btrfs. pose proof (Z.mod_pos_bound 0x10000 (bio_block_size io) Hbs).
  destruct (read_into io _ _) as [[] buf]; simpl; [|by eexists].
  destruct (Z.leb_spec (0x10000 mod bio_block_size io + 0x200) (len buf)); [|by eexists]. slices.
  case_bool_decide; [|by eexists]. slices. by eexists.
Qed.

Lemma try_sector0_ok : exists r, try_sector0 io = Ok r.
Proof.
  unfold try_sector0. pose proof (read_into_len io 0 (Z.max (bio_block_size io) 512) Hio ltac:(lia)) as Hl.
  destruct (read_into io _ _) as [ok buf]; simpl in *.
  rewrite !(proj2 (Z.leb_le _ _)) by lia. rewrite andb_true_r. slices.
  destruct ok; slices; cbn [res_bind]; repeat (case_bool_decide; slices); by eexists.
Qed.

Lemma try_f2fs_ok (buf : list Z) : exists r, try_f2fs (bio_block_size io) buf = Ok r.
Proof.
  unfold try_f2fs. pose proof (Z.mod_pos_bound 1024 (bio_block_size io) Hbs).
  destruct (Z.leb_spec (1024 mod bio_block_size io + 4) (len buf)); [|by eexists]. slices.
  destruct (_ =? _); simpl; [|by eexists].
  destruct (Z.leb_spec (1024 mod bio_block_size io + 0x7C) (len buf)); [|by eexists]. slices. by eexists.
Qed.

Lemma try_zfs_ok : exists r, try_zfs io = Ok r.
Proof.
  unfold try_zfs. destruct (read_into io _ _) as [[] buf]; [|by eexists].
  destruct (zfs_scan_ok (S (Z.to_nat (len buf / 1024))) 0 buf ltac:(lia)) as [b ->]. by eexists.
Qed.

Lemma has_labelone_ok : exists b, has_labelone io = Ok b.
Proof.
  unfold has_labelone. rewrite (proj2 (Z.eqb_neq _ _)) by lia.
  pose proof (Z.mod_pos_bound 512 (bio_block_size io) Hbs).
  destruct (read_into io _ _) as [[] buf]; simpl; [|by eexists].
  destruct (Z.ltb_spec (len buf) (512 mod bio_block_size io + 8)); [by eexists|]. slices. by eexists.
Qed.
End no_panic.

Lemma or_next_ok (r next : res FsError (option FsInfo)) :
  (exists x, r = Ok x) -> (exists x, next = Ok x) -> exists x, or_next r next = Ok x.
Proof. intros [[x|] ->] [y ->]; by eexists. Qed.

Lemma probe_ok (m : Media) : sized_io (md_io m) -> exists r, probe_superblock (Some m) = Ok r.
Proof.
  intros Hs. unfold probe_superblock. destruct (Z.eqb_spec (bio_block_size (md_io m)) 0); [by eexists|].
  assert (0 < bio_block_size (md_io m)) by (destruct Hs; lia).
  destruct (try_ext4 (md_io m)) as [[ok buf] [info|]]; [by eexists|].
  eauto 10 using or_next_ok, try_btrfs_ok, try_sector0_ok, try_f2fs_ok, try_zfs_ok.
Qed.

(** ** Probing identifies the filesystem on the disk *)
Definition bytes_at (off n : Z) (data : list Z) : list Z := sub_list off (off + n) data.

Definition zfs_magic (m : list Z) : bool := (from_le m =? 0x00bab10c) || (from_le (rev m) =? 0x00bab10c).

(** The filesystem of a disk by the places of the on-disk formats. *)
Definition probe_spec (data : list Z) : option FsInfo :=
  if from_le (bytes_at (1024 + 0x38) 2 data) =? 0xEF53 then
    Some (mkFsInfo FsExt4 (Some (uuid_display (bytes_at (1024 + 0x68) 16 data))))
  else if bool_decide (bytes_at (0x10000 + 0x40) 8 data = lit "_BHRfS_M") then
    Some (mkFsInfo FsBtrfs (Some (uuid_display (bytes_at (0x10000 + 0x20) 16 data))))
  else if bool_decide (bytes_at 0 4 data = lit "XFSB") then
    Some (mkFsInfo FsXfs (Some (uuid_display (bytes_at 0x20 16 data))))
  else if bool_decide (bytes_at 3 8 data = lit "EXFAT   ") then
    let serial := from_le (bytes_at 100 4 data) in
    Some (mkFsInfo FsExFat
      (Some (fmt_hex_upper 4 (Z.shiftr serial 16) ++ [c_dash] ++ fmt_hex_upper 4 (Z.land serial 0xFFFF))))
  else if from_le (bytes_at 1024 4 data) =? 0xF2F52010 then
    Some (mkFsInfo FsF2fs (Some (uuid_display (bytes_at (1024 + 0x6C) 16 data))))
  else if existsb (fun k => zfs_magic (bytes_at (0x20000 + 1024 * Z.of_nat k) 8 data)) (seq 0 128) then
    Some (mkFsInfo FsZfs None)
  else None.

Lemma bytes_at_buffer (base n a k : Z) (data : list Z) :
  0 <= base -> 0 <= a -> 0 <= k -> a + k <= n -> base + n <= len data ->
  sub_list a (a + k) (sub_list base (base + n) data) = bytes_at (base + a) k data.
Proof. intros. unfold bytes_at. rewrite sub_list_sub_list by lia. f_equal; lia. Qed.

Lemma format_fs_uuid_at (off : Z) (data : list Z) :
  0 <= off -> off + 16 <= len data -> format_fs_uuid (bytes_at off 16 data) = uuid_display (bytes_at off 16 data).
Proof.
  intros H1 H2. unfold format_fs_uuid, bytes_at. rewrite len_sub_list by lia.
  rewrite (proj2 (Z.ltb_ge _ _)) by lia. f_equal. apply take_ge. rewrite length_sub_list by lia. lia.
Qed.

Section refine.
Context (io : BlockIO) (data : list Z).
Context (Hdev : device io data) (Hgood : device_good io).
Context (Hbs : 512 <= bio_block_size io) (Hdiv : (bio_block_size io | 65536)) (Hlen : 0x60000 <= len data).

#[local] Notation bs := (bio_block_size io).

Lemma bs_facts : bs <= 65536 /\ 65536 mod bs = 0 /\ 131072 mod bs = 0.
Proof.
  destruct Hdiv as [q Hq]. split; [|split].
  - apply Z.divide_pos_le; [lia|exact Hdiv].
  - rewrite Hq. apply Z_mod_mult.
  - replace 131072 with (2 * q * bs) by lia. apply Z_mod_mult.
Qed.

(** The blocks from the one that holds [off], read in whole blocks of at least [n] bytes. *)
Lemma read_into_disk (off n : Z) :
  0 <= off -> 0 < n -> off + n <= 0x40000 ->
  let m := div_ceil n bs * bs in
  n <= m /\ off - off mod bs + m <= len data /\
  read_into io (off / bs) m = (true, sub_list (off - off mod bs) (off - off mod bs + m) data).
Proof.
  intros H1 H2 H3 m. pose proof (div_ceil_covers n bs ltac:(lia)) as Hm. fold m in Hm.
  pose proof bs_facts as (Hb & _). pose proof (Z.div_mod off bs ltac:(lia)). pose proof (Z.mod_pos_bound off bs ltac:(lia)).
  assert (0 <= off / bs) by (apply Z.div_pos; lia).
  split; [lia|]. split; [lia|]. unfold read_into.
  assert (bio_read_blocks io (off / bs) m <> None) as Hn.
  { apply Hgood; [lia|lia|unfold m; apply Z_mod_mult|]. rewrite <- (dev_len _ _ Hdev). lia. }
  destruct (bio_read_blocks io (off / bs) m) as [buf|] eqn:E; [|done].
  apply (dev_bytes _ _ Hdev) in E; [|lia|lia|unfold m; apply Z_mod_mult|lia]. subst buf.
  by replace (off / bs * bs) with (off - off mod bs) by lia.
Qed.

Lemma try_ext4_disk :
  exists buf, try_ext4 io = (true, buf,
    if from_le (bytes_at (1024 + 0x38) 2 data) =? 0xEF53
    then Some (mkFsInfo FsExt4 (Some (uuid_display (bytes_at (1024 + 0x68) 16 data)))) else None) /\
  1024 mod bs + 0x7C <= len buf /\
  forall a k, 0 <= a -> 0 <= k -> a + k <= 0x7C ->
    sub_list (1024 mod bs + a) (1024 mod bs + a + k) buf = bytes_at (1024 + a) k data.
Proof.
  destruct (read_into_disk 1024 4096) as (Hn & Hm & E); [lia..|].
  pose proof (Z.mod_pos_bound 1024 bs ltac:(lia)). pose proof (Z.mod_le 1024 bs ltac:(lia) ltac:(lia)).
  unfold try_ext4. rewrite E. set (m := div_ceil 4096 bs * bs) in *. set (base := 1024 - 1024 mod bs) in *.
  assert (len (sub_list base (base + m) data) = m) as Hl by (rewrite len_sub_list; lia).
  exists (sub_list base (base + m) data). split; [|split; [lia|]].
  - f_equal. unfold get_range, in_range. rewrite Hl, !(proj2 (Z.leb_le _ _)) by lia. simpl.
    rewrite sub_list_sub_list by lia. replace (base + 1024 mod bs) with 1024 by lia.
    unfold parse_ext4_superblock. rewrite len_sub_list by lia. rewrite (proj2 (Z.ltb_ge _ _)) by lia.
    rewrite !sub_list_sub_list by lia. unfold bytes_at. simpl.
    destruct (_ =? _); simpl; [|done]. do 3 f_equal. apply (format_fs_uuid_at 1128 data); lia.
  - intros a k Ha Hk Hak. rewrite bytes_at_buffer by lia. f_equal. lia.
Qed.

Lemma try_btrfs_disk :
  try_btrfs io = Ok (if bool_decide (bytes_at (0x10000 + 0x40) 8 data = lit "_BHRfS_M")
    then Some (mkFsInfo FsBtrfs (Some (uuid_display (bytes_at (0x10000 + 0x20) 16 data)))) else None).
Proof.
  destruct (read_into_disk 0x10000 4096) as (Hn & Hm & E); [lia..|]. pose proof bs_facts as (_ & Hz & _).
  unfold try_btrfs. rewrite E. cbv zeta. change 0x10000 with 65536 in *. rewrite Hz in *. rewrite Z.sub_0_r in *.
  set (m := div_ceil 4096 bs * bs) in *. rewrite len_sub_list by lia.
  rewrite (proj2 (Z.leb_le _ _)) by lia. simpl andb. cbv iota.
  rewrite !slice_ok by (rewrite ?len_sub_list; lia). cbn [res_bind].
  rewrite (bytes_at_buffer 65536 m (0 + 64) 8), (bytes_at_buffer 65536 m (0 + 32) 16) by lia.
  change (65536 + (0 + 64)) with (65536 + 64). change (65536 + (0 + 32)) with (65536 + 32).
  destruct (bool_decide _); [|done]. by rewrite format_fs_uuid_at by lia.
Qed.

Lemma try_sector0_disk :
  try_sector0 io = Ok (
    if bool_decide (bytes_at 0 4 data = lit "XFSB") then
      Some (mkFsInfo FsXfs (Some (uuid_display (bytes_at 0x20 16 data))))
    else if bool_decide (bytes_at 3 8 data = lit "EXFAT   ") then
      let serial := from_le (bytes_at 100 4 data) in
      Some (mkFsInfo FsExFat
        (Some (fmt_hex_upper 4 (Z.shiftr serial 16) ++ [c_dash] ++ fmt_hex_upper 4 (Z.land serial 0xFFFF))))
    else None).
Proof.
  unfold try_sector0. rewrite Z.max_l by lia. unfold read_into.
  assert (bio_read_blocks io 0 bs <> None) as Hn.
  { apply Hgood; [lia|lia|by apply Z_mod_same_full|]. rewrite <- (dev_len _ _ Hdev). pose proof bs_facts. lia. }
  pose proof bs_facts as (Hb & _).
  destruct (bio_read_blocks io 0 bs) as [buf|] eqn:E; [|done]. cbv iota zeta.
  apply (dev_bytes _ _ Hdev) in E; [|lia|lia|by apply Z_mod_same_full|lia]. simpl Z.mul in E.
  subst buf. rewrite len_sub_list by lia. rewrite !(proj2 (Z.leb_le _ _)) by lia. simpl andb. cbv iota.
  rewrite !slice_ok by (rewrite ?len_sub_list; lia). cbn [res_bind].
  rewrite (bytes_at_buffer 0 bs 0 4), (bytes_at_buffer 0 bs 0x20 16), (bytes_at_buffer 0 bs 3 8),
    (bytes_at_buffer 0 bs 100 4) by lia. simpl Z.add.
  destruct (bool_decide _); [by rewrite format_fs_uuid_at by lia|]. by destruct (bool_decide _).
Qed.

Lemma try_f2fs_disk (buf : list Z) :
  1024 mod bs + 0x7C <= len buf ->
  (forall a k, 0 <= a -> 0 <= k -> a + k <= 0x7C ->
     sub_list (1024 mod bs + a) (1024 mod bs + a + k) buf = bytes_at (1024 + a) k data) ->
  try_f2fs bs buf = Ok (if from_le (bytes_at 1024 4 data) =? 0xF2F52010
    then Some (mkFsInfo FsF2fs (Some (uuid_display (bytes_at (1024 + 0x6C) 16 data)))) else None).
Proof.
  intros Hl Hb. unfold try_f2fs. pose proof (Z.mod_pos_bound 1024 bs ltac:(lia)).
  rewrite !(proj2 (Z.leb_le _ _)) by lia. slices. rewrite andb_true_r.
  pose proof (Hb 0 4 ltac:(lia) ltac:(lia) ltac:(lia)) as H0. rewrite !Z.add_0_r in H0. rewrite H0.
  destruct (_ =? _); [|done]. slices.
  pose proof (Hb 0x6C 16 ltac:(lia) ltac:(lia) ltac:(lia)) as H1.
  replace (1024 mod bs + 0x7C) with (1024 mod bs + 0x6C + 16) by lia. rewrite H1.
  by rewrite format_fs_uuid_at by lia.
Qed.

Lemma zfs_scan_S (fuel : nat) (off : Z) (buf : list Z) :
  zfs_scan (S fuel) off buf =
    if off + 8 <=? len buf then
      let? m := slice off (off + 8) buf in if zfs_magic m then Ok true else zfs_scan fuel (off + 1024) buf
    else Ok false.
Proof. done. Qed.

(** The scan of the label array is a search over its 128 slots. *)
Lemma zfs_scan_slots (n j : nat) (buf : list Z) :
  len buf = 131072 -> (j + n = 128)%nat ->
  zfs_scan (S n) (1024 * Z.of_nat j) buf =
    Ok (existsb (fun k => zfs_magic (bytes_at (1024 * Z.of_nat k) 8 buf)) (seq j n)).
Proof.
  intros Hl. revert j. induction n as [|n IH]; intros j Hj; rewrite zfs_scan_S; cbn [seq existsb].
  - by rewrite (proj2 (Z.leb_gt _ _)) by lia.
  - rewrite (proj2 (Z.leb_le _ _)) by lia. slices. fold (bytes_at (1024 * Z.of_nat j) 8 buf).
    destruct (zfs_magic (bytes_at (1024 * Z.of_nat j) 8 buf)); [done|].
    replace (1024 * Z.of_nat j + 1024) with (1024 * Z.of_nat (S j)) by lia. rewrite IH by lia. done.
Qed.

Lemma try_zfs_disk :
  try_zfs io = Ok (if existsb (fun k => zfs_magic (bytes_at (0x20000 + 1024 * Z.of_nat k) 8 data)) (seq 0 128)
    then Some (mkFsInfo FsZfs None) else None).
Proof.
  destruct (read_into_disk 131072 131072) as (Hn & Hm & E); [lia..|]. pose proof bs_facts as (_ & _ & Hz).
  unfold try_zfs. rewrite E. cbv iota zeta. rewrite Hz in *. rewrite Z.sub_0_r in *.
  assert (div_ceil 131072 bs * bs = 131072) as Hc.
  { unfold div_ceil. rewrite Hz. simpl. rewrite Z.add_0_r. pose proof (Z.div_mod 131072 bs ltac:(lia)). lia. }
  rewrite Hc in *. rewrite len_sub_list by lia. change (S (Z.to_nat ((131072 + 131072 - 131072) / 1024))) with 129%nat.
  change 0 with (1024 * Z.of_nat 0) at 1. rewrite (zfs_scan_slots 128) by (rewrite ?len_sub_list; lia).
  cbn [res_bind]. f_equal.
  enough (forall l, Forall (fun k => (k < 128)%nat) l ->
    existsb (fun k => zfs_magic (bytes_at (1024 * Z.of_nat k) 8 (sub_list 131072 (131072 + 131072) data))) l =
    existsb (fun k => zfs_magic (bytes_at (131072 + 1024 * Z.of_nat k) 8 data)) l) as ->; [done| |].
  - rewrite Forall_forall. intros k Hk. apply elem_of_seq in Hk. lia.
  - induction 1 as [|k l Hk _ IH]; simpl; [done|]. rewrite IH. do 2 f_equal.
    unfold bytes_at at 1. rewrite bytes_at_buffer by lia. done.
Qed.
End refine.

Lemma probe_disk (m : Media) (data : list Z) :
  device (md_io m) data -> device_good (md_io m) ->
  512 <= bio_block_size (md_io m) -> (bio_block_size (md_io m) | 65536) -> 0x60000 <= len data ->
  probe_superblock (Some m) = Ok (probe_spec data).
Proof.
  intros Hd Hg Hb Hv Hl. unfold probe_superblock. rewrite (proj2 (Z.eqb_neq _ _)) by lia.
  destruct (try_ext4_disk (md_io m) data Hd Hg Hb Hv Hl) as (buf & -> & Hbl & Hbuf).
  rewrite (try_btrfs_disk _ data Hd Hg Hb Hv Hl), (try_sector0_disk _ data Hd Hg Hb Hv Hl),
    (try_f2fs_disk _ data Hb Hl buf Hbl Hbuf), (try_zfs_disk _ data Hd Hg Hb Hv Hl).
  unfold probe_spec. cbv zeta. destruct (from_le (bytes_at (1024 + 0x38) 2 data) =? _); [done|].
  destruct (bool_decide (bytes_at (0x10000 + 0x40) 8 data = _)); [done|].
  destruct (bool_decide (bytes_at 0 4 data = _)); [done|].
  destruct (bool_decide (bytes_at 3 8 data = _)); [done|].
  destruct (from_le (bytes_at 1024 4 data) =? _); [done|]. by destruct (existsb _ _).
Qed.

(** On a disk with sectors of 512 bytes to 64 KiB whose reads succeed, the
    probe reports what the on-disk formats say: the first of ext4, btrfs, XFS,
    exFAT, F2FS and ZFS whose magic is at its place, with the identifier that
    format has. *)
Theorem probe_superblock_identifies (m : Media) (data : list Z) :
  device (md_io m) data -> device_good (md_io m) ->
  512 <= bio_block_size (md_io m) -> (bio_block_size (md_io m) | 65536) -> 0x60000 <= len data ->
  probe_superblock (Some m) = Ok (probe_spec data).
Proof. apply probe_disk. Qed.

(** An XFS superblock and zeroes behind it. *)
Definition demo_xfs : list Z := lit "XFSB" ++ replicate (Z.to_nat 0x5FFFC) 0.

Lemma probe_superblock_identifies_witness :
  probe_superblock (Some (mkMedia (list_io 4096 demo_xfs) true true)) = Ok (probe_spec demo_xfs).
Proof.
  assert (len demo_xfs = 0x60000) as Hl.
  { unfold demo_xfs. rewrite len_app. unfold len. rewrite length_replicate, Z2Nat.id by lia. done. }
  destruct (list_io_device 4096 demo_xfs) as [Hd Hg]; [lia|done|by rewrite Hl|by rewrite Hl|].
  apply (probe_superblock_identifies (mkMedia (list_io 4096 demo_xfs) true true) demo_xfs); simpl;
    [done|done|lia|by exists 16|by rewrite Hl].
Defined.

(** ** What the scan returns *)
Section scan_spec.
Context (a : target_arch) (fw : PartFw).

(** From the firmware's partition tables. *)
Definition from_table (p : DiscoveredPartition) : Prop :=
  exists hs info, pw_info_handles fw = Some hs /\ dp_handle p ∈ hs /\ pw_info fw (dp_handle p) = Some info /\
    classify a info = Some (dp_type p, dp_unique_guid p).

(** A logical partition without a filesystem the firmware reads. *)
Definition unread (h : Z) : Prop :=
  exists hs m, pw_block_handles fw = Some hs /\ h ∈ hs /\ h ∉ pw_sfs_handles fw /\
    pw_shared fw h = Some m /\ md_logical_partition m = true.

Lemma scan_info_iff (h : Z) (p : DiscoveredPartition) :
  scan_info a fw h = Some p <->
  h = dp_handle p /\ exists info, pw_info fw (dp_handle p) = Some info /\ classify a info = Some (dp_type p, dp_unique_guid p).
Proof.
  unfold scan_info. destruct p as [t g h']; simpl. split.
  - destruct (pw_info fw h) as [info|] eqn:Ei; [|done]. destruct (classify a info) as [[t0 g0]|] eqn:Ec; [|done].
    intros [= <- <- <-]. eauto.
  - intros [-> (info & -> & ->)]. done.
Qed.

Lemma from_table_iff (p : DiscoveredPartition) :
  p ∈ (match pw_info_handles fw with Some hs => omap (scan_info a fw) hs | None => [] end) <-> from_table p.
Proof.
  unfold from_table. destruct (pw_info_handles fw) as [hs|]; [|split; [by intros ?%not_elem_of_nil|naive_solver]].
  rewrite list_elem_of_omap. setoid_rewrite scan_info_iff. naive_solver.
Qed.

Lemma unread_iff (h : Z) : h ∈ scan_block_io_logical_partitions_without_fs fw <-> unread h.
Proof.
  unfold scan_block_io_logical_partitions_without_fs, unread.
  destruct (pw_block_handles fw) as [hs|]; [|split; [by intros ?%not_elem_of_nil|naive_solver]].
  rewrite list_elem_of_In, filter_In, andb_true_iff, negb_true_iff, bool_decide_eq_false, <- list_elem_of_In.
  destruct (pw_shared fw h); naive_solver.
Qed.

Lemma scan_rest_iff (hs seen : list Z) (p : DiscoveredPartition) :
  p ∈ scan_rest hs seen <-> exists h, h ∈ hs /\ h ∉ seen /\ p = mkPart PartOpaque GUID_ZERO h.
Proof.
  revert seen. induction hs as [|h hs IH]; intros seen; simpl.
  { split; [by intros ?%not_elem_of_nil|by intros (h & ?%not_elem_of_nil & _)]. }
  case_bool_decide as Hin.
  - rewrite IH. setoid_rewrite elem_of_cons. naive_solver.
  - rewrite elem_of_cons, IH. setoid_rewrite elem_of_cons. setoid_rewrite elem_of_app.
    setoid_rewrite list_elem_of_singleton. split.
    + intros [->|(x & Hx & Hs & ->)]; [by exists h; auto|]. exists x. naive_solver.
    + intros (x & [->|Hx] & Hs & ->); [by left|]. destruct (decide (x = h)) as [->|]; [by left|right]. naive_solver.
Qed.

Lemma scan_rest_handles (hs seen : list Z) :
  NoDup (dp_handle <$> scan_rest hs seen) /\ Forall (fun p => dp_handle p ∉ seen) (scan_rest hs seen).
Proof.
  revert seen. induction hs as [|h hs IH]; intros seen; simpl; [by split; constructor|].
  case_bool_decide as Hin; [apply IH|]. destruct (IH (seen ++ [h])) as [Hn Hf]. simpl. split.
  - apply NoDup_cons. split; [|done]. intros (p & Hp & Hpin)%list_elem_of_fmap.
    rewrite Forall_forall in Hf. apply Hf in Hpin. apply Hpin, elem_of_app. right. rewrite <- Hp. by apply list_elem_of_singleton.
  - constructor; [done|]. eapply Forall_impl; [exact Hf|]. simpl. intros p Hp ?. apply Hp, elem_of_app. by left.
Qed.


Lemma omap_handles_nodup (hs : list Z) : NoDup hs -> NoDup (dp_handle <$> omap (scan_info a fw) hs).
Proof.
  induction 1 as [|h hs Hh _ IH]; simpl; [constructor|]. destruct (scan_info a fw h) as [p|] eqn:E; [|done]. simpl.
  apply NoDup_cons. split; [|done]. apply scan_info_iff in E as [-> _].
  intros (q & Hq & (h' & Hin & Eq)%list_elem_of_omap)%list_elem_of_fmap.
  apply scan_info_iff in Eq as [-> _]. congruence.
Qed.
End scan_spec.

(** The scan returns each partition the firmware's tables describe, with
    its role, except EFI system partitions, MBR slots that hold no filesystem
    and those of other tables; then, as opaque ones, the logical partitions no
    table entry was taken for and no firmware driver reads.  No handle is
    returned twice. *)
Theorem scan_partitions_exact (a : target_arch) (fw : PartFw) :
  (forall hs, pw_info_handles fw = Some hs -> NoDup hs) ->
  let ps := scan_discoverable_partitions a fw in
  NoDup (dp_handle <$> ps) /\
  (forall p, p ∈ ps <->
     from_table a fw p \/
     unread fw (dp_handle p) /\ p = mkPart PartOpaque GUID_ZERO (dp_handle p) /\
       (forall q, from_table a fw q -> dp_handle q <> dp_handle p)) /\
  (forall p, p ∈ ps -> dp_handle p ∈ pw_sfs_handles fw -> from_table a fw p) /\
  (forall p, from_table a fw p -> forall t u, pw_info fw (dp_handle p) = Some (InfoGpt (Some (t, u))) ->
     t <> ESP_PARTITION_TYPE /\ dp_unique_guid p = u /\
     (dp_type p = PartRoot <-> t = ROOT_PARTITION_TYPE a) /\
     (dp_type p = PartXbootldr <-> t = XBOOTLDR_PARTITION_TYPE)).
Proof.
  intros Hnd ps. unfold ps, scan_discoverable_partitions.
  set (tbl := match pw_info_handles fw with Some hs => omap (scan_info a fw) hs | None => [] end).
  set (rest := scan_block_io_logical_partitions_without_fs fw).
  assert (forall p, p ∈ tbl ++ scan_rest rest (dp_handle <$> tbl) <->
     from_table a fw p \/ unread fw (dp_handle p) /\ p = mkPart PartOpaque GUID_ZERO (dp_handle p) /\
       (forall q, from_table a fw q -> dp_handle q <> dp_handle p)) as Hmem.
  { intros p. rewrite elem_of_app, scan_rest_iff. unfold tbl at 1. rewrite from_table_iff. apply or_iff_compat_l.
    setoid_rewrite list_elem_of_fmap. split.
    - intros (h & Hh & Hs & ->). simpl. split; [by apply unread_iff|]. split; [done|].
      intros q Hq E. apply Hs. exists q. split; [done|]. by apply from_table_iff.
    - intros (Hu & Hp & Hq). exists (dp_handle p). split; [by apply unread_iff|]. split; [|done].
      intros (q & E & Hin). apply (Hq q); [by apply from_table_iff|done]. }
  split; [|split; [exact Hmem|split]].
  - rewrite fmap_app. apply NoDup_app. destruct (scan_rest_handles rest (dp_handle <$> tbl)) as [Hn Hf].
    split; [|split; [|done]].
    + unfold tbl. destruct (pw_info_handles fw) eqn:E; [by apply omap_handles_nodup, Hnd|constructor].
    + intros h Hh (p & -> & Hp)%list_elem_of_fmap. rewrite Forall_forall in Hf. by apply (Hf p).
  - intros p [Ht|(Hu & _)]%Hmem Hs; [done|]. by destruct Hu as (hs & m & _ & _ & Hns & _).
  - intros p (hs & info & _ & _ & Hi & Hc) t u E. rewrite E in Hi. injection Hi as <-. simpl in Hc.
    case_bool_decide as H1; [done|]. injection Hc as Ht Hu. split; [done|]. split; [done|]. rewrite <- Ht.
    assert (XBOOTLDR_PARTITION_TYPE <> ROOT_PARTITION_TYPE a) by by destruct a.
    repeat case_bool_decide; naive_solver.
Qed.

(** Handle 1 is the ESP, 2 the root partition, 3 an MBR extended container that
    the firmware shows as a logical partition. *)
Definition demo_fw : PartFw := {|
  pw_info_handles := Some [1; 2; 3];
  pw_info h :=
    if h =? 1 then Some (InfoGpt (Some (ESP_PARTITION_TYPE, lit "11111111-1111-1111-1111-111111111111")))
    else if h =? 2 then Some (InfoGpt (Some (ROOT_PARTITION_TYPE X86_64, lit "22222222-2222-2222-2222-222222222222")))
    else Some (InfoMbr (Some 5));
  pw_block_handles := Some [0; 1; 2; 3];
  pw_sfs_handles := [1];
  pw_shared h := Some (mkMedia (list_io 512 []) (1 <=? h) true);
  pw_exclusive h := None;
  pw_open_volume h := false
|}.

Lemma scan_partitions_exact_witness :
  NoDup (dp_handle <$> scan_discoverable_partitions X86_64 demo_fw) /\
  scan_discoverable_partitions X86_64 demo_fw =
    [mkPart PartRoot (lit "22222222-2222-2222-2222-222222222222") 2; mkPart PartOpaque GUID_ZERO 3].
Proof.
  split; [|by vm_compute]. apply (scan_partitions_exact X86_64 demo_fw).
  intros hs [= <-]. by apply (bool_decide_eq_true_1 _); vm_compute.
Defined.

(** The MBR container of [demo_fw] is excluded from the table's partitions, and
    comes back as one that no table describes. *)
Theorem excluded_slot_returns :
  classify X86_64 (InfoMbr (Some 5)) = None /\
  mkPart PartOpaque GUID_ZERO 3 ∈ scan_discoverable_partitions X86_64 demo_fw.
Proof.
  split; [done|]. change (scan_discoverable_partitions X86_64 demo_fw) with
    [mkPart PartRoot (lit "22222222-2222-2222-2222-222222222222") 2; mkPart PartOpaque GUID_ZERO 3].
  apply elem_of_cons. right. by apply list_elem_of_singleton.
Qed.

(** ** The root parameter *)
(** What the root parameter does to an entry. *)
Definition rooted (partuuid : list Z) (e e' : BootEntry) : Prop :=
  match be_kind e with
  | LinuxLegacy kernel_path initrd_paths options =>
      (e' = e /\ contains (lit "root=") options = true) \/
      (contains (lit "root=") options = false /\
       be_kind e' = LinuxLegacy kernel_path initrd_paths (options ++ lit " root=PARTUUID=" ++ partuuid ++ lit " rw") /\
       be_id e' = be_id e /\ be_preflight e' = be_preflight e /\ be_icon e' = be_icon e /\
       be_source_volume_index e' = be_source_volume_index e)
  | _ => e' = e
  end.

Lemma append_root_rooted (partuuid : list Z) (e : BootEntry) : rooted partuuid e (append_root partuuid e).
Proof.
  unfold rooted, append_root. destruct (be_kind e) as [| |kp ips options|]; try done.
  destruct (contains (lit "root=") options) eqn:E; simpl; [by left|right]. by split_and!.
Qed.

Lemma append_root_contains (partuuid : list Z) (e : BootEntry) kp ips options :
  be_kind (append_root partuuid e) = LinuxLegacy kp ips options -> contains (lit "root=") options = true.
Proof.
  unfold append_root. destruct (be_kind e) as [| |kp' ips' o|] eqn:Ek; try congruence.
  destruct (contains (lit "root=") o) eqn:E; simpl; [congruence|]. intros [= <- <- <-].
  apply contains_spec. exists (o ++ lit " "), (lit "PARTUUID=" ++ partuuid ++ lit " rw"). by rewrite <- app_assoc.
Qed.

(** The generated root parameter is the first root partition's, it is
    appended to exactly the Linux entries whose options do not contain one, no
    other entry changes, and doing it again changes nothing. *)
Theorem auto_append_root_correct (entries : list BootEntry) (ps : list DiscoveredPartition) :
  match List.find is_root ps with
  | None => auto_append_root entries ps = entries
  | Some root =>
      Forall2 (rooted (dp_unique_guid root)) entries (auto_append_root entries ps) /\
      (forall e kp ips options, e ∈ auto_append_root entries ps -> be_kind e = LinuxLegacy kp ips options ->
         contains (lit "root=") options = true)
  end /\
  auto_append_root (auto_append_root entries ps) ps = auto_append_root entries ps.
Proof.
  unfold auto_append_root. destruct (List.find is_root ps) as [root|]; [|done].
  set (u := format_partuuid (dp_unique_guid root)).
  assert (forall e, append_root u (append_root u e) = append_root u e) as Hidem.
  { intros e. unfold append_root at 1. destruct (be_kind (append_root u e)) as [| |kp ips o|] eqn:E; try done.
    by rewrite (append_root_contains u e kp ips o E). }
  split; [split|].
  - apply Forall2_fmap_r, Forall_Forall2_diag, Forall_true. apply append_root_rooted.
  - intros e kp ips options (e0 & -> & _)%list_elem_of_fmap. apply append_root_contains.
  - rewrite <- list_fmap_compose. apply list_fmap_ext. intros i e _. apply Hidem.
Qed.

(** A longer parameter name that ends in [root] passes for one. *)
Theorem nfsroot_is_not_root :
  let e := mkBoot (lit "a") (lit "a") (LinuxLegacy (lit "\vmlinuz") [] (lit "nfsroot=10.0.0.1:/x")) IconLinux None None 0 [] in
  append_root (lit "u") e = e /\
  List.find (starts_with (lit "root=")) (split_whitespace (lit "nfsroot=10.0.0.1:/x")) = None.
Proof. by vm_compute. Qed.

(** ** LVM *)
(** A partition is taken for a physical volume exactly when the bytes at
    512 of the disk are the label. *)
Theorem probe_lvm_exact (m : Media) (data : list Z) :
  device (md_io m) data -> device_good (md_io m) -> (bio_block_size (md_io m) | 65536) -> 0x20000 <= len data ->
  probe_lvm_pv (Some m) = Ok (bool_decide (sub_list 512 520 data = lit "LABELONE")).
Proof.
  intros Hd Hg Hv Hl. pose proof (dev_block _ _ Hd) as Hb. set (bs := bio_block_size (md_io m)) in *.
  simpl. unfold has_labelone. fold bs. rewrite (proj2 (Z.eqb_neq _ _)) by lia.
  pose proof (div_ceil_covers 1024 bs Hb) as Hc. pose proof (Z.div_mod 512 bs ltac:(lia)).
  pose proof (Z.mod_pos_bound 512 bs Hb). pose proof (Z.divide_pos_le bs 65536 ltac:(lia) Hv) as Hle. fold bs in Hle.
  pose proof (Z.mod_le 512 bs ltac:(lia) Hb).
  assert (0 <= 512 / bs) by (apply Z.div_pos; lia). assert (0 <= 512 / bs * bs) by nia. set (n := div_ceil 1024 bs * bs) in *.
  assert (n mod bs = 0) as Hn by (unfold n; apply Z_mod_mult). unfold read_into.
  assert (bio_read_blocks (md_io m) (512 / bs) n <> None) as Hr.
  { apply Hg; [lia|lia|done|]. rewrite <- (dev_len _ _ Hd). fold bs. lia. }
  destruct (bio_read_blocks (md_io m) (512 / bs) n) as [buf|] eqn:E; [|done].
  apply (dev_bytes _ _ Hd) in E; [|lia|lia|done|fold bs; lia]. fold bs in E. subst buf. simpl.
  rewrite len_sub_list by lia. rewrite (proj2 (Z.ltb_ge _ _)) by lia.
  rewrite slice_ok by (rewrite ?len_sub_list; lia). cbn [res_bind]. rewrite sub_list_sub_list by lia.
  by replace (512 / bs * bs + 512 mod bs) with 512 by lia;
    replace (512 / bs * bs + (512 mod bs + 8)) with 520 by lia.
Qed.
