(* ===== verification/Initrd.v ===== *)
(** * The initrd hand-over (initrd.rs)

    LamBoot registers the initrd as a LoadFile2 protocol on a handle whose
    device path names it; the kernel's EFI stub calls back for the size, then
    for the bytes.  The model has the callback on explicit pointers, the device
    path, and registration and drop over the allocations and the protocol
    database they change. *)
From S2P Require Import Prelude RustStr SecurityOverride VolumeFs.
Local Open Scope Z_scope.

Definition BUFFER_TOO_SMALL : Status := efi_error 5.

(** ** The callback *)
Record InitrdProvider : Type := mkProvider {
  ip_data : option (list Z);        (* [None]: a null pointer *)
  ip_len : Z
}.

Definition provider_of (data : list Z) : InitrdProvider := mkProvider (Some data) (len data).

(** Pointers are options: [None] is null.  The buffer is the memory from the
    pointer on; the result has the status, the new size and the new memory. *)
Definition initrd_load_file_callback (this : option InitrdProvider) (boot_policy : Z)
    (buffer_size : option Z) (buffer : option (list Z)) : Status * option Z * option (list Z) :=
  if negb (boot_policy =? 0) then (UNSUPPORTED, buffer_size, buffer)
  else
    match this, buffer_size with
    | Some provider, Some size =>
        match ip_data provider with
        | None => (NOT_FOUND, buffer_size, buffer)
        | Some data =>
            if ip_len provider =? 0 then (NOT_FOUND, buffer_size, buffer)
            else
              let required := ip_len provider in
              match buffer with
              | None => (BUFFER_TOO_SMALL, Some required, buffer)
              | Some mem =>
                  if size <? required then (BUFFER_TOO_SMALL, Some required, buffer)
                  else (SUCCESS, Some required, Some (splice 0 (take (Z.to_nat required) data) mem))
              end
        end
    | _, _ => (INVALID_PARAMETER, buffer_size, buffer)
    end.

(** ** The device path *)
Definition LINUX_INITRD_MEDIA_GUID : list Z :=
  [0x27; 0xe4; 0x68; 0x55; 0xfc; 0x68; 0x3d; 0x4f; 0xac; 0x74; 0xca; 0x55; 0x52; 0x31; 0xcc; 0x68].

Record InitrdDevicePath : Type := mkDevPath {
  dp_media_type : Z;
  dp_media_subtype : Z;
  dp_media_length : list Z;
  dp_vendor_guid : list Z;
  dp_end_type : Z;
  dp_end_subtype : Z;
  dp_end_length : list Z
}.

Definition initrd_device_path : InitrdDevicePath :=
  mkDevPath 0x04 0x03 (to_le 2 20) LINUX_INITRD_MEDIA_GUID 0x7F 0xFF (to_le 2 4).

(** The packed structure in memory. *)
Definition dp_bytes (d : InitrdDevicePath) : list Z :=
  [dp_media_type d; dp_media_subtype d] ++ dp_media_length d ++ dp_vendor_guid d ++
  [dp_end_type d; dp_end_subtype d] ++ dp_end_length d.

(** ** Registration *)
Inductive guid : Type := DEVICE_PATH_GUID | LOAD_FILE2_GUID.

#[export] Instance guid_eq_dec : EqDecision guid.
Proof. solve_decision. Defined.

#[export] Instance guid_countable : Countable guid.
Proof.
  refine (inj_countable' (fun g => bool_decide (g = LOAD_FILE2_GUID))
    (fun b : bool => if b then LOAD_FILE2_GUID else DEVICE_PATH_GUID) _). by intros [].
Defined.

(** What an allocation holds. *)
Inductive cell : Type :=
  | CellData (data : list Z)
  | CellDevPath (d : InitrdDevicePath)
  | CellProvider (p : InitrdProvider).

Record World : Type := mkWorld {
  w_heap : gmap Z cell;                       (* live allocations of this module *)
  w_protocols : gmap (Z * guid) Z             (* installed interfaces *)
}.

(** Where the allocator and the firmware put things, and what they refuse. *)
Record RegisterEnv : Type := mkRegEnv {
  re_data_ptr : Z; re_devpath_ptr : Z; re_provider_ptr : Z;
  re_new_handle : option Z;                   (* InstallProtocolInterface on a new handle *)
  re_install_load_file2 : bool
}.

Record InitrdHandle : Type := mkInitrd {
  ih_handle : Z; ih_provider_ptr : Z; ih_devpath_ptr : Z; ih_data_ptr : Z
}.

Definition initrd_register (re : RegisterEnv) (initrd_data : list Z) (w : World) : option InitrdHandle * World :=
  let heap :=
    <[re_provider_ptr re := CellProvider (provider_of initrd_data)]>
    (<[re_devpath_ptr re := CellDevPath initrd_device_path]>
    (<[re_data_ptr re := CellData initrd_data]> (w_heap w))) in
  match re_new_handle re with
  | None => (None, mkWorld heap (w_protocols w))
  | Some h =>
      let protocols := <[(h, DEVICE_PATH_GUID) := re_devpath_ptr re]> (w_protocols w) in
      if re_install_load_file2 re then
        (Some (mkInitrd h (re_provider_ptr re) (re_devpath_ptr re) (re_data_ptr re)),
         mkWorld heap (<[(h, LOAD_FILE2_GUID) := re_provider_ptr re]> protocols))
      else (None, mkWorld heap protocols)
  end.

(** UninstallProtocolInterface removes the interface if it is the installed one. *)
Definition uninstall (k : Z * guid) (p : Z) (m : gmap (Z * guid) Z) : gmap (Z * guid) Z :=
  if bool_decide (m !! k = Some p) then delete k m else m.

Definition initrd_drop (ih : InitrdHandle) (w : World) : World :=
  let protocols :=
    uninstall (ih_handle ih, DEVICE_PATH_GUID) (ih_devpath_ptr ih)
      (uninstall (ih_handle ih, LOAD_FILE2_GUID) (ih_provider_ptr ih) (w_protocols w)) in
  mkWorld (delete (ih_data_ptr ih) (delete (ih_devpath_ptr ih) (delete (ih_provider_ptr ih) (w_heap w)))) protocols.

(** ** The two-phase protocol *)
(** What the kernel's stub does: ask for the size, allocate that much, load. *)
Definition stub_load (this : option InitrdProvider) (fresh : Z -> list Z) : option (list Z) :=
  match initrd_load_file_callback this 0 (Some 0) None with
  | (st, Some size, _) =>
      if bool_decide (st = BUFFER_TOO_SMALL) then
        match initrd_load_file_callback this 0 (Some size) (Some (fresh size)) with
        | (SUCCESS, Some n, Some mem) => Some (take (Z.to_nat n) mem)
        | _ => None
        end
      else None
  | _ => None
  end.

Lemma splice_front {A : Type} (src mem : list A) :
  splice 0 src mem = src ++ drop (length src) mem.
Proof. done. Qed.

(** C30. The kernel's stub gets exactly the registered bytes.  A call writes
    only when the buffer is there and is said to be large enough, then exactly
    the initrd at its front, and never past a buffer of the stated size; every
    other call leaves the memory alone and reports the size, no initrd, a null
    pointer or the boot policy. *)
Theorem initrd_delivered (data : list Z) :
  data <> [] ->
  (forall fresh, stub_load (Some (provider_of data)) fresh = Some data) /\
  (forall policy size buffer st size' buffer',
     initrd_load_file_callback (Some (provider_of data)) policy size buffer = (st, size', buffer') ->
     match st with
     | SUCCESS =>
         policy = 0 /\ size' = Some (len data) /\
         exists n mem, size = Some n /\ len data <= n /\ buffer = Some mem /\
           buffer' = Some (data ++ drop (length data) mem) /\
           (n <= len mem -> len (data ++ drop (length data) mem) = len mem)
     | _ => buffer' = buffer /\ (st = BUFFER_TOO_SMALL -> size' = Some (len data)) /\ (st <> BUFFER_TOO_SMALL -> size' = size)
     end).
Proof.
  intros Hne. assert (0 < len data) as Hlen by (destruct data; [done|rewrite len_cons; pose proof (len_nonneg data); lia]).
  assert (take (Z.to_nat (len data)) data = data) as Ht by (unfold len; by rewrite Nat2Z.id, firstn_all).
  split.
  - intros fresh. unfold stub_load, initrd_load_file_callback. simpl.
    rewrite (proj2 (Z.eqb_neq _ _)) by lia. simpl. rewrite ?bool_decide_eq_true_2 by done.
    rewrite Z.ltb_irrefl, Ht, splice_front. f_equal. unfold len. rewrite Nat2Z.id. apply take_app_length.
  - intros policy size buffer st size' buffer' E. unfold initrd_load_file_callback in E.
    destruct (Z.eqb_spec policy 0); simpl in E; [|by simplify_eq].
    destruct size as [n|]; [|by simplify_eq]. rewrite (proj2 (Z.eqb_neq _ _)) in E by lia.
    destruct buffer as [mem|]; [|by simplify_eq].
    destruct (Z.ltb_spec n (len data)); simplify_eq; [done|]. split; [done|]. split; [done|].
    exists n, mem. split; [done|]. split; [lia|]. split; [done|]. rewrite Ht, splice_front. split; [done|].
    intros Hm. unfold len in *. rewrite length_app, length_drop. lia.
Qed.

Lemma initrd_delivered_witness :
  stub_load (Some (provider_of [1; 2; 3])) (fun n => replicate (Z.to_nat n) 0) = Some [1; 2; 3].
Proof. by apply (initrd_delivered [1; 2; 3]). Defined.

(** ** Lifetime *)
(** The pointers are fresh and distinct, and the handle is new. *)
Definition fresh_env (re : RegisterEnv) (w : World) : Prop :=
  NoDup [re_data_ptr re; re_devpath_ptr re; re_provider_ptr re] /\
  w_heap w !! re_data_ptr re = None /\ w_heap w !! re_devpath_ptr re = None /\ w_heap w !! re_provider_ptr re = None /\
  (forall h g, re_new_handle re = Some h -> w_protocols w !! (h, g) = None).

(** While the handle lives, the device path of the initrd and the callback
    with exactly its bytes are installed on one handle; dropping the handle
    restores the protocol database and the heap.  A registration the firmware
    refuses half-way is not undone: its three allocations, and the device path
    when only the second installation failed, stay. *)
Theorem initrd_lifetime (re : RegisterEnv) (data : list Z) (w : World) :
  fresh_env re w ->
  match initrd_register re data w with
  | (Some ih, w') =>
      w_protocols w' !! (ih_handle ih, DEVICE_PATH_GUID) = Some (ih_devpath_ptr ih) /\
      w_heap w' !! ih_devpath_ptr ih = Some (CellDevPath initrd_device_path) /\
      w_protocols w' !! (ih_handle ih, LOAD_FILE2_GUID) = Some (ih_provider_ptr ih) /\
      w_heap w' !! ih_provider_ptr ih = Some (CellProvider (provider_of data)) /\
      w_heap w' !! ih_data_ptr ih = Some (CellData data) /\
      initrd_drop ih w' = w
  | (None, w') =>
      (re_new_handle re = None \/ re_install_load_file2 re = false) /\
      w_heap w' !! re_data_ptr re = Some (CellData data) /\
      w_heap w' !! re_devpath_ptr re <> None /\ w_heap w' !! re_provider_ptr re <> None /\
      (forall h, re_new_handle re = Some h -> w_protocols w' !! (h, DEVICE_PATH_GUID) = Some (re_devpath_ptr re))
  end.
Proof.
  intros (Hnd & H1 & H2 & H3 & Hp).
  apply NoDup_cons in Hnd as [N1 Hnd]. apply NoDup_cons in Hnd as [N2 _].
  rewrite !not_elem_of_cons in N1. rewrite not_elem_of_cons in N2. destruct N1 as (N11 & N12 & _), N2 as [N2 _].
  unfold initrd_register. destruct (re_new_handle re) as [h|] eqn:Eh; [destruct (re_install_load_file2 re) eqn:El|]; simpl.
  - split_and!; try by simplify_map_eq.
    destruct w as [heap prot]. unfold initrd_drop, uninstall. simpl in *. f_equal.
    + rewrite delete_insert_id by (by rewrite !lookup_insert_ne by congruence).
      rewrite delete_insert_id by (by rewrite !lookup_insert_ne by congruence). by rewrite delete_insert_id.
    + rewrite (bool_decide_eq_true_2 (<[_ := _]> _ !! _ = _)) by by simplify_map_eq.
      rewrite delete_insert_id by (rewrite lookup_insert_ne by congruence; by apply Hp).
      rewrite bool_decide_eq_true_2 by by simplify_map_eq. by rewrite delete_insert_id by by apply Hp.
  - split; [by right|]. split_and!; try by simplify_map_eq.
    intros h' [= <-]. apply lookup_insert_eq.
  - split; [by left|]. split_and!; by simplify_map_eq.
Qed.

Definition demo_register : RegisterEnv := mkRegEnv 1 2 3 (Some 7) true.

Lemma initrd_lifetime_witness :
  exists ih w', initrd_register demo_register [9; 9] (mkWorld ∅ ∅) = (Some ih, w') /\ initrd_drop ih w' = mkWorld ∅ ∅.
Proof.
  destruct (initrd_register demo_register [9; 9] (mkWorld ∅ ∅)) as [[ih|] w'] eqn:E; [|by vm_compute in E].
  exists ih, w'. split; [done|].
  assert (fresh_env demo_register (mkWorld ∅ ∅)) as Hf.
  { split; [|done]. by apply (bool_decide_eq_true_1 _); vm_compute. }
  pose proof (initrd_lifetime demo_register [9; 9] (mkWorld ∅ ∅) Hf) as H. rewrite E in H. apply H.
Defined.
