(* ===== verification/Smbios.v ===== *)
(** * Platform identity (smbios.rs, firmware_quirks.rs, hypervisor.rs)

    The SMBIOS structure table is untrusted input: on a virtual machine its
    contents come from the host.  Loops over it take fuel, and running out of
    fuel counts as a panic, so a theorem that excludes panics also shows that
    the loop ends. *)
From S2P Require Import Prelude Compare RustStr Utf8 VersionOrder BlsParse.
Local Open Scope Z_scope.

Record SystemInfo : Type := mkSys {
  si_manufacturer : option (list Z);
  si_product_name : option (list Z);
  si_version : option (list Z);
  si_serial_number : option (list Z);
  si_family : option (list Z)
}.

Definition system_info_default : SystemInfo := mkSys None None None None None.

Section strings.
Context {E : Type} (table : list Z) (max_len : Z).

(** [while pos < max_len && table[pos] != 0 { pos += 1 }] *)
Fixpoint skip_string (fuel : nat) (pos : Z) : res E Z :=
  match fuel with
  | O => Panic
  | S fuel' =>
      if pos <? max_len then
        let? b := index pos table in
        if b =? 0 then Ok pos else skip_string fuel' (pos + 1)
      else Ok pos
  end.

Fixpoint collect_loop (fuel : nat) (pos : Z) (strings : list (list Z)) : res E (list (list Z)) :=
  match fuel with
  | O => Panic
  | S fuel' =>
      if pos <? max_len then
        let? b := index pos table in
        if b =? 0 then Ok strings
        else
          let? stop := skip_string (S (Z.to_nat (max_len - pos))) pos in
          let? raw := slice pos stop table in
          let strings := match from_utf8 raw with Some s => strings ++ [s] | None => strings end in
          collect_loop fuel' (if stop <? max_len then stop + 1 else stop) strings
      else Ok strings
  end.

Definition collect_strings (start : Z) : res E (list (list Z)) :=
  collect_loop (S (Z.to_nat (max_len - start))) start [].

Fixpoint double_nul (fuel : nat) (pos : Z) : res E Z :=
  match fuel with
  | O => Panic
  | S fuel' =>
      if pos + 1 <? max_len then
        let? b := index pos table in
        let? c := index (pos + 1) table in
        if (b =? 0) && (c =? 0) then Ok (pos + 2) else double_nul fuel' (pos + 1)
      else Ok max_len
  end.

Definition find_strings_end (start : Z) : res E Z :=
  if start <? max_len then
    let? b := index start table in
    if b =? 0 then Ok (start + 2) else double_nul (S (Z.to_nat (max_len - start))) start
  else double_nul (S (Z.to_nat (max_len - start))) start.

(** The index is 1-based; 0 is no string. *)
Definition get_string (strings : list (list Z)) (i : Z) : option (list Z) :=
  if i =? 0 then None else strings !! Z.to_nat (i - 1).

(** A field whose index is at [at_] of the structure, if the structure has it. *)
Definition type1_field (offset struct_length at_ : Z) (strings : list (list Z)) (old : option (list Z))
    : res E (option (list Z)) :=
  if at_ <? struct_length then
    let? i := index (offset + at_) table in Ok (get_string strings i)
  else Ok old.

Definition read_type1 (offset struct_length : Z) (strings : list (list Z)) (si : SystemInfo) : res E SystemInfo :=
  let? m := type1_field offset struct_length 4 strings (si_manufacturer si) in
  let? p := type1_field offset struct_length 5 strings (si_product_name si) in
  let? v := type1_field offset struct_length 6 strings (si_version si) in
  let? s := type1_field offset struct_length 7 strings (si_serial_number si) in
  let? f := type1_field offset struct_length 26 strings (si_family si) in
  Ok (mkSys m p v s f).

Definition read_type11 (offset struct_length : Z) (strings oem : list (list Z)) : res E (list (list Z)) :=
  if 4 <? struct_length then
    let? count := index (offset + 4) table in
    Ok (oem ++ take (Nat.min (Z.to_nat count) (length strings)) strings)
  else Ok oem.

Fixpoint walk_loop (fuel : nat) (offset : Z) (si : SystemInfo) (oem : list (list Z))
    : res E (SystemInfo * list (list Z)) :=
  match fuel with
  | O => Panic
  | S fuel' =>
      if offset + 4 <=? max_len then
        let? struct_type := index offset table in
        let? struct_length := index (offset + 1) table in
        if struct_type =? 127 then Ok (si, oem)
        else if (struct_length <? 4) || (max_len <? offset + struct_length) then Ok (si, oem)
        else
          let? strings := collect_strings (offset + struct_length) in
          let? strings_end := find_strings_end (offset + struct_length) in
          let? si' := (if struct_type =? 1 then read_type1 offset struct_length strings si else Ok si) in
          let? oem' := (if struct_type =? 11 then read_type11 offset struct_length strings oem else Ok oem) in
          walk_loop fuel' strings_end si' oem'
      else Ok (si, oem)
  end.
End strings.

Definition MAX_SMBIOS_TABLE_LEN : Z := 1024 * 1024.

(** [raw addr n]: the bytes at an address, what [from_raw_parts] gives. *)
Definition walk_smbios_structures {E : Type} (raw : Z -> Z -> list Z) (table_start table_length : Z)
    (si : SystemInfo) (oem : list (list Z)) : res E (SystemInfo * list (list Z)) :=
  if (table_length =? 0) || (MAX_SMBIOS_TABLE_LEN <? table_length) then Ok (si, oem)
  else walk_loop (raw table_start table_length) table_length (S (Z.to_nat table_length)) 0 si oem.

Definition parse_entry_point (bytes : list Z) : option Z * Z :=
  if (24 <=? len bytes) && bool_decide (sub_list 0 4 bytes = lit "_SM_") then
    (Some (from_le (sub_list 0x18 0x1C bytes)), from_le (sub_list 0x16 0x18 bytes))
  else if (24 <=? len bytes) && bool_decide (sub_list 0 5 bytes = lit "_SM3_") then
    (Some (from_le (sub_list 0x10 0x18 bytes)), from_le (sub_list 0x0C 0x10 bytes))
  else (None, 0).

(** The configuration table: identifiers and addresses. *)
Inductive config_guid : Type := SMBIOS_GUID | SMBIOS3_GUID | ACPI_GUID | ACPI2_GUID | OTHER_GUID.

#[export] Instance config_guid_eq_dec : EqDecision config_guid.
Proof. solve_decision. Defined.

Definition find_smbios (entries : list (config_guid * Z)) : option Z :=
  snd <$> List.find (fun e => bool_decide (e.1 = SMBIOS_GUID) || bool_decide (e.1 = SMBIOS3_GUID)) entries.

Definition read_smbios {E : Type} (raw : Z -> Z -> list Z) (entries : list (config_guid * Z))
    : res E (SystemInfo * list (list Z)) :=
  match find_smbios entries with
  | None => Ok (system_info_default, [])
  | Some entry_point =>
      match parse_entry_point (raw entry_point 32) with
      | (Some table_addr, table_length) => walk_smbios_structures raw table_addr table_length system_info_default []
      | (None, _) => Ok (system_info_default, [])
      end
  end.

Fixpoint get_lamboot_oem_value (oem_strings : list (list Z)) (key : list Z) : option (list Z) :=
  match oem_strings with
  | [] => None
  | s :: rest =>
      match strip_prefix (lit "lamboot." ++ key ++ [c_equals]) s with
      | Some v => Some v
      | None => get_lamboot_oem_value rest key
      end
  end.

(** ** Firmware quirks *)
Record FirmwareQuirks : Type := mkQuirks { conout_fat_coupling : bool }.

Definition quirks_default : FirmwareQuirks := mkQuirks false.

Record KnownQuirky : Type := mkKnown {
  kq_manufacturer : list Z;
  kq_product_starts_with : list Z;
  kq_quirks : FirmwareQuirks
}.

Definition KNOWN_QUIRKY_SYSTEMS : list KnownQuirky :=
  [mkKnown (lit "ASUSTeK COMPUTER INC.") (lit "G10AJ") (mkQuirks true)].

Definition quirks_detect (si : SystemInfo) : FirmwareQuirks :=
  match si_manufacturer si, si_product_name si with
  | Some mfr, Some product =>
      match List.find (fun q => eq_ignore_ascii_case mfr (kq_manufacturer q) && starts_with (kq_product_starts_with q) product)
              KNOWN_QUIRKY_SYSTEMS with
      | Some q => kq_quirks q
      | None => quirks_default
      end
  | _, _ => quirks_default
  end.

Definition quirks_summary (q : FirmwareQuirks) : list Z :=
  if conout_fat_coupling q then lit "conout_fat_coupling=true" else lit "none".

(** ** The hypervisor *)
Record HypervisorInfo : Type := mkHyper { hv_present : bool; hv_name : option (list Z) }.

Definition hypervisor_names : list (list Z * list Z) :=
  [(lit "KVMKVMKVM" ++ [0; 0; 0], lit "KVM"); (lit "Microsoft Hv", lit "Hyper-V"); (lit "VMwareVMware", lit "VMware");
   (lit "XenVMMXenVMM", lit "Xen"); (lit " lrpepyh " ++ [0; 0; 0], lit "Parallels"); (lit "VBoxVBoxVBox", lit "VirtualBox")].

(** [cpuid leaf subleaf] gives EAX, EBX, ECX and EDX. *)
Definition detect_hypervisor (a : target_arch) (cpuid : Z -> Z -> Z * Z * Z * Z) : HypervisorInfo :=
  match a with
  | Aarch64 => mkHyper false None
  | X86_64 =>
      let '(_, _, ecx, _) := cpuid 1 0 in
      if Z.land ecx 0x80000000 =? 0 then mkHyper false None
      else
        let '(_, ebx, ecx, edx) := cpuid 0x40000000 0 in
        let sig := to_le 4 ebx ++ to_le 4 ecx ++ to_le 4 edx in
        match List.find (fun n => bool_decide (n.1 = sig)) hypervisor_names with
        | Some (_, name) => mkHyper true (Some name)
        | None =>
            let s := drop_while_end (Z.eqb 0) (default (lit "unknown") (from_utf8 sig)) in
            mkHyper true (if is_empty s then None else Some s)
        end
  end.

(** ** On arbitrary bytes *)
Lemma safe_index {E : Type} (i : Z) (l : list Z) : 0 <= i < len l -> safe (fun _ => True) (@index E Z i l).
Proof. intros Hi. by destruct (@index_in E Z i l Hi) as [a ->]. Qed.

Section total.
Context {E : Type} (table : list Z).
#[local] Notation n := (len table).

Ltac at_index := eapply safe_bind; [apply safe_index; lia|intros ? _].

Lemma skip_string_total (fuel : nat) (pos : Z) :
  0 <= pos <= n -> n - pos < Z.of_nat fuel -> safe (fun e => pos <= e <= n) (@skip_string E table n fuel pos).
Proof.
  revert pos. induction fuel as [|fuel IH]; intros pos Hp Hf; [lia|]. simpl.
  destruct (Z.ltb_spec pos n); [|simpl; lia]. at_index.
  destruct (_ =? 0); [simpl; lia|]. eapply safe_mono; [apply IH; lia|]. simpl. lia.
Qed.

Lemma skip_string_moves (fuel : nat) (pos b : Z) (e : Z) :
  0 <= pos < n -> n - pos < Z.of_nat fuel -> @index E Z pos table = Ok b -> b <> 0 ->
  @skip_string E table n fuel pos = Ok e -> pos < e <= n.
Proof.
  intros Hp Hf Hb Hne. destruct fuel as [|fuel]; [lia|]. simpl. rewrite (proj2 (Z.ltb_lt _ _)) by lia. rewrite Hb. simpl.
  rewrite (proj2 (Z.eqb_neq _ _)) by done. intros He.
  pose proof (skip_string_total fuel (pos + 1)) as Hs. rewrite He in Hs. simpl in Hs. lia.
Qed.

Lemma collect_loop_total (fuel : nat) (pos : Z) (strings : list (list Z)) :
  0 <= pos <= n -> n - pos < Z.of_nat fuel -> safe (fun _ => True) (@collect_loop E table n fuel pos strings).
Proof.
  revert pos strings. induction fuel as [|fuel IH]; intros pos strings Hp Hf; [lia|]. cbn [collect_loop].
  destruct (Z.ltb_spec pos n); [|done].
  destruct (index pos table) as [b|?|] eqn:Eb; [|done|by pose proof (@safe_index E pos table ltac:(lia)) as Hs; rewrite Eb in Hs].
  cbn [res_bind]. destruct (Z.eqb_spec b 0) as [|Hb]; [done|].
  pose proof (skip_string_total (S (Z.to_nat (n - pos))) pos) as Hs.
  destruct (skip_string _ _ _ pos) as [e|?|] eqn:Ee; [|exact I|exfalso; apply Hs; lia]. cbn [res_bind].
  apply (skip_string_moves _ _ b) in Ee; [|lia..|done|done]. rewrite slice_ok by lia. cbn [res_bind].
  apply IH; destruct (Z.ltb_spec e n); lia.
Qed.

Lemma double_nul_total (fuel : nat) (pos : Z) :
  0 <= pos <= n -> n - pos < Z.of_nat fuel -> safe (fun e => pos <= e) (@double_nul E table n fuel pos).
Proof.
  revert pos. induction fuel as [|fuel IH]; intros pos Hp Hf; [lia|]. simpl.
  destruct (Z.ltb_spec (pos + 1) n); [|simpl; lia]. do 2 at_index.
  destruct (_ && _); [simpl; lia|]. eapply safe_mono; [apply IH; lia|]. simpl. lia.
Qed.

Lemma find_strings_end_total (start : Z) : 0 <= start <= n -> safe (fun e => start <= e) (@find_strings_end E table n start).
Proof.
  intros Hs. unfold find_strings_end. destruct (Z.ltb_spec start n); [at_index; destruct (_ =? 0); [simpl; lia|]|];
    apply double_nul_total; lia.
Qed.

Lemma type1_field_total (offset sl at_ : Z) (strings : list (list Z)) (old : option (list Z)) :
  0 <= offset -> 0 <= at_ -> offset + sl <= n -> safe (fun _ => True) (@type1_field E table offset sl at_ strings old).
Proof. intros ???. unfold type1_field. destruct (Z.ltb_spec at_ sl); [at_index; done|done]. Qed.

Lemma read_type1_total (offset sl : Z) (strings : list (list Z)) (si : SystemInfo) :
  0 <= offset -> offset + sl <= n -> safe (fun _ => True) (@read_type1 E table offset sl strings si).
Proof. intros ??. unfold read_type1. repeat (eapply safe_bind; [by apply type1_field_total|intros ? _]). done. Qed.

Lemma walk_loop_total (fuel : nat) (offset : Z) (si : SystemInfo) (oem : list (list Z)) :
  0 <= offset -> Z.max 0 (n - offset) < Z.of_nat fuel ->
  safe (fun _ => True) (@walk_loop E table n fuel offset si oem).
Proof.
  revert offset si oem. induction fuel as [|fuel IH]; intros offset si oem Ho Hf; [lia|]. cbn [walk_loop].
  destruct (Z.leb_spec (offset + 4) n); [|done]. at_index. at_index.
  destruct (_ =? 127); [done|]. destruct (Z.ltb_spec a0 4); [done|]. destruct (Z.ltb_spec n (offset + a0)); [done|]. cbn [orb].
  eapply safe_bind; [apply collect_loop_total; lia|intros strings _].
  eapply safe_bind; [apply find_strings_end_total; lia|intros stop Hstop]. simpl in Hstop.
  eapply safe_bind; [by destruct (_ =? 1); [apply read_type1_total; lia|]|intros si' _].
  eapply (safe_bind (fun _ => True)); [|intros oem' _; apply IH; lia].
  destruct (_ =? 11); [|done]. unfold read_type11. destruct (Z.ltb_spec 4 a0); [at_index; done|done].
Qed.
End total.

(** ** On a well-formed table *)
Lemma index_app_r {E : Type} (pre l : list Z) (k : Z) : 0 <= k -> @index E Z (len pre + k) (pre ++ l) = index k l.
Proof.
  intros Hk. unfold index. pose proof (len_nonneg pre). rewrite !(proj2 (Z.leb_le _ _)) by lia.
  rewrite lookup_app_r by (unfold len; lia). by replace (Z.to_nat (len pre + k) - length pre)%nat with (Z.to_nat k) by (unfold len; lia).
Qed.

Lemma index_at {E : Type} (pre l : list Z) (x : Z) : @index E Z (len pre) (pre ++ x :: l) = Ok x.
Proof. replace (len pre) with (len pre + 0) by lia. by rewrite index_app_r. Qed.

Lemma char_utf8_nonzero (c : Z) : is_scalar c = true -> c <> 0 -> Forall (fun b => b <> 0) (char_utf8 c).
Proof.
  intros Hc Hz. assert (0 <= c) by (unfold is_scalar in Hc; lia).
  pose proof (Z.mod_pos_bound (c / 64) 64). pose proof (Z.mod_pos_bound c 64). pose proof (Z.mod_pos_bound (c / 4096) 64).
  pose proof (Z.div_pos c 64). pose proof (Z.div_pos c 4096). pose proof (Z.div_pos c 262144).
  unfold char_utf8. repeat case_match; repeat constructor; lia.
Qed.

(** A string of the table: text without NUL. *)
Definition smb_string (s : list Z) : Prop := s <> [] /\ Forall (fun c => is_scalar c = true /\ c <> 0) s.

Lemma smb_string_bytes (s : list Z) :
  smb_string s -> str_bytes s <> [] /\ Forall (fun b => b <> 0) (str_bytes s) /\ from_utf8 (str_bytes s) = Some s.
Proof.
  intros [Hne Hs]. split_and!.
  - destruct s as [|c s]; [done|]. unfold str_bytes. cbn [flat_map]. pose proof (char_utf8_nonempty c). by destruct (char_utf8 c).
  - induction Hs as [|c s [Hc Hz] _ IH]; [constructor|]. unfold str_bytes. cbn [flat_map].
    apply Forall_app. split; [by apply char_utf8_nonzero|]. destruct s; [constructor|by apply IH].
  - apply from_utf8_bytes. eapply Forall_impl; [exact Hs|]. naive_solver.
Qed.

(** The unformatted area. *)
Definition nul_terminated (s : list Z) : list Z := str_bytes s ++ [0].
Definition string_section (ss : list (list Z)) : list Z :=
  match ss with [] => [0; 0] | _ => flat_map nul_terminated ss ++ [0] end.

Section well_formed.
Context {E : Type}.

Lemma skip_string_spec (s pre rest : list Z) (fuel : nat) :
  Forall (fun b => b <> 0) s -> (length s < fuel)%nat ->
  @skip_string E (pre ++ s ++ 0 :: rest) (len (pre ++ s ++ 0 :: rest)) fuel (len pre) = Ok (len pre + len s).
Proof.
  intros Hs. revert pre fuel. induction Hs as [|b s Hb _ IH]; intros pre fuel Hf; (destruct fuel as [|fuel]; [simpl in Hf; lia|]).
  - cbn [skip_string app]. rewrite (proj2 (Z.ltb_lt _ _)) by (autorewrite with lamlen; pose proof (len_nonneg rest); lia).
    rewrite index_at. simpl. f_equal. rewrite len_nil. lia.
  - cbn [skip_string app].
    rewrite (proj2 (Z.ltb_lt _ _)) by (autorewrite with lamlen; pose proof (len_nonneg rest); pose proof (len_nonneg s); lia).
    rewrite index_at. cbn [res_bind]. rewrite (proj2 (Z.eqb_neq b 0)) by done.
    specialize (IH (pre ++ [b]) fuel). rewrite <- app_assoc in IH. cbn [app] in IH.
    replace (len pre + 1) with (len (pre ++ [b])) by (autorewrite with lamlen; lia).
    rewrite IH by (simpl in Hf; lia). f_equal. autorewrite with lamlen. lia.
Qed.

(** A string of the table and the NUL after it. *)
Lemma string_at (s pre tail : list Z) (fuel : nat) :
  smb_string s -> (length (str_bytes s) < fuel)%nat ->
  let table := pre ++ str_bytes s ++ 0 :: tail in
  (exists b, @index E Z (len pre) table = Ok b /\ b <> 0) /\
  @skip_string E table (len table) fuel (len pre) = Ok (len pre + len (str_bytes s)) /\
  @slice E Z (len pre) (len pre + len (str_bytes s)) table = Ok (str_bytes s) /\ from_utf8 (str_bytes s) = Some s /\
  len pre < len table /\ len pre + len (str_bytes s) < len table.
Proof.
  intros Hs Hf table. destruct (smb_string_bytes s Hs) as (Hne & Hnz & Hu).
  assert (len table = len pre + len (str_bytes s) + 1 + len tail) as Hl by (unfold table; autorewrite with lamlen; lia).
  pose proof (len_nonneg tail). pose proof (len_nonneg (str_bytes s)). pose proof (len_nonneg pre). split_and!; [| | |done|lia..].
  - unfold table. destruct (str_bytes s) as [|b bs]; [done|]. exists b. split; [apply index_at|by inversion Hnz].
  - by apply skip_string_spec.
  - rewrite slice_ok by lia. f_equal. unfold sub_list, table. unfold len. rewrite Nat2Z.id, drop_app_length.
    replace (Z.to_nat _) with (length (str_bytes s)) by lia. by rewrite take_app_length.
Qed.

Lemma collect_loop_spec (ss : list (list Z)) (pre rest : list Z) (fuel : nat) (acc : list (list Z)) :
  Forall smb_string ss -> (length ss < fuel)%nat ->
  let table := pre ++ flat_map nul_terminated ss ++ 0 :: rest in
  @collect_loop E table (len table) fuel (len pre) acc = Ok (acc ++ ss).
Proof.
  intros Hs. cbv zeta. revert pre fuel acc. induction Hs as [|s ss Hs _ IH]; intros pre fuel acc Hf;
    (destruct fuel as [|fuel]; [simpl in Hf; lia|]).
  - cbn [collect_loop app flat_map]. rewrite (proj2 (Z.ltb_lt _ _)) by (autorewrite with lamlen; pose proof (len_nonneg rest); lia).
    rewrite index_at. simpl. by rewrite app_nil_r.
  - set (tail := flat_map nul_terminated ss ++ 0 :: rest).
    replace (pre ++ flat_map nul_terminated (s :: ss) ++ 0 :: rest) with (pre ++ str_bytes s ++ 0 :: tail)
      by (unfold tail, nul_terminated; cbn [flat_map]; by rewrite <- !app_assoc).
    set (table := pre ++ str_bytes s ++ 0 :: tail). cbn [collect_loop].
    destruct (string_at s pre tail (S (Z.to_nat (len table - len pre))) Hs) as ((b & Hb & Hbz) & Hskip & Hslice & Hu & Hl1 & Hl2).
    { unfold table. autorewrite with lamlen. pose proof (len_nonneg tail). unfold len. lia. }
    fold table in Hb, Hskip, Hslice, Hl1, Hl2. rewrite (proj2 (Z.ltb_lt _ _)) by done. rewrite Hb. cbn [res_bind].
    rewrite (proj2 (Z.eqb_neq b 0)) by done. rewrite Hskip. cbn [res_bind]. rewrite Hslice. cbn [res_bind].
    rewrite Hu. rewrite (proj2 (Z.ltb_lt _ _)) by done.
    specialize (IH (pre ++ str_bytes s ++ [0]) fuel (acc ++ [s])).
    replace ((pre ++ str_bytes s ++ [0]) ++ flat_map nul_terminated ss ++ 0 :: rest) with table in IH
      by (unfold table, tail; by rewrite <- !app_assoc).
    replace (len pre + len (str_bytes s) + 1) with (len (pre ++ str_bytes s ++ [0])) by (autorewrite with lamlen; lia).
    rewrite IH by (simpl in Hf; lia). by rewrite <- app_assoc.
Qed.

(** One step over a position that does not start the double NUL. *)
Lemma double_nul_step (pre rest : list Z) (b c : Z) (fuel : nat) :
  ~ (b = 0 /\ c = 0) ->
  let table := pre ++ b :: c :: rest in
  @double_nul E table (len table) (S fuel) (len pre) = double_nul table (len table) fuel (len (pre ++ [b])).
Proof.
  intros Hbc table. cbn [double_nul]. unfold table at 1.
  rewrite (proj2 (Z.ltb_lt _ _)) by (autorewrite with lamlen; pose proof (len_nonneg rest); lia).
  unfold table at 1. rewrite index_at. cbn [res_bind]. unfold table at 1. rewrite index_app_r by lia. cbn [res_bind].
  replace (len (pre ++ [b])) with (len pre + 1) by (autorewrite with lamlen; lia).
  change (@index E Z 1 (b :: c :: rest)) with (@Ok E Z c). cbn [res_bind].
  destruct (Z.eqb_spec b 0), (Z.eqb_spec c 0); cbn [andb]; [naive_solver|done..].
Qed.

(** A string without NUL is passed up to its terminator. *)
Lemma double_nul_string (s pre rest : list Z) (fuel : nat) :
  Forall (fun b => b <> 0) s ->
  let table := pre ++ s ++ 0 :: rest in
  @double_nul E table (len table) (length s + fuel) (len pre) = double_nul table (len table) fuel (len (pre ++ s)).
Proof.
  intros Hs. cbv zeta. revert pre. induction Hs as [|b s Hb _ IH]; intros pre; [by rewrite app_nil_r|].
  specialize (IH (pre ++ [b])). rewrite <- !app_assoc in IH. cbn [app] in IH |- *. cbn [length Nat.add].
  assert (exists c r, s ++ 0 :: rest = c :: r) as (c & r & Er) by (destruct s; simpl; eauto).
  rewrite Er in *. rewrite double_nul_step by naive_solver. apply IH.
Qed.

Lemma double_nul_spec (ss : list (list Z)) (pre rest : list Z) (fuel : nat) :
  Forall smb_string ss -> ss <> [] ->
  let table := pre ++ flat_map nul_terminated ss ++ 0 :: rest in
  len table - len pre < Z.of_nat fuel ->
  @double_nul E table (len table) fuel (len pre) = Ok (len pre + len (flat_map nul_terminated ss) + 1).
Proof.
  intros Hs Hne. cbv zeta. revert pre fuel. induction Hs as [|s ss Hs Hss IH]; intros pre fuel Hf; [done|].
  destruct (smb_string_bytes s Hs) as (_ & Hnz & _). set (tail := flat_map nul_terminated ss ++ 0 :: rest).
  assert (pre ++ flat_map nul_terminated (s :: ss) ++ 0 :: rest = pre ++ str_bytes s ++ 0 :: tail) as Et
    by (unfold tail, nul_terminated; cbn [flat_map]; by rewrite <- !app_assoc).
  rewrite Et in *. clear Et. rewrite !len_app, len_cons in Hf.
  replace fuel with (length (str_bytes s) + (fuel - length (str_bytes s)))%nat by (unfold len in Hf; lia).
  pose proof (double_nul_string (str_bytes s) pre tail (fuel - length (str_bytes s)) Hnz) as Hd. cbv zeta in Hd. rewrite Hd. clear Hd.
  assert (exists k, fuel - length (str_bytes s) = S k)%nat as [k Hk]
    by (exists (fuel - length (str_bytes s) - 1)%nat; pose proof (len_nonneg tail); unfold len in *; lia). rewrite Hk.
  rewrite (app_assoc pre (str_bytes s)). set (pre1 := pre ++ str_bytes s).
  cbn [flat_map]. unfold nul_terminated at 1. destruct ss as [|s2 ss].
  - unfold tail. cbn [flat_map app double_nul].
    rewrite (proj2 (Z.ltb_lt _ _)) by (autorewrite with lamlen; pose proof (len_nonneg rest); lia).
    rewrite index_at. cbn [res_bind]. rewrite index_app_r by lia. simpl. f_equal. unfold pre1. autorewrite with lamlen. lia.
  - inversion Hss as [|?? Hs2 _]. destruct (smb_string_bytes s2 Hs2) as (Hne2 & Hnz2 & _).
    assert (exists c r, tail = c :: r /\ c <> 0) as (c & r & Er & Hc).
    { unfold tail, nul_terminated. cbn [flat_map]. destruct (str_bytes s2) as [|c r]; [done|]. inversion Hnz2. simpl. eauto. }
    rewrite Er. rewrite double_nul_step by naive_solver. rewrite <- Er.
    specialize (IH ltac:(done) (pre1 ++ [0]) k). rewrite <- app_assoc in IH. cbn [app] in IH. fold tail in IH.
    rewrite IH by (unfold pre1 in *; autorewrite with lamlen in *; unfold len in *; lia).
    f_equal. unfold pre1. autorewrite with lamlen. lia.
Qed.

Lemma find_strings_end_spec (ss : list (list Z)) (pre rest : list Z) :
  Forall smb_string ss ->
  let table := pre ++ string_section ss ++ rest in
  @find_strings_end E table (len table) (len pre) = Ok (len pre + len (string_section ss)).
Proof.
  intros Hs table. unfold find_strings_end. destruct ss as [|s ss].
  - unfold table. cbn [string_section app]. rewrite (proj2 (Z.ltb_lt _ _)) by (autorewrite with lamlen; pose proof (len_nonneg rest); lia).
    by rewrite index_at.
  - assert (table = pre ++ flat_map nul_terminated (s :: ss) ++ 0 :: rest) as Et
      by (unfold table, string_section; by rewrite <- !app_assoc).
    inversion Hs as [|?? Hs1 _]. destruct (smb_string_bytes s Hs1) as (Hne & Hnz & _).
    assert (exists b r, flat_map nul_terminated (s :: ss) ++ 0 :: rest = b :: r /\ b <> 0) as (b & r & Eb & Hb).
    { unfold nul_terminated. cbn [flat_map]. destruct (str_bytes s) as [|b r]; [done|]. inversion Hnz. simpl. eauto. }
    assert (len pre <? len table = true) as -> by (rewrite Et, Eb, len_app, len_cons; pose proof (len_nonneg r); lia).
    assert (@index E Z (len pre) table = Ok b) as -> by (rewrite Et, Eb; apply index_at). cbn [res_bind].
    rewrite (proj2 (Z.eqb_neq b 0)) by done. rewrite Et. rewrite double_nul_spec; [|done..|].
    + f_equal. unfold string_section. autorewrite with lamlen. lia.
    + rewrite <- Et. pose proof (len_nonneg pre).
      assert (len pre <= len table) by (rewrite Et, len_app; pose proof (len_nonneg (flat_map nul_terminated (s :: ss) ++ 0 :: rest)); lia). lia.
Qed.
End well_formed.

(** *** Structures as the standard describes them *)
Record Structure : Type := mkStruct {
  ss_type : Z;
  ss_body : list Z;                    (* the formatted area after type and length *)
  ss_strings : list (list Z)
}.

Definition structure_ok (s : Structure) : Prop :=
  is_byte (ss_type s) /\ ss_type s <> 127 /\ 2 <= len (ss_body s) <= 253 /\ Forall is_byte (ss_body s) /\
  Forall smb_string (ss_strings s).

Definition formatted (s : Structure) : list Z := ss_type s :: 2 + len (ss_body s) :: ss_body s.
Definition structure_bytes (s : Structure) : list Z := formatted s ++ string_section (ss_strings s).

(** The strings of a structure by their numbers (SMBIOS specification, 6.1.3):
    number 0 stands for no string, the first string has number 1. *)
Definition numbered_strings (ss : list (list Z)) : list (option (list Z)) := None :: (Some <$> ss).

(** What a structure says: the string a field refers to, the strings of a count. *)
Definition field (s : Structure) (at_ : Z) (old : option (list Z)) : option (list Z) :=
  match formatted s !! Z.to_nat at_ with
  | Some i => mjoin (numbered_strings (ss_strings s) !! Z.to_nat i)
  | None => old
  end.

Definition interpret (st : SystemInfo * list (list Z)) (s : Structure) : SystemInfo * list (list Z) :=
  let '(si, oem) := st in
  if ss_type s =? 1 then
    (mkSys (field s 4 (si_manufacturer si)) (field s 5 (si_product_name si)) (field s 6 (si_version si))
       (field s 7 (si_serial_number si)) (field s 26 (si_family si)), oem)
  else if ss_type s =? 11 then
    (si, oem ++ match formatted s !! 4%nat with Some n => take (Z.to_nat n) (ss_strings s) | None => [] end)
  else st.

(** What may follow the structures: nothing, a remnant, the end marker. *)
Definition table_end (tail : list Z) : Prop := len tail < 4 \/ exists rest, tail = 127 :: rest.

Section walk.
Context {E : Type}.

Lemma get_string_numbered (ss : list (list Z)) (i : Z) :
  0 <= i -> get_string ss i = mjoin (numbered_strings ss !! Z.to_nat i).
Proof.
  intros Hi. unfold get_string, numbered_strings. destruct (Z.eqb_spec i 0) as [->|Hn]; [done|].
  replace (Z.to_nat i) with (S (Z.to_nat (i - 1))) by lia. simpl. rewrite list_lookup_fmap. by destruct (ss !! _).
Qed.

Lemma formatted_bytes (s : Structure) : structure_ok s -> Forall is_byte (formatted s).
Proof. intros (Ht & _ & Hb & Hbytes & _). unfold formatted. repeat constructor; unfold is_byte in *; try lia; done. Qed.

Lemma type1_field_spec (s : Structure) (pre rest : list Z) (at_ : Z) (old : option (list Z)) :
  structure_ok s -> 0 <= at_ ->
  @type1_field E (pre ++ formatted s ++ rest) (len pre) (len (formatted s)) at_ (ss_strings s) old = Ok (field s at_ old).
Proof.
  intros Hs Ha. unfold type1_field, field. destruct (Z.ltb_spec at_ (len (formatted s))) as [Hl|Hl].
  - rewrite index_app_r by done. unfold index. rewrite (proj2 (Z.leb_le _ _)) by done.
    rewrite lookup_app_l by (unfold len in Hl; lia).
    destruct (lookup_lt_is_Some_2 (formatted s) (Z.to_nat at_)) as [i Hi]; [unfold len in Hl; lia|]. rewrite Hi.
    cbn [res_bind]. rewrite get_string_numbered; [done|]. pose proof (formatted_bytes s Hs) as Hb.
    rewrite Forall_lookup in Hb. by destruct (Hb _ _ Hi).
  - by rewrite lookup_ge_None_2 by (unfold len in Hl; lia).
Qed.

Lemma read_type1_spec (s : Structure) (pre rest : list Z) (si : SystemInfo) :
  structure_ok s ->
  @read_type1 E (pre ++ formatted s ++ rest) (len pre) (len (formatted s)) (ss_strings s) si =
  Ok (mkSys (field s 4 (si_manufacturer si)) (field s 5 (si_product_name si)) (field s 6 (si_version si))
       (field s 7 (si_serial_number si)) (field s 26 (si_family si))).
Proof. intros Hs. unfold read_type1. by rewrite !type1_field_spec by (done || lia). Qed.

Lemma read_type11_spec (s : Structure) (pre rest : list Z) (oem : list (list Z)) :
  @read_type11 E (pre ++ formatted s ++ rest) (len pre) (len (formatted s)) (ss_strings s) oem =
  Ok (oem ++ match formatted s !! 4%nat with Some n => take (Z.to_nat n) (ss_strings s) | None => [] end).
Proof.
  unfold read_type11. destruct (Z.ltb_spec 4 (len (formatted s))) as [Hl|Hl].
  - rewrite index_app_r by done. unfold index. change (0 <=? 4) with true.
    rewrite lookup_app_l by (unfold len in Hl; lia). change (Z.to_nat 4) with 4%nat.
    destruct (lookup_lt_is_Some_2 (formatted s) 4) as [i ->]; [unfold len in Hl; lia|]. cbn [res_bind]. do 2 f_equal.
    destruct (Nat.min_spec (Z.to_nat i) (length (ss_strings s))) as [[? ->]|[? ->]]; [done|].
    by rewrite !take_ge by lia.
  - rewrite lookup_ge_None_2 by (unfold len in Hl; lia). by rewrite app_nil_r.
Qed.

Lemma collect_strings_spec (ss : list (list Z)) (pre rest : list Z) :
  Forall smb_string ss ->
  let table := pre ++ string_section ss ++ rest in
  @collect_strings E table (len table) (len pre) = Ok ss.
Proof.
  intros Hs. cbv zeta. unfold collect_strings. destruct ss as [|s ss].
  - cbn [string_section app]. apply (collect_loop_spec [] pre (0 :: rest)); [constructor|simpl; lia].
  - assert (pre ++ string_section (s :: ss) ++ rest = pre ++ flat_map nul_terminated (s :: ss) ++ 0 :: rest) as ->
      by (unfold string_section; by rewrite <- !app_assoc).
    rewrite collect_loop_spec; [done|done|]. autorewrite with lamlen.
    assert (Z.of_nat (length (s :: ss)) <= len (flat_map nul_terminated (s :: ss))) as Hle; [|pose proof (len_nonneg rest); lia].
    generalize (s :: ss) as l. clear. induction l as [|s l IH]; [done|].
    cbn [flat_map length]. unfold nul_terminated at 1. autorewrite with lamlen. pose proof (len_nonneg (str_bytes s)). lia.
Qed.

Lemma walk_loop_spec (l : list Structure) (pre tail : list Z) (fuel : nat) (st : SystemInfo * list (list Z)) :
  Forall structure_ok l -> table_end tail ->
  let table := pre ++ flat_map structure_bytes l ++ tail in
  len table - len pre < Z.of_nat fuel ->
  @walk_loop E table (len table) fuel (len pre) st.1 st.2 = Ok (fold_left interpret l st).
Proof.
  intros Hl Htail. cbv zeta. revert pre fuel st. induction Hl as [|s l Hs _ IH]; intros pre fuel [si oem] Hf.
  { cbn [flat_map app fold_left fst snd] in *. rewrite len_app in *. destruct fuel as [|fuel]; [pose proof (len_nonneg tail); lia|].
    cbn [walk_loop]. destruct Htail as [Ht|[rest ->]].
    - rewrite (proj2 (Z.leb_gt _ _)) by lia. done.
    - destruct (Z.leb_spec (len pre + 4) (len pre + len (127 :: rest))); [|done]. rewrite index_at. cbn [res_bind].
      rewrite index_app_r by lia. by destruct (@index_in E Z 1 (127 :: rest)) as [a ->]; [rewrite len_cons in *; lia|]. }
  pose proof Hs as (Hty & H127 & Hb & Hbytes & Hss). set (tail' := flat_map structure_bytes l ++ tail).
  assert (pre ++ flat_map structure_bytes (s :: l) ++ tail = pre ++ formatted s ++ string_section (ss_strings s) ++ tail') as Et
    by (unfold tail', structure_bytes; cbn [flat_map]; by rewrite <- !app_assoc).
  rewrite Et in *. clear Et. set (table := pre ++ formatted s ++ string_section (ss_strings s) ++ tail') in *.
  assert (len (formatted s) = 2 + len (ss_body s)) as Hlf by (unfold formatted; rewrite !len_cons; lia).
  assert (len table = len pre + len (formatted s) + len (string_section (ss_strings s)) + len tail') as Hlt
    by (unfold table; autorewrite with lamlen; lia).
  pose proof (len_nonneg tail'). pose proof (len_nonneg (string_section (ss_strings s))). pose proof (len_nonneg pre).
  destruct fuel as [|fuel]; [lia|]. cbn [walk_loop fst snd]. rewrite (proj2 (Z.leb_le _ _)) by lia.
  assert (@index E Z (len pre) table = Ok (ss_type s)) as -> by (unfold table, formatted; apply index_at). cbn [res_bind].
  assert (@index E Z (len pre + 1) table = Ok (len (formatted s))) as -> by (unfold table; rewrite index_app_r, Hlf by lia; done).
  cbn [res_bind]. rewrite (proj2 (Z.eqb_neq _ _)) by done. rewrite (proj2 (Z.ltb_ge _ _)) by lia.
  rewrite (proj2 (Z.ltb_ge _ _)) by lia. cbn [orb].
  assert (table = (pre ++ formatted s) ++ string_section (ss_strings s) ++ tail') as Et2 by (unfold table; by rewrite <- !app_assoc).
  replace (len pre + len (formatted s)) with (len (pre ++ formatted s)) by (autorewrite with lamlen; lia).
  rewrite Et2 at 1 2. rewrite collect_strings_spec by done. cbn [res_bind].
  rewrite Et2 at 1 2. rewrite find_strings_end_spec by done. cbn [res_bind]. clear Et2.
  specialize (IH ((pre ++ formatted s) ++ string_section (ss_strings s)) fuel (interpret (si, oem) s)).
  assert (((pre ++ formatted s) ++ string_section (ss_strings s)) ++ flat_map structure_bytes l ++ tail = table) as Et3
    by (unfold table, tail'; by rewrite <- !app_assoc).
  rewrite Et3 in IH. rewrite <- len_app. cbn [fold_left]. rewrite <- IH by (autorewrite with lamlen; lia). clear IH Et3.
  unfold interpret, table. destruct (Z.eqb_spec (ss_type s) 1) as [E1|_].
  - rewrite E1. change (1 =? 11) with false. rewrite read_type1_spec by done. done.
  - cbn [res_bind]. destruct (ss_type s =? 11); [rewrite read_type11_spec; done|done].
Qed.
End walk.

(** ** Reading the tables *)
(** Reading [n] bytes of memory gives [n] bytes. *)
Definition memory (raw : Z -> Z -> list Z) : Prop :=
  forall a n, len (raw a n) = Z.max 0 n /\ Forall is_byte (raw a n).

Lemma parse_entry_point_length (bytes : list Z) (addr : option Z) (n : Z) :
  Forall is_byte bytes -> parse_entry_point bytes = (addr, n) -> 0 <= n.
Proof.
  intros Hb. assert (forall lo hi, 0 <= from_le (sub_list lo hi bytes)) as Hle
    by (intros; by apply from_le_bound, Forall_sub_list).
  unfold parse_entry_point. repeat case_match; intros [= <- <-]; first [apply Hle|lia].
Qed.

Lemma walk_smbios_total {E : Type} (raw : Z -> Z -> list Z) (addr n : Z) (si : SystemInfo) (oem : list (list Z)) :
  memory raw -> 0 <= n -> safe (fun _ => True) (@walk_smbios_structures E raw addr n si oem).
Proof.
  intros Hm Hn. unfold walk_smbios_structures. destruct (_ || _); [done|]. destruct (Hm addr n) as [Hl _].
  pose proof (@walk_loop_total E (raw addr n) (S (Z.to_nat n)) 0 si oem) as Hw. rewrite Hl in Hw.
  replace (Z.max 0 n) with n in Hw by lia. apply Hw; lia.
Qed.

Lemma read_smbios_total {E : Type} (raw : Z -> Z -> list Z) (entries : list (config_guid * Z)) :
  memory raw -> safe (fun _ => True) (@read_smbios E raw entries).
Proof.
  intros Hm. unfold read_smbios. destruct (find_smbios entries) as [ep|]; [|done].
  destruct (parse_entry_point (raw ep 32)) as [[addr|] n] eqn:Ep; [|done].
  apply walk_smbios_total; [done|]. eapply parse_entry_point_length; [apply (Hm ep 32)|done].
Qed.

(** C27. Reading the SMBIOS tables returns whatever the memory holds: no access
    is out of range and no loop runs for ever.  On a well-formed table it
    returns what the structures say: the system information of the last type 1
    structure, field by field - the string with the number the field holds, none
    for number 0 - and the counted strings of all type 11 structures in order. *)
Theorem read_smbios_correct (raw : Z -> Z -> list Z) (entries : list (config_guid * Z)) :
  memory raw ->
  @read_smbios Empty_set raw entries <> Panic /\
  (forall ep addr n l tail,
     find_smbios entries = Some ep -> parse_entry_point (raw ep 32) = (Some addr, n) ->
     raw addr n = flat_map structure_bytes l ++ tail -> 0 < n <= MAX_SMBIOS_TABLE_LEN ->
     Forall structure_ok l -> table_end tail ->
     @read_smbios Empty_set raw entries = Ok (fold_left interpret l (system_info_default, []))).
Proof.
  intros Hm. split; [by eapply safe_no_panic, read_smbios_total|].
  intros ep addr n l tail He Hp Hr Hn Hl Ht. unfold read_smbios. rewrite He, Hp. unfold walk_smbios_structures.
  rewrite (proj2 (Z.eqb_neq n 0)), (proj2 (Z.ltb_ge _ _)) by lia. cbn [orb].
  destruct (Hm addr n) as [Hlen _]. rewrite Hr in *. replace (Z.max 0 n) with n in Hlen by lia.
  pose proof (@walk_loop_spec Empty_set l [] tail (S (Z.to_nat n)) (system_info_default, []) Hl Ht) as Hw.
  cbn [app fst snd] in Hw. rewrite Hlen in Hw. apply Hw. rewrite len_nil. lia.
Qed.

(** Memory with some regions filled in. *)
Definition raw_of (regions : list (Z * list Z)) (a n : Z) : list Z :=
  take (Z.to_nat n) (default [] (snd <$> List.find (fun r => r.1 =? a) regions) ++ replicate (Z.to_nat n) 0).

Lemma raw_of_memory (regions : list (Z * list Z)) : Forall (fun r => Forall is_byte r.2) regions -> memory (raw_of regions).
Proof.
  intros Hr a n. unfold raw_of. split.
  - unfold len. rewrite length_take, length_app, length_replicate. lia.
  - apply Forall_take, Forall_app. split; [|apply Forall_replicate; unfold is_byte; lia].
    destruct (List.find _ _) as [r|] eqn:Ef; [|constructor]. apply List.find_some in Ef as [Hin _].
    rewrite Forall_forall in Hr. apply Hr. by apply list_elem_of_In.
Qed.

(** The same by computation. *)
Lemma raw_of_bytes (regions : list (Z * list Z)) :
  forallb (fun r => forallb (fun b => (0 <=? b) && (b <=? 255)) r.2) regions = true -> memory (raw_of regions).
Proof.
  intros Hf. apply raw_of_memory. rewrite Forall_forall. intros r Hr. rewrite list_elem_of_In in Hr.
  rewrite forallb_forall in Hf. apply Hf in Hr. rewrite forallb_forall in Hr.
  apply Forall_forall. intros b Hb. rewrite list_elem_of_In in Hb. apply Hr in Hb. unfold is_byte. lia.
Qed.

Definition demo_structures : list Structure :=
  [mkStruct 1 ([0; 1] ++ [1; 2; 0; 3]) [lit "QEMU"; lit "Standard PC"; lit "serial-7"];
   mkStruct 11 ([0; 2] ++ [2]) [lit "lamboot.fleet-id=lab"; lit "lamboot.vmid=100"]].

Definition demo_table : list Z := flat_map structure_bytes demo_structures ++ [127; 4; 0; 0; 0; 0].
Definition demo_entry_point : list Z :=
  lit "_SM3_" ++ [0; 24; 3; 0; 0; 1; 0] ++ to_le 4 (len demo_table) ++ to_le 8 0x2000.
Definition demo_memory : Z -> Z -> list Z := raw_of [(0x1000, demo_entry_point); (0x2000, demo_table)].

Lemma demo_memory_ok : memory demo_memory.
Proof. apply raw_of_bytes. vm_compute. reflexivity. Qed.

Lemma read_smbios_correct_witness :
  @read_smbios Empty_set demo_memory [(ACPI2_GUID, 0); (SMBIOS3_GUID, 0x1000)] =
  Ok (mkSys (Some (lit "QEMU")) (Some (lit "Standard PC")) None (Some (lit "serial-7")) None,
      [lit "lamboot.fleet-id=lab"; lit "lamboot.vmid=100"]).
Proof.
  apply (proj2 (read_smbios_correct demo_memory [(ACPI2_GUID, 0); (SMBIOS3_GUID, 0x1000)] demo_memory_ok)
    0x1000 0x2000 (len demo_table) demo_structures [127; 4; 0; 0; 0; 0]).
  - reflexivity.
  - vm_compute; reflexivity.
  - vm_compute; reflexivity.
  - vm_compute. split; [reflexivity|discriminate].
  - repeat constructor; try discriminate; vm_compute; discriminate.
  - right. eauto.
Defined.

(** A string that is not UTF-8 is left out of the list, and every later index
    of the structure then names the wrong string: here the serial number, the
    third string, is reported as the product and the serial number is missing. *)
Theorem bad_string_shifts :
  let table := ([1; 8; 0; 0; 1; 2; 0; 3] ++ lit "QEMU" ++ [0; 0xFF; 0] ++ lit "serial-7" ++ [0; 0] ++ [127; 4; 0; 0; 0; 0]) in
  @walk_loop Empty_set table (len table) (S (length table)) 0 system_info_default [] =
  Ok (mkSys (Some (lit "QEMU")) (Some (lit "serial-7")) None None None, []).
Proof. vm_compute. reflexivity. Qed.

(** The workarounds are on exactly for the listed board. *)
Theorem quirks_detect_iff (si : SystemInfo) :
  conout_fat_coupling (quirks_detect si) = true <->
  exists m r, si_manufacturer si = Some m /\ si_product_name si = Some (lit "G10AJ" ++ r) /\
    to_ascii_lowercase m = lit "asustek computer inc.".
Proof.
  unfold quirks_detect. destruct (si_manufacturer si) as [m|]; [|naive_solver].
  destruct (si_product_name si) as [pr|]; [|naive_solver]. cbn [KNOWN_QUIRKY_SYSTEMS List.find kq_manufacturer kq_product_starts_with].
  unfold eq_ignore_ascii_case. change (to_ascii_lowercase (lit "ASUSTeK COMPUTER INC.")) with (lit "asustek computer inc.").
  destruct (starts_with (lit "G10AJ") pr) eqn:Es.
  - apply starts_with_spec in Es as [r ->]. rewrite andb_true_r. case_bool_decide as Hm; simpl; naive_solver.
  - rewrite andb_false_r. split; [done|]. intros (m' & r & _ & Hp & _).
    assert (starts_with (lit "G10AJ") pr = true) as Ht by (apply starts_with_spec; exists r; congruence). by rewrite Es in Ht.
Qed.
