(* ===== verification/Acpi.v ===== *)
(** * IOMMU tables (acpi.rs)

    The walk from the RSDP over XSDT or RSDT to the DMAR and IVRS tables.  Memory
    is read through [raw addr n], what [from_raw_parts] gives; indexing panics
    where Rust does, and a loop that runs out of fuel counts as a panic. *)
From S2P Require Import Prelude Compare RustStr Utf8 VersionOrder BlsParse Smbios.
Local Open Scope Z_scope.

Definition MAX_ACPI_TABLE_LEN : Z := 1024 * 1024.

Record DeviceScope : Type := mkScope {
  sc_type : Z;
  sc_enumeration_id : Z;
  sc_start_bus : Z;
  sc_path : list (Z * Z)
}.

Record DrhdUnit : Type := mkDrhd {
  dr_segment : Z;
  dr_register_base : Z;
  dr_include_pci_all : bool;
  dr_device_scopes : list DeviceScope
}.

Record RmrrRegion : Type := mkRmrr {
  rm_base_address : Z;
  rm_limit_address : Z;
  rm_segment : Z;
  rm_device_scopes : list DeviceScope
}.

Record IommuInfo : Type := mkIommu {
  io_intel_vt_d : bool;
  io_amd_vi : bool;
  io_drhd_units : list DrhdUnit;
  io_rmrr_regions : list RmrrRegion
}.

Definition iommu_default : IommuInfo := mkIommu false false [] [].

Section acpi.
Context {E : Type}.

(** [uN::from_le_bytes([b[off], ..])] *)
Definition le_at (off n : Z) (b : list Z) : res E Z :=
  let? s := slice off (off + n) b in Ok (from_le s).

(** ** Device scopes *)
Fixpoint scope_path (count : nat) (p : Z) (data : list Z) : res E (list (Z * Z)) :=
  match count with
  | O => Ok []
  | S count' =>
      let? here := (if p + 1 <? len data then
                      let? d := index p data in
                      let? f := index (p + 1) data in
                      Ok [(d, f)]
                    else Ok []) in
      let? rest := scope_path count' (p + 2) data in
      Ok (here ++ rest)
  end.

Fixpoint scopes_loop (fuel : nat) (offset : Z) (data : list Z) : res E (list DeviceScope) :=
  match fuel with
  | O => Panic
  | S fuel' =>
      if offset + 6 <=? len data then
        let? scope_type := index offset data in
        let? scope_length := index (offset + 1) data in
        if (scope_length <? 6) || (len data <? offset + scope_length) then Ok []
        else
          let? enumeration_id := index (offset + 4) data in
          let? start_bus := index (offset + 5) data in
          let? path := scope_path (Z.to_nat ((scope_length - 6) / 2)) (offset + 6) data in
          let? rest := scopes_loop fuel' (offset + scope_length) data in
          Ok (mkScope scope_type enumeration_id start_bus path :: rest)
      else Ok []
  end.

Definition parse_device_scopes (data : list Z) : res E (list DeviceScope) := scopes_loop (S (length data)) 0 data.

(** ** DMAR *)
Definition parse_drhd (data : list Z) : res E (option DrhdUnit) :=
  if len data <? 16 then Ok None
  else
    let? flags := index 4 data in
    let? segment := le_at 6 2 data in
    let? register_base := le_at 8 8 data in
    let? tail := slice 16 (len data) data in
    let? scopes := parse_device_scopes tail in
    Ok (Some (mkDrhd segment register_base (negb (Z.land flags 1 =? 0)) scopes)).

Definition parse_rmrr (data : list Z) : res E (option RmrrRegion) :=
  if len data <? 24 then Ok None
  else
    let? segment := le_at 6 2 data in
    let? base_address := le_at 8 8 data in
    let? limit_address := le_at 16 8 data in
    let? tail := slice 24 (len data) data in
    let? scopes := parse_device_scopes tail in
    Ok (Some (mkRmrr base_address limit_address segment scopes)).

Definition push_drhd (d : option DrhdUnit) (info : IommuInfo) : IommuInfo :=
  mkIommu (io_intel_vt_d info) (io_amd_vi info) (io_drhd_units info ++ option_list d) (io_rmrr_regions info).
Definition push_rmrr (r : option RmrrRegion) (info : IommuInfo) : IommuInfo :=
  mkIommu (io_intel_vt_d info) (io_amd_vi info) (io_drhd_units info) (io_rmrr_regions info ++ option_list r).

Fixpoint dmar_loop (fuel : nat) (offset : Z) (table : list Z) (info : IommuInfo) : res E IommuInfo :=
  match fuel with
  | O => Panic
  | S fuel' =>
      if offset + 4 <=? len table then
        let? struct_type := le_at offset 2 table in
        let? struct_length := le_at (offset + 2) 2 table in
        if (struct_length <? 4) || (len table <? offset + struct_length) then Ok info
        else
          let? data := slice offset (offset + struct_length) table in
          let? info :=
            (if struct_type =? 0 then let? d := parse_drhd data in Ok (push_drhd d info)
             else if struct_type =? 1 then let? r := parse_rmrr data in Ok (push_rmrr r info)
             else Ok info) in
          dmar_loop fuel' (offset + struct_length) table info
      else Ok info
  end.

(** The length field of a table, if it is plausible; then the table. *)
Definition bounded_table (raw : Z -> Z -> list Z) (addr prefix least : Z) : res E (option (list Z)) :=
  let? table_length := le_at 4 4 (raw addr prefix) in
  if (table_length <? least) || (MAX_ACPI_TABLE_LEN <? table_length) then Ok None
  else Ok (Some (raw addr table_length)).

Definition parse_dmar (raw : Z -> Z -> list Z) (table_ptr : Z) (info : IommuInfo) : res E IommuInfo :=
  let? t := bounded_table raw table_ptr 8 48 in
  match t with
  | None => Ok info
  | Some table =>
      let info := mkIommu true (io_amd_vi info) (io_drhd_units info) (io_rmrr_regions info) in
      let? _ := index 36 table in
      let? _ := index 37 table in
      dmar_loop (S (length table)) 48 table info
  end.

(** ** IVRS *)
Definition is_ivhd (block_type : Z) : bool := (block_type =? 0x10) || (block_type =? 0x11) || (block_type =? 0x40).

Fixpoint ivrs_loop (fuel : nat) (offset : Z) (table : list Z) (info : IommuInfo) : res E IommuInfo :=
  match fuel with
  | O => Panic
  | S fuel' =>
      if offset + 4 <=? len table then
        let? block_type := index offset table in
        let? block_length := le_at (offset + 2) 2 table in
        if (block_length <? 4) || (len table <? offset + block_length) then Ok info
        else
          let? info :=
            (if is_ivhd block_type && (24 <=? block_length) then
               let? segment := le_at (offset + 8) 2 table in
               let? base := le_at (offset + 16) 8 table in
               Ok (push_drhd (Some (mkDrhd segment base false [])) info)
             else Ok info) in
          ivrs_loop fuel' (offset + block_length) table info
      else Ok info
  end.

Definition parse_ivrs (raw : Z -> Z -> list Z) (table_ptr : Z) (info : IommuInfo) : res E IommuInfo :=
  let? t := bounded_table raw table_ptr 8 48 in
  match t with
  | None => Ok info
  | Some table =>
      ivrs_loop (S (length table)) 48 table (mkIommu (io_intel_vt_d info) true (io_drhd_units info) (io_rmrr_regions info))
  end.

(** ** The root tables *)
(** [for i in 0..entry_count], entries of [w] bytes. *)
Fixpoint sdt_entries (count : nat) (offset w : Z) (table : list Z) : res E (list Z) :=
  match count with
  | O => Ok []
  | S count' =>
      if len table <? offset + w then Ok []
      else
        let? addr := le_at offset w table in
        let? rest := sdt_entries count' (offset + w) w table in
        Ok (if addr =? 0 then rest else addr :: rest)
  end.

Definition parse_sdt (raw : Z -> Z -> list Z) (signature : list Z) (w ptr : Z) : res E (option (list Z)) :=
  let? sig := slice 0 4 (raw ptr 36) in
  if negb (bool_decide (sig = signature)) then Ok None
  else
    let? t := bounded_table raw ptr 36 36 in
    match t with
    | None => Ok None
    | Some table =>
        let? entries := sdt_entries (Z.to_nat ((len table - 36) / w)) 36 w table in Ok (Some entries)
    end.

Definition parse_xsdt (raw : Z -> Z -> list Z) (ptr : Z) : res E (option (list Z)) := parse_sdt raw (lit "XSDT") 8 ptr.
Definition parse_rsdt (raw : Z -> Z -> list Z) (ptr : Z) : res E (option (list Z)) := parse_sdt raw (lit "RSDT") 4 ptr.

Definition parse_rsdp (raw : Z -> Z -> list Z) (rsdp_addr : Z) : res E (option (list Z)) :=
  let rsdp := raw rsdp_addr 36 in
  if len rsdp <? 20 then Ok None
  else
    let? sig := slice 0 8 rsdp in
    if negb (bool_decide (sig = lit "RSD PTR ")) then Ok None
    else
      let? revision := index 15 rsdp in
      let? xsdt_addr := (if (2 <=? revision) && (36 <=? len rsdp) then le_at 24 8 rsdp else Ok 0) in
      if negb (xsdt_addr =? 0) then parse_xsdt raw xsdt_addr
      else
        let? rsdt_addr := le_at 16 4 rsdp in
        if negb (rsdt_addr =? 0) then parse_rsdt raw rsdt_addr else Ok None.

(** ACPI 2.0 is preferred, else the last ACPI 1.0 entry. *)
Fixpoint find_acpi_rsdp (acpi1 : option Z) (entries : list (config_guid * Z)) : option Z :=
  match entries with
  | [] => acpi1
  | (g, a) :: rest =>
      if bool_decide (g = ACPI2_GUID) then Some a
      else find_acpi_rsdp (if bool_decide (g = ACPI_GUID) then Some a else acpi1) rest
  end.

Fixpoint parse_tables (raw : Z -> Z -> list Z) (tables : list Z) (info : IommuInfo) : res E IommuInfo :=
  match tables with
  | [] => Ok info
  | t :: rest =>
      let sig := raw t 4 in
      let? info :=
        (if bool_decide (sig = lit "DMAR") then parse_dmar raw t info
         else if bool_decide (sig = lit "IVRS") then parse_ivrs raw t info
         else Ok info) in
      parse_tables raw rest info
  end.

Definition parse_iommu_tables (raw : Z -> Z -> list Z) (entries : list (config_guid * Z)) : res E IommuInfo :=
  match find_acpi_rsdp None entries with
  | None => Ok iommu_default
  | Some rsdp =>
      let? sdt := parse_rsdp raw rsdp in
      match sdt with
      | None => Ok iommu_default
      | Some tables => parse_tables raw tables iommu_default
      end
  end.
End acpi.

(** ** On arbitrary bytes *)
Section total.
Context {E : Type}.

Lemma safe_le_at (off n : Z) (b : list Z) : 0 <= off -> 0 <= n -> off + n <= len b -> safe (fun _ => True) (@le_at E off n b).
Proof. intros ???. unfold le_at. by rewrite slice_ok by lia. Qed.

(** A field that is in range. *)
Ltac field := eapply safe_bind; [first [apply safe_index; lia|apply safe_le_at; lia]|intros ? _].

Lemma scope_path_total (count : nat) (p : Z) (data : list Z) : 0 <= p -> safe (fun _ => True) (@scope_path E count p data).
Proof.
  revert p. induction count as [|count IH]; intros p Hp; [done|]. cbn [scope_path].
  eapply (safe_bind (fun _ => True)); [destruct (Z.ltb_spec (p + 1) (len data)); [do 2 field; done|done]|intros ? _].
  eapply safe_bind; [apply IH; lia|done].
Qed.

Lemma scopes_loop_total (fuel : nat) (offset : Z) (data : list Z) :
  0 <= offset -> Z.max 0 (len data - offset) < Z.of_nat fuel -> safe (fun _ => True) (@scopes_loop E fuel offset data).
Proof.
  revert offset. induction fuel as [|fuel IH]; intros offset Ho Hf; [lia|]. cbn [scopes_loop].
  destruct (Z.leb_spec (offset + 6) (len data)); [|done]. do 2 field.
  destruct (Z.ltb_spec a0 6); [done|]. destruct (Z.ltb_spec (len data) (offset + a0)); [done|]. cbn [orb]. do 2 field.
  eapply safe_bind; [apply scope_path_total; lia|intros path _]. eapply safe_bind; [apply IH; lia|done].
Qed.

Lemma parse_device_scopes_total (data : list Z) : safe (fun _ => True) (@parse_device_scopes E data).
Proof. apply scopes_loop_total; [lia|]. unfold len. lia. Qed.

Lemma parse_drhd_total (data : list Z) : safe (fun _ => True) (@parse_drhd E data).
Proof.
  unfold parse_drhd. destruct (Z.ltb_spec (len data) 16); [done|]. do 3 field. rewrite slice_ok by lia. cbn [res_bind].
  eapply safe_bind; [apply parse_device_scopes_total|done].
Qed.

Lemma parse_rmrr_total (data : list Z) : safe (fun _ => True) (@parse_rmrr E data).
Proof.
  unfold parse_rmrr. destruct (Z.ltb_spec (len data) 24); [done|]. do 3 field. rewrite slice_ok by lia. cbn [res_bind].
  eapply safe_bind; [apply parse_device_scopes_total|done].
Qed.

Lemma dmar_loop_total (fuel : nat) (offset : Z) (table : list Z) (info : IommuInfo) :
  0 <= offset -> Z.max 0 (len table - offset) < Z.of_nat fuel -> safe (fun _ => True) (@dmar_loop E fuel offset table info).
Proof.
  revert offset info. induction fuel as [|fuel IH]; intros offset info Ho Hf; [lia|]. cbn [dmar_loop].
  destruct (Z.leb_spec (offset + 4) (len table)); [|done]. do 2 field.
  destruct (Z.ltb_spec a0 4); [done|]. destruct (Z.ltb_spec (len table) (offset + a0)); [done|]. cbn [orb].
  rewrite slice_ok by lia. cbn [res_bind]. eapply (safe_bind (fun _ => True)); [|intros info' _; apply IH; lia].
  destruct (a =? 0); [eapply safe_bind; [apply parse_drhd_total|done]|].
  destruct (a =? 1); [eapply safe_bind; [apply parse_rmrr_total|done]|done].
Qed.

Lemma ivrs_loop_total (fuel : nat) (offset : Z) (table : list Z) (info : IommuInfo) :
  0 <= offset -> Z.max 0 (len table - offset) < Z.of_nat fuel -> safe (fun _ => True) (@ivrs_loop E fuel offset table info).
Proof.
  revert offset info. induction fuel as [|fuel IH]; intros offset info Ho Hf; [lia|]. cbn [ivrs_loop].
  destruct (Z.leb_spec (offset + 4) (len table)); [|done]. do 2 field.
  destruct (Z.ltb_spec a0 4); [done|]. destruct (Z.ltb_spec (len table) (offset + a0)); [done|]. cbn [orb].
  eapply (safe_bind (fun _ => True)); [|intros info' _; apply IH; lia].
  destruct (is_ivhd a); [|done]. destruct (Z.leb_spec 24 a0); [|done]. cbn [andb]. do 2 field. done.
Qed.

Context (raw : Z -> Z -> list Z) (Hm : memory raw).

Lemma bounded_table_total (addr prefix least : Z) :
  8 <= prefix -> 0 <= least ->
  safe (fun t => forall table, t = Some table -> least <= len table <= MAX_ACPI_TABLE_LEN) (@bounded_table E raw addr prefix least).
Proof.
  intros Hp Hl. unfold bounded_table. destruct (Hm addr prefix) as [Hlen _]. field.
  destruct (Z.ltb_spec a least); [done|]. destruct (Z.ltb_spec MAX_ACPI_TABLE_LEN a); [done|]. simpl. intros table [= <-].
  destruct (Hm addr a) as [-> _]. lia.
Qed.

Lemma parse_dmar_total (ptr : Z) (info : IommuInfo) : safe (fun _ => True) (@parse_dmar E raw ptr info).
Proof.
  unfold parse_dmar. eapply safe_bind; [apply bounded_table_total; lia|]. intros [table|] Ht; [|done].
  specialize (Ht table eq_refl). do 2 field. apply dmar_loop_total; unfold len; lia.
Qed.

Lemma parse_ivrs_total (ptr : Z) (info : IommuInfo) : safe (fun _ => True) (@parse_ivrs E raw ptr info).
Proof.
  unfold parse_ivrs. eapply safe_bind; [apply bounded_table_total; lia|]. intros [table|] Ht; [|done].
  apply ivrs_loop_total; unfold len; lia.
Qed.

Lemma sdt_entries_total (count : nat) (offset w : Z) (table : list Z) :
  0 <= offset -> 0 <= w -> safe (fun _ => True) (@sdt_entries E count offset w table).
Proof.
  intros Ho Hw. revert offset Ho. induction count as [|count IH]; intros offset Ho; [done|]. cbn [sdt_entries].
  destruct (Z.ltb_spec (len table) (offset + w)); [done|]. field. eapply safe_bind; [apply IH; lia|done].
Qed.

Lemma parse_sdt_total (sig : list Z) (w ptr : Z) : 0 <= w -> safe (fun _ => True) (@parse_sdt E raw sig w ptr).
Proof.
  intros Hw. unfold parse_sdt. destruct (Hm ptr 36) as [Hl _]. rewrite slice_ok by lia. cbn [res_bind].
  destruct (negb _); [done|]. eapply safe_bind; [apply bounded_table_total; lia|]. intros [table|] _; [|done].
  eapply safe_bind; [apply sdt_entries_total; lia|done].
Qed.

Lemma parse_rsdp_total (addr : Z) : safe (fun _ => True) (@parse_rsdp E raw addr).
Proof.
  unfold parse_rsdp. destruct (Hm addr 36) as [Hl _]. destruct (_ <? 20); [done|]. rewrite slice_ok by lia. cbn [res_bind].
  destruct (negb _); [done|]. field.
  eapply (safe_bind (fun _ => True)); [destruct (_ && _); [apply safe_le_at; lia|done]|intros x _].
  destruct (negb _); [by apply parse_sdt_total|]. field. destruct (negb _); [by apply parse_sdt_total|done].
Qed.

Lemma parse_tables_total (tables : list Z) (info : IommuInfo) : safe (fun _ => True) (@parse_tables E raw tables info).
Proof.
  revert info. induction tables as [|t tables IH]; intros info; [done|]. cbn [parse_tables].
  eapply (safe_bind (fun _ => True)); [|intros info' _; apply IH].
  destruct (bool_decide _); [apply parse_dmar_total|]. destruct (bool_decide _); [apply parse_ivrs_total|done].
Qed.

Lemma parse_iommu_total (entries : list (config_guid * Z)) : safe (fun _ => True) (@parse_iommu_tables E raw entries).
Proof.
  unfold parse_iommu_tables. destruct (find_acpi_rsdp None entries) as [rsdp|]; [|done].
  eapply safe_bind; [apply parse_rsdp_total|]. intros [tables|] _; [apply parse_tables_total|done].
Qed.
End total.

(** ** On a well-formed DMAR table *)
Definition pair_bytes (df : Z * Z) : list Z := [df.1; df.2].

Definition scope_bytes (s : DeviceScope) : list Z :=
  [sc_type s; 6 + 2 * len (sc_path s); 0; 0; sc_enumeration_id s; sc_start_bus s] ++ flat_map pair_bytes (sc_path s).

Definition scope_ok (s : DeviceScope) : Prop := 6 + 2 * len (sc_path s) <= 255.

Definition scopes_bytes (l : list DeviceScope) : list Z := flat_map scope_bytes l.

Inductive DmarStruct : Type :=
  | SDrhd (d : DrhdUnit)
  | SRmrr (r : RmrrRegion)
  | SOther (struct_type : Z) (body : list Z).

Definition dmar_header (struct_type length : Z) : list Z := to_le 2 struct_type ++ to_le 2 length.

Definition dmar_struct_bytes (s : DmarStruct) : list Z :=
  match s with
  | SDrhd d =>
      dmar_header 0 (16 + len (scopes_bytes (dr_device_scopes d)))
      ++ [if dr_include_pci_all d then 1 else 0; 0] ++ to_le 2 (dr_segment d) ++ to_le 8 (dr_register_base d)
      ++ scopes_bytes (dr_device_scopes d)
  | SRmrr r =>
      dmar_header 1 (24 + len (scopes_bytes (rm_device_scopes r)))
      ++ [0; 0] ++ to_le 2 (rm_segment r) ++ to_le 8 (rm_base_address r) ++ to_le 8 (rm_limit_address r)
      ++ scopes_bytes (rm_device_scopes r)
  | SOther t body => dmar_header t (4 + len body) ++ body
  end.

Definition dmar_struct_ok (s : DmarStruct) : Prop :=
  match s with
  | SDrhd d =>
      0 <= dr_segment d <= u16_max /\ 0 <= dr_register_base d <= u64_max /\ Forall scope_ok (dr_device_scopes d) /\
      16 + len (scopes_bytes (dr_device_scopes d)) <= u16_max
  | SRmrr r =>
      0 <= rm_segment r <= u16_max /\ 0 <= rm_base_address r <= u64_max /\ 0 <= rm_limit_address r <= u64_max /\
      Forall scope_ok (rm_device_scopes r) /\ 24 + len (scopes_bytes (rm_device_scopes r)) <= u16_max
  | SOther t body => 2 <= t <= u16_max /\ 4 + len body <= u16_max
  end.

(** What the table says. *)
Definition add_struct (info : IommuInfo) (s : DmarStruct) : IommuInfo :=
  match s with
  | SDrhd d => push_drhd (Some d) info
  | SRmrr r => push_rmrr (Some r) info
  | SOther _ _ => info
  end.

Section well_formed.
Context {E : Type}.

Lemma slice_app_r {A : Type} (pre l : list A) (lo hi : Z) :
  0 <= lo -> @slice E A (len pre + lo) (len pre + hi) (pre ++ l) = slice lo hi l.
Proof.
  intros Hlo. unfold slice, in_range, sub_list. pose proof (len_nonneg pre). rewrite len_app.
  replace (0 <=? len pre + lo) with (0 <=? lo) by (rewrite !(proj2 (Z.leb_le _ _)) by lia; done).
  replace (len pre + lo <=? len pre + hi) with (lo <=? hi) by (destruct (Z.leb_spec lo hi), (Z.leb_spec (len pre + lo) (len pre + hi)); lia).
  replace (len pre + hi <=? len pre + len l) with (hi <=? len l)
    by (destruct (Z.leb_spec hi (len l)), (Z.leb_spec (len pre + hi) (len pre + len l)); lia).
  replace (len pre + hi - (len pre + lo)) with (hi - lo) by lia.
  rewrite drop_app_ge by (unfold len; lia). by replace (Z.to_nat (len pre + lo) - length pre)%nat with (Z.to_nat lo) by (unfold len; lia).
Qed.

Lemma slice_prefix {A : Type} (l rest : list A) : @slice E A 0 (len l) (l ++ rest) = Ok l.
Proof.
  rewrite slice_ok by (rewrite ?len_app; pose proof (len_nonneg l); pose proof (len_nonneg rest); lia). f_equal.
  unfold sub_list, len. rewrite drop_0. replace (Z.to_nat (Z.of_nat (length l) - 0)) with (length l) by lia. apply take_app_length.
Qed.

Lemma slice_app_l {A : Type} (l rest : list A) (lo hi : Z) :
  0 <= lo <= hi -> hi <= len l -> @slice E A lo hi (l ++ rest) = slice lo hi l.
Proof.
  intros Hlo Hhi. rewrite !slice_ok by (rewrite ?len_app; pose proof (len_nonneg rest); lia). f_equal.
  unfold sub_list. rewrite drop_app_le by (unfold len in Hhi; lia). apply take_app_le. rewrite length_drop. unfold len in Hhi. lia.
Qed.

Lemma le_at_app_r (pre l : list Z) (k n : Z) : 0 <= k -> @le_at E (len pre + k) n (pre ++ l) = le_at k n l.
Proof. intros Hk. unfold le_at. rewrite <- Z.add_assoc. by rewrite slice_app_r. Qed.

Lemma le_at_here (n : nat) (z : Z) (rest : list Z) :
  0 <= z < 256 ^ Z.of_nat n -> @le_at E 0 (Z.of_nat n) (to_le n z ++ rest) = Ok z.
Proof.
  intros Hz. unfold le_at. replace (0 + Z.of_nat n) with (len (to_le n z)) by (rewrite len_to_le; lia).
  rewrite slice_prefix. simpl. by rewrite from_to_le.
Qed.

Lemma scope_path_spec (path : list (Z * Z)) (pre rest : list Z) :
  @scope_path E (length path) (len pre) (pre ++ flat_map pair_bytes path ++ rest) = Ok path.
Proof.
  revert pre. induction path as [|[d f] path IH]; intros pre; [done|]. cbn [length scope_path flat_map pair_bytes fst snd app].
  rewrite (proj2 (Z.ltb_lt _ _))
    by (autorewrite with lamlen; pose proof (len_nonneg rest); pose proof (len_nonneg (flat_map pair_bytes path)); lia).
  rewrite index_at. cbn [res_bind]. rewrite index_app_r by lia. change (@index E Z 1 (d :: f :: ?l)) with (@Ok E Z f). cbn [res_bind].
  specialize (IH (pre ++ [d; f])). rewrite <- app_assoc in IH. cbn [app] in IH.
  replace (len pre + 2) with (len (pre ++ [d; f])) by (autorewrite with lamlen; lia). by rewrite IH.
Qed.

Lemma len_pairs (path : list (Z * Z)) : len (flat_map pair_bytes path) = 2 * len path.
Proof. induction path as [|df path IH]; [done|]. cbn [flat_map]. unfold pair_bytes at 1. autorewrite with lamlen. lia. Qed.

Lemma len_scope (s : DeviceScope) : len (scope_bytes s) = 6 + 2 * len (sc_path s).
Proof. unfold scope_bytes. rewrite len_app, len_pairs. done. Qed.

Lemma scopes_loop_spec (l : list DeviceScope) (pre : list Z) (fuel : nat) :
  (length l < fuel)%nat -> @scopes_loop E fuel (len pre) (pre ++ scopes_bytes l) = Ok l.
Proof.
  revert pre fuel. induction l as [|s l IH]; intros pre fuel Hf; (destruct fuel as [|fuel]; [simpl in Hf; lia|]).
  - cbn [scopes_loop scopes_bytes flat_map]. rewrite app_nil_r. by rewrite (proj2 (Z.leb_gt _ _)) by lia.
  - change (scopes_bytes (s :: l)) with (scope_bytes s ++ scopes_bytes l). cbn [scopes_loop].
    pose proof (len_nonneg (scopes_bytes l)). pose proof (len_scope s) as Hls. pose proof (len_nonneg (sc_path s)).
    assert (len (pre ++ scope_bytes s ++ scopes_bytes l) = len pre + (6 + 2 * len (sc_path s)) + len (scopes_bytes l)) as Hlen
      by (rewrite !len_app, Hls; lia).
    rewrite (proj2 (Z.leb_le _ _)) by lia.
    assert (forall k, 0 <= k -> @index E Z (len pre + k) (pre ++ scope_bytes s ++ scopes_bytes l) =
      index k (scope_bytes s ++ scopes_bytes l)) as Hi by (intros; by apply index_app_r).
    pose proof (Hi 0 ltac:(lia)) as Hi0. rewrite Z.add_0_r in Hi0. rewrite Hi0, !Hi by lia. clear Hi Hi0.
    set (rest := scopes_bytes l) in *.
    change (@index E Z 0 (scope_bytes s ++ rest)) with (@Ok E Z (sc_type s)).
    change (@index E Z 1 (scope_bytes s ++ rest)) with (@Ok E Z (6 + 2 * len (sc_path s))).
    change (@index E Z 4 (scope_bytes s ++ rest)) with (@Ok E Z (sc_enumeration_id s)).
    change (@index E Z 5 (scope_bytes s ++ rest)) with (@Ok E Z (sc_start_bus s)). cbn [res_bind].
    rewrite (proj2 (Z.ltb_ge _ 6)), (proj2 (Z.ltb_ge _ _)) by lia. cbn [orb].
    replace (Z.to_nat ((6 + 2 * len (sc_path s) - 6) / 2)) with (length (sc_path s))
      by (replace (6 + 2 * len (sc_path s) - 6) with (len (sc_path s) * 2) by lia; rewrite Z.div_mul by lia; unfold len; lia).
    set (head := [sc_type s; 6 + 2 * len (sc_path s); 0; 0; sc_enumeration_id s; sc_start_bus s]).
    assert (pre ++ scope_bytes s ++ rest = (pre ++ head) ++ flat_map pair_bytes (sc_path s) ++ rest) as Et
      by (unfold scope_bytes, head; by rewrite <- !app_assoc).
    rewrite Et at 1. replace (len pre + 6) with (len (pre ++ head)) by (rewrite len_app; done).
    rewrite scope_path_spec. cbn [res_bind].
    specialize (IH (pre ++ scope_bytes s) fuel). rewrite <- app_assoc in IH. fold rest in IH.
    replace (len pre + (6 + 2 * len (sc_path s))) with (len (pre ++ scope_bytes s)) by (rewrite len_app, Hls; lia).
    rewrite IH by (simpl in Hf; lia). cbn [res_bind]. by destruct s.
Qed.

Lemma parse_device_scopes_spec (l : list DeviceScope) : @parse_device_scopes E (scopes_bytes l) = Ok l.
Proof.
  unfold parse_device_scopes. apply (scopes_loop_spec l [] _).
  induction l as [|s l IH]; [simpl; lia|]. change (scopes_bytes (s :: l)) with (scope_bytes s ++ scopes_bytes l).
  rewrite length_app. pose proof (len_scope s) as Hl. pose proof (len_nonneg (sc_path s)). unfold len in Hl. simpl. lia.
Qed.

(** A field of a structure, given what is before it. *)
Lemma le_at_mid (pre rest : list Z) (off : Z) (n : nat) (z : Z) :
  len pre = off -> 0 <= z < 256 ^ Z.of_nat n -> @le_at E off (Z.of_nat n) (pre ++ to_le n z ++ rest) = Ok z.
Proof. intros <- Hz. pose proof (le_at_app_r pre (to_le n z ++ rest) 0 (Z.of_nat n)) as Ha. rewrite Z.add_0_r in Ha. by rewrite Ha, le_at_here by lia. Qed.

Lemma slice_tail (pre l : list Z) (off n : Z) : len pre = off -> off + len l = n -> @slice E Z off n (pre ++ l) = Ok l.
Proof.
  intros <- <-. pose proof (slice_app_r pre l 0 (len l)) as Hs. rewrite Z.add_0_r in Hs. rewrite Hs by lia.
  pose proof (slice_prefix l []) as Hp. by rewrite app_nil_r in Hp.
Qed.

Lemma parse_drhd_spec (d : DrhdUnit) : dmar_struct_ok (SDrhd d) -> @parse_drhd E (dmar_struct_bytes (SDrhd d)) = Ok (Some d).
Proof.
  intros (Hs & Hb & _ & Hl). unfold u16_max, u64_max in *. cbn [dmar_struct_bytes].
  set (L := 16 + len (scopes_bytes (dr_device_scopes d))) in *. set (fl := if dr_include_pci_all d then 1 else 0).
  set (sc := scopes_bytes (dr_device_scopes d)) in *.
  set (data := dmar_header 0 L ++ [fl; 0] ++ to_le 2 (dr_segment d) ++ to_le 8 (dr_register_base d) ++ sc).
  assert (len data = L) as Hlen by (unfold data, dmar_header; rewrite !len_app, !len_to_le; unfold L; change (len [fl; 0]) with 2; lia).
  pose proof (len_nonneg sc). unfold parse_drhd. rewrite Hlen, (proj2 (Z.ltb_ge _ _)) by lia.
  change (@index E Z 4 data) with (@Ok E Z fl). cbn [res_bind].
  assert (@le_at E 6 2 data = Ok (dr_segment d)) as ->.
  { pose proof (le_at_mid (dmar_header 0 L ++ [fl; 0]) (to_le 8 (dr_register_base d) ++ sc) 6 2 (dr_segment d)) as Hm.
    rewrite <- app_assoc in Hm. apply Hm; [done|]. change (256 ^ Z.of_nat 2) with 65536. lia. }
  assert (@le_at E 8 8 data = Ok (dr_register_base d)) as ->.
  { pose proof (le_at_mid (dmar_header 0 L ++ [fl; 0] ++ to_le 2 (dr_segment d)) sc 8 8 (dr_register_base d)) as Hm.
    rewrite <- !app_assoc in Hm. apply Hm; [done|]. change (256 ^ Z.of_nat 8) with 18446744073709551616. lia. }
  assert (@slice E Z 16 L data = Ok sc) as ->.
  { pose proof (slice_tail (dmar_header 0 L ++ [fl; 0] ++ to_le 2 (dr_segment d) ++ to_le 8 (dr_register_base d)) sc 16 L) as Hm.
    rewrite <- !app_assoc in Hm. apply Hm; done. }
  cbn [res_bind]. unfold sc. rewrite parse_device_scopes_spec. cbn [res_bind]. unfold fl. by destruct d as [? ? []].
Qed.

Lemma parse_rmrr_spec (r : RmrrRegion) : dmar_struct_ok (SRmrr r) -> @parse_rmrr E (dmar_struct_bytes (SRmrr r)) = Ok (Some r).
Proof.
  intros (Hs & Hb & Hli & _ & Hl). unfold u16_max, u64_max in *. cbn [dmar_struct_bytes].
  set (L := 24 + len (scopes_bytes (rm_device_scopes r))) in *. set (sc := scopes_bytes (rm_device_scopes r)) in *.
  set (data := dmar_header 1 L ++ [0; 0] ++ to_le 2 (rm_segment r) ++ to_le 8 (rm_base_address r) ++ to_le 8 (rm_limit_address r) ++ sc).
  assert (len data = L) as Hlen by (unfold data, dmar_header; rewrite !len_app, !len_to_le; unfold L; change (len [0; 0]) with 2; lia).
  pose proof (len_nonneg sc). unfold parse_rmrr. rewrite Hlen, (proj2 (Z.ltb_ge _ _)) by lia.
  assert (@le_at E 6 2 data = Ok (rm_segment r)) as ->.
  { pose proof (le_at_mid (dmar_header 1 L ++ [0; 0]) (to_le 8 (rm_base_address r) ++ to_le 8 (rm_limit_address r) ++ sc) 6 2 (rm_segment r)) as Hm.
    rewrite <- app_assoc in Hm. apply Hm; [done|]. change (256 ^ Z.of_nat 2) with 65536. lia. }
  assert (@le_at E 8 8 data = Ok (rm_base_address r)) as ->.
  { pose proof (le_at_mid (dmar_header 1 L ++ [0; 0] ++ to_le 2 (rm_segment r)) (to_le 8 (rm_limit_address r) ++ sc) 8 8 (rm_base_address r)) as Hm.
    rewrite <- !app_assoc in Hm. apply Hm; [done|]. change (256 ^ Z.of_nat 8) with 18446744073709551616. lia. }
  assert (@le_at E 16 8 data = Ok (rm_limit_address r)) as ->.
  { pose proof (le_at_mid (dmar_header 1 L ++ [0; 0] ++ to_le 2 (rm_segment r) ++ to_le 8 (rm_base_address r)) sc 16 8 (rm_limit_address r)) as Hm.
    rewrite <- !app_assoc in Hm. apply Hm; [done|]. change (256 ^ Z.of_nat 8) with 18446744073709551616. lia. }
  assert (@slice E Z 24 L data = Ok sc) as ->.
  { pose proof (slice_tail (dmar_header 1 L ++ [0; 0] ++ to_le 2 (rm_segment r) ++ to_le 8 (rm_base_address r) ++ to_le 8 (rm_limit_address r)) sc 24 L) as Hm.
    rewrite <- !app_assoc in Hm. apply Hm; done. }
  cbn [res_bind]. unfold sc. rewrite parse_device_scopes_spec. cbn [res_bind]. by destruct r.
Qed.

Definition struct_type_of (s : DmarStruct) : Z := match s with SDrhd _ => 0 | SRmrr _ => 1 | SOther t _ => t end.

(** Every structure starts with its type and its length. *)
Lemma dmar_struct_head (s : DmarStruct) :
  dmar_struct_ok s ->
  (exists rest, dmar_struct_bytes s = dmar_header (struct_type_of s) (len (dmar_struct_bytes s)) ++ rest) /\
  4 <= len (dmar_struct_bytes s) <= u16_max /\ 0 <= struct_type_of s <= u16_max.
Proof.
  destruct s as [d|r|t body]; cbn [dmar_struct_ok struct_type_of]; intros Hok.
  - assert (len (dmar_struct_bytes (SDrhd d)) = 16 + len (scopes_bytes (dr_device_scopes d))) as ->
      by (cbn [dmar_struct_bytes]; unfold dmar_header; rewrite !len_app, !len_to_le, len_cons; unfold len at 1; simpl; lia).
    split; [by eexists|]. pose proof (len_nonneg (scopes_bytes (dr_device_scopes d))). unfold u16_max in *. lia.
  - assert (len (dmar_struct_bytes (SRmrr r)) = 24 + len (scopes_bytes (rm_device_scopes r))) as ->
      by (cbn [dmar_struct_bytes]; unfold dmar_header; rewrite !len_app, !len_to_le, len_cons; unfold len at 1; simpl; lia).
    split; [by eexists|]. pose proof (len_nonneg (scopes_bytes (rm_device_scopes r))). unfold u16_max in *. lia.
  - assert (len (dmar_struct_bytes (SOther t body)) = 4 + len body) as ->
      by (cbn [dmar_struct_bytes]; unfold dmar_header; rewrite !len_app, !len_to_le; lia).
    split; [by eexists|]. pose proof (len_nonneg body). unfold u16_max in *. lia.
Qed.

Lemma dmar_loop_spec (l : list DmarStruct) (pre : list Z) (fuel : nat) (info : IommuInfo) :
  Forall dmar_struct_ok l -> (length l < fuel)%nat ->
  @dmar_loop E fuel (len pre) (pre ++ flat_map dmar_struct_bytes l) info = Ok (fold_left add_struct l info).
Proof.
  intros Hl. revert pre fuel info. induction Hl as [|s l Hs _ IH]; intros pre fuel info Hf; (destruct fuel as [|fuel]; [simpl in Hf; lia|]).
  { cbn [dmar_loop flat_map fold_left]. rewrite app_nil_r. by rewrite (proj2 (Z.leb_gt _ _)) by lia. }
  cbn [flat_map]. destruct (dmar_struct_head s Hs) as ([rest Er] & Hlen & Hty). set (b := dmar_struct_bytes s) in *.
  set (tail := flat_map dmar_struct_bytes l). pose proof (len_nonneg tail). unfold u16_max in *.
  cbn [dmar_loop fold_left]. assert (len (pre ++ b ++ tail) = len pre + len b + len tail) as Hl by (rewrite !len_app; lia).
  rewrite (proj2 (Z.leb_le _ _)) by lia.
  assert (@le_at E (len pre) 2 (pre ++ b ++ tail) = Ok (struct_type_of s)) as ->.
  { rewrite Er. unfold dmar_header. rewrite <- !app_assoc. apply (le_at_mid pre _ (len pre) 2); [done|].
    change (256 ^ Z.of_nat 2) with 65536. lia. }
  assert (@le_at E (len pre + 2) 2 (pre ++ b ++ tail) = Ok (len b)) as ->.
  { rewrite Er at 1. unfold dmar_header. rewrite <- !app_assoc. rewrite (app_assoc pre). apply (le_at_mid _ _ (len pre + 2) 2).
    - rewrite len_app, len_to_le. lia.
    - change (256 ^ Z.of_nat 2) with 65536. lia. }
  cbn [res_bind]. rewrite (proj2 (Z.ltb_ge _ 4)), (proj2 (Z.ltb_ge _ _)) by lia. cbn [orb].
  assert (@slice E Z (len pre) (len pre + len b) (pre ++ b ++ tail) = Ok b) as ->.
  { pose proof (slice_app_r pre (b ++ tail) 0 (len b)) as Hsl. rewrite Z.add_0_r in Hsl. rewrite Hsl by lia. apply slice_prefix. }
  cbn [res_bind]. specialize (IH (pre ++ b) fuel (add_struct info s)). rewrite <- app_assoc, len_app in IH.
  rewrite <- IH by (simpl in Hf; lia). unfold b. clear IH Er.
  destruct s as [d|r|t body]; cbn [struct_type_of add_struct].
  - change (0 =? 0) with true. by rewrite parse_drhd_spec.
  - change (1 =? 0) with false. change (1 =? 1) with true. by rewrite parse_rmrr_spec.
  - destruct Hs as [Ht _]. by rewrite (proj2 (Z.eqb_neq t 0)), (proj2 (Z.eqb_neq t 1)) by lia.
Qed.
End well_formed.

(** ** Reading the tables *)
(** A DMAR table with a standard header. *)
Definition dmar_table (head : list Z) (l : list DmarStruct) : list Z := head ++ flat_map dmar_struct_bytes l.

Definition dmar_head_ok (head : list Z) (l : list DmarStruct) : Prop :=
  len head = 48 /\ sub_list 0 4 head = lit "DMAR" /\ from_le (sub_list 4 8 head) = len (dmar_table head l) /\
  len (dmar_table head l) <= MAX_ACPI_TABLE_LEN.

(** A range of memory and a part of it agree. *)
Definition coherent (raw : Z -> Z -> list Z) (addr n : Z) : Prop :=
  forall m, 0 <= m <= n -> raw addr m = take (Z.to_nat m) (raw addr n).

(** C28. Reading the IOMMU tables returns whatever the memory holds: no access is
    outside the bytes it was given, no loop runs for ever, and a table whose
    length field is implausible is left alone.  From a well-formed DMAR table
    it takes every remapping unit and every reserved region, in order, with
    their device scopes. *)
Theorem parse_iommu_correct (raw : Z -> Z -> list Z) (entries : list (config_guid * Z)) :
  memory raw ->
  @parse_iommu_tables Empty_set raw entries <> Panic /\
  (forall addr head l info,
     Forall dmar_struct_ok l -> dmar_head_ok head l ->
     raw addr (len (dmar_table head l)) = dmar_table head l -> coherent raw addr (len (dmar_table head l)) ->
     @parse_tables Empty_set raw [addr] info =
     Ok (fold_left add_struct l (mkIommu true (io_amd_vi info) (io_drhd_units info) (io_rmrr_regions info)))).
Proof.
  intros Hm. split; [by eapply safe_no_panic, parse_iommu_total|].
  intros addr head l info Hl (Hh & Hsig & Hlf & Hmax) Hraw Hco. set (table := dmar_table head l) in *.
  assert (48 <= len table) as H48 by (unfold table, dmar_table; rewrite len_app; pose proof (len_nonneg (flat_map dmar_struct_bytes l)); lia).
  assert (forall m, 0 <= m <= 48 -> raw addr m = sub_list 0 m head) as Hpre.
  { intros m Hmm. rewrite Hco, Hraw by lia. unfold table, dmar_table, sub_list. rewrite drop_0.
    replace (Z.to_nat (m - 0)) with (Z.to_nat m) by lia. apply take_app_le. unfold len in Hh. lia. }
  cbn [parse_tables]. rewrite (Hpre 4), Hsig by lia. rewrite bool_decide_eq_true_2 by done.
  unfold parse_dmar, bounded_table. rewrite (Hpre 8) by lia.
  assert (@le_at Empty_set 4 4 (sub_list 0 8 head) = Ok (len table)) as ->.
  { unfold le_at. rewrite slice_ok by (unfold len; rewrite ?length_sub_list by lia; lia). cbn [res_bind]. rewrite <- Hlf. do 2 f_equal.
    unfold sub_list. rewrite drop_0. change (Z.to_nat (4 + 4 - 4)) with 4%nat. change (Z.to_nat (8 - 0)) with (4 + 4)%nat.
    change (Z.to_nat (8 - 4)) with 4%nat. change (Z.to_nat 4) with 4%nat. rewrite <- firstn_skipn_comm. by rewrite take_take. }
  cbn [res_bind]. rewrite (proj2 (Z.ltb_ge _ 48)), (proj2 (Z.ltb_ge _ _)) by lia. cbn [orb res_bind]. rewrite Hraw.
  destruct (@index_in Empty_set Z 36 table) as [w ->]; [lia|]. destruct (@index_in Empty_set Z 37 table) as [f ->]; [lia|].
  cbn [res_bind]. replace 48 with (len head) by lia. unfold table, dmar_table. rewrite dmar_loop_spec; [done|done|].
  rewrite length_app. assert (length l <= length (flat_map dmar_struct_bytes l))%nat; [|lia].
  clear -Hl. induction Hl as [|s l Hs _ IH]; [done|]. cbn [flat_map length]. rewrite length_app.
  destruct (dmar_struct_head s Hs) as (_ & Hlen & _). unfold len in Hlen. lia.
Qed.

Lemma raw_of_coherent (regions : list (Z * list Z)) (a n : Z) : coherent (raw_of regions) a n.
Proof.
  intros m Hmn. unfold raw_of. rewrite take_take. replace (Z.to_nat m `min` Z.to_nat n)%nat with (Z.to_nat m) by lia.
  rewrite !take_app, !take_replicate. do 2 f_equal. lia.
Qed.

Definition demo_units : list DmarStruct :=
  [SDrhd (mkDrhd 0 0xFED90000 false [mkScope 1 0 0 [(2, 0)]]);
   SOther 3 [0; 0; 0; 0];
   SRmrr (mkRmrr 0x7B800000 0x7FFFFFFF 0 [mkScope 1 0 0 [(2, 0)]]);
   SDrhd (mkDrhd 0 0xFED91000 true [mkScope 3 2 0xF0 [(31, 0)]; mkScope 4 0 0 [(15, 0)]])].

Definition demo_head : list Z :=
  lit "DMAR" ++ to_le 4 (48 + len (flat_map dmar_struct_bytes demo_units)) ++ replicate 28 0 ++ [38; 1] ++ replicate 10 0.

Definition demo_acpi : list (Z * list Z) :=
  [(0x100, lit "RSD PTR " ++ replicate 7 0 ++ [2] ++ replicate 8 0 ++ to_le 8 0x200 ++ replicate 4 0);
   (0x200, lit "XSDT" ++ to_le 4 52 ++ replicate 28 0 ++ to_le 8 0x300 ++ to_le 8 0x400);
   (0x300, lit "FACP" ++ to_le 4 244);
   (0x400, dmar_table demo_head demo_units)].

Lemma demo_acpi_memory : memory (raw_of demo_acpi).
Proof. apply raw_of_bytes. vm_compute. reflexivity. Qed.

Lemma parse_iommu_correct_witness :
  @parse_tables Empty_set (raw_of demo_acpi) [0x400] iommu_default =
    Ok (fold_left add_struct demo_units (mkIommu true false [] [])) /\
  @parse_iommu_tables Empty_set (raw_of demo_acpi) [(ACPI_GUID, 7); (ACPI2_GUID, 0x100)] =
    Ok (fold_left add_struct demo_units (mkIommu true false [] [])).
Proof.
  split; [|vm_compute; reflexivity].
  apply (proj2 (parse_iommu_correct (raw_of demo_acpi) [] demo_acpi_memory) 0x400 demo_head demo_units iommu_default).
  - repeat constructor; vm_compute; discriminate.
  - split_and!; [reflexivity|reflexivity|vm_compute; reflexivity|vm_compute; discriminate].
  - vm_compute; reflexivity.
  - apply raw_of_coherent.
Defined.

(** ACPI 1.0: when the XSDT address is set but the table is not one, the RSDT
    is not tried. *)
Theorem bad_xsdt_hides_rsdt :
  let rsdp := lit "RSD PTR " ++ replicate 7 0 ++ [2] ++ to_le 4 0x500 ++ replicate 4 0 ++ to_le 8 0x200 ++ replicate 4 0 in
  @parse_rsdp Empty_set (raw_of [(0x100, rsdp); (0x500, lit "RSDT" ++ to_le 4 40 ++ replicate 28 0 ++ to_le 4 0x400)]) 0x100 = Ok None.
Proof. vm_compute. reflexivity. Qed.
