(* ===== verification/FatFs.v ===== *)
(** * The FAT backend and the writer of the ESP (fs_backend_fat.rs, fs_writer.rs, [decrement_boot_count] of bls.rs)

    The functions of the source over the SimpleFileSystem protocol of the
    firmware, which is the class [Sfs]; [SfsLaws] is what the UEFI
    specification (13.5, File Protocol) says of it, on a ghost view of the tree.
    Any call may fail, and a failed write may have written a part. *)
From S2P Require Import Prelude Compare RustStr VersionOrder BlsParse BootCount FsTypes SecureBoot SecurityOverride VolumeFs Nvram Health.
Local Open Scope Z_scope.

(** ** The firmware *)

(** Files are named by the UTF-16 strings passed to [Open]; every function of the
    source uses a handle right after opening it, so that the name stands for the
    handle.  A write is at a position, or at the end ([None], [SetPosition(u64::MAX)]). *)
Class Sfs (St : Type) := {
  sfs_name : list Z -> option (list Z);                          (* [CString16::try_from] *)
  sfs_ready : St -> res Status unit;                             (* the protocol opens *)
  sfs_root : St -> res Status unit;                              (* [OpenVolume] *)
  sfs_open : list Z -> bool -> St -> res Status FileKind;        (* existing; for writing? *)
  sfs_create : list Z -> bool -> St -> res Status FileKind * St; (* [CreateReadWrite]; a directory? *)
  sfs_info : list Z -> St -> res Status (Z * bool);              (* size, read only *)
  sfs_seek : list Z -> Z -> St -> res Status unit;
  sfs_read : list Z -> Z -> Z -> St -> res Status (list Z);
  sfs_write : list Z -> option Z -> list Z -> St -> res Status unit * St;
  sfs_delete : list Z -> St -> bool * St;
  sfs_entries : list Z -> St -> list (res Status DirEntry)       (* [ReadEntry] until the end *)
}.

(** Computations on the volume that may fail. *)
Definition fio (St A : Type) : Type := St -> res FsError A * St.

#[export] Instance fio_ret {St : Type} : MRet (fio St) := fun A a s => (Ok a, s).
#[export] Instance fio_bind {St : Type} : MBind (fio St) := fun A B k m s =>
  match m s with
  | (Ok a, s') => k a s'
  | (Err e, s') => (Err e, s')
  | (Panic, s') => (Panic, s')
  end.

Section fat.
Context {St : Type} `{Sfs St}.

#[local] Notation F := (fio St).

Definition fthrow {A : Type} (e : FsError) : F A := fun s => (Err e, s).

(** [From<uefi::Error> for FsError]: every status is an I/O error. *)
Definition of_status {A : Type} (r : res Status A) : res FsError A := map_err FsIo r.

Definition ask {A : Type} (f : St -> res Status A) : F A := fun s => (of_status (f s), s).
Definition run_op {A : Type} (f : St -> res Status A * St) : F A := fun s => let '(r, s') := f s in (of_status r, s').
Definition lift {A : Type} (r : res FsError A) : F A := fun s => (r, s).

Definition to_uefi_path (path : list Z) : F (list Z) :=
  let translated :=
    if bool_decide (path = [c_slash]) then [c_backslash]
    else (fun c => if c =? c_slash then c_backslash else c) <$> path in
  match sfs_name translated with
  | Some w => mret w
  | None => fthrow (FsInvalidPath "non-BMP codepoint")
  end.

Definition open_root : F unit := _ ← ask sfs_ready; ask sfs_root.

Definition checked_full_read_len (size : Z) : res FsError Z :=
  map_err (fun e => FsFileTooLarge (tl_size e) (tl_max e)) (checked_read_len size).

Definition into_regular (w : list Z) (k : FileKind) : F (list Z) :=
  if bool_decide (k = Regular) then mret w else fthrow FsIsDirectory.

Definition open_file_read (path : list Z) : F (list Z) :=
  w ← to_uefi_path path;
  k ← ask (sfs_open w false);
  into_regular w k.

(** The size from the file's info, checked, then a read into a buffer of that size. *)
Definition read_open (w : list Z) : F (list Z) :=
  '(size, _) ← ask (sfs_info w);
  size ← lift (checked_full_read_len size);
  ask (sfs_read w 0 size).

Definition stat_file (path : list Z) : F Metadata :=
  w ← to_uefi_path path;
  kind ← ask (sfs_open w false);
  match kind with
  | Regular =>
      '(size, ro) ← ask (sfs_info w);
      mret (mkMetadata Regular size (if (ro : bool) then 292 else 420) ro (lit "fat"))
  | Directory =>
      '(_, ro) ← ask (sfs_info w);
      mret (mkMetadata Directory 0 493 ro (lit "fat"))
  | _ => mret (mkMetadata OtherKind 0 0 false (lit "fat"))
  end.

(** ** [FsBackend for FatBackend] *)
Definition fat_read (path : list Z) : F (list Z) :=
  _ ← open_root; w ← open_file_read path; read_open w.

Definition fat_read_at (path : list Z) (offset n : Z) : F (list Z) :=
  _ ← open_root; w ← open_file_read path;
  _ ← ask (sfs_seek w offset);
  ask (sfs_read w offset n).

Definition fat_exists (path : list Z) : F bool :=
  _ ← open_root; w ← to_uefi_path path;
  ((fun s => match sfs_open w false s with
             | Ok _ => (Ok true, s)
             | Err e => (if bool_decide (e = NOT_FOUND) then Ok false else Err (FsIo e), s)
             | Panic => (Panic, s)
             end) : F bool).

Definition fat_metadata (path : list Z) : F Metadata := _ ← open_root; stat_file path.

Fixpoint collect_entries (es : list (res Status DirEntry)) : res FsError (list DirEntry) :=
  match es with
  | [] => Ok []
  | r :: rest =>
      let? de := of_status r in
      let? more := collect_entries rest in
      if bool_decide (de_name de = [c_dot]) || bool_decide (de_name de = [c_dot; c_dot]) then Ok more
      else Ok (de :: more)
  end.

Definition fat_read_dir (path : list Z) : F (list DirEntry) :=
  _ ← open_root; w ← to_uefi_path path;
  k ← ask (sfs_open w false);
  if bool_decide (k = Directory) then ((fun s => (collect_entries (sfs_entries w s), s)) : F (list DirEntry)) else fthrow FsNotDirectory.

(** The volume as the rest of the program reads it. *)
Definition fat_backend (s : St) : FsBackend := {|
  fb_read p := (fat_read p s).1;
  fb_read_at p o n := (fat_read_at p o n s).1;
  fb_exists p := (fat_exists p s).1;
  fb_read_dir p := (fat_read_dir p s).1
|}.

(** ** Writing *)
Definition fat_write (path data : list Z) : F unit :=
  _ ← ask sfs_root;
  w ← to_uefi_path path;
  _ ← ((fun s => match sfs_open w true s with
                 | Ok Regular => (Ok tt, (sfs_delete w s).2)
                 | _ => (Ok tt, s)
                 end) : F unit);
  k ← run_op (sfs_create w false);
  w ← into_regular w k;
  run_op (sfs_write w (Some 0) data).

Definition read_through_sfs (path : list Z) : F (list Z) :=
  _ ← ask sfs_root; w ← open_file_read path; read_open w.

Definition fat_append (path data : list Z) : F unit :=
  existing ← ((fun s => match read_through_sfs path s with
                        | (Err FsNotFound, s') => (Ok [], s')
                        | r => r
                        end) : F (list Z));
  fat_write path (existing ++ data).

Definition fat_true_append (path data : list Z) : F unit :=
  _ ← ask sfs_root;
  w ← to_uefi_path path;
  k ← run_op (sfs_create w false);
  w ← into_regular w k;
  _ ← ask (sfs_seek w u64_max);
  run_op (sfs_write w None data).

Definition fat_ensure_dir (path : list Z) : F unit :=
  _ ← ask sfs_root;
  w ← to_uefi_path path;
  _ ← run_op (sfs_create w true);
  mret tt.

(** Closing the handle by deleting the file. *)
Definition delete_open (w : list Z) : F unit := fun s =>
  let '(ok, s') := sfs_delete w s in (if ok then Ok tt else Err (FsIo (efi_error 7)), s').

Definition fat_delete (path : list Z) : F unit :=
  _ ← ask sfs_root;
  w ← to_uefi_path path;
  k ← ask (sfs_open w true);
  if bool_decide (k = Regular) then delete_open w else fthrow FsIsDirectory.

Definition fs_join (dir name : list Z) : res FsError (list Z) := map_err path_fs_error (path_join dir name).

Definition fat_rename (dir_path old_name new_name : list Z) : F unit :=
  old_full ← lift (fs_join dir_path old_name);
  new_full ← lift (fs_join dir_path new_name);
  _ ← ask sfs_root;
  w ← open_file_read old_full;
  content ← read_open w;
  _ ← fat_write new_full content;
  _ ← ask sfs_root;
  old_cstr ← to_uefi_path old_full;
  k ← ask (sfs_open old_cstr true);
  if bool_decide (k = Regular) then delete_open old_cstr else mret tt.
End fat.

(** ** What the firmware promises *)
Inductive node : Type := NFile (data : list Z) | NDir.

Definition node_kind (n : node) : FileKind := match n with NFile _ => Regular | NDir => Directory end.

(** Bytes written at a position of a file. *)
Definition put (pos : option Z) (data old : list Z) : list Z :=
  match pos with
  | None => old ++ data
  | Some i => take (Z.to_nat i) old ++ data ++ drop (Z.to_nat i + length data) old
  end.

(** [sfs_fold]: FAT names that differ in case only are one file. *)
Class SfsLaws (St : Type) `{Sfs St} := {
  sfs_view : St -> list Z -> option node;
  sfs_fold : list Z -> list Z;
  view_fold : forall s p q, sfs_fold p = sfs_fold q -> sfs_view s p = sfs_view s q;
  open_view : forall p w s k, sfs_open p w s = Ok k -> exists n, sfs_view s p = Some n /\ k = node_kind n;
  info_view : forall p s size ro d, sfs_info p s = Ok (size, ro) -> sfs_view s p = Some (NFile d) -> size = len d;
  read_view : forall p pos n s data d, sfs_read p pos n s = Ok data -> sfs_view s p = Some (NFile d) ->
    data = take (Z.to_nat n) (drop (Z.to_nat pos) d);
  create_view : forall p dir s,
    let '(r, s') := sfs_create p dir s in
    match r with
    | Ok k =>
        match sfs_view s p with
        | Some n => k = node_kind n /\ forall q, sfs_view s' q = sfs_view s q
        | None =>
            let n := if dir then NDir else NFile [] in
            k = node_kind n /\ forall q, sfs_view s' q = if bool_decide (sfs_fold q = sfs_fold p) then Some n else sfs_view s q
        end
    | _ => forall q, sfs_view s' q = sfs_view s q
    end;
  write_view : forall p pos data s d, sfs_view s p = Some (NFile d) ->
    let '(r, s') := sfs_write p pos data s in
    exists n, (r = Ok tt -> n = length data) /\
      forall q, sfs_view s' q =
        if bool_decide (sfs_fold q = sfs_fold p) then Some (NFile (put pos (take n data) d)) else sfs_view s q;
  delete_view : forall p s,
    let '(ok, s') := sfs_delete p s in
    forall q, sfs_view s' q = if ok && bool_decide (sfs_fold q = sfs_fold p) then None else sfs_view s q
}.

Section write.
Context {St : Type} `{SfsLaws St}.

(** The file a path names, and paths that name the same file. *)
Definition wide_of (path : list Z) : option (list Z) :=
  sfs_name (if bool_decide (path = [c_slash]) then [c_backslash]
            else (fun c => if c =? c_slash then c_backslash else c) <$> path).

Definition node_at (s : St) (path : list Z) : option node := wide_of path ≫= sfs_view s.

Definition same_file (p q : list Z) : Prop :=
  exists wp wq, wide_of p = Some wp /\ wide_of q = Some wq /\ sfs_fold wp = sfs_fold wq.

Lemma to_uefi_path_ok (path : list Z) (s s' : St) (r : res FsError (list Z)) :
  to_uefi_path path s = (r, s') ->
  s' = s /\ match r with Ok w => wide_of path = Some w | Err _ => True | Panic => False end.
Proof. unfold to_uefi_path, wide_of. destruct (sfs_name _); by intros [= <- <-]. Qed.

(** A state that shows the tree [v]; the tree with one file replaced. *)
Definition looks (v : list Z -> option node) (s : St) : Prop := forall q, sfs_view s q = v q.

Definition upd (v : list Z -> option node) (w : list Z) (o : option node) (q : list Z) : option node :=
  if bool_decide (sfs_fold q = sfs_fold w) then o else v q.

Lemma upd_same (v : list Z -> option node) (w : list Z) (o : option node) : upd v w o w = o.
Proof. unfold upd. by rewrite bool_decide_true. Qed.

Lemma upd_other (v : list Z -> option node) (w q : list Z) (o : option node) : sfs_fold q <> sfs_fold w -> upd v w o q = v q.
Proof. intros Hq. unfold upd. by rewrite bool_decide_false. Qed.

(** Every outcome of a computation: its result, and how it fails. *)
Definition ftriple {A : Type} (P : St -> Prop) (m : fio St A) (Q : A -> St -> Prop) (E : St -> Prop) : Prop :=
  forall s, P s -> match m s with (Ok a, s') => Q a s' | (_, s') => E s' end.

Lemma ft_ret {A : Type} (P : St -> Prop) (a : A) (Q : A -> St -> Prop) (E : St -> Prop) :
  (forall s, P s -> Q a s) -> ftriple P (mret a) Q E.
Proof. intros HQ s Hs. by apply HQ. Qed.

Lemma ft_throw {A : Type} (P : St -> Prop) (e : FsError) (Q : A -> St -> Prop) (E : St -> Prop) :
  (forall s, P s -> E s) -> ftriple P (fthrow e) Q E.
Proof. intros HE s Hs. by apply HE. Qed.

Lemma ft_bind {A B : Type} (P : St -> Prop) (m : fio St A) (k : A -> fio St B) (Q : A -> St -> Prop)
    (R : B -> St -> Prop) (E : St -> Prop) :
  ftriple P m Q E -> (forall a, ftriple (Q a) (k a) R E) -> ftriple P (m ≫= k) R E.
Proof.
  intros Hm Hk s Hs. specialize (Hm s Hs). unfold mbind, fio_bind. destruct (m s) as [[a| |] s1]; try done.
  by apply Hk.
Qed.

(** A read of the volume: nothing changes, and what it answers is known. *)
Lemma ft_ask {A : Type} (P : St -> Prop) (f : St -> res Status A) (E : St -> Prop) :
  (forall s, P s -> E s) -> ftriple P (ask f) (fun a s => P s /\ f s = Ok a) E.
Proof. intros HE s Hs. unfold ask, of_status. destruct (f s) eqn:Ef; simpl; auto. Qed.

Lemma ft_lift {A : Type} (P : St -> Prop) (r : res FsError A) (E : St -> Prop) :
  (forall s, P s -> E s) -> ftriple P (lift r) (fun a s => P s /\ r = Ok a) E.
Proof. intros HE s Hs. unfold lift. destruct r; auto. Qed.

Lemma ft_weaken {A : Type} (P P' : St -> Prop) (m : fio St A) (Q Q' : A -> St -> Prop) (E E' : St -> Prop) :
  ftriple P m Q E -> (forall s, P' s -> P s) -> (forall a s, Q a s -> Q' a s) -> (forall s, E s -> E' s) ->
  ftriple P' m Q' E'.
Proof. intros Hm HP HQ HE s Hs. specialize (Hm s (HP s Hs)). destruct (m s) as [[a| |] s1]; auto. Qed.

(** A step whose answer does not matter. *)
Lemma ft_step {A B : Type} (P : St -> Prop) (f : St -> res Status A) (k : A -> fio St B) (R : B -> St -> Prop) (E : St -> Prop) :
  (forall s, P s -> E s) -> (forall a, ftriple P (k a) R E) -> ftriple P (ask f ≫= k) R E.
Proof.
  intros HE Hk. eapply ft_bind; [by apply ft_ask|]. intros a. eapply ft_weaken; [apply Hk|by intros s [? _]|done..].
Qed.

Lemma ft_path {B : Type} (P : St -> Prop) (path : list Z) (k : list Z -> fio St B) (R : B -> St -> Prop) (E : St -> Prop) :
  (forall s, P s -> E s) -> (forall w, wide_of path = Some w -> ftriple P (k w) R E) -> ftriple P (to_uefi_path path ≫= k) R E.
Proof.
  intros HE Hk s Hs. unfold mbind, fio_bind. destruct (to_uefi_path path s) as [r s1] eqn:E1.
  apply to_uefi_path_ok in E1 as [-> Hr]. destruct r as [w| |]; [by apply Hk|by apply HE|done].
Qed.

Lemma ft_create (v : list Z -> option node) (w : list Z) (dir : bool) :
  ftriple (looks v) (run_op (sfs_create w dir))
    (fun k s => match v w with
                | Some n => k = node_kind n /\ looks v s
                | None => let n := if dir then NDir else NFile [] in k = node_kind n /\ looks (upd v w (Some n)) s
                end)
    (looks v).
Proof.
  intros s Hs. unfold run_op. pose proof (create_view w dir s) as Hc. destruct (sfs_create w dir s) as [r s1].
  destruct r as [k| |]; simpl; [|intros q; by rewrite Hc..]. rewrite (Hs w) in Hc. destruct (v w) as [n|].
  - destruct Hc as [? Hc]. split; [done|]. intros q. by rewrite Hc.
  - destruct Hc as [? Hc]. split; [done|]. intros q. rewrite Hc. unfold upd. by rewrite Hs.
Qed.

Lemma ft_write (v : list Z -> option node) (w : list Z) (pos : option Z) (data d : list Z) :
  v w = Some (NFile d) ->
  ftriple (looks v) (run_op (sfs_write w pos data))
    (fun _ => looks (upd v w (Some (NFile (put pos data d)))))
    (fun s => exists n, looks (upd v w (Some (NFile (put pos (take n data) d)))) s).
Proof.
  intros Hv s Hs. unfold run_op. pose proof (write_view w pos data s d) as Hw. rewrite (Hs w) in Hw. specialize (Hw Hv).
  destruct (sfs_write w pos data s) as [r s1]. destruct Hw as (n & Hn & Hw).
  assert (looks (upd v w (Some (NFile (put pos (take n data) d)))) s1) as Hl.
  { intros q. rewrite Hw. unfold upd. by rewrite Hs. }
  destruct r as [[]| |]; simpl; [|by exists n..]. rewrite (Hn eq_refl), firstn_all in Hl. exact Hl.
Qed.

Lemma ft_delete (v : list Z -> option node) (w : list Z) :
  ftriple (looks v) (delete_open w) (fun _ => looks (upd v w None)) (looks v).
Proof.
  intros s Hs. unfold delete_open. pose proof (delete_view w s) as Hd. destruct (sfs_delete w s) as [ok s1].
  destruct ok; intros q; rewrite Hd; simpl; unfold upd; by rewrite Hs.
Qed.

Lemma looks_upd_upd (v : list Z -> option node) (w : list Z) (o o' : option node) (s : St) :
  looks (upd (upd v w o) w o') s <-> looks (upd v w o') s.
Proof.
  unfold looks, upd. split; intros Hs q; rewrite Hs; by destruct (bool_decide (sfs_fold q = sfs_fold w)).
Qed.

(** Nothing changed but the file [w]. *)
Definition only (v : list Z -> option node) (w : list Z) (s : St) : Prop :=
  forall q, sfs_fold q <> sfs_fold w -> sfs_view s q = v q.

Lemma looks_only (v : list Z -> option node) (w : list Z) (s : St) : looks v s -> only v w s.
Proof. intros Hs q _. apply Hs. Qed.

Lemma upd_only (v : list Z -> option node) (w : list Z) (o : option node) (s : St) : looks (upd v w o) s -> only v w s.
Proof. intros Hs q Hq. rewrite Hs. by apply upd_other. Qed.

Lemma put_start (data old : list Z) : put (Some 0) data old = data ++ drop (length data) old.
Proof. done. Qed.

(** The end of the file that was at [w] behind the data, if there was one. *)
Definition tail_of (v : list Z -> option node) (w data tail : list Z) : Prop :=
  tail = [] \/ exists old, v w = Some (NFile old) /\ tail = drop (length data) old.

(** In this state the firmware does not delete the file: it does not open for
    writing as a regular file, or the deletion fails. *)
Definition undeleted (w : list Z) (s : St) : Prop := sfs_open w true s <> Ok Regular \/ (sfs_delete w s).1 = false.

(** Create and write, from a tree in which the old file is there or gone. *)
Lemma ft_create_write (v v1 : list Z -> option node) (w data : list Z) :
  (forall s, looks v1 s -> only v w s) -> (forall o s, looks (upd v1 w o) s -> looks (upd v w o) s) ->
  ftriple (looks v1) (k ← run_op (sfs_create w false); w ← into_regular w k; run_op (sfs_write w (Some 0) data))
    (fun _ s => exists tail, looks (upd v w (Some (NFile (data ++ tail)))) s /\ tail_of v1 w data tail) (only v w).
Proof.
  intros Hon Hup. eapply ft_bind; [eapply ft_weaken; [apply (ft_create v1 w false)|done|done|exact Hon]|].
  intros k. simpl. unfold into_regular.
  assert (forall v2 d, v2 w = Some (NFile d) -> (forall o s, looks (upd v2 w o) s -> looks (upd v w o) s) ->
    tail_of v1 w data (drop (length data) d) ->
    ftriple (looks v2) (run_op (sfs_write w (Some 0) data))
      (fun _ s => exists tail, looks (upd v w (Some (NFile (data ++ tail)))) s /\ tail_of v1 w data tail) (only v w)) as Hwrite.
  { intros v2 d Hd Hup2 Ht. eapply ft_weaken; [by apply ft_write|done| |].
    - intros u s Hs. exists (drop (length data) d). split; [|done]. by apply Hup2.
    - intros s [n Hs]. eapply upd_only. by apply Hup2. }
  destruct (v1 w) as [n|] eqn:Ev1.
  - intros s [-> Hs]. destruct n as [d|]; simpl.
    + apply (Hwrite v1 d); [done|done| |done]. right. by exists d.
    + by apply Hon.
  - intros s [-> Hs]. apply (Hwrite (upd v1 w (Some (NFile []))) []); [apply upd_same| | |done].
    + intros o s' Ho. apply Hup. by apply looks_upd_upd in Ho.
    + left. by destruct (length data).
Qed.

Definition only_path (v : list Z -> option node) (path : list Z) (s : St) : Prop :=
  match wide_of path with Some w => only v w s | None => looks v s end.

Lemma looks_only_path (v : list Z -> option node) (path : list Z) (s : St) : looks v s -> only_path v path s.
Proof. intros Hs. unfold only_path. destruct (wide_of path); [by apply looks_only|done]. Qed.

Lemma ft_fat_write (v : list Z -> option node) (s0 : St) (path data : list Z) :
  ftriple (fun s => looks v s /\ s = s0) (fat_write path data)
    (fun _ s => exists w tail, wide_of path = Some w /\ looks (upd v w (Some (NFile (data ++ tail)))) s /\
       tail_of v w data tail /\ (tail <> [] -> undeleted w s0))
    (only_path v path).
Proof.
  assert (forall s, looks v s /\ s = s0 -> only_path v path s) as Hon by (intros s [Hs _]; by apply looks_only_path).
  unfold fat_write. apply ft_step; [exact Hon|intros _].
  apply ft_path; [exact Hon|]. intros w Hw. unfold only_path. rewrite Hw.
  eapply ft_bind with (Q := fun _ s => exists v1, looks v1 s /\ (v1 = v /\ undeleted w s0 \/ v1 = upd v w None)).
  - intros s [Hs ->]. pose proof (delete_view w s0) as Hd. destruct (sfs_open w true s0) as [k| |] eqn:Eo;
      [|exists v; split; [done|]; left; by split; [|left; rewrite Eo]..].
    destruct k; [|exists v; split; [done|]; left; by split; [|left; rewrite Eo]..].
    destruct (sfs_delete w s0) as [ok s1] eqn:Ed. simpl. destruct ok; simpl in Hd.
    + exists (upd v w None). split; [|by right]. intros q. rewrite Hd. unfold upd. by rewrite Hs.
    + exists v. split; [|left; split; [done|right; by rewrite Ed]]. intros q. by rewrite Hd.
  - intros _ s (v1 & Hs & Hv1).
    eapply (ft_weaken _ (looks v1) _ _ _ (only v w)); [eapply (ft_create_write v v1)| | | |exact Hs]; try done.
    + destruct Hv1 as [[-> _]| ->]; intros s'; [apply looks_only|apply upd_only].
    + destruct Hv1 as [[-> _]| ->]; intros o s' Ho; [done|by apply looks_upd_upd in Ho].
    + intros _ s' (tail & Hl & Ht). exists w, tail. split; [done|]. split; [done|].
      destruct Hv1 as [[-> Hu]| ->]; [by split|]. destruct Ht as [->|(old & Ho & _)]; [|by rewrite upd_same in Ho].
      by split; [left|].
Qed.

(** What a computation that only reads leaves as it is. *)
Definition reads_only {A : Type} (m : fio St A) : Prop := forall s, (m s).2 = s.

Lemma ro_bind {A B : Type} (m : fio St A) (k : A -> fio St B) : reads_only m -> (forall a, reads_only (k a)) -> reads_only (m ≫= k).
Proof.
  intros Hm Hk s. specialize (Hm s). unfold mbind, fio_bind. destruct (m s) as [[a| |] s1]; simpl in Hm; subst s1; [apply Hk|done..].
Qed.

Lemma ro_ask {A : Type} (f : St -> res Status A) : reads_only (ask f).
Proof. done. Qed.

Lemma ro_lift {A : Type} (r : res FsError A) : reads_only (lift r).
Proof. done. Qed.

Lemma ro_path (path : list Z) : reads_only (to_uefi_path path).
Proof. intros s. unfold to_uefi_path. by destruct (sfs_name _). Qed.

Lemma ro_open_file_read (path : list Z) : reads_only (open_file_read path).
Proof.
  apply ro_bind; [apply ro_path|]. intros w. apply ro_bind; [apply ro_ask|]. intros k s. unfold into_regular. by case_bool_decide.
Qed.

Lemma ro_read_open (w : list Z) : reads_only (read_open w).
Proof. apply ro_bind; [apply ro_ask|]. intros [size ro]. apply ro_bind; [apply ro_lift|]. intros n. apply ro_ask. Qed.

(** A reading step in front: the state is still the one it started in. *)
Lemma ft_ro_bind {A B : Type} (v : list Z -> option node) (s0 : St) (m : fio St A) (k : A -> fio St B) (Qa : A -> Prop)
    (R : B -> St -> Prop) (E : St -> Prop) :
  reads_only m -> ftriple (looks v) m (fun a s => looks v s /\ Qa a) (looks v) -> (forall s, looks v s -> E s) ->
  (forall a, Qa a -> ftriple (fun s => looks v s /\ s = s0) (k a) R E) ->
  ftriple (fun s => looks v s /\ s = s0) (m ≫= k) R E.
Proof.
  intros Hr Hm HE Hk s [Hs ->]. specialize (Hm s0 Hs). pose proof (Hr s0) as E0. unfold mbind, fio_bind.
  destruct (m s0) as [[a| |] s1]; simpl in E0; subst s1; [by apply (Hk a (proj2 Hm))|by apply HE..].
Qed.

Lemma ft_true_append (v : list Z -> option node) (path data : list Z) :
  ftriple (looks v) (fat_true_append path data)
    (fun _ s => exists w d, wide_of path = Some w /\ (v w = Some (NFile d) \/ v w = None /\ d = []) /\
       looks (upd v w (Some (NFile (d ++ data)))) s)
    (fun s => looks v s \/ exists w d n, wide_of path = Some w /\ (v w = Some (NFile d) \/ v w = None /\ d = []) /\
       looks (upd v w (Some (NFile (d ++ take n data)))) s).
Proof.
  unfold fat_true_append. apply ft_step; [by left|intros _]. apply ft_path; [by left|]. intros w Hw.
  eapply ft_bind; [eapply ft_weaken; [apply (ft_create v w false)|done|done|by left]|]. intros k. simpl. unfold into_regular.
  assert (forall v2 d, v2 w = Some (NFile d) -> (v w = Some (NFile d) \/ v w = None /\ d = []) ->
    (forall o s, looks (upd v2 w o) s -> looks (upd v w o) s) -> (looks v2 = looks v \/ v2 = upd v w (Some (NFile d))) ->
    ftriple (looks v2) (_ ← ask (sfs_seek w u64_max); run_op (sfs_write w None data))
      (fun _ s => exists w d, wide_of path = Some w /\ (v w = Some (NFile d) \/ v w = None /\ d = []) /\
         looks (upd v w (Some (NFile (d ++ data)))) s)
      (fun s => looks v s \/ exists w d n, wide_of path = Some w /\ (v w = Some (NFile d) \/ v w = None /\ d = []) /\
         looks (upd v w (Some (NFile (d ++ take n data)))) s)) as Hwrite.
  { intros v2 d Hd Hor Hup Hv2. apply ft_step; [|intros _].
    - intros s Hs. destruct Hv2 as [Hv2| ->]; [left; by rewrite <- Hv2|]. right. exists w, d, 0%nat.
      rewrite app_nil_r. eauto.
    - eapply ft_weaken; [by apply ft_write|done| |].
      + intros u s Hs. exists w, d. eauto.
      + intros s [n Hs]. right. exists w, d, n. eauto. }
  destruct (v w) as [n|] eqn:Ev.
  - intros s [-> Hs]. destruct n as [d|]; simpl; [|by left]. apply (Hwrite v d); auto.
  - intros s [-> Hs]. apply (Hwrite (upd v w (Some (NFile []))) []); auto; [apply upd_same|].
    intros o s' Ho. by apply looks_upd_upd in Ho.
Qed.

(** A full read returns the whole file. *)
Lemma ft_read_open (v : list Z -> option node) (w : list Z) (d : list Z) :
  v w = Some (NFile d) ->
  ftriple (looks v) (read_open w) (fun data s => looks v s /\ data = d) (looks v).
Proof.
  intros Hd. unfold read_open. eapply ft_bind; [by apply ft_ask|]. intros [size ro].
  intros s [Hs Hi]. rewrite <- (Hs w) in Hd. pose proof (info_view _ _ _ _ _ Hi Hd) as ->.
  unfold mbind, fio_bind, lift, ask, checked_full_read_len, checked_read_len.
  destruct (_ <? _); simpl; [done|]. destruct (_ <=? _); simpl; [|done].
  unfold of_status. destruct (sfs_read w 0 (len d) s) as [data| |] eqn:Er; simpl; try done.
  split; [done|]. rewrite (read_view _ _ _ _ _ _ Er Hd). simpl. unfold len. rewrite Nat2Z.id. apply firstn_all.
Qed.

Lemma ft_open_file_read (v : list Z -> option node) (path : list Z) :
  ftriple (looks v) (open_file_read path)
    (fun w s => looks v s /\ wide_of path = Some w /\ exists d, v w = Some (NFile d)) (looks v).
Proof.
  unfold open_file_read. apply ft_path; [done|]. intros w Hw. eapply ft_bind; [by apply ft_ask|]. intros k s [Hs Ho].
  apply open_view in Ho as ([d|] & Hv & ->); simpl; [|done]. rewrite (Hs w) in Hv. simpl. eauto.
Qed.

(** Opening a file and reading it: [fat_read] and [read_through_sfs] after the root is open. *)
Lemma ft_open_read (v : list Z -> option node) (path : list Z) :
  ftriple (looks v) (w ← open_file_read path; read_open w)
    (fun data s => looks v s /\ exists w, wide_of path = Some w /\ v w = Some (NFile data)) (looks v).
Proof.
  eapply ft_bind; [apply ft_open_file_read|]. intros w s (Hs & Hw & d & Hd).
  eapply (ft_weaken _ (looks v)); [by apply (ft_read_open v w d)|done| |done|exact Hs].
  intros data s' [? ->]. eauto.
Qed.

(** A successful read-modify-write append is exact, and there was a file to append to. *)
Lemma ft_append (v : list Z -> option node) (path data : list Z) :
  ftriple (looks v) (fat_append path data)
    (fun _ s => exists w old, wide_of path = Some w /\ v w = Some (NFile old) /\ looks (upd v w (Some (NFile (old ++ data)))) s)
    (only_path v path).
Proof.
  unfold fat_append. eapply ft_bind with (Q := fun old s => looks v s /\ exists w, wide_of path = Some w /\ v w = Some (NFile old)).
  - intros s Hs. pose proof (ft_step (looks v) sfs_root (fun _ => w ← open_file_read path; read_open w) _ (looks v)
      ltac:(done) (fun _ => ft_open_read v path) s Hs) as Hr.
    change (ask sfs_root ≫= _) with (read_through_sfs (St := St) path) in Hr.
    assert ((read_through_sfs path s).1 <> Err FsNotFound) as Hnf.
    { unfold read_through_sfs, open_file_read, read_open, into_regular, to_uefi_path, ask, lift, of_status, mbind, fio_bind,
        checked_full_read_len, checked_read_len, fthrow.
      repeat (case_match; simplify_eq/=; try done); unfold map_err in *; repeat (case_match; simplify_eq/=; try done). }
    destruct (read_through_sfs path s) as [[old|e|] s1]; [exact Hr| |by apply looks_only_path].
    destruct e; first [done|by apply looks_only_path].
  - intros old s (Hs & w & Hw & Hold). pose proof (ft_fat_write v s path (old ++ data) s (conj Hs eq_refl)) as Hf.
    destruct (fat_write path (old ++ data) s) as [[[]| |] s1]; try done.
    destruct Hf as (w' & tail & Hw' & Hl & Ht & _). rewrite Hw in Hw'. injection Hw' as <-. exists w, old. split; [done|]. split; [done|].
    destruct Ht as [->|(old' & Ho & ->)]; [by rewrite app_nil_r in Hl|]. rewrite Hold in Ho. injection Ho as <-.
    rewrite drop_ge in Hl by (rewrite length_app; lia). by rewrite app_nil_r in Hl.
Qed.

Lemma ft_rename (v : list Z -> option node) (s0 : St) (dir old_name new_name po pn wo wn c : list Z) :
  fs_join dir old_name = Ok po -> fs_join dir new_name = Ok pn ->
  wide_of po = Some wo -> wide_of pn = Some wn -> sfs_fold wo <> sfs_fold wn -> v wo = Some (NFile c) ->
  ftriple (fun s => looks v s /\ s = s0) (fat_rename dir old_name new_name)
    (fun _ s => exists tail, looks (upd (upd v wn (Some (NFile (c ++ tail)))) wo None) s /\ tail_of v wn c tail /\
       (tail <> [] -> undeleted wn s0))
    (fun s => only v wn s).
Proof.
  intros Eo En Hwo Hwn Hne Hc. unfold fat_rename. rewrite Eo, En.
  eapply ft_ro_bind; [apply ro_lift|by apply ft_lift|apply looks_only|]. intros po' [= <-].
  eapply ft_ro_bind; [apply ro_lift|by apply ft_lift|apply looks_only|]. intros pn' [= <-].
  apply (ft_ro_bind v s0 (ask sfs_root) _ (fun _ => True)); [apply ro_ask| |apply looks_only|intros _ _].
  { eapply ft_weaken; [by apply (ft_ask (looks v) sfs_root (looks v))|done| |done]. by intros a s [? _]. }
  eapply ft_ro_bind; [apply ro_open_file_read|apply (ft_open_file_read v po)|apply looks_only|].
  intros w [Hw _]. rewrite Hwo in Hw. injection Hw as <-.
  eapply ft_ro_bind; [apply ro_read_open|apply (ft_read_open v wo c Hc)|apply looks_only|]. intros content ->.
  eapply ft_bind.
  { eapply ft_weaken; [apply (ft_fat_write v s0 pn c)|done|done|]. intros s Hs. unfold only_path in Hs. by rewrite Hwn in Hs. }
  intros u s (w & tail & Hw & Hs & Ht). rewrite Hwn in Hw. injection Hw as <-. revert s Hs.
  apply ft_step; [intros s; apply upd_only|intros _]. apply ft_path; [intros s; apply upd_only|].
  intros w' Hw'. rewrite Hwo in Hw'. injection Hw' as <-.
  eapply ft_bind; [apply ft_ask; intros s; apply upd_only|]. intros k s [Hs Ho].
  apply open_view in Ho as (n & Hn & ->). rewrite Hs, upd_other, Hc in Hn by done. injection Hn as <-. simpl.
  revert s Hs. eapply ft_weaken; [apply ft_delete|done| |intros s; apply upd_only].
  intros [] s Hs. by exists tail.
Qed.
End write.

(** ** [EspWriter] *)
Record FatVolume (St : Type) : Type := mkFat { fv_st : St; fv_cache : VolumeCache }.
Arguments mkFat {St}.
Arguments fv_st {St}.
Arguments fv_cache {St}.

(** A mounted volume: FAT through the firmware, or a read-only one. *)
Inductive Vol (St : Type) : Type := FatVol (v : FatVolume St) (label : option (list Z)) | RoVol (v : Volume).
Arguments FatVol {St}.
Arguments RoVol {St}.

Section writer.
Context {St : Type} `{Sfs St}.

Definition vol_view (v : Vol St) : Volume :=
  match v with
  | FatVol f label => mkVolume (lit "fat") label (fat_backend (fv_st f))
  | RoVol v => v
  end.

(** A write through the writer; the paths are dropped from the cache when it succeeds. *)
Definition esp_op (m : fio St unit) (paths : list (list Z)) (v : FatVolume St) : res FsError unit * FatVolume St :=
  match sfs_ready (fv_st v) with
  | Ok _ =>
      let '(r, s) := m (fv_st v) in
      match r with
      | Ok _ => (Ok tt, mkFat s (foldl (fun c p => invalidate_path p c) (fv_cache v) paths))
      | r => (r, mkFat s (fv_cache v))
      end
  | _ => (Err (FsUnsupported "write requires a FAT volume"), v)
  end.

Definition esp_write (path data : list Z) := esp_op (fat_write path data) [path].
Definition esp_append (path data : list Z) := esp_op (fat_append path data) [path].
Definition esp_true_append (path data : list Z) := esp_op (fat_true_append path data) [path].
Definition esp_ensure_dir (path : list Z) := esp_op (fat_ensure_dir path) [path].
Definition esp_delete (path : list Z) := esp_op (fat_delete path) [path].

Definition esp_rename (dir old_name new_name : list Z) (v : FatVolume St) : res FsError unit * FatVolume St :=
  match fs_join dir old_name, fs_join dir new_name with
  | Ok old_full, Ok new_full => esp_op (fat_rename dir old_name new_name) [old_full; new_full] v
  | _, _ => esp_op (fat_rename dir old_name new_name) [] v
  end.

(** [EspWriter::new(volume)] and an operation of the writer; [None]: not FAT. *)
Definition with_writer {A : Type} (f : FatVolume St -> A * FatVolume St) (v : Vol St) : option A * Vol St :=
  match v with
  | FatVol fv label => let '(a, fv') := f fv in (Some a, FatVol fv' label)
  | RoVol _ => (None, v)
  end.

(** [Volume::read_str] through the cache. *)
Definition vol_read_cached (path : list Z) (fv : FatVolume St) : res FsError (list Z) * FatVolume St :=
  let '(r, c) := volume_read (fat_backend (fv_st fv)) path (fv_cache fv) in (r, mkFat (fv_st fv) c).

Definition ENTRIES_DIR : list Z := lit "/loader/entries".

Definition decrement_boot_count {NV : Type} `{NvStore NV} (entry : BlsEntry) (v : Vol St) (nv : NV)
    : option (list Z) * Vol St * NV :=
  match next_count_name entry with
  | None => (None, v, nv)
  | Some new_filename =>
      match with_writer (esp_rename ENTRIES_DIR (b_filename entry) new_filename) v with
      | (Some (Ok _), v') =>
          (Some new_filename, v', (set_boot_count_path (lit "\loader\entries\" ++ new_filename) nv).1)
      | (_, v') => (None, v', nv)
      end
  end.
End writer.

(** ** What the writer guarantees *)
Section writer_ok.
Context {St : Type} `{SfsLaws St}.

Lemma not_cached (path : list Z) (c : VolumeCache) : cache_get (full_read path) (invalidate_path path c) = None.
Proof.
  unfold cache_get. simpl.
  assert (remove_key (full_read path) (List.filter (fun e => negb (has_path path e)) (vc_entries c)) = None) as ->; [|done].
  induction (vc_entries c) as [|[k d] es IH]; simpl; [done|].
  unfold has_path at 1. simpl. destruct (bool_decide_reflect (ck_path k = path)) as [|Hp]; simpl; [exact IH|].
  rewrite bool_decide_false by (intros E; apply Hp; by rewrite E). by rewrite IH.
Qed.

Lemma same_file_fold (p q wp wq : list Z) :
  wide_of p = Some wp -> wide_of q = Some wq -> ~ same_file p q -> sfs_fold wp <> sfs_fold wq.
Proof. intros Hp Hq Hne E. apply Hne. by exists wp, wq. Qed.

(** A file that is not the one written is as before. *)
Lemma node_at_only (s0 s : St) (path w q : list Z) :
  wide_of path = Some w -> only (sfs_view s0) w s -> ~ same_file q path -> node_at s q = node_at s0 q.
Proof.
  intros Hw Ho Hq. unfold node_at. destruct (wide_of q) as [wq|] eqn:Eq; simpl; [|done].
  apply Ho. by eapply same_file_fold.
Qed.

Lemma looks_self (s : St) : looks (sfs_view s) s.
Proof. by intros q. Qed.

Lemma node_at_looks (s s' : St) (q : list Z) : looks (sfs_view s) s' -> node_at s' q = node_at s q.
Proof. intros Hl. unfold node_at. destruct (wide_of q); simpl; [apply Hl|done]. Qed.

Lemma node_at_upd (v : list Z -> option node) (s : St) (path w : list Z) (o : option node) :
  wide_of path = Some w -> looks (upd v w o) s -> node_at s path = o.
Proof. intros Hw Hl. unfold node_at. rewrite Hw. simpl. rewrite Hl. apply upd_same. Qed.

Lemma upd_frame (s0 s : St) (path w q : list Z) (o : option node) :
  wide_of path = Some w -> looks (upd (sfs_view s0) w o) s -> ~ same_file q path -> node_at s q = node_at s0 q.
Proof. intros Hw Hl. eapply node_at_only; [done|by eapply upd_only]. Qed.

(** C16. Appending to a log never costs what it already holds.  Whatever call of
    the firmware fails, and wherever a write stops, the file still starts with its
    old contents, followed by the data when the append succeeds and by a part of
    it otherwise (a missing file may come to exist); every other file is as it
    was. *)
Theorem true_append_never_loses (path data : list Z) (s : St) :
  let old := match node_at s path with Some (NFile d) => d | _ => [] end in
  let '(r, s') := fat_true_append path data s in
  (forall q, ~ same_file q path -> node_at s' q = node_at s q) /\
  match r with
  | Ok _ => node_at s' path = Some (NFile (old ++ data))
  | _ => node_at s' path = node_at s path \/ exists n, node_at s' path = Some (NFile (old ++ take n data))
  end.
Proof.
  intros old. pose proof (ft_true_append (sfs_view s) path data s (looks_self s)) as Ha.
  destruct (fat_true_append path data s) as [r s'].
  assert (forall w d, wide_of path = Some w -> sfs_view s w = Some (NFile d) \/ sfs_view s w = None /\ d = [] -> old = d) as Hold.
  { intros w d Hw Hd. unfold old, node_at. rewrite Hw. simpl. by destruct Hd as [->|[-> ->]]. }
  assert (looks (sfs_view s) s' \/ (exists w d n, wide_of path = Some w /\
      (sfs_view s w = Some (NFile d) \/ sfs_view s w = None /\ d = []) /\
      looks (upd (sfs_view s) w (Some (NFile (d ++ take n data)))) s') ->
    (forall q, ~ same_file q path -> node_at s' q = node_at s q) /\
    (node_at s' path = node_at s path \/ exists n, node_at s' path = Some (NFile (old ++ take n data)))) as Hfail.
  { intros [Hl|(w & d & n & Hw & Hd & Hl)].
    - split; [intros q _|left]; by apply node_at_looks.
    - split; [intros q; by eapply upd_frame|]. right. exists n. rewrite (Hold w d Hw Hd). by eapply node_at_upd. }
  destruct r as [[]| |]; [|by apply Hfail..]. destruct Ha as (w & d & Hw & Hd & Hl).
  split; [intros q; by eapply upd_frame|]. rewrite (Hold w d Hw Hd). by eapply node_at_upd.
Qed.

(** C29. What the writer wrote is what is read next, cache or not: after a
    successful write, a read of the volume through its cache - whatever that held
    before - returns exactly the data; only if there was an old file and the
    firmware would not delete it (it did not open for writing, or the deletion
    failed) does the end of the old file follow.  Every other file is as it was. *)
Theorem write_then_read (path data bytes : list Z) (v v' : FatVolume St) :
  esp_write path data v = (Ok tt, v') -> (vol_read_cached path v').1 = Ok bytes ->
  (bytes = data \/
   exists w old, wide_of path = Some w /\ node_at (fv_st v) path = Some (NFile old) /\
     (sfs_open w true (fv_st v) <> Ok Regular \/ (sfs_delete w (fv_st v)).1 = false) /\
     bytes = data ++ drop (length data) old) /\
  forall q, ~ same_file q path -> node_at (fv_st v') q = node_at (fv_st v) q.
Proof.
  unfold esp_write, esp_op. destruct (sfs_ready _); [|done..].
  pose proof (ft_fat_write (sfs_view (fv_st v)) (fv_st v) path data (fv_st v) (conj (looks_self _) eq_refl)) as Hw.
  destruct (fat_write path data (fv_st v)) as [[[]| |] s]; [|done..]. intros [= <-].
  destruct Hw as (w & tail & Hw & Hl & Ht & Hu). intros Hr.
  split; [|intros q; by eapply upd_frame]. assert (bytes = data ++ tail) as ->.
  - unfold vol_read_cached, volume_read, cached in Hr. simpl in Hr. rewrite not_cached in Hr.
    unfold fat_read, open_root, mbind, fio_bind in Hr.
    destruct (ask sfs_ready s) as [[[]| |] s1] eqn:E1; try done. injection E1 as _ <-.
    destruct (ask sfs_root s) as [[[]| |] s1] eqn:E2; try done. injection E2 as _ <-.
    pose proof (ft_open_read (upd (sfs_view (fv_st v)) w (Some (NFile (data ++ tail)))) path s Hl) as Ho.
    unfold mbind, fio_bind in Ho.
    destruct (match open_file_read path s with (Ok a, s'0) => _ | (Err e, s'0) => _ | (Panic, s'0) => _ end) as [r s2].
    destruct r as [bs| |]; try done. simpl in Hr. injection Hr as <-. destruct Ho as (_ & w' & Hw' & Hd).
    rewrite Hw in Hw'. injection Hw' as <-. rewrite upd_same in Hd. by injection Hd as <-.
  - destruct tail as [|x tail]; [left; by rewrite app_nil_r|right]. destruct Ht as [?|(old & Ho & ->)]; [done|].
    exists w, old. split_and!; [done| |by apply Hu|done]. unfold node_at. by rewrite Hw.
Qed.

Lemma esp_op_cases (m : fio St unit) (paths : list (list Z)) (v : FatVolume St) :
  let '(r, v') := esp_op m paths v in
  (exists e, r = Err e /\ v' = v) \/
  let '(r', s') := m (fv_st v) in fv_st v' = s' /\ (r = Ok tt <-> r' = Ok tt).
Proof.
  unfold esp_op. destruct (sfs_ready (fv_st v)); [|left; by eexists..].
  destruct (m (fv_st v)) as [[[]| |] s']; right; done.
Qed.

(** C17. Counting a boot attempt never loses the entry.  The decrement of a
    counted entry on a FAT volume, whose new name names another file, ends in one
    of two ways, whatever fails and whenever.  Either it renamed the file: the
    new name holds the contents - followed by the end of an earlier file of that
    name only if the firmware would not delete that - the old name is gone, and
    every other file is as it was.  Or it returns nothing: then every file but the
    one under the new name is as it was, the entry under its old name included,
    and the variables are not touched. *)
Theorem decrement_keeps_entry {NV : Type} `{NvStore NV} (entry : BlsEntry) (new po pn wn c : list Z) (fv : FatVolume St)
    (label : option (list Z)) (nv : NV) :
  next_count_name entry = Some new ->
  fs_join ENTRIES_DIR (b_filename entry) = Ok po -> fs_join ENTRIES_DIR new = Ok pn ->
  ~ same_file po pn -> wide_of pn = Some wn -> node_at (fv_st fv) po = Some (NFile c) ->
  match decrement_boot_count entry (FatVol fv label) nv with
  | (Some f, FatVol fv' _, _) =>
      f = new /\ node_at (fv_st fv') po = None /\
      (node_at (fv_st fv') pn = Some (NFile c) \/
       exists old, node_at (fv_st fv) pn = Some (NFile old) /\ undeleted wn (fv_st fv) /\
         node_at (fv_st fv') pn = Some (NFile (c ++ drop (length c) old))) /\
      forall q, ~ same_file q po -> ~ same_file q pn -> node_at (fv_st fv') q = node_at (fv_st fv) q
  | (None, FatVol fv' _, nv') =>
      nv' = nv /\ node_at (fv_st fv') po = Some (NFile c) /\
      forall q, ~ same_file q pn -> node_at (fv_st fv') q = node_at (fv_st fv) q
  | _ => False
  end.
Proof.
  intros Hn Ho Hp Hne Hwn Hfo. unfold decrement_boot_count. rewrite Hn. simpl. unfold esp_rename.
  rewrite Ho, Hp.
  pose proof (esp_op_cases (fat_rename ENTRIES_DIR (b_filename entry) new) [po; pn] fv) as Hc.
  destruct (esp_op _ _ fv) as [r fv']. pose proof Hfo as Hfo'. unfold node_at in Hfo'.
  destruct (wide_of po) as [wo|] eqn:Hwo; [|done]. simpl in Hfo'.
  assert (sfs_fold wo <> sfs_fold wn) as Hfold by (by eapply (same_file_fold po pn)).
  pose proof (ft_rename (sfs_view (fv_st fv)) (fv_st fv) _ _ _ _ _ wo wn c Ho Hp Hwo Hwn Hfold Hfo' (fv_st fv)
    (conj (looks_self _) eq_refl)) as Hr.
  destruct Hc as [(e & -> & ->)|Hc]; [done|].
  destruct (fat_rename _ _ _ (fv_st fv)) as [r' s']. destruct Hc as [<- Hok].
  assert (only (sfs_view (fv_st fv)) wn (fv_st fv') -> nv = nv /\ node_at (fv_st fv') po = Some (NFile c) /\
    forall q, ~ same_file q pn -> node_at (fv_st fv') q = node_at (fv_st fv) q) as Hfail.
  { intros Hl. split; [done|]. rewrite <- Hfo.
    split; [exact (node_at_only _ _ pn wn po Hwn Hl Hne)|]. intros q Hq. exact (node_at_only _ _ pn wn q Hwn Hl Hq). }
  destruct r as [[]| |]; [|destruct r' as [[]| |]; [discriminate (proj2 Hok eq_refl)|by apply Hfail..]..].
  rewrite (proj1 Hok eq_refl) in Hr. destruct Hr as (tail & Hl & Ht & Hu). split; [done|].
  split; [by eapply node_at_upd|]. split.
  - assert (node_at (fv_st fv') pn = Some (NFile (c ++ tail))) as ->.
    { unfold node_at. rewrite Hwn. simpl. rewrite Hl, upd_other by congruence. apply upd_same. }
    destruct tail as [|x tail]; [left; by rewrite app_nil_r|right]. destruct Ht as [?|(old & Hold & ->)]; [done|].
    exists old. split_and!; [unfold node_at; by rewrite Hwn|by apply Hu|done].
  - intros q Hqo Hqn. unfold node_at. destruct (wide_of q) as [wq|] eqn:Hwq; [|done]. simpl. rewrite Hl.
    rewrite !upd_other; [done| |]; by eapply same_file_fold.
Qed.
End writer_ok.

(** ** A simulated volume *)

(** A tree whose operations may each be refused. *)
Inductive sim_op : Type := SimOpen | SimCreate | SimWrite | SimDelete.

Record SimFat : Type := mkSim { sim_files : gmap (list Z) node; sim_refuse : sim_op -> bool }.

Definition sim_fold (name : list Z) : list Z := (fun c => if (97 <=? c) && (c <=? 122) then c - 32 else c) <$> name.

Definition sim_set (name : list Z) (o : option node) (s : SimFat) : SimFat :=
  mkSim (partial_alter (fun _ => o) (sim_fold name) (sim_files s)) (sim_refuse s).

Definition sim_look (s : SimFat) (name : list Z) : option node := sim_files s !! sim_fold name.

#[export] Instance sim_sfs : Sfs SimFat := {
  sfs_name t := if forallb (fun c => (0 <? c) && (c <? 65536)) t then Some t else None;
  sfs_ready _ := Ok tt;
  sfs_root _ := Ok tt;
  sfs_open name _ s :=
    if sim_refuse s SimOpen then Err (efi_error 7)
    else match sim_look s name with Some n => Ok (node_kind n) | None => Err NOT_FOUND end;
  sfs_create name dir s :=
    if sim_refuse s SimCreate then (Err (efi_error 9), s)
    else match sim_look s name with
         | Some n => (Ok (node_kind n), s)
         | None => let n := if dir then NDir else NFile [] in (Ok (node_kind n), sim_set name (Some n) s)
         end;
  sfs_info name s :=
    match sim_look s name with
    | Some (NFile d) => Ok (len d, false)
    | Some NDir => Ok (0, false)
    | None => Err NOT_FOUND
    end;
  sfs_seek _ _ _ := Ok tt;
  sfs_read name pos n s :=
    match sim_look s name with
    | Some (NFile d) => Ok (take (Z.to_nat n) (drop (Z.to_nat pos) d))
    | _ => Err NOT_FOUND
    end;
  sfs_write name pos data s :=
    match sim_look s name with
    | Some (NFile d) =>
        if sim_refuse s SimWrite then (Err (efi_error 11), sim_set name (Some (NFile (put pos (take 3 data) d))) s)
        else (Ok tt, sim_set name (Some (NFile (put pos data d))) s)
    | _ => (Err NOT_FOUND, s)
    end;
  sfs_delete name s := if sim_refuse s SimDelete then (false, s) else (true, sim_set name None s);
  sfs_entries _ _ := []
}.

Lemma sim_look_set (name q : list Z) (o : option node) (s : SimFat) :
  sim_look (sim_set name o s) q = if bool_decide (sim_fold q = sim_fold name) then o else sim_look s q.
Proof.
  unfold sim_look, sim_set. simpl. case_bool_decide as E.
  - rewrite E. apply lookup_partial_alter_eq.
  - by apply lookup_partial_alter_ne.
Qed.

#[export] Instance sim_laws : SfsLaws SimFat.
Proof.
  refine (Build_SfsLaws SimFat sim_sfs sim_look sim_fold _ _ _ _ _ _ _); simpl.
  - intros s p q E. unfold sim_look. by rewrite E.
  - intros p w s k. destruct (sim_refuse s SimOpen); [done|]. destruct (sim_look s p) as [n|]; [|done]. intros [= <-]. eauto.
  - intros p s size ro d Hi Hv. rewrite Hv in Hi. by injection Hi as <- _.
  - intros p pos n s data d Hr Hv. rewrite Hv in Hr. by injection Hr as <-.
  - intros p dir s. destruct (sim_refuse s SimCreate); [done|]. destruct (sim_look s p) as [n|] eqn:E; [done|].
    split; [done|]. intros q. apply sim_look_set.
  - intros p pos data s d Hv. rewrite Hv. destruct (sim_refuse s SimWrite).
    + exists 3%nat. split; [done|]. intros q. apply sim_look_set.
    + exists (length data). split; [done|]. intros q. rewrite sim_look_set, firstn_all. done.
  - intros p s. destruct (sim_refuse s SimDelete); simpl; [done|]. intros q. apply sim_look_set.
Defined.

Definition no_refusal (_ : sim_op) : bool := false.
Definition sim_of (files : list (list Z * list Z)) (refuse : sim_op -> bool) : SimFat :=
  mkSim (list_to_map ((fun f => (sim_fold ((fun c => if c =? c_slash then c_backslash else c) <$> f.1), NFile f.2)) <$> files)) refuse.

Definition only_refuses (op op' : sim_op) : bool :=
  match op, op' with
  | SimOpen, SimOpen | SimCreate, SimCreate | SimWrite, SimWrite | SimDelete, SimDelete => true
  | _, _ => false
  end.

#[local] Notation demo_log := (sim_of [(lit "/a.log", lit "one.")] (only_refuses SimWrite)).

Lemma true_append_never_loses_witness :
  (fat_true_append (lit "/A.log") (lit "two.") demo_log).1 = Err (FsIo (efi_error 11)) /\
  (node_at (fat_true_append (lit "/A.log") (lit "two.") demo_log).2 (lit "/A.log") = node_at demo_log (lit "/A.log") \/
   exists n, node_at (fat_true_append (lit "/A.log") (lit "two.") demo_log).2 (lit "/A.log") =
     Some (NFile (lit "one." ++ take n (lit "two.")))).
Proof.
  split; [vm_compute; reflexivity|].
  pose proof (true_append_never_loses (lit "/A.log") (lit "two.") demo_log) as T.
  assert (node_at demo_log (lit "/A.log") = Some (NFile (lit "one."))) as E by (vm_compute; reflexivity).
  rewrite E in T.
  assert ((fat_true_append (lit "/A.log") (lit "two.") demo_log).1 = Err (FsIo (efi_error 11))) as R by (vm_compute; reflexivity).
  rewrite E. destruct (fat_true_append (lit "/A.log") (lit "two.") demo_log) as [r s']. simpl in R. subst r. exact (proj2 T).
Defined.

#[local] Notation demo_disk := (mkFat (sim_of [(lit "/b.json", lit "longer")] no_refusal) cache_new).

Lemma write_then_read_witness :
  (esp_write (lit "/b.json") (lit "new") demo_disk).1 = Ok tt /\
  (vol_read_cached (lit "/b.json") (esp_write (lit "/b.json") (lit "new") demo_disk).2).1 = Ok (lit "new") /\
  forall q, ~ same_file q (lit "/b.json") ->
    node_at (fv_st (esp_write (lit "/b.json") (lit "new") demo_disk).2) q = node_at (fv_st demo_disk) q.
Proof.
  split; [vm_compute; reflexivity|]. split; [vm_compute; reflexivity|].
  apply (write_then_read (lit "/b.json") (lit "new") (lit "new") demo_disk (esp_write (lit "/b.json") (lit "new") demo_disk).2);
    vm_compute; reflexivity.
Defined.

#[local] Notation demo_counted := (mkFat (sim_of [(lit "/loader/entries/arch+3-0.conf", lit "linux /vmlinuz")] no_refusal) cache_new).
#[local] Notation old_path := (lit "/loader/entries/arch+3-0.conf").
#[local] Notation new_path := (lit "/loader/entries/arch+2-1.conf").

Lemma decrement_keeps_entry_witness :
  exists fv l nv, decrement_boot_count (entry_of_name (lit "arch+3-0.conf")) (FatVol demo_counted None) (∅ : var_map)
    = (Some (lit "arch+2-1.conf"), FatVol fv l, nv) /\
  node_at (fv_st fv) new_path = Some (NFile (lit "linux /vmlinuz")) /\ node_at (fv_st fv) old_path = None.
Proof.
  assert (~ same_file (St := SimFat) old_path new_path) as Hne.
  { intros (wp & wq & Hp & Hq & Hf). vm_compute in Hp, Hq. injection Hp as <-. injection Hq as <-. vm_compute in Hf. discriminate Hf. }
  pose proof (decrement_keeps_entry (St := SimFat) (entry_of_name (lit "arch+3-0.conf")) (lit "arch+2-1.conf") old_path new_path
    (lit "\loader\entries\arch+2-1.conf") (lit "linux /vmlinuz") demo_counted None (∅ : var_map) ltac:(vm_compute; reflexivity) ltac:(vm_compute; reflexivity)
    ltac:(vm_compute; reflexivity) Hne ltac:(vm_compute; reflexivity) ltac:(vm_compute; reflexivity)) as T.
  assert ((decrement_boot_count (entry_of_name (lit "arch+3-0.conf")) (FatVol demo_counted None) (∅ : var_map)).1.1
    = Some (lit "arch+2-1.conf")) as R by (vm_compute; reflexivity).
  destruct (decrement_boot_count (entry_of_name (lit "arch+3-0.conf")) (FatVol demo_counted None) (∅ : var_map)) as [[r v'] nv].
  simpl in R. subst r. destruct v' as [fv l|]; [|destruct T].
  exists fv, l, nv. split; [reflexivity|]. destruct T as (_ & To & [Tn|(old & Hold & _)] & _); [by split|].
  vm_compute in Hold. discriminate Hold.
Defined.

(** A rename that stops before the deletion leaves the entry under both names;
    the next attempt renames over the copy. *)
Theorem half_done_rename :
  let fv := mkFat (sim_of [(old_path, lit "linux /vmlinuz"); (new_path, lit "linux /vmlinuz")] no_refusal) cache_new in
  let '(r, fv) := esp_rename ENTRIES_DIR (lit "arch+3-0.conf") (lit "arch+2-1.conf") fv in
  r = Ok tt /\ node_at (fv_st fv) old_path = None /\ node_at (fv_st fv) new_path = Some (NFile (lit "linux /vmlinuz")).
Proof. vm_compute. done. Qed.

(** [EspWriter::append] says it creates a missing file; its read of the missing
    file fails with an I/O error, not with [NotFound], and so does the append. *)
Theorem append_missing_fails :
  (esp_append (lit "/EFI/LamBoot/reports/boot.log") (lit "x") (mkFat (sim_of [] no_refusal) cache_new)).1
  = Err (FsIo NOT_FOUND).
Proof. vm_compute. reflexivity. Qed.

(** A write that fails after the old file is deleted does not drop the file from
    the cache: reads keep returning contents that are no longer on the disk. *)
Theorem failed_write_stale :
  let fv := mkFat (sim_of [(lit "/p.toml", lit "old")] (only_refuses SimCreate)) cache_new in
  let fv := (vol_read_cached (lit "/p.toml") fv).2 in
  let '(r, fv) := esp_write (lit "/p.toml") (lit "new") fv in
  r = Err (FsIo (efi_error 9)) /\ node_at (fv_st fv) (lit "/p.toml") = None /\
  (vol_read_cached (lit "/p.toml") fv).1 = Ok (lit "old").
Proof. vm_compute. done. Qed.
