(* ===== verification/Dispatch.v ===== *)
(** * Filesystem dispatch (fs_backend_lvm_dispatch.rs)

    A byte source (a logical volume, a partition, an ISO file) is probed once
    for the signatures of the known filesystems and given to the matching
    reader.  The readers are external crates: a record of functions. *)
From S2P Require Import Prelude Compare RustStr VersionOrder BlsParse FsTypes BootTypes SecureBoot SecurityOverride VolumeFs BlockSource Partitions.
Local Open Scope Z_scope.

Inductive ProbedFs : Type :=
  | PfExt4 | PfBtrfs | PfXfs | PfFat | PfErofs | PfIso9660 | PfCramfs | PfRomfs | PfSquashfs | PfUdf | PfUnknown.

#[export] Instance ProbedFs_eq_dec : EqDecision ProbedFs.
Proof. solve_decision. Defined.

Definition PROBE_BYTES : Z := 65536 + 4096.

(** [stringify!] keeps the quotes of the literal. *)
Definition io_err : FsError := FsUnsupported (String (Ascii.ascii_of_nat 34) ("LV probe I/O error" ++ String (Ascii.ascii_of_nat 34) EmptyString))%string.

(** [filled >= off + N && &buf[off..off + N] == MAGIC] *)
Definition has_magic (off : Z) (magic data : list Z) : bool :=
  (off + len magic <=? len data) && bool_decide (sub_list off (off + len magic) data = magic).

(** The checks on the bytes that were read, in their order. *)
Definition sniff_window (buf : list Z) : option ProbedFs :=
  if has_magic (1024 + 56) [0x53; 0xEF] buf then Some PfExt4
  else if has_magic (0x10000 + 0x40) (lit "_BHRfS_M") buf then Some PfBtrfs
  else if has_magic 0 (lit "XFSB") buf then Some PfXfs
  else if has_magic 1024 [0xE2; 0xE1; 0xF5; 0xE0] buf then Some PfErofs
  else if has_magic 0x8001 (lit "CD001") buf then Some PfIso9660
  else if has_magic 0 [0x45; 0x3D; 0xCD; 0x28] buf then Some PfCramfs
  else if has_magic 0 (lit "-rom1fs-") buf then Some PfRomfs
  else if has_magic 0 [0x68; 0x73; 0x71; 0x73] buf then Some PfSquashfs
  else if has_magic 510 [0x55; 0xAA] buf && (has_magic 0x36 (lit "FAT") buf || has_magic 0x52 (lit "FAT") buf) then Some PfFat
  else None.

Section probe.
Context `{BlockSource Src}.

Definition seek_or_err (pos : Z) (s : Src) : res FsError unit * Src :=
  match bs_seek (SeekStart pos) s with
  | (Ok _, s') => (Ok tt, s')
  | (Err _, s') => (Err io_err, s')
  | (Panic, s') => (Panic, s')
  end.

(** The read loops: they stop when the buffer is full or the source ends; one
    round per read, [None] if the rounds run out. *)
Fixpoint fill_short (fuel : nat) (size : Z) (filled : list Z) (s : Src) : option (res FsError (list Z) * Src) :=
  if len filled <? size then
    match fuel with
    | O => None
    | S fuel' =>
        match bs_read (size - len filled) s with
        | (Ok got, s') => if len got =? 0 then Some (Ok filled, s') else fill_short fuel' size (filled ++ got) s'
        | (Err _, s') => Some (Err io_err, s')
        | (Panic, s') => Some (Panic, s')
        end
    end
  else Some (Ok filled, s).

(** Seek, read up to [size] bytes, rewind. *)
Definition read_window (pos size : Z) (s : Src) : option (res FsError (list Z) * Src) :=
  match seek_or_err pos s with
  | (Ok _, s) =>
      match fill_short (Z.to_nat size) size [] s with
      | Some (Ok filled, s) =>
          match seek_or_err 0 s with
          | (Ok _, s) => Some (Ok filled, s)
          | (Err e, s) => Some (Err e, s)
          | (Panic, s) => Some (Panic, s)
          end
      | r => r
      end
  | (Err e, s) => Some (Err e, s)
  | (Panic, s) => Some (Panic, s)
  end.

Definition probe_udf_anchor (s : Src) : option (res FsError bool * Src) :=
  match read_window (256 * 2048) 2 s with
  | Some (Ok tag, s) => Some (Ok ((len tag =? 2) && (from_le tag =? 2)), s)
  | Some (Err e, s) => Some (Err e, s)
  | Some (Panic, s) => Some (Panic, s)
  | None => None
  end.

Definition probe_source_superblock (s : Src) : option (res FsError ProbedFs * Src) :=
  match read_window 0 PROBE_BYTES s with
  | Some (Ok buf, s) =>
      match sniff_window buf with
      | Some k => Some (Ok k, s)
      | None =>
          match probe_udf_anchor s with
          | Some (Ok udf, s) => Some (Ok (if udf : bool then PfUdf else PfUnknown), s)
          | Some (Err e, s) => Some (Err e, s)
          | Some (Panic, s) => Some (Panic, s)
          | None => None
          end
      end
  | Some (Err e, s) => Some (Err e, s)
  | Some (Panic, s) => Some (Panic, s)
  | None => None
  end.
End probe.

(** ** Dispatch *)
(** A mounted filesystem. *)
Record Opened : Type := mkOpened {
  op_backend : FsBackend;
  op_tag : list Z;
  op_uuid : option (list Z);
  op_label : option (list Z)
}.

(** The readers, over a source of one kind. *)
Record Factories (Src : Type) : Type := mkFactories {
  fa_ext4 : Src -> res FsError Opened;
  fa_btrfs : Src -> option (list Z) -> res FsError Opened;
  fa_xfs : Src -> res FsError Opened;
  fa_lamfold : ProbedFs -> Src -> res FsError FsBackend        (* [F::open] at a frontend, with [map_fold_err] *)
}.
Arguments fa_ext4 {_}. Arguments fa_btrfs {_}. Arguments fa_xfs {_}. Arguments fa_lamfold {_}.

(** The readers over a logical volume; the second argument is its [vg/lv]. *)
Record LvFactories (Src : Type) : Type := mkLvFactories {
  lv_ext4 : Src -> list Z -> res FsError Opened;
  lv_btrfs : Src -> list Z -> res FsError Opened;
  lv_xfs : Src -> res FsError Opened;
  lv_fat : Src -> res FsError Opened
}.
Arguments lv_ext4 {_}. Arguments lv_btrfs {_}. Arguments lv_xfs {_}. Arguments lv_fat {_}.

Definition EXT4_BACKEND_TAG : list Z := lit "ext4-view@0.9.3".
Definition BTRFS_BACKEND_TAG : list Z := lit "lambutter@0.3.0-path".
Definition XFS_BACKEND_TAG : list Z := lit "lamxfs@0.1.0".
Definition LVM_EXT4_BACKEND_TAG : list Z := lit "lvm+ext4-view@0.9.3".
Definition LVM_BTRFS_BACKEND_TAG : list Z := lit "lvm+lambutter@0.3.0-path".
Definition LVM_FAT_RO_BACKEND_TAG : list Z := lit "lvm+fatfs-ro@0.4.0-git".

(** The reader's result under its backend's tag. *)
Definition tagged (tag : list Z) (r : res FsError Opened) : res FsError Opened :=
  match r with Ok o => Ok (mkOpened (op_backend o) tag (op_uuid o) (op_label o)) | Err e => Err e | Panic => Panic end.

Definition lamfold_tag (k : ProbedFs) : list Z :=
  match k with
  | PfErofs => lit "lamfold-erofs@0.0.1"
  | PfIso9660 => lit "lamfold-iso@0.0.1"
  | PfCramfs => lit "lamfold-cramfs@0.0.1"
  | PfRomfs => lit "lamfold-romfs@0.0.1"
  | PfSquashfs => lit "lamfold-squash@0.0.1"
  | PfUdf => lit "lamfold-udf@0.0.1"
  | _ => []
  end.

(** [LamfoldBackend] reports no UUID and no label. *)
Definition mount_lamfold {Src : Type} (fa : Factories Src) (k : ProbedFs) (s : Src) : res FsError Opened :=
  match fa_lamfold fa k s with
  | Ok b => Ok (mkOpened b (lamfold_tag k) None None)
  | Err e => Err e
  | Panic => Panic
  end.

Section dispatch.
Context `{BlockSource Src} (fa : Factories Src).

Definition dispatch_fs_over_source (source : Src) (btrfs_fs_uuid : option (list Z)) : option (res FsError Opened) :=
  match probe_source_superblock source with
  | Some (Ok k, s) =>
      Some match k with
           | PfExt4 => tagged EXT4_BACKEND_TAG (fa_ext4 fa s)
           | PfBtrfs => tagged BTRFS_BACKEND_TAG (fa_btrfs fa s btrfs_fs_uuid)
           | PfXfs => tagged XFS_BACKEND_TAG (fa_xfs fa s)
           | PfErofs | PfIso9660 | PfCramfs | PfRomfs | PfSquashfs | PfUdf => mount_lamfold fa k s
           | PfFat => Err (FsUnsupported "FAT over a generic BlockSource is not yet wired (arrives with lamfat)")
           | PfUnknown => Err (FsUnsupported "source superblock did not match any supported filesystem")
           end
  | Some (Err e, _) => Some (Err e)
  | Some (Panic, _) => Some Panic
  | None => None
  end.

Definition dispatch_media_fs_over_source (source : Src) : option (res FsError Opened) :=
  match probe_source_superblock source with
  | Some (Ok k, s) =>
      Some match k with
           | PfErofs | PfIso9660 | PfSquashfs | PfCramfs | PfRomfs | PfUdf => mount_lamfold fa k s
           | PfExt4 | PfBtrfs | PfXfs | PfFat =>
               Err (FsUnsupported "block filesystem (ext4/btrfs/xfs/FAT) has a dedicated boot-sequence mount, not media")
           | PfUnknown => Err (FsUnsupported "no recognized media filesystem")
           end
  | Some (Err e, _) => Some (Err e)
  | Some (Panic, _) => Some Panic
  | None => None
  end.

(** The volume group's name and the opened volume, from [lamlvm]. *)
Context (lv : LvFactories Src) (open_lv : Z -> list Z -> res FsError (Src * list Z)).

(** The mounted filesystem and [vg/lv]. *)
Definition open_lvm_lv_backend (handle : Z) (lv_name : list Z) : option (res FsError (Opened * list Z)) :=
  match open_lv handle lv_name with
  | Ok (reader, vg_name) =>
      let vg_lv := vg_name ++ [c_slash] ++ lv_name in
      let wrap r := match r with Ok o => Ok (o, vg_lv) | Err e => Err e | Panic => Panic end in
      match probe_source_superblock reader with
      | Some (Ok k, s) =>
          Some match k with
               | PfExt4 => wrap (tagged LVM_EXT4_BACKEND_TAG (lv_ext4 lv s vg_lv))
               | PfBtrfs => wrap (tagged LVM_BTRFS_BACKEND_TAG (lv_btrfs lv s vg_lv))
               | PfXfs => wrap (tagged XFS_BACKEND_TAG (lv_xfs lv s))
               | PfFat => wrap (tagged LVM_FAT_RO_BACKEND_TAG (lv_fat lv s))
               | PfErofs | PfIso9660 | PfCramfs | PfRomfs | PfSquashfs | PfUdf =>
                   Err (FsUnsupported "a lamfold media filesystem on an LV is mounted via dispatch_fs_over_source")
               | PfUnknown =>
                   Err (FsUnsupported "LV superblock did not match any supported filesystem (ext2/3/4, btrfs, xfs, or FAT)")
               end
      | Some (Err e, _) => Some (Err e)
      | Some (Panic, _) => Some Panic
      | None => None
      end
  | Err e => Some (Err e)
  | Panic => Some Panic
  end.
End dispatch.

(** ** The reference: the signatures of the formats and their places *)
Definition signatures : list (ProbedFs * list (Z * list Z)) := [
  (PfExt4, [(1080, [0x53; 0xEF])]);
  (PfBtrfs, [(65600, lit "_BHRfS_M")]);
  (PfXfs, [(0, lit "XFSB")]);
  (PfErofs, [(1024, [0xE2; 0xE1; 0xF5; 0xE0])]);
  (PfIso9660, [(32769, lit "CD001")]);
  (PfCramfs, [(0, [0x45; 0x3D; 0xCD; 0x28])]);
  (PfRomfs, [(0, lit "-rom1fs-")]);
  (PfSquashfs, [(0, lit "hsqs")]);
  (PfFat, [(510, [0x55; 0xAA]); (54, lit "FAT")]);
  (PfFat, [(510, [0x55; 0xAA]); (82, lit "FAT")]);
  (PfUdf, [(524288, [2; 0])])
].

(** All the marks are in the bytes, each at its place. *)
Definition carries (data : list Z) (marks : list (Z * list Z)) : bool :=
  forallb (fun m => bool_decide (take (length m.2) (drop (Z.to_nat m.1) data) = m.2)) marks.

Definition identify (data : list Z) : ProbedFs :=
  match find (fun sg => carries data sg.2) signatures with Some (k, _) => k | None => PfUnknown end.

Lemma has_magic_carries (off : Z) (magic data : list Z) :
  0 <= off -> magic <> [] -> has_magic off magic data = bool_decide (take (length magic) (drop (Z.to_nat off) data) = magic).
Proof.
  intros Ho Hm. unfold has_magic, sub_list. replace (off + len magic - off) with (len magic) by lia.
  replace (Z.to_nat (len magic)) with (length magic) by (unfold len; lia).
  destruct (Z.leb_spec (off + len magic) (len data)) as [|Hl]; [done|]. symmetry. apply bool_decide_eq_false.
  intros E. apply (f_equal length) in E. rewrite length_take, length_drop in E. unfold len in *.
  assert (length magic <> 0)%nat by by destruct magic. lia.
Qed.

Lemma has_magic_window (off n : Z) (magic data : list Z) :
  0 <= off -> magic <> [] -> off + len magic <= n -> has_magic off magic (sub_list 0 n data) = has_magic off magic data.
Proof.
  intros Ho Hm Hn. rewrite !has_magic_carries by done. apply bool_decide_ext.
  unfold sub_list. rewrite drop_0, Z.sub_0_r, skipn_firstn_comm, take_take.
  replace (length magic `min` _)%nat with (length magic); [done|]. unfold len in *. lia.
Qed.

Lemma find_cons {A : Type} (f : A -> bool) (x : A) (l : list A) : find f (x :: l) = if f x then Some x else find f l.
Proof. done. Qed.

(** The checks on the window and the anchor, against the table. *)
Lemma sniff_identify (data : list Z) :
  match sniff_window (sub_list 0 PROBE_BYTES data) with
  | Some k => k
  | None => if has_magic 524288 [2; 0] data then PfUdf else PfUnknown
  end = identify data.
Proof.
  unfold identify, signatures, sniff_window. change (1024 + 56) with 1080. change (0x10000 + 0x40) with 65600.
  change (lit "hsqs") with [0x68; 0x73; 0x71; 0x73]. rewrite !has_magic_window by (vm_compute; congruence).
  rewrite !has_magic_carries by (lia || done). rewrite !find_cons. cbn [fst snd carries forallb].
  repeat match goal with |- context [bool_decide (take ?n (drop ?o data) = ?m)] =>
    let b := fresh "b" in set (b := bool_decide (take n (drop o data) = m)); clearbody b end.
  repeat match goal with |- context [if ?b then _ else _] => is_var b; destruct b; simpl; try done end.
  all: repeat match goal with b : bool |- _ => destruct b end; done.
Qed.

Section probe_spec.
Context `{SourceLaws Src}.

Lemma sub_list_past {A : Type} (lo m n : Z) (l : list A) :
  0 <= lo -> 0 <= m -> m <= n -> len l <= lo + m -> sub_list lo (lo + m) l = sub_list lo (lo + n) l.
Proof.
  intros. unfold sub_list. rewrite !take_ge; [done|..]; rewrite length_drop; unfold len in *; lia.
Qed.

(** The bytes from the offset, up to the end of the source; or a read error of a failing device. *)
Definition window_ok (data : list Z) (off size : Z) (s0 : Src) (s' : Src) (r : res FsError (list Z)) : Prop :=
  match r with
  | Ok bytes => bytes = sub_list off (off + size) data /\ (exists p, src_at s' data p) /\ (src_good s0 -> src_good s')
  | Err e => e = io_err /\ ~ src_good s0
  | Panic => False
  end.

Lemma fill_short_ok (data : list Z) (off size : Z) (s0 : Src) (fuel : nat) (filled : list Z) (s : Src) :
  0 <= off <= u64_max -> 0 < size <= isize_max -> (Z.to_nat (size - len filled) <= fuel)%nat ->
  src_at s data (off + len filled) -> (src_good s0 -> src_good s) ->
  len filled <= size -> (filled = [] \/ off + len filled <= len data) ->
  filled = sub_list off (off + len filled) data ->
  exists r s', fill_short fuel size filled s = Some (r, s') /\ window_ok data off size s0 s' r.
Proof.
  revert filled s. induction fuel as [|fuel IH]; intros filled s Ho Hz Hf Hat Hg Hle Hin Hd; simpl;
    pose proof (len_nonneg filled); destruct (Z.ltb_spec (len filled) size).
  2,4: exists (Ok filled), s; split; [done|]; assert (len filled = size) as E by lia; rewrite E in Hd; simpl; eauto.
  { lia. }
  pose proof (src_len _ _ _ Hat) as [_ Hlen].
  assert (off + len filled <= u64_max) by (destruct Hin as [->|?]; [change (len (@nil Z)) with 0|]; lia).
  pose proof (src_read s data (off + len filled) (size - len filled) Hat ltac:(lia) ltac:(lia)) as Hr.
  destruct (bs_read (size - len filled) s) as [[got|e|] s']; [| |done].
  2:{ destruct Hr as [Hr _]. exists (Err io_err), s'. split; [done|]. simpl. auto. }
  destruct Hr as (Hat' & Hgot & Hmax & Hend & Hz0 & Hg'). pose proof (len_nonneg got).
  destruct (Z.eqb_spec (len got) 0) as [E|E].
  - exists (Ok filled), s'. split; [done|]. simpl. apply Hz0 in E. split; [|eauto].
    rewrite Hd. apply sub_list_past; rewrite <- ?Hd; lia.
  - assert (off + len filled + len got <= len data) by (destruct (Z.le_gt_cases (len data) (off + len filled)); [by exfalso; apply E, Hz0|lia]).
    apply IH; rewrite ?len_app, ?Z.add_assoc; auto; try lia.
    rewrite Hgot at 1. rewrite Hd at 1. apply sub_list_snoc; lia.
Qed.

Lemma read_window_ok (s : Src) (data : list Z) (p pos size : Z) :
  src_at s data p -> 0 <= pos <= u64_max -> 0 < size <= isize_max ->
  exists r s', read_window pos size s = Some (r, s') /\ window_ok data pos size s s' r /\ (forall b, r = Ok b -> src_at s' data 0).
Proof.
  intros Hat Hp Hz. unfold read_window, seek_or_err.
  destruct (src_seek s data p pos Hat Hp) as (s1 & -> & Hat1 & Hg1).
  destruct (fill_short_ok data pos size s (Z.to_nat size) [] s1) as (r & s2 & -> & Hr); auto;
    rewrite ?len_nil, ?Z.add_0_r; auto; try lia.
  { unfold sub_list. by rewrite Z.sub_diag. }
  destruct r as [bytes|e|]; [|by exists (Err e), s2|done].
  destruct Hr as (Hb & (q & Hq) & Hg2). destruct (src_seek s2 data q 0 Hq ltac:(done)) as (s3 & -> & Hat3 & Hg3).
  exists (Ok bytes), s3. split; [done|]. split; [|eauto]. simpl. eauto 6.
Qed.

Lemma udf_tag (off : Z) (data : list Z) :
  0 <= off -> Forall is_byte data ->
  let tag := sub_list off (off + 2) data in
  (len tag =? 2) && (from_le tag =? 2) = has_magic off [2; 0] data.
Proof.
  intros Ho Hb tag. rewrite has_magic_carries by done. replace (length [2; 0]) with (Z.to_nat (off + 2 - off)) by (simpl; lia).
  change (take _ _) with tag. assert (Forall is_byte tag) as Ht by by apply Forall_sub_list.
  assert (length tag <= 2)%nat by (unfold tag, sub_list; rewrite length_take; lia). clearbody tag.
  destruct tag as [|a [|b [|]]]; try done;
    [symmetry; by apply bool_decide_eq_false|  |simpl in H1; lia].
  inversion_clear Ht as [|?? Ha Ht']. inversion_clear Ht' as [|?? Hb' _]. unfold is_byte in *.
  change (len [a; b] =? 2) with true. cbn [andb from_le]. apply eq_true_iff_eq. rewrite Z.eqb_eq, bool_decide_eq_true. split.
  - intros. f_equal; [|f_equal]; lia.
  - intros [= -> ->]. done.
Qed.
End probe_spec.

Lemma probe_source_ok `{SourceLaws Src} (s : Src) (data : list Z) (p : Z) :
  src_at s data p -> Forall is_byte data ->
  exists r s', probe_source_superblock s = Some (r, s') /\
    match r with
    | Ok k => k = identify data /\ src_at s' data 0
    | Err e => e = io_err /\ ~ src_good s
    | Panic => False
    end.
Proof.
  intros Hat Hb. unfold probe_source_superblock.
  destruct (read_window_ok s data p 0 PROBE_BYTES Hat) as (r & s1 & -> & Hr & Hs0); [done|done|].
  destruct r as [buf|e|]; [|by exists (Err e), s1|done].
  destruct Hr as (-> & _ & Hg). specialize (Hs0 _ eq_refl). pose proof (sniff_identify data) as Hid. change (0 + PROBE_BYTES) with PROBE_BYTES.
  destruct (sniff_window _) as [k|]; [by exists (Ok k), s1|]. unfold probe_udf_anchor.
  destruct (read_window_ok s1 data 0 (256 * 2048) 2 Hs0) as (r & s2 & -> & Hr & H2); [done|done|].
  destruct r as [tag|e|]; [|exists (Err e), s2; split; [done|]; simpl in *; naive_solver|done].
  destruct Hr as (-> & _ & _). eexists (Ok _), s2. split; [done|]. split; [|eauto].
  rewrite udf_tag by done. exact Hid.
Qed.

(** C26. Over any lawful source the probe returns, and returns the first
    format of the table whose marks are all in the source's bytes at their
    places (nothing when none is), with the source rewound to its start for
    the reader it is handed to; it fails only when the device does. *)
Theorem probe_source_identifies `{SourceLaws Src} (s : Src) (data : list Z) (p : Z) :
  src_at s data p -> Forall is_byte data ->
  exists r s', probe_source_superblock s = Some (r, s') /\
    match r with
    | Ok k => k = identify data /\ src_at s' data 0
    | Err e => e = io_err /\ ~ src_good s
    | Panic => False
    end.
Proof. apply probe_source_ok. Qed.

Definition demo_media : list Z := replicate 1024 0 ++ [0xE2; 0xE1; 0xF5; 0xE0] ++ replicate 1020 0.

Lemma demo_media_bytes : Forall is_byte demo_media.
Proof. repeat apply Forall_app_2; try (apply Forall_replicate; unfold is_byte; lia). repeat constructor; unfold is_byte; lia. Qed.

Lemma probe_source_identifies_witness :
  exists s s', from_block_io (list_io 512 demo_media) = Ok s /\ probe_source_superblock s = Some (Ok PfErofs, s').
Proof.
  destruct (list_io_device 512 demo_media) as [Hd Hg]; [lia|done|done|done|].
  destruct (from_block_io_presents _ _ Hd) as (s & Hs & Hio & Hp).
  assert (src_at s demo_media 0) as Hat by exact Hp.
  destruct (probe_source_identifies s demo_media 0 Hat demo_media_bytes) as (r & s' & E & Hr).
  exists s, s'. split; [done|]. rewrite E. destruct r as [k|e|]; [|destruct Hr as [_ Hr]|done].
  - destruct Hr as [-> _]. by replace (identify demo_media) with PfErofs by by vm_compute.
  - exfalso. apply Hr. simpl. by rewrite Hio.
Defined.

(** ** The two probers

    [partitions::probe_superblock] selects the partitions for the ext4, btrfs
    and XFS passes, [probe_source_superblock] those for the media pass. *)
Definition pass_of (t : FsType) : option ProbedFs :=
  match t with FsExt4 => Some PfExt4 | FsBtrfs => Some PfBtrfs | FsXfs => Some PfXfs | _ => None end.

Lemma le_magic (off : Z) (m data : list Z) :
  0 <= off -> Forall is_byte data -> Forall is_byte m -> off + len m <= len data ->
  (from_le (bytes_at off (len m) data) =? from_le m) = has_magic off m data.
Proof.
  intros Ho Hb Hm Hl. unfold has_magic, bytes_at. rewrite (proj2 (Z.leb_le _ _) Hl). simpl.
  set (b := sub_list off (off + len m) data). assert (Forall is_byte b) as Hb' by by apply Forall_sub_list.
  assert (length b = length m) as E by (unfold b; rewrite length_sub_list by (pose proof (len_nonneg m); lia); unfold len; lia).
  apply eq_true_iff_eq. rewrite Z.eqb_eq, bool_decide_eq_true. split; [|by intros ->].
  intros F. rewrite <- (to_from_le b), <- (to_from_le m) by done. by rewrite E, F.
Qed.

Lemma bytes_magic (off : Z) (m data : list Z) :
  0 <= off -> off + len m <= len data -> bool_decide (bytes_at off (len m) data = m) = has_magic off m data.
Proof. intros Ho Hl. unfold has_magic. by rewrite (proj2 (Z.leb_le _ _) Hl). Qed.

(** On a disk of at least 384 KiB both probers see the same ext4, btrfs and XFS partitions. *)
Lemma probers_agree (data : list Z) :
  Forall is_byte data -> 0x60000 <= len data ->
  match probe_spec data with
  | Some i => match pass_of (fi_type i) with
              | Some k => identify data = k
              | None => identify data <> PfExt4 /\ identify data <> PfBtrfs /\ identify data <> PfXfs
              end
  | None => identify data <> PfExt4 /\ identify data <> PfBtrfs /\ identify data <> PfXfs
  end.
Proof.
  intros Hb Hl. rewrite <- sniff_identify. unfold sniff_window, probe_spec.
  rewrite !has_magic_window by (vm_compute; congruence).
  change 0xEF53 with (from_le [0x53; 0xEF]). pose proof (le_magic (1024 + 0x38) [0x53; 0xEF] data) as E.
  change (len [0x53; 0xEF]) with 2 in E. rewrite E by (done || (by repeat constructor) || lia). clear E.
  pose proof (bytes_magic (0x10000 + 0x40) (lit "_BHRfS_M") data) as E.
  change (len (lit "_BHRfS_M")) with 8 in E. rewrite E by lia. clear E.
  pose proof (bytes_magic 0 (lit "XFSB") data) as E. change (len (lit "XFSB")) with 4 in E. rewrite E by lia. clear E.
  destruct (has_magic (1024 + 0x38) _ data); [done|].
  destruct (has_magic (0x10000 + 0x40) _ data); [done|].
  destruct (has_magic 0 (lit "XFSB") data); [done|].
  cbn beta iota zeta.
  assert (forall (o : option FsInfo) (k : ProbedFs), k <> PfExt4 -> k <> PfBtrfs -> k <> PfXfs -> (forall i, o = Some i -> pass_of (fi_type i) = None) ->
    match o with
    | Some i => match pass_of (fi_type i) with Some k' => k = k' | None => k <> PfExt4 /\ k <> PfBtrfs /\ k <> PfXfs end
    | None => k <> PfExt4 /\ k <> PfBtrfs /\ k <> PfXfs
    end) as Hout by (intros [i|] k ??? Ho; [rewrite (Ho i eq_refl)|]; done).
  apply Hout; [repeat case_match; congruence..|]. intros i Hi. repeat case_match; simplify_eq; done.
Qed.

(** The media pass takes no partition of the other passes: on a disk
    whose reads succeed and that [probe_superblock] reports as ext4, btrfs or
    XFS, [dispatch_media_fs_over_source] refuses the partition, so no
    partition is mounted as a block filesystem and as media. *)
Theorem media_pass_disjoint (fa : Factories BlockIoSource) (m : Media) (data : list Z) (i : FsInfo) (s : BlockIoSource) :
  device (md_io m) data -> device_good (md_io m) -> Forall is_byte data ->
  512 <= bio_block_size (md_io m) -> (bio_block_size (md_io m) | 65536) -> 0x60000 <= len data ->
  probe_superblock (Some m) = Ok (Some i) -> pass_of (fi_type i) <> None ->
  from_block_io (md_io m) = Ok s ->
  dispatch_media_fs_over_source fa s =
    Some (Err (FsUnsupported "block filesystem (ext4/btrfs/xfs/FAT) has a dedicated boot-sequence mount, not media")).
Proof.
  intros Hd Hg Hb H1 H2 Hl Hp Hi Hs. rewrite (probe_disk m data) in Hp by done. injection Hp as Hp.
  pose proof (probers_agree data Hb Hl) as Ha. rewrite Hp in Ha.
  destruct (from_block_io_presents _ _ Hd) as (s0 & Hs0 & Hio & Hat). assert (s0 = s) as -> by congruence.
  unfold dispatch_media_fs_over_source. change (src_at s data 0) in Hat.
  destruct (probe_source_ok s data 0 Hat Hb) as (r & s' & -> & Hr).
  destruct r as [k|e|]; [|exfalso; apply Hr; simpl; by rewrite Hio|done]. destruct Hr as [-> _].
  by destruct (fi_type i); simpl in *; try done; rewrite Ha.
Qed.

Definition no_readers {Src : Type} : Factories Src :=
  let no := Err (FsUnsupported "no reader") in
  {| fa_ext4 := fun _ => no; fa_btrfs := fun _ _ => no; fa_xfs := fun _ => no; fa_lamfold := fun _ _ => Err (FsUnsupported "no reader") |}.

Lemma demo_xfs_disk :
  len demo_xfs = 0x60000 /\ Forall is_byte demo_xfs /\ exists u, probe_spec demo_xfs = Some (mkFsInfo FsXfs u).
Proof.
  split; [|split].
  - unfold demo_xfs. rewrite len_app. unfold len. rewrite length_replicate, Z2Nat.id by lia. done.
  - apply Forall_app_2; [by repeat constructor|]. by apply Forall_replicate.
  - eexists. vm_compute. reflexivity.
Qed.

Lemma media_pass_disjoint_witness :
  exists s, from_block_io (list_io 4096 demo_xfs) = Ok s /\
    dispatch_media_fs_over_source no_readers s =
      Some (Err (FsUnsupported "block filesystem (ext4/btrfs/xfs/FAT) has a dedicated boot-sequence mount, not media")).
Proof.
  destruct demo_xfs_disk as (Hl & Hb & u & Hu).
  destruct (list_io_device 4096 demo_xfs) as [Hd Hg]; [lia|done|by rewrite Hl|by rewrite Hl|].
  destruct (from_block_io_presents _ _ Hd) as (s & Hs & _). exists s. split; [done|].
  set (m := mkMedia (list_io 4096 demo_xfs) true true).
  assert (512 <= bio_block_size (md_io m)) as H1 by (change (512 <= 4096); lia).
  assert (bio_block_size (md_io m) | 65536) as H2 by by exists 16.
  assert (0x60000 <= len demo_xfs) as H3 by lia.
  apply (media_pass_disjoint no_readers m demo_xfs (mkFsInfo FsXfs u) s Hd Hg Hb H1 H2 H3); [|done|exact Hs].
  rewrite (probe_disk m demo_xfs Hd Hg H1 H2 H3). by rewrite Hu.
Defined.
