(* ===== verification/Mounts.v ===== *)
(** * Mounting the volumes of a boot (main.rs, fs.rs, mount_xbootldr of partitions.rs)

    The firmware's FAT volumes, the XBOOTLDR partition, one pass per block
    filesystem, the ZFS pools, the media pass and the LVM pass, in the order of
    [run_bootloader].  A mounted reader holds the BlockIO of its partitions
    exclusively, so that a later exclusive open of them is refused (UEFI 2.10,
    7.3.9).  The readers over external crates are records of functions. *)
From S2P Require Import Prelude Compare RustStr VersionOrder BlsParse FsTypes BootTypes TrustLog Nvram Health SecureBoot SecurityOverride VolumeFs BlockSource Partitions FatFs Dispatch.
Local Open Scope Z_scope.

(** ** Identities *)
Record VolumeIdentity : Type := mkIdentity {
  vi_partition_guid : option Guid;
  vi_fs_uuid : option (list Z);
  vi_label : option (list Z);
  vi_index : Z;
  vi_backend_tag : list Z
}.

Definition describe (i : VolumeIdentity) : list Z :=
  [91] ++ vi_backend_tag i ++ lit " #" ++ fmt_dec (vi_index i)
  ++ match vi_fs_uuid i with Some u => lit " fs-uuid=" ++ uuid_display u | None => [] end
  ++ match vi_partition_guid i with Some g => lit " part=" ++ g | None => [] end
  ++ match vi_label i with Some l => lit " label=" ++ l | None => [] end
  ++ [93].

Definition fs_log_token (e : FsError) : string :=
  match e with
  | FsNotFound => "not_found"
  | FsPermissionDenied => "permission_denied"
  | FsIsDirectory => "is_directory"
  | FsNotDirectory => "not_directory"
  | FsInvalidPath _ => "invalid_path"
  | FsUnsupported _ => "unsupported"
  | FsUnsupportedFeature _ _ => "unsupported_feature"
  | FsCorrupt _ => "fs_corrupt"
  | FsIntegrityFailed _ => "integrity_failed"
  | FsFileTooLarge _ _ => "file_too_large"
  | FsIo _ => "io_error"
  | FsBackendOther => "backend_other"
  end.

(** ** The UUID of the btrfs prober, as bytes again *)
Definition hex_nibble (b : Z) : option Z :=
  if (48 <=? b) && (b <=? 57) then Some (b - 48)
  else if (97 <=? b) && (b <=? 102) then Some (b - 97 + 10)
  else if (65 <=? b) && (b <=? 70) then Some (b - 65 + 10)
  else None.

(** The pairs of one chunk, in [chunks(2)]; [bytes] has the bytes so far. *)
Fixpoint uuid_pairs (bytes chunk : list Z) : option (list Z) :=
  match chunk with
  | [] => Some bytes
  | [_] => None
  | h :: l :: rest =>
      if (16 <=? length bytes)%nat then None
      else
        match hex_nibble h, hex_nibble l with
        | Some hi, Some lo => uuid_pairs (bytes ++ [Z.lor (Z.shiftl hi 4) lo]) rest
        | _, _ => None
        end
  end.

Definition parse_btrfs_uuid_string (s : list Z) : option (list Z) :=
  match fold_left (fun acc chunk => acc ≫= fun bytes => uuid_pairs bytes chunk) (split_char c_dash s) (Some []) with
  | Some bytes => if (length bytes =? 16)%nat then Some bytes else None
  | None => None
  end.

(** ** Tags *)
Definition EXFAT_BACKEND_TAG : list Z := lit "lamexfat@0.1.0".
Definition ZFS_BACKEND_TAG : list Z := lit "lamzfs@0.1.0".
Definition FAT_RO_BACKEND_TAG : list Z := lit "fatfs-ro@0.4.0-git".
Definition FAT_TAG : list Z := lit "fat".

Definition LV_NAME_CANDIDATES : list (list Z) :=
  [lit "root"; lit "pve-root"; lit "system"; lit "ubuntu-lv"; lit "rootlv"].

(** ** The readers *)
Record Readers (Lv : Type) : Type := mkReaders {
  rd_parts : Factories BlockIoSource;                              (* the readers over a partition *)
  rd_exfat : BlockIoSource -> res FsError Opened;
  rd_fat_ro : BlockIO -> res FsError Opened;                       (* [FatRoBackend] over an adapter *)
  rd_peek_pool : BlockIoSource -> option Z;                        (* [lamzfs::peek_pool_id] *)
  rd_mount_pool : list BlockIoSource -> res FsError (list Opened); (* one per dataset *)
  rd_lvs : LvFactories Lv;                                         (* the readers over a logical volume *)
  rd_open_lv : BlockIoSource -> list Z -> res FsError (Lv * list Z)  (* and the volume group's name *)
}.
Arguments rd_parts {_}. Arguments rd_exfat {_}. Arguments rd_fat_ro {_}. Arguments rd_peek_pool {_}.
Arguments rd_mount_pool {_}. Arguments rd_lvs {_}. Arguments rd_open_lv {_}.

(** ** Mounted volumes *)
(** A volume, the partitions it reads, and whether it holds their BlockIO exclusively: the firmware's
    driver is used through SimpleFileSystem, and the read-only FAT reader opens BlockIO with GetProtocol. *)
Record Mounted (St : Type) : Type := mkMounted {
  mv_identity : VolumeIdentity;
  mv_vol : Vol St;
  mv_reads : list Z;
  mv_holds : bool
}.
Arguments mkMounted {_}. Arguments mv_identity {_}. Arguments mv_vol {_}. Arguments mv_reads {_}. Arguments mv_holds {_}.

Section mounts.
Context {St Lv : Type} `{BlockSource Lv} (fw : PartFw) (rd : Readers Lv).
(** The file system of the firmware's driver on a handle, as a first or as a second open of it sees it, and its label. *)
Context (fat_state : Z -> bool -> St) (fat_label : Z -> option (list Z)).

(** The volumes so far and the trust log. *)
Record Mounts : Type := mkMounts { mo_vols : list (Mounted St); mo_log : TrustLog }.

Definition log_event (ev : TrustEvent) (m : Mounts) : Mounts := mkMounts (mo_vols m) (record ev (mo_log m)).

Definition held (vols : list (Mounted St)) : list Z := vols ≫= fun v => if mv_holds v then mv_reads v else [].

(** [open_protocol_exclusive::<BlockIO>] *)
Definition exclusive (hs : list Z) (h : Z) : option Media := if bool_decide (h ∈ hs) then None else pw_exclusive fw h.

(** [BlockIoSource::open]; of the status of a refused open only the token is seen. *)
Definition block_open (hs : list Z) (h : Z) : res FsError BlockIoSource :=
  match exclusive hs h with
  | None => Err (FsIo (efi_error 15))
  | Some m => from_block_io (md_io m)
  end.

(** [(extra_volumes.len() as u32) + 1] *)
Definition next_index (vols : list (Mounted St)) : Z := len vols mod 2 ^ 32 + 1.

Definition partition_guid_for (h : Z) : option Guid :=
  match pw_info fw h with Some (InfoGpt (Some (_, unique))) => Some unique | _ => None end.

Definition or_none (f : list Z -> list Z) (o : option (list Z)) : list Z := from_option f (lit "none") o.

(** The event of a mounted volume; [extra] goes before the index, [role] after it. *)
Definition mounted_event (i : VolumeIdentity) (extra role : list Z) : TrustEvent :=
  with_note (lit "backend=" ++ vi_backend_tag i ++ lit " fs_uuid=" ++ or_none uuid_display (vi_fs_uuid i)
             ++ lit " partition_guid=" ++ or_none (fun g => g) (vi_partition_guid i) ++ extra
             ++ lit " index=" ++ fmt_dec (vi_index i) ++ role)
    (event_new (lit "volume_mounted")).

(** [Volume::from_backend] with the identity, the event and the push. *)
Definition mount_native (i : VolumeIdentity) (o : Opened) (reads : list Z) (ev : TrustEvent) (m : Mounts) : Mounts :=
  let v := mkMounted i (RoVol (mkVolume (vi_backend_tag i) (vi_label i) (op_backend o))) reads true in
  mkMounts (mo_vols m ++ [v]) (record ev (mo_log m)).

(** *** The firmware's volumes *)
Definition fat_volume (guid : option Guid) (index : Z) (again : bool) (h : Z) : Mounted St :=
  mkMounted (mkIdentity guid None (fat_label h) index FAT_TAG)
    (FatVol (mkFat (fat_state h again) cache_new) (fat_label h)) [h] false.

Fixpoint enumerate_fat_volumes (handles : list Z) (next : Z) : list (Mounted St) :=
  match handles with
  | [] => []
  | h :: rest =>
      if pw_open_volume fw h then fat_volume (partition_guid_for h) next false h :: enumerate_fat_volumes rest (next + 1)
      else enumerate_fat_volumes rest next
  end.

Definition enumerate_volumes : list (Mounted St) := enumerate_fat_volumes (pw_sfs_handles fw) 1.

(** *** XBOOTLDR *)
(** [FatRoBackend::open] *)
Definition fat_ro_open (h : Z) : res FsError Opened :=
  match pw_shared fw h with
  | None => Err (FsIo (efi_error 15))
  | Some m => if bio_block_size (md_io m) =? 0 then Err (FsUnsupported "block_size=0") else rd_fat_ro rd (md_io m)
  end.

Definition mount_xbootldr (parts : list DiscoveredPartition) (vols : list (Mounted St)) : res FsError (option (Mounted St)) :=
  match List.find (fun p => bool_decide (dp_type p = PartXbootldr)) parts with
  | None => Ok None
  | Some x =>
      let h := dp_handle x in
      let guid := match partition_guid_for h with Some g => Some g | None => Some (dp_unique_guid x) end in
      if pw_open_volume fw h then
        Ok (Some (fat_volume guid u32_max (existsb (fun v => bool_decide (h ∈ mv_reads v)) vols) h))
      else
        match fat_ro_open h with
        | Ok o =>
            let i := mkIdentity guid (op_uuid o) (op_label o) u32_max FAT_RO_BACKEND_TAG in
            Ok (Some (mkMounted i (RoVol (mkVolume (vi_backend_tag i) (vi_label i) (op_backend o))) [h] false))
        | Err _ => Ok None
        | Panic => Panic
        end
  end.

Definition xbootldr_phase (parts : list DiscoveredPartition) (m : Mounts) : res FsError Mounts :=
  let? r := mount_xbootldr parts (mo_vols m) in
  match r with
  | Some x =>
      Ok (mkMounts (mo_vols m ++ [x]) (record (mounted_event (mv_identity x) [] (lit " role=xbootldr")) (mo_log m)))
  | None =>
      if existsb (fun p => bool_decide (dp_type p = PartXbootldr)) parts then
        Ok (log_event (with_note (lit "XBOOTLDR partition present but unmountable (firmware refused and FatRo failed)")
                         (event_new (lit "xbootldr_mount_failed"))) m)
      else Ok m
  end.

(** *** The passes over the block filesystems *)
(** One partition: probe, open, identity, event. *)
Definition mount_part (k : FsType) (tag : list Z) (open : FsInfo -> BlockIoSource -> res FsError Opened)
    (part : DiscoveredPartition) (m : Mounts) : res FsError Mounts :=
  let h := dp_handle part in
  let hs := held (mo_vols m) in
  let? probed := probe_superblock (exclusive hs h) in
  match probed with
  | None => Ok m
  | Some info =>
      if negb (bool_decide (fi_type info = k)) then Ok m
      else
        match block_open hs h with
        | Ok source =>
            match open info source with
            | Ok o =>
                let i := mkIdentity (Some (dp_unique_guid part)) (op_uuid o) (op_label o) (next_index (mo_vols m)) tag in
                Ok (mount_native i o [h] (mounted_event i [] []) m)
            | Err _ => Ok m
            | Panic => Panic
            end
        | Err _ => Ok m
        | Panic => Panic
        end
  end.

Fixpoint each_part (f : DiscoveredPartition -> Mounts -> res FsError Mounts) (parts : list DiscoveredPartition)
    (m : Mounts) : res FsError Mounts :=
  match parts with
  | [] => Ok m
  | part :: rest => let? m := f part m in each_part f rest m
  end.

Definition ext4_pass := each_part (mount_part FsExt4 EXT4_BACKEND_TAG (fun _ s => fa_ext4 (rd_parts rd) s)).
Definition btrfs_pass :=
  each_part (mount_part FsBtrfs BTRFS_BACKEND_TAG
    (fun info s => fa_btrfs (rd_parts rd) s (fi_uuid info ≫= parse_btrfs_uuid_string))).
Definition xfs_pass := each_part (mount_part FsXfs XFS_BACKEND_TAG (fun _ s => fa_xfs (rd_parts rd) s)).
Definition exfat_pass := each_part (mount_part FsExFat EXFAT_BACKEND_TAG (fun _ s => rd_exfat rd s)).

(** *** ZFS pools *)
(** The members held open of a pool, and the partition that stands for it. *)
Record Pool : Type := mkPool { po_guid : Z; po_members : list (Z * BlockIoSource); po_rep : Guid }.

(** [entry(guid).or_insert_with(..).0.push(member)] in the ordered map. *)
Fixpoint pool_add (guid : Z) (member : Z * BlockIoSource) (rep : Guid) (pools : list Pool) : list Pool :=
  match pools with
  | [] => [mkPool guid [member] rep]
  | q :: rest =>
      if guid <? po_guid q then mkPool guid [member] rep :: pools
      else if guid =? po_guid q then mkPool (po_guid q) (po_members q ++ [member]) (po_rep q) :: rest
      else q :: pool_add guid member rep rest
  end.

Definition pool_handles (pools : list Pool) : list Z := pools ≫= fun q => (po_members q).*1.

Fixpoint group_pools (hs : list Z) (parts : list DiscoveredPartition) (pools : list Pool) : res FsError (list Pool) :=
  match parts with
  | [] => Ok pools
  | part :: rest =>
      let h := dp_handle part in
      let now := hs ++ pool_handles pools in
      let? probed := probe_superblock (exclusive now h) in
      match probed with
      | Some info =>
          if bool_decide (fi_type info = FsZfs) then
            match block_open now h with
            | Ok source =>
                match rd_peek_pool rd source with
                | Some guid => group_pools hs rest (pool_add guid (h, source) (dp_unique_guid part) pools)
                | None => group_pools hs rest pools
                end
            | Err _ => group_pools hs rest pools
            | Panic => Panic
            end
          else group_pools hs rest pools
      | None => group_pools hs rest pools
      end
  end.

Definition zfs_event (q : Pool) (i : VolumeIdentity) : TrustEvent :=
  with_note (lit "backend=" ++ vi_backend_tag i ++ lit " pool_guid=0x" ++ fmt_hex_lower 16 (po_guid q)
             ++ lit " members=" ++ fmt_dec (len (po_members q)) ++ lit " index=" ++ fmt_dec (vi_index i))
    (event_new (lit "volume_mounted")).

Definition mount_dataset (q : Pool) (m : Mounts) (o : Opened) : Mounts :=
  let i := mkIdentity (Some (po_rep q)) None (op_label o) (next_index (mo_vols m)) ZFS_BACKEND_TAG in
  mount_native i o (po_members q).*1 (zfs_event q i) m.

Fixpoint mount_pools (pools : list Pool) (m : Mounts) : res FsError Mounts :=
  match pools with
  | [] => Ok m
  | q :: rest =>
      match rd_mount_pool rd (po_members q).*2 with
      | Ok backends => mount_pools rest (fold_left (mount_dataset q) backends m)
      | Err _ => mount_pools rest m
      | Panic => Panic
      end
  end.

Definition zfs_pass (parts : list DiscoveredPartition) (m : Mounts) : res FsError Mounts :=
  let? pools := group_pools (held (mo_vols m)) parts [] in
  mount_pools pools m.

(** *** Media *)
Definition mount_media (part : DiscoveredPartition) (m : Mounts) : res FsError Mounts :=
  let h := dp_handle part in
  match block_open (held (mo_vols m)) h with
  | Ok source =>
      match dispatch_media_fs_over_source (rd_parts rd) source with
      | Some (Ok o) =>
          let i := mkIdentity (Some (dp_unique_guid part)) (op_uuid o) (op_label o) (next_index (mo_vols m)) (op_tag o) in
          Ok (mount_native i o [h] (mounted_event i [] (lit " role=media")) m)
      | Some (Err _) => Ok m
      | Some Panic | None => Panic
      end
  | Err _ => Ok m
  | Panic => Panic
  end.

Definition media_pass := each_part mount_media.

(** *** LVM *)
Record Candidate : Type := mkCandidate { ca_handle : Z; ca_source : list Z; ca_guid : Guid }.

Definition lvm_candidates (parts : list DiscoveredPartition) : res FsError (list Candidate) :=
  match parts with
  | [] =>
      let? handles := scan_block_io_partitions_for_lvm fw in
      Ok ((fun h => mkCandidate h (lit "blockio_fallback") GUID_ZERO) <$> handles)
  | _ => Ok ((fun p => mkCandidate (dp_handle p) (lit "gpt_typed") (dp_unique_guid p)) <$> parts)
  end.

Definition lv_failed_event (c : Candidate) (lv_name : list Z) (e : FsError) : TrustEvent :=
  with_note (lit "lv_name=" ++ lv_name ++ lit " source=" ++ ca_source c ++ lit " partition_guid=" ++ ca_guid c
             ++ lit " error_token=" ++ lit (fs_log_token e))
    (event_new (lit "lvm_lv_open_failed")).

(** The names in turn; the first that mounts ends the search. *)
Fixpoint mount_lv (c : Candidate) (names : list (list Z)) (m : Mounts) : res FsError Mounts :=
  match names with
  | [] => Ok m
  | lv_name :: rest =>
      let open_lv h name :=
        match block_open (held (mo_vols m)) h with
        | Ok pv => rd_open_lv rd pv name
        | Err e => Err e
        | Panic => Panic
        end in
      match open_lvm_lv_backend (rd_lvs rd) open_lv (ca_handle c) lv_name with
      | Some (Ok (o, vg_lv)) =>
          let i := mkIdentity (Some (ca_guid c)) (op_uuid o) (op_label o) (next_index (mo_vols m)) (op_tag o) in
          Ok (mount_native i o [ca_handle c] (mounted_event i (lit " lv=" ++ vg_lv) []) m)
      | Some (Err e) => mount_lv c rest (log_event (lv_failed_event c lv_name e) m)
      | Some Panic | None => Panic
      end
  end.

Definition fmt_bool (b : bool) : list Z := if b then lit "true" else lit "false".

Definition pv_probe_event (c : Candidate) (hit : bool) : TrustEvent :=
  with_note (lit "source=" ++ ca_source c ++ lit " partition_guid=" ++ ca_guid c ++ lit " signature_found=" ++ fmt_bool hit)
    (event_new (lit "lvm_pv_probe")).

Fixpoint lvm_each (cs : list Candidate) (count : Z) (m : Mounts) : res FsError (Z * Mounts) :=
  match cs with
  | [] => Ok (count, m)
  | c :: rest =>
      let? hit := probe_lvm_pv (exclusive (held (mo_vols m)) (ca_handle c)) in
      let m := log_event (pv_probe_event c hit) m in
      if hit : bool then let? m := mount_lv c LV_NAME_CANDIDATES m in lvm_each rest (count + 1) m
      else lvm_each rest count m
  end.

Definition lvm_pass (parts : list DiscoveredPartition) (m : Mounts) : res FsError Mounts :=
  let? cs := lvm_candidates parts in
  let start := with_note (lit "discovered_partitions=" ++ fmt_dec (len parts) ++ lit " candidate_handles=" ++ fmt_dec (len cs)
                 ++ lit " source=" ++ match parts with [] => lit "blockio_fallback" | _ => lit "gpt_typed" end)
                 (event_new (lit "lvm_probe_pass_start")) in
  let? r := lvm_each cs 0 (log_event start m) in
  Ok (log_event (with_note (lit "pv_signatures_found=" ++ fmt_dec r.1) (event_new (lit "lvm_probe_pass_end"))) r.2).

(** *** All of it *)
(** The superblocks are also probed once for the console, before anything is held. *)
Fixpoint probe_all (hs : list Z) (parts : list DiscoveredPartition) : res FsError unit :=
  match parts with
  | [] => Ok tt
  | part :: rest => let? _ := probe_superblock (exclusive hs (dp_handle part)) in probe_all hs rest
  end.

Definition mount_all (parts : list DiscoveredPartition) (log : TrustLog) : res FsError Mounts :=
  let m := mkMounts enumerate_volumes log in
  let? _ := probe_all (held (mo_vols m)) parts in
  let? m := xbootldr_phase parts m in
  let? m := ext4_pass parts m in
  let? m := btrfs_pass parts m in
  let? m := xfs_pass parts m in
  let? m := exfat_pass parts m in
  let? m := zfs_pass parts m in
  let? m := media_pass parts m in
  lvm_pass parts m.
End mounts.
Arguments mkMounts {_}. Arguments mo_vols {_}. Arguments mo_log {_}.

(** ** What mounting does, as steps *)
Definition is_mounted_event (ev : TrustEvent) : bool := bool_decide (ev_event ev = lit "volume_mounted").

(** The event tells the volume's backend and index. *)
Definition announces (ev : TrustEvent) (i : VolumeIdentity) : Prop :=
  ev_event ev = lit "volume_mounted" /\
  exists a b, ev_note ev = lit "backend=" ++ vi_backend_tag i ++ a ++ lit " index=" ++ fmt_dec (vi_index i) ++ b.

Lemma not_mounted (ev : TrustEvent) : ev_event ev <> lit "volume_mounted" -> is_mounted_event ev = false.
Proof. apply bool_decide_eq_false_2. Qed.

Section steps.
Context {St : Type}.

#[local] Notation Mounts := (@Mounts St).

Inductive mount_step : Mounts -> Mounts -> Prop :=
  | step_event (ev : TrustEvent) (m : Mounts) :
      is_mounted_event ev = false -> mount_step m (log_event ev m)
  | step_volume (i : VolumeIdentity) (o : Opened) (h : Z) (ev : TrustEvent) (m : Mounts) :
      h ∉ held (mo_vols m) -> vi_index i = next_index (mo_vols m) -> announces ev i ->
      mount_step m (mount_native i o [h] ev m)
  | step_pool (q : Pool) (backends : list Opened) (m : Mounts) :
      (forall h, h ∈ (po_members q).*1 -> h ∉ held (mo_vols m)) ->
      mount_step m (fold_left (mount_dataset q) backends m).

#[local] Notation steps := (rtc mount_step).

Lemma mounted_announces (i : VolumeIdentity) (extra role : list Z) : announces (mounted_event i extra role) i.
Proof.
  split; [done|]. exists (lit " fs_uuid=" ++ or_none uuid_display (vi_fs_uuid i)
    ++ lit " partition_guid=" ++ or_none (fun g => g) (vi_partition_guid i) ++ extra), role.
  unfold mounted_event. simpl ev_note. by rewrite <- !app_assoc.
Qed.

Lemma zfs_announces (q : Pool) (i : VolumeIdentity) : announces (zfs_event q i) i.
Proof.
  split; [done|]. exists (lit " pool_guid=0x" ++ fmt_hex_lower 16 (po_guid q) ++ lit " members=" ++ fmt_dec (len (po_members q))), [].
  unfold zfs_event. simpl ev_note. by rewrite app_nil_r, <- !app_assoc.
Qed.
(** Two volumes that hold a partition are datasets of the same pool. *)
Definition exclusive_vols (vols : list (Mounted St)) : Prop :=
  forall i j v w h, vols !! i = Some v -> vols !! j = Some w -> i <> j -> mv_holds v = true -> mv_holds w = true ->
    h ∈ mv_reads v -> h ∈ mv_reads w ->
    vi_backend_tag (mv_identity v) = ZFS_BACKEND_TAG /\ vi_backend_tag (mv_identity w) = ZFS_BACKEND_TAG /\
    mv_reads v = mv_reads w.

(** The index of every volume: its place, counted from one, except that the
    XBOOTLDR volume, which comes next after the firmware's, has the largest. *)
Definition indexed (base vols : list (Mounted St)) : Prop :=
  forall i v, vols !! i = Some v ->
    if mv_holds v then vi_index (mv_identity v) = Z.of_nat i mod 2 ^ 32 + 1
    else if decide (i < length base)%nat then vi_index (mv_identity v) = Z.of_nat i + 1
    else i = length base /\ vi_index (mv_identity v) = u32_max.

(** One event per volume after the first ones, in their order. *)
Definition announced (base : list (Mounted St)) (m : Mounts) : Prop :=
  exists news, mo_vols m = base ++ news /\
    Forall2 announces (List.filter is_mounted_event (tl_events (mo_log m))) (mv_identity <$> news).

Definition mounts_inv (base : list (Mounted St)) (m : Mounts) : Prop :=
  exclusive_vols (mo_vols m) /\ indexed base (mo_vols m) /\ announced base m.

(** Whoever already holds one of the partitions is a dataset on exactly these. *)
Definition shares (reads : list Z) (m : Mounts) : Prop :=
  forall w h, w ∈ mo_vols m -> mv_holds w = true -> h ∈ reads -> h ∈ mv_reads w ->
    vi_backend_tag (mv_identity w) = ZFS_BACKEND_TAG /\ mv_reads w = reads.

Lemma elem_of_held (h : Z) (vols : list (Mounted St)) :
  h ∈ held vols <-> exists v, v ∈ vols /\ mv_holds v = true /\ h ∈ mv_reads v.
Proof.
  unfold held. rewrite list_elem_of_bind. split.
  - intros (v & Hh & Hv). exists v. destruct (mv_holds v); [done|by apply not_elem_of_nil in Hh].
  - intros (v & Hv & Ht & Hh). exists v. by rewrite Ht.
Qed.

Lemma filter_snoc_mounted (evs : list TrustEvent) (ev : TrustEvent) :
  List.filter is_mounted_event (evs ++ [ev]) =
  List.filter is_mounted_event evs ++ (if is_mounted_event ev then [ev] else []).
Proof. rewrite List.filter_app. simpl. by destruct (is_mounted_event ev). Qed.

Lemma event_inv (base : list (Mounted St)) (ev : TrustEvent) (m : Mounts) :
  is_mounted_event ev = false -> mounts_inv base m -> mounts_inv base (log_event ev m).
Proof.
  intros He (H1 & H2 & news & Hv & Ha). split; [done|]. split; [done|]. exists news. split; [done|].
  simpl. by rewrite filter_snoc_mounted, He, app_nil_r.
Qed.

Lemma snoc_inv (base : list (Mounted St)) (v : Mounted St) (ev : TrustEvent) (m : Mounts) :
  mounts_inv base m -> announces ev (mv_identity v) ->
  (mv_holds v = true -> vi_index (mv_identity v) = next_index (mo_vols m) /\ shares (mv_reads v) m /\
     ((exists h, h ∈ mv_reads v /\ h ∈ held (mo_vols m)) -> vi_backend_tag (mv_identity v) = ZFS_BACKEND_TAG)) ->
  (mv_holds v = false -> mo_vols m = base /\ vi_index (mv_identity v) = u32_max) ->
  mounts_inv base (mkMounts (mo_vols m ++ [v]) (record ev (mo_log m))).
Proof.
  intros (H1 & H2 & news & Hv & Ha) He Hn Hnot. split; [|split].
  - assert (forall w j h, mo_vols m !! j = Some w -> mv_holds v = true -> mv_holds w = true -> h ∈ mv_reads v -> h ∈ mv_reads w ->
      vi_backend_tag (mv_identity v) = ZFS_BACKEND_TAG /\ vi_backend_tag (mv_identity w) = ZFS_BACKEND_TAG /\ mv_reads w = mv_reads v) as Hs.
    { intros w j h Hj Hv1 Hw1 Hhv Hhw. destruct (Hn Hv1) as (_ & Hsh & Hz). apply list_elem_of_lookup_2 in Hj.
      destruct (Hsh w h Hj Hw1 Hhv Hhw) as [? ?]. split_and!; [|done|done].
      apply Hz. exists h. split; [done|]. apply elem_of_held. eauto. }
    intros i j x y h Hi Hj Hij Hx Hy Hhx Hhy. simpl in Hi, Hj.
    apply lookup_snoc_Some in Hi as [[Hil Hi]|[-> <-]]; apply lookup_snoc_Some in Hj as [[Hjl Hj]|[-> <-]].
    + by apply (H1 i j x y h).
    + destruct (Hs x i h Hi Hy Hx Hhy Hhx) as (? & ? & ?). done.
    + destruct (Hs y j h Hj Hx Hy Hhx Hhy) as (? & ? & ?). done.
    + done.
  - intros i x Hi. simpl in Hi. apply lookup_snoc_Some in Hi as [[_ Hi]|[-> <-]]; [by apply H2|].
    destruct (mv_holds v); [by destruct (Hn eq_refl) as (-> & _)|]. destruct (Hnot eq_refl) as [-> ->]. by rewrite decide_False by lia.
  - exists (news ++ [v]). simpl. split; [by rewrite Hv, app_assoc|]. rewrite filter_snoc_mounted, fmap_app.
    unfold is_mounted_event at 2. rewrite bool_decide_eq_true_2 by apply He. apply Forall2_app; [done|]. constructor; [done|constructor].
Qed.

Lemma fold_inv (base : list (Mounted St)) (q : Pool) (backends : list Opened) (m : Mounts) :
  mounts_inv base m -> shares (po_members q).*1 m -> mounts_inv base (fold_left (mount_dataset q) backends m).
Proof.
  revert m. induction backends as [|o os IH]; intros m Hm Hs; [done|]. simpl. apply IH.
  - apply snoc_inv; [done|apply zfs_announces| |done]. intros _. split_and!; done.
  - intros w h Hw Hh Hq Hr. simpl in Hw. apply elem_of_app in Hw as [Hw|Hw]; [by apply (Hs w h)|].
    apply list_elem_of_singleton in Hw as ->. done.
Qed.

Lemma steps_inv (base : list (Mounted St)) (m m' : Mounts) : steps m m' -> mounts_inv base m -> mounts_inv base m'.
Proof.
  induction 1 as [|m1 m2 m3 Hs _ IH]; intros Hm; [done|]. apply IH. destruct Hs as [ev m Hev|i o h ev m Hh Hi Ha|q backends m Hh].
  - by apply event_inv.
  - apply snoc_inv; [done|done| |done]. intros _. simpl. assert (shares [h] m) as Hsh.
    { intros w x Hw Hw1 Hx Hr. apply list_elem_of_singleton in Hx as ->. exfalso. apply Hh, elem_of_held. eauto. }
    split_and!; [done|done|]. intros (x & Hx & Hh'). by apply list_elem_of_singleton in Hx as ->.
  - apply fold_inv; [done|]. intros w h Hw Hw1 Hq Hr. exfalso. apply (Hh h Hq), elem_of_held. eauto.
Qed.
End steps.

(** ** Every pass is a sequence of steps *)
Section passes.
Context {St Lv : Type} `{BlockSource Lv} (fw : PartFw) (rd : Readers Lv).
Context (fat_state : Z -> bool -> St) (fat_label : Z -> option (list Z)).

#[local] Notation Mounts := (@Mounts St).
#[local] Notation steps := (rtc (@mount_step St)).

Lemma block_open_free (hs : list Z) (h : Z) (s : BlockIoSource) : block_open fw hs h = Ok s -> h ∉ hs.
Proof. unfold block_open, exclusive. by destruct (bool_decide_reflect (h ∈ hs)). Qed.

Lemma mount_part_steps k tag open (part : DiscoveredPartition) (m m' : Mounts) :
  mount_part fw k tag open part m = Ok m' -> steps m m'.
Proof.
  unfold mount_part. intros E. apply res_bind_ok in E as ([info|] & _ & E); [|by simplify_eq].
  destruct (negb _); [by simplify_eq|]. destruct (block_open _ _ _) as [s|e|] eqn:Hs; [|by simplify_eq|done].
  apply block_open_free in Hs. destruct (open info s) as [o|e|]; [|by simplify_eq|done].
  injection E as <-. apply rtc_once. apply step_volume; [done|done|apply mounted_announces].
Qed.

Lemma each_part_steps f (parts : list DiscoveredPartition) (m m' : Mounts) :
  (forall part m m', f part m = Ok m' -> steps m m') -> each_part f parts m = Ok m' -> steps m m'.
Proof.
  intros Hf. revert m. induction parts as [|p ps IH]; intros m E; simpl in E; [by simplify_eq|].
  apply res_bind_ok in E as (m1 & E1 & E2). etrans; [by eapply Hf|by apply IH].
Qed.

Lemma mount_media_steps (part : DiscoveredPartition) (m m' : Mounts) : mount_media fw rd part m = Ok m' -> steps m m'.
Proof.
  unfold mount_media. destruct (block_open _ _ _) as [s|e|] eqn:Hs; [|by intros; simplify_eq|done].
  apply block_open_free in Hs. destruct (dispatch_media_fs_over_source _ s) as [[o|e|]|]; [|by intros; simplify_eq|done..].
  intros [= <-]. apply rtc_once, step_volume; [done|done|apply mounted_announces].
Qed.

Lemma mount_lv_steps (c : Candidate) (names : list (list Z)) (m m' : Mounts) : mount_lv fw rd c names m = Ok m' -> steps m m'.
Proof.
  revert m. induction names as [|n ns IH]; intros m E; simpl in E; [by simplify_eq|].
  destruct (open_lvm_lv_backend _ _ _ _) as [[[o vg]|e|]|] eqn:Ho; [| |done..].
  - assert (ca_handle c ∉ held (mo_vols m)) as Hh.
    { unfold open_lvm_lv_backend in Ho. destruct (block_open _ _ _) as [s|e|] eqn:Hs; [|done..]. by eapply block_open_free. }
    injection E as <-. apply rtc_once, step_volume; [done|done|apply mounted_announces].
  - eapply rtc_l; [by apply (step_event (lv_failed_event c n e)), not_mounted|by apply IH].
Qed.

Lemma lvm_each_steps (cs : list Candidate) (n n' : Z) (m m' : Mounts) : lvm_each fw rd cs n m = Ok (n', m') -> steps m m'.
Proof.
  revert n m. induction cs as [|c cs IH]; intros n m E; cbn [lvm_each] in E; [by simplify_eq|].
  apply res_bind_ok in E as (hit & _ & E). eapply rtc_l; [by apply (step_event (pv_probe_event c hit)), not_mounted|].
  destruct hit; [|by eapply IH]. apply res_bind_ok in E as (m1 & E1 & E2).
  etrans; [exact (mount_lv_steps _ _ _ _ E1)|exact (IH _ _ E2)].
Qed.

Lemma lvm_pass_steps (parts : list DiscoveredPartition) (m m' : Mounts) : lvm_pass fw rd parts m = Ok m' -> steps m m'.
Proof.
  unfold lvm_pass. intros E. apply res_bind_ok in E as (cs & _ & E). apply res_bind_ok in E as ([n m1] & E1 & E).
  injection E as <-. etrans; [|etrans; [by eapply lvm_each_steps|]]; by apply rtc_once, step_event, not_mounted.
Qed.

(** *** Pools *)
Lemma pool_add_handles (guid : Z) (x : Z * BlockIoSource) (rep : Guid) (pools : list Pool) :
  pool_handles (pool_add guid x rep pools) ≡ₚ x.1 :: pool_handles pools.
Proof.
  unfold pool_handles. induction pools as [|q qs IH]; [done|]. cbn [pool_add].
  destruct (_ <? _); [done|]. destruct (_ =? _).
  - cbn [mbind list_bind po_members]. rewrite fmap_app. cbn [fmap list_fmap]. rewrite <- app_assoc. cbn [app].
    by rewrite Permutation_middle.
  - cbn [mbind list_bind]. unfold mbind in IH. rewrite IH. by rewrite Permutation_middle.
Qed.

Lemma group_pools_handles (hs : list Z) (parts : list DiscoveredPartition) (pools pools' : list Pool) :
  group_pools fw rd hs parts pools = Ok pools' ->
  NoDup (pool_handles pools) -> (forall h, h ∈ pool_handles pools -> h ∉ hs) ->
  NoDup (pool_handles pools') /\ (forall h, h ∈ pool_handles pools' -> h ∉ hs).
Proof.
  revert pools. induction parts as [|p ps IH]; intros pools E Hn Hd; simpl in E; [by simplify_eq|].
  apply res_bind_ok in E as ([info|] & _ & E); [|by eapply IH]. destruct (bool_decide _); [|by eapply IH].
  destruct (block_open _ _ _) as [s|e|] eqn:Hs; [|by eapply IH|done]. destruct (rd_peek_pool rd s); [|by eapply IH].
  apply block_open_free in Hs. rewrite not_elem_of_app in Hs. eapply IH; [exact E|..]; setoid_rewrite pool_add_handles; simpl.
  - constructor; [apply Hs|done].
  - intros h Hh. apply elem_of_cons in Hh as [->|Hh]; [apply Hs|by apply Hd].
Qed.

Lemma fold_dataset_held (q : Pool) (backends : list Opened) (m : Mounts) (h : Z) :
  h ∈ held (mo_vols (fold_left (mount_dataset q) backends m)) -> h ∈ held (mo_vols m) \/ h ∈ (po_members q).*1.
Proof.
  revert m. induction backends as [|o os IH]; intros m Hh; [by left|]. simpl in Hh. apply IH in Hh as [Hh|]; [|by right].
  apply elem_of_held in Hh as (v & Hv & Ht & Hr). simpl in Hv. apply elem_of_app in Hv as [Hv|Hv].
  - left. apply elem_of_held. eauto.
  - apply list_elem_of_singleton in Hv as ->. by right.
Qed.

Lemma mount_pools_steps (pools : list Pool) (m m' : Mounts) :
  mount_pools rd pools m = Ok m' -> NoDup (pool_handles pools) -> (forall h, h ∈ pool_handles pools -> h ∉ held (mo_vols m)) ->
  steps m m'.
Proof.
  revert m. induction pools as [|q qs IH]; intros m E Hn Hd; simpl in E; [by simplify_eq|].
  unfold pool_handles in Hn, Hd. cbn [mbind list_bind] in Hn, Hd. apply NoDup_app in Hn as (_ & Hdis & Hn).
  assert (forall h, h ∈ pool_handles qs -> h ∉ held (mo_vols m)) as Hd' by (intros h Hh; apply Hd, elem_of_app; by right).
  destruct (rd_mount_pool _ _) as [os|e|]; [|by apply IH|done].
  eapply rtc_l; [apply (step_pool q os); intros h Hh; apply Hd, elem_of_app; by left|].
  apply IH; [done|done|]. intros h Hh Hx. apply fold_dataset_held in Hx as [Hx|Hx]; [by apply (Hd' h)|by apply (Hdis h)].
Qed.

Lemma zfs_pass_steps (parts : list DiscoveredPartition) (m m' : Mounts) : zfs_pass fw rd parts m = Ok m' -> steps m m'.
Proof.
  unfold zfs_pass. intros E. apply res_bind_ok in E as (pools & E1 & E2).
  apply group_pools_handles in E1 as [? ?]; [|constructor|by intros ??%not_elem_of_nil]. by eapply mount_pools_steps.
Qed.

(** *** The whole phase *)
Lemma enumerate_not_held (handles : list Z) (next : Z) :
  Forall (fun v => mv_holds v = false) (enumerate_fat_volumes fw fat_state fat_label handles next).
Proof. revert next. induction handles as [|h hs IH]; intros next; simpl; [done|]. destruct (pw_open_volume fw h); auto. Qed.

Lemma enumerate_index (handles : list Z) (next : Z) (i : nat) (v : Mounted St) :
  enumerate_fat_volumes fw fat_state fat_label handles next !! i = Some v -> vi_index (mv_identity v) = next + Z.of_nat i.
Proof.
  revert next i. induction handles as [|h hs IH]; intros next i; simpl; [done|]. destruct (pw_open_volume fw h); [|apply IH].
  destruct i as [|i]; simpl; [intros [= <-]; simpl; lia|]. intros ->%IH. lia.
Qed.

Lemma start_inv (log : TrustLog) :
  let vols := enumerate_volumes fw fat_state fat_label in
  (forall ev, ev ∈ tl_events log -> is_mounted_event ev = false) ->
  mounts_inv vols (mkMounts vols log).
Proof.
  intros vols Hl. pose proof (enumerate_not_held (pw_sfs_handles fw) 1) as Hv. rewrite Forall_lookup in Hv. split; [|split].
  - intros i j v w h Hi _ _ Ht. by rewrite (Hv i v Hi) in Ht.
  - intros i v Hi. simpl in Hi. rewrite (Hv i v Hi), decide_True by by eapply lookup_lt_Some. apply enumerate_index in Hi. lia.
  - exists []. simpl. split; [by rewrite app_nil_r|]. replace (List.filter _ _) with (@nil TrustEvent); [constructor|].
    induction (tl_events log) as [|e es IH]; [done|]. simpl. rewrite Hl by (left). apply IH. intros. apply Hl. by right.
Qed.

Lemma xbootldr_inv (base : list (Mounted St)) (parts : list DiscoveredPartition) (m m' : Mounts) :
  xbootldr_phase fw rd fat_state fat_label parts m = Ok m' -> mo_vols m = base -> mounts_inv base m -> mounts_inv base m'.
Proof.
  unfold xbootldr_phase. intros E Hbase Hm. apply res_bind_ok in E as (r & Hr & E). destruct r as [x|].
  - injection E as <-. assert (mv_holds x = false /\ vi_index (mv_identity x) = u32_max) as [Hh Hx].
    { revert Hr. unfold mount_xbootldr. destruct (List.find _ _) as [p|]; [|done].
      destruct (pw_open_volume _ _); [by intros; simplify_eq|]. destruct (fat_ro_open _ _ _); by intros; simplify_eq. }
    apply snoc_inv; [done|apply mounted_announces|by rewrite Hh|done].
  - destruct (existsb _ _); injection E as <-; [|done]. apply event_inv; [by apply not_mounted|done].
Qed.
End passes.

(** C4. Whatever is on the disks and whatever the readers do, after the mount
    phase (1) two volumes that hold a common partition open are datasets of one
    ZFS pool, so no partition is mounted twice by the readers that open it
    exclusively; (2) a volume that holds its partition, and each of the
    firmware's volumes, has its place in the list of volumes as its index, and
    the only other volume, XBOOTLDR, comes next after the firmware's and has the
    index 2^32 - 1; (3) the trust log has, in the order of mounting, exactly one
    [volume_mounted] event per volume the phase added to the firmware's, with
    that volume's backend and index. *)
Theorem mounts_are_exclusive {St Lv : Type} `{BlockSource Lv} (fw : PartFw) (rd : Readers Lv)
    (fat_state : Z -> bool -> St) (fat_label : Z -> option (list Z)) (parts : list DiscoveredPartition) (log : TrustLog) (m : @Mounts St) :
  mount_all fw rd fat_state fat_label parts log = Ok m ->
  (forall ev, ev ∈ tl_events log -> is_mounted_event ev = false) ->
  exclusive_vols (mo_vols m) /\ indexed (enumerate_volumes fw fat_state fat_label) (mo_vols m) /\
  announced (enumerate_volumes fw fat_state fat_label) m.
Proof.
  unfold mount_all, ext4_pass, btrfs_pass, xfs_pass, exfat_pass, media_pass. intros E Hl.
  apply res_bind_ok in E as ([] & _ & E). apply res_bind_ok in E as (m1 & E1 & E).
  apply xbootldr_inv with (base := enumerate_volumes fw fat_state fat_label) in E1; [|done|by apply start_inv].
  apply res_bind_ok in E as (m2 & E2%each_part_steps & E); [|apply mount_part_steps].
  apply res_bind_ok in E as (m3 & E3%each_part_steps & E); [|apply mount_part_steps].
  apply res_bind_ok in E as (m4 & E4%each_part_steps & E); [|apply mount_part_steps].
  apply res_bind_ok in E as (m5 & E5%each_part_steps & E); [|apply mount_part_steps].
  apply res_bind_ok in E as (m6 & E6%zfs_pass_steps & E).
  apply res_bind_ok in E as (m7 & E7%each_part_steps & E8%lvm_pass_steps); [|apply mount_media_steps].
  eapply (steps_inv _ m1); [|exact E1]. repeat (etrans; [eassumption|]). done.
Qed.

(** ** What gets mounted *)
Section complete.
Context {St Lv : Type} `{BlockSource Lv} (fw : PartFw) (rd : Readers Lv).
Context (fat_state : Z -> bool -> St) (fat_label : Z -> option (list Z)).

#[local] Notation Mounts := (@Mounts St).

(** The reader of the pass for a filesystem. *)
Definition reader_for (t : FsType) : option (list Z * (FsInfo -> BlockIoSource -> res FsError Opened)) :=
  match t with
  | FsExt4 => Some (EXT4_BACKEND_TAG, fun _ s => fa_ext4 (rd_parts rd) s)
  | FsBtrfs => Some (BTRFS_BACKEND_TAG, fun info s => fa_btrfs (rd_parts rd) s (fi_uuid info ≫= parse_btrfs_uuid_string))
  | FsXfs => Some (XFS_BACKEND_TAG, fun _ s => fa_xfs (rd_parts rd) s)
  | FsExFat => Some (EXFAT_BACKEND_TAG, fun _ s => rd_exfat rd s)
  | _ => None
  end.

(** The partition holds the filesystem and its reader accepts it. *)
Definition readable (t : FsType) (h : Z) (tag : list Z) (o : Opened) : Prop :=
  exists md info open source, pw_exclusive fw h = Some md /\ probe_superblock (Some md) = Ok (Some info) /\ fi_type info = t /\
    reader_for t = Some (tag, open) /\ from_block_io (md_io md) = Ok source /\ open info source = Ok o.

(** A volume over the partition as the reader opened it. *)
Definition mounts (part : DiscoveredPartition) (tag : list Z) (o : Opened) (v : Mounted St) : Prop :=
  mv_reads v = [dp_handle part] /\ mv_holds v = true /\ vi_backend_tag (mv_identity v) = tag /\
  vi_partition_guid (mv_identity v) = Some (dp_unique_guid part) /\ vi_fs_uuid (mv_identity v) = op_uuid o /\
  vi_label (mv_identity v) = op_label o /\ mv_vol v = RoVol (mkVolume tag (op_label o) (op_backend o)).

Lemma step_extends (m m' : Mounts) : rtc (@mount_step St) m m' -> forall v, v ∈ mo_vols m -> v ∈ mo_vols m'.
Proof.
  induction 1 as [|m1 m2 m3 Hs _ IH]; [done|]. intros v Hv. apply IH. destruct Hs as [ev m|i o h ev m|q os m].
  - done.
  - simpl. apply elem_of_app. by left.
  - clear IH. revert m Hv H0. induction os as [|o os IH]; intros m Hv Hd; [done|]. simpl.
    assert (v ∈ mo_vols (mount_dataset q m o)) as Hv' by (simpl; apply elem_of_app; by left). clear Hd.
    revert Hv'. generalize (mount_dataset q m o). clear Hv m IH. induction os as [|o' os IH]; intros m Hv; [done|]. simpl. apply IH.
    simpl. apply elem_of_app. by left.
Qed.

Lemma held_snoc (vols : list (Mounted St)) (v : Mounted St) : held (vols ++ [v]) = held vols ++ (if mv_holds v then mv_reads v else []).
Proof. unfold held. rewrite bind_app. simpl. by rewrite app_nil_r. Qed.

(** A pass holds, of what it did not before, only partitions of its own filesystem. *)
Definition typed (t : FsType) (h : Z) : Prop :=
  exists md info, pw_exclusive fw h = Some md /\ probe_superblock (Some md) = Ok (Some info) /\ fi_type info = t.

Lemma mount_part_held k tag open (part : DiscoveredPartition) (m m' : Mounts) (h : Z) :
  mount_part fw k tag open part m = Ok m' -> h ∈ held (mo_vols m') ->
  h ∈ held (mo_vols m) \/ h = dp_handle part /\ typed k h.
Proof.
  unfold mount_part. intros E Hh. apply res_bind_ok in E as (info & Hp & E). destruct info as [info|]; [|simplify_eq; by left].
  destruct (bool_decide_reflect (fi_type info = k)) as [Hk|]; simpl in E; [|simplify_eq; by left].
  destruct (block_open _ _ _) as [s|e|]; [|simplify_eq; by left|done]. destruct (open info s) as [o|e|]; [|simplify_eq; by left|done].
  injection E as <-. simpl in Hh. rewrite held_snoc in Hh. simpl in Hh. apply elem_of_app in Hh as [|Hh]; [by left|right].
  apply list_elem_of_singleton in Hh as ->. split; [done|]. unfold exclusive in Hp.
  destruct (bool_decide _); [done|]. destruct (pw_exclusive fw (dp_handle part)) as [md|] eqn:Hmd; [|done]. by exists md, info.
Qed.

Lemma pass_held k tag open (parts : list DiscoveredPartition) (m m' : Mounts) (h : Z) :
  each_part (mount_part fw k tag open) parts m = Ok m' -> h ∈ held (mo_vols m') -> h ∈ held (mo_vols m) \/ typed k h.
Proof.
  revert m. induction parts as [|p ps IH]; intros m E Hh; simpl in E; [simplify_eq; by left|].
  apply res_bind_ok in E as (m1 & E1 & E2). destruct (IH m1 E2 Hh) as [H1|]; [|by right].
  apply (mount_part_held _ _ _ _ _ _ _ E1) in H1 as [|[_ ?]]; [by left|by right].
Qed.

Lemma mount_part_mounts t tag open (part : DiscoveredPartition) (o : Opened) (m m' : Mounts) :
  mount_part fw t tag open part m = Ok m' -> reader_for t = Some (tag, open) -> readable t (dp_handle part) tag o ->
  dp_handle part ∉ held (mo_vols m) -> exists v, v ∈ mo_vols m' /\ mounts part tag o v.
Proof.
  intros E Hr (md & info & open' & source & Hmd & Hp & Ht & Hr' & Hs & Ho) Hh. assert (open' = open) as -> by congruence.
  unfold mount_part, block_open, exclusive in E. rewrite bool_decide_eq_false_2, Hmd in E by done. rewrite Hp in E. simpl in E.
  rewrite bool_decide_eq_true_2, Hs, Ho in E by done. injection E as <-.
  eexists. split; [apply elem_of_app; right; by apply list_elem_of_singleton|]. by split_and!.
Qed.

Lemma pass_mounts t tag open (parts : list DiscoveredPartition) (part : DiscoveredPartition) (o : Opened) (m m' : Mounts) :
  each_part (mount_part fw t tag open) parts m = Ok m' -> reader_for t = Some (tag, open) -> readable t (dp_handle part) tag o ->
  NoDup (dp_handle <$> parts) -> part ∈ parts -> dp_handle part ∉ held (mo_vols m) ->
  exists v, v ∈ mo_vols m' /\ mounts part tag o v.
Proof.
  intros E Hr Ho. revert m E. induction parts as [|p ps IH]; intros m E Hn Hin Hh; [by apply not_elem_of_nil in Hin|].
  simpl in E. apply res_bind_ok in E as (m1 & E1 & E2). rewrite fmap_cons, NoDup_cons in Hn. destruct Hn as [Hp Hn].
  apply elem_of_cons in Hin as [->|Hin].
  - destruct (mount_part_mounts _ _ _ _ _ _ _ E1 Hr Ho Hh) as (v & Hv & Hm). exists v. split; [|done].
    revert Hv. apply step_extends. eapply each_part_steps, E2. apply mount_part_steps.
  - apply (IH m1); auto. intros Hx. apply (mount_part_held _ _ _ _ _ _ _ E1) in Hx as [Hx|[Hx _]]; [done|].
    apply Hp. rewrite <- Hx. apply list_elem_of_fmap_2. done.
Qed.

Lemma typed_fun (t t' : FsType) (h : Z) : typed t h -> typed t' h -> t = t'.
Proof. intros (md & i & H1 & H2 & <-) (md' & i' & H1' & H2' & <-). congruence. Qed.

Lemma xbootldr_held (parts : list DiscoveredPartition) (log : TrustLog) (m : Mounts) (h : Z) :
  xbootldr_phase fw rd fat_state fat_label parts (mkMounts (enumerate_volumes fw fat_state fat_label) log) = Ok m ->
  h ∉ held (mo_vols m).
Proof.
  intros E Hh. assert (Forall (fun v => mv_holds v = false) (mo_vols m)) as Hf.
  { unfold xbootldr_phase in E. apply res_bind_ok in E as (r & Hr & E). simpl in Hr, E. destruct r as [x|].
    - injection E as <-. apply Forall_app_2; [apply enumerate_not_held|]. constructor; [|done]. revert Hr. unfold mount_xbootldr.
      destruct (List.find _ _) as [p|]; [|done]. destruct (pw_open_volume _ _); [by intros; simplify_eq|].
      destruct (fat_ro_open _ _ _); by intros; simplify_eq.
    - destruct (existsb _ _); injection E as <-; apply enumerate_not_held. }
  apply elem_of_held in Hh as (v & Hv & Ht & _). rewrite Forall_forall in Hf. by rewrite (Hf v Hv) in Ht.
Qed.
End complete.

(** C5. Every ext4, btrfs, XFS or exFAT partition that its reader accepts is
    mounted: when the phase returns, each discovered partition whose BlockIO
    opens, whose superblock names one of these filesystems and that the reader
    of that filesystem opens has a volume over exactly that partition, with
    the backend, identifier and label the reader gave and the partition's
    GUID. *)
Theorem readable_partition_mounted {St Lv : Type} `{BlockSource Lv} (fw : PartFw) (rd : Readers Lv)
    (fat_state : Z -> bool -> St) (fat_label : Z -> option (list Z)) (parts : list DiscoveredPartition) (log : TrustLog) (m : @Mounts St)
    (part : DiscoveredPartition) (t : FsType) (tag : list Z) (o : Opened) :
  mount_all fw rd fat_state fat_label parts log = Ok m -> NoDup (dp_handle <$> parts) -> part ∈ parts ->
  readable fw rd t (dp_handle part) tag o ->
  exists v, v ∈ mo_vols m /\ mounts part tag o v.
Proof.
  unfold mount_all, ext4_pass, btrfs_pass, xfs_pass, exfat_pass, media_pass. intros E Hn Hin Hr.
  apply res_bind_ok in E as ([] & _ & E). apply res_bind_ok in E as (m1 & E1 & E).
  apply res_bind_ok in E as (m2 & E2 & E). apply res_bind_ok in E as (m3 & E3 & E).
  apply res_bind_ok in E as (m4 & E4 & E). apply res_bind_ok in E as (m5 & E5 & E).
  apply res_bind_ok in E as (m6 & E6%zfs_pass_steps & E).
  apply res_bind_ok in E as (m7 & E7%each_part_steps & E8%lvm_pass_steps); [|apply mount_media_steps].
  pose proof (xbootldr_held fw rd fat_state fat_label _ _ _ (dp_handle part) E1) as H1.
  pose proof (pass_held fw _ _ _ _ _ _ (dp_handle part) E2) as H2. pose proof (pass_held fw _ _ _ _ _ _ (dp_handle part) E3) as H3.
  pose proof (pass_held fw _ _ _ _ _ _ (dp_handle part) E4) as H4.
  assert (typed fw t (dp_handle part)) as Ht by (destruct Hr as (md & i & _ & _ & ? & ? & ? & _); by exists md, i).
  assert (rtc mount_step m5 m) as Hx by (etrans; [exact E6|]; etrans; eassumption).
  assert (rtc mount_step m4 m5) as H45 by (eapply each_part_steps, E5; apply mount_part_steps).
  assert (rtc mount_step m3 m4) as H34 by (eapply each_part_steps, E4; apply mount_part_steps).
  assert (rtc mount_step m2 m3) as H23 by (eapply each_part_steps, E3; apply mount_part_steps).
  assert (forall t', t <> t' -> ~ typed fw t' (dp_handle part)) as Hne by (intros t' Hd Ht'; by apply Hd, (typed_fun fw t t' (dp_handle part))).
  assert (exists open, reader_for rd t = Some (tag, open)) as [open Ho] by (destruct Hr as (_ & _ & open & _ & _ & _ & _ & ? & _); eauto).
  destruct t; simpl in Ho; try done; injection Ho as <- <-.
  - destruct (pass_mounts fw rd _ _ _ _ _ _ _ _ E2 eq_refl Hr Hn Hin) as (v & Hv & Hm); [done|]. exists v. split; [|done].
    revert Hv. apply step_extends. etrans; [exact H23|]. etrans; [exact H34|]. etrans; eassumption.
  - destruct (pass_mounts fw rd _ _ _ _ _ _ _ _ E3 eq_refl Hr Hn Hin) as (v & Hv & Hm).
    { intros Hh. apply H2 in Hh as [|?%Hne]; done. }
    exists v. split; [|done]. revert Hv. apply step_extends. etrans; [exact H34|]. etrans; eassumption.
  - destruct (pass_mounts fw rd _ _ _ _ _ _ _ _ E4 eq_refl Hr Hn Hin) as (v & Hv & Hm).
    { intros Hh. apply H3 in Hh as [[|?%Hne]%H2|?%Hne]; done. }
    exists v. split; [|done]. revert Hv. apply step_extends. etrans; eassumption.
  - destruct (pass_mounts fw rd _ _ _ _ _ _ _ _ E5 eq_refl Hr Hn Hin) as (v & Hv & Hm).
    { intros Hh. apply H4 in Hh as [[[|?%Hne]%H2|?%Hne]%H3|?%Hne]; done. }
    exists v. split; [|done]. revert Hv. by apply step_extends.
Qed.

(** ** The phase returns *)
Section total.
Context {St Lv : Type} `{SourceLaws Lv} (fw : PartFw) (rd : Readers Lv).
Context (fat_state : Z -> bool -> St) (fat_label : Z -> option (list Z)).

#[local] Notation Mounts := (@Mounts St).

(** The firmware's block devices answer in blocks, and the readers return. *)
Record mount_env : Prop := {
  me_exclusive : forall h m, pw_exclusive fw h = Some m ->
    sized_io (md_io m) /\ (bio_block_size (md_io m) = 0 \/ exists data, device (md_io m) data);
  me_shared : forall h m, pw_shared fw h = Some m -> sized_io (md_io m);
  me_parts : forall s u k, fa_ext4 (rd_parts rd) s <> Panic /\ fa_btrfs (rd_parts rd) s u <> Panic /\
    fa_xfs (rd_parts rd) s <> Panic /\ fa_lamfold (rd_parts rd) k s <> Panic /\ rd_exfat rd s <> Panic;
  me_fat_ro : forall io, rd_fat_ro rd io <> Panic;
  me_pools : forall ss, rd_mount_pool rd ss <> Panic;
  me_lvs : forall s vg_lv, lv_ext4 (rd_lvs rd) s vg_lv <> Panic /\ lv_btrfs (rd_lvs rd) s vg_lv <> Panic /\
    lv_xfs (rd_lvs rd) s <> Panic /\ lv_fat (rd_lvs rd) s <> Panic;
  me_open_lv : forall pv name, rd_open_lv rd pv name <> Panic;
  me_lv : forall pv name lv vg, rd_open_lv rd pv name = Ok (lv, vg) -> exists data p, src_at lv data p
}.

Context (Henv : mount_env).

Lemma exclusive_ok (hs : list Z) (h : Z) : exists r, probe_superblock (exclusive fw hs h) = Ok r.
Proof.
  unfold exclusive. destruct (bool_decide _); [by eexists|]. destruct (pw_exclusive fw h) as [m|] eqn:E; [|by eexists].
  apply probe_ok. by apply (me_exclusive Henv h).
Qed.

Lemma has_labelone_any (io : BlockIO) : sized_io io -> exists b, has_labelone io = Ok b.
Proof.
  intros Hs. destruct (Z.eq_dec (bio_block_size io) 0) as [E|E]; [unfold has_labelone; rewrite E; by eexists|].
  apply has_labelone_ok. destruct Hs. lia.
Qed.

Lemma lvm_probe_ok (hs : list Z) (h : Z) : exists b, probe_lvm_pv (exclusive fw hs h) = Ok b.
Proof.
  unfold exclusive, probe_lvm_pv. destruct (bool_decide _); [by eexists|]. destruct (pw_exclusive fw h) as [m|] eqn:E; [|by eexists].
  apply has_labelone_any. by apply (me_exclusive Henv h).
Qed.

Lemma block_open_ok (hs : list Z) (h : Z) :
  match block_open fw hs h with Ok s => exists data, src_at s data 0 | Err _ => True | Panic => False end.
Proof.
  unfold block_open, exclusive. destruct (bool_decide _); [done|]. destruct (pw_exclusive fw h) as [m|] eqn:E; [|done].
  destruct (me_exclusive Henv h m E) as [_ [Hz|[data Hd]]]; [unfold from_block_io; by rewrite Hz|].
  destruct (from_block_io_presents _ _ Hd) as (s & -> & _ & Hp). by exists data.
Qed.

Lemma probe_total `{SourceLaws Src} (s : Src) (data : list Z) (p : Z) :
  src_at s data p -> exists r s', probe_source_superblock s = Some (r, s') /\ r <> Panic.
Proof.
  intros Hat. unfold probe_source_superblock.
  destruct (read_window_ok s data p 0 PROBE_BYTES Hat) as (r & s1 & -> & Hr & Hs); [done|done|].
  destruct r as [buf|e|]; [|by exists (Err e), s1|done]. specialize (Hs _ eq_refl).
  destruct (sniff_window buf) as [k|]; [by exists (Ok k), s1|]. unfold probe_udf_anchor.
  destruct (read_window_ok s1 data 0 (256 * 2048) 2 Hs) as (r & s2 & -> & Hr2 & _); [done|done|].
  destruct r as [tag|e|]; [by eexists (Ok _), s2|by exists (Err e), s2|done].
Qed.

Lemma mount_part_ok k tag open (part : DiscoveredPartition) (m : Mounts) :
  (forall i s, open i s <> Panic) -> exists m', mount_part fw k tag open part m = Ok m'.
Proof.
  intros Ho. unfold mount_part. destruct (exclusive_ok (held (mo_vols m)) (dp_handle part)) as [info ->]. simpl.
  destruct info as [info|]; [|by eexists]. destruct (negb _); [by eexists|].
  pose proof (block_open_ok (held (mo_vols m)) (dp_handle part)) as Hb. destruct (block_open _ _ _) as [s|e|]; [|by eexists|done].
  pose proof (Ho info s). destruct (open info s); [by eexists|by eexists|done].
Qed.

Lemma each_part_ok f (parts : list DiscoveredPartition) (m : Mounts) :
  (forall part m, exists m', f part m = Ok m') -> exists m', each_part f parts m = Ok m'.
Proof.
  intros Hf. revert m. induction parts as [|p ps IH]; intros m; simpl; [by eexists|]. destruct (Hf p m) as [m' ->]. apply IH.
Qed.

Lemma mount_media_ok (part : DiscoveredPartition) (m : Mounts) : exists m', mount_media fw rd part m = Ok m'.
Proof.
  unfold mount_media. pose proof (block_open_ok (held (mo_vols m)) (dp_handle part)) as Hb.
  destruct (block_open _ _ _) as [s|e|]; [|by eexists|done]. destruct Hb as [data Hat].
  unfold dispatch_media_fs_over_source. destruct (probe_total s data 0 Hat) as (r & s' & -> & Hr).
  destruct r as [k|e|]; [|by eexists|done]. unfold mount_lamfold.
  destruct (me_parts Henv s' None k) as (_ & _ & _ & Hl & _).
  destruct k; try (by eexists); (destruct (fa_lamfold _ _ s'); [by eexists|by eexists|done]).
Qed.

Lemma group_pools_ok (hs : list Z) (parts : list DiscoveredPartition) (pools : list Pool) :
  exists pools', group_pools fw rd hs parts pools = Ok pools'.
Proof.
  revert pools. induction parts as [|p ps IH]; intros pools; cbn [group_pools]; [by eexists|].
  destruct (exclusive_ok (hs ++ pool_handles pools) (dp_handle p)) as [info ->]. simpl.
  destruct info as [info|]; [|apply IH]. destruct (bool_decide _); [|apply IH].
  pose proof (block_open_ok (hs ++ pool_handles pools) (dp_handle p)) as Hb. destruct (block_open _ _ _) as [s|e|]; [|apply IH|done].
  destruct (rd_peek_pool rd s); apply IH.
Qed.

Lemma mount_pools_ok (pools : list Pool) (m : Mounts) : exists m', mount_pools rd pools m = Ok m'.
Proof.
  revert m. induction pools as [|q qs IH]; intros m; simpl; [by eexists|].
  pose proof (me_pools Henv (po_members q).*2). destruct (rd_mount_pool _ _); [apply IH|apply IH|done].
Qed.

Lemma mount_lv_ok (c : Candidate) (names : list (list Z)) (m : Mounts) : exists m', mount_lv fw rd c names m = Ok m'.
Proof.
  revert m. induction names as [|n ns IH]; intros m; cbn [mount_lv]; [by eexists|]. unfold open_lvm_lv_backend.
  pose proof (block_open_ok (held (mo_vols m)) (ca_handle c)) as Hb. destruct (block_open _ _ _) as [pv|e|]; [|apply IH|done].
  pose proof (me_open_lv Henv pv n). destruct (rd_open_lv rd pv n) as [[lv vg]|e|] eqn:Ho; [|apply IH|done].
  destruct (me_lv Henv _ _ _ _ Ho) as (data & p & Hat). destruct (probe_total lv data p Hat) as (r & s' & -> & Hr).
  destruct r as [k|e|]; [|apply IH|done]. destruct (me_lvs Henv s' (vg ++ [c_slash] ++ n)) as (He & Hbt & Hx & Hf).
  destruct k; try apply IH; unfold tagged;
    [destruct (lv_ext4 _ _ _)|destruct (lv_btrfs _ _ _)|destruct (lv_xfs _ _)|destruct (lv_fat _ _)];
    first [done | by eexists | apply IH].
Qed.

Lemma lvm_each_ok (cs : list Candidate) (n : Z) (m : Mounts) : exists r, lvm_each fw rd cs n m = Ok r.
Proof.
  revert n m. induction cs as [|c cs IH]; intros n m; cbn [lvm_each]; [by eexists|].
  destruct (lvm_probe_ok (held (mo_vols m)) (ca_handle c)) as [hit ->]. cbn [res_bind]. destruct hit; [|apply IH].
  destruct (mount_lv_ok c LV_NAME_CANDIDATES (log_event (pv_probe_event c true) m)) as [m' ->]. apply IH.
Qed.

Lemma lvm_candidates_ok (parts : list DiscoveredPartition) : exists cs, lvm_candidates fw parts = Ok cs.
Proof.
  unfold lvm_candidates. destruct parts; [|by eexists]. unfold scan_block_io_partitions_for_lvm.
  destruct (pw_block_handles fw) as [hs|]; [|by eexists].
  assert (exists out, lvm_handles fw hs = Ok out) as [out ->]; [|by eexists].
  induction hs as [|h hs [out IH]]; simpl; [by eexists|]. destruct (pw_shared fw h) as [md|] eqn:E; [|by exists out].
  destruct (negb _); [by exists out|]. destruct (has_labelone_any (md_io md) (me_shared Henv h md E)) as [b ->]. simpl.
  rewrite IH. by eexists.
Qed.
End total.

(** C6. The mount phase returns, whatever the disks hold: if the firmware's
    block devices answer a read with as many bytes as were asked for, and the
    external readers return, no content makes the phase panic or loop; what
    cannot be read is skipped. *)
Theorem mount_all_returns {St Lv : Type} `{SourceLaws Lv} (fw : PartFw) (rd : Readers Lv)
    (fat_state : Z -> bool -> St) (fat_label : Z -> option (list Z)) (parts : list DiscoveredPartition) (log : TrustLog) :
  mount_env fw rd -> exists m, mount_all fw rd fat_state fat_label parts log = Ok m.
Proof.
  intros Henv. unfold mount_all.
  assert (forall hs, probe_all fw hs parts = Ok tt) as Hp.
  { intros hs. induction parts as [|p ps IH]; simpl; [done|]. by destruct (exclusive_ok fw rd Henv hs (dp_handle p)) as [r ->]. }
  rewrite Hp. cbn [res_bind].
  assert (forall m, exists m', xbootldr_phase fw rd fat_state fat_label parts m = Ok m') as Hx.
  { intros m. unfold xbootldr_phase, mount_xbootldr. destruct (List.find _ _) as [x|]; simpl; [|by destruct (existsb _ _); eexists].
    destruct (pw_open_volume _ _); simpl; [by eexists|]. unfold fat_ro_open.
    destruct (pw_shared fw _) as [md|]; [|by destruct (existsb _ _); eexists].
    destruct (_ =? 0); [by destruct (existsb _ _); eexists|]. pose proof (me_fat_ro fw rd Henv (md_io md)).
    destruct (rd_fat_ro _ _); simpl; [by eexists|by destruct (existsb _ _); eexists|done]. }
  destruct (Hx (mkMounts (enumerate_volumes fw fat_state fat_label) log)) as [m1 ->]. cbn [res_bind].
  assert (forall k tag open m, (forall i s, open i s <> Panic) -> exists m', each_part (mount_part (St := St) fw k tag open) parts m = Ok m') as Hpass.
  { intros. apply each_part_ok. intros. by eapply mount_part_ok. }
  unfold ext4_pass, btrfs_pass, xfs_pass, exfat_pass, zfs_pass, media_pass, lvm_pass.
  destruct (Hpass FsExt4 EXT4_BACKEND_TAG (fun _ s => fa_ext4 (rd_parts rd) s) m1) as [m2 ->];
    [intros; apply (me_parts fw rd Henv s None PfExt4)|]. cbn [res_bind].
  destruct (Hpass FsBtrfs BTRFS_BACKEND_TAG (fun info s => fa_btrfs (rd_parts rd) s (fi_uuid info ≫= parse_btrfs_uuid_string)) m2) as [m3 ->];
    [intros i s; apply (me_parts fw rd Henv s (fi_uuid i ≫= parse_btrfs_uuid_string) PfExt4)|]. cbn [res_bind].
  destruct (Hpass FsXfs XFS_BACKEND_TAG (fun _ s => fa_xfs (rd_parts rd) s) m3) as [m4 ->];
    [intros; apply (me_parts fw rd Henv s None PfExt4)|]. cbn [res_bind].
  destruct (Hpass FsExFat EXFAT_BACKEND_TAG (fun _ s => rd_exfat rd s) m4) as [m5 ->];
    [intros; apply (me_parts fw rd Henv s None PfExt4)|]. cbn [res_bind].
  destruct (group_pools_ok fw rd Henv (held (mo_vols m5)) parts []) as [pools ->]. cbn [res_bind].
  destruct (mount_pools_ok fw rd Henv pools m5) as [m6 ->]. cbn [res_bind].
  destruct (each_part_ok (mount_media fw rd) parts m6 (mount_media_ok fw rd Henv)) as [m7 ->]. cbn [res_bind].
  destruct (lvm_candidates_ok fw rd Henv parts) as [cs ->]. cbn [res_bind].
  match goal with |- context [lvm_each fw rd cs 0 ?m] => destruct (lvm_each_ok fw rd Henv cs 0 m) as [[n m8] ->] end.
  by eexists.
Qed.

(** ** The prober's UUID and the reader's *)
Definition hex_pair_ok (b : Z) : bool :=
  match fmt_hex_lower 2 b with
  | [h; l] =>
      negb (c_dash =? h) && negb (c_dash =? l) &&
      match hex_nibble h, hex_nibble l with Some hi, Some lo => Z.lor (Z.shiftl hi 4) lo =? b | _, _ => false end
  | _ => false
  end.

Lemma hex_pair_byte (b : Z) : is_byte b -> hex_pair_ok b = true.
Proof.
  intros Hb. assert (forallb hex_pair_ok (Z.of_nat <$> seq 0 256) = true) as Hf by by vm_compute.
  rewrite forallb_forall in Hf. apply Hf. unfold is_byte in Hb. apply List.in_map_iff. exists (Z.to_nat b).
  split; [lia|]. apply List.in_seq. lia.
Qed.

Lemma uuid_pairs_hex (bytes bs : list Z) :
  Forall is_byte bs -> (length bytes + length bs <= 16)%nat -> uuid_pairs bytes (hex_bytes bs) = Some (bytes ++ bs).
Proof.
  intros Hb. revert bytes. induction Hb as [|b bs Hb _ IH]; intros bytes Hl; [simpl; by rewrite app_nil_r|].
  pose proof (hex_pair_byte b Hb) as Hp. unfold hex_bytes. cbn [flat_map]. unfold hex_pair_ok in Hp. destruct (fmt_hex_lower 2 b) as [|h [|l [|]]] eqn:E; try done.
  cbn [app uuid_pairs]. simpl in Hl. destruct (Nat.leb_spec 16 (length bytes)); [lia|].
  destruct (hex_nibble h) as [hi|]; [|by rewrite andb_false_r in Hp]. destruct (hex_nibble l) as [lo|]; [|by rewrite andb_false_r in Hp].
  apply andb_true_iff in Hp as [_ Hv%Z.eqb_eq]. rewrite Hv. fold (hex_bytes bs). rewrite IH by (rewrite length_app; simpl; lia).
  by rewrite <- app_assoc.
Qed.

Lemma hex_bytes_no_dash (bs : list Z) : Forall is_byte bs -> Forall (fun x => (c_dash =? x) = false) (hex_bytes bs).
Proof.
  induction 1 as [|b bs Hb _ IH]; [done|]. unfold hex_bytes. cbn [flat_map]. apply Forall_app_2; [|done].
  pose proof (hex_pair_byte b Hb) as Hp. unfold hex_pair_ok in Hp. destruct (fmt_hex_lower 2 b) as [|h [|l [|]]]; try done.
  apply andb_true_iff in Hp as [[H1%negb_true_iff H2%negb_true_iff]%andb_true_iff _]. by repeat constructor.
Qed.

(** The UUID text of the superblock prober is read back by the btrfs reader
    to the bytes it was printed from. *)
Theorem btrfs_uuid_roundtrip (b : list Z) :
  Forall is_byte b -> length b = 16%nat -> parse_btrfs_uuid_string (uuid_display b) = Some b.
Proof.
  intros Hb Hl. unfold parse_btrfs_uuid_string, uuid_display, split_char. simpl app.
  rewrite !split_on_cons by first [by apply hex_bytes_no_dash; repeat (apply Forall_take || apply Forall_drop) | done].
  rewrite split_on_none by (by apply hex_bytes_no_dash; repeat (apply Forall_take || apply Forall_drop)).
  do 16 (destruct b as [|? b]; [done|]). destruct b; [|done]. cbn [take drop fold_left mbind option_bind].
  repeat match goal with H : Forall _ (_ :: _) |- _ => apply Forall_cons in H as [? H] end.
  repeat (rewrite uuid_pairs_hex by first [simpl; lia | repeat (constructor; [assumption|]); constructor]; cbn [mbind option_bind app]).
  done.
Qed.

Lemma btrfs_uuid_roundtrip_witness :
  let b := [0; 1; 2; 127; 128; 255; 16; 15; 160; 9; 10; 11; 12; 13; 14; 15] in
  uuid_display b = lit "0001027f-80ff-100f-a009-0a0b0c0d0e0f" /\ parse_btrfs_uuid_string (uuid_display b) = Some b.
Proof.
  split; [by vm_compute|]. apply btrfs_uuid_roundtrip; [|done].
  repeat (constructor; [unfold is_byte; lia|]). constructor.
Defined.

(** ** A machine *)
Definition demo_reader : Opened := mkOpened (one_file (lit "/vmlinuz") [1; 2; 3]) [] None (Some (lit "root")).

Definition demo_readers : Readers BlockIoSource := {|
  rd_parts := {| fa_ext4 := fun _ => Ok demo_reader; fa_btrfs := fun _ u => Ok demo_reader; fa_xfs := fun _ => Ok demo_reader;
                 fa_lamfold := fun _ _ => Ok (op_backend demo_reader) |};
  rd_exfat := fun _ => Ok demo_reader;
  rd_fat_ro := fun _ => Ok demo_reader;
  rd_peek_pool := fun _ => None;
  rd_mount_pool := fun _ => Err (FsUnsupported "no pool");
  rd_lvs := {| lv_ext4 := fun _ _ => Ok demo_reader; lv_btrfs := fun _ _ => Ok demo_reader; lv_xfs := fun _ => Ok demo_reader;
               lv_fat := fun _ => Ok demo_reader |};
  rd_open_lv := fun _ _ => Err FsNotFound
|}.

(** An ESP (1), an XBOOTLDR partition (2) and a root partition (3), each with its bytes. *)
Definition demo_machine (xbootldr root : list Z) (firmware_reads : bool) : PartFw :=
  let media h := if h =? 2 then Some (mkMedia (list_io 512 xbootldr) true true)
                 else if h =? 3 then Some (mkMedia (list_io 512 root) true true) else None in
  {| pw_info_handles := Some [1; 2; 3];
     pw_info := fun h => Some (InfoGpt (Some (if h =? 1 then ESP_PARTITION_TYPE else if h =? 2 then XBOOTLDR_PARTITION_TYPE
                                              else ROOT_PARTITION_TYPE X86_64, lit "part-" ++ fmt_dec h)));
     pw_block_handles := Some [1; 2; 3];
     pw_sfs_handles := [1; 2];
     pw_shared := media;
     pw_exclusive := media;
     pw_open_volume := fun h => (h =? 2) && firmware_reads |}.

Definition demo_xfs_root : list Z := lit "XFSB" ++ replicate 4092 0.

Definition demo_mounts (xbootldr root : list Z) (firmware_reads : bool) : res FsError (@Mounts unit) :=
  let fw := demo_machine xbootldr root firmware_reads in
  mount_all fw demo_readers (fun _ _ => tt) (fun _ => None) (scan_discoverable_partitions X86_64 fw) log_new.

Definition mounted_summary (r : res FsError (@Mounts unit)) : list (list Z * Z * list Z) :=
  match r with
  | Ok m => (fun v => (mv_reads v, vi_index (mv_identity v), vi_backend_tag (mv_identity v))) <$> mo_vols m
  | _ => []
  end.

Lemma demo_mounted :
  mounted_summary (demo_mounts (replicate 512 0) demo_xfs_root false) =
    [([2], u32_max, FAT_RO_BACKEND_TAG); ([3], 2, XFS_BACKEND_TAG)].
Proof. by vm_compute. Qed.

(** An XBOOTLDR partition that the firmware reads is mounted twice: by the
    enumeration of the firmware's volumes and as XBOOTLDR.  The second opens the
    file system that the first already holds. *)
Theorem xbootldr_mounted_twice :
  mounted_summary (demo_mounts (replicate 512 0) demo_xfs_root true) =
    [([2], 1, FAT_TAG); ([2], u32_max, FAT_TAG); ([3], 3, XFS_BACKEND_TAG)].
Proof. by vm_compute. Qed.

(** The read-only FAT reader does not hold its partition: the media pass opens it again. *)
Theorem fat_ro_does_not_hold :
  mounted_summary (demo_mounts (replicate 32769 0 ++ lit "CD001" ++ replicate 506 0) demo_xfs_root false) =
    [([2], u32_max, FAT_RO_BACKEND_TAG); ([3], 2, XFS_BACKEND_TAG); ([2], 3, lamfold_tag PfIso9660)].
Proof. by vm_compute. Qed.

Lemma demo_returns : exists m, demo_mounts (replicate 512 0) demo_xfs_root false = Ok m.
Proof.
  pose proof demo_mounted as Hd. destruct (demo_mounts (replicate 512 0) demo_xfs_root false) as [m|e|]; [by exists m|done..].
Qed.

Lemma mounts_are_exclusive_witness :
  exists m, demo_mounts (replicate 512 0) demo_xfs_root false = Ok m /\ exclusive_vols (mo_vols m) /\ indexed [] (mo_vols m).
Proof.
  destruct demo_returns as [m Hm]. exists m. split; [exact Hm|]. unfold demo_mounts in Hm. cbv zeta in Hm.
  pose proof (mounts_are_exclusive _ _ _ _ _ _ _ Hm (fun ev He => False_ind _ (not_elem_of_nil ev He))) as (H1 & H2 & _).
  exact (conj H1 H2).
Defined.

Lemma readable_partition_mounted_witness :
  exists m v, demo_mounts (replicate 512 0) demo_xfs_root false = Ok m /\ v ∈ mo_vols m /\
    mounts (mkPart PartRoot (lit "part-3") 3) XFS_BACKEND_TAG demo_reader v.
Proof.
  destruct demo_returns as [m Hm]. exists m. pose proof Hm as Hd. unfold demo_mounts in Hd. cbv zeta in Hd.
  destruct (readable_partition_mounted _ _ _ _ _ _ _ (mkPart PartRoot (lit "part-3") 3) FsXfs XFS_BACKEND_TAG demo_reader Hd) as (v & Hv & Hmv).
  - by apply (bool_decide_eq_true_1 _); vm_compute.
  - replace (scan_discoverable_partitions X86_64 _) with [mkPart PartXbootldr (lit "part-2") 2; mkPart PartRoot (lit "part-3") 3]
      by by vm_compute.
    apply elem_of_cons. right. by apply list_elem_of_singleton.
  - eexists (mkMedia (list_io 512 demo_xfs_root) true true), (mkFsInfo FsXfs _), _, _.
    split; [done|]. split; [vm_compute; reflexivity|]. split; [done|]. split; [done|]. by split.
  - exists v. exact (conj Hm (conj Hv Hmv)).
Defined.

Lemma list_io_sized (bs : Z) (data : list Z) : 0 <= bs -> sized_io (list_io bs data).
Proof.
  intros Hb. split; [done|]. intros lba n buf. simpl. intros [Hr ->]%get_range_some.
  rewrite len_sub_list by lia. lia.
Qed.

Lemma mount_all_returns_witness :
  exists m, demo_mounts (replicate 512 0) demo_xfs_root false = Ok m.
Proof.
  apply (mount_all_returns (demo_machine (replicate 512 0) demo_xfs_root false) demo_readers (fun _ _ => tt) (fun _ => None)). split; try done.
  - intros h m. simpl. intros Hm. destruct (h =? 2); [|destruct (h =? 3); [|done]]; injection Hm as <-; simpl;
      (split; [by apply list_io_sized|right]); eexists; apply list_io_device; done.
  - intros h m. simpl. intros Hm. destruct (h =? 2); [|destruct (h =? 3); [|done]]; injection Hm as <-; by apply list_io_sized.
Defined.
