(* ===== verification/InodeFs.v ===== *)
(** * Inode filesystems: btrfs and XFS (fs_backend_btrfs.rs, fs_backend_xfs.rs, fs_backend_lvm_btrfs.rs)

    The three backends are the same adapter around two crates that resolve a
    path to an inode and never follow a symbolic link.  The adapter is modelled
    once, over a crate [InodeFs] and what the code adds to it ([Crate]: error
    translation, path conversion, kinds), and instantiated for each backend. *)
From S2P Require Import Prelude RustStr Utf8 FsTypes SecurityOverride SecureBoot VolumeFs BlockSource Partitions FatFs Dispatch Mounts.
Local Open Scope Z_scope.

(** ** What a crate offers *)
(** Metadata of an inode, as the crates' accessors give it. *)
Record InodeMeta : Type := mkInodeMeta {
  im_is_file : bool;
  im_is_dir : bool;
  im_is_symlink : bool;
  im_size : Z;
  im_mode : Z
}.

(** A directory entry: name bytes, inode number, kind (lamxfs only). *)
Record RawEntry : Type := mkRaw { re_name : list Z; re_inode : Z; re_kind : FileKind }.

(** A mounted volume of a crate.  Paths are bytes; [if_path_new] is the
    constructor of its path type; [if_read_file_at] returns the bytes it wrote
    to the front of the buffer. *)
Record InodeFs (E : Type) : Type := mkInodeFs {
  if_path_new : list Z -> option (list Z);
  if_resolve : list Z -> res E Z;
  if_metadata : Z -> res E InodeMeta;
  if_read_link : list Z -> res E (list Z);
  if_read_file_at : Z -> Z -> Z -> res E (list Z);
  if_read_dir : list Z -> res E (list RawEntry)
}.
Arguments if_path_new {_}. Arguments if_resolve {_}. Arguments if_metadata {_}. Arguments if_read_link {_}.
Arguments if_read_file_at {_}. Arguments if_read_dir {_}.

(** What a backend adds to its crate. *)
Record Crate (E : Type) : Type := mkCrate {
  cr_path : InodeFs E -> list Z -> res FsError (list Z);
  cr_error : E -> FsError;
  cr_is_not_found : E -> bool;
  cr_bad_name : string;
  cr_entry_kind : FileKind -> FileKind;      (* of an entry whose metadata cannot be read *)
  cr_tag : list Z                            (* in the metadata *)
}.
Arguments mkCrate {_}. Arguments mkInodeFs {_}. Arguments cr_path {_}. Arguments cr_error {_}. Arguments cr_is_not_found {_}. Arguments cr_bad_name {_}.
Arguments cr_entry_kind {_}. Arguments cr_tag {_}.

Definition MAX_SYMLINK_DEPTH : nat := 40.

Definition inode_kind (md : InodeMeta) : FileKind :=
  if im_is_file md then Regular else if im_is_dir md then Directory else if im_is_symlink md then Symlink else OtherKind.

(** [target_bytes] read at [current]: an absolute target replaces the path, a relative one joins its parent. *)
Definition link_target (current target : list Z) : res PathError (list Z) :=
  if starts_with [c_slash] target then path_from_str target else path_join (path_parent current) target.

(** ** The adapter *)
Section backend.
Context {E : Type} (cr : Crate E) (fs : InodeFs E).

#[local] Notation lift := (map_err (cr_error cr)).

(** One round of the loop: the inode, or the path to go on with. *)
Definition look (current : list Z) : res FsError (Z + list Z) :=
  let? p := cr_path cr fs current in
  let? inode := lift (if_resolve fs p) in
  let? md := lift (if_metadata fs inode) in
  if negb (im_is_symlink md) then Ok (inl inode)
  else
    let? target_bytes := lift (if_read_link fs p) in
    let? target := ok_or (from_utf8 target_bytes) (FsInvalidPath "non-utf8 symlink target") in
    let? next := map_err path_fs_error (link_target current target) in
    Ok (inr next).

Fixpoint follow (rounds : nat) (current : list Z) : res FsError Z :=
  match rounds with
  | O => Err (FsUnsupported "symlink_chain_too_deep")
  | S rounds' =>
      let? r := look current in
      match r with inl inode => Ok inode | inr next => follow rounds' next end
  end.

(** [for _ in 0..=MAX_SYMLINK_DEPTH] *)
Definition resolve_following (path : list Z) : res FsError Z :=
  let? current := map_err path_fs_error (path_from_str path) in
  follow (S MAX_SYMLINK_DEPTH) current.

Definition inode_read (path : list Z) : res FsError (list Z) :=
  let? inode := resolve_following path in
  let? md := lift (if_metadata fs inode) in
  let? size := checked_full_read_len (im_size md) in
  lift (if_read_file_at fs inode 0 size).

Definition inode_read_at (path : list Z) (offset n : Z) : res FsError (list Z) :=
  let? inode := resolve_following path in
  lift (if_read_file_at fs inode offset n).

(** [exists] does not follow a link. *)
Definition inode_exists (path : list Z) : res FsError bool :=
  let? p := cr_path cr fs path in
  match if_resolve fs p with
  | Ok _ => Ok true
  | Err e => if cr_is_not_found cr e then Ok false else Err (cr_error cr e)
  | Panic => Panic
  end.

Definition translate_inode_meta (md : InodeMeta) : Metadata :=
  mkMetadata (inode_kind md) (im_size md) (im_mode md) (Z.land (im_mode md) 128 =? 0) (cr_tag cr).

Definition inode_metadata (path : list Z) : res FsError Metadata :=
  let? inode := resolve_following path in
  let? md := lift (if_metadata fs inode) in
  Ok (translate_inode_meta md).

Definition entry_facts (e : RawEntry) : res FsError (FileKind * Z) :=
  match if_metadata fs (re_inode e) with
  | Ok md => Ok (inode_kind md, im_size md)
  | Err _ => Ok (cr_entry_kind cr (re_kind e), 0)
  | Panic => Panic
  end.

Fixpoint list_entries (entries : list RawEntry) : res FsError (list DirEntry) :=
  match entries with
  | [] => Ok []
  | e :: rest =>
      let? name := ok_or (from_utf8 (re_name e)) (FsInvalidPath (cr_bad_name cr)) in
      if bool_decide (name = [c_dot]) || bool_decide (name = [c_dot; c_dot]) then list_entries rest
      else
        let? facts := entry_facts e in
        let? out := list_entries rest in
        Ok (mkDirEntry name facts.1 facts.2 :: out)
  end.

Definition inode_read_dir (path : list Z) : res FsError (list DirEntry) :=
  let? inode := resolve_following path in
  let? dir_md := lift (if_metadata fs inode) in
  if negb (im_is_dir dir_md) then Err FsNotDirectory
  else
    let? p := cr_path cr fs path in
    let? entries := lift (if_read_dir fs p) in
    list_entries entries.

Definition inode_backend : FsBackend := mkBackend inode_read inode_read_at inode_exists inode_read_dir.
Definition inode_size (path : list Z) : res FsError Z := let? md := inode_metadata path in Ok (md_size md).
End backend.

(** ** btrfs: the crate lambutter *)
Inductive BtrfsSuperblockReason : Type :=
  | BtrfsBadMagic | BtrfsBadCsum | BtrfsGenerationSkew | BtrfsNoValidCopy | BtrfsUnsupportedCsumType
  | BtrfsUnsupportedIncompat | BtrfsBadGeometry.

(** The errors the translation distinguishes, with the data it uses. *)
Inductive LbErr : Type :=
  | LbNotFound
  | LbNotARegularFile
  | LbNotASymlink
  | LbBadSuperblock (reason : BtrfsSuperblockReason)
  | LbUnsupportedFeature
  | LbUnsupportedProfile
  | LbUnsupportedChecksum
  | LbCsumMismatch
  | LbCorruptBtree
  | LbBadCompression
  | LbOutOfMemory
  | LbIo (token : string).

Definition translate_lb_error (err : LbErr) : FsError :=
  match err with
  | LbNotFound => FsNotFound
  | LbNotARegularFile => FsIsDirectory
  | LbNotASymlink => FsUnsupported "not_a_symlink"
  | LbBadSuperblock reason =>
      match reason with
      | BtrfsBadMagic => FsCorrupt "btrfs bad superblock magic"
      | BtrfsBadCsum => FsCorrupt "btrfs superblock csum mismatch"
      | BtrfsGenerationSkew => FsCorrupt "btrfs superblock generation skew"
      | BtrfsNoValidCopy => FsCorrupt "btrfs no valid superblock copy"
      | BtrfsUnsupportedCsumType => FsUnsupportedFeature "btrfs_csum_type" BTRFS_BACKEND_TAG
      | BtrfsUnsupportedIncompat => FsUnsupportedFeature "btrfs_incompat_flag" BTRFS_BACKEND_TAG
      | BtrfsBadGeometry => FsCorrupt "btrfs bad nodesize/sectorsize"
      end
  | LbUnsupportedFeature => FsUnsupportedFeature "btrfs_incompat_flag" BTRFS_BACKEND_TAG
  | LbUnsupportedProfile => FsUnsupportedFeature "btrfs_raid_profile" BTRFS_BACKEND_TAG
  | LbUnsupportedChecksum => FsUnsupportedFeature "btrfs_csum_type" BTRFS_BACKEND_TAG
  | LbCsumMismatch => FsCorrupt "btrfs metadata block csum mismatch"
  | LbCorruptBtree => FsCorrupt "btrfs btree structural violation"
  | LbBadCompression => FsCorrupt "btrfs decompression failed"
  | LbOutOfMemory => FsUnsupported "out_of_memory"
  | LbIo token => FsCorrupt token
  end.

Definition lb_path (fs : InodeFs LbErr) (path : list Z) : res FsError (list Z) :=
  ok_or (if_path_new fs (str_bytes path)) (FsInvalidPath "lambutter::Path rejected (not absolute?)").

Definition lb_is_not_found (e : LbErr) : bool := match e with LbNotFound => true | _ => false end.

Definition lambutter : Crate LbErr :=
  mkCrate lb_path translate_lb_error lb_is_not_found "non-utf8 btrfs filename" (fun _ => OtherKind) BTRFS_BACKEND_TAG.

(** [BtrfsBackend] *)
Definition btrfs_resolve_following (fs : InodeFs LbErr) := resolve_following lambutter fs.
Definition btrfs_read (fs : InodeFs LbErr) := inode_read lambutter fs.
Definition btrfs_read_at (fs : InodeFs LbErr) := inode_read_at lambutter fs.
Definition btrfs_exists (fs : InodeFs LbErr) := inode_exists lambutter fs.
Definition btrfs_metadata (fs : InodeFs LbErr) := inode_metadata lambutter fs.
Definition btrfs_read_dir (fs : InodeFs LbErr) := inode_read_dir lambutter fs.

(** [Btrfs::open] over the source. *)
Definition btrfs_from_source {Src : Type} (open : Src -> res LbErr (InodeFs LbErr)) (source : Src) (fs_uuid : option (list Z))
    : res FsError Opened :=
  let? fs := map_err translate_lb_error (open source) in
  Ok (mkOpened (inode_backend lambutter fs) BTRFS_BACKEND_TAG fs_uuid None).

Definition btrfs_new (open : BlockIoSource -> res LbErr (InodeFs LbErr)) (source : res FsError BlockIoSource) (info : FsInfo)
    : res FsError Opened :=
  let fs_uuid := match fi_uuid info with Some s => parse_btrfs_uuid_string s | None => None end in
  let? source := source in
  btrfs_from_source open source fs_uuid.

(** [LvmBtrfsBackend]: the same code over a logical volume, without a UUID; the
    metadata keep the tag of the plain backend. *)
Definition lvm_btrfs_resolve_following (fs : InodeFs LbErr) := resolve_following lambutter fs.
Definition lvm_btrfs_read (fs : InodeFs LbErr) := inode_read lambutter fs.
Definition lvm_btrfs_read_at (fs : InodeFs LbErr) := inode_read_at lambutter fs.
Definition lvm_btrfs_exists (fs : InodeFs LbErr) := inode_exists lambutter fs.
Definition lvm_btrfs_metadata (fs : InodeFs LbErr) := inode_metadata lambutter fs.
Definition lvm_btrfs_read_dir (fs : InodeFs LbErr) := inode_read_dir lambutter fs.

Definition lvm_btrfs_from_lv_parts {Src : Type} (open : Src -> res LbErr (InodeFs LbErr)) (owned : Src) : res FsError Opened :=
  let? fs := map_err translate_lb_error (open owned) in
  Ok (mkOpened (inode_backend lambutter fs) LVM_BTRFS_BACKEND_TAG None None).

(** ** XFS: the crate lamxfs *)
Inductive XfsSuperblockReason : Type :=
  | XfsBadMagic | XfsBadSbCrc | XfsBadGeometry | XfsUnsupportedVersion | XfsExternalLog | XfsRealtimeDevice | XfsDirtyLog.

Inductive XfsErr : Type :=
  | XfsNotFound
  | XfsNotARegularFile
  | XfsNotASymlink
  | XfsFileTooLarge (size max : Z)
  | XfsUnsupportedFeature (feature : string)
  | XfsBadSuperblock (reason : XfsSuperblockReason)
  | XfsBadCrc (what : string)
  | XfsInconsistent (token : string)
  | XfsIo (token : string)
  | XfsOutOfMemory.

Definition translate_xfs_error (err : XfsErr) : FsError :=
  match err with
  | XfsNotFound => FsNotFound
  | XfsNotARegularFile => FsIsDirectory
  | XfsNotASymlink => FsUnsupported "not_a_symlink"
  | XfsFileTooLarge size max => FsFileTooLarge size max
  | XfsUnsupportedFeature feature => FsUnsupportedFeature feature XFS_BACKEND_TAG
  | XfsBadSuperblock reason =>
      match reason with
      | XfsBadMagic => FsCorrupt "xfs bad superblock magic"
      | XfsBadSbCrc => FsCorrupt "xfs superblock crc mismatch"
      | XfsBadGeometry => FsCorrupt "xfs bad superblock geometry"
      | XfsUnsupportedVersion => FsUnsupportedFeature "xfs_sb_version" XFS_BACKEND_TAG
      | XfsExternalLog => FsUnsupportedFeature "xfs_external_log" XFS_BACKEND_TAG
      | XfsRealtimeDevice => FsUnsupportedFeature "xfs_realtime_device" XFS_BACKEND_TAG
      | XfsDirtyLog => FsCorrupt "xfs needs repair (dirty log)"
      end
  | XfsBadCrc what => FsCorrupt what
  | XfsInconsistent token | XfsIo token => FsCorrupt token
  | XfsOutOfMemory => FsUnsupported "out_of_memory"
  end.

(** [lamxfs::Path::new] accepts any bytes. *)
Definition xfs_path (fs : InodeFs XfsErr) (path : list Z) : res FsError (list Z) := Ok (str_bytes path).

Definition xfs_is_not_found (e : XfsErr) : bool := match e with XfsNotFound => true | _ => false end.

(** [kind_from_entry]: the kinds correspond one to one. *)
Definition xfs_kind_from_entry (kind : FileKind) : FileKind :=
  match kind with Regular => Regular | Directory => Directory | Symlink => Symlink | OtherKind => OtherKind end.

Definition lamxfs : Crate XfsErr :=
  mkCrate xfs_path translate_xfs_error xfs_is_not_found "non-utf8 xfs filename" xfs_kind_from_entry XFS_BACKEND_TAG.

(** [XfsBackend] *)
Definition xfs_translate_metadata := translate_inode_meta lamxfs.
Definition xfs_resolve_following (fs : InodeFs XfsErr) := resolve_following lamxfs fs.
Definition xfs_read (fs : InodeFs XfsErr) := inode_read lamxfs fs.
Definition xfs_read_at (fs : InodeFs XfsErr) := inode_read_at lamxfs fs.
Definition xfs_exists (fs : InodeFs XfsErr) := inode_exists lamxfs fs.
Definition xfs_metadata (fs : InodeFs XfsErr) := inode_metadata lamxfs fs.
Definition xfs_read_dir (fs : InodeFs XfsErr) := inode_read_dir lamxfs fs.

(** [Xfs::open] gives the volume, its superblock UUID and its label. *)
Definition xfs_from_source {Src : Type} (open : Src -> res XfsErr (InodeFs XfsErr * list Z * option (list Z))) (source : Src)
    : res FsError Opened :=
  let? opened := map_err translate_xfs_error (open source) in
  let '(fs, raw, label) := opened in
  let fs_uuid := if bool_decide (raw = replicate 16 0) then None else Some raw in
  Ok (mkOpened (inode_backend lamxfs fs) XFS_BACKEND_TAG fs_uuid label).

Definition xfs_new (open : BlockIoSource -> res XfsErr (InodeFs XfsErr * list Z * option (list Z)))
    (source : res FsError BlockIoSource) : res FsError Opened :=
  let? source := source in xfs_from_source open source.

(** ** Resolution *)
(** A backend presents the file [p] with the contents [data]. *)
Record presents (b : FsBackend) (size : list Z -> res FsError Z) (p data : list Z) : Prop := {
  pr_max : len data <= u64_max;
  pr_read_at : forall off n, 0 <= off -> 0 <= n -> fb_read_at b p off n = Ok (take (Z.to_nat n) (drop (Z.to_nat off) data));
  pr_exists : fb_exists b p = Ok true;
  pr_size : size p = Ok (len data)
}.

(** A full read gives the contents, or the error for a file over the limit. *)
Definition reads_capped (b : FsBackend) (p data : list Z) : Prop :=
  fb_read b p = if len data <=? MAX_BOOT_FILE_BYTES then Ok data else Err (FsFileTooLarge (len data) MAX_BOOT_FILE_BYTES).

Lemma checked_full_read (n : Z) :
  n <= u64_max ->
  checked_full_read_len n = if n <=? MAX_BOOT_FILE_BYTES then Ok n else Err (FsFileTooLarge n MAX_BOOT_FILE_BYTES).
Proof.
  intros Hn. unfold checked_full_read_len, checked_read_len. destruct (Z.leb_spec n MAX_BOOT_FILE_BYTES).
  - rewrite (proj2 (Z.ltb_ge _ _)) by lia. rewrite (proj2 (Z.leb_le n usize_max)); [done|]. unfold usize_max, u64_max in *. lia.
  - by rewrite (proj2 (Z.ltb_lt _ _)) by lia.
Qed.

(** Such a file is a lawful byte source for the readers of images. *)
Lemma presents_source (b : FsBackend) (size : list Z -> res FsError Z) (p data : list Z) :
  presents b size p data ->
  exists s, file_source_new (mkShared b size false) p = Ok s /\ src_at s data 0 /\ src_good s.
Proof.
  intros Hp. destruct (file_source_presents (mkShared b size false) p data) as (s & Hs & Hat).
  - split; simpl; [by eapply pr_max| |].
    + intros off n got Hoff Hn Hl. rewrite (pr_read_at _ _ _ _ Hp) by lia. intros [= <-].
      assert (take (Z.to_nat n) (drop (Z.to_nat off) data) = sub_list off (off + n) data) as ->.
      { unfold sub_list. by replace (off + n - off) with n by lia. }
      rewrite len_sub_list by lia. split; [lia|]. f_equal. lia.
    + intros off n ? ?. by rewrite (pr_read_at _ _ _ _ Hp) by lia.
  - done.
  - simpl. by eapply pr_size.
  - exists s. split; [done|]. split; [exact Hat|]. unfold file_source_new in Hs. simpl in Hs. rewrite (pr_size _ _ _ _ Hp) in Hs.
    injection Hs as <-. split; [done|]. intros off n e ? ?. simpl. by rewrite (pr_read_at _ _ _ _ Hp) by lia.
Qed.

Section resolution.
Context {E : Type} (cr : Crate E) (fs : InodeFs E).

#[local] Notation lift := (map_err (cr_error cr)).

(** [p] is an inode that is no link. *)
Definition names_inode (p : list Z) (inode : Z) : Prop :=
  exists cp md, cr_path cr fs p = Ok cp /\ if_resolve fs cp = Ok inode /\ if_metadata fs inode = Ok md /\ im_is_symlink md = false.

(** [p] is a link with the target [q]. *)
Definition links_to (p q : list Z) : Prop :=
  exists cp inode md bytes target, cr_path cr fs p = Ok cp /\ if_resolve fs cp = Ok inode /\ if_metadata fs inode = Ok md /\
    im_is_symlink md = true /\ if_read_link fs cp = Ok bytes /\ from_utf8 bytes = Some target /\ link_target p target = Ok q.

Lemma map_err_ok {F G A : Type} (f : F -> G) (r : res F A) (a : A) : map_err f r = Ok a <-> r = Ok a.
Proof. destruct r; naive_solver. Qed.

Lemma look_inode (p : list Z) (i : Z) : look cr fs p = Ok (inl i) <-> names_inode p i.
Proof.
  unfold look, names_inode. split.
  - intros (cp & Hcp & H)%res_bind_ok. apply res_bind_ok in H as (inode & Hi%map_err_ok & H).
    apply res_bind_ok in H as (md & Hm%map_err_ok & H). destruct (im_is_symlink md) eqn:Es; simpl in H.
    + apply res_bind_ok in H as (? & _ & H). apply res_bind_ok in H as (? & _ & H). by apply res_bind_ok in H as (? & _ & H).
    + injection H as <-. by exists cp, md.
  - intros (cp & md & -> & Hi & Hm & Hs). simpl. rewrite Hi. simpl. rewrite Hm. simpl. by rewrite Hs.
Qed.

Lemma look_link (p q : list Z) : look cr fs p = Ok (inr q) <-> links_to p q.
Proof.
  unfold look, links_to. split.
  - intros (cp & Hcp & H)%res_bind_ok. apply res_bind_ok in H as (inode & Hi%map_err_ok & H).
    apply res_bind_ok in H as (md & Hm%map_err_ok & H). destruct (im_is_symlink md) eqn:Es; simpl in H; [|done].
    apply res_bind_ok in H as (bytes & Hb%map_err_ok & H). apply res_bind_ok in H as (target & Ht & H).
    apply res_bind_ok in H as (next & Hn%map_err_ok & H). injection H as <-.
    exists cp, inode, md, bytes, target. split_and!; try done. by destruct (from_utf8 bytes); simpl in Ht; [injection Ht as ->|].
  - intros (cp & i & md & bytes & t & -> & Hi & Hm & Hs & Hb & Ht & Hq). simpl. rewrite Hi. simpl. rewrite Hm. simpl.
    rewrite Hs. simpl. rewrite Hb. simpl. rewrite Ht. simpl. by rewrite Hq.
Qed.

Lemma follow_inode (k : nat) (p : list Z) (i : Z) :
  follow cr fs k p = Ok i <-> exists n q, (n < k)%nat /\ nsteps links_to n p q /\ names_inode q i.
Proof.
  revert p. induction k as [|k IH]; intros p; simpl; [split; [done|]; intros (n & q & Hn & _); lia|]. split.
  - intros (r & Hr & H)%res_bind_ok. destruct r as [j|q]; simpl in H.
    + injection H as ->. exists 0%nat, p. split; [lia|]. split; [constructor|by apply look_inode].
    + apply IH in H as (n & q' & Hn & Hs & Hi). exists (S n), q'. split; [lia|]. split; [|done].
      econstructor; [by apply look_link|done].
  - intros (n & q & Hn & Hs & Hi). destruct Hs as [x|n x y z Hxy Hyz].
    + apply look_inode in Hi as ->. done.
    + apply look_link in Hxy as ->. simpl. apply IH. exists n, z. split; [lia|done].
Qed.

Lemma follow_too_deep (k : nat) (p q : list Z) : nsteps links_to k p q -> follow cr fs k p = Err (FsUnsupported "symlink_chain_too_deep").
Proof. induction 1 as [|n x y z Hxy _ IH]; simpl; [done|]. apply look_link in Hxy as ->. done. Qed.

Lemma link_target_canonical (p t q : list Z) : link_target p t = Ok q -> canonical q.
Proof.
  unfold link_target, path_join. destruct (starts_with _ _); apply path_from_str_canonical.
Qed.

Lemma steps_canonical (n : nat) (p q : list Z) : nsteps links_to n p q -> canonical p -> canonical q.
Proof. induction 1 as [|n x y z (?&?&?&?&?&?&?&?&?&?&?&Hq) _ IH]; [done|]. intros _. apply IH. by eapply link_target_canonical. Qed.

Lemma canonical_from_str (p : list Z) : canonical p -> path_from_str p = Ok p.
Proof. intros (ns & Hn & ->). by apply path_from_str_render. Qed.

Lemma resolve_canonical (p : list Z) : canonical p -> resolve_following cr fs p = follow cr fs (S MAX_SYMLINK_DEPTH) p.
Proof. intros Hp. unfold resolve_following. rewrite (canonical_from_str p Hp). reflexivity. Qed.
End resolution.

(** C24. Symbolic links are followed as far as the limit and no further: a path
    resolves to an inode exactly when a chain of at most 40 links leads from it
    to something that is no link, a longer chain (a cycle in particular) gives
    the error for it, and every path on the way is canonical, so a link cannot
    lead out of the volume. *)
Theorem resolve_following_correct {E : Type} (cr : Crate E) (fs : InodeFs E) (p : list Z) :
  canonical p ->
  (forall i, resolve_following cr fs p = Ok i <->
     exists n q, (n <= MAX_SYMLINK_DEPTH)%nat /\ nsteps (links_to cr fs) n p q /\ names_inode cr fs q i) /\
  (forall q, nsteps (links_to cr fs) (S MAX_SYMLINK_DEPTH) p q ->
     resolve_following cr fs p = Err (FsUnsupported "symlink_chain_too_deep")) /\
  (forall n q, nsteps (links_to cr fs) n p q -> canonical q).
Proof.
  intros Hp. rewrite resolve_canonical by done. split_and!.
  - intros i. rewrite follow_inode. split; intros (n & q & Hn & H); exists n, q; (split; [lia|done]).
  - intros q. apply follow_too_deep.
  - intros n q Hs. by eapply steps_canonical.
Qed.

(** An inode that holds the contents. *)
Definition inode_file {E : Type} (fs : InodeFs E) (inode : Z) (data : list Z) : Prop :=
  (exists md, if_metadata fs inode = Ok md /\ im_size md = len data) /\
  forall off n, if_read_file_at fs inode off n = Ok (take (Z.to_nat n) (drop (Z.to_nat off) data)).

Lemma inode_presents {E : Type} (cr : Crate E) (fs : InodeFs E) (p q data : list Z) (n : nat) (i : Z) :
  canonical p -> (n <= MAX_SYMLINK_DEPTH)%nat -> nsteps (links_to cr fs) n p q -> names_inode cr fs q i ->
  inode_file fs i data -> len data <= u64_max ->
  presents (inode_backend cr fs) (inode_size cr fs) p data /\ reads_capped (inode_backend cr fs) p data.
Proof.
  intros Hp Hn Hs Hi [(md & Hm & Hl) Hr] Hmax.
  assert (resolve_following cr fs p = Ok i) as E1.
  { rewrite resolve_canonical by done. apply follow_inode. exists n, q. split; [lia|done]. }
  split; [split; simpl; [done| | |]|unfold reads_capped; simpl].
  4: { unfold inode_read. rewrite E1. cbn [res_bind]. rewrite Hm. cbn [map_err res_bind]. rewrite Hl, checked_full_read by done.
    destruct (len data <=? MAX_BOOT_FILE_BYTES); [|done]. cbn [res_bind]. rewrite Hr. cbn [map_err].
    unfold len. by rewrite Nat2Z.id, firstn_all. }
  - intros off k _ _. unfold inode_read_at. rewrite E1. cbn [res_bind]. by rewrite Hr.
  - unfold inode_exists. destruct Hs as [x|k x y z Hxy _].
    + destruct Hi as (cp & ? & -> & Hres & _). cbn [res_bind]. by rewrite Hres.
    + destruct Hxy as (cp & j & ? & ? & ? & -> & Hres & _). cbn [res_bind]. by rewrite Hres.
  - unfold inode_size, inode_metadata. rewrite E1. cbn [res_bind]. rewrite Hm. cbn [map_err res_bind]. simpl. by rewrite Hl.
Qed.

(** A file of a btrfs or XFS volume behaves as its bytes, also when it is
    reached through links: a full read returns the contents, or the error
    for a file over 512 MiB before anything is allocated; a read at an offset
    returns exactly that part of them; and an ISO image in it is a byte source
    that the readers of images can rely on. *)
Theorem inode_file_is_source {E : Type} (cr : Crate E) (fs : InodeFs E) (p q data : list Z) (n : nat) (i : Z) :
  canonical p -> (n <= MAX_SYMLINK_DEPTH)%nat -> nsteps (links_to cr fs) n p q -> names_inode cr fs q i ->
  inode_file fs i data -> len data <= u64_max ->
  reads_capped (inode_backend cr fs) p data /\ presents (inode_backend cr fs) (inode_size cr fs) p data /\
  exists s, file_source_new (mkShared (inode_backend cr fs) (inode_size cr fs) false) p = Ok s /\ src_at s data 0 /\ src_good s.
Proof.
  intros Hp Hn Hs Hi Hf Hmax. destruct (inode_presents cr fs p q data n i Hp Hn Hs Hi Hf Hmax) as [H1 H2].
  split; [done|]. split; [done|]. by apply presents_source.
Qed.

(** ** Listing *)
Definition is_dots (name : list Z) : bool := bool_decide (name = [c_dot]) || bool_decide (name = [c_dot; c_dot]).

Lemma list_entries_names {E : Type} (cr : Crate E) (fs : InodeFs E) (entries : list RawEntry) :
  (forall e, e ∈ entries -> if_metadata fs (re_inode e) <> Panic) ->
  match mapM (fun e => from_utf8 (re_name e)) entries with
  | Some names => exists l, list_entries cr fs entries = Ok l /\ de_name <$> l = List.filter (fun x => negb (is_dots x)) names
  | None => list_entries cr fs entries = Err (FsInvalidPath (cr_bad_name cr))
  end.
Proof.
  induction entries as [|e es IH]; intros Hp; simpl; [by exists []|].
  destruct (from_utf8 (re_name e)) as [name|]; simpl; [|done].
  specialize (IH ltac:(intros e' He'; apply Hp; by right)). fold (is_dots name).
  assert (exists facts, entry_facts cr fs e = Ok facts) as [facts ->].
  { unfold entry_facts. destruct (if_metadata fs (re_inode e)) eqn:Em; [by eexists..|]. exfalso. eapply Hp; [by left|exact Em]. }
  simpl. destruct (mapM _ es) as [names|]; simpl.
  - destruct IH as (l & -> & Hl). simpl. destruct (is_dots name); simpl; [by exists l|]. eexists. split; [done|]. by rewrite fmap_cons, Hl.
  - rewrite IH. by destruct (is_dots name).
Qed.

(** A directory is listed completely or not at all: when the crate lists it,
    every entry except [.] and [..] appears once, in order, under its name,
    whatever the metadata of single entries are (an unreadable inode hides
    no other entry); but one name that is not UTF-8 makes the whole listing
    fail. *)
Theorem read_dir_complete {E : Type} (cr : Crate E) (fs : InodeFs E) (p cp : list Z) (i : Z) (md : InodeMeta) (entries : list RawEntry) :
  resolve_following cr fs p = Ok i -> if_metadata fs i = Ok md -> im_is_dir md = true ->
  cr_path cr fs p = Ok cp -> if_read_dir fs cp = Ok entries ->
  (forall e, e ∈ entries -> if_metadata fs (re_inode e) <> Panic) ->
  match mapM (fun e => from_utf8 (re_name e)) entries with
  | Some names => exists l, inode_read_dir cr fs p = Ok l /\ de_name <$> l = List.filter (fun x => negb (is_dots x)) names
  | None => inode_read_dir cr fs p = Err (FsInvalidPath (cr_bad_name cr))
  end.
Proof.
  intros Hr Hm Hd Hc He Hp. unfold inode_read_dir. rewrite Hr. cbn [res_bind]. rewrite Hm. cbn [map_err res_bind]. rewrite Hd.
  cbn [negb]. rewrite Hc. cbn [res_bind]. rewrite He. cbn [map_err res_bind]. by apply list_entries_names.
Qed.

(** ** A concrete volume *)
(** /boot/vmlinuz -> vmlinuz-6.1 -> ../lib/linux (inode 3, five bytes);
    /loop -> loop; /cur -> /boot; inode 9 cannot be read. *)
Definition demo_inodes (p : list Z) : option Z :=
  (list_to_map [(lit "/boot/vmlinuz", 1); (lit "/boot/vmlinuz-6.1", 2); (lit "/lib/linux", 3); (lit "/loop", 4);
                (lit "/boot", 5); (lit "/cur", 6)] : gmap (list Z) Z) !! p.

Definition demo_links (p : list Z) : option (list Z) :=
  (list_to_map [(lit "/boot/vmlinuz", lit "vmlinuz-6.1"); (lit "/boot/vmlinuz-6.1", lit "../lib/linux"); (lit "/loop", lit "loop");
                (lit "/cur", lit "/boot")] : gmap (list Z) (list Z)) !! p.

Definition demo_kernel : list Z := [1; 2; 3; 4; 5].

Definition demo_meta (i : Z) : res LbErr InodeMeta :=
  if i =? 3 then Ok (mkInodeMeta true false false 5 420)
  else if i =? 5 then Ok (mkInodeMeta false true false 0 493)
  else if i =? 9 then Err LbCsumMismatch
  else Ok (mkInodeMeta false false true 0 511).

Definition demo_btrfs (listing : list RawEntry) : InodeFs LbErr := {|
  if_path_new b := if starts_with [c_slash] b then Some b else None;
  if_resolve p := ok_or (demo_inodes p) LbNotFound;
  if_metadata := demo_meta;
  if_read_link p := ok_or (demo_links p) LbNotASymlink;
  if_read_file_at i off n :=
    if i =? 3 then Ok (take (Z.to_nat n) (drop (Z.to_nat off) demo_kernel)) else Err LbNotARegularFile;
  if_read_dir p := if bool_decide (p = lit "/boot") then Ok listing else Err LbNotFound
|}.

Definition demo_listing : list RawEntry :=
  [mkRaw (lit ".") 5 Directory; mkRaw (lit "bad") 9 Regular; mkRaw (lit "linux") 3 Regular].

Lemma demo_canonical (p : string) : path_from_str (lit p) = Ok (lit p) -> canonical (lit p).
Proof. apply path_from_str_canonical. Qed.

Lemma demo_chain : nsteps (links_to lambutter (demo_btrfs [])) 2 (lit "/boot/vmlinuz") (lit "/lib/linux").
Proof.
  apply nsteps_l with (lit "/boot/vmlinuz-6.1"); [apply look_link; vm_compute; reflexivity|].
  apply nsteps_l with (lit "/lib/linux"); [apply look_link; vm_compute; reflexivity|constructor].
Qed.

Lemma demo_end : names_inode lambutter (demo_btrfs []) (lit "/lib/linux") 3.
Proof. apply look_inode. by vm_compute. Qed.

Lemma resolve_following_correct_witness :
  btrfs_resolve_following (demo_btrfs []) (lit "/boot/vmlinuz") = Ok 3 /\
  btrfs_resolve_following (demo_btrfs []) (lit "/loop") = Err (FsUnsupported "symlink_chain_too_deep").
Proof.
  split.
  - apply (resolve_following_correct lambutter (demo_btrfs []) (lit "/boot/vmlinuz")).
    + apply demo_canonical. by vm_compute.
    + exists 2%nat, (lit "/lib/linux"). split; [unfold MAX_SYMLINK_DEPTH; lia|]. split; [exact demo_chain|exact demo_end].
  - apply (proj1 (proj2 (resolve_following_correct lambutter (demo_btrfs []) (lit "/loop")
      ltac:(apply demo_canonical; by vm_compute))) (lit "/loop")).
    generalize (S MAX_SYMLINK_DEPTH). intros k. induction k as [|k IH]; [constructor|].
    apply nsteps_l with (lit "/loop"); [apply look_link; vm_compute; reflexivity|exact IH].
Defined.

Lemma inode_file_is_source_witness :
  presents (inode_backend lambutter (demo_btrfs [])) (inode_size lambutter (demo_btrfs [])) (lit "/boot/vmlinuz") demo_kernel.
Proof.
  refine (proj1 (proj2 (inode_file_is_source lambutter (demo_btrfs []) _ _ demo_kernel 2 3 _ _ demo_chain demo_end _ _))).
  - apply demo_canonical. by vm_compute.
  - unfold MAX_SYMLINK_DEPTH. lia.
  - split; [|done]. eexists. split; reflexivity.
  - by vm_compute.
Defined.

Lemma read_dir_complete_witness :
  exists l, btrfs_read_dir (demo_btrfs demo_listing) (lit "/boot") = Ok l /\ de_name <$> l = [lit "bad"; lit "linux"].
Proof.
  apply (read_dir_complete lambutter (demo_btrfs demo_listing) (lit "/boot") (lit "/boot") 5 (mkInodeMeta false true false 0 493) demo_listing);
    try by vm_compute.
  intros e He. repeat (apply elem_of_cons in He as [->|He]; [by vm_compute|]). by apply not_elem_of_nil in He.
Defined.

(** One name that is not UTF-8 hides every other entry of its directory. *)
Theorem bad_name_hides_siblings :
  btrfs_read_dir (demo_btrfs (demo_listing ++ [mkRaw [255] 3 Regular])) (lit "/boot") = Err (FsInvalidPath "non-utf8 btrfs filename").
Proof. by vm_compute. Qed.

(** A directory reached through a link has metadata but cannot be listed: the
    listing is asked of the path that was given. *)
Theorem linked_directory_unlisted :
  md_kind <$> res_ok (btrfs_metadata (demo_btrfs demo_listing) (lit "/cur")) = Some Directory /\
  btrfs_read_dir (demo_btrfs demo_listing) (lit "/cur") = Err FsNotFound.
Proof. by vm_compute. Qed.

(** The metadata of a file on a logical volume name the plain backend. *)
Theorem lvm_metadata_tag :
  md_source_backend <$> res_ok (lvm_btrfs_metadata (demo_btrfs []) (lit "/lib/linux")) = Some BTRFS_BACKEND_TAG /\
  BTRFS_BACKEND_TAG <> LVM_BTRFS_BACKEND_TAG.
Proof. split; [by vm_compute|]. intros E. by vm_compute in E. Qed.
