(* ===== verification/Backends.v ===== *)
(** * The other filesystem backends (fs_backend_ext4.rs, fs_backend_lvm.rs, fs_backend_exfat.rs, fs_backend_zfs.rs, fs_backend_lamfold.rs, fs_backend_fat_ro.rs, fs_backend_lvm_fat.rs)

    Each backend adapts one external crate to the trait [FsBackend]: path
    conversion, error translation, the read limit, loops over short reads,
    listings.  A crate is a record of the functions the code calls, over a
    volume that does not change; the errors have the constructors that the
    translations distinguish. *)
From S2P Require Import Prelude RustStr Utf8 FsTypes SecurityOverride SecureBoot VolumeFs BlockSource Partitions FatFs Dispatch Mounts InodeFs.
Local Open Scope Z_scope.

(** ** ext4: the crate ext4-view *)
Inductive Ext4Error : Type :=
  | Ext4NotFound | Ext4NotADirectory | Ext4IsADirectory | Ext4IsASpecialFile | Ext4Encrypted | Ext4Incompatible | Ext4Corrupt
  | Ext4Other.

Definition translate_ext4_error (err : Ext4Error) : FsError :=
  match err with
  | Ext4NotFound => FsNotFound
  | Ext4NotADirectory => FsNotDirectory
  | Ext4IsADirectory => FsIsDirectory
  | Ext4IsASpecialFile => FsUnsupported "special_file"
  | Ext4Encrypted => FsUnsupported "encrypted"
  | Ext4Incompatible => FsUnsupportedFeature "ext4_incompatible_feature" EXT4_BACKEND_TAG
  | Ext4Corrupt => FsCorrupt "ext4 structural corruption"
  | Ext4Other => FsBackendOther
  end.

(** A file's type by the crate's predicates, its length and mode. *)
Record Ext4Meta : Type := mkExt4Meta { em_is_dir : bool; em_is_regular : bool; em_is_symlink : bool; em_len : Z; em_mode : Z }.

(** An entry: its name ([as_str] fails on bytes that are not UTF-8) and its metadata. *)
Record Ext4Entry : Type := mkExt4Entry { ee_name : option (list Z); ee_metadata : res Ext4Error Ext4Meta }.

(** A loaded volume.  An open file is named by a number; [e4_seek_to] gives the
    new position, [e4_read_bytes] the bytes read there. *)
Record Ext4 : Type := mkExt4 {
  e4_label : option (list Z);                              (* [label().to_str()] *)
  e4_uuid : list Z;
  e4_read : list Z -> res Ext4Error (list Z);
  e4_open : list Z -> res Ext4Error Z;
  e4_seek_to : Z -> Z -> res Ext4Error Z;
  e4_read_bytes : Z -> Z -> Z -> res Ext4Error (list Z);
  e4_exists : list Z -> res Ext4Error bool;
  e4_metadata : list Z -> res Ext4Error Ext4Meta;
  e4_read_dir : list Z -> res Ext4Error (list (res Ext4Error Ext4Entry))
}.

Definition translate_file_type (md : Ext4Meta) : FileKind :=
  if em_is_dir md then Directory else if em_is_regular md then Regular else if em_is_symlink md then Symlink else OtherKind.

Definition translate_ext4_metadata (tag : list Z) (md : Ext4Meta) : Metadata :=
  mkMetadata (translate_file_type md) (em_len md) (em_mode md) (Z.land (em_mode md) 128 =? 0) tag.

Section ext4.
Context (ext4 : Ext4).

#[local] Notation lift := (map_err translate_ext4_error).

Definition ext4_read (path : list Z) : res FsError (list Z) := lift (e4_read ext4 path).

Definition ext4_read_at (path : list Z) (offset n : Z) : res FsError (list Z) :=
  let? file := lift (e4_open ext4 path) in
  let? position := lift (e4_seek_to ext4 file offset) in
  lift (e4_read_bytes ext4 file position n).

Definition ext4_exists (path : list Z) : res FsError bool := lift (e4_exists ext4 path).

Definition ext4_metadata (tag path : list Z) : res FsError Metadata :=
  let? md := lift (e4_metadata ext4 path) in Ok (translate_ext4_metadata tag md).

Fixpoint ext4_list (entries : list (res Ext4Error Ext4Entry)) : res FsError (list DirEntry) :=
  match entries with
  | [] => Ok []
  | entry :: rest =>
      let? entry := lift entry in
      let? name := ok_or (ee_name entry) (FsInvalidPath "non-utf8 ext4 filename") in
      if bool_decide (name = [c_dot]) || bool_decide (name = [c_dot; c_dot]) then ext4_list rest
      else
        let? md := lift (ee_metadata entry) in
        let? out := ext4_list rest in
        Ok (mkDirEntry name (translate_file_type md) (em_len md) :: out)
  end.

Definition ext4_read_dir (path : list Z) : res FsError (list DirEntry) :=
  let? entries := lift (e4_read_dir ext4 path) in ext4_list entries.

Definition ext4_backend : FsBackend := mkBackend ext4_read ext4_read_at ext4_exists ext4_read_dir.
Definition ext4_size (path : list Z) : res FsError Z := let? md := ext4_metadata EXT4_BACKEND_TAG path in Ok (md_size md).

(** The identity both constructors take: a label that is text and not empty. *)
Definition ext4_opened (tag : list Z) : Opened :=
  let label := match e4_label ext4 with Some l => if is_empty l then None else Some l | None => None end in
  mkOpened ext4_backend tag (Some (e4_uuid ext4)) label.
End ext4.

(** [Ext4Backend::from_source] and [LvmExt4Backend::from_lv_parts]; [load] is [Ext4::load]. *)
Definition ext4_from_source {Src : Type} (load : Src -> res Ext4Error Ext4) (source : Src) : res FsError Opened :=
  let? ext4 := map_err translate_ext4_error (load source) in Ok (ext4_opened ext4 EXT4_BACKEND_TAG).

Definition lvm_ext4_from_lv_parts {Src : Type} (load : Src -> res Ext4Error Ext4) (owned : Src) : res FsError Opened :=
  let? ext4 := map_err translate_ext4_error (load owned) in Ok (ext4_opened ext4 LVM_EXT4_BACKEND_TAG).

(** [FsBackend for LvmExt4Backend]: the same calls. *)
Definition lvm_ext4_read := ext4_read.
Definition lvm_ext4_read_at := ext4_read_at.
Definition lvm_ext4_exists := ext4_exists.
Definition lvm_ext4_metadata (ext4 : Ext4) := ext4_metadata ext4 LVM_EXT4_BACKEND_TAG.
Definition lvm_ext4_read_dir := ext4_read_dir.

(** ** Errors of logical volumes: the crate lamlvm *)
Inductive LvmError : Type :=
  | LvmWrongMagic | LvmMultipleVGs | LvmPvDoesntContainItself | LvmMissingMetadata | LvmMetadataNotUtf8 | LvmIo
  | LvmUnexpectedEof | LvmParse | LvmSerde.

Definition translate_lvm_error (e : LvmError) : FsError :=
  match e with
  | LvmWrongMagic => FsUnsupported "LVM PV: wrong label magic"
  | LvmMultipleVGs => FsUnsupported "LVM PV: multiple VGs"
  | LvmPvDoesntContainItself => FsCorrupt "LVM PV: metadata mismatch"
  | LvmMissingMetadata => FsCorrupt "LVM PV: missing metadata area"
  | LvmMetadataNotUtf8 => FsCorrupt "LVM PV: metadata not UTF-8"
  | LvmIo | LvmUnexpectedEof => FsBackendOther
  | LvmParse => FsCorrupt "LVM PV: parse error"
  | LvmSerde => FsCorrupt "LVM PV: metadata deserialize error"
  end.

Inductive OpenLvError : Type := OpenLvPv (inner : LvmError) | OpenLvNoSegment | OpenLvUnsupported (msg : string) | OpenLvSeekOverflow.

Definition translate_open_lv_error (e : OpenLvError) : FsError :=
  match e with
  | OpenLvPv _ => FsBackendOther
  | OpenLvNoSegment => FsCorrupt "LV has no segments"
  | OpenLvUnsupported msg => FsUnsupported msg
  | OpenLvSeekOverflow => FsCorrupt "LV seek-arithmetic overflow"
  end.

(** [OpenedLv::open]: the volume group of the physical volume, then the logical
    volume of that name over a second open of the same device. *)
Record Lvm2 (Lv : Type) : Type := mkLvm2 {
  lvm_vg_name : list Z;
  lvm_open_lv_owned_by_name : list Z -> BlockIoSource -> res OpenLvError (option Lv)
}.
Arguments lvm_vg_name {_}. Arguments lvm_open_lv_owned_by_name {_}.

Definition opened_lv_open {Lv : Type} (open : BlockIoSource -> res LvmError (Lvm2 Lv)) (source : res FsError BlockIoSource)
    (lv_name : list Z) : res FsError (Lv * list Z) :=
  let? pv := source in
  let? lvm := map_err translate_lvm_error (open pv) in
  let? pv := source in
  let? owned := map_err translate_open_lv_error (lvm_open_lv_owned_by_name lvm lv_name pv) in
  let? reader := ok_or owned (FsUnsupported "no LV with that name in this VG") in
  Ok (reader, lvm_vg_name lvm).

(** ** exFAT: the crate lamexfat *)
Inductive VbrReason : Type := VbrBadMagic | VbrBadBootSignature | VbrBadGeometry | VbrBadBootChecksum.

Inductive ExfatErr : Type :=
  | ExfatNotFound
  | ExfatNotARegularFile
  | ExfatFileTooLarge (size max : Z)
  | ExfatUnsupportedFeature (feature : string)
  | ExfatBadVbr (reason : VbrReason)
  | ExfatBadUpcaseTable
  | ExfatBadEntrySet (token : string)
  | ExfatInconsistent (token : string)
  | ExfatIo (token : string)
  | ExfatOutOfMemory.

Definition translate_exfat_error (err : ExfatErr) : FsError :=
  match err with
  | ExfatNotFound => FsNotFound
  | ExfatNotARegularFile => FsIsDirectory
  | ExfatFileTooLarge size max => FsFileTooLarge size max
  | ExfatUnsupportedFeature feature => FsUnsupportedFeature feature EXFAT_BACKEND_TAG
  | ExfatBadVbr reason =>
      match reason with
      | VbrBadMagic => FsCorrupt "exfat bad boot-sector magic"
      | VbrBadBootSignature => FsCorrupt "exfat bad boot signature"
      | VbrBadGeometry => FsCorrupt "exfat bad boot-sector geometry"
      | VbrBadBootChecksum => FsCorrupt "exfat boot-region checksum mismatch"
      end
  | ExfatBadUpcaseTable => FsCorrupt "exfat bad up-case table"
  | ExfatBadEntrySet token | ExfatInconsistent token | ExfatIo token => FsCorrupt token
  | ExfatOutOfMemory => FsUnsupported "out_of_memory"
  end.

Record ExfatMeta : Type := mkExfatMeta { xm_is_dir : bool; xm_is_file : bool; xm_size : Z }.
Inductive ExfatKind : Type := ExfatRegular | ExfatDirectory | ExfatOther.

Record ExFat : Type := mkExFat {
  xf_label : option (list Z);
  xf_metadata : list Z -> res ExfatErr ExfatMeta;
  xf_read_at : list Z -> Z -> Z -> res ExfatErr (list Z);
  xf_exists : list Z -> res ExfatErr bool;
  xf_read_dir : list Z -> res ExfatErr (list (list Z * ExfatKind))
}.

Definition exfat_path (path : list Z) : list Z := str_bytes path.

Definition exfat_kind (md : ExfatMeta) : FileKind :=
  if xm_is_dir md then Directory else if xm_is_file md then Regular else OtherKind.

(** The mode of read-only media: 0o555 for directories, 0o444 otherwise. *)
Definition media_mode (kind : FileKind) : Z := match kind with Directory => 365 | _ => 292 end.

Definition translate_exfat_metadata (md : ExfatMeta) : Metadata :=
  let kind := exfat_kind md in mkMetadata kind (xm_size md) (media_mode kind) true EXFAT_BACKEND_TAG.

Definition exfat_kind_from_entry (kind : ExfatKind) : FileKind :=
  match kind with ExfatRegular => Regular | ExfatDirectory => Directory | ExfatOther => OtherKind end.

Section exfat.
Context (fs : ExFat).

#[local] Notation lift := (map_err translate_exfat_error).

Definition exfat_read (path : list Z) : res FsError (list Z) :=
  let? md := lift (xf_metadata fs (exfat_path path)) in
  let? size := checked_full_read_len (xm_size md) in
  lift (xf_read_at fs (exfat_path path) 0 size).

Definition exfat_read_at (path : list Z) (offset n : Z) : res FsError (list Z) := lift (xf_read_at fs (exfat_path path) offset n).
Definition exfat_exists (path : list Z) : res FsError bool := lift (xf_exists fs (exfat_path path)).

Definition exfat_metadata (path : list Z) : res FsError Metadata :=
  let? md := lift (xf_metadata fs (exfat_path path)) in Ok (translate_exfat_metadata md).

Fixpoint exfat_list (parent : list Z) (entries : list (list Z * ExfatKind)) : res FsError (list DirEntry) :=
  match entries with
  | [] => Ok []
  | (name, ekind) :: rest =>
      let child := parent ++ [c_slash] ++ name in
      let? facts := match xf_metadata fs (str_bytes child) with
                    | Ok md => Ok (exfat_kind md, xm_size md)
                    | Err _ => Ok (exfat_kind_from_entry ekind, 0)
                    | Panic => Panic
                    end in
      let? out := exfat_list parent rest in
      Ok (mkDirEntry name facts.1 facts.2 :: out)
  end.

Definition exfat_read_dir (path : list Z) : res FsError (list DirEntry) :=
  let? entries := lift (xf_read_dir fs (exfat_path path)) in
  exfat_list (drop_while_end (Z.eqb c_slash) path) entries.

Definition exfat_backend : FsBackend := mkBackend exfat_read exfat_read_at exfat_exists exfat_read_dir.
Definition exfat_size (path : list Z) : res FsError Z := let? md := exfat_metadata path in Ok (md_size md).
End exfat.

Definition exfat_from_source {Src : Type} (open : Src -> res ExfatErr ExFat) (source : Src) : res FsError Opened :=
  let? fs := map_err translate_exfat_error (open source) in
  Ok (mkOpened (exfat_backend fs) EXFAT_BACKEND_TAG None (xf_label fs)).

(** ** ZFS: the crate lamzfs *)
Inductive ZfsError : Type :=
  | ZfsNotFound
  | ZfsNotARegularFile
  | ZfsNotADirectory
  | ZfsNotASymlink
  | ZfsFileTooLarge (size max : Z)
  | ZfsUnsupportedFeature (feature : string)
  | ZfsUnsupportedTopology (feature : string)
  | ZfsUnsupportedCompression
  | ZfsUnsupported (token : string)
  | ZfsChecksumMismatch (what : string)
  | ZfsIo (token : string)
  | ZfsInconsistent (token : string)
  | ZfsBadCompression (token : string)
  | ZfsBadLabel
  | ZfsNoValidUberblock
  | ZfsOutOfMemory (site : string).

Definition translate_zfs_error (err : ZfsError) : FsError :=
  match err with
  | ZfsNotFound => FsNotFound
  | ZfsNotARegularFile => FsIsDirectory
  | ZfsNotADirectory => FsNotDirectory
  | ZfsNotASymlink => FsUnsupported "zfs_not_a_symlink"
  | ZfsFileTooLarge size max => FsFileTooLarge size max
  | ZfsUnsupportedFeature feature | ZfsUnsupportedTopology feature => FsUnsupportedFeature feature ZFS_BACKEND_TAG
  | ZfsUnsupportedCompression => FsUnsupportedFeature "zfs_compression" ZFS_BACKEND_TAG
  | ZfsUnsupported token => FsUnsupported token
  | ZfsChecksumMismatch what => FsIntegrityFailed what
  | ZfsIo token | ZfsInconsistent token | ZfsBadCompression token => FsCorrupt token
  | ZfsBadLabel => FsCorrupt "zfs_bad_label"
  | ZfsNoValidUberblock => FsCorrupt "zfs_no_valid_uberblock"
  | ZfsOutOfMemory site => FsUnsupported site
  end.

Record ZfsStat : Type := mkZfsStat { zs_kind : FileKind; zs_size : Z }.

(** An imported pool; the calls name a dataset and a path in it by components. *)
Record Zfs : Type := mkZfs {
  zf_pool_name : list Z;
  zf_datasets : res ZfsError (list (list (list Z)));
  zf_read_dir : list (list Z) -> list (list Z) -> res ZfsError (list (list Z * FileKind));
  zf_stat : list (list Z) -> list (list Z) -> res ZfsError ZfsStat;
  zf_read : list (list Z) -> list (list Z) -> res ZfsError (list Z);
  zf_read_at : list (list Z) -> list (list Z) -> Z -> Z -> res ZfsError (list Z);
  zf_exists : list (list Z) -> list (list Z) -> res ZfsError bool
}.

Definition components (path : list Z) : list (list Z) :=
  List.filter (fun c => negb (is_empty c) && negb (bool_decide (c = [c_dot]))) (split_char c_slash path).

(** [dataset.join("/")] *)
Definition dataset_label (pool_name : list Z) (dataset : list (list Z)) : list Z :=
  match dataset with
  | [] => pool_name
  | first :: rest => foldl (fun acc c => acc ++ [c_slash] ++ c) first rest
  end.

Definition zfs_kind_from_entry (kind : FileKind) : FileKind :=
  match kind with Regular => Regular | Directory => Directory | Symlink => Symlink | OtherKind => OtherKind end.

Definition translate_stat (stat : ZfsStat) : Metadata :=
  let kind := zfs_kind_from_entry (zs_kind stat) in mkMetadata kind (zs_size stat) (media_mode kind) true ZFS_BACKEND_TAG.

Section zfs.
Context (zfs : Zfs) (dataset : list (list Z)).

#[local] Notation lift := (map_err translate_zfs_error).

Definition zfs_read (path : list Z) : res FsError (list Z) :=
  let? stat := lift (zf_stat zfs dataset (components path)) in
  let? _ := checked_full_read_len (zs_size stat) in
  lift (zf_read zfs dataset (components path)).

Definition zfs_read_at (path : list Z) (offset n : Z) : res FsError (list Z) :=
  lift (zf_read_at zfs dataset (components path) offset n).

Definition zfs_exists (path : list Z) : res FsError bool := lift (zf_exists zfs dataset (components path)).

Definition zfs_metadata (path : list Z) : res FsError Metadata :=
  let? stat := lift (zf_stat zfs dataset (components path)) in Ok (translate_stat stat).

Fixpoint zfs_list (comps : list (list Z)) (entries : list (list Z * FileKind)) : res FsError (list DirEntry) :=
  match entries with
  | [] => Ok []
  | (name, ekind) :: rest =>
      let kind := zfs_kind_from_entry ekind in
      let? size := if bool_decide (kind = Regular)
                   then match zf_stat zfs dataset (comps ++ [name]) with Ok s => Ok (zs_size s) | Err _ => Ok 0 | Panic => Panic end
                   else Ok 0 in
      let? out := zfs_list comps rest in
      Ok (mkDirEntry name kind size :: out)
  end.

Definition zfs_read_dir (path : list Z) : res FsError (list DirEntry) :=
  let? entries := lift (zf_read_dir zfs dataset (components path)) in zfs_list (components path) entries.

Definition zfs_backend : FsBackend := mkBackend zfs_read zfs_read_at zfs_exists zfs_read_dir.
Definition zfs_size (path : list Z) : res FsError Z := let? md := zfs_metadata path in Ok (md_size md).
End zfs.

(** One backend per dataset that can be listed. *)
Fixpoint open_datasets (zfs : Zfs) (datasets : list (list (list Z))) : res FsError (list Opened) :=
  match datasets with
  | [] => Ok []
  | ds :: rest =>
      match zf_read_dir zfs ds [] with
      | Ok _ =>
          let? backends := open_datasets zfs rest in
          Ok (mkOpened (zfs_backend zfs ds) ZFS_BACKEND_TAG None (Some (dataset_label (zf_pool_name zfs) ds)) :: backends)
      | Err _ => open_datasets zfs rest
      | Panic => Panic
      end
  end.

(** [import] is [Zfs::import] over the members. *)
Definition zfs_mount_pool {Src : Type} (import : list Src -> res ZfsError Zfs) (members : list Src) : res FsError (list Opened) :=
  let? zfs := map_err translate_zfs_error (import members) in
  let? datasets := match zf_datasets zfs with Ok ds => Ok ds | Err _ => Ok [[]] | Panic => Panic end in
  let? backends := open_datasets zfs datasets in
  match backends with [] => Err (FsUnsupported "zfs_no_readable_datasets") | _ => Ok backends end.

(** ** Loops over short reads *)
(** [while filled < len]: [read position n] gives the bytes read there; no
    bytes end the loop.  Every other read adds one, so [size] rounds are
    enough. *)
Fixpoint read_loop (fuel : nat) (read : Z -> Z -> res FsError (list Z)) (offset size : Z) (filled : list Z) : res FsError (list Z) :=
  if len filled <? size then
    match fuel with
    | O => Panic
    | S fuel' =>
        let? got := read (offset + len filled) (size - len filled) in
        if len got =? 0 then Ok filled else read_loop fuel' read offset size (filled ++ got)
    end
  else Ok filled.

(** ** Read-only media: the crate lamfold *)
Inductive FoldError : Type :=
  | FoldNotFound
  | FoldNotDirectory
  | FoldIsDirectory
  | FoldInvalidPath (s : string)
  | FoldCorrupt (s : string)
  | FoldDecompress (s : string)
  | FoldUnsupported (s : string)
  | FoldFileTooLarge (size max : Z)
  | FoldVerifyFailed (s : string)
  | FoldIo.

Definition map_fold_err (e : FoldError) : FsError :=
  match e with
  | FoldNotFound => FsNotFound
  | FoldNotDirectory => FsNotDirectory
  | FoldIsDirectory => FsIsDirectory
  | FoldInvalidPath s => FsInvalidPath s
  | FoldCorrupt s | FoldDecompress s => FsCorrupt s
  | FoldUnsupported s => FsUnsupported s
  | FoldFileTooLarge size max => FsFileTooLarge size max
  | FoldVerifyFailed s => FsIntegrityFailed s
  | FoldIo => FsIo (efi_error 7)
  end.

Record FoldMeta : Type := mkFoldMeta { fm_kind : FileKind; fm_size : Z; fm_mode : Z }.

(** A mounted frontend with its cache and verifier. *)
Record Fold : Type := mkFold {
  fd_read_path : list Z -> res FoldError (list Z);
  fd_resolve : list Z -> res FoldError Z;
  fd_read_at : Z -> Z -> Z -> res FoldError (list Z);
  fd_metadata_path : list Z -> res FoldError FoldMeta;
  fd_metadata : Z -> res FoldError FoldMeta;
  fd_read_dir_path : list Z -> res FoldError (list (list Z * FileKind * Z))     (* name, kind, node *)
}.

Definition map_kind (k : FileKind) : FileKind :=
  match k with Regular => Regular | Directory => Directory | Symlink => Symlink | OtherKind => OtherKind end.

Section lamfold.
Context (fs : Fold) (tag : list Z).

#[local] Notation lift := (map_err map_fold_err).

Definition lamfold_read (path : list Z) : res FsError (list Z) := lift (fd_read_path fs path).

Definition lamfold_read_at (path : list Z) (offset n : Z) : res FsError (list Z) :=
  let? node := lift (fd_resolve fs path) in
  read_loop (Z.to_nat n) (fun position k => lift (fd_read_at fs node position k)) offset n [].

Definition lamfold_metadata (path : list Z) : res FsError Metadata :=
  let? md := lift (fd_metadata_path fs path) in
  Ok (mkMetadata (map_kind (fm_kind md)) (fm_size md) (fm_mode md) true tag).

Definition lamfold_exists (path : list Z) : res FsError bool :=
  match lamfold_metadata path with
  | Ok _ => Ok true
  | Err FsNotFound => Ok false
  | Err e => Err e
  | Panic => Panic
  end.

Fixpoint lamfold_list (entries : list (list Z * FileKind * Z)) : res FsError (list DirEntry) :=
  match entries with
  | [] => Ok []
  | (name, kind, node) :: rest =>
      let? size := match fd_metadata fs node with Ok m => Ok (fm_size m) | Err _ => Ok 0 | Panic => Panic end in
      let? out := lamfold_list rest in
      Ok (mkDirEntry name (map_kind kind) size :: out)
  end.

Definition lamfold_read_dir (path : list Z) : res FsError (list DirEntry) :=
  let? entries := lift (fd_read_dir_path fs path) in lamfold_list entries.

Definition lamfold_backend : FsBackend := mkBackend lamfold_read lamfold_read_at lamfold_exists lamfold_read_dir.
Definition lamfold_size (path : list Z) : res FsError Z := let? md := lamfold_metadata path in Ok (md_size md).
End lamfold.

(** ** FAT without the firmware: the crate fatfs *)
Inductive FatRoIoError : Type := FatBlock (what : string) | FatUnexpectedEof | FatWriteZero | FatWriteAttempted.

(** [BlockIoFatAdapter::open], after the protocol is opened. *)
Definition fat_adapter_open (io : BlockIO) : res FsError BlockIoSource :=
  let block_size := bio_block_size io in
  if block_size =? 0 then Err (FsUnsupported "block_size=0")
  else
    let media_len := saturating_mul u64_max (saturating_add u64_max (bio_last_block io) 1) block_size in
    Ok (mkBio io block_size 0 media_len).

Definition fat_adapter_read (n : Z) (s : BlockIoSource) : res FatRoIoError (list Z) * BlockIoSource :=
  if n =? 0 then (Ok [], s)
  else
    let remaining := Z.max 0 (bios_media_len s - bios_position s) in
    if remaining =? 0 then (Ok [], s)
    else
      let want := Z.min n remaining in
      match compute_aligned_read (bios_position s) want (bios_block_size s) with
      | None => (Err (FatBlock "alignment-compute overflow"), s)
      | Some (first_lba, aligned_len, intra) =>
          match bio_read_blocks (bios_io s) first_lba aligned_len with
          | None => (Err (FatBlock "read_blocks failed"), s)
          | Some buf =>
              match slice intra (intra + want) buf with
              | Ok dst => (Ok dst, bio_at s (saturating_add u64_max (bios_position s) want))
              | Err e => (Err e, s)
              | Panic => (Panic, s)
              end
          end
      end.

Definition fat_adapter_seek (pos : SeekFrom) (s : BlockIoSource) : res FatRoIoError Z * BlockIoSource :=
  let new :=
    match pos with
    | SeekStart x => Ok x
    | SeekEnd x => map_err FatBlock (seek_signed (bios_media_len s) x "len > i64" "seek-end overflow" "seek-end negative")
    | SeekCurrent x => map_err FatBlock (seek_signed (bios_position s) x "pos > i64" "seek-cur overflow" "seek-cur negative")
    end in
  match new with
  | Ok p => (Ok p, bio_at s p)
  | Err e => (Err e, s)
  | Panic => (Panic, s)
  end.

(** Writing: refused; flushing does nothing. *)
Definition fat_adapter_write (buf : list Z) : res FatRoIoError Z := Err FatWriteAttempted.

(** [LvFatAdapter]: the same three calls over a logical volume. *)
Definition lv_fat_read `{BlockSource Lv} (n : Z) (lv : Lv) : res FatRoIoError (list Z) * Lv :=
  let '(r, lv) := bs_read n lv in (map_err (fun _ => FatBlock "LV read failed") r, lv).

Definition lv_fat_seek `{BlockSource Lv} (pos : SeekFrom) (lv : Lv) : res FatRoIoError Z * Lv :=
  let '(r, lv) := bs_seek pos lv in (map_err (fun _ => FatBlock "LV seek failed") r, lv).

Inductive FatError : Type :=
  | FatNotFound | FatIo (inner : FatRoIoError) | FatCorruptedFileSystem | FatErrUnexpectedEof | FatInvalidInput | FatAlreadyExists
  | FatDirectoryIsNotEmpty | FatNotEnoughSpace | FatErrWriteZero | FatInvalidFileNameLength | FatUnsupportedFileNameCharacter
  | FatErrOther.

Definition translate_fatfs_error (e : FatError) : FsError :=
  match e with
  | FatNotFound => FsNotFound
  | FatIo _ => FsBackendOther
  | FatCorruptedFileSystem => FsCorrupt "fatfs: corrupted volume"
  | FatErrUnexpectedEof => FsCorrupt "fatfs: unexpected eof"
  | FatInvalidInput => FsInvalidPath "fatfs: invalid input"
  | FatAlreadyExists => FsUnsupported "fatfs: already exists"
  | FatDirectoryIsNotEmpty => FsUnsupported "fatfs: directory not empty"
  | FatNotEnoughSpace => FsUnsupported "fatfs: not enough space"
  | FatErrWriteZero => FsUnsupported "fatfs: write zero"
  | FatInvalidFileNameLength => FsInvalidPath "fatfs: invalid name length"
  | FatUnsupportedFileNameCharacter => FsInvalidPath "fatfs: unsupported name character"
  | FatErrOther => FsCorrupt "fatfs: unexpected error variant"
  end.

Record FatEntry : Type := mkFatEntry { fe_name : list Z; fe_is_dir : bool; fe_len : Z; fe_read_only : bool }.

(** A mounted volume.  [ff_open_dir] lists a directory below the root; an open
    file is named by a number; seeking gives the new position. *)
Record FatVolume : Type := mkFatVolume {
  ff_volume_id : Z;
  ff_volume_label : list Z;
  ff_root : list (res FatError FatEntry);
  ff_open_dir : list Z -> res FatError (list (res FatError FatEntry));
  ff_open_file : list Z -> res FatError Z;
  ff_seek : Z -> SeekFrom -> res FatError Z;
  ff_read : Z -> Z -> Z -> res FatError (list Z)
}.

Record EntryInfo : Type := mkEntryInfo { ei_kind : FileKind; ei_size : Z; ei_read_only : bool }.

Definition fat_kind (e : FatEntry) : FileKind := if fe_is_dir e then Directory else Regular.

(** The search in a directory, ignoring ASCII case. *)
Fixpoint find_in (name : list Z) (entries : list (res FatError FatEntry)) : res FsError (option EntryInfo) :=
  match entries with
  | [] => Ok None
  | r :: rest =>
      let? e := map_err translate_fatfs_error r in
      if eq_ignore_ascii_case (fe_name e) name then Ok (Some (mkEntryInfo (fat_kind e) (fe_len e) (fe_read_only e)))
      else find_in name rest
  end.

Section fat_ro.
Context (fs : FatVolume) (tag : list Z).

#[local] Notation lift := (map_err translate_fatfs_error).

Definition find_entry (path : list Z) : res FsError (option EntryInfo) :=
  let name := path_file_name path in
  if is_empty name then Ok (Some (mkEntryInfo Directory 0 false))
  else
    let parent := path_parent path in
    if bool_decide (parent = [c_slash]) then find_in name (ff_root fs)
    else
      match ff_open_dir fs parent with
      | Ok entries => find_in name entries
      | Err FatNotFound => Ok None
      | Err e => Err (translate_fatfs_error e)
      | Panic => Panic
      end.

(** [fill_from_file] of a file at the position. *)
Definition fill_from_file (file position size : Z) : res FsError (list Z) :=
  read_loop (Z.to_nat size) (fun pos n => lift (ff_read fs file pos n)) position size [].

Definition fat_ro_read (path : list Z) : res FsError (list Z) :=
  let? file := lift (ff_open_file fs path) in
  let? size := lift (ff_seek fs file (SeekEnd 0)) in
  let? position := lift (ff_seek fs file (SeekStart 0)) in
  let? cap := checked_full_read_len size in
  fill_from_file file position cap.

Definition fat_ro_read_at (path : list Z) (offset n : Z) : res FsError (list Z) :=
  let? file := lift (ff_open_file fs path) in
  let? position := lift (ff_seek fs file (SeekStart offset)) in
  fill_from_file file position n.

Definition fat_ro_exists (path : list Z) : res FsError bool :=
  let? e := find_entry path in Ok (match e with Some _ => true | None => false end).

(** Modes 0o755, 0o444, 0o644 and 0. *)
Definition fat_ro_metadata (path : list Z) : res FsError Metadata :=
  let? e := find_entry path in
  let? info := ok_or e FsNotFound in
  let mode := match ei_kind info with
              | Directory => 493
              | Regular => if ei_read_only info then 292 else 420
              | _ => 0
              end in
  Ok (mkMetadata (ei_kind info) (ei_size info) mode (ei_read_only info) tag).

Fixpoint fat_ro_list (entries : list (res FatError FatEntry)) : res FsError (list DirEntry) :=
  match entries with
  | [] => Ok []
  | r :: rest =>
      let? e := lift r in
      if bool_decide (fe_name e = [c_dot]) || bool_decide (fe_name e = [c_dot; c_dot]) then fat_ro_list rest
      else
        let? out := fat_ro_list rest in
        Ok (mkDirEntry (fe_name e) (fat_kind e) (fe_len e) :: out)
  end.

Definition fat_ro_read_dir (path : list Z) : res FsError (list DirEntry) :=
  let? entries := if bool_decide (path = [c_slash]) then Ok (ff_root fs) else lift (ff_open_dir fs path) in
  fat_ro_list entries.

Definition fat_ro_backend : FsBackend := mkBackend fat_ro_read fat_ro_read_at fat_ro_exists fat_ro_read_dir.
Definition fat_ro_size (path : list Z) : res FsError Z := let? md := fat_ro_metadata path in Ok (md_size md).
End fat_ro.

(** [FileSystem::new] over an adapter; read-only options. *)
Definition fat_ro_from_adapter {A : Type} (new : A -> res FatError FatVolume) (adapter : A) (tag : list Z) : res FsError Opened :=
  let? fs := map_err translate_fatfs_error (new adapter) in
  let label := if is_empty (ff_volume_label fs) then None else Some (ff_volume_label fs) in
  Ok (mkOpened (fat_ro_backend fs) tag (Some (uuid_from_fat_serial (ff_volume_id fs))) label).

Definition lvm_fat_from_lv_parts {Lv : Type} (new : Lv -> res FatError FatVolume) (reader : Lv) : res FsError Opened :=
  fat_ro_from_adapter new reader LVM_FAT_RO_BACKEND_TAG.

(** ** The placeholder of [share_backend] (fs_shared.rs): it has nothing. *)
Definition null_backend : FsBackend :=
  mkBackend (fun _ => Err FsNotFound) (fun _ _ _ => Err FsNotFound) (fun _ => Ok false) (fun _ => Err FsNotFound).

(** ** The readers of the boot loader *)
(** The crates' constructors; over a partition, then over a logical volume. *)
Record Crates (Lv : Type) : Type := mkCrates {
  ck_ext4 : BlockIoSource -> res Ext4Error Ext4;
  ck_btrfs : BlockIoSource -> res LbErr (InodeFs LbErr);
  ck_xfs : BlockIoSource -> res XfsErr (InodeFs XfsErr * list Z * option (list Z));
  ck_lamfold : ProbedFs -> BlockIoSource -> res FoldError Fold;
  ck_exfat : BlockIoSource -> res ExfatErr ExFat;
  ck_fatfs : BlockIoSource -> res FatError FatVolume;
  ck_peek_pool : BlockIoSource -> option Z;
  ck_zfs : list BlockIoSource -> res ZfsError Zfs;
  ck_lvm2 : BlockIoSource -> res LvmError (Lvm2 Lv);
  cl_ext4 : Lv -> res Ext4Error Ext4;
  cl_btrfs : Lv -> res LbErr (InodeFs LbErr);
  cl_xfs : Lv -> res XfsErr (InodeFs XfsErr * list Z * option (list Z));
  cl_fatfs : Lv -> res FatError FatVolume
}.
Arguments ck_ext4 {_}. Arguments ck_btrfs {_}. Arguments ck_xfs {_}. Arguments ck_lamfold {_}. Arguments ck_exfat {_}.
Arguments ck_fatfs {_}. Arguments ck_peek_pool {_}. Arguments ck_zfs {_}. Arguments ck_lvm2 {_}. Arguments cl_ext4 {_}.
Arguments cl_btrfs {_}. Arguments cl_xfs {_}. Arguments cl_fatfs {_}.

(** The readers the mount passes use, made of the backends above. *)
Definition code_readers {Lv : Type} (ck : Crates Lv) : Readers Lv := {|
  rd_parts := {|
    fa_ext4 := ext4_from_source (ck_ext4 ck);
    fa_btrfs := btrfs_from_source (ck_btrfs ck);
    fa_xfs := xfs_from_source (ck_xfs ck);
    fa_lamfold k s := let? fs := map_err map_fold_err (ck_lamfold ck k s) in Ok (lamfold_backend fs (lamfold_tag k))
  |};
  rd_exfat := exfat_from_source (ck_exfat ck);
  rd_fat_ro io := let? adapter := fat_adapter_open io in fat_ro_from_adapter (ck_fatfs ck) adapter FAT_RO_BACKEND_TAG;
  rd_peek_pool := ck_peek_pool ck;
  rd_mount_pool := zfs_mount_pool (ck_zfs ck);
  rd_lvs := {|
    lv_ext4 s _ := lvm_ext4_from_lv_parts (cl_ext4 ck) s;
    lv_btrfs s _ := lvm_btrfs_from_lv_parts (cl_btrfs ck) s;
    lv_xfs := xfs_from_source (cl_xfs ck);
    lv_fat := lvm_fat_from_lv_parts (cl_fatfs ck)
  |};
  rd_open_lv pv := opened_lv_open (ck_lvm2 ck) (Ok pv)
|}.

(** ** Short reads are put together *)
(** A reader of a file gives a non-empty front of what is left of the contents. *)
Definition short_reads (read : Z -> Z -> res FsError (list Z)) (data : list Z) : Prop :=
  forall pos n, 0 <= pos -> 0 < n ->
    exists got, read pos n = Ok got /\ got = take (length got) (drop (Z.to_nat pos) data) /\ len got <= n /\
      (got = [] -> len data <= pos).

Lemma read_loop_all (read : Z -> Z -> res FsError (list Z)) (data : list Z) (off size : Z) (fuel : nat) (filled : list Z) :
  short_reads read data -> 0 <= off -> size <= len filled + Z.of_nat fuel ->
  len filled <= size -> filled = take (length filled) (drop (Z.to_nat off) data) ->
  read_loop fuel read off size filled = Ok (take (Z.to_nat size) (drop (Z.to_nat off) data)).
Proof.
  intros Hr Hoff. revert filled. induction fuel as [|fuel IH]; intros filled Hf Hs Hfill; simpl.
  - rewrite (proj2 (Z.ltb_ge _ _)) by lia. rewrite Hfill at 1. do 2 f_equal. unfold len in *. lia.
  - destruct (Z.ltb_spec (len filled) size) as [Hlt|Hge].
    + destruct (Hr (off + len filled) (size - len filled)) as (got & -> & Hg & Hn & He); [pose proof (len_nonneg filled); lia|lia|].
      cbn [res_bind]. assert (drop (Z.to_nat (off + len filled)) data = drop (length filled) (drop (Z.to_nat off) data)) as Hd.
      { rewrite drop_drop. f_equal. unfold len in *. lia. }
      destruct (Z.eqb_spec (len got) 0) as [E|E].
      * destruct got; [|rewrite len_cons in E; pose proof (len_nonneg got); lia]. specialize (He eq_refl). f_equal.
        rewrite Hfill at 1. rewrite !take_ge; [done| |]; rewrite length_drop; unfold len in *; lia.
      * apply IH; [unfold len in *; rewrite length_app; pose proof (len_nonneg got); unfold len in *; lia|rewrite len_app; lia|].
        rewrite length_app, <- take_take_drop, <- Hd, <- Hfill, <- Hg. done.
    + rewrite Hfill at 1. do 2 f_equal. unfold len in *. lia.
Qed.

(** ** Files behind each backend *)
Section files.
Context (p data : list Z).

Definition as_source (b : FsBackend) (size : list Z -> res FsError Z) : Prop :=
  exists s, file_source_new (mkShared b size false) p = Ok s /\ src_at s data 0 /\ src_good s.

Lemma read_loop_file (read : Z -> Z -> res FsError (list Z)) (off n : Z) :
  short_reads read data -> 0 <= off -> 0 <= n ->
  read_loop (Z.to_nat n) read off n [] = Ok (take (Z.to_nat n) (drop (Z.to_nat off) data)).
Proof. intros Hr Hoff Hn. apply read_loop_all; [done|done|rewrite len_nil; lia|rewrite len_nil; lia|done]. Qed.

(** What fatfs does for a file: opening, seeking, reading; and the search finds it. *)
Record fat_file (fs : FatVolume) (file : Z) : Prop := {
  ft_open : ff_open_file fs p = Ok file;
  ft_end : ff_seek fs file (SeekEnd 0) = Ok (len data);
  ft_start : forall x, ff_seek fs file (SeekStart x) = Ok x;
  ft_read : short_reads (fun pos n => map_err translate_fatfs_error (ff_read fs file pos n)) data;
  ft_entry : exists info, find_entry fs p = Ok (Some info) /\ ei_size info = len data
}.

Lemma fat_ro_presents (fs : FatVolume) (tag : list Z) (file : Z) :
  fat_file fs file -> len data <= u64_max ->
  reads_capped (fat_ro_backend fs) p data /\ presents (fat_ro_backend fs) (fat_ro_size fs tag) p data.
Proof.
  intros Hf Hmax. destruct (ft_entry _ _ Hf) as (info & He & Hi). split; [|split; simpl; [done| | |]].
  - unfold reads_capped. simpl. unfold fat_ro_read. rewrite (ft_open _ _ Hf). cbn [map_err res_bind]. rewrite (ft_end _ _ Hf).
    cbn [map_err res_bind]. rewrite (ft_start _ _ Hf). cbn [map_err res_bind]. rewrite checked_full_read by done.
    destruct (len data <=? MAX_BOOT_FILE_BYTES); [|done]. cbn [res_bind]. unfold fill_from_file.
    rewrite read_loop_file; [|by apply Hf|lia|apply len_nonneg]. unfold len. by rewrite Nat2Z.id, firstn_all.
  - intros off n Hoff Hn. unfold fat_ro_read_at. rewrite (ft_open _ _ Hf). cbn [map_err res_bind]. rewrite (ft_start _ _ Hf).
    cbn [map_err res_bind]. by apply read_loop_file; [apply Hf| |].
  - unfold fat_ro_exists. by rewrite He.
  - unfold fat_ro_size, fat_ro_metadata. rewrite He. cbn [res_bind ok_or]. by rewrite <- Hi.
Qed.

(** lamfold: resolving, metadata, reads of the node. *)
Record fold_file (fs : Fold) (node : Z) : Prop := {
  fl_resolve : fd_resolve fs p = Ok node;
  fl_meta : exists md, fd_metadata_path fs p = Ok md /\ fm_size md = len data;
  fl_read : short_reads (fun pos n => map_err map_fold_err (fd_read_at fs node pos n)) data
}.

Lemma lamfold_presents (fs : Fold) (tag : list Z) (node : Z) :
  fold_file fs node -> len data <= u64_max -> presents (lamfold_backend fs tag) (lamfold_size fs tag) p data.
Proof.
  intros Hf Hmax. destruct (fl_meta _ _ Hf) as (md & Hm & Hs). split; simpl; [done| | |].
  - intros off n Hoff Hn. unfold lamfold_read_at. rewrite (fl_resolve _ _ Hf). cbn [map_err res_bind].
    by apply read_loop_file; [apply Hf| |].
  - unfold lamfold_exists, lamfold_metadata. by rewrite Hm.
  - unfold lamfold_size, lamfold_metadata. rewrite Hm. simpl. by rewrite Hs.
Qed.

(** exFAT and ZFS read the whole range in one call. *)
Definition whole_reads {Er : Type} (read : Z -> Z -> res Er (list Z)) : Prop :=
  forall off n, 0 <= off -> 0 <= n -> read off n = Ok (take (Z.to_nat n) (drop (Z.to_nat off) data)).

Lemma exfat_presents (fs : ExFat) (md : ExfatMeta) :
  xf_metadata fs (str_bytes p) = Ok md -> xm_size md = len data -> whole_reads (xf_read_at fs (str_bytes p)) ->
  xf_exists fs (str_bytes p) = Ok true -> len data <= u64_max ->
  reads_capped (exfat_backend fs) p data /\ presents (exfat_backend fs) (exfat_size fs) p data.
Proof.
  intros Hm Hs Hr He Hmax. split; [|split; simpl; [done| | |]].
  - unfold reads_capped. simpl. unfold exfat_read, exfat_path. rewrite Hm. cbn [map_err res_bind]. rewrite Hs, checked_full_read by done.
    destruct (len data <=? MAX_BOOT_FILE_BYTES); [|done]. cbn [res_bind]. rewrite Hr by (lia || apply len_nonneg). simpl.
    unfold len. by rewrite Nat2Z.id, firstn_all.
  - intros off n ? ?. unfold exfat_read_at, exfat_path. by rewrite Hr.
  - unfold exfat_exists, exfat_path. by rewrite He.
  - unfold exfat_size, exfat_metadata, exfat_path. rewrite Hm. simpl. by rewrite Hs.
Qed.

Lemma zfs_presents (zfs : Zfs) (ds : list (list Z)) (st : ZfsStat) :
  zf_stat zfs ds (components p) = Ok st -> zs_size st = len data -> zf_read zfs ds (components p) = Ok data ->
  whole_reads (zf_read_at zfs ds (components p)) -> zf_exists zfs ds (components p) = Ok true -> len data <= u64_max ->
  reads_capped (zfs_backend zfs ds) p data /\ presents (zfs_backend zfs ds) (zfs_size zfs ds) p data.
Proof.
  intros Hm Hs Hr Ha He Hmax. split; [|split; simpl; [done| | |]].
  - unfold reads_capped. simpl. unfold zfs_read. rewrite Hm. cbn [map_err res_bind]. rewrite Hs, checked_full_read by done.
    destruct (len data <=? MAX_BOOT_FILE_BYTES); [|done]. cbn [res_bind]. by rewrite Hr.
  - intros off n ? ?. unfold zfs_read_at. by rewrite Ha.
  - unfold zfs_exists. by rewrite He.
  - unfold zfs_size, zfs_metadata. rewrite Hm. simpl. by rewrite Hs.
Qed.

(** ext4-view may stop early, at the end of a block: the byte source goes on from there. *)
Lemma ext4_source (ext4 : Ext4) (file : Z) (md : Ext4Meta) :
  e4_open ext4 p = Ok file -> (forall x, e4_seek_to ext4 file x = Ok x) ->
  short_reads (fun pos n => map_err translate_ext4_error (e4_read_bytes ext4 file pos n)) data ->
  e4_metadata ext4 p = Ok md -> em_len md = len data -> len data <= u64_max -> as_source (ext4_backend ext4) (ext4_size ext4).
Proof.
  intros Ho Hs Hr Hm Hl Hmax. unfold as_source.
  assert (forall off n, ext4_read_at ext4 p off n = map_err translate_ext4_error (e4_read_bytes ext4 file off n)) as Ha.
  { intros off n. unfold ext4_read_at. rewrite Ho. cbn [map_err res_bind]. by rewrite Hs. }
  assert (ext4_size ext4 p = Ok (len data)) as Hsz.
  { unfold ext4_size, ext4_metadata. rewrite Hm. simpl. by rewrite Hl. }
  destruct (file_source_presents (mkShared (ext4_backend ext4) (ext4_size ext4) false) p data) as (s & E & Hat); [|done|done|].
  - split; simpl; [done| |].
    + intros off n got Hoff Hn Hle. rewrite Ha. destruct (Hr off n Hoff Hn) as (g & Hg & Hfront & Hgn & Hne). cbn beta in Hg. rewrite Hg.
      intros [= <-]. split.
      * split; [|done]. destruct g; [specialize (Hne eq_refl); lia|]. rewrite len_cons. pose proof (len_nonneg g). lia.
      * rewrite Hfront at 1. unfold sub_list. do 2 f_equal. unfold len. lia.
    + intros off n Hoff Hn. rewrite Ha. destruct (Hr off n Hoff Hn) as (g & Hg & _). cbn beta in Hg. by rewrite Hg.
  - exists s. split; [done|]. split; [exact Hat|]. unfold file_source_new in E. simpl in E. rewrite Hsz in E. injection E as <-.
    split; [done|]. intros off n e Hoff Hn. simpl. rewrite Ha. destruct (Hr off n Hoff Hn) as (g & Hg & _). cbn beta in Hg. by rewrite Hg.
Qed.
End files.

(** C25. A file of a FAT volume that LamBoot reads itself behaves as its bytes,
    although fatfs returns short reads at cluster boundaries: a full read
    returns the contents, or the error for a file over 512 MiB before
    anything is allocated; a read at an offset returns exactly that part of
    them; the loops end; and an ISO image in the file is a lawful byte source. *)
Theorem fat_ro_file_is_source (p data : list Z) (fs : FatVolume) (tag : list Z) (file : Z) :
  fat_file p data fs file -> len data <= u64_max ->
  reads_capped (fat_ro_backend fs) p data /\ presents (fat_ro_backend fs) (fat_ro_size fs tag) p data /\
  as_source p data (fat_ro_backend fs) (fat_ro_size fs tag).
Proof.
  intros Hf Hmax. destruct (fat_ro_presents p data fs tag file Hf Hmax) as [H1 H2].
  split; [done|]. split; [done|]. by apply presents_source.
Qed.

(** The same for the frontends of lamfold (their full read is the crate's). *)
Theorem lamfold_file_is_source (p data : list Z) (fs : Fold) (tag : list Z) (node : Z) :
  fold_file p data fs node -> len data <= u64_max ->
  presents (lamfold_backend fs tag) (lamfold_size fs tag) p data /\ as_source p data (lamfold_backend fs tag) (lamfold_size fs tag).
Proof. intros Hf Hmax. pose proof (lamfold_presents p data fs tag node Hf Hmax). split; [done|by apply presents_source]. Qed.

(** ** The search of the FAT reader *)
Definition info_of (e : FatEntry) : EntryInfo := mkEntryInfo (fat_kind e) (fe_len e) (fe_read_only e).

Lemma find_in_first (name : list Z) (es : list FatEntry) :
  find_in name (Ok <$> es) = Ok (info_of <$> List.find (fun e => eq_ignore_ascii_case (fe_name e) name) es).
Proof. induction es as [|e es IH]; [done|]. simpl. by destruct (eq_ignore_ascii_case _ _). Qed.

(** A path is looked up in the listing of its parent, without regard to ASCII
    case; no such entry and no such parent both mean that it does not exist. *)
Theorem find_entry_looks_up (fs : FatVolume) (ns : list (list Z)) (n : list Z) (es : list FatEntry) :
  Forall path_name ns -> path_name n ->
  (ns = [] -> ff_root fs = Ok <$> es) ->
  (ns <> [] -> ff_open_dir fs (path_render ns) = Ok (Ok <$> es) \/ (ff_open_dir fs (path_render ns) = Err FatNotFound /\ es = [])) ->
  find_entry fs (path_render (ns ++ [n])) = Ok (info_of <$> List.find (fun e => eq_ignore_ascii_case (fe_name e) n) es).
Proof.
  intros Hns Hn Hroot Hdir. destruct (path_snoc_parts ns n Hn) as [Hp Hf]. unfold find_entry. rewrite Hf, Hp. cbv zeta.
  destruct Hn as (Hne & _). destruct n as [|c n]; [done|]. cbn [is_empty].
  destruct ns as [|m ns].
  - rewrite bool_decide_eq_true_2 by done. rewrite Hroot by done. apply find_in_first.
  - rewrite bool_decide_eq_false_2.
    + destruct (Hdir ltac:(done)) as [->|[-> ->]]; [apply find_in_first|done].
    + intros E. change [c_slash] with (path_render []) in E. apply path_render_inj in E; [done|done|constructor].
Qed.

(** ** The byte source of the FAT reader *)
(** The adapter and the block source of the other readers are the same machine:
    same results, same cursor, errors under other names; so its reads have the
    laws proved of that source. *)
Theorem fat_adapter_agrees (s : BlockIoSource) (n : Z) (pos : SeekFrom) :
  fat_adapter_open (bios_io s) = from_block_io (bios_io s) /\
  map_err (fun _ => tt) (fat_adapter_read n s).1 = map_err (fun _ => tt) (bio_read n s).1 /\
  (fat_adapter_read n s).2 = (bio_read n s).2 /\
  map_err (fun _ => tt) (fat_adapter_seek pos s).1 = map_err (fun _ => tt) (bio_seek pos s).1 /\
  (fat_adapter_seek pos s).2 = (bio_seek pos s).2.
Proof.
  split; [done|]. unfold fat_adapter_read, bio_read, fat_adapter_seek, bio_seek, seek_signed, slice. cbv zeta.
  split; [|split; [|split]].
  1,2: destruct (n =? 0); [done|]; destruct (_ =? 0); [done|]; destruct (compute_aligned_read _ _ _) as [[[lba al] intra]|]; [|done];
    destruct (bio_read_blocks _ _ _); [|done]; by destruct (in_range _ _ _).
  1,2: destruct pos; [done|..]; (destruct (i64_max <? _); [done|]); (destruct (_ || _); [done|]); by destruct (_ <? 0).
Qed.

(** ** ZFS pools *)
Lemma components_render (ns : list (list Z)) : Forall path_name ns -> components (path_render ns) = ns.
Proof.
  intros H. unfold components. rewrite split_path_render by done.
  assert (List.filter (fun c => negb (is_empty c) && negb (bool_decide (c = [c_dot]))) ns = ns) as Hf.
  { induction H as [|n ns (H1 & H2 & _) _ IH]; [done|]. simpl. rewrite bool_decide_eq_false_2 by done.
    destruct n; [done|]. simpl. by rewrite IH. }
  destruct ns; [done|]. exact Hf.
Qed.

Definition readable_dataset (zfs : Zfs) (ds : list (list Z)) : bool :=
  match zf_read_dir zfs ds [] with Ok _ => true | _ => false end.

Definition dataset_opened (zfs : Zfs) (ds : list (list Z)) : Opened :=
  mkOpened (zfs_backend zfs ds) ZFS_BACKEND_TAG None (Some (dataset_label (zf_pool_name zfs) ds)).

Lemma open_datasets_all (zfs : Zfs) (l : list (list (list Z))) :
  (forall ds, zf_read_dir zfs ds [] <> Panic) -> open_datasets zfs l = Ok (dataset_opened zfs <$> List.filter (readable_dataset zfs) l).
Proof.
  intros Hp. induction l as [|ds l IH]; [done|]. simpl. unfold readable_dataset at 1.
  destruct (zf_read_dir zfs ds []) eqn:E; [|done|by exfalso; eapply Hp]. by rewrite IH.
Qed.

(** Importing a pool gives one volume per dataset that can be listed, in the
    pool's order, labelled with the dataset's path (the pool's name for the
    root), and the components of a path name the same entry that the path
    does; when the datasets cannot be enumerated the root dataset stands for
    them, and a pool without a readable dataset is an error. *)
Theorem zfs_mount_pool_correct {Src : Type} (import : list Src -> res ZfsError Zfs) (members : list Src) (zfs : Zfs)
    (datasets : list (list (list Z))) :
  import members = Ok zfs -> (forall ds, zf_read_dir zfs ds [] <> Panic) ->
  (zf_datasets zfs = Ok datasets \/ (exists e, zf_datasets zfs = Err e) /\ datasets = [[]]) ->
  zfs_mount_pool import members =
    (match List.filter (readable_dataset zfs) datasets with
     | [] => Err (FsUnsupported "zfs_no_readable_datasets")
     | l => Ok (dataset_opened zfs <$> l)
     end) /\
  (forall ds ns, Forall path_name ns ->
     fb_read_at (op_backend (dataset_opened zfs ds)) (path_render ns) =
     fun off n => map_err translate_zfs_error (zf_read_at zfs ds ns off n)).
Proof.
  intros Hi Hp Hd. split.
  - unfold zfs_mount_pool. rewrite Hi. cbn [map_err res_bind].
    assert ((match zf_datasets zfs with Ok ds => Ok ds | Err _ => Ok [[]] | Panic => Panic end : res FsError _) = Ok datasets) as ->.
    { by destruct Hd as [->|[[e ->] ->]]. }
    cbn [res_bind]. rewrite open_datasets_all by done. cbn [res_bind]. by destruct (List.filter _ datasets).
  - intros ds ns Hns. simpl. unfold zfs_read_at. by rewrite components_render.
Qed.

(** ** Errors *)
(** Only a failed checksum or a verifier's refusal is reported as an integrity
    failure, and these always are; the status is the one for security
    violations. *)
Theorem integrity_is_distinct (e : ZfsError) (f : FoldError) (what : string) :
  (translate_zfs_error e = FsIntegrityFailed what <-> e = ZfsChecksumMismatch what) /\
  (map_fold_err f = FsIntegrityFailed what <-> f = FoldVerifyFailed what) /\
  (to_uefi_status (translate_zfs_error e) = SECURITY_VIOLATION <-> exists w, e = ZfsChecksumMismatch w).
Proof.
  split; [destruct e; simpl; naive_solver|]. split; [destruct f; simpl; naive_solver|]. destruct e; simpl; naive_solver.
Qed.

(** The ext4 reader is the one that does not go through the read limit: what the
    crate returns is passed on, whatever its size. *)
Theorem ext4_read_unchecked (ext4 : Ext4) (path data : list Z) :
  e4_read ext4 path = Ok data -> ext4_read ext4 path = Ok data.
Proof. intros H. unfold ext4_read. by rewrite H. Qed.

(** In an ext4 directory one entry whose metadata cannot be read hides the others. *)
Theorem ext4_bad_entry_hides :
  let good := mkExt4Entry (Some (lit "vmlinuz")) (Ok (mkExt4Meta false true false 1 420)) in
  let bad := mkExt4Entry (Some (lit "bad")) (Err Ext4Corrupt) in
  ext4_list [Ok good; Ok bad] = Err (FsCorrupt "ext4 structural corruption").
Proof. by vm_compute. Qed.

(** ** The readers return *)
Section readers.
Context {Lv : Type} `{SourceLaws Lv} (ck : Crates Lv).

(** The crates do not panic, and a logical volume presents some bytes. *)
Record crates_return : Prop := {
  cx_ext4 : forall s, ck_ext4 ck s <> Panic;
  cx_btrfs : forall s, ck_btrfs ck s <> Panic;
  cx_xfs : forall s, ck_xfs ck s <> Panic;
  cx_lamfold : forall k s, ck_lamfold ck k s <> Panic;
  cx_exfat : forall s, ck_exfat ck s <> Panic;
  cx_fatfs : forall s, ck_fatfs ck s <> Panic;
  cx_zfs : forall ms, ck_zfs ck ms <> Panic;
  cx_pool : forall ms z, ck_zfs ck ms = Ok z -> zf_datasets z <> Panic /\ forall ds, zf_read_dir z ds [] <> Panic;
  cx_lvm2 : forall s, ck_lvm2 ck s <> Panic;
  cx_open_lv : forall s l name pv, ck_lvm2 ck s = Ok l -> lvm_open_lv_owned_by_name l name pv <> Panic;
  cx_lv : forall s l name pv lv, ck_lvm2 ck s = Ok l -> lvm_open_lv_owned_by_name l name pv = Ok (Some lv) -> exists data p, src_at lv data p;
  cx_lvs : forall lv, cl_ext4 ck lv <> Panic /\ cl_btrfs ck lv <> Panic /\ cl_xfs ck lv <> Panic /\ cl_fatfs ck lv <> Panic
}.

Lemma bind_returns {Er A B : Type} (r : res Er A) (f : A -> res Er B) :
  r <> Panic -> (forall a, r = Ok a -> f a <> Panic) -> (let? a := r in f a) <> Panic.
Proof. destruct r; simpl; [by eauto|done|done]. Qed.

Lemma map_err_returns {Er Fr A : Type} (g : Er -> Fr) (r : res Er A) : r <> Panic -> map_err g r <> Panic.
Proof. by destruct r. Qed.

Lemma ok_or_returns {Er A : Type} (o : option A) (e : Er) : ok_or o e <> Panic.
Proof. by destruct o. Qed.

Create HintDb returns.
#[local] Hint Resolve map_err_returns ok_or_returns : returns.

Lemma fat_ro_returns {A : Type} (new : A -> res FatError FatVolume) (a : A) (tag : list Z) :
  new a <> Panic -> fat_ro_from_adapter new a tag <> Panic.
Proof. intros Hn. apply bind_returns; [auto with returns|done]. Qed.

Lemma xfs_returns {A : Type} (open : A -> res XfsErr (InodeFs XfsErr * list Z * option (list Z))) (a : A) :
  open a <> Panic -> xfs_from_source open a <> Panic.
Proof. intros Hn. apply bind_returns; [auto with returns|]. by intros [[? ?] ?] _. Qed.

Lemma opened_lv_returns (Hc : crates_return) (pv : BlockIoSource) (name : list Z) : opened_lv_open (ck_lvm2 ck) (Ok pv) name <> Panic.
Proof.
  unfold opened_lv_open. cbn [res_bind]. pose proof (cx_lvm2 Hc pv).
  apply bind_returns; [auto with returns|]. intros l Hl%map_err_ok. pose proof (cx_open_lv Hc pv l name pv Hl).
  apply bind_returns; [auto with returns|]. intros o _. apply bind_returns; [auto with returns|done].
Qed.

Lemma opened_lv_presents (Hc : crates_return) (pv : BlockIoSource) (name : list Z) (lv : Lv) (vg : list Z) :
  opened_lv_open (ck_lvm2 ck) (Ok pv) name = Ok (lv, vg) -> exists data p, src_at lv data p.
Proof.
  unfold opened_lv_open. cbn [res_bind]. intros (l & Hl%map_err_ok & E)%res_bind_ok.
  apply res_bind_ok in E as (o & Ho%map_err_ok & E). apply res_bind_ok in E as (r & Hr & E). injection E as -> _.
  destruct o as [lv'|]; [|done]. injection Hr as ->. by eapply (cx_lv Hc).
Qed.

Lemma mount_pool_returns (Hc : crates_return) (ms : list BlockIoSource) : zfs_mount_pool (ck_zfs ck) ms <> Panic.
Proof.
  pose proof (cx_zfs Hc ms). apply bind_returns; [auto with returns|]. intros z Hz%map_err_ok. destruct (cx_pool Hc ms z Hz) as [Hds Hrd].
  apply bind_returns; [by destruct (zf_datasets z)|]. intros l _. rewrite open_datasets_all by done. cbn [res_bind].
  by destruct (_ <$> _).
Qed.

(** With crates that return, the loader's own readers return on every disk:
    on a firmware whose block devices answer with as many bytes as were asked
    for they meet what the mount phase needs of its readers, so its passes
    cannot be stopped by what a volume holds. *)
Theorem code_readers_return (fw : PartFw) :
  crates_return ->
  (forall h m, pw_exclusive fw h = Some m -> sized_io (md_io m) /\ (bio_block_size (md_io m) = 0 \/ exists data, device (md_io m) data)) ->
  (forall h m, pw_shared fw h = Some m -> sized_io (md_io m)) ->
  mount_env fw (code_readers ck).
Proof.
  intros Hc He Hs. split; simpl; [done|done| | | | | |].
  - intros s u k. pose proof (cx_ext4 Hc s). pose proof (cx_btrfs Hc s). pose proof (cx_exfat Hc s). pose proof (cx_lamfold Hc k s).
    split_and!; first [by apply xfs_returns, (cx_xfs Hc)|by apply bind_returns; [auto with returns|]].
  - intros io. unfold fat_adapter_open. destruct (_ =? 0); [done|]. cbn [res_bind]. by apply fat_ro_returns, (cx_fatfs Hc).
  - by apply mount_pool_returns.
  - intros s vg. destruct (cx_lvs Hc s) as (? & ? & ? & ?).
    split_and!; first [by apply xfs_returns|by apply fat_ro_returns|by apply bind_returns; [auto with returns|]].
  - by apply opened_lv_returns.
  - intros pv name lv vg. by apply opened_lv_presents.
Qed.
End readers.

(** ** Concrete volumes *)
(** A FAT volume whose reads stop at every second byte. *)
Definition demo_short (data : list Z) (pos n : Z) : list Z := take (Z.to_nat (Z.min n 2)) (drop (Z.to_nat pos) data).

Definition demo_fat : FatVolume := {|
  ff_volume_id := 0x1234ABCD;
  ff_volume_label := lit "BOOT";
  ff_root := [Ok (mkFatEntry (lit "VMLINUZ") false 5 true)];
  ff_open_dir _ := Err FatNotFound;
  ff_open_file p := if eq_ignore_ascii_case p (lit "/vmlinuz") then Ok 1 else Err FatNotFound;
  ff_seek _ pos := Ok match pos with SeekStart x => x | SeekEnd x => 5 + x | SeekCurrent x => x end;
  ff_read _ pos n := Ok (demo_short demo_kernel pos n)
|}.

Lemma demo_short_reads (data : list Z) : short_reads (fun pos n => Ok (demo_short data pos n)) data.
Proof.
  intros pos n Hp Hn. exists (demo_short data pos n). split; [done|]. unfold demo_short. split_and!.
  - rewrite length_take, <- take_take. symmetry. by rewrite (take_ge (drop _ _)) by lia.
  - unfold len. rewrite length_take. lia.
  - intros E. apply (f_equal length) in E. rewrite length_take, length_drop in E. unfold len. simpl in E. lia.
Qed.

Lemma fat_ro_file_is_source_witness :
  fat_ro_read demo_fat (lit "/vmlinuz") = Ok demo_kernel /\
  presents (fat_ro_backend demo_fat) (fat_ro_size demo_fat FAT_RO_BACKEND_TAG) (lit "/vmlinuz") demo_kernel.
Proof.
  destruct (fat_ro_file_is_source (lit "/vmlinuz") demo_kernel demo_fat FAT_RO_BACKEND_TAG 1) as (H1 & H2 & _).
  - split; [by vm_compute|done|done|exact (demo_short_reads demo_kernel)|]. eexists. split; vm_compute; reflexivity.
  - by vm_compute.
  - split; [exact H1|exact H2].
Defined.

(** A pool with a root dataset, a boot dataset and a zvol. *)
Definition demo_pool : Zfs := {|
  zf_pool_name := lit "bpool";
  zf_datasets := Ok [[]; [lit "BOOT"; lit "ubuntu"]; [lit "swap"]];
  zf_read_dir ds _ := if bool_decide (ds = [lit "swap"]) then Err ZfsNotADirectory else Ok [];
  zf_stat _ _ := Err ZfsNotFound;
  zf_read _ _ := Err ZfsNotFound;
  zf_read_at _ _ _ _ := Err ZfsNotFound;
  zf_exists _ _ := Ok false
|}.

Lemma zfs_mount_pool_correct_witness :
  option_map (map op_label) (res_ok (zfs_mount_pool (fun _ : list BlockIoSource => Ok demo_pool) [])) =
    Some [Some (lit "bpool"); Some (lit "BOOT/ubuntu")].
Proof.
  destruct (zfs_mount_pool_correct (fun _ : list BlockIoSource => Ok demo_pool) [] demo_pool
    [[]; [lit "BOOT"; lit "ubuntu"]; [lit "swap"]]) as [E _].
  - reflexivity.
  - intros ds. simpl. by destruct (bool_decide _).
  - left. reflexivity.
  - rewrite E. vm_compute. reflexivity.
Defined.

Definition demo_crates : Crates BlockIoSource := {|
  ck_ext4 _ := Err Ext4NotFound;
  ck_btrfs _ := Ok (demo_btrfs []);
  ck_xfs _ := Err XfsNotFound;
  ck_lamfold _ _ := Err FoldNotFound;
  ck_exfat _ := Err ExfatNotFound;
  ck_fatfs _ := Ok demo_fat;
  ck_peek_pool _ := None;
  ck_zfs _ := Ok demo_pool;
  ck_lvm2 _ := Err LvmWrongMagic;
  cl_ext4 _ := Err Ext4NotFound;
  cl_btrfs _ := Err LbNotFound;
  cl_xfs _ := Err XfsNotFound;
  cl_fatfs _ := Err FatNotFound
|}.

Lemma code_readers_return_witness :
  mount_env (demo_machine (replicate 512 0) demo_xfs_root false) (code_readers demo_crates).
Proof.
  apply code_readers_return.
  - split; try done. intros ms z [= <-]. split; [done|]. intros ds. simpl. by destruct (bool_decide _).
  - intros h m. simpl. intros Hm. destruct (h =? 2); [|destruct (h =? 3); [|done]]; injection Hm as <-; simpl;
      (split; [by apply list_io_sized|right]); eexists; apply list_io_device; done.
  - intros h m. simpl. intros Hm. destruct (h =? 2); [|destruct (h =? 3); [|done]]; injection Hm as <-; by apply list_io_sized.
Defined.
