(* ===== verification/Streams.v ===== *)
(** * The readers over a source, and streams (block_source.rs, fs_backend_fat.rs, fs_backend.rs, fs.rs)

    [SourceReader] satisfies the reader traits of six filesystem crates with one
    loop; a [FatStream] is an open file with the firmware's own position next to
    the one the stream keeps.  A stream is proved to refine a cursor over the
    bytes of the file, for every sequence of reads and seeks. *)
From S2P Require Import Prelude RustStr FsTypes SecureBoot SecurityOverride VolumeFs BlockSource FatFs Backends.
Local Open Scope Z_scope.

(** ** The reader traits of the crates *)
Section bridges.
Context `{BlockSource Src}.

(** The [Display] of the errors; [dbg] renders the error of the source. *)
Definition reader_error_text (dbg : string -> list Z) (e : SourceReaderError) : list Z :=
  lit "block-source read error: " ++
  match e with
  | SeekFailed m => lit "seek: " ++ dbg m
  | ReadFailed m => lit "read: " ++ dbg m
  | EofBeforeCompleted => lit "EOF before read completed"
  end.

(** [Box<dyn Error>]: the caller only sees the boxed reader error. *)
Record DynError : Type := Boxed { unboxed : SourceReaderError }.

Definition with_error {E : Type} (f : SourceReaderError -> E) (r : option (res SourceReaderError (list Z) * Src))
    : option (res E (list Z) * Src) :=
  (fun '(r, s) => (map_err f r, s)) <$> r.

Definition reader_byte_len (s : Src) : Z := bs_byte_len s.

Definition reader_ext4_read (start_byte size : Z) (s : Src) := with_error Boxed (fill_at start_byte size s).
Definition lambutter_read_at (offset_bytes size : Z) (s : Src) := with_error Boxed (fill_at offset_bytes size s).
Definition lamxfs_read_at (offset_bytes size : Z) (s : Src) := with_error Boxed (fill_at offset_bytes size s).
Definition lamexfat_read_at (offset_bytes size : Z) (s : Src) := with_error Boxed (fill_at offset_bytes size s).
Definition lamzfs_read_at (offset_bytes size : Z) (s : Src) := with_error Boxed (fill_at offset_bytes size s).
Definition lamfold_len (s : Src) : Z := reader_byte_len s.
Definition reader_lamfold_read_at (offset size : Z) (s : Src) := with_error (fun _ => FoldIo) (fill_at offset size s).
End bridges.

(** ** Streams of the FAT backend *)

(** What the File Protocol says of [SetPosition] (UEFI 2.10, 13.5.10): the position is the one asked for, but
    0xFFFFFFFFFFFFFFFF is the end of the file. *)
Class SfsCursor (St : Type) `{SfsLaws St} := {
  sfs_position_after : list Z -> Z -> St -> Z;
  position_plain : forall w x s, x <> u64_max -> sfs_position_after w x s = x;
  position_end : forall w s d, sfs_view s w = Some (NFile d) -> sfs_position_after w u64_max s = len d
}.

(** [st_cursor] is the position of the open file in the firmware. *)
Record FatStream : Type := mkStream {
  st_file : list Z;
  st_cursor : Z;
  st_len : option Z;
  st_position : Z
}.

Section streams.
Context {St : Type} `{SfsCursor St}.

#[local] Notation F := (fio St).

(** [get_info(..).map(file_size).ok()] *)
Definition file_size_ok (w : list Z) : F (option Z) := fun s =>
  (Ok match sfs_info w s with Ok (size, _) => Some size | _ => None end, s).

Definition fat_open_stream (path : list Z) : F FatStream :=
  _ ← open_root; w ← open_file_read path;
  n ← file_size_ok w;
  mret (mkStream w 0 n 0).

(** [self.position += got as u64] in a release build. *)
Definition stream_read (n : Z) (st : FatStream) : F (list Z * FatStream) :=
  got ← ask (sfs_read (st_file st) (st_cursor st) n);
  mret (got, mkStream (st_file st) (st_cursor st + len got) (st_len st) (wrapping_add 64 (st_position st) (len got))).

Definition stream_seek (offset : Z) (st : FatStream) : F FatStream :=
  _ ← ask (sfs_seek (st_file st) offset);
  ((fun s => (Ok (mkStream (st_file st) (sfs_position_after (st_file st) offset s) (st_len st) offset), s)) : F FatStream).

(** ** The streams of a volume *)

(** [FsBackend::supports_streaming] and [open_stream]: the FAT backend has them, the others keep the defaults. *)
Definition vol_supports_streaming (v : Vol St) : bool :=
  match v with FatVol _ _ => true | RoVol _ => false end.

Definition default_open_stream : res FsError FatStream := Err (FsUnsupported "open_stream").

Definition vol_open_stream (path : list Z) (v : Vol St) : res FsError FatStream * Vol St :=
  match v with
  | FatVol fv label => let '(r, s) := fat_open_stream path (fv_st fv) in (r, FatVol (mkFat s (fv_cache fv)) label)
  | RoVol _ => (default_open_stream, v)
  end.
End streams.

(** ** The identity of a FAT volume *)

(** [FatBackend]: the protocol is opened on first use. *)
Record FatBackend : Type := mkFatBackend {
  fbk_handle : Z;
  fbk_uuid : option (list Z);
  fbk_label : option (list Z);
  fbk_sfs_open : bool
}.

Section identity.
Context {St : Type} `{Sfs St} (volume_label : St -> res Status (list Z)).

(** [label] is read with [get_info::<FileSystemVolumeLabel>]. *)
Definition probe_identity (s : St) : option (option (list Z) * option (list Z)) :=
  match sfs_ready s with
  | Ok _ =>
      match sfs_root s with
      | Ok _ =>
          match volume_label s with
          | Ok label => Some (None, if is_empty label then None else Some label)
          | _ => None
          end
      | _ => None
      end
  | _ => None
  end.

Definition fat_new (handle : Z) (s : St) : res FsError FatBackend :=
  let '(uuid, label) := default (None, None) (probe_identity s) in
  Ok (mkFatBackend handle uuid label false).
End identity.

(** [sfs_mut]: [answer] is what [open_protocol_exclusive] would give now; the last
    component tells whether the firmware was asked. *)
Definition sfs_mut (answer : res Status unit) (b : FatBackend) : res FsError unit * FatBackend * bool :=
  if fbk_sfs_open b then (Ok tt, b, false)
  else
    match of_status answer with
    | Ok _ => (Ok tt, mkFatBackend (fbk_handle b) (fbk_uuid b) (fbk_label b) true, true)
    | r => (r, b, true)
    end.

(** The results of a sequence of calls, and how many opens the firmware granted. *)
Fixpoint sfs_calls (answers : list (res Status unit)) (b : FatBackend) : list (res FsError unit) * nat :=
  match answers with
  | [] => ([], O)
  | answer :: rest =>
      let '(r, b', asked) := sfs_mut answer b in
      let '(rs, n) := sfs_calls rest b' in
      (r :: rs, ((if (asked : bool) then match r with Ok _ => 1 | _ => 0 end else 0) + n)%nat)
  end.

(** ** A backend that is owned or shared *)

(** With the size [metadata] gives, for the file sources over a shared one. *)
Inductive BackendOwn : Type :=
  | Owned (b : FsBackend) (size : list Z -> res FsError Z)
  | Shared (rc : SharedBackend).

(** [rc.borrow_mut()] panics when the cell is borrowed. *)
Definition backend_mut {A : Type} (f : FsBackend -> res FsError A) (o : BackendOwn) : res FsError A :=
  match o with
  | Owned b _ => f b
  | Shared rc => if sb_borrowed rc then Panic else f (sb_backend rc)
  end.

Definition share_backend (o : BackendOwn) : SharedBackend * BackendOwn :=
  match o with
  | Owned b size => let rc := mkShared b size false in (rc, Shared rc)
  | Shared rc => (rc, o)
  end.

(** [Volume::fat_sfs_mut], what the writer of the volume writes through; [own] is the backend's. *)
Definition fat_sfs_mut {A : Type} (own : option A) (o : BackendOwn) : option A :=
  match o with Owned _ _ => own | Shared _ => None end.

(** ** The bridges *)
Section bridges_ok.
Context `{SourceLaws Src}.

(** Bytes of the range, or an error of the crate's type that only a range past the end or a device that
    failed causes. *)
Definition reads_range {E : Type} (r : option (res E (list Z) * Src)) (s : Src) (data : list Z) (off size : Z) : Prop :=
  exists x s' p, r = Some (x, s') /\ src_at s' data p /\
    match x with
    | Ok bytes => bytes = sub_list off (off + size) data /\ off + size <= len data
    | Err _ => len data < off + size \/ ~ src_good s
    | Panic => False
    end.

Lemma with_error_reads {E : Type} (f : SourceReaderError -> E) (s : Src) (data : list Z) (p off size : Z) :
  src_at s data p -> 0 <= off <= u64_max -> 0 <= size <= isize_max -> off + size <= len data \/ 0 < size ->
  reads_range (with_error f (fill_at off size s)) s data off size.
Proof.
  intros Hat Ho Hz Hin. unfold reads_range. destruct (Z.eq_dec size 0) as [->|Hn].
  - exists (Ok []), s, p. split; [done|]. split; [done|]. split; [|lia].
    unfold sub_list. by replace (off + 0 - off) with 0 by lia.
  - destruct (fill_at_ok s data p off size Hat Ho ltac:(lia)) as (r & s' & p' & -> & Hp & Hr).
    exists (map_err f r), s', p'. split; [done|]. split; [done|].
    destruct r as [bytes|[e|e|]|]; simpl in *; auto; done.
Qed.

(** Every crate reads the same volume: over a lawful source each of the six
    readers returns the bytes of the range it is asked for, or an error that
    means the range ends past the source or the device failed, leaves the source
    ready for the next read, and is told the length of these bytes. *)
Theorem readers_agree (s : Src) (data : list Z) (p off size : Z) :
  src_at s data p -> 0 <= off <= u64_max -> 0 <= size <= isize_max -> off + size <= len data \/ 0 < size ->
  reads_range (reader_ext4_read off size s) s data off size /\
  reads_range (lambutter_read_at off size s) s data off size /\
  reads_range (lamxfs_read_at off size s) s data off size /\
  reads_range (lamexfat_read_at off size s) s data off size /\
  reads_range (lamzfs_read_at off size s) s data off size /\
  reads_range (reader_lamfold_read_at off size s) s data off size /\
  lamfold_len s = len data.
Proof.
  intros Hat Ho Hz Hin. split_and!; try by apply with_error_reads with (p := p).
  apply (src_len _ _ _ Hat).
Qed.
End bridges_ok.

(** An empty read does not look at the source: it succeeds past its end. *)
Theorem empty_read_anywhere `{BlockSource Src} (off : Z) (s : Src) : reader_ext4_read off 0 s = Some (Ok [], s).
Proof. reflexivity. Qed.

(** ** Streams refine a cursor over the bytes of the file *)
Inductive stream_op : Type := SRead (n : Z) | SSeek (offset : Z).

(** The reference: what a sequence of operations returns, and where it ends. *)
Fixpoint cursor_run (d : list Z) (pos : Z) (ops : list stream_op) : list (list Z) * Z :=
  match ops with
  | [] => ([], pos)
  | SRead n :: rest =>
      let got := take (Z.to_nat n) (drop (Z.to_nat pos) d) in
      let '(outs, e) := cursor_run d (pos + len got) rest in (got :: outs, e)
  | SSeek x :: rest => cursor_run d (if x =? u64_max then len d else x) rest
  end.

Section streams_ok.
Context {St : Type} `{SfsCursor St}.

Fixpoint stream_run (ops : list stream_op) (st : FatStream) : fio St (list (list Z) * FatStream) :=
  match ops with
  | [] => mret ([], st)
  | SRead n :: rest =>
      '(got, st') ← stream_read n st;
      '(outs, st'') ← stream_run rest st';
      mret (got :: outs, st'')
  | SSeek x :: rest => st' ← stream_seek x st; stream_run rest st'
  end.

(** The stream knows the position of its file, unless it asked for the end by its code. *)
Definition in_step (d : list Z) (st : FatStream) : Prop :=
  st_position st = st_cursor st \/ st_position st = u64_max /\ st_cursor st = len d.

Definition op_ok (op : stream_op) : Prop :=
  match op with SRead n => 0 <= n | SSeek x => 0 <= x <= u64_max end.

Lemma read_in_step (d : list Z) (st : FatStream) (n : Z) :
  let got := take (Z.to_nat n) (drop (Z.to_nat (st_cursor st)) d) in
  len d <= u64_max -> 0 <= st_cursor st <= u64_max -> in_step d st ->
  0 <= st_cursor st + len got <= u64_max /\
  in_step d (mkStream (st_file st) (st_cursor st + len got) (st_len st) (wrapping_add 64 (st_position st) (len got))).
Proof.
  intros got Hd Hc Hs.
  assert (0 <= len got /\ (len got = 0 \/ st_cursor st + len got <= len d)) as [Hn Hg].
  { split; [apply len_nonneg|]. unfold got, len in *. rewrite length_take, length_drop. lia. }
  split; [lia|]. unfold in_step. simpl. unfold wrapping_add, wrap.
  destruct Hs as [->|[-> E]].
  - left. apply Z.mod_small. unfold u64_max in *. lia.
  - assert (len got = 0) as -> by lia. right. rewrite !Z.add_0_r. split; [reflexivity|done].
Qed.

(** A run of the stream over a tree that shows the file. *)
Lemma stream_run_ok (v : list Z -> option node) (d : list Z) (ops : list stream_op) (st : FatStream) :
  v (st_file st) = Some (NFile d) -> len d <= u64_max -> Forall op_ok ops ->
  0 <= st_cursor st <= u64_max -> in_step d st ->
  ftriple (looks v) (stream_run ops st)
    (fun '(outs, st') s => looks v s /\ (outs, st_cursor st') = cursor_run d (st_cursor st) ops /\ in_step d st')
    (looks v).
Proof.
  intros Hv Hd Hops. revert st Hv. induction Hops as [|op ops Hop Hops IH]; intros st Hv Hc Hs; simpl.
  - apply ft_ret. intros s Hl. by split_and!.
  - destruct op as [n|x]; simpl in Hop.
    + unfold stream_read. eapply ft_bind with (Q := fun '(got, st') s => looks v s /\
        got = take (Z.to_nat n) (drop (Z.to_nat (st_cursor st)) d) /\
        st' = mkStream (st_file st) (st_cursor st + len got) (st_len st) (wrapping_add 64 (st_position st) (len got))).
      * eapply ft_bind; [by apply ft_ask|]. intros got s [Hl Hr]. split; [done|]. split; [|done].
        apply (read_view _ _ _ _ _ _ Hr). by rewrite Hl.
      * intros [got st'] s (Hl & -> & ->). pose proof (read_in_step d st n Hd Hc Hs) as [Hc' Hs'].
        cbv zeta. destruct (cursor_run d _ ops) as [outs e] eqn:Er.
        refine (ft_bind (looks v) _ _ _ _ _ (IH (mkStream (st_file st) _ _ _) Hv Hc' Hs') _ s Hl).
        intros [outs' st'']. apply ft_ret. intros s' (? & E & ?). simpl in E. rewrite Er in E. by simplify_eq.
    + unfold stream_seek. eapply ft_bind with (Q := fun st' s => looks v s /\
        st' = mkStream (st_file st) (if x =? u64_max then len d else x) (st_len st) x).
      * eapply ft_bind; [by apply ft_ask|]. intros u s [Hl _]. simpl. split; [done|]. f_equal.
        destruct (Z.eqb_spec x u64_max) as [->|Hx]; [apply position_end; by rewrite Hl|by apply position_plain].
      * intros st' s [Hl ->]. refine (IH (mkStream (st_file st) _ _ _) Hv _ _ s Hl); simpl; pose proof (len_nonneg d).
        -- destruct (_ =? _); lia.
        -- unfold in_step. simpl. destruct (Z.eqb_spec x u64_max); auto.
Qed.

Lemma ft_open_stream (v : list Z -> option node) (path : list Z) :
  ftriple (looks v) (fat_open_stream path)
    (fun st s => looks v s /\ wide_of path = Some (st_file st) /\ st_cursor st = 0 /\ st_position st = 0 /\
       exists d, v (st_file st) = Some (NFile d) /\ (st_len st = None \/ st_len st = Some (len d)))
    (looks v).
Proof.
  unfold fat_open_stream, open_root. eapply ft_bind with (Q := fun _ => looks v).
  { eapply ft_bind; [by apply ft_ask|]. intros u s [Hl _]. unfold ask, of_status. by destruct (sfs_root s). }
  intros _. eapply ft_bind; [apply ft_open_file_read|]. intros w s (Hl & Hw & d & Hd). simpl.
  split; [done|]. split; [done|]. split; [done|]. split; [done|]. exists d. split; [done|].
  destruct (sfs_info w s) as [[size ro]| |] eqn:Ei; auto. right. f_equal. apply (info_view _ _ _ _ _ Ei). by rewrite Hl.
Qed.

(** A stream that opens stands for one regular file: its length is the file's, when
    the firmware tells it, and as long as the operations succeed and the volume is
    not written, every sequence of reads and seeks returns what a cursor over the
    bytes of that file returns, and the position the stream keeps is the
    firmware's (after a seek to 2^64 - 1, the end of the file is its code). *)
Theorem stream_refines_cursor (path : list Z) (ops : list stream_op) (s : St) :
  Forall op_ok ops ->
  match fat_open_stream path s with
  | (Ok st, s1) =>
      exists d, node_at s path = Some (NFile d) /\ (st_len st = None \/ st_len st = Some (len d)) /\
        (len d <= u64_max ->
         match stream_run ops st s1 with
         | (Ok (outs, st'), s2) => (outs, st_cursor st') = cursor_run d 0 ops /\ in_step d st' /\ looks (sfs_view s) s2
         | (_, s2) => looks (sfs_view s) s2
         end)
  | (_, s1) => looks (sfs_view s) s1
  end.
Proof.
  intros Hops. pose proof (ft_open_stream (sfs_view s) path s ltac:(done)) as Ho.
  destruct (fat_open_stream path s) as [[st| |] s1]; [|done..].
  destruct Ho as (Hl & Hw & Hc & Hp & d & Hd & Hn). exists d. unfold node_at. rewrite Hw. split; [done|]. split; [done|].
  intros Hmax. pose proof (stream_run_ok (sfs_view s) d ops st Hd Hmax Hops ltac:(rewrite Hc; unfold u64_max; lia)
    ltac:(left; congruence) s1 Hl) as Hr.
  destruct (stream_run ops st s1) as [[[outs st']| |] s2]; [|done..]. rewrite Hc in Hr. naive_solver.
Qed.

(** A stream is refused as unsupported exactly by the volumes that do not announce streams. *)
Theorem streaming_announced (path : list Z) (v : Vol St) :
  if vol_supports_streaming v then forall m, (vol_open_stream path v).1 <> Err (FsUnsupported m)
  else vol_open_stream path v = (Err (FsUnsupported "open_stream"), v).
Proof.
  destruct v as [fv label|v]; simpl; [|done]. intros m.
  unfold fat_open_stream, open_root, open_file_read, into_regular, to_uefi_path, file_size_ok, ask, of_status, fthrow, mret, fio_ret, mbind, fio_bind.
  repeat (case_match; simplify_eq/=; try done); unfold map_err in *; repeat (case_match; simplify_eq/=; try done).
Qed.
End streams_ok.

(** ** The identity *)
Section identity_ok.
Context {St : Type} `{Sfs St} (volume_label : St -> res Status (list Z)).

(** [FatBackend::new] never fails; a FAT volume never has an identifier (its serial
    is not read), and its label is the firmware's, or none when it is empty or a
    call fails. *)
Theorem fat_new_identity (handle : Z) (s : St) :
  exists label, fat_new volume_label handle s = Ok (mkFatBackend handle None label false) /\
    label <> Some [] /\
    (forall l, l <> [] -> label = Some l <-> sfs_ready s = Ok tt /\ sfs_root s = Ok tt /\ volume_label s = Ok l).
Proof.
  unfold fat_new, probe_identity.
  destruct (sfs_ready s) as [[]| |], (sfs_root s) as [[]| |], (volume_label s) as [[|c l]| |];
    eexists; (split; [reflexivity|]); split; try done; intros l' Hl'; naive_solver.
Qed.
End identity_ok.

(** A backend never holds more than one open of the protocol: over any sequence of
    reads and writes the firmware grants at most one, and from the first that
    succeeds every call succeeds whatever the firmware would answer. *)
Theorem one_sfs_open (answers : list (res Status unit)) (b : FatBackend) :
  ((sfs_calls answers b).2 <= if fbk_sfs_open b then 0 else 1)%nat /\
  (fbk_sfs_open b = true -> Forall (fun r => r = Ok tt) (sfs_calls answers b).1) /\
  (fbk_sfs_open b = false -> forall pre post,
     answers = pre ++ Ok tt :: post -> Forall (fun a => a <> Ok tt) pre ->
     (sfs_calls answers b).2 = 1%nat /\ drop (length pre) (sfs_calls answers b).1 = replicate (S (length post)) (Ok tt)).
Proof.
  assert (forall l b', fbk_sfs_open b' = true -> sfs_calls l b' = (replicate (length l) (Ok tt), 0%nat)) as Hopen.
  { induction l as [|a l IH]; intros b' Hb; [done|]. cbn [sfs_calls]. unfold sfs_mut. rewrite Hb, IH by done. done. }
  split; [|split].
  - revert b. induction answers as [|a l IH]; intros b; [by destruct (fbk_sfs_open b); simpl; lia|].
    destruct (fbk_sfs_open b) eqn:Hb; [rewrite Hopen by done; done|]. cbn [sfs_calls]. unfold sfs_mut. rewrite Hb.
    destruct a as [[]| |]; simpl.
    + rewrite Hopen by done. simpl. lia.
    + specialize (IH b). rewrite Hb in IH. destruct (sfs_calls l b). simpl in *. lia.
    + specialize (IH b). rewrite Hb in IH. destruct (sfs_calls l b). simpl in *. lia.
  - intros Hb. rewrite Hopen by done. simpl. by apply Forall_replicate.
  - intros Hb pre post -> Hpre. induction Hpre as [|a pre Ha _ IH]; cbn [app sfs_calls length drop]; unfold sfs_mut; rewrite Hb.
    + simpl. by rewrite Hopen by done.
    + destruct a as [[]| |]; [done|..]; simpl; destruct (sfs_calls (pre ++ Ok tt :: post) b); simpl in *; exact IH.
Qed.

(** ** Sharing *)

(** Sharing a backend changes nothing for the volume's reads and is done once; from
    then on a file source over it reads with the volume's own reads and the volume
    has no write target. *)
Theorem share_backend_keeps_reads (o : BackendOwn) (path : list Z) :
  let '(rc, o') := share_backend o in
  (forall A (f : FsBackend -> res FsError A), backend_mut f o' = backend_mut f o) /\
  share_backend o' = (rc, o') /\
  (forall A (own : option A), fat_sfs_mut own o' = None) /\
  (sb_borrowed rc = false ->
   forall s n off, file_source_new rc path = Ok s -> 0 < n -> 0 <= off < fbs_len s ->
   (file_read n (file_at s off)).1 =
     match backend_mut (fun b => fb_read_at b path off (Z.min n (fbs_len s - off))) o with
     | Ok got => Ok (take (Z.to_nat (Z.min (len got) n)) got)
     | Err _ => Err "holding read_at failed"%string
     | Panic => Panic
     end).
Proof.
  destruct o as [b size|rc]; simpl; (split; [done|]); (split; [done|]); (split; [done|]);
    intros Hb s n off Hs Hn Ho; unfold file_source_new in Hs; rewrite ?Hb in Hs; simpl in Hs;
    apply res_bind_ok in Hs as (sz & _ & [= <-]); unfold file_read; simpl in *;
    rewrite (proj2 (Z.eqb_neq n 0)), (proj2 (Z.eqb_neq _ 0)), ?Hb, Z.max_r by lia;
    by destruct (fb_read_at _ _ _ _).
Qed.

(** ** A stream over the simulated volume *)
#[export] Instance sim_cursor : SfsCursor SimFat.
Proof.
  refine (Build_SfsCursor SimFat _ _
    (fun w x s => if x =? u64_max then match sim_look s w with Some (NFile d) => len d | _ => 0 end else x) _ _).
  - intros w x s Hx. by apply Z.eqb_neq in Hx as ->.
  - intros w s d Hv. rewrite Z.eqb_refl. simpl in Hv. by rewrite Hv.
Defined.

#[local] Notation demo_vol := (sim_of [(lit "/boot/vmlinuz", lit "0123456789")] no_refusal).

Lemma stream_refines_cursor_witness :
  exists st s1 st' s2,
    fat_open_stream (lit "/boot/vmlinuz") demo_vol = (Ok st, s1) /\ st_len st = Some 10 /\
    stream_run [SRead 4; SSeek 8; SRead 4; SRead 4] st s1 = (Ok ([lit "0123"; lit "89"; []], st'), s2) /\
    st_position st' = 10.
Proof.
  assert (Forall op_ok [SRead 4; SSeek 8; SRead 4; SRead 4]) as Hops
    by (repeat constructor; simpl; unfold u64_max; lia).
  pose proof (stream_refines_cursor (lit "/boot/vmlinuz") [SRead 4; SSeek 8; SRead 4; SRead 4] demo_vol Hops) as T.
  assert (exists st s1, fat_open_stream (lit "/boot/vmlinuz") demo_vol = (Ok st, s1) /\ st_len st = Some 10) as (st & s1 & E & Hl)
    by (do 2 eexists; split; vm_compute; reflexivity).
  rewrite E in T. destruct T as (d & Hd & _ & T). vm_compute in E. injection E as <- <-.
  do 4 eexists. split; [vm_compute; reflexivity|]. split; [reflexivity|]. split; vm_compute; reflexivity.
Defined.

(** After a seek to the code of the end of the file the stream's position and the
    firmware's differ, and it is the firmware's that is read from. *)
Theorem end_code_out_of_step :
  match fat_open_stream (lit "/boot/vmlinuz") demo_vol with
  | (Ok st, s) =>
      match stream_seek u64_max st s with
      | (Ok st', s') => st_position st' = u64_max /\ st_cursor st' = 10 /\ (stream_run [SRead 4] st' s').1 = Ok ([[]], st')
      | _ => False
      end
  | _ => False
  end.
Proof. vm_compute. by split_and!. Qed.
