(* ===== verification/Report.v ===== *)
(** * Reports and diagnostics on the ESP (report.rs, telemetry.rs, bootlog.rs, diag.rs)

    The boot report, the audit log, the boot log and the breadcrumbs, written
    through the [EspWriter] of FatFs.v; and the timing the report carries.  A
    reader of JSON is the specification of the report. *)
From S2P Require Import Prelude Compare RustStr VersionOrder BlsParse FsTypes BootTypes TrustLog SecureBoot SecurityOverride VolumeFs Nvram Health FatFs.
Local Open Scope Z_scope.

(** ** Text *)
Definition json_escape_char (c : Z) : list Z :=
  if c =? c_backslash then [c_backslash; c_backslash]
  else if c =? c_quote then [c_backslash; c_quote]
  else if c =? c_lf then [c_backslash; 110]
  else if c =? c_cr then [c_backslash; 114]
  else if c =? c_tab then [c_backslash; 116]
  else if c =? 8 then [c_backslash; 98]
  else if c =? 12 then [c_backslash; 102]
  else if c <? 32 then [c_backslash; 117] ++ fmt_hex_lower 4 c
  else [c].

Definition json_escape (s : str) : list Z := flat_map json_escape_char s.

Definition pad2 (n : Z) : list Z := pad_zero 2 (fmt_dec n).

Definition get_timestamp (unknown : string) (time : option efi_time) : list Z :=
  match time with
  | Some t =>
      pad_zero 4 (fmt_dec (t_year t)) ++ [c_dash] ++ pad2 (t_month t) ++ [c_dash] ++ pad2 (t_day t) ++ lit "T"
      ++ pad2 (t_hour t) ++ [c_colon] ++ pad2 (t_minute t) ++ [c_colon] ++ pad2 (t_second t)
  | None => lit unknown
  end.

(** ** Telemetry *)

(** [get_time]: the time and its nanoseconds. *)
Definition timestamp_ms (now : option (efi_time * Z)) : Z :=
  match now with
  | Some (t, ns) => t_hour t * 3600000 + t_minute t * 60000 + t_second t * 1000 + ns / 1000000
  | None => 0
  end.

Record BootTelemetry : Type := mkTelemetry { te_phases : list (list Z * Z); te_boot_start : Z }.

Definition telemetry_new (now : option (efi_time * Z)) : BootTelemetry := mkTelemetry [] (timestamp_ms now).

Definition telemetry_record (name : list Z) (start_ms : Z) (now : option (efi_time * Z)) (t : BootTelemetry) : BootTelemetry :=
  mkTelemetry (te_phases t ++ [(name, wrap 32 (timestamp_ms now - start_ms))]) (te_boot_start t).

Definition total_ms (now : option (efi_time * Z)) (t : BootTelemetry) : Z := wrap 32 (timestamp_ms now - te_boot_start t).

Definition timing_part (p : list Z * Z) : list Z := [c_quote] ++ p.1 ++ [c_quote; c_colon] ++ fmt_dec p.2.

Definition telemetry_json (now : option (efi_time * Z)) (t : BootTelemetry) : list Z :=
  [c_lbrace] ++ join_with [c_comma] ((timing_part <$> te_phases t) ++ [timing_part (lit "total", total_ms now t)]) ++ [c_rbrace].

Definition TELEMETRY_VAR : var_key := (LAMBOOT_VENDOR, lit "LamBootTelemetry").

Definition encode_phase (p : list Z * Z) : list Z :=
  let name_len := Z.min (len (str_bytes p.1)) 31 in
  [name_len] ++ take (Z.to_nat name_len) (str_bytes p.1) ++ to_le 4 p.2.

Definition telemetry_bytes (now : option (efi_time * Z)) (t : BootTelemetry) : list Z :=
  let count := Z.min (len (te_phases t)) 255 in
  [count] ++ flat_map encode_phase (take (Z.to_nat count) (te_phases t)) ++ to_le 4 (total_ms now t).

Definition store_variable {NV : Type} `{NvStore NV} (now : option (efi_time * Z)) (t : BootTelemetry) (nv : NV) : NV :=
  set_ignoring TELEMETRY_VAR (telemetry_bytes now t) nv.

(** ** The boot report *)
Definition REPORTS_DIR : list Z := lit "/EFI/LamBoot/reports".
Definition BOOT_REPORT : list Z := lit "/EFI/LamBoot/reports/boot.json".
Definition AUDIT_LOG : list Z := lit "/EFI/LamBoot/reports/audit.log".

Record BootContext : Type := mkCtx {
  cx_version : list Z;
  cx_build_target : list Z;
  cx_manufacturer : option (list Z);
  cx_product_name : option (list Z);
  cx_fleet_id : option (list Z);
  cx_os_name : option (list Z);
  cx_hypervisor : option (list Z);
  cx_intel_vt_d : bool;
  cx_amd_vi : bool;
  cx_drhd_units : nat;
  cx_vmid : option (list Z);
  cx_role : option (list Z);
  cx_host_node : option (list Z);
  cx_telemetry_json : list Z;
  cx_report_sb : ReportSbState;
  cx_native_pe_never : bool
}.

Definition is_chainload (k : EntryKind) : bool := match k with Chainload _ => true | _ => false end.

Definition kind_name (k : EntryKind) : list Z :=
  match k with
  | Chainload _ => lit "chainload"
  | Uki _ _ => lit "uki"
  | LinuxLegacy _ _ _ => lit "linux_legacy"
  | Iso _ => lit "iso"
  end.

Definition kind_path (k : EntryKind) : list Z :=
  match k with
  | Chainload path | Uki path _ => path
  | LinuxLegacy kernel_path _ _ => kernel_path
  | Iso (IsoFile iso_path) => iso_path
  | Iso (IsoOptical _ label) => label
  end.

Definition iommu_type (cx : BootContext) : list Z :=
  if cx_intel_vt_d cx then lit "Intel VT-d" else if cx_amd_vi cx then lit "AMD-Vi" else [].

Definition report_via (e : BootEntry) (cx : BootContext) : list Z :=
  if is_chainload (be_kind e) then [] else report_verified_via (cx_report_sb cx).

(** A line of the report: a member whose value is a string. *)
Definition report_line (key : string) (val : list Z) : list Z :=
  lit "  " ++ [c_quote] ++ lit key ++ [c_quote; c_colon; c_space; c_quote] ++ json_escape val ++ [c_quote; c_comma; c_lf].

Definition boot_json (time : option efi_time) (e : BootEntry) (cx : BootContext) : list Z :=
  [c_lbrace; c_lf]
  ++ report_line "lamboot_version" (cx_version cx)
  ++ report_line "lamboot_arch" (cx_build_target cx)
  ++ report_line "timestamp" (get_timestamp "unknown" time)
  ++ report_line "entry_id" (be_id e)
  ++ report_line "entry_name" (be_name e)
  ++ lit "  " ++ [c_quote] ++ lit "entry_type" ++ [c_quote; c_colon; c_space; c_quote] ++ kind_name (be_kind e)
     ++ [c_quote; c_comma; c_lf]
  ++ report_line "path" (kind_path (be_kind e))
  ++ report_line "verified_via" (report_via e cx)
  ++ report_line "loader" (report_loader (cx_native_pe_never cx) (is_chainload (be_kind e)))
  ++ report_line "system_manufacturer" (default [] (cx_manufacturer cx))
  ++ report_line "system_product" (default [] (cx_product_name cx))
  ++ report_line "fleet_id" (default [] (cx_fleet_id cx))
  ++ report_line "vmid" (default [] (cx_vmid cx))
  ++ report_line "role" (default [] (cx_role cx))
  ++ report_line "host_node" (default [] (cx_host_node cx))
  ++ report_line "os_name" (default [] (cx_os_name cx))
  ++ report_line "hypervisor" (default [] (cx_hypervisor cx))
  ++ report_line "iommu" (iommu_type cx)
  ++ lit "  " ++ [c_quote] ++ lit "iommu_units" ++ [c_quote; c_colon; c_space] ++ fmt_dec (Z.of_nat (cx_drhd_units cx)) ++ [c_comma; c_lf]
  ++ lit "  " ++ [c_quote] ++ lit "boot_timing_ms" ++ [c_quote; c_colon; c_space] ++ cx_telemetry_json cx ++ [c_lf]
  ++ [c_rbrace; c_lf].

(** ** Writing it *)
Section write.
Context {St : Type} `{Sfs St}.

(** [?] of an operation of the writer, which is [None] off FAT. *)
Definition writer_result (r : option (res FsError unit)) : res Status unit :=
  match r with
  | Some r => map_err to_uefi_status r
  | None => Err UNSUPPORTED
  end.

Definition append_audit_log (message : list Z) (esp : Vol St) : res Status unit * Vol St :=
  let '(r, esp) := with_writer (esp_true_append AUDIT_LOG (str_bytes message)) esp in
  (writer_result r, esp).

(** [now] and [now'] are the clock at the report and at the audit line. *)
Definition write_boot_report (now now' : option efi_time) (e : BootEntry) (cx : BootContext) (esp : Vol St)
    : res Status unit * Vol St :=
  let '(r, esp) := with_writer (esp_ensure_dir REPORTS_DIR) esp in
  match r with
  | None => (Err UNSUPPORTED, esp)
  | Some _ =>
      let '(r, esp) := with_writer (esp_write BOOT_REPORT (str_bytes (boot_json now e cx))) esp in
      match writer_result r with
      | Ok _ =>
          append_audit_log ([c_lbracket] ++ get_timestamp "unknown" now' ++ lit "] Boot: " ++ be_name e ++ lit " ("
                            ++ be_id e ++ [c_rparen; c_lf]) esp
      | r => (r, esp)
      end
  end.
End write.

(** ** A reader of JSON *)
Inductive json : Type := JsNum (n : Z) | JsStr (s : list Z) | JsObj (fields : list (list Z * json)).

Definition is_json_ws (c : Z) : bool := (c =? c_space) || (c =? c_lf) || (c =? c_cr) || (c =? c_tab).
Definition skip_ws (s : list Z) : list Z := drop_while is_json_ws s.

(** A value (white space before it is skipped), and the members of an object
    after its opening brace; each level of nesting and each member uses one unit
    of fuel. *)
Fixpoint read_json (fuel : nat) (s : list Z) : option (json * list Z) :=
  match fuel, skip_ws s with
  | S f, c :: s1 =>
      if c =? c_quote then match read_string s1 with Some (v, r) => Some (JsStr v, r) | None => None end
      else if c =? c_lbrace then
        match read_members f s1 with Some (fs, r) => Some (JsObj fs, r) | None => None end
      else
        let ds := take_while is_ascii_digit (c :: s1) in
        match ds, parse_digits 0 ds with
        | _ :: _, Some n => Some (JsNum n, drop_while is_ascii_digit (c :: s1))
        | _, _ => None
        end
  | _, _ => None
  end
with read_members (fuel : nat) (s : list Z) : option (list (list Z * json) * list Z) :=
  match fuel, skip_ws s with
  | S f, q :: s1 =>
      if negb (q =? c_quote) then None
      else match read_string s1 with
           | Some (k, s2) =>
               match skip_ws s2 with
               | c :: s3 =>
                   if negb (c =? c_colon) then None
                   else match read_json f s3 with
                        | Some (v, s4) =>
                            match skip_ws s4 with
                            | d :: s5 =>
                                if d =? c_rbrace then Some ([(k, v)], s5)
                                else if d =? c_comma then
                                  match read_members f s5 with
                                  | Some (fs, r) => Some ((k, v) :: fs, r)
                                  | None => None
                                  end
                                else None
                            | [] => None
                            end
                        | None => None
                        end
               | [] => None
               end
           | None => None
           end
  | _, _ => None
  end.

(** What the report is to say. *)
Definition report_object (time : option efi_time) (e : BootEntry) (cx : BootContext) (timing : list (list Z * json))
    : list (list Z * json) :=
  [(lit "lamboot_version", JsStr (cx_version cx)); (lit "lamboot_arch", JsStr (cx_build_target cx));
   (lit "timestamp", JsStr (get_timestamp "unknown" time)); (lit "entry_id", JsStr (be_id e));
   (lit "entry_name", JsStr (be_name e)); (lit "entry_type", JsStr (kind_name (be_kind e)));
   (lit "path", JsStr (kind_path (be_kind e))); (lit "verified_via", JsStr (report_via e cx));
   (lit "loader", JsStr (report_loader (cx_native_pe_never cx) (is_chainload (be_kind e))));
   (lit "system_manufacturer", JsStr (default [] (cx_manufacturer cx)));
   (lit "system_product", JsStr (default [] (cx_product_name cx))); (lit "fleet_id", JsStr (default [] (cx_fleet_id cx)));
   (lit "vmid", JsStr (default [] (cx_vmid cx))); (lit "role", JsStr (default [] (cx_role cx)));
   (lit "host_node", JsStr (default [] (cx_host_node cx))); (lit "os_name", JsStr (default [] (cx_os_name cx)));
   (lit "hypervisor", JsStr (default [] (cx_hypervisor cx))); (lit "iommu", JsStr (iommu_type cx));
   (lit "iommu_units", JsNum (Z.of_nat (cx_drhd_units cx))); (lit "boot_timing_ms", JsObj timing)].

Definition timing_object (now : option (efi_time * Z)) (t : BootTelemetry) : list (list Z * json) :=
  (prod_map id JsNum <$> te_phases t) ++ [(lit "total", JsNum (total_ms now t))].

Lemma read_json_escaped_char (c : Z) (rest v r : list Z) :
  0 <= c -> read_string rest = Some (v, r) -> read_string (json_escape_char c ++ rest) = Some (c :: v, r).
Proof.
  intros Hc Hr. unfold json_escape_char.
  destruct (Z.eqb_spec c c_backslash) as [->|]; [simpl; by rewrite Hr|].
  destruct (Z.eqb_spec c c_quote) as [->|]; [simpl; by rewrite Hr|].
  destruct (Z.eqb_spec c c_lf) as [->|]; [simpl; by rewrite Hr|].
  destruct (Z.eqb_spec c c_cr) as [->|]; [simpl; by rewrite Hr|].
  destruct (Z.eqb_spec c c_tab) as [->|]; [simpl; by rewrite Hr|].
  destruct (Z.eqb_spec c 8) as [->|]; [simpl; by rewrite Hr|].
  destruct (Z.eqb_spec c 12) as [->|]; [simpl; by rewrite Hr|].
  destruct (Z.ltb_spec c 32) as [Hlt|Hge].
  - pose proof (read_escaped_char c rest v r Hc Hr) as Hx. unfold escape_char in Hx.
    rewrite !(proj2 (Z.eqb_neq _ _)) in Hx by done. by rewrite (proj2 (Z.ltb_lt c 32) Hlt) in Hx.
  - cbn [app read_string]. rewrite (proj2 (Z.eqb_neq c c_quote)), (proj2 (Z.ltb_ge c 32) Hge) by done.
    rewrite (proj2 (Z.eqb_neq c c_backslash)) by done. simpl. by rewrite Hr.
Qed.

Lemma read_json_escaped (s rest : list Z) : chars s -> read_string (json_escape s ++ c_quote :: rest) = Some (s, rest).
Proof.
  unfold json_escape. induction 1 as [|c s Hc _ IH]; [done|]. simpl flat_map. rewrite <- app_assoc.
  by apply read_json_escaped_char.
Qed.

(** Text that reads as a value wherever it stands in an object. *)
Definition reads (fuel : nat) (text : list Z) (v : json) : Prop :=
  forall d rest, is_ascii_digit d = false -> read_json fuel (text ++ d :: rest) = Some (v, d :: rest).

Lemma reads_str (fuel : nat) (s : list Z) : chars s -> reads (S fuel) (c_space :: c_quote :: json_escape s ++ [c_quote]) (JsStr s).
Proof.
  intros Hs d rest _. cbn [app]. rewrite <- app_assoc. cbn [app read_json skip_ws drop_while is_json_ws Z.eqb orb].
  simpl. by rewrite read_json_escaped.
Qed.

Lemma reads_num (fuel : nat) (n : Z) (ws : list Z) :
  0 <= n -> Forall (fun c => is_json_ws c = true) ws -> reads (S fuel) (ws ++ fmt_dec n) (JsNum n).
Proof.
  intros Hn Hws d rest Hd. rewrite <- app_assoc. cbn [read_json]. unfold skip_ws. rewrite drop_while_app by done.
  pose proof (fmt_dec_digits n) as Hds. pose proof (fmt_dec_nonempty n) as Hne. pose proof (parse_digits_fmt_dec n Hn) as Hp.
  destruct (fmt_dec n) as [|c ds] eqn:E; [done|].
  assert (is_ascii_digit c = true) as Hc by (by apply Forall_cons in Hds as [? _]).
  assert (is_json_ws c = false) as Hw.
  { unfold is_ascii_digit in Hc. unfold is_json_ws. apply andb_true_iff in Hc as [H1%Z.leb_le H2%Z.leb_le].
    unfold c_space, c_lf, c_cr, c_tab. rewrite !(proj2 (Z.eqb_neq _ _)) by lia. done. }
  assert (forall x, drop_while is_json_ws (c :: x) = c :: x) as Hdw by (intros x; simpl; by rewrite Hw).
  cbn [app]. rewrite Hdw.
  assert (c <> c_quote /\ c <> c_lbrace) as [Hq Hb].
  { unfold is_ascii_digit in Hc. unfold c_quote, c_lbrace. lia. }
  rewrite (proj2 (Z.eqb_neq c c_quote) Hq), (proj2 (Z.eqb_neq c c_lbrace) Hb).
  change (c :: ds ++ d :: rest) with ((c :: ds) ++ d :: rest).
  rewrite take_while_app, drop_while_app by done. cbn [take_while drop_while]. rewrite Hd, app_nil_r. by rewrite Hp.
Qed.

(** Members with their texts: key, text of the value, value. *)
Definition member : Type := (list Z * list Z * json)%type.

Definition print_member (pre : list Z) (m : member) : list Z :=
  pre ++ [c_quote] ++ m.1.1 ++ [c_quote; c_colon] ++ m.1.2.

Definition member_ok (n : nat) (m : member) : Prop :=
  json_escape m.1.1 = m.1.1 /\ chars m.1.1 /\ forall fuel, (n <= fuel)%nat -> reads fuel m.1.2 m.2.

Definition member_value (m : member) : list Z * json := (m.1.1, m.2).

Definition all_ws (s : list Z) : Prop := Forall (fun c => is_json_ws c = true) s.

Lemma skip_ws_app (ws s : list Z) : all_ws ws -> skip_ws (ws ++ s) = skip_ws s.
Proof. apply drop_while_app. Qed.

Lemma ws_not_digit (c : Z) : is_json_ws c = true -> is_ascii_digit c = false.
Proof.
  unfold is_json_ws, is_ascii_digit, c_space, c_lf, c_cr, c_tab. intros Hc.
  rewrite !orb_true_iff, !Z.eqb_eq in Hc. lia.
Qed.

(** One member, followed by what ends it. *)
Lemma read_member (pre : list Z) (m : member) (n fuel : nat) (d : Z) (rest : list Z) :
  all_ws pre -> member_ok n m -> (n <= fuel)%nat -> is_ascii_digit d = false ->
  read_members (S fuel) (print_member pre m ++ d :: rest) =
  match skip_ws (d :: rest) with
  | d :: s5 =>
      if d =? c_rbrace then Some ([member_value m], s5)
      else if d =? c_comma then
        match read_members fuel s5 with Some (fs, r) => Some (member_value m :: fs, r) | None => None end
      else None
  | [] => None
  end.
Proof.
  intros Hpre (Hk & Hkc & Hr) Hn Hd. unfold print_member. rewrite <- app_assoc. cbn [read_members]. rewrite skip_ws_app by done.
  cbn [app]. rewrite <- app_assoc. cbn [app]. unfold skip_ws at 1. cbn [drop_while is_json_ws].
  change (is_json_ws c_quote) with false. cbn iota. rewrite Z.eqb_refl. cbn [negb].
  rewrite <- Hk at 1. rewrite read_json_escaped by done.
  change (skip_ws (c_colon :: m.1.2 ++ d :: rest)) with (c_colon :: m.1.2 ++ d :: rest). cbn iota. rewrite Z.eqb_refl. cbn [negb].
  rewrite (Hr fuel Hn d rest Hd). done.
Qed.

Lemma read_members_printed (pre post : list Z) (ms : list member) (n fuel : nat) (rest : list Z) :
  all_ws pre -> all_ws post -> Forall (member_ok n) ms -> ms <> [] -> (length ms + n <= fuel)%nat ->
  read_members fuel (join_with [c_comma] (print_member pre <$> ms) ++ post ++ c_rbrace :: rest)
  = Some (member_value <$> ms, rest).
Proof.
  intros Hpre Hpost H. revert fuel. induction H as [|m ms Hm Hms IH]; intros fuel Hne Hfuel; [done|].
  destruct fuel as [|fuel]; [simpl in Hfuel; lia|].
  destruct ms as [|m' ms].
  - cbn [fmap list_fmap join_with]. simpl in Hfuel.
    assert (exists d rest', post ++ c_rbrace :: rest = d :: rest' /\ is_ascii_digit d = false) as (d & rest' & E & Hd).
    { destruct post as [|c post]; [by eexists _, _|]. exists c, (post ++ c_rbrace :: rest). split; [done|].
      apply ws_not_digit. by apply Forall_cons in Hpost as [? _]. }
    rewrite E, (read_member pre m n) by (done || lia). rewrite <- E, skip_ws_app by done. done.
  - change (join_with [c_comma] (print_member pre <$> m :: m' :: ms))
      with (print_member pre m ++ [c_comma] ++ join_with [c_comma] (print_member pre <$> m' :: ms)).
    rewrite <- !app_assoc. cbn [app]. simpl in Hfuel. rewrite (read_member pre m n) by (done || lia).
    change (skip_ws (c_comma :: ?x)) with (c_comma :: x). cbn iota.
    change (c_comma =? c_rbrace) with false. rewrite Z.eqb_refl. cbn iota.
    rewrite IH; [done|done|simpl; lia].
Qed.

(** A printed object reads back, wherever it stands. *)
Lemma reads_object (ws pre post : list Z) (ms : list member) (n fuel : nat) :
  all_ws ws -> all_ws pre -> all_ws post -> Forall (member_ok n) ms -> ms <> [] -> (S (length ms + n) <= fuel)%nat ->
  reads fuel (ws ++ [c_lbrace] ++ join_with [c_comma] (print_member pre <$> ms) ++ post ++ [c_rbrace])
    (JsObj (member_value <$> ms)).
Proof.
  intros Hws Hpre Hpost Hms Hne Hf d rest _. destruct fuel as [|fuel]; [lia|].
  rewrite <- !app_assoc. cbn [read_json]. rewrite skip_ws_app by done. cbn [app].
  change (skip_ws (c_lbrace :: ?x)) with (c_lbrace :: x). cbn iota.
  change (c_lbrace =? c_quote) with false. rewrite Z.eqb_refl. cbn iota.
  rewrite (read_members_printed pre post ms n) by (done || lia). done.
Qed.

Definition str_member (key : string) (val : list Z) : member :=
  (lit key, c_space :: c_quote :: json_escape val ++ [c_quote], JsStr val).

Definition report_members (time : option efi_time) (e : BootEntry) (cx : BootContext) (timing : list (list Z * json)) : list member :=
  [str_member "lamboot_version" (cx_version cx); str_member "lamboot_arch" (cx_build_target cx);
   str_member "timestamp" (get_timestamp "unknown" time); str_member "entry_id" (be_id e); str_member "entry_name" (be_name e);
   str_member "entry_type" (kind_name (be_kind e)); str_member "path" (kind_path (be_kind e));
   str_member "verified_via" (report_via e cx);
   str_member "loader" (report_loader (cx_native_pe_never cx) (is_chainload (be_kind e)));
   str_member "system_manufacturer" (default [] (cx_manufacturer cx));
   str_member "system_product" (default [] (cx_product_name cx)); str_member "fleet_id" (default [] (cx_fleet_id cx));
   str_member "vmid" (default [] (cx_vmid cx)); str_member "role" (default [] (cx_role cx));
   str_member "host_node" (default [] (cx_host_node cx)); str_member "os_name" (default [] (cx_os_name cx));
   str_member "hypervisor" (default [] (cx_hypervisor cx)); str_member "iommu" (iommu_type cx);
   (lit "iommu_units", c_space :: fmt_dec (Z.of_nat (cx_drhd_units cx)), JsNum (Z.of_nat (cx_drhd_units cx)));
   (lit "boot_timing_ms", c_space :: cx_telemetry_json cx, JsObj timing)].

Lemma kind_name_plain (k : EntryKind) : json_escape (kind_name k) = kind_name k.
Proof. by destruct k. Qed.

Lemma boot_json_members (time : option efi_time) (e : BootEntry) (cx : BootContext) (timing : list (list Z * json)) :
  boot_json time e cx =
  [c_lbrace] ++ join_with [c_comma] (print_member (c_lf :: lit "  ") <$> report_members time e cx timing) ++ [c_lf; c_rbrace; c_lf].
Proof.
  unfold boot_json, report_members, report_line, str_member. rewrite <- (kind_name_plain (be_kind e)) at 1.
  cbn [fmap list_fmap join_with]. unfold print_member. cbn [fst snd].
  repeat (rewrite <- app_assoc; cbn [app]). done.
Qed.

(** The strings of the report are strings, and phase names need no escape. *)
Definition report_ok (e : BootEntry) (cx : BootContext) (t : BootTelemetry) : Prop :=
  Forall chars [cx_version cx; cx_build_target cx; be_id e; be_name e; kind_path (be_kind e)] /\
  Forall (fun o => chars (default [] o)) [cx_manufacturer cx; cx_product_name cx; cx_fleet_id cx; cx_vmid cx; cx_role cx;
    cx_host_node cx; cx_os_name cx; cx_hypervisor cx] /\
  Forall (fun p => json_escape p.1 = p.1 /\ chars p.1 /\ 0 <= p.2) (te_phases t).

Lemma chars_lit (s : list Z) : forallb (Z.leb 0) s = true -> chars s.
Proof.
  intros Hs. apply Forall_forall. intros c Hc. apply Z.leb_le. apply (proj1 (List.forallb_forall _ _) Hs). by apply list_elem_of_In.
Qed.

Lemma chars_app (s t : list Z) : chars s -> chars t -> chars (s ++ t).
Proof. intros. by apply Forall_app. Qed.

Lemma chars_pad (w : nat) (n : Z) : chars (pad_zero w (fmt_dec n)).
Proof.
  eapply Forall_impl; [apply pad_zero_digits, fmt_dec_digits|]. intros c Hc. unfold is_ascii_digit in Hc. lia.
Qed.

Lemma chars_timestamp (u : string) (time : option efi_time) : chars (lit u) -> chars (get_timestamp u time).
Proof.
  intros Hu. destruct time as [t|]; [|done]. unfold get_timestamp, pad2.
  repeat first [apply chars_pad|apply chars_lit; reflexivity|apply chars_app].
Qed.

Lemma str_member_ok (key : string) (val : list Z) :
  json_escape (lit key) = lit key -> chars (lit key) -> chars val -> member_ok 1 (str_member key val).
Proof. intros Hk Hc Hv. split; [done|]. split; [done|]. intros [|fuel] Hf; [lia|]. by apply reads_str. Qed.

Lemma member_ok_mono (n n' : nat) (m : member) : member_ok n m -> (n <= n')%nat -> member_ok n' m.
Proof. intros (? & ? & Hr) Hn. split; [done|]. split; [done|]. intros fuel Hf. apply Hr. lia. Qed.

Definition timing_members (now : option (efi_time * Z)) (t : BootTelemetry) : list member :=
  ((fun p => (p.1, fmt_dec p.2, JsNum p.2)) <$> te_phases t) ++ [(lit "total", fmt_dec (total_ms now t), JsNum (total_ms now t))].

Lemma telemetry_json_members (now : option (efi_time * Z)) (t : BootTelemetry) :
  telemetry_json now t = [] ++ [c_lbrace] ++ join_with [c_comma] (print_member [] <$> timing_members now t) ++ [] ++ [c_rbrace].
Proof.
  unfold telemetry_json, timing_members. rewrite fmap_app. cbn [app]. f_equal. f_equal. f_equal. f_equal. by rewrite <- list_fmap_compose.
Qed.

Lemma telemetry_reads (now : option (efi_time * Z)) (t : BootTelemetry) (ws : list Z) (fuel : nat) :
  all_ws ws -> Forall (fun p => json_escape p.1 = p.1 /\ chars p.1 /\ 0 <= p.2) (te_phases t) ->
  (length (te_phases t) + 3 <= fuel)%nat -> reads fuel (ws ++ telemetry_json now t) (JsObj (timing_object now t)).
Proof.
  intros Hws Hp Hf. rewrite telemetry_json_members.
  assert (timing_object now t = member_value <$> timing_members now t) as ->.
  { unfold timing_object, timing_members. rewrite fmap_app, <- list_fmap_compose. done. }
  assert (forall k n, json_escape k = k -> chars k -> 0 <= n -> member_ok 1 (k, fmt_dec n, JsNum n)) as Hm.
  { intros k n Hk Hc Hn. split; [done|]. split; [done|]. intros [|f] Hf'; [lia|]. by apply (reads_num f n []). }
  apply (reads_object ws [] [] _ 1); [done|by constructor|by constructor| | |].
  - apply Forall_app. split.
    + apply Forall_fmap. eapply Forall_impl; [exact Hp|]. intros p (Hk & Hc & Hn). by apply Hm.
    + apply Forall_singleton, Hm; [done|by apply chars_lit|]. unfold total_ms, wrap. apply Z.mod_pos_bound. lia.
  - unfold timing_members. by destruct (te_phases t).
  - unfold timing_members. rewrite length_app, length_fmap. simpl. lia.
Qed.

Lemma report_members_ok (time : option efi_time) (e : BootEntry) (cx : BootContext) (now : option (efi_time * Z)) (t : BootTelemetry) :
  report_ok e cx t -> cx_telemetry_json cx = telemetry_json now t ->
  Forall (member_ok (length (te_phases t) + 3)) (report_members time e cx (timing_object now t)).
Proof.
  intros (Hs & Ho & Hp) Ht. unfold report_members.
  repeat match goal with
  | H : Forall _ (_ :: _) |- _ => apply Forall_cons in H as [? H]
  end.
  assert (chars (kind_name (be_kind e))) by (destruct (be_kind e); by apply chars_lit).
  assert (chars (report_via e cx)).
  { unfold report_via. destruct (is_chainload _); [constructor|]. destruct (cx_report_sb cx); by apply chars_lit. }
  assert (chars (report_loader (cx_native_pe_never cx) (is_chainload (be_kind e)))).
  { unfold report_loader. destruct (_ || _); by apply chars_lit. }
  assert (chars (iommu_type cx)).
  { unfold iommu_type. destruct (cx_intel_vt_d cx); [by apply chars_lit|]. destruct (cx_amd_vi cx); by apply chars_lit. }
  assert (chars (get_timestamp "unknown" time)) by (by apply chars_timestamp, chars_lit).
  repeat (apply Forall_cons; split;
    [first [apply (member_ok_mono 1); [apply str_member_ok; [done|by apply chars_lit|done]|lia]|idtac]|]); [| |by constructor].
  - split; [done|]. split; [by apply chars_lit|]. intros [|f] Hf; [lia|].
    apply (reads_num f _ [c_space]); [lia|by constructor].
  - split; [done|]. split; [by apply chars_lit|]. intros f Hf. rewrite Ht.
    apply (telemetry_reads now t [c_space]); [by constructor|done|lia].
Qed.

(** C20. The boot report is valid JSON and says what it should, whatever the
    entry, the firmware tables and the fleet configuration put into its strings
    (backslashes of UEFI paths, quotes, control characters): a JSON reader gets
    back exactly the twenty members, with the timing object nested in the last.
    The reader needs one unit of fuel per member and level, which the bound
    covers. *)
Theorem boot_report_readable (time : option efi_time) (e : BootEntry) (cx : BootContext) (now : option (efi_time * Z))
    (t : BootTelemetry) (fuel : nat) :
  report_ok e cx t -> cx_telemetry_json cx = telemetry_json now t -> (length (te_phases t) + 24 <= fuel)%nat ->
  read_json fuel (boot_json time e cx) = Some (JsObj (report_object time e cx (timing_object now t)), [c_lf]).
Proof.
  intros Hok Ht Hf. rewrite (boot_json_members time e cx (timing_object now t)).
  pose proof (reads_object [] (c_lf :: lit "  ") [c_lf] (report_members time e cx (timing_object now t))
    (length (te_phases t) + 3) fuel) as Hr.
  specialize (Hr ltac:(by constructor) ltac:(repeat constructor) ltac:(repeat constructor)
    (report_members_ok time e cx now t Hok Ht) ltac:(done) ltac:(simpl; lia) c_lf [] ltac:(done)).
  rewrite <- !app_assoc in Hr. cbn [app] in *. exact Hr.
Qed.

#[local] Notation demo_entry := (mkBoot (lit "bls-a") (lit "Arch \ Linux") (Chainload (lit "\EFI\boot\x.efi")) IconLinux None None 0 (lit "fat")).
#[local] Notation demo_telemetry := (mkTelemetry [(lit "drivers", 12)] 5).
#[local] Notation demo_ctx := (mkCtx (lit "0.11.0") (lit "x86_64-unknown-uefi") (Some (lit "QEMU" ++ [c_lf; c_quote])) None
  (Some (lit "fleet")) None None true false 2 None None None (telemetry_json None demo_telemetry) ReportShim false).

Lemma boot_report_readable_witness :
  report_ok demo_entry demo_ctx demo_telemetry /\
  read_json 30 (boot_json None demo_entry demo_ctx)
  = Some (JsObj (report_object None demo_entry demo_ctx (timing_object None demo_telemetry)), [c_lf]).
Proof.
  assert (report_ok demo_entry demo_ctx demo_telemetry) as Hok.
  { split; [repeat (apply Forall_cons; split; [apply chars_lit; reflexivity|]); by apply Forall_nil|].
    split; [repeat (apply Forall_cons; split; [apply chars_lit; reflexivity|]); by apply Forall_nil|].
    apply Forall_singleton. split; [reflexivity|]. split; [apply chars_lit; reflexivity|simpl; lia]. }
  split; [exact Hok|]. apply (boot_report_readable None demo_entry demo_ctx None demo_telemetry 30 Hok eq_refl). simpl. lia.
Defined.

(** ** The boot log (bootlog.rs) *)
Definition LOG_PATH : list Z := lit "/EFI/LamBoot/reports/boot.log".
Definition MAX_LOG_SIZE : Z := 64 * 1024.

Record BootLog : Type := mkBootLog { bl_buffer : list Z; bl_write_through : bool; bl_written : Z }.

Definition bootlog_new : BootLog := mkBootLog [] true 0.
Definition set_buffered (l : BootLog) : BootLog := mkBootLog (bl_buffer l) false (bl_written l).

Section bootlog.
Context {St : Type} `{Sfs St}.

Definition append_to_esp (line : list Z) (l : BootLog) (esp : Vol St) : BootLog * Vol St :=
  if MAX_LOG_SIZE <? bl_written l + len (str_bytes line) then (l, esp)
  else
    match with_writer (esp_append LOG_PATH (str_bytes line)) esp with
    | (Some (Ok _), esp) => (mkBootLog (bl_buffer l) (bl_write_through l) (bl_written l + len (str_bytes line)), esp)
    | (_, esp) => (l, esp)
    end.

(** [None] for the ESP: the line goes to the buffer only. *)
Definition bootlog_log (now : option efi_time) (level message : list Z) (l : BootLog) (esp : option (Vol St)) : BootLog * option (Vol St) :=
  let line := [c_lbracket] ++ get_timestamp "??:??:??" now ++ lit "] " ++ level ++ lit ": " ++ message ++ [c_lf] in
  let '(l, esp) :=
    match esp with
    | Some esp => if bl_write_through l then let '(l, esp) := append_to_esp line l esp in (l, Some esp) else (l, Some esp)
    | None => (l, None)
    end in
  (mkBootLog (bl_buffer l ++ line) (bl_write_through l) (bl_written l), esp).

Definition bootlog_flush (l : BootLog) (esp : Vol St) : Vol St :=
  if is_empty (bl_buffer l) then esp
  else (with_writer (esp_write LOG_PATH (str_bytes (bl_buffer l))) esp).2.

Definition bootlog_start (now : option efi_time) (version arch : list Z) (l : BootLog) (esp : Vol St) : BootLog * Vol St :=
  let header := lit "=== LamBoot " ++ version ++ lit " (" ++ arch ++ lit ") boot log ===" ++ [c_lf]
                ++ lit "=== " ++ get_timestamp "??:??:??" now ++ lit " ===" ++ [c_lf; c_lf] in
  let l := mkBootLog header (bl_write_through l) 0 in
  match with_writer (esp_write LOG_PATH (str_bytes header)) esp with
  | (Some (Ok _), esp) => (mkBootLog header (bl_write_through l) (len (str_bytes header)), esp)
  | (_, esp) => (l, esp)
  end.

(** ** Breadcrumbs (diag.rs) *)
Definition DIAG_BUF_CAP : Z := 32 * 1024.

Record Diag : Type := mkDiag { dg_enabled : bool; dg_coalesce : bool; dg_buf : option (list Z) }.

Definition buffer_push (msg : list Z) (d : Diag) : Diag :=
  let buf := default [] (dg_buf d) in
  mkDiag (dg_enabled d) (dg_coalesce d)
    (Some (if len (str_bytes buf) + len (str_bytes msg) <=? DIAG_BUF_CAP then buf ++ msg else buf)).

Definition diag_append (msg : list Z) (d : Diag) (esp : Vol St) : Diag * Vol St :=
  if negb (dg_enabled d) then (d, esp)
  else if dg_coalesce d then (buffer_push msg d, esp)
  else (d, (append_audit_log msg esp).2).

Definition diag_flush (d : Diag) (esp : Vol St) : Diag * Vol St :=
  if negb (dg_coalesce d) then (d, esp)
  else match dg_buf d with
       | Some buf =>
           if is_empty buf then (d, esp)
           else (mkDiag (dg_enabled d) (dg_coalesce d) (Some []), (append_audit_log buf esp).2)
       | None => (d, esp)
       end.

(** ** What they keep to *)
Lemma append_to_esp_cap (line : list Z) (l : BootLog) (esp : Vol St) :
  bl_written l <= MAX_LOG_SIZE -> bl_written (append_to_esp line l esp).1 <= MAX_LOG_SIZE.
Proof.
  intros Hl. unfold append_to_esp. destruct (Z.ltb_spec MAX_LOG_SIZE (bl_written l + len (str_bytes line))); [done|].
  destruct (with_writer _ esp) as [[[[]| |]|] esp']; done.
Qed.

Lemma buffer_push_cap (msg : list Z) (d : Diag) :
  len (str_bytes (default [] (dg_buf d))) <= DIAG_BUF_CAP -> len (str_bytes (default [] (dg_buf (buffer_push msg d)))) <= DIAG_BUF_CAP.
Proof.
  intros Hd. unfold buffer_push. simpl. destruct (Z.leb_spec (len (str_bytes (default [] (dg_buf d))) + len (str_bytes msg)) DIAG_BUF_CAP); [|done].
  unfold str_bytes in *. rewrite flat_map_app. unfold len in *. rewrite length_app. lia.
Qed.

Definition breadcrumbs (msgs : list (list Z)) (d : Diag) (esp : Vol St) : Diag * Vol St :=
  foldl (fun '(d, esp) msg => diag_append msg d esp) (d, esp) msgs.

(** On firmware where a console write stalls the next file operation,
    breadcrumbs cost no file operation at all until the hand-over: in coalescing
    mode any number of them leaves the ESP as it is and at most 32 KiB of text in
    memory, and the flush is one append; with diagnostics off nothing happens in
    either mode. *)
Theorem breadcrumbs_coalesce (msgs : list (list Z)) (d : Diag) (esp : Vol St) :
  len (str_bytes (default [] (dg_buf d))) <= DIAG_BUF_CAP ->
  (dg_coalesce d = true ->
     let '(d', esp') := breadcrumbs msgs d esp in
     esp' = esp /\ dg_coalesce d' = true /\ len (str_bytes (default [] (dg_buf d'))) <= DIAG_BUF_CAP /\
     (diag_flush d' esp).2 =
       match default [] (dg_buf d') with [] => esp | buf => (append_audit_log buf esp).2 end) /\
  (dg_enabled d = false -> breadcrumbs msgs d esp = (d, esp)).
Proof.
  intros Hd. split.
  - intros Hc. revert d Hd Hc. unfold breadcrumbs. induction msgs as [|m ms IH]; intros d Hd Hc; simpl.
    + split_and!; try done. unfold diag_flush. rewrite Hc. simpl. by destruct (dg_buf d) as [[|c b]|].
    + unfold diag_append at 2. destruct (negb (dg_enabled d)); [by apply IH|]. rewrite Hc.
      apply IH; [by apply buffer_push_cap|done].
  - intros He. unfold breadcrumbs. induction msgs as [|m ms IH]; simpl; [done|]. unfold diag_append at 2. by rewrite He.
Qed.
End bootlog.

Lemma breadcrumbs_coalesce_witness :
  let d := mkDiag true true None in
  let esp := FatVol (mkFat (sim_of [] no_refusal) cache_new) None in
  len (str_bytes (default [] (dg_buf d))) <= DIAG_BUF_CAP /\
  ((dg_coalesce d = true ->
     let '(d', esp') := breadcrumbs [lit "a"; lit "b"] d esp in
     esp' = esp /\ dg_coalesce d' = true /\ len (str_bytes (default [] (dg_buf d'))) <= DIAG_BUF_CAP /\
     (diag_flush d' esp).2 =
       match default [] (dg_buf d') with [] => esp | buf => (append_audit_log buf esp).2 end) /\
  (dg_enabled d = false -> breadcrumbs [lit "a"; lit "b"] d esp = (d, esp))).
Proof.
  intros d esp. assert (len (str_bytes (default [] (dg_buf d))) <= DIAG_BUF_CAP) as Hd by (vm_compute; discriminate).
  split; [exact Hd|]. apply (breadcrumbs_coalesce [lit "a"; lit "b"] d esp Hd).
Defined.

(** A full buffer does not end the trail: a breadcrumb that does not fit is
    dropped, a shorter one after it is kept. *)
Lemma later_breadcrumb_kept (buf : list Z) :
  len (str_bytes buf) = DIAG_BUF_CAP - 2 ->
  let full := mkDiag true true (Some buf) in
  dg_buf (buffer_push (lit "3") (buffer_push (lit "second") full)) = Some (buf ++ lit "3").
Proof.
  intros Hb. unfold buffer_push. cbn [dg_buf default from_option]. unfold id.
  assert (len (str_bytes buf) + len (str_bytes (lit "second")) <=? DIAG_BUF_CAP = false) as -> by (rewrite Hb; reflexivity).
  assert (len (str_bytes buf) + len (str_bytes (lit "3")) <=? DIAG_BUF_CAP = true) as -> by (rewrite Hb; reflexivity). done.
Qed.

(** The cap on the boot log is not one on the file: the flush writes the whole
    buffer, which takes every line. *)
Theorem flush_ignores_cap {St : Type} `{SfsLaws St} (l : BootLog) (fv fv' : FatVolume St) (label : option (list Z)) :
  bl_buffer l <> [] -> bootlog_flush l (FatVol fv label) = FatVol fv' label ->
  esp_write LOG_PATH (str_bytes (bl_buffer l)) fv = (Ok tt, fv') ->
  exists tail, node_at (fv_st fv') LOG_PATH = Some (NFile (str_bytes (bl_buffer l) ++ tail)).
Proof.
  intros _ _. unfold esp_write. intros He. pose proof (esp_op_cases (fat_write LOG_PATH (str_bytes (bl_buffer l))) [LOG_PATH] fv) as Hc.
  rewrite He in Hc. destruct Hc as [(e & ? & _)|Hc]; [done|].
  pose proof (ft_fat_write (sfs_view (fv_st fv)) (fv_st fv) LOG_PATH (str_bytes (bl_buffer l)) (fv_st fv) (conj (looks_self _) eq_refl)) as Hw.
  destruct (fat_write _ _ (fv_st fv)) as [r s]. destruct Hc as [<- [Hok _]]. rewrite (Hok eq_refl) in Hw.
  destruct Hw as (w & tail & Hw & Hl & _). exists tail. by eapply node_at_upd.
Qed.

(** Off FAT there is no report, and the error is passed on. *)
Lemma report_needs_fat {St : Type} `{Sfs St} (now now' : option efi_time) (e : BootEntry) (cx : BootContext) (v : Volume) :
  write_boot_report (St := St) now now' e cx (RoVol v) = (Err UNSUPPORTED, RoVol v).
Proof. done. Qed.

(** The clock is the time since midnight: a boot over midnight reports 4208 million milliseconds too many. *)
Theorem midnight_wraps :
  let before := Some (mkTime 2026 1 1 23 59 59, 900000000) in
  let after := Some (mkTime 2026 1 2 0 0 0, 100000000) in
  total_ms after (telemetry_new before) = 2 ^ 32 - 86399800.
Proof. by vm_compute. Qed.
