(* ===== verification/FwCfg.v ===== *)
(** * Host-supplied configuration (fw_cfg.rs, fw_cfg_config.rs)

    The fw_cfg device of QEMU is a pair of I/O ports: selecting an item, and
    reading its next byte.  They are the class [FwCfgPort]; what QEMU documents
    of them is [FwCfgLaws].  The host puts a JSON object there, of which four
    string members are read. *)
From S2P Require Import Prelude Compare RustStr Utf8 VersionOrder BlsParse BootTypes Policy TrustLog Nvram Health FsTypes SecureBoot SecurityOverride VolumeFs FatFs Report.
Local Open Scope Z_scope.

Class FwCfgPort (St : Type) := {
  port_select : Z -> St -> St;
  port_read : St -> Z * St
}.

Section device.
Context {St : Type} `{FwCfgPort St}.

Definition dev (A : Type) : Type := St -> A * St.

#[export] Instance dev_ret : MRet dev := fun A a s => (a, s).
#[export] Instance dev_bind : MBind dev := fun A B k m s => let '(a, s') := m s in k a s'.

#[local] Notation D := dev.

Definition fw_cfg_select (selector : Z) : D unit := fun s => (tt, port_select selector s).
Definition fw_cfg_read_byte : D Z := port_read.

Definition fw_cfg_read_u16_be : D Z :=
  hi ← fw_cfg_read_byte;
  lo ← fw_cfg_read_byte;
  mret (Z.lor (Z.shiftl hi 8) lo).

Definition fw_cfg_read_u32_be : D Z :=
  b3 ← fw_cfg_read_byte;
  b2 ← fw_cfg_read_byte;
  b1 ← fw_cfg_read_byte;
  b0 ← fw_cfg_read_byte;
  mret (Z.lor (Z.lor (Z.lor (Z.shiftl b3 24) (Z.shiftl b2 16)) (Z.shiftl b1 8)) b0).

Fixpoint read_bytes (n : nat) : D (list Z) :=
  match n with
  | O => mret []
  | S n' => b ← fw_cfg_read_byte; rest ← read_bytes n'; mret (b :: rest)
  end.

Definition fw_cfg_available (a : target_arch) : D bool :=
  match a with
  | Aarch64 => mret false
  | X86_64 =>
      _ ← fw_cfg_select 0;
      sig ← read_bytes 4;
      mret (bool_decide (sig = lit "QEMU"))
  end.

(** The name in a field of the directory. *)
Definition field_name (name_buf : list Z) : list Z := drop_while_end (Z.eqb 0) (default [] (from_utf8 name_buf)).

Fixpoint scan_dir (count : nat) (target_name : list Z) : D (option (list Z)) :=
  match count with
  | O => mret None
  | S count' =>
      size ← fw_cfg_read_u32_be;
      select ← fw_cfg_read_u16_be;
      _ ← fw_cfg_read_u16_be;
      name_buf ← read_bytes 56;
      if bool_decide (field_name name_buf = target_name) then
        _ ← fw_cfg_select select;
        data ← read_bytes (Z.to_nat size);
        mret (Some data)
      else scan_dir count' target_name
  end.

Definition read_file_raw (target_name : list Z) : D (option (list Z)) :=
  _ ← fw_cfg_select 0x19;
  count ← fw_cfg_read_u32_be;
  if (count =? 0) || (1000 <? count) then mret None
  else scan_dir (Z.to_nat count) target_name.

Definition read_file (a : target_arch) (name : list Z) : D (option (list Z)) :=
  match a with
  | Aarch64 => mret None
  | X86_64 =>
      ok ← fw_cfg_available a;
      if (ok : bool) then read_file_raw name else mret None
  end.

Definition read_file_string (a : target_arch) (name : list Z) : D (option (list Z)) :=
  data ← read_file a name;
  mret (data ≫= from_utf8).

Definition read_vmgenid (a : target_arch) : D (option (list Z)) :=
  data ← read_file a (lit "etc/vmgenid_guid");
  mret (data ≫= fun d => if 16 <=? len d then Some (take 16 d) else None).
End device.

(** ** The configuration object *)
(** The characters up to the closing quote, with escapes undone. *)
Fixpoint read_value (chars : list Z) (escaped : bool) (out : list Z) : option (list Z) :=
  match chars with
  | [] => None
  | c :: rest =>
      if escaped then
        let c' := if c =? 110 then c_lf else if c =? 114 then c_cr else if c =? 116 then c_tab
                  else if c =? 98 then 8 else if c =? 102 then 12 else c in
        read_value rest false (out ++ [c'])
      else if c =? c_backslash then read_value rest true out
      else if c =? c_quote then (if is_empty out then None else Some out)
      else read_value rest false (out ++ [c])
  end.

Definition extract_string_field (input key : list Z) : option (list Z) :=
  let needle := [c_quote] ++ key ++ [c_quote] in
  key_pos ← find_sub needle input;
  let after_key := drop (key_pos + length needle) input in
  colon_pos ← find_char (Z.eqb c_colon) after_key;
  match trim_start (drop (S colon_pos) after_key) with
  | c :: chars => if c =? c_quote then read_value chars false [] else None
  | [] => None
  end.

Record FwCfgConfig : Type := mkFwCfg {
  fc_fleet_id : option (list Z);
  fc_vmid : option (list Z);
  fc_role : option (list Z);
  fc_host_node : option (list Z)
}.

Definition fwcfg_parse (input : list Z) : FwCfgConfig :=
  mkFwCfg (extract_string_field input (lit "fleet_id")) (extract_string_field input (lit "vmid"))
    (extract_string_field input (lit "role")) (extract_string_field input (lit "hostname")).

(** ** What QEMU documents of the device *)
Class FwCfgLaws (St : Type) `{FwCfgPort St} := {
  pt_items : St -> Z -> list Z;                  (* the contents of each item *)
  pt_pos : St -> Z * nat;                        (* the selected item and the next offset *)
  select_items k s : pt_items (port_select k s) = pt_items s;
  select_pos k s : pt_pos (port_select k s) = (k, 0%nat);
  read_items s : pt_items (port_read s).2 = pt_items s;
  read_pos s : pt_pos (port_read s).2 = ((pt_pos s).1, S (pt_pos s).2);
  read_byte s : (port_read s).1 = default 0 (pt_items s (pt_pos s).1 !! (pt_pos s).2)    (* zero behind the end *)
}.

Lemma land_shifted (hi lo k : Z) : 0 <= k -> 0 <= lo < 2 ^ k -> Z.land (hi * 2 ^ k) lo = 0.
Proof.
  intros Hk Hlo. apply Z.bits_inj'. intros n Hn. rewrite Z.land_spec, Z.bits_0. destruct (Z.lt_ge_cases n k).
  - by rewrite Z.mul_pow2_bits_low.
  - rewrite <- (Z.mod_small lo (2 ^ k)), Z.mod_pow2_bits_high by lia. apply andb_false_r.
Qed.

Lemma lor_shiftl (hi lo k : Z) : 0 <= k -> 0 <= lo < 2 ^ k -> Z.lor (Z.shiftl hi k) lo = hi * 2 ^ k + lo.
Proof.
  intros Hk Hlo. rewrite Z.shiftl_mul_pow2 by done. pose proof (land_shifted hi lo k Hk Hlo) as Hl.
  rewrite <- Z.lxor_lor, <- Z.add_nocarry_lxor by done. done.
Qed.

(** Big-endian fields. *)
Definition be (n : nat) (z : Z) : list Z := rev (to_le n z).

Record DirFile : Type := mkDirFile {
  df_size : Z;
  df_select : Z;
  df_reserved : list Z;
  df_name : list Z                     (* the field of 56 bytes *)
}.

Definition dir_file_ok (f : DirFile) : Prop :=
  0 <= df_size f <= u32_max /\ 0 <= df_select f <= u16_max /\ length (df_reserved f) = 2%nat /\ length (df_name f) = 56%nat.

Definition dir_file_bytes (f : DirFile) : list Z :=
  be 4 (df_size f) ++ be 2 (df_select f) ++ df_reserved f ++ df_name f.

Definition dir_bytes (files : list DirFile) : list Z := be 4 (len files) ++ flat_map dir_file_bytes files.

(** An item as it is read: its bytes, then zeroes. *)
Definition item_read (content : list Z) (size : Z) : list Z := take (Z.to_nat size) (content ++ replicate (Z.to_nat size) 0).

Section laws.
Context {St : Type} `{FwCfgLaws St}.

(** The device stands before [rest] of item [k]. *)
Definition before (s : St) (items : Z -> list Z) (k : Z) (rest : list Z) : Prop :=
  pt_items s = items /\ (pt_pos s).1 = k /\ drop (pt_pos s).2 (items k) = rest.

Lemma select_before (s : St) (items : Z -> list Z) (k : Z) : pt_items s = items -> before (fw_cfg_select k s).2 items k (items k).
Proof. intros Hi. unfold before. simpl. by rewrite select_items, select_pos, Hi. Qed.

Lemma read_before (s : St) (items : Z -> list Z) (k : Z) (rest : list Z) :
  before s items k rest -> (fw_cfg_read_byte s).1 = default 0 (head rest) /\ before (fw_cfg_read_byte s).2 items k (tail rest).
Proof.
  intros (Hi & Hk & Hr). unfold before, fw_cfg_read_byte. rewrite read_items, read_pos, read_byte, Hi, Hk. simpl. subst rest.
  rewrite head_lookup, lookup_drop, Nat.add_0_r. split_and!; [done..|].
  generalize (pt_pos s).2. intros n. revert n. induction (items k) as [|b l IH]; intros n; [by rewrite !drop_nil|]. by destruct n; simpl.
Qed.

(** A read of what is there. *)
Lemma read_one (s : St) (items : Z -> list Z) (k b : Z) (rest : list Z) :
  before s items k (b :: rest) -> exists s', fw_cfg_read_byte s = (b, s') /\ before s' items k rest.
Proof. intros Hb. apply read_before in Hb as [H1 H2]. destruct (fw_cfg_read_byte s) as [x s']. simpl in *. subst. eauto. Qed.

Lemma read_bytes_at (bs rest : list Z) (s : St) (items : Z -> list Z) (k : Z) :
  before s items k (bs ++ rest) -> exists s', read_bytes (length bs) s = (bs, s') /\ before s' items k rest.
Proof.
  revert s. induction bs as [|b bs IH]; intros s Hb; [by exists s|]. cbn [app] in Hb. apply read_one in Hb as (s1 & E1 & Hb).
  apply IH in Hb as (s2 & E2 & Hb). exists s2. split; [|done]. cbn [read_bytes length]. unfold mbind, dev_bind. by rewrite E1, E2.
Qed.

Lemma read_bytes_any (n : nat) (rest : list Z) (s : St) (items : Z -> list Z) (k : Z) :
  before s items k rest -> (read_bytes n s).1 = take n (rest ++ replicate n 0).
Proof.
  revert s rest. induction n as [|n IH]; intros s rest Hb; [done|]. apply read_before in Hb as [H1 H2]. cbn [read_bytes].
  unfold mbind, dev_bind. destruct (fw_cfg_read_byte s) as [x s']. simpl in H1, H2. apply IH in H2.
  destruct (read_bytes n s') as [bs s'']. simpl in H2 |- *. subst x bs. destruct rest as [|b rest]; simpl.
  - done.
  - f_equal. change (0 :: replicate n 0) with (replicate (S n) 0). rewrite !take_app, !take_replicate. do 2 f_equal. lia.
Qed.

Lemma read_bytes_items (n : nat) (rest : list Z) (s : St) (items : Z -> list Z) (k : Z) :
  before s items k rest -> pt_items (read_bytes n s).2 = items.
Proof.
  revert s rest. induction n as [|n IH]; intros s l Hb; [apply Hb|]. cbn [read_bytes]. unfold mbind, dev_bind.
  apply read_before in Hb as [_ Hb]. destruct (fw_cfg_read_byte s) as [x s']. simpl in Hb. apply IH in Hb. by destruct (read_bytes n s').
Qed.

Lemma be_bytes (n : nat) (z : Z) : Forall is_byte (be n z).
Proof. apply Forall_rev, to_le_bytes. Qed.

Lemma read_u16_at (z : Z) (rest : list Z) (s : St) (items : Z -> list Z) (k : Z) :
  0 <= z <= u16_max -> before s items k (be 2 z ++ rest) -> exists s', fw_cfg_read_u16_be s = (z, s') /\ before s' items k rest.
Proof.
  intros Hz Hb. unfold u16_max in Hz. cbn [be to_le rev app] in Hb.
  apply read_one in Hb as (s1 & E1 & Hb). apply read_one in Hb as (s2 & E2 & Hb).
  exists s2. split; [|done]. unfold fw_cfg_read_u16_be, mbind, dev_bind. rewrite E1, E2. unfold mret, dev_ret. f_equal.
  pose proof (Z.mod_pos_bound z 256 ltac:(lia)). rewrite lor_shiftl by lia.
  pose proof (Z.div_mod z 256). rewrite (Z.mod_small (z / 256)) by (split; [apply Z.div_pos|apply Z.div_lt_upper_bound]; lia). lia.
Qed.

Lemma read_u32_at (z : Z) (rest : list Z) (s : St) (items : Z -> list Z) (k : Z) :
  0 <= z <= u32_max -> before s items k (be 4 z ++ rest) -> exists s', fw_cfg_read_u32_be s = (z, s') /\ before s' items k rest.
Proof.
  intros Hz Hb. unfold u32_max in Hz. cbn [be to_le rev app] in Hb.
  apply read_one in Hb as (s1 & E1 & Hb). apply read_one in Hb as (s2 & E2 & Hb).
  apply read_one in Hb as (s3 & E3 & Hb). apply read_one in Hb as (s4 & E4 & Hb).
  exists s4. split; [|done]. unfold fw_cfg_read_u32_be, mbind, dev_bind. rewrite E1, E2, E3, E4. unfold mret, dev_ret. f_equal.
  assert (0 <= z / 256 / 256 / 256 < 256) as Htop.
  { rewrite !Z.div_div by lia. split; [apply Z.div_pos|apply Z.div_lt_upper_bound]; lia. }
  rewrite (Z.mod_small (z / 256 / 256 / 256)) by done.
  set (b3 := z / 256 / 256 / 256) in *. set (b2 := (z / 256 / 256) mod 256). set (b1 := (z / 256) mod 256). set (b0 := z mod 256).
  pose proof (Z.mod_pos_bound (z / 256 / 256) 256 ltac:(lia)) as H2. pose proof (Z.mod_pos_bound (z / 256) 256 ltac:(lia)) as H1.
  pose proof (Z.mod_pos_bound z 256 ltac:(lia)) as H0'. fold b2 in H2. fold b1 in H1. fold b0 in H0'.
  assert (z = ((b3 * 256 + b2) * 256 + b1) * 256 + b0) as Hzz.
  { unfold b3, b2, b1, b0. pose proof (Z.div_mod (z / 256 / 256) 256). pose proof (Z.div_mod (z / 256) 256). pose proof (Z.div_mod z 256). lia. }
  rewrite <- !Z.lor_assoc. rewrite (lor_shiftl b1 b0 8) by lia. rewrite (lor_shiftl b2 (b1 * 2 ^ 8 + b0) 16) by lia.
  rewrite (lor_shiftl b3 _ 24) by lia. lia.
Qed.

Lemma scan_dir_spec (files : list DirFile) (name : list Z) (s : St) (items : Z -> list Z) (rest : list Z) :
  Forall dir_file_ok files -> before s items 0x19 (flat_map dir_file_bytes files ++ rest) ->
  let r := scan_dir (length files) name s in
  pt_items r.2 = items /\
  r.1 = (fun f => item_read (items (df_select f)) (df_size f)) <$> List.find (fun f => bool_decide (field_name (df_name f) = name)) files.
Proof.
  intros Hf. revert s. induction Hf as [|f files (Hs & Hsel & Hr & Hn) _ IH]; intros s Hb; [by split; [apply Hb|]|].
  cbv zeta. cbn [flat_map] in Hb. unfold dir_file_bytes at 1 in Hb. rewrite <- !app_assoc in Hb.
  apply read_u32_at in Hb as (s1 & E1 & Hb); [|done]. apply read_u16_at in Hb as (s2 & E2 & Hb); [|done].
  destruct (df_reserved f) as [|r1 [|r2 [|]]] eqn:Er; try (simpl in Hr; lia). cbn [app] in Hb.
  apply read_one in Hb as (s3 & E3 & Hb). apply read_one in Hb as (s4 & E4 & Hb).
  apply read_bytes_at in Hb as (s5 & E5 & Hb). rewrite Hn in E5.
  cbn [scan_dir length List.find]. unfold mbind, dev_bind. rewrite E1, E2. unfold fw_cfg_read_u16_be, mbind, dev_bind. rewrite E3, E4. unfold mret, dev_ret. rewrite E5.
  case_bool_decide as Hname; [|by apply IH].
  destruct Hb as [Hi _]. pose proof (select_before s5 items (df_select f) Hi) as Hb. unfold fw_cfg_select in *. simpl in Hb.
  pose proof (read_bytes_any (Z.to_nat (df_size f)) _ _ _ _ Hb) as Hd.
  assert (pt_items (read_bytes (Z.to_nat (df_size f)) (port_select (df_select f) s5)).2 = items) as Hit.
  { by eapply read_bytes_items. }
  destruct (read_bytes (Z.to_nat (df_size f)) _) as [data s6]. simpl in *. split; [done|]. by rewrite Hd.
Qed.

(** On a machine with the device, reading a file of the host returns the
    contents of the first directory entry with that name (with zeroes if the
    item is shorter than the directory says) or nothing if there is none, and
    never changes what the device holds. *)
Theorem read_file_correct (s : St) (files : list DirFile) (name sig_rest dir_rest : list Z) :
  pt_items s 0 = lit "QEMU" ++ sig_rest -> pt_items s 0x19 = dir_bytes files ++ dir_rest ->
  Forall dir_file_ok files -> 0 < len files <= 1000 ->
  let r := read_file X86_64 name s in
  pt_items r.2 = pt_items s /\
  r.1 = (fun f => item_read (pt_items s (df_select f)) (df_size f)) <$>
          List.find (fun f => bool_decide (field_name (df_name f) = name)) files.
Proof.
  intros Hq Hd Hf Hn. set (items := pt_items s). cbv zeta. unfold read_file, fw_cfg_available, mbind, dev_bind.
  pose proof (select_before s items 0 eq_refl) as Hb. unfold fw_cfg_select in *. simpl in Hb.
  unfold items in Hb at 2. rewrite Hq in Hb. apply read_bytes_at in Hb as (s1 & E1 & Hb). change (length (lit "QEMU")) with 4%nat in E1.
  rewrite E1. unfold mret, dev_ret. rewrite bool_decide_eq_true_2 by done.
  unfold read_file_raw, mbind, dev_bind, fw_cfg_select. destruct Hb as [Hi _].
  pose proof (select_before s1 items 0x19 Hi) as Hb. unfold fw_cfg_select in Hb. simpl in Hb.
  unfold items in Hb at 2. rewrite Hd in Hb. unfold dir_bytes in Hb. rewrite <- app_assoc in Hb.
  apply read_u32_at in Hb as (s2 & E2 & Hb); [|unfold u32_max; lia]. rewrite E2.
  rewrite (proj2 (Z.eqb_neq _ 0)), (proj2 (Z.ltb_ge _ _)) by lia. cbn [orb].
  replace (Z.to_nat (len files)) with (length files) by (unfold len; lia). by apply (scan_dir_spec files name s2 items dir_rest).
Qed.
End laws.

(** ** A device *)
Record SimCfg : Type := mkSimCfg { sim_items : Z -> list Z; sim_pos : Z * nat }.

#[export] Instance sim_port : FwCfgPort SimCfg := {
  port_select k s := mkSimCfg (sim_items s) (k, 0%nat);
  port_read s := (default 0 (sim_items s (sim_pos s).1 !! (sim_pos s).2), mkSimCfg (sim_items s) ((sim_pos s).1, S (sim_pos s).2))
}.

#[export] Instance sim_cfg_laws : FwCfgLaws SimCfg.
Proof. by refine {| pt_items := sim_items; pt_pos := sim_pos |}. Defined.

Definition padded_name (s : string) : list Z := lit s ++ replicate (56 - length (lit s)) 0.

Definition demo_files : list DirFile :=
  [mkDirFile 16 0x20 [0; 0] (padded_name "etc/vmgenid_guid"); mkDirFile 5 0x21 [0; 0] (padded_name "opt/lamboot/config")].

Definition demo_device : SimCfg :=
  mkSimCfg (fun k => if k =? 0 then lit "QEMU" else if k =? 0x19 then dir_bytes demo_files
                     else if k =? 0x20 then lit "0123456789abcdef" else if k =? 0x21 then lit "hello" else []) (0, 0%nat).

Lemma read_file_correct_witness :
  (read_file X86_64 (lit "opt/lamboot/config") demo_device).1 = Some (lit "hello") /\
  (read_file X86_64 (lit "opt/other") demo_device).1 = None.
Proof.
  assert (Forall dir_file_ok demo_files) as Hf by (repeat constructor; vm_compute; discriminate).
  split.
  - rewrite (proj2 (@read_file_correct SimCfg sim_port sim_cfg_laws demo_device demo_files (lit "opt/lamboot/config") [] [] ltac:(vm_compute; reflexivity) ltac:(vm_compute; reflexivity) Hf ltac:(vm_compute; split; [reflexivity|discriminate]))).
    vm_compute. reflexivity.
  - rewrite (proj2 (@read_file_correct SimCfg sim_port sim_cfg_laws demo_device demo_files (lit "opt/other") [] [] ltac:(vm_compute; reflexivity) ltac:(vm_compute; reflexivity) Hf ltac:(vm_compute; split; [reflexivity|discriminate]))).
    vm_compute. reflexivity.
Defined.

(** ** The object *)
(** The escapes the reader undoes. *)
Definition plain (c : Z) : Prop := 32 <= c \/ c = c_lf \/ c = c_cr \/ c = c_tab \/ c = 8 \/ c = 12.

Lemma read_value_escaped (v rest out : list Z) :
  Forall plain v -> out ++ v <> [] ->
  read_value (json_escape v ++ c_quote :: rest) false out = Some (out ++ v).
Proof.
  intros Hv. revert out. induction Hv as [|c v Hc _ IH]; intros out Hne.
  { simpl. rewrite app_nil_r in *. by destruct out. }
  assert (read_value (json_escape_char c ++ json_escape v ++ c_quote :: rest) false out =
          read_value (json_escape v ++ c_quote :: rest) false (out ++ [c])) as Hstep.
  { unfold json_escape_char, plain in *.
    repeat match goal with |- context [if ?a =? ?b then _ else _] => destruct (Z.eqb_spec a b) as [->|] end; try reflexivity.
    destruct (Z.ltb_spec c 32); [lia|]. cbn [app read_value].
    by rewrite (proj2 (Z.eqb_neq c c_backslash)), (proj2 (Z.eqb_neq c c_quote)) by done. }
  change (json_escape (c :: v)) with (json_escape_char c ++ json_escape v). rewrite <- app_assoc, Hstep, IH; [by rewrite <- app_assoc|by destruct out].
Qed.

Definition quoted (s : list Z) : list Z := [c_quote] ++ s ++ [c_quote].

(** A string member of the host's object is read back as it was written,
    whatever characters its value has (control characters without a short
    escape apart) and however it is spaced, provided its quoted key does not
    occur before it; an empty value counts as none. *)
Theorem config_field_read (l key ws1 ws2 v rest : list Z) :
  let input := l ++ quoted key ++ ws1 ++ [c_colon] ++ ws2 ++ quoted (json_escape v) ++ rest in
  find_sub (quoted key) input = Some (length l) ->
  Forall (fun c => is_whitespace c = true) ws1 -> Forall (fun c => is_whitespace c = true) ws2 -> Forall plain v ->
  extract_string_field input key = (if is_empty v then None else Some v).
Proof.
  intros input Hfind Hw1 Hw2 Hv. unfold extract_string_field. change ([c_quote] ++ key ++ [c_quote]) with (quoted key).
  rewrite Hfind. cbn [mbind option_bind]. cbv zeta.
  assert (drop (length l + length (quoted key)) input = ws1 ++ c_colon :: ws2 ++ quoted (json_escape v) ++ rest) as ->.
  { unfold input. rewrite (app_assoc l). rewrite <- length_app, drop_app_length. done. }
  assert (Forall (fun c => c_colon =? c = false) ws1) as Hnc.
  { eapply Forall_impl; [exact Hw1|]. intros c Hc. apply Z.eqb_neq. intros <-. vm_compute in Hc. discriminate. }
  rewrite find_char_app by (done || reflexivity). cbn [mbind option_bind]. rewrite drop_app_cons. unfold trim_start.
  rewrite drop_while_app by done. unfold quoted at 1. cbn [app drop_while]. change (is_whitespace c_quote) with false. cbn iota.
  change (c_quote =? c_quote) with true. cbn iota. rewrite <- app_assoc. cbn [app]. destruct v as [|c v].
  - reflexivity.
  - by rewrite (read_value_escaped (c :: v)) by done.
Qed.

Lemma config_field_read_witness :
  extract_string_field (lit "{" ++ quoted (lit "role") ++ lit ": " ++ quoted (lit "x\\y") ++ lit " }") (lit "role") = Some (lit "x\y").
Proof.
  apply (config_field_read (lit "{") (lit "role") [] (lit " ") (lit "x\y") (lit " }")).
  - reflexivity.
  - apply Forall_nil_2.
  - repeat constructor.
  - repeat (apply Forall_cons; split; [left; vm_compute; discriminate|]). apply Forall_nil_2.
Defined.

(** A member whose value is the name of another key hides that key: the host
    node is taken for the VM id. *)
Theorem value_taken_for_key :
  let object := lit "{" ++ quoted (lit "role") ++ lit ":" ++ quoted (lit "vmid") ++ lit ","
                ++ quoted (lit "hostname") ++ lit ":" ++ quoted (lit "pve2") ++ lit "}" in
  fwcfg_parse object = mkFwCfg None (Some (lit "pve2")) (Some (lit "vmid")) (Some (lit "pve2")).
Proof. vm_compute. reflexivity. Qed.
