(* ===== verification/Uki.v ===== *)
(** * Unified kernel images (uki.rs)

    The section table of a UKI and the metadata read from it.  [Err tt] is the
    code's [None]; indexing and slicing panic where Rust does. *)
From S2P Require Import Prelude RustStr Utf8 FsTypes SecurityOverride VolumeFs.
Local Open Scope Z_scope.

Definition SECTION_OSREL : list Z := lit ".osrel" ++ [0; 0].
Definition SECTION_CMDLINE : list Z := lit ".cmdline".
Definition SECTION_UNAME : list Z := lit ".uname" ++ [0; 0].

Record UkiMetadata : Type := mkUki {
  um_os_name : option (list Z);
  um_os_version : option (list Z);
  um_kernel_version : option (list Z);
  um_cmdline : option (list Z);
  um_machine : Z
}.

Record SectionLoc : Type := mkSectionLoc { sl_name : list Z; sl_offset : Z; sl_size : Z }.

(** ** Fixed-width readers, which index *)
Definition read_u16_le (data : list Z) (offset : Z) : res unit Z :=
  let? b0 := index offset data in
  let? b1 := index (offset + 1) data in
  Ok (from_le [b0; b1]).

Definition read_u32_le (data : list Z) (offset : Z) : res unit Z :=
  let? b0 := index offset data in
  let? b1 := index (offset + 1) data in
  let? b2 := index (offset + 2) data in
  let? b3 := index (offset + 3) data in
  Ok (from_le [b0; b1; b2; b3]).

(** The loop over the section headers [i, i + 1, ..., i + todo - 1]. *)
Fixpoint section_locs (header : list Z) (section_table : Z) (i : Z) (todo : nat) : res unit (list SectionLoc) :=
  match todo with
  | O => Ok []
  | S todo' =>
      let entry := section_table + i * 40 in
      let? name := slice entry (entry + 8) header in
      let? raw_size := read_u32_le header (entry + 16) in
      let? raw_offset := read_u32_le header (entry + 20) in
      let? rest := section_locs header section_table (i + 1) todo' in
      Ok (mkSectionLoc name raw_offset raw_size :: rest)
  end.

Definition parse_pe_section_table (header : list Z) : res unit (Z * list SectionLoc) :=
  if len header <? 64 then Err tt
  else
    let? magic := slice 0 2 header in
    guard? bool_decide (magic = [77; 90]) else tt in
    let? pe_offset := read_u32_le header 60 in
    guard? saturating_add usize_max pe_offset 24 <=? len header else tt in
    let? signature := slice pe_offset (pe_offset + 4) header in
    guard? bool_decide (signature = [80; 69; 0; 0]) else tt in
    let coff_offset := pe_offset + 4 in
    let? machine := read_u16_le header coff_offset in
    let? num_sections := read_u16_le header (coff_offset + 2) in
    let? opt_header_size := read_u16_le header (coff_offset + 16) in
    let section_table := coff_offset + 20 + opt_header_size in
    guard? saturating_add usize_max section_table (saturating_mul usize_max num_sections 40) <=? len header
      else tt in
    let? sections := section_locs header section_table 0 (Z.to_nat num_sections) in
    Ok (machine, sections).

(** ** os-release *)
Record OsReleaseInfo : Type := mkOsRelease {
  os_pretty_name : option (list Z);
  os_name : option (list Z);
  os_id : option (list Z);
  os_version_id : option (list Z)
}.

Definition or_else_opt {A : Type} (a b : option A) : option A :=
  match a with Some _ => a | None => b end.

Definition display_name (i : OsReleaseInfo) : option (list Z) :=
  or_else_opt (or_else_opt (os_pretty_name i) (os_name i)) (os_id i).
Definition display_version (i : OsReleaseInfo) : option (list Z) := os_version_id i.

Definition quoted_by (q : Z) (v : str) : bool := starts_with [q] v && ends_with [q] v.

(** [&value[1..value.len() - 1]] of a value that starts and ends with a quote:
    of a single quote character the range is [1..0], which panics. *)
Definition strip_quotes (value : str) : res unit (list Z) :=
  if quoted_by c_quote value || quoted_by c_squote value then
    if str_len value =? 1 then Panic else Ok (removelast (tail value))
  else Ok value.

Definition set_field (key value : list Z) (i : OsReleaseInfo) : OsReleaseInfo :=
  if bool_decide (key = lit "PRETTY_NAME") then mkOsRelease (Some value) (os_name i) (os_id i) (os_version_id i)
  else if bool_decide (key = lit "NAME") then mkOsRelease (os_pretty_name i) (Some value) (os_id i) (os_version_id i)
  else if bool_decide (key = lit "ID") then mkOsRelease (os_pretty_name i) (os_name i) (Some value) (os_version_id i)
  else if bool_decide (key = lit "VERSION_ID") then mkOsRelease (os_pretty_name i) (os_name i) (os_id i) (Some value)
  else i.

(** The key and the raw value of a line that assigns. *)
Definition os_assignment (line : str) : option (list Z * list Z) :=
  let line := trim line in
  if is_empty line || starts_with [c_hash] line then None
  else match split_once c_equals line with
       | Some (key, value) => Some (key, trim value)
       | None => None
       end.

Fixpoint os_lines (ls : list (list Z)) (i : OsReleaseInfo) : res unit OsReleaseInfo :=
  match ls with
  | [] => Ok i
  | line :: ls' =>
      match os_assignment line with
      | None => os_lines ls' i
      | Some (key, value) => let? v := strip_quotes value in os_lines ls' (set_field key v i)
      end
  end.

Definition os_blank : OsReleaseInfo := mkOsRelease None None None None.

(** The text that is parsed: the data, or its prefix up to the first byte that
    is not plain ASCII when the data is not UTF-8. *)
Definition os_release_text (data : list Z) : option (list Z) :=
  match from_utf8 data with
  | Some s => Some s
  | None =>
      from_utf8 (take_while (fun b => negb ((126 <? b) && negb (b =? c_lf) && negb (b =? c_cr) && negb (b =? c_tab)))
                   data)
  end.

Definition parse_os_release (data : list Z) : res unit OsReleaseInfo :=
  match os_release_text data with
  | Some text => os_lines (lines text) os_blank
  | None => Ok os_blank
  end.

Definition parse_os_release_text (text : str) : res unit (option (list Z) * option (list Z)) :=
  let? info := parse_os_release (str_bytes text) in
  Ok (display_name info, os_id info).

(** ** Metadata *)
Definition section_text (data : option (list Z)) : option (list Z) :=
  match data with
  | Some d => match from_utf8 d with
              | Some s => Some (trim (drop_while_end (Z.eqb 0) s))
              | None => None
              end
  | None => None
  end.

Definition build_metadata (machine : Z) (osrel cmdline uname : option (list Z)) : res unit UkiMetadata :=
  let? names :=
    (match osrel with
     | Some d => let? info := parse_os_release d in Ok (display_name info, display_version info)
     | None => Ok (None, None)
     end) in
  Ok (mkUki names.1 names.2 (section_text uname) (section_text cmdline) machine).

Record sections_read : Type := mkRead {
  sr_osrel : option (list Z); sr_cmdline : option (list Z); sr_uname : option (list Z) }.

(** [expr.ok()] *)
Definition ok_opt {E A : Type} (r : res E A) : res unit (option A) :=
  match r with Ok a => Ok (Some a) | Err _ => Ok None | Panic => Panic end.

Definition read_section (b : FsBackend) (path : str) (sec : SectionLoc) (r : sections_read)
    : res unit sections_read :=
  let data := ok_opt (read_at_str b path (sl_offset sec) (sl_size sec)) in
  if 65536 <? sl_size sec then Ok r
  else if bool_decide (sl_name sec = SECTION_OSREL) then
    let? d := data in Ok (mkRead d (sr_cmdline r) (sr_uname r))
  else if bool_decide (sl_name sec = SECTION_CMDLINE) then
    let? d := data in Ok (mkRead (sr_osrel r) d (sr_uname r))
  else if bool_decide (sl_name sec = SECTION_UNAME) then
    let? d := data in Ok (mkRead (sr_osrel r) (sr_cmdline r) d)
  else Ok r.

Fixpoint read_sections (b : FsBackend) (path : str) (secs : list SectionLoc) (r : sections_read)
    : res unit sections_read :=
  match secs with
  | [] => Ok r
  | sec :: secs' => let? r' := read_section b path sec r in read_sections b path secs' r'
  end.

Definition read_uki_metadata (b : FsBackend) (path : str) : res unit UkiMetadata :=
  let? header := ok_opt (read_at_str b path 0 4096) in
  match header with
  | None => Err tt
  | Some header =>
      let? table := parse_pe_section_table header in
      let? r := read_sections b path table.2 (mkRead None None None) in
      build_metadata table.1 (sr_osrel r) (sr_cmdline r) (sr_uname r)
  end.

(** ** Safety *)
(** A line that assigns a lone quote character. *)
Definition lone_quote (line : list Z) : bool :=
  match os_assignment line with
  | Some (_, v) => bool_decide (v = [c_quote]) || bool_decide (v = [c_squote])
  | None => false
  end.

Lemma starts_with_head (q : Z) (v : list Z) : starts_with [q] v = true -> exists r, v = q :: r.
Proof.
  unfold starts_with. intros [r H]%bool_decide_eq_true. destruct v as [|c v]; [done|].
  cbn in H. destruct (Z.eqb_spec q c) as [->|]; [by exists v|done].
Qed.

(** Every character takes a byte. *)
Lemma str_len_cons (c : Z) (s : list Z) : str_len s + 1 <= str_len (c :: s).
Proof.
  unfold str_len, str_bytes. cbn [flat_map]. rewrite len_app.
  pose proof (char_utf8_nonempty c). destruct (char_utf8 c); [done|]. rewrite len_cons.
  pose proof (len_nonneg l). lia.
Qed.

Lemma strip_quotes_panics (value : list Z) :
  strip_quotes value = Panic <-> value = [c_quote] \/ value = [c_squote].
Proof.
  unfold strip_quotes. split.
  - destruct (quoted_by c_quote value || quoted_by c_squote value) eqn:Hq; [|done].
    destruct (Z.eqb_spec (str_len value) 1) as [Hl|]; [|done]. intros _.
    apply orb_prop in Hq as [Hq|Hq]; apply andb_prop in Hq as [Hs _];
      apply starts_with_head in Hs as [r ->]; [left|right]; destruct r as [|x r]; [done| |done|];
      pose proof (str_len_cons x r); pose proof (len_nonneg (str_bytes r)); unfold str_len in *;
      match type of Hl with len (str_bytes (?q :: _)) = _ => pose proof (str_len_cons q (x :: r)) as H1 end;
      unfold str_len in H1; lia.
  - by intros [->| ->].
Qed.

Lemma os_lines_panics (ls : list (list Z)) (i : OsReleaseInfo) :
  os_lines ls i = Panic <-> Exists (fun l => lone_quote l = true) ls.
Proof.
  revert i. induction ls as [|l ls IH]; intros i; cbn [os_lines]; [split; [done|by intros ?%Exists_nil]|].
  rewrite Exists_cons. unfold lone_quote at 1. destruct (os_assignment l) as [[k v]|].
  - pose proof (strip_quotes_panics v) as Hp. destruct (strip_quotes v) as [w|e|] eqn:E; cbn [res_bind].
    + rewrite IH. split; [by right|]. intros [Hq|?]; [|done].
      rewrite orb_true_iff, !bool_decide_eq_true in Hq. by apply Hp in Hq.
    + unfold strip_quotes in E. destruct (_ || _); [|done]. by destruct (_ =? _).
    + split; [|done]. intros _. left. rewrite orb_true_iff, !bool_decide_eq_true. by apply Hp.
  - rewrite IH. split; [by right|]. by intros [?|?].
Qed.

(** A line of the text that assigns a lone quote character: what is between its
    first equals sign and its end is a quote with white space around it, and the
    line is no comment. *)
Definition assigns_lone_quote (line : list Z) : Prop :=
  exists key value, trim line = key ++ c_equals :: value /\ c_equals ∉ key /\ head key <> Some c_hash /\
    (trim value = [c_quote] \/ trim value = [c_squote]).

Definition os_release_bad (data : list Z) : Prop :=
  exists text, os_release_text data = Some text /\ Exists assigns_lone_quote (lines text).

Lemma split_once_cons (c x : Z) (s : list Z) :
  split_once c (x :: s) = if x =? c then Some ([], s) else prod_map (cons x) id <$> split_once c s.
Proof.
  unfold split_once. cbn [find_char]. rewrite (Z.eqb_sym c x). destruct (x =? c); [done|].
  by destruct (find_char (Z.eqb c) s).
Qed.

Lemma split_once_spec (c : Z) (s key value : list Z) :
  split_once c s = Some (key, value) <-> s = key ++ c :: value /\ c ∉ key.
Proof.
  revert key. induction s as [|x s IH]; intros key; [split; [done|intros [E _]; by destruct key]|].
  rewrite split_once_cons. destruct (Z.eqb_spec x c) as [->|Hx].
  - split; [intros [= <- <-]; split; [done|apply not_elem_of_nil]|].
    intros [E Hk]. destruct key as [|k key]; [by injection E as ->|]. injection E as -> _. destruct Hk. by left.
  - destruct key as [|y key].
    { split; [by destruct (split_once c s) as [[]|]|]. intros [E _]. by injection E. }
    transitivity (x = y /\ split_once c s = Some (key, value)).
    + destruct (split_once c s) as [[k v]|]; simpl; naive_solver.
    + rewrite IH, not_elem_of_cons. naive_solver.
Qed.

Lemma lone_quote_spec (line : list Z) : lone_quote line = true <-> assigns_lone_quote line.
Proof.
  unfold lone_quote, os_assignment, assigns_lone_quote. set (l := trim line).
  destruct (is_empty l || starts_with [c_hash] l) eqn:Es.
  { split; [done|]. intros (k & v & E & _ & Hh & _). exfalso. apply orb_prop in Es as [Es|Es].
    - rewrite E in Es. by destruct k.
    - apply starts_with_head in Es as [r Er]. rewrite Er in E. destruct k as [|x k]; [by injection E|].
      injection E as <- _. by apply Hh. }
  destruct (split_once c_equals l) as [[k v]|] eqn:E.
  - pose proof E as [El Hk]%split_once_spec. rewrite orb_true_iff, !bool_decide_eq_true. split.
    + intros Hv. exists k, v. split_and!; [done..| |done]. intros Hh. destruct k as [|x k]; [done|].
      injection Hh as ->. apply orb_false_elim in Es as [_ Es]. rewrite El in Es.
      unfold starts_with in Es. by rewrite bool_decide_true in Es by (cbn; by eexists).
    + intros (k' & v' & E' & Hk' & _ & Hv). rewrite (proj2 (split_once_spec _ _ _ _) (conj E' Hk')) in E.
      by injection E as -> ->.
  - split; [done|]. intros (k & v & E' & Hk & _). by rewrite (proj2 (split_once_spec _ _ _ _) (conj E' Hk)) in E.
Qed.

Lemma parse_os_release_panics (data : list Z) :
  parse_os_release data = Panic <-> os_release_bad data.
Proof.
  unfold parse_os_release, os_release_bad. destruct (os_release_text data) as [text|]; [|naive_solver].
  rewrite os_lines_panics, !Exists_exists. setoid_rewrite lone_quote_spec.
  rewrite <- Exists_exists. split; [by eauto|]. by intros (? & [= <-] & ?).
Qed.

Lemma parse_os_release_not_err (data : list Z) (e : unit) : parse_os_release data <> Err e.
Proof.
  unfold parse_os_release. destruct (os_release_text data) as [text|]; [|done].
  generalize (lines text), os_blank. intros ls. induction ls as [|l ls IH]; intros i; [done|]. cbn [os_lines].
  destruct (os_assignment l) as [[k v]|]; [|apply IH]. unfold strip_quotes.
  destruct (_ || _); [destruct (_ =? _)|]; simpl; [done|apply IH..].
Qed.

(** *** The section table by its layout *)
(** The little-endian integer of [n] bytes at [at_]. *)
Definition word (n at_ : Z) (b : list Z) : Z := from_le (sub_list at_ (at_ + n) b).

(** The COFF header is behind the signature at [pe], the optional header behind
    it, and then the table with 40 bytes for each section. *)
Definition table_at (h : list Z) : Z := let pe := word 4 60 h in pe + 24 + word 2 (pe + 20) h.

Definition has_table (h : list Z) : Prop :=
  let pe := word 4 60 h in
  64 <= len h /\ sub_list 0 2 h = [77; 90] /\ pe + 24 <= len h /\ sub_list pe (pe + 4) h = [80; 69; 0; 0] /\
  table_at h + 40 * word 2 (pe + 6) h <= len h.

#[local] Instance has_table_dec (h : list Z) : Decision (has_table h).
Proof. unfold has_table. apply _. Defined.

Definition section_row (h : list Z) (i : Z) : SectionLoc :=
  let row := table_at h + 40 * i in
  mkSectionLoc (sub_list row (row + 8) h) (word 4 (row + 20) h) (word 4 (row + 16) h).

Definition table_rows (h : list Z) : list SectionLoc := section_row h <$> seqZ 0 (word 2 (word 4 60 h + 6) h).

(** The last section of at most 64 KiB with the name [.osrel]. *)
Definition osrel_row (h : list Z) : option SectionLoc :=
  last (filter (fun r => sl_name r = [46; 111; 115; 114; 101; 108; 0; 0] /\ sl_size r <= 65536) (table_rows h)).

Lemma sub_list_cons {A : Type} (at_ n : Z) (l : list A) (a : A) :
  0 <= at_ -> 0 < n -> l !! Z.to_nat at_ = Some a -> sub_list at_ (at_ + n) l = a :: sub_list (at_ + 1) (at_ + 1 + (n - 1)) l.
Proof.
  intros H0 Hn Ha. unfold sub_list. replace (Z.to_nat (at_ + n - at_)) with (S (Z.to_nat (n - 1))) by lia.
  replace (Z.to_nat (at_ + 1 + (n - 1) - (at_ + 1))) with (Z.to_nat (n - 1)) by lia.
  rewrite (drop_S _ _ _ Ha). simpl. by replace (Z.to_nat (at_ + 1)) with (S (Z.to_nat at_)) by lia.
Qed.

Lemma index_in_list {A : Type} (i : Z) (l : list A) :
  0 <= i < len l -> exists a, @index unit A i l = Ok a /\ l !! Z.to_nat i = Some a.
Proof.
  intros Hi. unfold index. rewrite (proj2 (Z.leb_le 0 i)) by lia.
  destruct (lookup_lt_is_Some_2 l (Z.to_nat i)) as [a Ha]; [unfold len in Hi; lia|]. rewrite Ha. eauto.
Qed.

(** Reading the next byte of a word. *)
Ltac next_byte at_ a H :=
  match goal with |- context [index at_ ?l] =>
    destruct (index_in_list at_ l) as (a & -> & H); [lia|]; cbn [res_bind]
  end.

Lemma u16_word (data : list Z) (at_ : Z) :
  0 <= at_ -> at_ + 2 <= len data -> read_u16_le data at_ = Ok (word 2 at_ data).
Proof.
  intros H0 Hl. unfold read_u16_le, word. next_byte at_ a Ha. next_byte (at_ + 1) b Hb.
  rewrite (sub_list_cons at_ 2 data a), (sub_list_cons (at_ + 1) (2 - 1) data b) by (done || lia).
  do 4 f_equal. unfold sub_list. by replace (Z.to_nat _) with 0%nat by lia.
Qed.

Lemma u32_word (data : list Z) (at_ : Z) :
  0 <= at_ -> at_ + 4 <= len data -> read_u32_le data at_ = Ok (word 4 at_ data).
Proof.
  intros H0 Hl. unfold read_u32_le, word. next_byte at_ a Ha. next_byte (at_ + 1) b Hb.
  next_byte (at_ + 2) c Hc. next_byte (at_ + 3) d Hd.
  replace (at_ + 2) with (at_ + 1 + 1) in Hc by lia. replace (at_ + 3) with (at_ + 1 + 1 + 1) in Hd by lia.
  rewrite (sub_list_cons at_ 4 data a), (sub_list_cons (at_ + 1) (4 - 1) data b), (sub_list_cons (at_ + 1 + 1) (4 - 1 - 1) data c),
    (sub_list_cons (at_ + 1 + 1 + 1) (4 - 1 - 1 - 1) data d) by (done || lia).
  do 6 f_equal. unfold sub_list. by replace (Z.to_nat _) with 0%nat by lia.
Qed.

Lemma word_bound (n at_ : Z) (data : list Z) : Forall is_byte data -> 0 <= n -> 0 <= word n at_ data < 256 ^ n.
Proof.
  intros Hb Hn. unfold word. pose proof (from_le_bound (sub_list at_ (at_ + n) data) (Forall_sub_list _ _ _ _ Hb)) as H.
  split; [lia|]. eapply Z.lt_le_trans; [apply H|]. apply Z.pow_le_mono_r; [lia|].
  unfold sub_list. rewrite length_take. lia.
Qed.

Lemma section_locs_rows (h : list Z) (i : Z) (todo : nat) :
  0 <= table_at h -> 0 <= i -> table_at h + 40 * (i + Z.of_nat todo) <= len h ->
  section_locs h (table_at h) i todo = Ok (section_row h <$> seqZ i (Z.of_nat todo)).
Proof.
  intros Ht. revert i. induction todo as [|todo IH]; intros i Hi Hl; [done|]. cbn [section_locs].
  replace (table_at h + i * 40) with (table_at h + 40 * i) by lia.
  rewrite slice_ok by lia. cbn [res_bind]. rewrite !u32_word by lia. cbn [res_bind]. rewrite IH by lia. cbn [res_bind].
  rewrite (seqZ_cons i) by lia. cbn [fmap list_fmap]. by replace (Z.pred (Z.of_nat (S todo))) with (Z.of_nat todo) by lia.
Qed.

(** The parser accepts exactly the headers with a table in them and returns its
    rows. *)
Lemma parse_table_spec (h : list Z) :
  Forall is_byte h -> len h <= isize_max ->
  parse_pe_section_table h = if decide (has_table h) then Ok (word 2 (word 4 60 h + 4) h, table_rows h) else Err tt.
Proof.
  intros Hb Hmax. unfold isize_max in Hmax. unfold parse_pe_section_table, has_table.
  destruct (Z.ltb_spec (len h) 64); [rewrite decide_False by lia; done|].
  rewrite slice_ok by lia. cbn [res_bind]. rewrite u32_word by lia. cbn [res_bind].
  case_bool_decide; [|rewrite decide_False by (cbv zeta; tauto); done].
  pose proof (word_bound 4 60 h Hb ltac:(lia)) as Hpe. set (pe := word 4 60 h) in *.
  unfold saturating_add, saturating_mul, usize_max, u64_max.
  destruct (Z.leb_spec (Z.min 18446744073709551615 (pe + 24)) (len h)); [|rewrite decide_False by lia; done].
  rewrite slice_ok by lia. cbn [res_bind]. case_bool_decide as Hsig; [|rewrite decide_False by (cbv zeta; tauto); done].  rewrite !u16_word by lia. cbn [res_bind].
  replace (pe + 4 + 2) with (pe + 6) by lia. replace (pe + 4 + 16) with (pe + 20) by lia.
  replace (pe + 4 + 20 + word 2 (pe + 20) h) with (table_at h) by (unfold table_at; fold pe; lia).
  pose proof (word_bound 2 (pe + 6) h Hb ltac:(lia)) as Hn. pose proof (word_bound 2 (pe + 20) h Hb ltac:(lia)) as Ho.
  assert (0 <= table_at h) as Ht by (unfold table_at; fold pe; lia).
  destruct (Z.leb_spec (Z.min 18446744073709551615 (table_at h + Z.min 18446744073709551615 (word 2 (pe + 6) h * 40))) (len h));
    [|rewrite decide_False by lia; done].
  rewrite section_locs_rows by lia. rewrite decide_True by (split_and!; first [done|lia]). cbn [res_bind]. unfold table_rows. fold pe.
  by rewrite Z2Nat.id by lia.
Qed.

(** *** What is read *)
Definition read_ok (b : FsBackend) (path : list Z) (s : SectionLoc) : option (list Z) :=
  res_ok (read_at_str b path (sl_offset s) (sl_size s)).

Lemma read_sections_osrel (b : FsBackend) (path : list Z) (secs : list SectionLoc) (r : sections_read) :
  (forall o n, read_at_str b path o n <> Panic) ->
  exists r', read_sections b path secs r = Ok r' /\
    sr_osrel r' = match last (filter (fun s => sl_name s = [46; 111; 115; 114; 101; 108; 0; 0] /\ sl_size s <= 65536) secs) with
                  | Some s => read_ok b path s
                  | None => sr_osrel r
                  end.
Proof.
  intros Hb. induction secs as [|s secs IH] using rev_ind; [by exists r|]. destruct IH as (r1 & E1 & Er1).
  assert (read_sections b path (secs ++ [s]) r = (let? r1 := read_sections b path secs r in read_section b path s r1)) as ->.
  { clear. revert r. induction secs as [|x secs IH]; intros r; cbn [app read_sections].
    - cbn [res_bind]. by destruct (read_section b path s r).
    - destruct (read_section b path x r); [apply IH|done..]. }
  rewrite E1. cbn [res_bind]. rewrite filter_app, filter_cons, filter_nil.
  change [46; 111; 115; 114; 101; 108; 0; 0] with SECTION_OSREL in *. unfold read_section, read_ok.
  specialize (Hb (sl_offset s) (sl_size s)).
  destruct (Z.ltb_spec 65536 (sl_size s)).
  { rewrite decide_False by lia. rewrite app_nil_r. eauto. }
  case_bool_decide as Hn.
  - rewrite decide_True by done. rewrite last_snoc. destruct (read_at_str b path _ _) as [d| |]; [|by eexists|done]. by eexists.
  - rewrite decide_False by naive_solver. rewrite app_nil_r.
    repeat case_bool_decide; destruct (read_at_str b path _ _); try done; by eexists.
Qed.


(** A UKI with one section, [.osrel], whose content is [NAME] and a lone quote. *)
Definition bad_osrel : list Z := lit "NAME=" ++ [c_quote].
Definition bad_uki : list Z :=
  [77; 90] ++ replicate 58 0 ++ to_le 4 64 ++ [80; 69; 0; 0] ++ to_le 2 34404 ++ to_le 2 1 ++ replicate 12 0
  ++ to_le 2 0 ++ to_le 2 0
  ++ SECTION_OSREL ++ to_le 4 6 ++ to_le 4 0 ++ to_le 4 6 ++ to_le 4 128 ++ replicate 16 0 ++ bad_osrel.

(** Looking at such a file panics: one file on the ESP stops the boot loader. *)
Theorem uki_lone_quote_panics :
  read_uki_metadata (one_file (lit "/EFI/Linux/a.efi") bad_uki) (lit "/EFI/Linux/a.efi") = Panic.
Proof. vm_compute. reflexivity. Qed.

Lemma bad_uki_reads (o n : Z) :
  read_at_str (one_file (lit "/EFI/Linux/a.efi") bad_uki) (lit "/EFI/Linux/a.efi") o n =
  Ok (take (Z.to_nat n) (drop (Z.to_nat o) bad_uki)).
Proof. reflexivity. Qed.

