(* ===== verification/IsoBoot.v ===== *)
(** * Resolving the kernel of an ISO (distro_iso.rs, loopback_cfg.rs) *)
From S2P Require Import Prelude Compare RustStr VersionOrder BlsParse.
Local Open Scope Z_scope.

(** ** Distro recipes *)
Record DistroRecipe : Type := mkRecipe {
  dr_family : list Z;
  dr_markers : list (list Z);
  dr_kernel : list (list Z);
  dr_initrd : list (list Z);
  dr_media_cmdline : list Z;
  dr_file_cmdline : list Z
}.

Definition TABLE : list DistroRecipe := [
  {| dr_family := lit "arch";
     dr_markers := [lit "/arch/boot"];
     dr_kernel := [lit "/arch/boot/x86_64/vmlinuz-linux"; lit "/arch/boot/vmlinuz-linux"];
     dr_initrd := [lit "/arch/boot/intel-ucode.img"; lit "/arch/boot/amd-ucode.img";
                   lit "/arch/boot/x86_64/initramfs-linux.img"];
     dr_media_cmdline := lit "archisobasedir=arch archisolabel={label}";
     dr_file_cmdline := lit "archisobasedir=arch img_loop={iso} earlymodules=loop" |};
  {| dr_family := lit "ubuntu-casper";
     dr_markers := [lit "/casper"];
     dr_kernel := [lit "/casper/vmlinuz"; lit "/casper/vmlinuz.efi"];
     dr_initrd := [lit "/casper/initrd"; lit "/casper/initrd.lz"; lit "/casper/initrd.gz"];
     dr_media_cmdline := lit "boot=casper";
     dr_file_cmdline := lit "boot=casper iso-scan/filename={iso}" |};
  {| dr_family := lit "debian-live";
     dr_markers := [lit "/live"];
     dr_kernel := [lit "/live/vmlinuz*"; lit "/live/vmlinuz"];
     dr_initrd := [lit "/live/initrd.img*"; lit "/live/initrd.img"];
     dr_media_cmdline := lit "boot=live components";
     dr_file_cmdline := lit "boot=live components findiso={iso}" |};
  {| dr_family := lit "fedora";
     dr_markers := [lit "/LiveOS/squashfs.img"];
     dr_kernel := [lit "/images/pxeboot/vmlinuz"; lit "/boot/x86_64/loader/linux"; lit "/isolinux/vmlinuz"];
     dr_initrd := [lit "/images/pxeboot/initrd.img"; lit "/boot/x86_64/loader/initrd";
                   lit "/isolinux/initrd.img"];
     dr_media_cmdline := lit "root=live:CDLABEL={label} rd.live.image";
     dr_file_cmdline := lit "root=live:CDLABEL={label} rd.live.image iso-scan/filename={iso}" |};
  {| dr_family := lit "opensuse";
     dr_markers := [lit "/boot/x86_64/loader"];
     dr_kernel := [lit "/boot/x86_64/loader/linux"];
     dr_initrd := [lit "/boot/x86_64/loader/initrd"];
     dr_media_cmdline := lit "root=live:CDLABEL={label}";
     dr_file_cmdline := lit "root=live:CDLABEL={label} iso-scan/filename={iso}" |};
  {| dr_family := lit "alpine";
     dr_markers := [lit "/apks"];
     dr_kernel := [lit "/boot/vmlinuz-lts"; lit "/boot/vmlinuz-virt"];
     dr_initrd := [lit "/boot/initramfs-lts"; lit "/boot/initramfs-virt"];
     dr_media_cmdline := lit "alpine_dev=cdrom:iso9660 modules=loop,squashfs,sd-mod,usb-storage quiet";
     dr_file_cmdline := lit "modules=loop,squashfs,sd-mod,usb-storage quiet" |}
].

Definition fingerprint (exists_ : str -> bool) : option DistroRecipe :=
  List.find (fun r => forallb exists_ (dr_markers r)) TABLE.

Definition split_glob (candidate : str) : option (list Z * list Z) :=
  match strip_suffix [c_star] candidate with
  | Some stripped => rsplit_once c_slash stripped
  | None => None
  end.

(** [Iterator::max]: the last of the greatest. *)
Fixpoint str_max (acc : list Z) (l : list (list Z)) : list Z :=
  match l with
  | [] => acc
  | x :: l' => str_max (match str_cmp acc x with Gt => acc | _ => x end) l'
  end.

Definition glob_pick (names : list (list Z)) (prefix : str) : option (list Z) :=
  match List.filter (starts_with prefix) names with
  | [] => None
  | x :: l => Some (str_max x l)
  end.

Definition escape_label (label : str) : list Z := replace_char c_space (lit "\x20") label.

Definition render_cmdline (template iso_path label : str) : list Z :=
  replace_sub (lit "{label}") (escape_label label) (replace_sub (lit "{iso}") iso_path template).

(** ** loopback.cfg *)
Record LoopbackEntry : Type := mkLoopback {
  lb_kernel : list Z;
  lb_initrd : list Z;
  lb_options : list Z
}.

Definition first_word (line : str) : list Z :=
  match split_whitespace line with w :: _ => w | [] => [] end.

Fixpoint strip_kw (line : str) (kws : list (list Z)) : option (list Z) :=
  match kws with
  | [] => None
  | kw :: kws' =>
      match strip_prefix kw line with
      | Some (c :: rest) => if is_whitespace c then Some (trim_start (c :: rest)) else strip_kw line kws'
      | _ => strip_kw line kws'
      end
  end.

Definition count_braces (line : str) : Z :=
  foldr (fun c n => (if c =? c_lbrace then 1 else if c =? c_rbrace then -1 else 0) + n) 0 line.

Definition substitute_iso_path (args iso_path : str) : list Z :=
  replace_sub (lit "$iso_path") iso_path (replace_sub (lit "${iso_path}") iso_path args).

Definition linux_kws : list (list Z) := [lit "linux"; lit "linux16"; lit "linuxefi"].
Definition initrd_kws : list (list Z) := [lit "initrd"; lit "initrd16"; lit "initrdefi"].

(** The variables of the loop in [parse_first_menuentry]. *)
Record menu_state : Type := mkMenu {
  ms_started : bool;
  ms_depth : Z;
  ms_saw_open : bool;
  ms_kernel : option (list Z * list Z);
  ms_initrd : option (list Z)
}.

(** [rest.splitn(2, char::is_whitespace)]: the text before the first white
    space, and what follows that one character. *)
Definition splitn_ws (s : str) : list Z * list Z :=
  match find_char is_whitespace s with
  | Some i => (take i s, drop (S i) s)
  | None => (s, [])
  end.

Definition kernel_of_line (line : str) : option (list Z * list Z) :=
  match strip_kw line linux_kws with
  | Some rest =>
      let '(path, args) := splitn_ws rest in
      if is_empty path then None else Some (path, trim args)
  | None => None
  end.

Definition initrd_of_line (line : str) : option (list Z) :=
  match strip_kw line initrd_kws with
  | Some rest => match split_whitespace rest with p :: _ => Some p | [] => None end
  | None => None
  end.

(** One line inside or before the block; [true] in the result means [break]. *)
Definition menu_line (ms : menu_state) (raw : str) : menu_state * bool :=
  let line := trim raw in
  if is_empty line || starts_with [c_hash] line then (ms, false)
  else if negb (ms_started ms) then
    if bool_decide (first_word line = lit "menuentry") || bool_decide (first_word line = lit "submenu") then
      let depth := ms_depth ms + count_braces line in
      (mkMenu true depth (0 <? depth) (ms_kernel ms) (ms_initrd ms), false)
    else (ms, false)
  else
    let kernel := match ms_kernel ms with Some k => Some k | None => kernel_of_line line end in
    let initrd := match ms_initrd ms with Some i => Some i | None => initrd_of_line line end in
    let depth := ms_depth ms + count_braces line in
    let saw_open := ms_saw_open ms || (0 <? depth) in
    (mkMenu true depth saw_open kernel initrd,
     (saw_open && (depth <=? 0)) || (is_some kernel && is_some initrd)).

Fixpoint menu_loop (ms : menu_state) (ls : list (list Z)) : menu_state :=
  match ls with
  | [] => ms
  | l :: ls' => let '(ms', stop) := menu_line ms l in if stop then ms' else menu_loop ms' ls'
  end.

Definition parse_first_menuentry (cfg iso_path : str) : option LoopbackEntry :=
  let ms := menu_loop (mkMenu false 0 false None None) (lines cfg) in
  match ms_kernel ms, ms_initrd ms with
  | Some (kernel, args), Some initrd => Some (mkLoopback kernel initrd (substitute_iso_path args iso_path))
  | _, _ => None
  end.

(** ** Properties *)
Lemma str_max_spec (l : list (list Z)) (acc : list Z) :
  str_max acc l ∈ acc :: l /\ Forall (fun x => str_cmp x (str_max acc l) <> Gt) (acc :: l).
Proof.
  revert acc. induction l as [|x l IH]; intros acc; simpl.
  { split; [by left|]. constructor; [by rewrite (cmp_refl str_cmp)|constructor]. }
  destruct (IH (match str_cmp acc x with Gt => acc | _ => x end)) as [Hin Hmax].
  apply Forall_cons in Hmax as [Ha Hl].
  assert (str_cmp x (match str_cmp acc x with Gt => acc | _ => x end) <> Gt /\
          str_cmp acc (match str_cmp acc x with Gt => acc | _ => x end) <> Gt) as [Hx Hacc].
  { destruct (str_cmp acc x) eqn:E; rewrite ?(cmp_refl str_cmp), ?E; [done|done|].
    split; [|done]. rewrite (cmp_opp str_cmp), E. done. }
  split.
  - destruct (str_cmp acc x); set_solver.
  - repeat constructor; [..|done]; eapply (cmp_le_trans str_cmp); eauto.
Qed.

(** The glob of a recipe picks an entry of the directory with the wanted
    prefix, no other such entry is lexicographically greater, and it fails only
    when the directory has none. *)
Theorem glob_pick_correct (names : list (list Z)) (prefix : list Z) :
  match glob_pick names prefix with
  | Some n => n ∈ names /\ starts_with prefix n = true /\
              forall m, m ∈ names -> starts_with prefix m = true -> str_cmp m n <> Gt
  | None => forall m, m ∈ names -> starts_with prefix m = false
  end.
Proof.
  unfold glob_pick.
  assert (forall m, m ∈ List.filter (starts_with prefix) names <-> m ∈ names /\ starts_with prefix m = true) as Hf.
  { intros m. rewrite !list_elem_of_In, filter_In. done. }
  destruct (List.filter (starts_with prefix) names) as [|x l].
  - intros m Hm. destruct (starts_with prefix m) eqn:E; [|done].
    exfalso. by eapply not_elem_of_nil, Hf.
  - destruct (str_max_spec l x) as [Hin Hmax]. apply Hf in Hin as [Hn Hs]. split_and!; [done|done|].
    intros m Hm Hp. rewrite Forall_forall in Hmax. apply Hmax, Hf. done.
Qed.

(** The greatest name is not the newest version. *)
Theorem glob_pick_not_newest :
  glob_pick [lit "vmlinuz-6.1.0-9-amd64"; lit "vmlinuz-6.1.0-10-amd64"] (lit "vmlinuz")
    = Some (lit "vmlinuz-6.1.0-9-amd64") /\
  version_compare (lit "vmlinuz-6.1.0-9-amd64") (lit "vmlinuz-6.1.0-10-amd64") = Lt.
Proof. vm_compute. done. Qed.

(** A bootable second entry is not found when the first has no initrd. *)
Theorem loopback_second_entry_ignored :
  parse_first_menuentry
    (lit "menuentry 'memtest' {" ++ [c_lf] ++ lit "linux /memtest" ++ [c_lf] ++ lit "}" ++ [c_lf]
     ++ lit "menuentry 'live' {" ++ [c_lf] ++ lit "linux /vmlinuz ro" ++ [c_lf] ++ lit "initrd /initrd" ++ [c_lf]
     ++ lit "}" ++ [c_lf]) (lit "/x.iso") = None.
Proof. vm_compute. done. Qed.
