(* ===== verification/BootFlow.v ===== *)
(** * Booting an entry (boot.rs)

    Measure, verify, load, hand over.  The functions run in a monad over the
    trust log, its files, the state of the security override and a trace of
    what was asked of the firmware, the TPM and shim.  Everything outside the
    program is a field of [Env]; volumes
    answer reads from fixed contents.  Diagnostic breadcrumbs and console
    output are left out.  An image that takes the machine over ends the run
    with [Taken]. *)
From S2P Require Import Prelude Compare RustStr Utf8 VersionOrder BlsParse PeLoader PeLoad FsTypes BootTypes Policy TrustLog SecureBoot SecurityOverride Tpm VolumeFs IsoBoot.
Local Open Scope Z_scope.

Record Env : Type := mkEnv {
  env_target : target_arch;
  env_pe : Firmware;                                   (* pages, protocols, SHA-256 *)
  env_tpm : Tpm;
  env_shim : Shim;                                     (* as it is at verify time *)
  env_security : SecurityFw;                           (* the authentication services *)
  env_load_image : list Z -> fw_prog Z;                (* BS->LoadImage from a buffer *)
  env_open_loaded_image : Z -> res Status unit;
  env_start_image : Z -> fw_prog unit;                 (* BS->StartImage *)
  env_entry : Z -> Z -> option Z;                      (* the native entry point *)
  env_cstring16 : list Z -> option (list Z);           (* with its NUL *)
  env_register_initrd : list Z -> bool;
  env_mount_iso : Volume -> list Z -> res Status Volume;
  env_mount_optical : Z -> res Status Volume;
  env_fat : bool;                                      (* the ESP takes an [EspWriter] *)
  env_append : appender                                (* and what its appends come to *)
}.

(** What the run asked of the outside, in order. *)
Inductive action : Type :=
  | ATrust (ev : TrustEvent)
  | AMeasure (m : Measurement) (ok : bool)
  | AShimVerify (bytes : list Z) (ok : bool)
  | APe (effects : list pe_effect)
  | ALoadImage (bytes : list Z) (handle : option Z)
  | AInitrd (bytes : list Z)
  | ASetOptions (handle : Z) (options : list Z)
  | AStartNative (bytes options : list Z)
  | AStartFirmware (bytes : list Z) (handle : Z)
  | AStartDriver (path bytes : list Z) (handle : Z)
  | AConnect (handle : Z).

Record BState : Type := mkBState {
  bs_log : TrustLog;
  bs_disk : LogFiles;
  bs_ov : Override;
  bs_trace : list action
}.

Inductive outcome (A : Type) : Type :=
  | Ret (a : A)
  | Fail (e : Status)
  | Taken
  | Panicked.
Arguments Ret {A} a.
Arguments Fail {A} e.
Arguments Taken {A}.
Arguments Panicked {A}.

Definition M (A : Type) : Type := BState -> outcome A * BState.

#[export] Instance M_ret : MRet M := fun A a s => (Ret a, s).
#[export] Instance M_bind : MBind M := fun A B k m s =>
  match m s with
  | (Ret a, s') => k a s'
  | (Fail e, s') => (Fail e, s')
  | (Taken, s') => (Taken, s')
  | (Panicked, s') => (Panicked, s')
  end.

Definition fail {A : Type} (e : Status) : M A := fun s => (Fail e, s).
Definition taken {A : Type} : M A := fun s => (Taken, s).
Definition panicked {A : Type} : M A := fun s => (Panicked, s).

(** [expr?] for a result of the outside. *)
Definition try {A : Type} (r : res Status A) : M A :=
  match r with Ok a => mret a | Err e => fail e | Panic => panicked end.

Definition act (a : action) : M unit := fun s =>
  (Ret tt, mkBState (bs_log s) (bs_disk s) (bs_ov s) (bs_trace s ++ [a])).

Definition trust (ev : TrustEvent) : M unit := fun s =>
  (Ret tt, mkBState (record ev (bs_log s)) (bs_disk s) (bs_ov s) (bs_trace s ++ [ATrust ev])).

Section flow.
Context (env : Env).

Definition flush_log : M unit := fun s =>
  let '(t, disk) := flush (env_fat env) (env_append env) (bs_log s) (bs_disk s) in
  (Ret tt, mkBState t disk (bs_ov s) (bs_trace s)).

(** [if !quirks.conout_fat_coupling { trust_log.flush(esp) }] *)
Definition flush_unless (conout_fat_coupling : bool) : M unit :=
  if negb conout_fat_coupling then flush_log else mret tt.

Definition sha256_of (bytes : list Z) : list Z := fw_sha256 (env_pe env) bytes.

(** [format!("{s:?}")] of a string without characters to escape. *)
Definition debug_str (s : str) : list Z := [c_quote] ++ s ++ [c_quote].

(** The derived [Debug] of [PeLoadError]. *)
Definition pe_error_debug (e : PeLoadError) : list Z :=
  let tuple name v := lit name ++ [c_lparen] ++ v ++ [c_rparen] in
  let struct name k1 v1 k2 v2 :=
    lit name ++ lit " { " ++ lit k1 ++ lit ": " ++ v1 ++ lit ", " ++ lit k2 ++ lit ": " ++ v2 ++ lit " }" in
  match e with
  | TooShort have need => struct "TooShort"%string "have"%string (fmt_dec have) "need"%string (fmt_dec need)
  | BadDosSignature => lit "BadDosSignature"
  | NtOffsetOutOfBounds o => tuple "NtOffsetOutOfBounds"%string (fmt_dec o)
  | BadNtSignature => lit "BadNtSignature"
  | UnsupportedMachine m => tuple "UnsupportedMachine"%string (fmt_dec m)
  | UnsupportedPe32 => lit "UnsupportedPe32"
  | BadOptionalHeaderMagic m => tuple "BadOptionalHeaderMagic"%string (fmt_dec m)
  | UnsupportedSubsystem x => tuple "UnsupportedSubsystem"%string (fmt_dec x)
  | ImageTooLarge c m => struct "ImageTooLarge"%string "claimed"%string (fmt_dec c) "max"%string (fmt_dec m)
  | TooManySections c m => struct "TooManySections"%string "claimed"%string (fmt_dec c) "max"%string (fmt_dec m)
  | HasImports => lit "HasImports"
  | HasTlsCallbacks => lit "HasTlsCallbacks"
  | SectionOutOfBounds i d =>
      struct "SectionOutOfBounds"%string "section_index"%string (fmt_dec i) "detail"%string (debug_str (lit d))
  | RelocationMalformed d => tuple "RelocationMalformed"%string (debug_str (lit d))
  | UnsupportedRelocationType x => tuple "UnsupportedRelocationType"%string (fmt_dec x)
  | EntryPointOutOfBounds => lit "EntryPointOutOfBounds"
  | ParseFailed d => tuple "ParseFailed"%string (debug_str (lit d))
  end.

Definition size_note (n : Z) : list Z := lit "size=" ++ fmt_dec n.

Definition measure_kernel_logged (data path : list Z) : M unit :=
  let ok := measure_kernel (env_tpm env) data in
  _ ← act (AMeasure (kernel_measurement data) ok);
  if ok
  then trust (with_note (lit "pcr=4") (with_path path (event_new (lit "kernel_measured"))))
  else trust (with_note (lit "pcr=4 reason=no_tpm_or_tcg2_error")
                (with_path path (event_new (lit "kernel_measurement_skipped")))).

Definition measure_cmdline_logged (options path : list Z) : M unit :=
  let ok := measure_cmdline (env_tpm env) options in
  _ ← act (AMeasure (cmdline_measurement options) ok);
  if ok
  then trust (with_note (lit "pcr=12") (with_path path (event_new (lit "cmdline_measured"))))
  else trust (with_note (lit "pcr=12 reason=no_tpm_or_tcg2_error")
                (with_path path (event_new (lit "cmdline_measurement_skipped")))).

(** ** Verification *)
Record VerifiedBytes : Type := mkVerified {
  vb_bytes : list Z;
  vb_sha256 : list Z;
  vb_verified_via : list Z;
  vb_sb_state : SecureBootState
}.

Definition image_verified_event (bytes path via status : list Z) : TrustEvent :=
  with_status (debug_str status) (with_verified_via via
    (with_sha256 (hex_encode_32 (sha256_of bytes)) (with_path path (event_new (lit "image_verified"))))).

(** The posture at verify time: shim may have gone since it was detected. *)
Definition verify_posture (sb : SecureBootState) : SecureBootState :=
  if bool_decide (sb = SbActiveWithShim) && negb (shim_lock_present (env_shim env)) then SbActiveDirect else sb.

Definition verify_kernel_bytes (bytes path : list Z) (sb : SecureBootState) : M (option VerifiedBytes) :=
  let sha256 := sha256_of bytes in
  let sb := verify_posture sb in
  match sb with
  | SbDisabled =>
      _ ← trust (image_verified_event bytes path V_DEGRADED_TRUST_SB_OFF (lit "SKIPPED"));
      mret (Some (mkVerified bytes sha256 V_DEGRADED_TRUST_SB_OFF sb))
  | SbActiveDirect =>
      _ ← trust (image_verified_event bytes path V_DEGRADED_TRUST_SB_DIRECT (lit "DEFERRED"));
      mret (Some (mkVerified bytes sha256 V_DEGRADED_TRUST_SB_DIRECT sb))
  | SbActiveWithShim =>
      let ok := verify_image (env_shim env) bytes sb in
      _ ← act (AShimVerify bytes ok);
      if ok then
        _ ← trust (image_verified_event bytes path V_SHIM_MOK (lit "SUCCESS"));
        mret (Some (mkVerified bytes sha256 V_SHIM_MOK sb))
      else
        _ ← trust (image_verified_event bytes path V_SHIM_REJECTED (lit "REJECTED"));
        mret None
  end.

(** ** The two load paths *)
Definition options_utf16 (options : str) : M (option (list Z)) :=
  if is_empty options then mret None
  else match env_cstring16 env options with
       | Some wide => mret (Some wide)
       | None => fail INVALID_PARAMETER
       end.

Definition native_load_and_start (verified : VerifiedBytes) (options backend_tag path : list Z)
    (conout_fat_coupling : bool) : M Status :=
  let bytes := vb_bytes verified in
  options_box ← options_utf16 options;
  let '(r, effects) := load_pe (env_pe env) (env_target env) bytes options_box backend_tag in
  _ ← act (APe effects);
  match r with
  | Panic => panicked
  | Err e =>
      _ ← trust (with_note (lit "backend=" ++ backend_tag ++ [c_space] ++ size_note (len bytes)
                     ++ lit " token=" ++ lit (as_log_token e) ++ lit " debug=" ++ pe_error_debug e)
                   (with_verified_via (lit "native_pe_loader")
                     (with_path path (event_new (lit "image_load_failed")))));
      fail LOAD_ERROR
  | Ok loaded =>
      if negb (bool_decide (li_sha256 loaded = vb_sha256 verified)) then
        _ ← trust (with_note (lit "reason=sds4_6.4_verify_load_sha256_mismatch")
                     (with_verified_via (lit "native_pe_loader")
                       (with_path path (event_new (lit "image_load_failed")))));
        _ ← flush_unless conout_fat_coupling;
        _ ← act (APe (drop_image loaded));
        fail SECURITY_VIOLATION
      else
        _ ← trust (with_note (lit "backend=" ++ backend_tag ++ lit " loader=" ++ V_NATIVE_PE_LOADER)
                     (with_status (lit "SUCCESS")
                       (with_verified_via (vb_verified_via verified)
                         (with_sha256 (hex_encode_32 (li_sha256 loaded))
                           (with_path path (event_new (lit "image_loaded_native")))))));
        _ ← flush_unless conout_fat_coupling;
        _ ← act (AStartNative bytes options);
        match start_image (env_entry env) loaded with
        | (None, effects) => _ ← act (APe effects); taken
        | (Some status, effects) =>
            _ ← act (APe effects);
            mret (if status =? 0 then SUCCESS else OtherStatus status)
        end
  end.

(** A call of a boot service: it reads and writes the override's state, and may
    not return. *)
Definition service {A : Type} (body : Override -> fw_result A * Override) : M (res Status A) := fun s =>
  let '(r, o) := body (bs_ov s) in
  let s' := mkBState (bs_log s) (bs_disk s) o (bs_trace s) in
  match r with
  | Some r => (Ret r, s')
  | None => (Taken, s')
  end.

Definition run_service {A : Type} : fw_prog A -> Override -> fw_result A * Override :=
  fw_run (env_shim env) (env_security env).

Definition load_efi_image_from_buffer (bytes : list Z) : M Z :=
  r ← service (with_override (env_security env) (run_service (env_load_image env bytes)));
  match r with
  | Ok h => _ ← act (ALoadImage bytes (Some h)); mret h
  | Err e => _ ← act (ALoadImage bytes None); fail e
  | Panic => panicked
  end.

Definition set_load_options (handle : Z) (options : list Z) : M unit :=
  match env_cstring16 env options with
  | None => fail INVALID_PARAMETER
  | Some _ => _ ← try (env_open_loaded_image env handle); act (ASetOptions handle options)
  end.

(** [uefi::boot::start_image(handle)?; Ok(Status::SUCCESS)] *)
Definition firmware_start (bytes : list Z) (handle : Z) : M Status :=
  _ ← act (AStartFirmware bytes handle);
  r ← service (run_service (env_start_image env handle));
  _ ← try r;
  mret SUCCESS.

Definition firmware_load_and_start (bytes options : list Z) (mode : LoaderNativePeMode) (path : list Z)
    : M Status :=
  _ ← trust (with_note (size_note (len bytes) ++ lit " policy=" ++ LoaderNativePeMode_as_log_token mode)
               (with_verified_via V_FIRMWARE_LOADIMAGE
                 (with_path path (event_new (lit "legacy_loadimage_used")))));
  handle ← load_efi_image_from_buffer bytes;
  _ ← (if is_empty options then mret tt else set_load_options handle options);
  _ ← trust (with_status (lit "SUCCESS") (with_verified_via V_FIRMWARE_LOADIMAGE
               (with_path path (event_new (lit "image_loaded_firmware")))));
  _ ← flush_log;
  firmware_start bytes handle.

(** [match m { Err(_) => fallback, ok => ok }] *)
Definition or_else {A : Type} (m : M A) (fallback : M A) : M A := fun s =>
  match m s with
  | (Fail _, s') => fallback s'
  | r => r
  end.

(** ** The kinds of entries *)
Definition chainload_efi (esp : Volume) (path : list Z) (conout_fat_coupling : bool) : M Status :=
  image_data ← try (vol_read esp path);
  let ok := measure_kernel (env_tpm env) image_data in
  _ ← act (AMeasure (kernel_measurement image_data) ok);
  _ ← (if ok
       then trust (with_note (lit "pcr=4") (with_path path (event_new (lit "chainload_measured"))))
       else trust (with_note (lit "pcr=4 reason=no_tpm_or_tcg2_error")
                     (with_path path (event_new (lit "chainload_measurement_skipped")))));
  handle ← load_efi_image_from_buffer image_data;
  _ ← trust (with_status (lit "SUCCESS") (with_verified_via V_FIRMWARE_LOADIMAGE
               (with_sha256 (hex_encode_32 (sha256_of image_data))
                 (with_path path (event_new (lit "image_chainloaded"))))));
  _ ← flush_unless conout_fat_coupling;
  firmware_start image_data handle.

(** Measure, and the command line when there is one. *)
Definition measure_both (bytes options path : list Z) : M unit :=
  _ ← measure_kernel_logged bytes path;
  if is_empty options then mret tt else measure_cmdline_logged options path.

Definition boot_uki (esp : Volume) (path options : list Z) (p : Policy) (conout_fat_coupling : bool)
    (sb : SecureBootState) : M Status :=
  image_data ← try (vol_read esp path);
  _ ← measure_both image_data options path;
  v ← verify_kernel_bytes image_data path sb;
  match v with
  | None => fail SECURITY_VIOLATION
  | Some verified =>
      match choose_load_path (loader_native_pe p) (vb_sb_state verified) with
      | RouteNative =>
          native_load_and_start verified options (vol_tag esp) path conout_fat_coupling
      | RouteFirmware => firmware_load_and_start image_data options (loader_native_pe p) path
      end
  end.

(** preflight.rs: the path as written, else with [\boot] in front. *)
Definition exists_with_boot_fallback (v : Volume) (path : list Z) : option (list Z) :=
  if vol_exists v path then Some path
  else
    let lower := to_lowercase path in
    if starts_with (lit "\boot\") lower || starts_with (lit "/boot/") lower then None
    else
      let prefixed :=
        if starts_with [c_backslash] path || starts_with [c_slash] path
        then lit "\boot" ++ path else lit "\boot\" ++ path in
      if vol_exists v prefixed then Some prefixed else None.

(** The first volume of [vs] that has the path, from index [i] on. *)
Fixpoint find_on_extras (i : nat) (vs : list Volume) (path : list Z) : option (nat * Volume * list Z) :=
  match vs with
  | [] => None
  | v :: vs' =>
      match exists_with_boot_fallback v path with
      | Some resolved => Some (i, v, resolved)
      | None => find_on_extras (S i) vs' path
      end
  end.

Definition phase_event (path note : list Z) : TrustEvent :=
  with_note note (with_path path (event_new (lit "kernel_load_phase"))).

(** Read a resolved path, with the events around the read. *)
Definition read_logged (v : Volume) (index : Z) (resolved : list Z) : M (list Z * list Z) :=
  _ ← trust (phase_event resolved (lit "phase=read_bytes_start volume_index=" ++ fmt_dec index
               ++ lit " backend=" ++ vol_tag v));
  bytes ← try (vol_read v resolved);
  _ ← trust (phase_event resolved (lit "phase=read_bytes_done size=" ++ fmt_dec (len bytes)));
  mret (bytes, vol_tag v).

Definition acquire_kernel (esp : Volume) (extras : list Volume) (kernel_path : list Z)
    (conout_fat_coupling : bool) : M (list Z * list Z) :=
  match exists_with_boot_fallback esp kernel_path with
  | Some resolved => read_logged esp 0 resolved
  | None =>
      match find_on_extras 0 extras kernel_path with
      | Some (i, v, resolved) => read_logged v (Z.of_nat i + 1) resolved
      | None =>
          _ ← trust (phase_event kernel_path (lit "phase=resolve_failed"));
          _ ← flush_unless conout_fat_coupling;
          fail NOT_FOUND
      end
  end.

(** The concatenation of the initrds; one that no volume has is skipped. *)
Fixpoint gather_initrds (esp : Volume) (extras : list Volume) (paths : list (list Z)) : M (list Z) :=
  match paths with
  | [] => mret []
  | path :: rest =>
      match exists_with_boot_fallback esp path with
      | Some resolved =>
          data ← try (vol_read esp resolved);
          more ← gather_initrds esp extras rest;
          mret (data ++ more)
      | None =>
          match find_on_extras 0 extras path with
          | Some (_, v, resolved) =>
              data ← try (vol_read v resolved);
              more ← gather_initrds esp extras rest;
              mret (data ++ more)
          | None => gather_initrds esp extras rest
          end
      end
  end.

(** [InitrdHandle::register(..).ok()] *)
Definition register_initrd (bytes : list Z) : M unit :=
  if env_register_initrd env bytes then act (AInitrd bytes) else mret tt.

Definition fallback_event (name path : list Z) : TrustEvent :=
  with_note (lit "reason=native_pe_load_error route=firmware") (with_path path (event_new name)).

Definition boot_linux (esp : Volume) (extras : list Volume) (kernel_path : list Z)
    (initrd_paths : list (list Z)) (options : list Z) (p : Policy) (conout_fat_coupling : bool)
    (sb : SecureBootState) : M Status :=
  _ ← trust (phase_event kernel_path (lit "phase=resolve_volume"));
  _ ← flush_unless conout_fat_coupling;
  kt ← acquire_kernel esp extras kernel_path conout_fat_coupling;
  let '(kernel_bytes, backend_tag) := kt in
  _ ← trust (phase_event kernel_path (lit "phase=bytes_acquired total_size=" ++ fmt_dec (len kernel_bytes)
               ++ lit " backend=" ++ backend_tag));
  _ ← flush_unless conout_fat_coupling;
  _ ← measure_both kernel_bytes options kernel_path;
  v ← verify_kernel_bytes kernel_bytes kernel_path sb;
  match v with
  | None => fail SECURITY_VIOLATION
  | Some verified =>
      _ ← (match initrd_paths with
           | [] => mret tt
           | _ => combined ← gather_initrds esp extras initrd_paths; register_initrd combined
           end);
      match choose_load_path (loader_native_pe p) (vb_sb_state verified) with
      | RouteNative =>
          or_else (native_load_and_start verified options backend_tag kernel_path conout_fat_coupling)
            (_ ← trust (fallback_event (lit "kernel_native_load_fallback") kernel_path);
             firmware_load_and_start kernel_bytes options (loader_native_pe p) kernel_path)
      | RouteFirmware =>
          firmware_load_and_start kernel_bytes options (loader_native_pe p) kernel_path
      end
  end.

(** ** Boot from an ISO *)
Definition resolve_candidate (iso : Volume) (candidate : list Z) : option (list Z) :=
  match split_glob candidate with
  | Some (dir, prefix) =>
      match vol_read_dir iso dir with
      | Ok names =>
          match glob_pick names prefix with
          | Some pick => Some (dir ++ [c_slash] ++ pick)
          | None => None
          end
      | _ => None
      end
  | None => if vol_exists iso candidate then Some candidate else None
  end.

Fixpoint find_map {A B : Type} (f : A -> option B) (l : list A) : option B :=
  match l with
  | [] => None
  | x :: l' => match f x with Some y => Some y | None => find_map f l' end
  end.

Definition resolve_recipe (iso : Volume) (r : DistroRecipe) : option (list Z * list (list Z)) :=
  match find_map (resolve_candidate iso) (dr_kernel r) with
  | Some kernel => Some (kernel, omap (resolve_candidate iso) (dr_initrd r))
  | None => None
  end.

(** Components that cannot be read are skipped. *)
Definition read_components (iso : Volume) (paths : list (list Z)) : list Z :=
  flat_map (fun p => match vol_read iso p with Ok bytes => bytes | _ => [] end) paths.

Definition iso_boot_resolved (iso : Volume) (label_for_log kernel_path : list Z) (initrd_paths : list (list Z))
    (options : list Z) (p : Policy) (conout_fat_coupling : bool) (sb : SecureBootState) : M Status :=
  kernel ← try (vol_read iso kernel_path);
  let initrd := read_components iso initrd_paths in
  _ ← trust (with_note (lit "kernel=" ++ kernel_path ++ lit " kbytes=" ++ fmt_dec (len kernel)
               ++ lit " ibytes=" ++ fmt_dec (len initrd) ++ lit " label=" ++ label_for_log)
               (event_new (lit "iso_path_a_resolved")));
  _ ← measure_both kernel options kernel_path;
  v ← verify_kernel_bytes kernel kernel_path sb;
  match v with
  | None => fail SECURITY_VIOLATION
  | Some verified =>
      _ ← (if is_empty initrd then mret tt else register_initrd initrd);
      match choose_load_path (loader_native_pe p) (vb_sb_state verified) with
      | RouteNative =>
          or_else (native_load_and_start verified options (vol_tag iso) kernel_path conout_fat_coupling)
            (_ ← trust (fallback_event (lit "iso_native_load_fallback") kernel_path);
             firmware_load_and_start kernel options (loader_native_pe p) kernel_path)
      | RouteFirmware => firmware_load_and_start kernel options (loader_native_pe p) kernel_path
      end
  end.

(** Path A2: the recipe of the distro family. *)
Definition boot_by_recipe (iso : Volume) (template : DistroRecipe -> list Z) (iso_path label source : list Z)
    (log_label : list Z) (p : Policy) (conout_fat_coupling : bool) (sb : SecureBootState) : M Status :=
  match fingerprint (vol_exists iso) with
  | None => fail UNSUPPORTED
  | Some recipe =>
      let options := render_cmdline (template recipe) iso_path label in
      match resolve_recipe iso recipe with
      | None => fail UNSUPPORTED
      | Some (kernel_path, initrd_paths) =>
          _ ← trust (with_note (lit "family=" ++ dr_family recipe ++ source)
                       (event_new (lit "iso_path_a2_distro")));
          iso_boot_resolved iso log_label kernel_path initrd_paths options p conout_fat_coupling sb
      end
  end.

End flow.

Definition LOOPBACK_CFG : list Z := lit "/boot/grub/loopback.cfg".

Definition unwritable (env : Env) : Env := {|
  env_target := env_target env; env_pe := env_pe env; env_tpm := env_tpm env; env_shim := env_shim env;
  env_security := env_security env; env_load_image := env_load_image env;
  env_open_loaded_image := env_open_loaded_image env; env_start_image := env_start_image env;
  env_entry := env_entry env; env_cstring16 := env_cstring16 env; env_register_initrd := env_register_initrd env;
  env_mount_iso := env_mount_iso env; env_mount_optical := env_mount_optical env; env_fat := env_fat env;
  env_append _ _ _ := Stopped 0
|}.

(** [share_backend] turns the backend of the holding volume into a shared one,
    which no writer gets a handle of: when that volume is the ESP, every append
    fails before it wrote anything from then on. *)
Definition holding_env (holding_index : nat) (env : Env) : Env :=
  match holding_index with O => unwritable env | S _ => env end.

Section dispatch.
Context (env : Env).

Definition boot_iso (esp : Volume) (rest : list Volume) (holding_index : nat) (iso_path : list Z)
    (p : Policy) (conout_fat_coupling : bool) (sb : SecureBootState) : M Status :=
  holding ← (match holding_index with
             | O => mret esp
             | S i => match rest !! i with Some v => mret v | None => fail ABORTED end
             end);
  let env := holding_env holding_index env in
  path ← (match path_from_str iso_path with Ok path => mret path | _ => fail INVALID_PARAMETER end);
  iso ← try (env_mount_iso env holding path);
  _ ← trust (with_note (lit "iso_path=" ++ iso_path ++ lit " backend=" ++ vol_tag iso
               ++ lit " holding_index=" ++ fmt_dec (Z.of_nat holding_index)) (event_new (lit "iso_mounted")));
  let path_a2 :=
    boot_by_recipe env iso dr_file_cmdline iso_path (default [] (vol_label iso))
      (lit " source=file iso=" ++ iso_path) iso_path p conout_fat_coupling sb in
  match vol_read iso LOOPBACK_CFG with
  | Ok cfg_bytes =>
      match parse_first_menuentry (from_utf8_lossy cfg_bytes) iso_path with
      | Some entry =>
          iso_boot_resolved env iso iso_path (lb_kernel entry) [lb_initrd entry] (lb_options entry)
            p conout_fat_coupling sb
      | None => path_a2
      end
  | Err _ => path_a2
  | Panic => panicked
  end.

Definition boot_iso_optical (handle : Z) (label : list Z) (p : Policy) (conout_fat_coupling : bool)
    (sb : SecureBootState) : M Status :=
  iso ← try (env_mount_optical env handle);
  _ ← trust (with_note (lit "label=" ++ label ++ lit " backend=" ++ vol_tag iso)
               (event_new (lit "iso_optical_mounted")));
  boot_by_recipe env iso dr_media_cmdline [] label (lit " source=optical label=" ++ label) label
    p conout_fat_coupling sb.

(** ** Dispatch *)
Definition boot_entry (volumes : list Volume) (entry : BootEntry) (p : Policy) (conout_fat_coupling : bool)
    (sb : SecureBootState) : M Status :=
  match volumes with
  | [] => fail ABORTED
  | esp :: rest =>
      match be_kind entry with
      | Chainload path => chainload_efi env esp path conout_fat_coupling
      | Uki path options => boot_uki env esp path options p conout_fat_coupling sb
      | LinuxLegacy kernel_path initrd_paths options =>
          boot_linux env esp rest kernel_path initrd_paths options p conout_fat_coupling sb
      | Iso (IsoFile iso_path) =>
          boot_iso esp rest (be_source_volume_index entry) iso_path p conout_fat_coupling sb
      | Iso (IsoOptical handle label) => boot_iso_optical handle label p conout_fat_coupling sb
      end
  end.
End dispatch.
