(* ===== verification/Drivers.v ===== *)
(** * Legacy filesystem drivers (drivers.rs) *)
From S2P Require Import Prelude Compare RustStr Utf8 VersionOrder BlsParse PeLoader PeLoad FsTypes BootTypes Policy TrustLog SecureBoot SecurityOverride Tpm VolumeFs IsoBoot BootFlow.
Local Open Scope Z_scope.

Definition DRIVERS_DIR : list Z := lit "/EFI/LamBoot/drivers".

Definition filesystem_natively_covered (driver_filename : str) : bool :=
  let lower := to_lowercase driver_filename in
  if starts_with (lit "ext4_") lower || starts_with (lit "ext2_") lower || starts_with (lit "ext3_") lower
  then true
  else if starts_with (lit "btrfs_") lower then true
  else if starts_with (lit "fat_") lower || starts_with (lit "vfat_") lower then true
  else if starts_with (lit "zfs_") lower || starts_with (lit "xfs_") lower then true
  else false.

Definition driver_path (filename : str) : list Z := DRIVERS_DIR ++ [c_slash] ++ filename.

Section drivers.
(** The firmware's handles, and the [Debug] rendering of a status. *)
Context (env : Env) (sfs_handles all_handles : res Status (list Z)) (status_debug : Status -> list Z).

(** [let _guard = install_security_override(); ...] up to the end of the scope. *)
Definition guarded {A : Type} (m : M A) : M A := fun s =>
  let '(guard, o) := install_security_override (env_security env) (bs_ov s) in
  match m (mkBState (bs_log s) (bs_disk s) o (bs_trace s)) with
  | (Taken, s') => (Taken, s')
  | (r, s') =>
      (r, if guard then mkBState (bs_log s') (bs_disk s') (uninstall_security_override (bs_ov s')) (bs_trace s')
          else s')
  end.

Definition load_single_driver (esp : Volume) (path : list Z) : M unit :=
  driver_data ← try (vol_read esp path);
  _ ← act (AMeasure (driver_measurement driver_data path) (measure_driver (env_tpm env) driver_data path));
  guarded
    (r ← service (run_service env (env_load_image env driver_data));
     _ ← act (ALoadImage driver_data (match r with Ok h => Some h | _ => None end));
     driver_handle ← try r;
     _ ← act (AStartDriver path driver_data driver_handle);
     r ← service (run_service env (env_start_image env driver_handle));
     try r).

Definition reconnect_all_controllers : M unit :=
  match sfs_handles with
  | Ok handles =>
      _ ← mapM (fun h => act (AConnect h)) handles;
      match all_handles with
      | Ok all => _ ← mapM (fun h => act (AConnect h)) all; mret tt
      | _ => mret tt
      end
  | _ => mret tt
  end.

(** [match expr]: a failure becomes a value. *)
Definition attempt {A : Type} (m : M A) : M (A + Status) := fun s =>
  match m s with
  | (Ret a, s') => (Ret (inl a), s')
  | (Fail e, s') => (Ret (inr e), s')
  | (Taken, s') => (Taken, s')
  | (Panicked, s') => (Panicked, s')
  end.

(** Load a driver and record how it went: how many drivers it loaded. *)
Definition load_recorded (esp : Volume) (path : list Z) : M Z :=
  r ← attempt (load_single_driver esp path);
  match r with
  | inl _ =>
      _ ← trust (with_status (lit "SUCCESS") (with_verified_via (lit "security_override")
                   (with_path path (event_new (lit "legacy_driver_loaded")))));
      mret 1
  | inr e =>
      _ ← trust (with_status (status_debug e) (with_verified_via (lit "rejected")
                   (with_path path (event_new (lit "legacy_driver_rejected")))));
      mret 0
  end.

(** One file of the directory: how many drivers it loaded. *)
Definition load_one (esp : Volume) (mode : DriversLegacyMode) (filename : list Z) : M Z :=
  let path := driver_path filename in
  match mode with
  | DriversNever =>
      _ ← trust (with_note (lit "policy=never")
                   (with_path path (event_new (lit "legacy_driver_skipped_policy"))));
      mret 0
  | DriversAuto =>
      if filesystem_natively_covered filename then
        _ ← trust (with_note (lit "ext4/ext2 handled by ext4-view (SDS-2); skipping legacy driver")
                     (with_path path (event_new (lit "native_backend_preferred"))));
        _ ← trust (with_note (lit "mode=auto native_backend=compiled_in")
                     (with_path path (event_new (lit "legacy_driver_skipped_covered"))));
        mret 0
      else load_recorded esp path
  | DriversAlways =>
      _ ← (if filesystem_natively_covered filename
           then trust (with_note
                  (lit "mode=always; native backend covers this filesystem but driver loaded anyway")
                  (with_path path (event_new (lit "legacy_driver_redundant"))))
           else mret tt);
      load_recorded esp path
  end.

Fixpoint load_each (esp : Volume) (mode : DriversLegacyMode) (files : list (list Z)) (loaded : Z) : M Z :=
  match files with
  | [] => mret loaded
  | f :: files' => n ← load_one esp mode f; load_each esp mode files' (loaded + n)
  end.

Definition driver_files (filenames : list (list Z)) : list (list Z) :=
  List.filter (fun name => has_extension_ignore_case name (lit "efi")) filenames.

Definition load_drivers (esp : Volume) (policy_mode : DriversLegacyMode) : M Z :=
  match vol_read_dir esp DRIVERS_DIR with
  | Ok filenames =>
      match driver_files filenames with
      | [] => mret 0
      | files =>
          loaded ← load_each esp policy_mode files 0;
          _ ← (if 0 <? loaded then reconnect_all_controllers else mret tt);
          mret loaded
      end
  | _ => mret 0
  end.
End drivers.

(** ** What the policy permits *)
Definition driver_permitted (mode : DriversLegacyMode) (path : list Z) : Prop :=
  exists filename, path = driver_path filename /\ has_extension_ignore_case filename (lit "efi") = true /\
    mode <> DriversNever /\ (mode = DriversAuto -> filesystem_natively_covered filename = false).
