(* ===== verification/BootHoare.v ===== *)
(** * A program logic for boot attempts

    A small Hoare logic over the trace of [BootFlow]: the invariant says that
    each image start on the trace is justified by what precedes it, and
    assertions are predicates on traces that survive extension.  The state of
    the security override has an invariant of its own. *)
From S2P Require Import Prelude Compare RustStr Utf8 VersionOrder BlsParse PeLoader PeLoad FsTypes BootTypes Policy TrustLog SecureBoot SecurityOverride Tpm VolumeFs IsoBoot BootFlow Drivers.
Local Open Scope Z_scope.

(** Assertions that more actions cannot falsify. *)
Class Mono (P : list action -> Prop) : Prop :=
  mono : forall tr new, P tr -> P (tr ++ new).

Definition has (a : action) (tr : list action) : Prop := a ∈ tr.
Definition both (P Q : list action -> Prop) (tr : list action) : Prop := P tr /\ Q tr.
Definition known (Q : Prop) (tr : list action) : Prop := Q.

#[export] Instance mono_has (a : action) : Mono (has a).
Proof. intros tr new H. apply elem_of_app. by left. Qed.

#[export] Instance mono_known (Q : Prop) : Mono (known Q).
Proof. by intros tr new. Qed.

#[export] Instance mono_both (P Q : list action -> Prop) : Mono P -> Mono Q -> Mono (both P Q).
Proof. intros HP HQ tr new [? ?]. split; by apply mono. Qed.

Section safety.
Context (env : Env) (p : Policy) (sb : SecureBootState).

(** The bytes were measured into PCR 4 (or the TPM was asked to). *)
Definition measured (b : list Z) (tr : list action) : Prop :=
  AMeasure (kernel_measurement b) (measure_kernel (env_tpm env) b) ∈ tr.

(** The command line, when there is one, was measured into PCR 12. *)
Definition measured_options (o : list Z) (tr : list action) : Prop :=
  o = [] \/ AMeasure (cmdline_measurement o) (measure_cmdline (env_tpm env) o) ∈ tr.

(** The trust log has a record that accepts these bytes, with their hash. *)
Definition audited (b : list Z) (tr : list action) : Prop :=
  exists ev, ATrust ev ∈ tr /\
    (ev_sha256_hex ev = hex_encode_32 (sha256_of env b) /\ ev_verified_via ev <> V_SHIM_REJECTED /\
     (ev_event ev = lit "image_verified" \/ ev_event ev = lit "image_chainloaded")).

(** Running the bytes without a firmware check is covered: Secure Boot is off,
    shim accepted exactly these bytes, or the operator set [native_pe = "always"]. *)
Definition trusted (b : list Z) (tr : list action) : Prop :=
  sb = SbDisabled \/ AShimVerify b true ∈ tr \/ loader_native_pe p = NativeAlways.

(** The firmware, with the verdicts of the override, loads the bytes as [h]. *)
Definition loads (b : list Z) (h : Z) : Prop :=
  oracle_run (sf_auth_state (env_security env)) (hooked_auth (env_shim env) (env_security env))
    (env_load_image env b) = Some (Ok h).

(** Between services no override is installed. *)
Definition calm (o : Override) : Prop := pristine o /\ accounted (counters o).

(** What must precede an action. *)
Definition justified (a : action) (tr : list action) : Prop :=
  match a with
  | AStartNative b o => ((measured b tr /\ audited b tr) /\ measured_options o tr) /\ trusted b tr
  | ASetOptions h o => measured_options o tr
  | AStartFirmware b h => (measured b tr /\ audited b tr) /\ ALoadImage b (Some h) ∈ tr
  | AStartDriver path b h =>
      AMeasure (driver_measurement b path) (measure_driver (env_tpm env) b path) ∈ tr /\
      ALoadImage b (Some h) ∈ tr /\ driver_permitted (drivers_legacy p) path
  | AShimVerify b ok => ok = shim_accepts (env_shim env) b
  | ALoadImage b (Some h) => loads b h
  | _ => True
  end.

Definition trace_ok (tr : list action) : Prop :=
  forall pre a post, tr = pre ++ a :: post -> justified a pre.

#[export] Instance mono_measured (b : list Z) : Mono (measured b).
Proof. unfold measured. apply _. Qed.
#[export] Instance mono_measured_options (o : list Z) : Mono (measured_options o).
Proof. intros tr new [?|?]; [by left|right; by apply (mono_has _)]. Qed.
#[export] Instance mono_audited (b : list Z) : Mono (audited b).
Proof. intros tr new (ev & Hin & H). exists ev. split; [by apply (mono_has _)|done]. Qed.
#[export] Instance mono_trusted (b : list Z) : Mono (trusted b).
Proof. intros tr new [?|[?|?]]; [by left|right; left; by apply (mono_has _)|by right; right]. Qed.

Lemma trace_ok_snoc (tr : list action) (a : action) :
  trace_ok tr -> justified a tr -> trace_ok (tr ++ [a]).
Proof.
  intros Ht Ha pre x post E. destruct post as [|y post _] using rev_ind.
  - apply app_inj_tail in E as [-> ->]. done.
  - rewrite app_comm_cons, app_assoc in E. apply app_inj_tail in E as [-> _]. by eapply Ht.
Qed.

(** [hoareI I P m Q]: from a justified trace that satisfies [P] and an override
    state in [I], [m] leaves a justified extension, an override state in [I]
    unless the machine was taken over, and [Q] of its value and the new trace
    when it returns. *)
Definition hoareI {A : Type} (I : Override -> Prop) (P : list action -> Prop) (m : M A)
    (Q : A -> list action -> Prop) : Prop :=
  forall s, trace_ok (bs_trace s) -> I (bs_ov s) -> P (bs_trace s) ->
    trace_ok (bs_trace (m s).2) /\ (exists new, bs_trace (m s).2 = bs_trace s ++ new) /\
    match (m s).1 with
    | Ret a => I (bs_ov (m s).2) /\ Q a (bs_trace (m s).2)
    | Fail _ => I (bs_ov (m s).2)
    | _ => True
    end.

Section rules.
Context (I : Override -> Prop).

Lemma hoare_ret {A : Type} (P : list action -> Prop) (a : A) (Q : A -> list action -> Prop) :
  (forall tr, P tr -> Q a tr) -> hoareI I P (mret a) Q.
Proof.
  intros H s Ht Ho HP. split; [done|]. split; [exists []; by rewrite app_nil_r|]. split; [done|by apply H].
Qed.

Lemma hoare_stop {A : Type} (P : list action -> Prop) (m : M A) (Q : A -> list action -> Prop) :
  (forall s, (m s).2 = s) -> (forall s a, (m s).1 <> Ret a) -> hoareI I P m Q.
Proof.
  intros Hs Hr s Ht Ho HP. rewrite Hs. split; [done|]. split; [exists []; by rewrite app_nil_r|].
  destruct (m s).1 eqn:E; [|done..]. by apply Hr in E.
Qed.

Lemma hoare_fail {A : Type} (P : list action -> Prop) (e : Status) (Q : A -> list action -> Prop) :
  hoareI I P (fail e) Q.
Proof. by apply hoare_stop. Qed.

Lemma hoare_bind {A B : Type} (P : list action -> Prop) `{!Mono P} (Q : A -> list action -> Prop)
    (R : B -> list action -> Prop) (m : M A) (k : A -> M B) :
  hoareI I P m Q -> (forall a, hoareI I (both P (Q a)) (k a) R) -> hoareI I P (m ≫= k) R.
Proof.
  intros Hm Hk s Ht Ho HP. destruct (Hm s Ht Ho HP) as (Ht1 & [new1 E1] & HQ).
  unfold mbind, M_bind. destruct (m s) as [o s1]. simpl in *.
  destruct o as [a|e| |]; [|by eauto..]. destruct HQ as [Ho1 HQ].
  assert (P (bs_trace s1)) as HP1 by (rewrite E1; by apply mono).
  destruct (Hk a s1 Ht1 Ho1 (conj HP1 HQ)) as (Ht2 & [new2 E2] & HR).
  split; [done|]. split; [|done]. exists (new1 ++ new2). by rewrite E2, E1, app_assoc.
Qed.

Lemma hoare_act (P : list action -> Prop) (a : action) :
  (forall tr, P tr -> justified a tr) -> hoareI I P (act a) (fun _ => has a).
Proof.
  intros Ha s Ht Ho HP. simpl. split; [apply trace_ok_snoc; auto|]. split; [by exists [a]|].
  split; [done|]. apply elem_of_app. right. by apply list_elem_of_singleton.
Qed.

Lemma hoare_trust (P : list action -> Prop) (ev : TrustEvent) :
  hoareI I P (trust ev) (fun _ => has (ATrust ev)).
Proof.
  intros s Ht Ho HP. simpl. split; [by apply trace_ok_snoc|]. split; [by exists [ATrust ev]|].
  split; [done|]. apply elem_of_app. right. by apply list_elem_of_singleton.
Qed.

Lemma hoare_weaken {A : Type} (P P' : list action -> Prop) (Q Q' : A -> list action -> Prop) (m : M A) :
  hoareI I P m Q -> (forall tr, P' tr -> P tr) -> (forall a tr, Q a tr -> Q' a tr) -> hoareI I P' m Q'.
Proof.
  intros H HP HQ s Ht Ho HP'. destruct (H s Ht Ho (HP _ HP')) as (? & ? & Hr).
  split; [done|]. split; [done|]. destruct (m s).1; [|done..]. destruct Hr; auto.
Qed.

(** What held before a computation holds after it. *)
Lemma hoare_keep {A : Type} (P : list action -> Prop) `{!Mono P} (Q : A -> list action -> Prop) (m : M A) :
  hoareI I P m Q -> hoareI I P m (fun _ => P).
Proof.
  intros Hm s Ht Ho HP. destruct (Hm s Ht Ho HP) as (? & [new E] & Hr).
  split; [done|]. split; [by exists new|]. rewrite E.
  destruct (m s).1; [|done..]. destruct Hr. split; [done|by apply mono].
Qed.

Lemma hoare_flush (P : list action -> Prop) : hoareI I P (flush_log env) (fun _ _ => True).
Proof.
  intros s Ht Ho HP. unfold flush_log. destruct (flush _ _ _ _) as [t disk]. simpl.
  split; [done|]. split; [exists []; by rewrite app_nil_r|done].
Qed.

Lemma hoare_flush_unless (P : list action -> Prop) (b : bool) :
  hoareI I P (flush_unless env b) (fun _ _ => True).
Proof. unfold flush_unless. destruct b; simpl; [by apply hoare_ret|apply hoare_flush]. Qed.

Lemma hoare_try {A : Type} (P : list action -> Prop) (r : res Status A) :
  hoareI I P (try r) (fun a => known (r = Ok a)).
Proof. destruct r; simpl; [by apply hoare_ret|by apply hoare_stop..]. Qed.

Lemma hoare_or_else {A : Type} (P : list action -> Prop) `{!Mono P} (Q : A -> list action -> Prop) (m f : M A) :
  hoareI I P m Q -> hoareI I P f Q -> hoareI I P (or_else m f) Q.
Proof.
  intros Hm Hf s Ht Ho HP. destruct (Hm s Ht Ho HP) as (Ht1 & [new1 E1] & HQ).
  unfold or_else. destruct (m s) as [o s1]. simpl in *. destruct o as [a|e| |]; [by eauto| |by eauto..].
  assert (P (bs_trace s1)) as HP1 by (rewrite E1; by apply mono).
  destruct (Hf s1 Ht1 HQ HP1) as (Ht2 & [new2 E2] & HR).
  split; [done|]. split; [|done]. exists (new1 ++ new2). by rewrite E2, E1, app_assoc.
Qed.

(** Stepping over a computation whose result is not needed. *)
Lemma hoare_skip {A B : Type} (P : list action -> Prop) `{!Mono P} (Q : A -> list action -> Prop)
    (R : B -> list action -> Prop) (m : M A) (k : A -> M B) :
  hoareI I P m Q -> (forall a, hoareI I P (k a) R) -> hoareI I P (m ≫= k) R.
Proof.
  intros Hm Hk. eapply hoare_bind; [done|exact Hm|]. intros a.
  eapply hoare_weaken; [apply Hk|by intros tr [? _]|done].
Qed.

(** A service under which the override's state keeps the invariant. *)
Lemma hoare_service {A : Type} (P : list action -> Prop) (body : Override -> fw_result A * Override)
    (R : res Status A -> Prop) :
  (forall o, I o -> match body o with (Some r, o') => I o' /\ R r | (None, _) => True end) ->
  hoareI I P (service body) (fun r => known (R r)).
Proof.
  intros H s Ht Ho HP. unfold service. specialize (H _ Ho). destruct (body (bs_ov s)) as [[r|] o]; simpl;
    (split; [done|]); (split; [exists []; by rewrite app_nil_r|done]).
Qed.
End rules.

Lemma hoare_run_service {A : Type} (P : list action -> Prop) (q : fw_prog A) :
  hoareI calm P (service (run_service env q)) (fun _ => known True).
Proof.
  apply (hoare_service calm P _ (fun _ => True)). intros o [Ho Hc]. unfold run_service.
  rewrite fw_run_pristine by done. by destruct (oracle_run _ _ q).
Qed.
End safety.

Ltac skip_log :=
  repeat match goal with
  | |- hoareI _ _ _ _ _ (trust _ ≫= _) _ => eapply hoare_skip; [apply _|apply hoare_trust|intros ?]
  | |- hoareI _ _ _ _ _ (flush_unless _ _ ≫= _) _ => eapply hoare_skip; [apply _|apply hoare_flush_unless|intros ?]
  | |- hoareI _ _ _ _ _ (flush_log _ ≫= _) _ => eapply hoare_skip; [apply _|apply hoare_flush|intros ?]
  end.
