(* ===== verification/BootSafety.v ===== *)
(** * What every boot guarantees (on boot.rs)

    The rules of [BootHoare] for each function of [BootFlow], and the theorems
    about whole boot attempts. *)
From S2P Require Import Prelude Compare RustStr Utf8 VersionOrder BlsParse PeLoader PeLoad FsTypes BootTypes Policy TrustLog SecureBoot SecurityOverride Tpm VolumeFs IsoBoot BootFlow Drivers BootHoare.
Local Open Scope Z_scope.

Section safety.
Context (env : Env) (p : Policy) (sb : SecureBootState).

#[local] Notation hoare := (hoareI env p sb calm).
#[local] Notation measured := (BootHoare.measured env).
#[local] Notation measured_options := (BootHoare.measured_options env).
#[local] Notation audited := (BootHoare.audited env).
#[local] Notation trusted := (BootHoare.trusted p sb).

(** ** The load paths *)
Definition recorded (b : list Z) : list action -> Prop := both (measured b) (audited b).
Definition ready (b o : list Z) : list action -> Prop := both (recorded b) (measured_options o).
Definition all_measured (b o : list Z) : list action -> Prop := both (measured b) (measured_options o).

#[local] Instance mono_recorded (b : list Z) : Mono (recorded b).
Proof. unfold recorded. apply _. Qed.
#[local] Instance mono_ready (b o : list Z) : Mono (ready b o).
Proof. unfold ready. apply _. Qed.
#[local] Instance mono_all_measured (b o : list Z) : Mono (all_measured b o).
Proof. unfold all_measured. apply _. Qed.

Lemma hoare_load_image (P : list action -> Prop) `{!Mono P} (b : list Z) :
  hoare P (load_efi_image_from_buffer env b) (fun h => has (ALoadImage b (Some h))).
Proof.
  unfold load_efi_image_from_buffer. eapply hoare_bind; [apply _| |].
  { apply (hoare_service env p sb calm P _ (fun r => oracle_run (sf_auth_state (env_security env))
      (hooked_auth (env_shim env) (env_security env)) (env_load_image env b) = Some r)).
    intros o [Ho Hc].
    destruct (with_override_run (env_shim env) (env_security env) (env_load_image env b) o Ho Hc) as [E Hp].
    unfold run_service. destruct (with_override _ _ o) as [[r|] o'] eqn:Ew; [|done]. simpl in *.
    split; [by apply Hp|by rewrite E]. }
  intros [h|e|]; simpl; [|eapply hoare_skip; [apply _|by apply hoare_act|]; intros ?; apply hoare_fail|by apply hoare_stop].
  eapply hoare_bind; [apply _|apply hoare_act; by intros tr [_ ?]|]. intros ?.
  apply hoare_ret. by intros tr [_ ?].
Qed.

Lemma hoare_firmware_start (b : list Z) (h : Z) :
  hoare (both (recorded b) (has (ALoadImage b (Some h)))) (firmware_start env b h) (fun _ _ => True).
Proof.
  unfold firmware_start. eapply hoare_skip; [apply _|apply hoare_act; by intros tr [[? ?] ?]|]. intros _.
  eapply hoare_skip; [apply _|apply hoare_run_service|]. intros r.
  eapply hoare_skip; [apply _|apply hoare_try|]. intros _. by apply hoare_ret.
Qed.

Lemma hoare_firmware_load (b options path : list Z) (mode : LoaderNativePeMode) :
  hoare (ready b options) (firmware_load_and_start env b options mode path) (fun _ _ => True).
Proof.
  unfold firmware_load_and_start. skip_log.
  eapply hoare_bind; [apply _|apply hoare_load_image; apply _|]. intros h.
  eapply hoare_skip; [apply _| |intros _].
  { instantiate (1 := fun _ _ => True). destruct (is_empty options); [by apply hoare_ret|].
    unfold set_load_options. destruct (env_cstring16 env options); [|apply hoare_fail].
    eapply hoare_skip; [apply _|apply hoare_try|]. intros _.
    eapply (hoare_weaken env p sb calm (measured_options options)); [by apply hoare_act|by intros tr [[_ ?] _]|done]. }
  skip_log. eapply hoare_weaken; [apply hoare_firmware_start|by intros tr [[? _] ?]|done].
Qed.

Lemma hoare_native_load (v : VerifiedBytes) (options tag path : list Z) (c : bool) :
  hoare (both (ready (vb_bytes v) options) (trusted (vb_bytes v)))
        (native_load_and_start env v options tag path c) (fun _ _ => True).
Proof.
  unfold native_load_and_start. eapply hoare_skip; [apply _| |intros ob].
  { instantiate (1 := fun _ _ => True). unfold options_utf16. destruct (is_empty options); [by apply hoare_ret|].
    destruct (env_cstring16 env options); [by apply hoare_ret|apply hoare_fail]. }
  destruct (load_pe _ _ _ _ _) as [r effects].
  eapply hoare_skip; [apply _|by apply hoare_act|intros _].
  destruct r as [loaded|e|]; [|skip_log; apply hoare_fail|by apply hoare_stop].
  destruct (negb _).
  { skip_log. eapply hoare_skip; [apply _|by apply hoare_act|intros _]. apply hoare_fail. }
  skip_log. eapply hoare_skip; [apply _|apply hoare_act; by intros tr [[? ?] ?]|intros _].
  destruct (start_image (env_entry env) loaded) as [[st|] ef].
  - eapply hoare_skip; [apply _|by apply hoare_act|intros _]. by apply hoare_ret.
  - eapply hoare_skip; [apply _|by apply hoare_act|intros _]. by apply hoare_stop.
Qed.

(** ** Measuring and verifying *)
Lemma hoare_measure_kernel (P : list action -> Prop) `{!Mono P} (b path : list Z) :
  hoare P (measure_kernel_logged env b path) (fun _ => measured b).
Proof.
  unfold measure_kernel_logged. eapply hoare_bind; [apply _|by apply hoare_act|]. intros ?.
  eapply (hoare_weaken env p sb calm (both P (measured b)) _ (fun _ => both P (measured b))); [|done|by intros ? tr [_ ?]].
  destruct (measure_kernel (env_tpm env) b); (eapply hoare_keep; [apply _|apply hoare_trust]).
Qed.

Lemma hoare_measure_both (b options path : list Z) :
  hoare (known True) (measure_both env b options path) (fun _ => all_measured b options).
Proof.
  unfold measure_both. eapply hoare_bind; [apply _|apply hoare_measure_kernel; apply _|]. intros ?.
  destruct options as [|x options]; [apply hoare_ret; by intros tr [_ ?]; split; [|left]|]. cbn [is_empty].
  unfold measure_cmdline_logged. eapply hoare_bind; [apply _|by apply hoare_act|]. intros ?.
  eapply (hoare_weaken env p sb calm (all_measured b (x :: options)) _ (fun _ => all_measured b (x :: options)));
    [|intros tr [[_ ?] ?]; by split; [|right]|done].
  destruct (measure_cmdline (env_tpm env) _); (eapply hoare_keep; [apply _|apply hoare_trust]).
Qed.

(** What an accepted verification of [b] establishes. *)
Definition accepted (b : list Z) (v : option VerifiedBytes) : list action -> Prop :=
  match v with
  | None => known True
  | Some vb =>
      both (known (vb_bytes vb = b /\ vb_sb_state vb = verify_posture env sb))
        (both (audited b) (fun tr => vb_sb_state vb = SbActiveWithShim -> has (AShimVerify b true) tr))
  end.

Lemma hoare_verify (b path : list Z) :
  hoare (known True) (verify_kernel_bytes env b path sb) (accepted b).
Proof.
  unfold verify_kernel_bytes.
  assert (forall via st (tr : list action), via <> V_SHIM_REJECTED ->
    ATrust (image_verified_event env b path via st) ∈ tr -> audited b tr) as Haud.
  { intros via st tr Hvia Hin. eexists. split; [exact Hin|]. split; [done|]. split; [done|by left]. }
  destruct (verify_posture env sb) eqn:Ep.
  - eapply hoare_bind; [apply _|apply hoare_trust|]. intros ?. apply hoare_ret. intros tr [_ Hin].
    split; [by split|]. split; [by eapply Haud, Hin|done].
  - eapply hoare_bind; [apply _|by apply hoare_act|]. intros ?.
    destruct (verify_image (env_shim env) b SbActiveWithShim) eqn:Es.
    + eapply hoare_bind; [apply _|apply hoare_trust|]. intros ?. apply hoare_ret. intros tr [[_ Hv] Hin].
      split; [by split|]. split; [by eapply Haud, Hin|done].
    + eapply hoare_bind; [apply _|apply hoare_trust|]. intros ?. by apply hoare_ret.
  - eapply hoare_bind; [apply _|apply hoare_trust|]. intros ?. apply hoare_ret. intros tr [_ Hin].
    split; [by split|]. split; [by eapply Haud, Hin|done].
Qed.

Lemma mono_accepted (b : list Z) (v : option VerifiedBytes) : Mono (accepted b v).
Proof.
  destruct v as [vb|]; simpl; [|apply _]. intros tr new (H1 & H2 & H3).
  split; [done|]. split; [by apply mono|]. intros Hs. by apply mono, H3.
Qed.

Lemma native_trusted (b : list Z) (vb : VerifiedBytes) (tr : list action) :
  accepted b (Some vb) tr -> choose_load_path (loader_native_pe p) (vb_sb_state vb) = RouteNative ->
  trusted b tr.
Proof.
  intros ([_ Hsb] & _ & Hshim) Hr. apply native_route in Hr as [Hr|Hr]; [|by right; right].
  destruct (vb_sb_state vb) eqn:Ev; [|right; left; by apply Hshim|done].
  left. unfold verify_posture in Hsb. by case_bool_decide; destruct (shim_lock_present (env_shim env)), sb.
Qed.

(** The tail the kernel paths share: measure, verify, then [k]. *)
Lemma hoare_measure_verify (b options path : list Z) (k : option VerifiedBytes -> M Status) :
  (forall v, hoare (both (all_measured b options) (accepted b v)) (k v) (fun _ _ => True)) ->
  hoare (known True) (_ ← measure_both env b options path; v ← verify_kernel_bytes env b path sb; k v)
        (fun _ _ => True).
Proof.
  intros Hk. eapply hoare_bind; [apply _|apply hoare_measure_both|]. intros ?.
  eapply hoare_bind; [apply _|eapply hoare_weaken; [apply hoare_verify|by intros tr _|done]|].
  intros v. eapply hoare_weaken; [apply Hk|by intros tr [[_ ?] ?]|done].
Qed.

(** The end of every kernel path, with or without the fallback. *)
Lemma hoare_route (b options tag path : list Z) (c : bool) (vb : VerifiedBytes) (native : M Status -> M Status) :
  (forall m, hoare (both (ready b options) (trusted b)) m (fun _ _ => True) ->
             hoare (both (ready b options) (trusted b)) (native m) (fun _ _ => True)) ->
  hoare (both (all_measured b options) (accepted b (Some vb)))
    (match choose_load_path (loader_native_pe p) (vb_sb_state vb) with
     | RouteNative => native (native_load_and_start env vb options tag path c)
     | RouteFirmware => firmware_load_and_start env b options (loader_native_pe p) path
     end) (fun _ _ => True).
Proof.
  intros Hn. destruct (choose_load_path _ _) eqn:Er.
  - eapply hoare_weaken with (I := calm) (P := both (ready b options) (both (trusted b) (known (vb_bytes vb = b))))
      (Q := fun _ _ => True); [| |done].
    + intros s Ht Ho HP. assert (vb_bytes vb = b) as Hb by apply HP.
      assert (hoare (both (ready b options) (trusted b)) (native_load_and_start env vb options tag path c) (fun _ _ => True))
        as Hnat by (rewrite <- Hb; apply hoare_native_load).
      apply (Hn _ Hnat); [done|done|]. destruct HP as (? & ? & _). by split.
    + intros tr [[Hm Hopt] Ha]. split; [split; [split; [done|apply Ha]|done]|].
      split; [by eapply native_trusted|]. destruct Ha as [[? _] _]. done.
  - eapply hoare_weaken; [apply hoare_firmware_load| |done].
    intros tr [[Hm Hopt] Ha]. split; [split; [done|apply Ha]|done].
Qed.

Lemma hoare_fallback (b options path : list Z) (ev : TrustEvent) (m : M Status) :
  hoare (both (ready b options) (trusted b)) m (fun _ _ => True) ->
  hoare (both (ready b options) (trusted b))
    (or_else m (_ ← trust ev; firmware_load_and_start env b options (loader_native_pe p) path)) (fun _ _ => True).
Proof.
  intros Hm. apply hoare_or_else; [apply _|done|]. skip_log.
  eapply hoare_weaken; [apply hoare_firmware_load|by intros tr [? _]|done].
Qed.

(** ** The entries *)
Lemma hoare_route_plain (b options tag path : list Z) (c : bool) (vb : VerifiedBytes) :
  hoare (both (all_measured b options) (accepted b (Some vb)))
    (match choose_load_path (loader_native_pe p) (vb_sb_state vb) with
     | RouteNative => native_load_and_start env vb options tag path c
     | RouteFirmware => firmware_load_and_start env b options (loader_native_pe p) path
     end) (fun _ _ => True).
Proof. by apply (hoare_route b options tag path c vb (fun m => m)). Qed.

Lemma hoare_chainload (esp : Volume) (path : list Z) (c : bool) :
  hoare (known True) (chainload_efi env esp path c) (fun _ _ => True).
Proof.
  unfold chainload_efi. eapply hoare_skip; [apply _|apply hoare_try|]. intros b.
  eapply hoare_bind; [apply _|by apply hoare_act|]. intros ?.
  eapply hoare_skip; [apply _| |intros _].
  { instantiate (1 := fun _ _ => True).
    destruct (measure_kernel (env_tpm env) b); (eapply hoare_weaken; [apply hoare_trust|done|done]). }
  eapply hoare_bind; [apply _|apply hoare_load_image; apply _|]. intros h.
  eapply hoare_bind; [apply _|apply hoare_trust|]. intros ?.
  eapply hoare_skip; [apply _|apply hoare_flush_unless|]. intros _.
  eapply hoare_weaken; [apply hoare_firmware_start| |done].
  intros tr [[[_ Hm] Hl] Ht]. split; [split|done]; [done|].
  eexists. split; [exact Ht|]. split; [done|]. split; [done|by right].
Qed.

Lemma hoare_uki (esp : Volume) (path options : list Z) (c : bool) :
  hoare (known True) (boot_uki env esp path options p c sb) (fun _ _ => True).
Proof.
  unfold boot_uki. eapply hoare_skip; [apply _|apply hoare_try|]. intros b.
  apply hoare_measure_verify. intros [vb|]; [|apply hoare_fail]. apply hoare_route_plain.
Qed.

Lemma hoare_read_logged (v : Volume) (i : Z) (path : list Z) :
  hoare (known True) (read_logged v i path) (fun _ _ => True).
Proof.
  unfold read_logged. skip_log. eapply hoare_skip; [apply _|apply hoare_try|]. intros b.
  skip_log. by apply hoare_ret.
Qed.

Lemma hoare_acquire (esp : Volume) (extras : list Volume) (path : list Z) (c : bool) :
  hoare (known True) (acquire_kernel env esp extras path c) (fun _ _ => True).
Proof.
  unfold acquire_kernel. destruct (exists_with_boot_fallback esp path); [apply hoare_read_logged|].
  destruct (find_on_extras 0 extras path) as [[[i v] r]|]; [apply hoare_read_logged|].
  skip_log. apply hoare_fail.
Qed.

Lemma hoare_gather (P : list action -> Prop) `{!Mono P} (esp : Volume) (extras : list Volume) (paths : list (list Z)) :
  hoare P (gather_initrds esp extras paths) (fun _ _ => True).
Proof.
  induction paths as [|path paths IH]; simpl; [by apply hoare_ret|].
  destruct (exists_with_boot_fallback esp path).
  - eapply hoare_skip; [apply _|apply hoare_try|]. intros d.
    eapply hoare_skip; [apply _|apply IH|]. intros m. by apply hoare_ret.
  - destruct (find_on_extras 0 extras path) as [[[i v] r]|]; [|apply IH].
    eapply hoare_skip; [apply _|apply hoare_try|]. intros d.
    eapply hoare_skip; [apply _|apply IH|]. intros m. by apply hoare_ret.
Qed.

Lemma hoare_register (P : list action -> Prop) (b : list Z) : hoare P (register_initrd env b) (fun _ _ => True).
Proof.
  unfold register_initrd. destruct (env_register_initrd env b); [|by apply hoare_ret].
  eapply hoare_weaken; [by apply hoare_act|done|done].
Qed.

Lemma hoare_linux (esp : Volume) (extras : list Volume) (kernel : list Z) (initrds : list (list Z))
    (options : list Z) (c : bool) :
  hoare (known True) (boot_linux env esp extras kernel initrds options p c sb) (fun _ _ => True).
Proof.
  unfold boot_linux. skip_log. eapply hoare_skip; [apply _|apply hoare_acquire|]. intros [b tag]. skip_log.
  apply hoare_measure_verify. intros [vb|]; [|apply hoare_fail].
  pose proof (mono_accepted b (Some vb)) as Hmono.
  eapply hoare_skip; [apply _| |intros _].
  { instantiate (1 := fun _ _ => True). destruct initrds; [by apply hoare_ret|].
    eapply hoare_skip; [apply _|apply hoare_gather; apply _|]. intros i. apply hoare_register. }
  apply hoare_route with (native := fun m => or_else m _). intros m. apply hoare_fallback.
Qed.

Lemma hoare_iso_resolved (iso : Volume) (label kernel : list Z) (initrds : list (list Z)) (options : list Z) (c : bool) :
  hoare (known True) (iso_boot_resolved env iso label kernel initrds options p c sb) (fun _ _ => True).
Proof.
  unfold iso_boot_resolved. eapply hoare_skip; [apply _|apply hoare_try|]. intros b. skip_log.
  apply hoare_measure_verify. intros [vb|]; [|apply hoare_fail].
  pose proof (mono_accepted b (Some vb)) as Hmono.
  eapply hoare_skip; [apply _| |intros _].
  { instantiate (1 := fun _ _ => True). destruct (is_empty _); [by apply hoare_ret|apply hoare_register]. }
  apply hoare_route with (native := fun m => or_else m _). intros m. apply hoare_fallback.
Qed.

Lemma hoare_recipe (iso : Volume) (template : DistroRecipe -> list Z) (iso_path label source log_label : list Z) (c : bool) :
  hoare (known True) (boot_by_recipe env iso template iso_path label source log_label p c sb) (fun _ _ => True).
Proof.
  unfold boot_by_recipe. destruct (fingerprint _); [|apply hoare_fail].
  destruct (resolve_recipe iso d) as [[k ins]|]; [|apply hoare_fail]. skip_log. apply hoare_iso_resolved.
Qed.

End safety.

(** Sharing the backend changes nothing a start is justified by. *)
Lemma hoare_holding {A : Type} (env : Env) (p : Policy) (sb : SecureBootState) (i : nat) (P : list action -> Prop) (m : M A)
    (Q : A -> list action -> Prop) :
  hoareI (holding_env i env) p sb calm P m Q -> hoareI env p sb calm P m Q.
Proof. by destruct i. Qed.

Section dispatch.
Context (env : Env) (p : Policy) (sb : SecureBootState).

#[local] Notation hoare := (hoareI env p sb calm).

Lemma hoare_iso (esp : Volume) (rest : list Volume) (i : nat) (iso_path : list Z) (c : bool) :
  hoare (known True) (boot_iso env esp rest i iso_path p c sb) (fun _ _ => True).
Proof.
  unfold boot_iso. eapply hoare_skip; [apply _| |intros holding].
  { instantiate (1 := fun _ _ => True). destruct i as [|i]; [by apply hoare_ret|].
    destruct (rest !! i); [by apply hoare_ret|apply hoare_fail]. }
  cbv zeta. apply (hoare_holding env p sb i). set (env' := holding_env i env).
  eapply hoare_skip; [apply _| |intros path].
  { instantiate (1 := fun _ _ => True). destruct (path_from_str iso_path); [by apply hoare_ret|apply hoare_fail..]. }
  eapply hoare_skip; [apply _|apply hoare_try|]. intros iso. skip_log.
  destruct (vol_read iso LOOPBACK_CFG); [|apply hoare_recipe|by apply hoare_stop].
  destruct (parse_first_menuentry _ _); [apply hoare_iso_resolved|apply hoare_recipe].
Qed.

Lemma hoare_optical (handle : Z) (label : list Z) (c : bool) :
  hoare (known True) (boot_iso_optical env handle label p c sb) (fun _ _ => True).
Proof.
  unfold boot_iso_optical. eapply hoare_skip; [apply _|apply hoare_try|]. intros iso. skip_log. apply hoare_recipe.
Qed.

Lemma hoare_boot_entry (volumes : list Volume) (entry : BootEntry) (c : bool) :
  hoare (known True) (boot_entry env volumes entry p c sb) (fun _ _ => True).
Proof.
  unfold boot_entry. destruct volumes as [|esp rest]; [apply hoare_fail|].
  destruct (be_kind entry) as [path|path options|kernel initrds options|[iso_path|handle label]].
  - apply hoare_chainload.
  - apply hoare_uki.
  - apply hoare_linux.
  - apply hoare_iso.
  - apply hoare_optical.
Qed.
End dispatch.

(** The trace of a whole boot attempt. *)
Definition boot_trace (env : Env) (volumes : list Volume) (entry : BootEntry) (p : Policy) (c : bool)
    (sb : SecureBootState) (log : TrustLog) (disk : LogFiles) (ov : Override) : list action :=
  bs_trace (boot_entry env volumes entry p c sb (mkBState log disk ov [])).2.

Lemma boot_trace_ok (env : Env) (volumes : list Volume) (entry : BootEntry) (p : Policy) (c : bool)
    (sb : SecureBootState) (log : TrustLog) (disk : LogFiles) (ov : Override) :
  calm ov -> trace_ok env p sb (boot_trace env volumes entry p c sb log disk ov).
Proof.
  intros Ho. destruct (hoare_boot_entry env p sb volumes entry c (mkBState log disk ov [])) as [H _];
    [|done..|exact H]. intros pre a post E. by destruct pre.
Qed.

(** A boot attempt that comes back to the menu leaves no override behind, so
    the next attempt starts like the first. *)
Lemma boot_entry_calm (env : Env) (volumes : list Volume) (entry : BootEntry) (p : Policy) (c : bool)
    (sb : SecureBootState) (log : TrustLog) (disk : LogFiles) (ov : Override) :
  calm ov ->
  match boot_entry env volumes entry p c sb (mkBState log disk ov []) with
  | (Ret _, s) | (Fail _, s) => calm (bs_ov s)
  | _ => True
  end.
Proof.
  intros Ho. destruct (hoare_boot_entry env p sb volumes entry c (mkBState log disk ov [])) as (_ & _ & H);
    [|done..|]. { intros pre a post E. by destruct pre. }
  destruct (boot_entry _ _ _ _ _ _ _) as [[] s]; simpl in *; try done. by destruct H.
Qed.

(** A shim verdict or a load on a justified trace is that of the outside. *)
Lemma trace_ok_in (env : Env) (p : Policy) (sb : SecureBootState) (pre post : list action) (a x : action) :
  trace_ok env p sb (pre ++ a :: post) -> x ∈ pre -> exists l, justified env p sb x l.
Proof.
  intros Hok Hs. apply list_elem_of_split in Hs as (l & r & ->). exists l.
  apply (Hok l x (r ++ a :: post)). by rewrite <- app_assoc.
Qed.

(** C7. LamBoot's own loader never starts an image that nothing vouched for: for
    every entry, volume content, firmware and TPM behaviour, an image started
    natively had its exact bytes accepted by shim beforehand, unless Secure Boot
    is off or the operator set native_pe to always. *)
Theorem native_start_is_trusted (env : Env) (volumes : list Volume) (entry : BootEntry) (p : Policy) (c : bool)
    (sb : SecureBootState) (log : TrustLog) (disk : LogFiles) (ov : Override) (pre post : list action) (b o : list Z) :
  calm ov ->
  boot_trace env volumes entry p c sb log disk ov = pre ++ AStartNative b o :: post ->
  sb = SbDisabled \/ loader_native_pe p = NativeAlways \/
  (AShimVerify b true ∈ pre /\ shim_accepts (env_shim env) b = true).
Proof.
  intros Ho E. pose proof (boot_trace_ok env volumes entry p c sb log disk ov Ho) as Hok. rewrite E in Hok.
  destruct (Hok _ _ _ eq_refl) as [_ [Hs|[Hs|Hs]]]; [by left| |by right; left].
  right; right. split; [done|]. by destruct (trace_ok_in _ _ _ _ _ _ _ Hok Hs) as [l Hl].
Qed.

(** The bytes of a start action. *)
Definition started (a : action) : option (list Z) :=
  match a with AStartNative b _ | AStartFirmware b _ => Some b | _ => None end.

(** What the UEFI specification says of LoadImage under Secure Boot: it returns
    a handle only for a buffer that the authentication service accepted. *)
Definition authenticates (load : list Z -> fw_prog Z) : Prop :=
  forall b h auth_state auth, oracle_run auth_state auth (load b) = Some (Ok h) ->
    exists dp policy, auth dp (Some b) policy = SUCCESS.

Lemma hooked_auth_success (sh : Shim) (fw : SecurityFw) (dp : Z) (b : list Z) (policy : bool) :
  hooked_auth sh fw dp (Some b) policy = SUCCESS ->
  shim_accepts sh b = true \/ sf_auth fw dp (Some b) policy = SUCCESS.
Proof. unfold hooked_auth. destruct (_ && _) eqn:E; [|by right]. left. by apply andb_prop in E as [_ [_ ?]%andb_prop]. Qed.

(** The native loader's starts, in the same terms. *)
Lemma native_start_shim (env : Env) (p : Policy) (sb : SecureBootState) (pre post : list action) (b o : list Z) :
  trace_ok env p sb (pre ++ AStartNative b o :: post) -> sb <> SbDisabled -> loader_native_pe p <> NativeAlways ->
  shim_accepts (env_shim env) b = true.
Proof.
  intros Hok Hsb Hp. destruct (Hok _ _ _ eq_refl) as [_ [Hs|[Hs|Hs]]]; [done| |done].
  by destruct (trace_ok_in _ _ _ _ _ _ _ Hok Hs) as [l Hl].
Qed.

(** A start on a justified trace was verified. *)
Lemma trace_start_verified (env : Env) (p : Policy) (sb : SecureBootState) (pre post : list action) (a : action) (b : list Z) :
  authenticates (env_load_image env) -> sb <> SbDisabled -> loader_native_pe p <> NativeAlways ->
  trace_ok env p sb (pre ++ a :: post) -> started a = Some b ->
  shim_accepts (env_shim env) b = true \/ exists dp policy, sf_auth (env_security env) dp (Some b) policy = SUCCESS.
Proof.
  intros Hauth Hsb Hp Hok Hs. destruct a; simpl in Hs; try done; injection Hs as ->.
  - left. by eapply native_start_shim.
  - destruct (Hok _ _ _ eq_refl) as [_ Hl]. destruct (trace_ok_in _ _ _ _ _ _ _ Hok Hl) as [l Hj].
    destruct (Hauth _ _ _ _ Hj) as (dp & policy & Hd).
    destruct (hooked_auth_success _ _ _ _ _ Hd); [by left|right; by eauto].
Qed.

(** Under Secure Boot nothing unverified is started: with any native_pe mode
    but always, every image that any kind of entry starts, natively, through
    the firmware, as a fallback or from an ISO, was accepted by shim or by the
    firmware's own authentication service, given that LoadImage authenticates
    what it loads. *)
Theorem no_unverified_start (env : Env) (volumes : list Volume) (entry : BootEntry) (p : Policy)
    (c : bool) (sb : SecureBootState) (log : TrustLog) (disk : LogFiles) (ov : Override)
    (pre post : list action) (a : action) (b : list Z) :
  authenticates (env_load_image env) -> calm ov -> sb <> SbDisabled -> loader_native_pe p <> NativeAlways ->
  boot_trace env volumes entry p c sb log disk ov = pre ++ a :: post -> started a = Some b ->
  shim_accepts (env_shim env) b = true \/
  exists dp policy, sf_auth (env_security env) dp (Some b) policy = SUCCESS.
Proof.
  intros Hauth Ho Hsb Hp E Hs. pose proof (boot_trace_ok env volumes entry p c sb log disk ov Ho) as Hok.
  rewrite E in Hok. by eapply trace_start_verified.
Qed.

(** Nothing is started unmeasured or unrecorded: every image start, by either
    loader, comes after the TPM was asked to measure exactly these bytes and
    after a trust record that accepts them and carries their hash; so an image
    shim rejected is never started. *)
Theorem start_is_measured_and_recorded (env : Env) (volumes : list Volume) (entry : BootEntry) (p : Policy)
    (c : bool) (sb : SecureBootState) (log : TrustLog) (disk : LogFiles) (ov : Override)
    (pre post : list action) (a : action) (b : list Z) :
  calm ov ->
  boot_trace env volumes entry p c sb log disk ov = pre ++ a :: post -> started a = Some b ->
  AMeasure (kernel_measurement b) (measure_kernel (env_tpm env) b) ∈ pre /\
  exists ev, ATrust ev ∈ pre /\ ev_sha256_hex ev = hex_encode_32 (sha256_of env b) /\
    ev_verified_via ev <> V_SHIM_REJECTED.
Proof.
  intros Ho E Hs. pose proof (boot_trace_ok env volumes entry p c sb log disk ov Ho _ _ _ E) as Hj.
  assert (recorded env b pre) as [Hm (ev & Hin & Hh & Hv & _)]
    by (destruct a; simpl in Hs; try done; injection Hs as ->; apply Hj).
  split; [exact Hm|]. by exists ev.
Qed.

(** The command line an action hands to an image. *)
Definition given_options (a : action) : option (list Z) :=
  match a with AStartNative _ o | ASetOptions _ o => Some o | _ => None end.

(** C8. The command line an image gets is the one that was measured: whenever a
    non-empty command line is handed to an image, by either loader, the TPM was
    asked before to measure exactly it into PCR 12, and the measured bytes
    determine the command line. *)
Theorem options_are_measured (env : Env) (volumes : list Volume) (entry : BootEntry) (p : Policy)
    (c : bool) (sb : SecureBootState) (log : TrustLog) (disk : LogFiles) (ov : Override)
    (pre post : list action) (a : action) (o : list Z) :
  calm ov ->
  boot_trace env volumes entry p c sb log disk ov = pre ++ a :: post -> given_options a = Some o -> o <> [] ->
  AMeasure (cmdline_measurement o) (measure_cmdline (env_tpm env) o) ∈ pre /\
  m_pcr (cmdline_measurement o) = 12 /\
  (forall o', Forall (fun x => is_scalar x = true) o -> Forall (fun x => is_scalar x = true) o' ->
     m_data (cmdline_measurement o') = m_data (cmdline_measurement o) -> o' = o).
Proof.
  intros Ho E Hs Hne. pose proof (boot_trace_ok env volumes entry p c sb log disk ov Ho _ _ _ E) as Hj.
  assert (measured_options env o pre) as [?|Hin]
    by (destruct a; simpl in Hs; try done; injection Hs as ->; apply Hj); [done|].
  split; [done|]. split; [done|]. intros o' ? ? ?. by apply cmdline_measurement_inj.
Qed.

(** ** A concrete boot *)
Definition demo_volume : Volume := {|
  vol_tag := lit "Uefi-FAT";
  vol_label := None;
  vol_backend := one_file (lit "/EFI/Linux/a.efi") demo_pe
|}.

(** Secure Boot through a shim that accepts [demo_pe] only; the kernel takes
    over when started. *)
Definition demo_env : Env := {|
  env_target := X86_64;
  env_pe := demo_firmware;
  env_tpm := mkTpm true true (Some true) (fun _ _ _ => true) (fun _ => true);
  env_shim := demo_shim demo_pe;
  env_security := demo_security;
  env_load_image := spec_load_image 5;
  env_open_loaded_image _ := Ok tt;
  env_start_image _ := FwNever;
  env_entry _ _ := None;
  env_cstring16 s := Some (s ++ [0]);
  env_register_initrd _ := true;
  env_mount_iso _ _ := Err NOT_FOUND;
  env_mount_optical _ := Err NOT_FOUND;
  env_fat := true;
  env_append _ _ _ := Appended
|}.

Definition demo_uki : BootEntry :=
  mkBoot (lit "uki") (lit "Arch") (Uki (lit "\EFI\Linux\a.efi") (lit "quiet")) IconLinux None None 0 (lit "Uefi-FAT").

Definition demo_trace (p : Policy) : list action :=
  boot_trace demo_env [demo_volume] demo_uki p false SbActiveWithShim log_new ∅ override_init.

Lemma override_init_calm : calm override_init.
Proof. split; [apply override_init_pristine|reflexivity]. Qed.

Lemma spec_load_authenticates (h : Z) : authenticates (spec_load_image h).
Proof. intros b h' as_ auth. simpl. destruct (auth 0 (Some b) false) eqn:E; [by eauto|done..]. Qed.

Lemma native_start_is_trusted_witness :
  exists pre post, demo_trace default_policy = pre ++ AStartNative demo_pe (lit "quiet") :: post /\ AShimVerify demo_pe true ∈ pre.
Proof.
  exists (take 8 (demo_trace default_policy)), (drop 9 (demo_trace default_policy)).
  assert (demo_trace default_policy =
    take 8 (demo_trace default_policy) ++ AStartNative demo_pe (lit "quiet") :: drop 9 (demo_trace default_policy)) as E
    by (vm_compute; reflexivity).
  split; [exact E|].
  destruct (native_start_is_trusted demo_env [demo_volume] demo_uki default_policy false SbActiveWithShim
    log_new ∅ override_init _ _ _ _ override_init_calm E) as [H|[H|[H _]]]; [discriminate H|discriminate H|exact H].
Defined.

Definition never_policy : Policy := set_loader_native_pe NativeNever default_policy.

Lemma no_unverified_start_witness :
  exists pre post, demo_trace never_policy = pre ++ AStartFirmware demo_pe 5 :: post /\
    (shim_accepts (env_shim demo_env) demo_pe = true \/
     exists dp policy, sf_auth (env_security demo_env) dp (Some demo_pe) policy = SUCCESS).
Proof.
  exists (take 10 (demo_trace never_policy)), (drop 11 (demo_trace never_policy)).
  assert (demo_trace never_policy =
    take 10 (demo_trace never_policy) ++ AStartFirmware demo_pe 5 :: drop 11 (demo_trace never_policy)) as E
    by (vm_compute; reflexivity).
  split; [exact E|].
  apply (no_unverified_start demo_env [demo_volume] demo_uki never_policy false SbActiveWithShim
    log_new ∅ override_init _ _ _ demo_pe (spec_load_authenticates 5) override_init_calm
    ltac:(discriminate) ltac:(discriminate) E eq_refl).
Defined.

Lemma start_is_measured_and_recorded_witness :
  exists pre post, demo_trace default_policy = pre ++ AStartNative demo_pe (lit "quiet") :: post /\
    AMeasure (kernel_measurement demo_pe) true ∈ pre.
Proof.
  exists (take 8 (demo_trace default_policy)), (drop 9 (demo_trace default_policy)).
  assert (demo_trace default_policy =
    take 8 (demo_trace default_policy) ++ AStartNative demo_pe (lit "quiet") :: drop 9 (demo_trace default_policy)) as E
    by (vm_compute; reflexivity).
  split; [exact E|].
  apply (start_is_measured_and_recorded demo_env [demo_volume] demo_uki default_policy false SbActiveWithShim
    log_new ∅ override_init _ _ _ demo_pe override_init_calm E eq_refl).
Defined.

Lemma options_are_measured_witness :
  exists pre post, demo_trace default_policy = pre ++ AStartNative demo_pe (lit "quiet") :: post /\
    AMeasure (cmdline_measurement (lit "quiet")) true ∈ pre.
Proof.
  exists (take 8 (demo_trace default_policy)), (drop 9 (demo_trace default_policy)).
  assert (demo_trace default_policy = take 8 (demo_trace default_policy) ++
    AStartNative demo_pe (lit "quiet") :: drop 9 (demo_trace default_policy)) as E by (vm_compute; reflexivity).
  split; [exact E|].
  apply (options_are_measured demo_env [demo_volume] demo_uki default_policy false SbActiveWithShim
    log_new ∅ override_init _ _ _ (lit "quiet") override_init_calm E eq_refl ltac:(discriminate)).
Defined.

(** ** What the code does where its documentation says otherwise *)
(** With [native_pe = "always"] an image is started natively under Secure Boot
    although neither shim nor the firmware checked it. *)
Theorem always_starts_unchecked :
  AStartNative demo_pe (lit "quiet") ∈ boot_trace demo_env [demo_volume] demo_uki
    (set_loader_native_pe NativeAlways default_policy) false SbActiveDirect log_new ∅ override_init /\
  Forall (fun a => match a with AShimVerify _ _ | ALoadImage _ _ => False | _ => True end)
    (boot_trace demo_env [demo_volume] demo_uki
       (set_loader_native_pe NativeAlways default_policy) false SbActiveDirect log_new ∅ override_init).
Proof.
  split.
  - set (tr := boot_trace _ _ _ _ _ _ _ _ _). replace tr with (take 7 tr ++ AStartNative demo_pe (lit "quiet") :: drop 8 tr).
    + apply elem_of_app. right. by left.
    + symmetry. vm_compute. reflexivity.
  - vm_compute. repeat constructor.
Qed.

(** The status of an [image_verified] record carries the quotes of the [Debug]
    rendering, so it is never equal to the documented word. *)
Theorem verified_status_is_quoted (env : Env) (bytes path via : list Z) :
  ev_status (image_verified_event env bytes path via (lit "SUCCESS")) = [c_quote] ++ lit "SUCCESS" ++ [c_quote] /\
  ev_status (image_verified_event env bytes path via (lit "SUCCESS")) <> lit "SUCCESS".
Proof. split; [done|vm_compute; discriminate]. Qed.

(** ** A log that cannot be written *)

(** The log files are as they were. *)
Definition keeps_disk {A : Type} (m : M A) : Prop :=
  forall s q, log_file_at (bs_disk (m s).2) q = log_file_at (bs_disk s) q.

Create HintDb keeps.

Lemma keeps_ret {A : Type} (a : A) : keeps_disk (mret a).
Proof. done. Qed.
Lemma keeps_fail {A : Type} (e : Status) : keeps_disk (@fail A e).
Proof. done. Qed.
Lemma keeps_panicked {A : Type} : keeps_disk (@panicked A).
Proof. done. Qed.
Lemma keeps_taken {A : Type} : keeps_disk (@taken A).
Proof. done. Qed.
Lemma keeps_act (a : action) : keeps_disk (act a).
Proof. done. Qed.
Lemma keeps_trust (ev : TrustEvent) : keeps_disk (trust ev).
Proof. done. Qed.
Lemma keeps_try {A : Type} (r : res Status A) : keeps_disk (try r).
Proof. by destruct r. Qed.
Lemma keeps_service {A : Type} (body : Override -> fw_result A * Override) : keeps_disk (service body).
Proof. intros s q. unfold service. by destruct (body (bs_ov s)) as [[r|] o]. Qed.
Lemma keeps_bind {A B : Type} (m : M A) (k : A -> M B) :
  keeps_disk m -> (forall a, keeps_disk (k a)) -> keeps_disk (m ≫= k).
Proof.
  intros Hm Hk s q. specialize (Hm s q). unfold mbind, M_bind. destruct (m s) as [[a|e| |] s1]; try done.
  simpl in Hm. by rewrite Hk.
Qed.
Lemma keeps_or_else {A : Type} (m f : M A) : keeps_disk m -> keeps_disk f -> keeps_disk (or_else m f).
Proof.
  intros Hm Hf s q. specialize (Hm s q). unfold or_else. destruct (m s) as [[a|e| |] s1]; try done.
  simpl in Hm. by rewrite Hf.
Qed.

#[export] Hint Resolve keeps_ret keeps_fail keeps_panicked keeps_taken keeps_act keeps_trust keeps_try keeps_service
  keeps_bind keeps_or_else : keeps.

Ltac keeps :=
  repeat first
    [ solve [auto with keeps]
    | apply keeps_bind; [|intros ?]
    | apply keeps_or_else
    | match goal with
      | |- keeps_disk (match ?x with _ => _ end) => destruct x
      | |- keeps_disk (if ?x then _ else _) => destruct x
      | |- keeps_disk (let '(_, _) := ?x in _) => destruct x
      end ].

Section unwritable.
Context (env : Env).
Hypothesis Hw : forall path old data, env_append env path old data = Stopped 0.

Lemma keeps_flush : keeps_disk (flush_log env).
Proof.
  intros s q. unfold flush_log, flush. case_bool_decide; [done|]. destruct (serialize_pending (bs_log s)) as [buf t'].
  destruct (negb _); [done|]. destruct (path_from_str _) as [path| |]; [|done..]. cbn [fst snd bs_disk].
  rewrite append_log_at, Hw. simpl. rewrite take_0. destruct (decide _); by rewrite app_nil_r.
Qed.

Lemma keeps_flush_unless (c : bool) : keeps_disk (flush_unless env c).
Proof. unfold flush_unless. destruct c; simpl; [apply keeps_ret|apply keeps_flush]. Qed.

#[local] Hint Resolve keeps_flush keeps_flush_unless : keeps.

Lemma keeps_options (options : list Z) : keeps_disk (options_utf16 env options).
Proof. unfold options_utf16. keeps. Qed.
#[local] Hint Resolve keeps_options : keeps.

Lemma keeps_native (v : VerifiedBytes) (options tag path : list Z) (c : bool) :
  keeps_disk (native_load_and_start env v options tag path c).
Proof. unfold native_load_and_start. keeps. Qed.

Lemma keeps_load (bytes : list Z) : keeps_disk (load_efi_image_from_buffer env bytes).
Proof. unfold load_efi_image_from_buffer. keeps. Qed.

Lemma keeps_set_options (h : Z) (options : list Z) : keeps_disk (set_load_options env h options).
Proof. unfold set_load_options. keeps. Qed.
#[local] Hint Resolve keeps_load keeps_set_options : keeps.

Lemma keeps_firmware (bytes options : list Z) (mode : LoaderNativePeMode) (path : list Z) :
  keeps_disk (firmware_load_and_start env bytes options mode path).
Proof. unfold firmware_load_and_start, firmware_start. keeps. Qed.
#[local] Hint Resolve keeps_native keeps_firmware : keeps.

Lemma keeps_verify (bytes path : list Z) (sb : SecureBootState) : keeps_disk (verify_kernel_bytes env bytes path sb).
Proof. unfold verify_kernel_bytes. keeps. Qed.

Lemma keeps_measure (bytes options path : list Z) : keeps_disk (measure_both env bytes options path).
Proof. unfold measure_both, measure_kernel_logged, measure_cmdline_logged. keeps. Qed.

Lemma keeps_register (bytes : list Z) : keeps_disk (register_initrd env bytes).
Proof. unfold register_initrd. keeps. Qed.
#[local] Hint Resolve keeps_verify keeps_measure keeps_register : keeps.

Lemma keeps_iso_resolved (iso : Volume) (label kernel : list Z) (initrds : list (list Z)) (options : list Z) (p : Policy)
    (c : bool) (sb : SecureBootState) :
  keeps_disk (iso_boot_resolved env iso label kernel initrds options p c sb).
Proof. unfold iso_boot_resolved. keeps. Qed.
#[local] Hint Resolve keeps_iso_resolved : keeps.

Lemma keeps_recipe (iso : Volume) (template : DistroRecipe -> list Z) (iso_path label source log_label : list Z) (p : Policy)
    (c : bool) (sb : SecureBootState) :
  keeps_disk (boot_by_recipe env iso template iso_path label source log_label p c sb).
Proof. unfold boot_by_recipe. keeps. Qed.
End unwritable.

(** Booting an ISO file that lies on the ESP writes nothing to the log: none of
    the events of the attempt (mount, measurement, verification, load) is
    persisted before the kernel runs, on any firmware. *)
Theorem iso_on_esp_unlogged (env : Env) (volumes : list Volume) (entry : BootEntry) (p : Policy) (c : bool)
    (sb : SecureBootState) (iso_path q : list Z) (s : BState) :
  be_kind entry = Iso (IsoFile iso_path) -> be_source_volume_index entry = 0%nat ->
  log_file_at (bs_disk (boot_entry env volumes entry p c sb s).2) q = log_file_at (bs_disk s) q.
Proof.
  intros Hk Hi. revert s q. change (keeps_disk (boot_entry env volumes entry p c sb)). unfold boot_entry.
  destruct volumes as [|esp rest]; [apply keeps_fail|]. rewrite Hk, Hi. unfold boot_iso, holding_env. cbv zeta.
  pose proof (keeps_iso_resolved (unwritable env) (fun _ _ _ => eq_refl)) as Hres.
  pose proof (keeps_recipe (unwritable env) (fun _ _ _ => eq_refl)) as Hrec. keeps.
Qed.
