(* ===== verification/DriverSafety.v ===== *)
(** * What loading drivers guarantees (on drivers.rs)

    The override stays installed while a driver starts, so its part of the run
    has the invariant [installed] instead of [calm]. *)
From S2P Require Import Prelude Compare RustStr Utf8 VersionOrder BlsParse PeLoader PeLoad FsTypes BootTypes Policy TrustLog SecureBoot SecurityOverride Tpm VolumeFs IsoBoot BootFlow Drivers BootHoare BootSafety.
Local Open Scope Z_scope.

Section drivers.
Context (env : Env) (p : Policy) (sb : SecureBootState).
Context (sfs_handles all_handles : res Status (list Z)) (status_debug : Status -> list Z).

(** The state between installing the override and dropping its guard. *)
Definition installed (o : Override) : Prop :=
  let fw := env_security env in
  exists c, accounted c /\
    o = if locate_raw_protocol fw Security2Arch || locate_raw_protocol fw SecurityArch then hooked fw c
        else mkOverride false false false None None FirmwareHook FirmwareHook c.

Lemma hoare_installed_service {A : Type} (P : list action -> Prop) (q : fw_prog A) :
  hoareI env p sb installed P (service (run_service env q))
    (fun r => known (oracle_run (sf_auth_state (env_security env))
                       (hooked_auth (env_shim env) (env_security env)) q = Some r)).
Proof.
  apply hoare_service. intros o (c & Hc & ->). unfold run_service.
  destruct (locate_raw_protocol _ Security2Arch || _) eqn:E.
  - destruct (fw_run_hooked (env_shim env) (env_security env) q c Hc) as (c' & Hc' & ->).
    destruct (oracle_run _ _ q) as [r|]; [|done]. split; [|done]. exists c'. by rewrite E.
  - apply orb_false_elim in E as E'. destruct E' as [E2 _].
    rewrite fw_run_pristine by (by exists c).
    rewrite (oracle_run_ext _ (hooked_auth (env_shim env) (env_security env)) (sf_auth (env_security env)))
      by (intros; by apply hooked_auth_unpublished).
    destruct (oracle_run _ _ q) as [r|]; [|done]. split; [|done]. exists c. by rewrite E.
Qed.

(** The guard restores the firmware's tables on every return. *)
Lemma hoare_guarded {A : Type} (P : list action -> Prop) (Q : A -> list action -> Prop) (m : M A) :
  hoareI env p sb installed P m Q -> hoareI env p sb calm P (guarded env m) Q.
Proof.
  intros Hm s Ht [[c Eo] Hc] HP. unfold guarded. rewrite Eo, install_pristine.
  rewrite Eo in Hc. simpl in Hc.
  set (o := if locate_raw_protocol _ Security2Arch || locate_raw_protocol _ SecurityArch
            then (true, hooked (env_security env) c) else (false, _)).
  assert (installed o.2) as Hi by (exists c; split; [done|]; unfold o; by destruct (_ || _)).
  destruct (Hm (mkBState (bs_log s) (bs_disk s) o.2 (bs_trace s)) Ht Hi HP) as (Ht1 & Hn & Hr).
  assert (forall s', installed (bs_ov s') ->
    calm (bs_ov (if o.1 then mkBState (bs_log s') (bs_disk s') (uninstall_security_override (bs_ov s')) (bs_trace s')
                 else s'))) as Hcalm.
  { intros s' (c' & Hc' & E). unfold o. destruct (_ || _); simpl; rewrite E; simpl.
    - destruct (uninstall_hooked (env_security env) c') as [c2 E2]. split; [by exists c2|]. done.
    - split; [by exists c'|done]. }
  clearbody o. destruct o as [g o]. simpl in *.
  assert (forall s', bs_trace (if g then mkBState (bs_log s') (bs_disk s')
     (uninstall_security_override (bs_ov s')) (bs_trace s') else s') = bs_trace s') as Htr by (by destruct g).
  destruct (m _) as [[a|e| |] s']; simpl in *; rewrite ?Htr; [|by auto|done..].
  destruct Hr. by auto.
Qed.

Lemma hoare_single_driver (esp : Volume) (path : list Z) :
  driver_permitted (drivers_legacy p) path ->
  hoareI env p sb calm (known True) (load_single_driver env esp path) (fun _ _ => True).
Proof.
  intros Hp. unfold load_single_driver. eapply hoare_skip; [apply _|apply hoare_try|]. intros b.
  eapply hoare_bind; [apply _|by apply hoare_act|]. intros ?. apply hoare_guarded.
  eapply hoare_bind; [apply _|apply hoare_installed_service|]. intros r.
  eapply hoare_bind; [apply _|apply hoare_act; intros tr [_ Hr]; by destruct r|]. intros ?.
  eapply hoare_bind; [apply _|apply hoare_try|]. intros h.
  eapply hoare_skip; [apply _|apply hoare_act|intros _].
  { intros tr [[[[_ Hm] _] Hl] Hr]. unfold known in Hr. subst r. by split; [|split]. }
  eapply hoare_skip; [apply _|apply hoare_installed_service|]. intros r'.
  eapply hoare_weaken; [apply hoare_try|done|done].
Qed.

Lemma hoare_attempt {A : Type} (P : list action -> Prop) (Q : A -> list action -> Prop) (m : M A) :
  hoareI env p sb calm P m Q -> hoareI env p sb calm P (attempt m) (fun _ _ => True).
Proof.
  intros Hm s Ht Ho HP. destruct (Hm s Ht Ho HP) as (? & ? & Hr). unfold attempt.
  destruct (m s) as [[a|e| |] s']; simpl in *; [|done..]. by destruct Hr.
Qed.

(** The trust log names the path. *)
Definition logged (path : list Z) (tr : list action) : Prop := exists ev, ATrust ev ∈ tr /\ ev_path ev = path.

#[local] Instance mono_logged (path : list Z) : Mono (logged path).
Proof. intros tr new (ev & Hin & H). exists ev. split; [by apply (mono_has _)|done]. Qed.

Lemma hoare_trust_ret {A : Type} (P : list action -> Prop) `{!Mono P} (ev : TrustEvent) (path : list Z) (a : A) :
  ev_path ev = path ->
  hoareI env p sb calm P (_ ← trust ev; mret a) (fun _ => logged path).
Proof.
  intros Hp. eapply hoare_bind; [done|apply hoare_trust|]. intros ?. apply hoare_ret.
  intros tr [_ Hin]. by exists ev.
Qed.

Lemma hoare_load_recorded (esp : Volume) (path : list Z) :
  driver_permitted (drivers_legacy p) path ->
  hoareI env p sb calm (known True) (load_recorded env status_debug esp path) (fun _ => logged path).
Proof.
  intros Hp. unfold load_recorded.
  eapply hoare_skip; [apply _|by eapply hoare_attempt, hoare_single_driver|].
  intros [?|e]; by apply hoare_trust_ret; [apply _|].
Qed.

Lemma hoare_load_one (esp : Volume) (f : list Z) :
  has_extension_ignore_case f (lit "efi") = true ->
  hoareI env p sb calm (known True) (load_one env status_debug esp (drivers_legacy p) f)
    (fun _ => logged (driver_path f)).
Proof.
  intros Hf. unfold load_one. destruct (drivers_legacy p) eqn:Em.
  - destruct (filesystem_natively_covered f) eqn:Ec.
    + eapply hoare_skip; [apply _|apply hoare_trust|]. intros ?. apply hoare_trust_ret; [apply _|done].
    + apply hoare_load_recorded. exists f. rewrite Em. done.
  - eapply hoare_skip; [apply _| |intros _].
    + instantiate (1 := fun _ _ => True).
      destruct (filesystem_natively_covered f); [|by apply hoare_ret].
      eapply hoare_weaken; [apply hoare_trust|done|done].
    + apply hoare_load_recorded. exists f. rewrite Em. done.
  - apply hoare_trust_ret; [apply _|done].
Qed.

Definition all_logged (files : list (list Z)) (tr : list action) : Prop :=
  Forall (fun f => logged (driver_path f) tr) files.

#[local] Instance mono_all_logged (files : list (list Z)) : Mono (all_logged files).
Proof. intros tr new H. eapply Forall_impl; [exact H|]. intros f Hf. by apply mono. Qed.

Lemma hoare_load_each (esp : Volume) (files : list (list Z)) (n : Z) :
  Forall (fun f => has_extension_ignore_case f (lit "efi") = true) files ->
  hoareI env p sb calm (known True) (load_each env status_debug esp (drivers_legacy p) files n)
    (fun _ => all_logged files).
Proof.
  intros Hf. revert n. induction Hf as [|f files Hf _ IH]; intros n.
  - apply hoare_ret. constructor.
  - cbn [load_each]. eapply hoare_bind; [apply _|by apply hoare_load_one|]. intros m.
    eapply (hoare_weaken env p sb calm (both (known True) (logged (driver_path f))) _
      (fun _ => both (all_logged files) (logged (driver_path f)))); [|done|].
    2:{ intros a tr [? ?]. by constructor. }
    intros s Ht Ho [_ Hl]. destruct (IH (n + m) s Ht Ho I) as (? & [new E] & Hr).
    split; [done|]. split; [by exists new|]. destruct (load_each _ _ _ _ _ _ s).1; [|done..].
    destruct Hr as [? Hr]. split; [done|]. split; [done|]. rewrite E. by apply mono.
Qed.

Lemma hoare_connect (P : list action -> Prop) `{!Mono P} (hs : list Z) :
  hoareI env p sb calm P (mapM (fun h => act (AConnect h)) hs) (fun _ _ => True).
Proof.
  induction hs as [|h hs IH]; [by apply hoare_ret|]. cbn.
  eapply hoare_skip; [done|by apply hoare_act|]. intros ?.
  eapply hoare_skip; [done|apply IH|]. intros ?. by apply hoare_ret.
Qed.

Lemma hoare_reconnect (P : list action -> Prop) `{!Mono P} :
  hoareI env p sb calm P (reconnect_all_controllers sfs_handles all_handles) (fun _ _ => True).
Proof.
  unfold reconnect_all_controllers. destruct sfs_handles as [hs| |]; [|by apply hoare_ret..].
  eapply hoare_skip; [done|by apply hoare_connect|]. intros _.
  destruct all_handles as [hs'| |]; [|by apply hoare_ret..].
  eapply hoare_skip; [done|by apply hoare_connect|]. intros _. by apply hoare_ret.
Qed.

Definition listed_drivers (esp : Volume) : list (list Z) :=
  match vol_read_dir esp DRIVERS_DIR with Ok filenames => driver_files filenames | _ => [] end.

Lemma hoare_load_drivers (esp : Volume) :
  hoareI env p sb calm (known True)
    (load_drivers env sfs_handles all_handles status_debug esp (drivers_legacy p))
    (fun _ => all_logged (listed_drivers esp)).
Proof.
  unfold load_drivers, listed_drivers.
  destruct (vol_read_dir esp DRIVERS_DIR) as [names| |]; [|apply hoare_ret; constructor..].
  assert (Forall (fun f => has_extension_ignore_case f (lit "efi") = true) (driver_files names)) as Hf.
  { apply List.Forall_forall. intros f [_ ?]%filter_In. done. }
  destruct (driver_files names) as [|f fs]; [apply hoare_ret; constructor|].
  eapply hoare_bind; [apply _|by apply hoare_load_each|]. intros n.
  eapply hoare_skip; [apply _| |intros _].
  { instantiate (1 := fun _ _ => True). destruct (0 <? n); [apply hoare_reconnect; apply _|by apply hoare_ret]. }
  apply hoare_ret. by intros tr [_ ?].
Qed.
End drivers.

Definition driver_run (env : Env) (sfs all : res Status (list Z)) (dbg : Status -> list Z) (esp : Volume)
    (p : Policy) (log : TrustLog) (disk : LogFiles) (ov : Override) : outcome Z * BState :=
  load_drivers env sfs all dbg esp (drivers_legacy p) (mkBState log disk ov []).

(** C10. Driver loading is gated, measured, verified and recorded: every driver
    started is an .efi file of the drivers directory that the policy permits
    (none under never, none whose filesystem LamBoot reads itself under auto),
    was measured into PCR 4 under its path before, and, given that LoadImage
    authenticates, was accepted by shim or the firmware; when the pass
    returns, the trust log has a record for every .efi file of the directory
    and the firmware's authentication tables are its own again. *)
Theorem drivers_gated (env : Env) (sfs all : res Status (list Z)) (dbg : Status -> list Z) (esp : Volume)
    (p : Policy) (log : TrustLog) (disk : LogFiles) (ov : Override) :
  calm ov ->
  (forall pre path b h post,
     bs_trace (driver_run env sfs all dbg esp p log disk ov).2 = pre ++ AStartDriver path b h :: post ->
     driver_permitted (drivers_legacy p) path /\
     AMeasure (driver_measurement b path) (measure_driver (env_tpm env) b path) ∈ pre /\
     (authenticates (env_load_image env) ->
        shim_accepts (env_shim env) b = true \/
        exists dp policy, sf_auth (env_security env) dp (Some b) policy = SUCCESS)) /\
  (forall n, (driver_run env sfs all dbg esp p log disk ov).1 = Ret n ->
     calm (bs_ov (driver_run env sfs all dbg esp p log disk ov).2) /\
     forall f, f ∈ listed_drivers esp ->
       exists ev, ATrust ev ∈ bs_trace (driver_run env sfs all dbg esp p log disk ov).2 /\
         ev_path ev = driver_path f).
Proof.
  intros Ho. destruct (hoare_load_drivers env p SbDisabled sfs all dbg esp (mkBState log disk ov []))
    as (Hok & _ & Hr); [|done..|].
  { intros pre a post E. by destruct pre. }
  fold (driver_run env sfs all dbg esp p log disk ov) in *. split.
  - intros pre path b h post E. rewrite E in Hok.
    destruct (Hok _ _ _ eq_refl) as (Hm & Hl & Hp). split; [done|]. split; [done|]. intros Ha.
    destruct (trace_ok_in _ _ _ _ _ _ _ Hok Hl) as [l Hj].
    destruct (Ha _ _ _ _ Hj) as (dp & policy & Hd).
    destruct (hooked_auth_success _ _ _ _ _ Hd); [by left|right; by eauto].
  - intros n E. rewrite E in Hr. destruct Hr as [? Hr]. split; [done|].
    intros f Hf. exact (proj1 (Forall_forall _ _) Hr f Hf).
Qed.

(** ** A concrete pass: an NTFS driver is loaded, the ext4 one is skipped *)
Definition demo_driver_volume : Volume := {|
  vol_tag := lit "Uefi-FAT";
  vol_label := None;
  vol_backend := {|
    fb_read _ := Ok [77; 90];
    fb_read_at _ _ _ := Ok [77; 90];
    fb_exists _ := Ok true;
    fb_read_dir _ :=
      Ok ((fun n => mkDirEntry n Regular 2) <$> [lit "ext4_x64.efi"; lit "ntfs_x64.EFI"; lit "README"])
  |}
|}.

Definition demo_driver_run : outcome Z * BState :=
  driver_run demo_env (Ok []) (Ok []) (fun _ => []) demo_driver_volume default_policy log_new ∅ override_init.

(** Shim knows another image: the driver is refused, and both files are recorded. *)
Example driver_rejected :
  demo_driver_run.1 = Ret 0 /\
  omap (fun a => match a with ATrust ev => Some (ev_event ev) | _ => None end) (bs_trace demo_driver_run.2) =
    [lit "native_backend_preferred"; lit "legacy_driver_skipped_covered"; lit "legacy_driver_rejected"].
Proof. split; vm_compute; reflexivity. Qed.

Definition driver_env : Env := {|
  env_target := X86_64;
  env_pe := demo_firmware;
  env_tpm := env_tpm demo_env;
  env_shim := demo_shim [77; 90];
  env_security := demo_security;
  env_load_image := spec_load_image 5;
  env_open_loaded_image _ := Ok tt;
  env_start_image _ := FwDone (Ok tt);
  env_entry _ _ := None;
  env_cstring16 s := Some (s ++ [0]);
  env_register_initrd _ := true;
  env_mount_iso _ _ := Err NOT_FOUND;
  env_mount_optical _ := Err NOT_FOUND;
  env_fat := true;
  env_append _ _ _ := Appended
|}.

#[local] Notation good_driver_run :=
  (driver_run driver_env (Ok []) (Ok []) (fun _ => []) demo_driver_volume default_policy log_new ∅ override_init).

Lemma drivers_gated_witness :
  good_driver_run.1 = Ret 1 /\
  (exists pre post, bs_trace good_driver_run.2 =
     pre ++ AStartDriver (driver_path (lit "ntfs_x64.EFI")) [77; 90] 5 :: post /\
     driver_permitted DriversAuto (driver_path (lit "ntfs_x64.EFI"))) /\
  (exists ev, ATrust ev ∈ bs_trace good_driver_run.2 /\ ev_path ev = driver_path (lit "ext4_x64.efi")).
Proof.
  destruct (drivers_gated driver_env (Ok []) (Ok []) (fun _ => []) demo_driver_volume default_policy
    log_new ∅ override_init override_init_calm) as [Hs Hr].
  assert (good_driver_run.1 = Ret 1) as E1 by (vm_compute; reflexivity).
  split; [exact E1|]. split.
  - exists (take 4 (bs_trace good_driver_run.2)), (drop 5 (bs_trace good_driver_run.2)).
    assert (bs_trace good_driver_run.2 = take 4 (bs_trace good_driver_run.2) ++
      AStartDriver (driver_path (lit "ntfs_x64.EFI")) [77; 90] 5 :: drop 5 (bs_trace good_driver_run.2)) as E
      by (vm_compute; reflexivity).
    split; [exact E|]. apply (Hs _ _ _ _ _ E).
  - apply (proj2 (Hr 1 E1)). left.
Defined.

(** While a driver starts the override is still installed: a driver that asks
    the authentication service about a shim-approved buffer is told it is fine,
    though the firmware itself rejects it. *)
Example override_spans_start :
  let env := {|
    env_target := X86_64; env_pe := demo_firmware; env_tpm := env_tpm demo_env; env_shim := demo_shim [77; 90];
    env_security := demo_security; env_load_image := spec_load_image 5; env_open_loaded_image _ := Ok tt;
    env_start_image _ := FwAuth 0 (Some [77; 90]) false (fun st => FwDone (match st with SUCCESS => Ok tt | e => Err e end));
    env_entry _ _ := None; env_cstring16 s := Some (s ++ [0]); env_register_initrd _ := true;
    env_mount_iso _ _ := Err NOT_FOUND; env_mount_optical _ := Err NOT_FOUND;
    env_fat := true; env_append _ _ _ := Appended |} in
  (driver_run env (Ok []) (Ok []) (fun _ => []) demo_driver_volume default_policy log_new ∅ override_init).1 = Ret 1.
Proof. vm_compute. reflexivity. Qed.
