(* ===== verification/Preflight.v ===== *)
(** * Preflight checks (preflight.rs, and the loop over the entries in main.rs)

    Before the menu every entry is checked and the results are recorded.  The
    checks run in the monad of [BootFlow]: they read volumes and may ask shim,
    which counts the calls it could not make. *)
From S2P Require Import Prelude Compare RustStr Utf8 VersionOrder BlsParse PeLoader PeLoad FsTypes BootTypes Policy TrustLog SecureBoot SecurityOverride Tpm VolumeFs IsoBoot BootFlow Drivers BootHoare BootSafety.
Local Open Scope Z_scope.

Definition ck_ok : CheckResult := mkCheck SevOk [].
Definition ck_warning (msg : list Z) : CheckResult := mkCheck SevWarning msg.
Definition ck_error (msg : list Z) : CheckResult := mkCheck SevError msg.

(** ** Where a file is *)
Definition has_file (path : list Z) (v : Volume) : bool := bool_decide (is_Some (exists_with_boot_fallback v path)).

Definition file_exists_any (esp : Volume) (extra_volumes : list Volume) (path : list Z) : bool :=
  has_file path esp || existsb (has_file path) extra_volumes.

Definition check_file_exists_any (esp : Volume) (extra_volumes : list Volume) (path : list Z) : CheckResult :=
  if file_exists_any esp extra_volumes path then ck_ok
  else ck_error (lit "File not found: " ++ path).

(** The ESP when no volume has it. *)
Definition find_volume_with_file (esp : Volume) (extra_volumes : list Volume) (path : list Z) : Volume :=
  if has_file path esp then esp
  else match List.find (has_file path) extra_volumes with
       | Some v => v
       | None => esp
       end.

Definition resolved_path (v : Volume) (path : list Z) : list Z :=
  default path (exists_with_boot_fallback v path).

(** ** The checks *)
Definition native_machine (t : target_arch) : Z := match t with X86_64 => 0x8664 | Aarch64 => 0xAA64 end.

Definition machine_name (machine : Z) : list Z :=
  if machine =? 0x8664 then lit "x86_64" else if machine =? 0xAA64 then lit "aarch64" else lit "unknown".

(** On the bytes that were read: indexing panics where Rust does. *)
Definition pe_header_verdict (target : target_arch) (data : list Z) : res FsError CheckResult :=
  if len data <? 64 then Ok (ck_warning (lit "File too small for PE binary"))
  else
    let? magic := slice 0 2 data in
    if negb (bool_decide (magic = [0x4D; 0x5A])) then Ok (ck_warning (lit "Invalid PE header (no MZ signature)"))
    else
      let? o := slice 0x3C 0x40 data in
      let pe_offset := from_le o in
      if len data <? pe_offset + 4 then Ok (ck_warning (lit "PE header offset out of bounds"))
      else
        let? sig := slice pe_offset (pe_offset + 4) data in
        if negb (bool_decide (sig = [0x50; 0x45; 0; 0])) then Ok (ck_warning (lit "Invalid PE signature"))
        else
          let? m0 := index (pe_offset + 4) data in
          let? m1 := index (pe_offset + 5) data in
          let machine := from_le [m0; m1] in
          if negb (machine =? native_machine target)
          then Ok (ck_warning (lit "Architecture mismatch: found " ++ machine_name machine))
          else Ok ck_ok.

Definition check_pe_header (target : target_arch) (v : Volume) (path : list Z) : res FsError CheckResult :=
  match read_at_str (vol_backend v) path 0 256 with
  | Ok data => pe_header_verdict target data
  | Err _ => Ok (ck_warning (lit "Cannot read file for PE validation"))
  | Panic => Panic
  end.

Definition check_root_param (options : list Z) : CheckResult :=
  match List.find (starts_with (lit "root=")) (split_whitespace options) with
  | None => ck_ok
  | Some t =>
      let root_spec := drop 5 t in
      match strip_prefix (lit "UUID=") root_spec with
      | Some uuid =>
          if negb (Nat.eqb (length (split_char c_dash uuid)) 5)
          then ck_warning (lit "Malformed UUID in root=: " ++ uuid) else ck_ok
      | None => ck_ok
      end
  end.

Section preflight.
Context (env : Env).

(** [security_override::shim_validate(&data)] *)
Definition ask_shim (bytes : list Z) : M bool := fun s =>
  let '(ok, o) := shim_validate (env_shim env) bytes (bs_ov s) in
  (Ret ok, mkBState (bs_log s) (bs_disk s) o (bs_trace s)).

Definition check_secure_boot (v : Volume) (path : list Z) (sb : SecureBootState) : M CheckResult :=
  if bool_decide (sb = SbDisabled) then mret ck_ok
  else
    match read_str (vol_backend v) path with
    | Panic => panicked
    | Err _ => mret (ck_warning (lit "Cannot read file for Secure Boot check"))
    | Ok data =>
        ok ← (if bool_decide (sb = SbActiveWithShim) then ask_shim data else mret false);
        if (ok : bool) then mret ck_ok
        else if verify_image (env_shim env) data sb then mret ck_ok
        else mret (ck_warning (lit "Not signed for Secure Boot"))
    end.

(** A panic of the header check is a panic of the run. *)
Definition pe_header_check (v : Volume) (path : list Z) : M CheckResult :=
  match check_pe_header (env_target env) v path with
  | Ok c => mret c
  | Err _ => mret ck_ok       (* does not occur: [check_pe_header] returns no error *)
  | Panic => panicked
  end.

(** The checks of an image file: existence, then its header and its signature. *)
Definition image_checks (esp : Volume) (extras : list Volume) (path : list Z) (sb : SecureBootState)
    : M (list CheckResult) :=
  let file_ok := check_file_exists_any esp extras path in
  if bool_decide (ck_severity file_ok = SevOk) then
    let vol := find_volume_with_file esp extras path in
    let resolved := resolved_path vol path in
    c1 ← pe_header_check vol resolved;
    if bool_decide (sb = SbDisabled) then mret [file_ok; c1]
    else c2 ← check_secure_boot vol resolved sb; mret [file_ok; c1; c2]
  else mret [file_ok].

Definition initrd_checks (esp : Volume) (extras : list Volume) (paths : list (list Z)) : list CheckResult :=
  omap (fun p => if file_exists_any esp extras p then None
                 else Some (ck_warning (lit "Initrd not found: " ++ p))) paths.

Definition run_preflight (kind : EntryKind) (esp : Volume) (extras : list Volume) (sb : SecureBootState)
    : M PreflightResult :=
  match kind with
  | Chainload path | Uki path _ =>
      cs ← image_checks esp extras path sb; mret (from_checks cs)
  | LinuxLegacy kernel_path initrd_paths options =>
      cs ← image_checks esp extras kernel_path sb;
      mret (from_checks (cs ++ initrd_checks esp extras initrd_paths ++ [check_root_param options]))
  | Iso (IsoFile iso_path) => mret (from_checks [check_file_exists_any esp extras iso_path])
  | Iso (IsoOptical _ _) => mret (from_checks [])
  end.

(** ** The loop of main.rs *)
Definition issue_event (entry : BootEntry) (c : CheckResult) : TrustEvent :=
  let sev := match ck_severity c with SevWarning => lit "warning" | SevError => lit "error" | SevOk => lit "ok" end in
  with_note (lit "entry_id=" ++ be_id entry ++ lit " severity=" ++ sev ++ lit " msg=" ++ ck_message c)
    (event_new (lit "preflight_issue")).

Fixpoint record_issues (entry : BootEntry) (cs : list CheckResult) : M unit :=
  match cs with
  | [] => mret tt
  | c :: cs' =>
      _ ← (if bool_decide (ck_severity c = SevOk) then mret tt else trust (issue_event entry c));
      record_issues entry cs'
  end.

Definition with_preflight (pf : PreflightResult) (e : BootEntry) : BootEntry :=
  mkBoot (be_id e) (be_name e) (be_kind e) (be_icon e) (be_bls_filename e) (Some pf)
    (be_source_volume_index e) (be_source_backend_tag e).

Fixpoint preflight_entries (esp : Volume) (extras : list Volume) (sb : SecureBootState) (entries : list BootEntry)
    : M (list BootEntry) :=
  match entries with
  | [] => mret []
  | e :: rest =>
      pf ← run_preflight (be_kind e) esp extras sb;
      _ ← record_issues e (pf_checks pf);
      rest' ← preflight_entries esp extras sb rest;
      mret (with_preflight pf e :: rest')
  end.
End preflight.

(** ** When a check panics *)
Definition truncated_header (data : list Z) : Prop :=
  64 <= len data /\ sub_list 0 2 data = [0x4D; 0x5A] /\
  (let o := from_le (sub_list 0x3C 0x40 data) in
   sub_list o (o + 4) data = [0x50; 0x45; 0; 0] /\ o + 4 <= len data < o + 6).

Lemma from_le_nonneg (bs : list Z) : Forall is_byte bs -> 0 <= from_le bs.
Proof. intros H. by apply from_le_bound. Qed.

Lemma pe_verdict_panic (t : target_arch) (data : list Z) :
  Forall is_byte data -> pe_header_verdict t data = Panic <-> truncated_header data.
Proof.
  intros Hb. unfold pe_header_verdict, truncated_header. cbv zeta.
  destruct (Z.ltb_spec (len data) 64) as [H1|H1]; [split; [done|lia]|].
  rewrite slice_ok by lia. simpl. case_bool_decide as Hm; simpl; [|naive_solver].
  rewrite slice_ok by lia. simpl. set (o := from_le (sub_list 0x3C 0x40 data)).
  assert (0 <= o) as Ho by by apply from_le_nonneg, Forall_sub_list.
  destruct (Z.ltb_spec (len data) (o + 4)) as [H2|H2]; [split; [done|lia]|].
  rewrite slice_ok by lia. simpl. case_bool_decide as Hs; simpl; [|naive_solver].
  destruct (Z.lt_ge_cases (len data) (o + 6)) as [H3|H3].
  - split; [done|]. intros _. destruct (Z.lt_ge_cases (o + 4) (len data)) as [H4|H4].
    + destruct (@index_in FsError Z (o + 4) data) as [a ->]; [lia|]. simpl. by rewrite index_out by lia.
    + by rewrite index_out by lia.
  - split; [|lia]. destruct (@index_in FsError Z (o + 4) data) as [a ->]; [lia|]. simpl.
    destruct (@index_in FsError Z (o + 5) data) as [b ->]; [lia|]. simpl. by destruct (_ =? _).
Qed.

Lemma pe_verdict_no_error (t : target_arch) (data : list Z) (e : FsError) : pe_header_verdict t data <> Err e.
Proof.
  unfold pe_header_verdict, slice, index.
  repeat (first [destruct (in_range _ _ _)|destruct (bool_decide _)|destruct (_ <? _)|destruct (0 <=? _)
    |destruct (data !! _)|destruct (_ =? _)]; simpl; try done).
Qed.

Lemma pe_verdict_not_severe (t : target_arch) (data : list Z) (c : CheckResult) :
  pe_header_verdict t data = Ok c -> ck_severity c <> SevError.
Proof.
  unfold pe_header_verdict, slice, index.
  repeat (first [destruct (in_range _ _ _)|destruct (bool_decide _)|destruct (_ <? _)|destruct (0 <=? _)
    |destruct (data !! _)|destruct (_ =? _)]; simpl; try (by intros [= <-]); try done).
Qed.

(** Reads return bytes and do not panic. *)
Definition byte_volume (v : Volume) : Prop :=
  (forall path off n, fb_read_at (vol_backend v) path off n <> Panic) /\
  (forall path, fb_read (vol_backend v) path <> Panic) /\
  (forall path off n data, fb_read_at (vol_backend v) path off n = Ok data -> Forall is_byte data).

Lemma on_path_total {A : Type} (s : list Z) (f : list Z -> res FsError A) :
  (forall p, f p <> Panic) -> on_path s f <> Panic.
Proof.
  intros Hf. unfold on_path. destruct (path_from_str _) eqn:E; [apply Hf|done|].
  exfalso. revert E. unfold path_from_str. repeat case_match; done.
Qed.

Lemma on_path_ok {A : Type} (s : list Z) (f : list Z -> res FsError A) (a : A) :
  on_path s f = Ok a -> exists p, f p = Ok a.
Proof. unfold on_path. destruct (path_from_str _); [eauto|done|done]. Qed.

(** ** What the checks do *)
Definition image_path (kind : EntryKind) : option (list Z) :=
  match kind with
  | Chainload path | Uki path _ => Some path
  | LinuxLegacy kernel_path _ _ => Some kernel_path
  | Iso _ => None
  end.

(** The file an entry cannot do without. *)
Definition needed_path (kind : EntryKind) : option (list Z) :=
  match kind with
  | Iso (IsoFile iso_path) => Some iso_path
  | Iso (IsoOptical _ _) => None
  | k => image_path k
  end.

Definition mild (c : CheckResult) : Prop := ck_severity c <> SevError.

(** Only the counter of missing shim handles may move. *)
Definition same_but_counter (s s' : BState) : Prop :=
  bs_log s' = bs_log s /\ bs_disk s' = bs_disk s /\ bs_trace s' = bs_trace s /\
  (bs_ov s' = bs_ov s \/ bs_ov s' = bump inc_not_found (bs_ov s)).

Lemma same_but_counter_refl (s : BState) : same_but_counter s s.
Proof. split_and!; auto. Qed.

Section spec.
Context (env : Env) (esp : Volume) (extras : list Volume) (sb : SecureBootState).
Context (Hvols : Forall byte_volume (esp :: extras)).

Lemma find_volume_byte (path : list Z) : byte_volume (find_volume_with_file esp extras path).
Proof.
  apply Forall_cons in Hvols as [Hesp Hex]. unfold find_volume_with_file. destruct (has_file path esp); [done|].
  destruct (List.find _ extras) eqn:E; [|done]. apply List.find_some in E as [Hin _].
  rewrite Forall_forall in Hex. apply Hex. by apply list_elem_of_In.
Qed.

Lemma check_secure_boot_spec (v : Volume) (path : list Z) (s : BState) :
  byte_volume v ->
  exists c, (check_secure_boot env v path sb s).1 = Ret c /\ mild c /\
    same_but_counter s (check_secure_boot env v path sb s).2.
Proof.
  intros (_ & Hr & _). unfold check_secure_boot.
  case_bool_decide; [exists ck_ok; split; [done|]; split; [done|apply same_but_counter_refl]|].
  destruct (read_str (vol_backend v) path) as [data|e|] eqn:E;
    [|by eexists; split; [done|]; split; [done|apply same_but_counter_refl]|by apply on_path_total in E].
  unfold mbind, M_bind, ask_shim, shim_validate. case_bool_decide; simpl.
  - destruct (shim_handle (env_shim env)); simpl; [destruct (shim_open (env_shim env)); simpl|];
      repeat case_match; simplify_eq/=; (eexists; split; [done|]; split; [done|]); split_and!; auto.
  - case_match; simpl; (eexists; split; [done|]; split; [done|]); apply same_but_counter_refl.
Qed.

Definition header_panics (path : list Z) : Prop :=
  file_exists_any esp extras path = true /\
  check_pe_header (env_target env) (find_volume_with_file esp extras path)
    (resolved_path (find_volume_with_file esp extras path) path) = Panic.

Lemma image_checks_spec (path : list Z) (s : BState) :
  same_but_counter s (image_checks env esp extras path sb s).2 /\
  ((image_checks env esp extras path sb s).1 = Panicked /\ header_panics path \/
   ~ header_panics path /\
   exists rest, (image_checks env esp extras path sb s).1 = Ret (check_file_exists_any esp extras path :: rest) /\
     Forall mild rest).
Proof.
  unfold image_checks, header_panics, check_file_exists_any.
  destruct (file_exists_any esp extras path);
    [rewrite bool_decide_eq_true_2 by done|rewrite bool_decide_eq_false_2 by done].
  2:{ split; [apply same_but_counter_refl|]. right. split; [by intros [? _]|]. by exists []. }
  set (v := find_volume_with_file esp extras path). set (r := resolved_path v path).
  pose proof (find_volume_byte path) as Hv. fold v in Hv.
  unfold mbind, M_bind, pe_header_check.
  destruct (check_pe_header (env_target env) v r) as [c1|e|] eqn:E; simpl.
  - assert (mild c1) as Hc1.
    { revert E. unfold check_pe_header. destruct (read_at_str _ _ _ _); [apply pe_verdict_not_severe|by intros [= <-]|done]. }
    case_bool_decide; simpl.
    { split; [apply same_but_counter_refl|]. right. split; [by intros [_ ?]|]. exists [c1]. by repeat constructor. }
    destruct (check_secure_boot_spec v r s Hv) as (c2 & E2 & Hc2 & Hs).
    destruct (check_secure_boot env v r sb s) as [o s']. simpl in *. subst o. simpl.
    split; [done|]. right. split; [by intros [_ ?]|]. exists [c1; c2]. by repeat constructor.
  - exfalso. revert E. unfold check_pe_header. destruct (read_at_str _ _ _ _); [apply pe_verdict_no_error|done|done].
  - split; [apply same_but_counter_refl|]. by left.
Qed.

Lemma initrd_checks_mild (paths : list (list Z)) : Forall mild (initrd_checks esp extras paths).
Proof. induction paths as [|p ps IH]; simpl; [constructor|]. destruct (file_exists_any _ _ p); simpl; [done|by constructor]. Qed.

Lemma check_root_param_mild (options : list Z) : mild (check_root_param options).
Proof. unfold check_root_param. repeat case_match; done. Qed.

Lemma from_checks_error (cs : list CheckResult) :
  pf_status (from_checks cs) = PfError <-> exists c, c ∈ cs /\ ck_severity c = SevError.
Proof.
  unfold from_checks. simpl. destruct (existsb (has_severity SevError) cs) eqn:E.
  - apply existsb_exists in E as (c & Hin & Hc). apply bool_decide_eq_true in Hc.
    split; [|done]. intros _. exists c. by rewrite list_elem_of_In.
  - split; [by destruct (existsb (has_severity SevWarning) cs)|]. intros (c & Hin & Hc).
    apply not_true_iff_false in E. exfalso. apply E, existsb_exists. exists c. rewrite <- list_elem_of_In.
    split; [done|]. by apply bool_decide_eq_true.
Qed.

Lemma file_check_error (path : list Z) (rest : list CheckResult) :
  Forall mild rest ->
  pf_status (from_checks (check_file_exists_any esp extras path :: rest)) = PfError <->
  file_exists_any esp extras path = false.
Proof.
  intros Hm. rewrite from_checks_error. unfold check_file_exists_any. split.
  - intros (c & Hin & Hc). apply elem_of_cons in Hin as [->|Hin]; [by destruct (file_exists_any _ _ _)|].
    rewrite Forall_forall in Hm. by apply Hm in Hin.
  - intros ->. eexists. split; [by apply elem_of_cons; left|done].
Qed.

(** The whole check of an entry. *)
Lemma run_preflight_spec (kind : EntryKind) (s : BState) :
  same_but_counter s (run_preflight env kind esp extras sb s).2 /\
  ((run_preflight env kind esp extras sb s).1 = Panicked /\ (exists path, image_path kind = Some path /\ header_panics path) \/
   (forall path, image_path kind = Some path -> ~ header_panics path) /\
   exists pf, (run_preflight env kind esp extras sb s).1 = Ret pf /\
     (pf_status pf = PfError <-> exists path, needed_path kind = Some path /\ file_exists_any esp extras path = false)).
Proof.
  assert (forall path (f : list CheckResult -> list CheckResult),
    (forall cs, exists more, f cs = cs ++ more /\ Forall mild more) ->
    let m := cs ← image_checks env esp extras path sb; mret (from_checks (f cs)) in
    same_but_counter s (m s).2 /\
    ((m s).1 = Panicked /\ header_panics path \/
     ~ header_panics path /\ exists pf, (m s).1 = Ret pf /\
       (pf_status pf = PfError <-> file_exists_any esp extras path = false))) as Himg.
  { intros path f Hf. simpl. unfold mbind, M_bind.
    destruct (image_checks_spec path s) as [Hs Hr]. destruct (image_checks env esp extras path sb s) as [o s1]. simpl in *.
    destruct Hr as [[-> Hp]|(Hn & rest & -> & Hm)]; simpl; [by auto|].
    split; [done|]. right. split; [done|]. eexists. split; [done|]. destruct (Hf (check_file_exists_any esp extras path :: rest)) as (more & -> & Hmore).
    rewrite <- app_comm_cons. apply file_check_error, Forall_app. by split. }
  unfold run_preflight. destruct kind as [path|path opts|kernel initrds opts|[iso|h lab]]; simpl.
  - destruct (Himg path (fun cs => cs)) as [Hs Hr]; [intros cs; exists []; by rewrite app_nil_r|].
    split; [done|]. destruct Hr as [[? ?]|[? (pf & ? & ?)]]; [left; eauto|right; split; [naive_solver|exists pf; naive_solver]].
  - destruct (Himg path (fun cs => cs)) as [Hs Hr]; [intros cs; exists []; by rewrite app_nil_r|].
    split; [done|]. destruct Hr as [[? ?]|[? (pf & ? & ?)]]; [left; eauto|right; split; [naive_solver|exists pf; naive_solver]].
  - destruct (Himg kernel (fun cs => cs ++ initrd_checks esp extras initrds ++ [check_root_param opts])) as [Hs Hr].
    { intros cs. eexists. split; [done|]. apply Forall_app. split; [apply initrd_checks_mild|].
      constructor; [apply check_root_param_mild|constructor]. }
    split; [done|]. destruct Hr as [[? ?]|[? (pf & ? & ?)]]; [left; eauto|right; split; [naive_solver|exists pf; naive_solver]].
  - split; [apply same_but_counter_refl|]. right. split; [done|]. eexists. split; [done|].
    rewrite file_check_error by constructor. naive_solver.
  - split; [apply same_but_counter_refl|]. right. split; [done|]. eexists. split; [done|]. split; [done|naive_solver].
Qed.
End spec.

Lemma file_exists_any_false (esp : Volume) (extras : list Volume) (path : list Z) :
  file_exists_any esp extras path = false <-> Forall (fun v => exists_with_boot_fallback v path = None) (esp :: extras).
Proof.
  unfold file_exists_any, has_file. rewrite orb_false_iff, bool_decide_eq_false, <- eq_None_not_Some, Forall_cons.
  apply and_iff_compat_l. induction extras as [|v vs IH]; simpl; [by split|].
  rewrite orb_false_iff, bool_decide_eq_false, <- eq_None_not_Some, Forall_cons. by rewrite IH.
Qed.

Lemma header_panics_iff (env : Env) (esp : Volume) (extras : list Volume) (path : list Z) :
  Forall byte_volume (esp :: extras) ->
  let v := find_volume_with_file esp extras path in
  header_panics env esp extras path <->
  file_exists_any esp extras path = true /\
  exists data, read_at_str (vol_backend v) (resolved_path v path) 0 256 = Ok data /\ truncated_header data.
Proof.
  intros Hv v. unfold header_panics. apply and_iff_compat_l. fold v.
  destruct (find_volume_byte esp extras Hv path) as (Hp & _ & Hb). fold v in Hp, Hb. unfold check_pe_header.
  destruct (read_at_str _ _ _ _) as [data|e|] eqn:E.
  - apply on_path_ok in E as [p E]. rewrite pe_verdict_panic by by eapply Hb. naive_solver.
  - naive_solver.
  - exfalso. revert E. apply on_path_total. intros p. apply Hp.
Qed.


(** A file of 256 bytes whose PE signature is its end. *)
Definition cut_off_image : list Z :=
  [0x4D; 0x5A] ++ replicate 58 0 ++ [252; 0; 0; 0] ++ replicate 188 0 ++ [0x50; 0x45; 0; 0].

Definition cut_off_volume : Volume :=
  mkVolume (lit "fat") None (mkBackend
    (fun _ => Ok cut_off_image) (fun _ _ _ => Ok cut_off_image) (fun _ => Ok true) (fun _ => Err FsNotFound)).

Lemma cut_off_truncated : truncated_header cut_off_image.
Proof. vm_compute. split_and!; done. Qed.

Lemma cut_off_byte : byte_volume cut_off_volume.
Proof.
  split_and!; [done|done|]. intros path off n data [= <-]. rewrite Forall_forall. intros x Hx.
  assert (forallb (fun x => (0 <=? x) && (x <=? 255)) cut_off_image = true) as H by by vm_compute.
  rewrite forallb_forall in H. apply list_elem_of_In in Hx. apply H in Hx.
  apply andb_true_iff in Hx as [?%Z.leb_le ?%Z.leb_le]. by split.
Qed.


(** ** The loop *)
Lemma calm_bump_not_found (o : Override) : calm o -> calm (bump inc_not_found o).
Proof. intros [[[h s t d n] ->] Ha]. split; [by eexists|exact Ha]. Qed.

(** What the preflight loop leaves of an entry. *)
Definition checked (esp : Volume) (extras : list Volume) (e e' : BootEntry) : Prop :=
  exists pf, e' = with_preflight pf e /\
    (pf_status pf = PfError <-> exists path, needed_path (be_kind e) = Some path /\ file_exists_any esp extras path = false).

Section loop.
Context (env : Env) (p : Policy) (sb0 sb : SecureBootState) (esp : Volume) (extras : list Volume).
Context (Hvols : Forall byte_volume (esp :: extras)).

#[local] Notation hoare := (hoareI env p sb0 calm).

Lemma hoare_run_preflight (P : list action -> Prop) (e : BootEntry) :
  hoare P (run_preflight env (be_kind e) esp extras sb) (fun pf => known (checked esp extras e (with_preflight pf e))).
Proof.
  intros s Ht Ho HP. destruct (run_preflight_spec env esp extras sb Hvols (be_kind e) s) as [(_ & _ & Htr & Hov) Hr].
  destruct (run_preflight env (be_kind e) esp extras sb s) as [o s']. simpl in *. rewrite Htr.
  split; [done|]. split; [exists []; by rewrite app_nil_r|].
  assert (calm (bs_ov s')) by (destruct Hov as [->| ->]; [done|by apply calm_bump_not_found]).
  destruct Hr as [[-> _]|(_ & pf & -> & Hpf)]; [done|]. split; [done|]. exists pf. by split.
Qed.

Lemma hoare_record_issues (P : list action -> Prop) `{!Mono P} (e : BootEntry) (cs : list CheckResult) :
  hoare P (record_issues e cs) (fun _ _ => True).
Proof.
  induction cs as [|c cs IH]; simpl; [by apply hoare_ret|].
  eapply hoare_skip; [apply _| |intros _; exact IH]. instantiate (1 := fun _ _ => True).
  case_bool_decide; [by apply hoare_ret|]. eapply hoare_weaken; [apply (hoare_trust env p sb0 calm P)|done|done].
Qed.

Lemma hoare_preflight_entries (P : list action -> Prop) `{!Mono P} (es : list BootEntry) :
  hoare P (preflight_entries env esp extras sb es) (fun es' => known (Forall2 (checked esp extras) es es')).
Proof.
  induction es as [|e es IH]; simpl; [by apply hoare_ret; intros tr _; constructor|].
  eapply hoare_bind; [apply _|apply hoare_run_preflight|]. intros pf.
  eapply hoare_skip; [apply _|apply hoare_record_issues; apply _|]. intros _.
  eapply hoare_bind; [apply _| |].
  { eapply hoare_weaken; [exact IH|by intros tr [? _]|]. intros es' tr H. exact H. }
  intros es'. apply hoare_ret. intros tr [[_ Hc] Hes]. by constructor.
Qed.
End loop.

(** ** Preflight and boot look in the same places *)
Lemma find_on_extras_some (i : nat) (vs : list Volume) (path : list Z) :
  match List.find (has_file path) vs with
  | Some v => exists j, find_on_extras i vs path = Some (j, v, resolved_path v path)
  | None => find_on_extras i vs path = None
  end.
Proof.
  revert i. induction vs as [|v vs IH]; intros i; simpl; [done|].
  unfold has_file at 1. unfold resolved_path. destruct (exists_with_boot_fallback v path) eqn:E; simpl.
  - exists i. by rewrite E.
  - apply IH.
Qed.

(** C18. A kernel that preflight finds is the one the boot reads: the same
    volume, the same spelling of the path; one that it does not find is not
    found at boot either. *)
Theorem preflight_agrees_with_boot (env : Env) (esp : Volume) (extras : list Volume) (kernel_path : list Z) (c : bool) :
  if file_exists_any esp extras kernel_path then
    let v := find_volume_with_file esp extras kernel_path in
    exists index, acquire_kernel env esp extras kernel_path c = read_logged v index (resolved_path v kernel_path)
  else
    forall s, (acquire_kernel env esp extras kernel_path c s).1 = Fail NOT_FOUND.
Proof.
  unfold file_exists_any, find_volume_with_file, acquire_kernel.
  destruct (exists_with_boot_fallback esp kernel_path) as [r|] eqn:E.
  { assert (has_file kernel_path esp = true) as -> by (unfold has_file; by rewrite E).
    exists 0. unfold resolved_path. by rewrite E. }
  assert (has_file kernel_path esp = false) as -> by (unfold has_file; by rewrite E). simpl.
  pose proof (find_on_extras_some 0 extras kernel_path) as Hf.
  destruct (List.find (has_file kernel_path) extras) as [v|] eqn:Ef.
  - destruct Hf as [j ->]. apply List.find_some in Ef.
    rewrite (proj2 (existsb_exists _ _)) by (by exists v). by eexists.
  - rewrite Hf. replace (existsb (has_file kernel_path) extras) with false.
    { intros s. unfold flush_unless, flush_log. destruct c; simpl; [done|]. unfold mbind, M_bind. simpl.
      by destruct (flush _ _ _ _). }
    symmetry. apply not_true_iff_false. rewrite existsb_exists. intros (v & Hin & Hv).
    by rewrite (List.find_none _ _ Ef v Hin) in Hv.
Qed.

(** An EFI image that only another volume has passes preflight, and the boot
    of it, which reads the ESP alone, does not find it. *)
Definition empty_volume : Volume :=
  mkVolume (lit "fat") None (mkBackend (fun _ => Err FsNotFound) (fun _ _ _ => Err FsNotFound)
    (fun _ => Ok false) (fun _ => Err FsNotFound)).

Theorem chainload_elsewhere_passes :
  let entry := mkBoot (lit "bls-x") (lit "x") (Chainload (lit "\EFI\Linux\a.efi")) IconEfi None None 1 (lit "fat") in
  let s := mkBState log_new ∅ override_init [] in
  (exists pf, (run_preflight demo_env (be_kind entry) empty_volume [demo_volume] SbDisabled s).1 = Ret pf /\
     pf_status pf <> PfError) /\
  (boot_entry demo_env [empty_volume; demo_volume] entry default_policy false SbDisabled s).1 = Fail NOT_FOUND.
Proof.
  split; [|reflexivity]. vm_compute. eexists. split; [reflexivity|done].
Qed.
