(* ===== verification/Discovery.v ===== *)
(** * Finding boot entries (discovery.rs, discovery_pure.rs, bls.rs,
    autodiscovery.rs)

    The scanners of every volume and of the ESP, the two deduplication passes
    and the detection of mixed sort keys.  Backends do not panic; a panic of
    the UKI reader is passed on. *)
From S2P Require Import Prelude Compare RustStr Utf8 VersionOrder BlsParse FsTypes BootTypes Policy TrustLog NvBootEntry SecureBoot SecurityOverride VolumeFs Uki.
Local Open Scope Z_scope.

(** ** discovery_pure.rs *)
Definition looks_like_distro_uuid_dir (dirname : str) : bool :=
  match find_char (Z.eqb c_dash) dirname with
  | None => false
  | Some dash_pos =>
      if Nat.eqb dash_pos 0 then false
      else
        let name := take dash_pos dirname in
        let suffix := drop (S dash_pos) dirname in
        if is_empty name || (str_len suffix <? 4) then false
        else match name with
             | [] => false
             | first :: _ =>
                 if negb (is_ascii_alphabetic first) then false
                 else if negb (forallb (fun c => is_ascii_alphanumeric c || (c =? c_underscore)) name) then false
                 else if negb (forallb (fun c => is_ascii_hexdigit c || (c =? c_dash)) suffix) then false
                 else 4 <=? len (List.filter is_ascii_hexdigit suffix)
             end
  end.

Definition pretty_name_from_distro_uuid_dir (dirname : str) : list Z :=
  let prefix := match find_char (Z.eqb c_dash) dirname with Some i => take i dirname | None => dirname end in
  if bool_decide (prefix = lit "Pop_OS") then lit "Pop!_OS" else prefix.

Definition forward_to_backslash (path : str) : list Z := replace_char c_slash [c_backslash] path.

(** ** autodiscovery.rs *)
Definition extract_kernel_version (path : str) : list Z :=
  let filename := rsplit_next c_backslash path in
  match strip_prefix (lit "vmlinuz-") filename with
  | Some ver => ver
  | None => match strip_prefix (lit "linux-") filename with Some ver => ver | None => filename end
  end.

Definition extract_directory (path : str) : list Z :=
  match rfind_char (Z.eqb c_backslash) path with
  | Some (S pos) => take (S pos) path
  | _ => []
  end.

Definition initrd_patterns (dir version : list Z) : list (list Z) :=
  [ dir ++ lit "\initramfs-" ++ version ++ lit ".img"; dir ++ lit "\initrd.img-" ++ version;
    dir ++ lit "\initrd-" ++ version; dir ++ lit "\initramfs-" ++ version ++ lit "-fallback.img";
    lit "\boot\initramfs-" ++ version ++ lit ".img"; lit "\boot\initrd.img-" ++ version;
    lit "\boot\initrd-" ++ version; lit "\initramfs-" ++ version ++ lit ".img"; lit "\initrd.img-" ++ version ].

Definition find_initrd (kernel_path : str) (exists_ : list Z -> bool) : list (list Z) :=
  let version := extract_kernel_version kernel_path in
  let dir := extract_directory kernel_path in
  let ucode :=
    match List.find exists_ [dir ++ lit "\intel-ucode.img"; dir ++ lit "\amd-ucode.img"] with
    | Some u => [u]
    | None => []
    end in
  match List.find exists_ (initrd_patterns dir version) with
  | Some i => ucode ++ [i]
  | None =>
      if bool_decide (version = lit "linux") || starts_with (lit "linux-") version then
        let arch := dir ++ lit "\initramfs-linux.img" in
        if exists_ arch then ucode ++ [arch] else ucode
      else ucode
  end.

(** ** bls.rs *)
Definition to_boot_entry (e : BlsEntry) : BootEntry :=
  let name :=
    match b_title e with
    | Some t => t
    | None => match b_version e with Some v => lit "Linux " ++ v | None => b_id e end
    end in
  let whole kind :=
    mkBoot (lit "bls-" ++ b_id e) name kind IconLinux (Some (b_filename e)) None
      (Z.to_nat (b_source_volume_index e)) (b_source_backend_tag e) in
  match b_efi e with
  | Some efi_path => whole (Chainload efi_path)
  | None =>
      match b_linux e with
      | Some linux_path => whole (LinuxLegacy linux_path (cleaned_initrd e) (combined_options e))
      | None => mkBoot (b_id e) name (Chainload []) IconLinux None None
                  (Z.to_nat (b_source_volume_index e)) (b_source_backend_tag e)
      end
  end.

Section scan.
(** The build target and the [Display] of filesystem errors. *)
Context (target : target_arch) (show_error : FsError -> list Z).

Definition volume_note (index : nat) (tag : list Z) : list Z :=
  lit "volume_index=" ++ fmt_dec (Z.of_nat index) ++ lit " backend=" ++ tag.

Definition entries_dir : list Z := lit "/loader/entries".

(** One file of the directory: the entry it gives, if any, and the records. *)
Definition scan_file (v : Volume) (index : nat) (p : Policy) (filename : list Z) (log : TrustLog)
    : option BlsEntry * TrustLog :=
  if negb (has_extension_ignore_case filename (lit "conf")) then (None, log)
  else if starts_with [c_dot] filename || starts_with (lit "auto-") filename then (None, log)
  else
    let path := entries_dir ++ [c_slash] ++ filename in
    match read_to_string_str (vol_backend v) path with
    | Err e =>
        (None, record (with_note (volume_note index (vol_tag v) ++ lit " err=" ++ show_error e)
                         (with_path path (event_new (lit "bls_entry_read_failed")))) log)
    | Panic => (None, log)
    | Ok content =>
        match parse filename content with
        | None =>
            (None, record (with_note (volume_note index (vol_tag v) ++ lit " parse=missing_linux_or_efi")
                             (with_path path (event_new (lit "bls_entry_invalid")))) log)
        | Some entry =>
            let entry := set_source_backend_tag (vol_tag v) (set_source_volume_index (Z.of_nat index) entry) in
            if match b_architecture entry with
               | Some arch => negb (is_native_architecture target arch)
               | None => false
               end then (None, log)
            else if match b_linux entry with Some linux_path => negb (allowed p linux_path) | None => false end
            then (None, log)
            else
              let entry :=
                match b_initrd entry, b_linux entry with
                | [], Some linux_path =>
                    match find_initrd linux_path (vol_exists v) with
                    | [] => entry
                    | discovered => set_initrd discovered entry
                    end
                | _, _ => entry
                end in
              (Some entry, log)
        end
    end.

Fixpoint scan_files (v : Volume) (index : nat) (p : Policy) (filenames : list (list Z)) (log : TrustLog)
    : list BlsEntry * TrustLog :=
  match filenames with
  | [] => ([], log)
  | f :: fs =>
      let '(e, log1) := scan_file v index p f log in
      let '(es, log2) := scan_files v index p fs log1 in
      (match e with Some e => e :: es | None => es end, log2)
  end.

Definition scan_volume_for_bls (v : Volume) (index : nat) (p : Policy) (log : TrustLog)
    : list BlsEntry * TrustLog :=
  match read_dir_str (vol_backend v) entries_dir with
  | Ok filenames =>
      let '(entries, log) := scan_files v index p filenames log in
      let log := record (with_note (volume_note index (vol_tag v) ++ lit " count=" ++ fmt_dec (len entries))
                           (event_new (lit "bls_entries_found"))) log in
      (sort_by (fun a b => bls_sort_compare a b (bls_ignore_sort_key p)) entries, log)
  | _ => ([], log)
  end.

Fixpoint scan_volumes (vs : list Volume) (index : nat) (p : Policy) (log : TrustLog)
    : list BlsEntry * TrustLog :=
  match vs with
  | [] => ([], log)
  | v :: vs' =>
      let '(es, log1) := scan_volume_for_bls v index p log in
      let '(rest, log2) := scan_volumes vs' (S index) p log1 in
      (es ++ rest, log2)
  end.

(** ** Deduplication *)
Definition same_name (a b : BlsEntry) : bool := eq_ignore_ascii_case (b_filename a) (b_filename b).

Fixpoint dedup_bls_go (deduped entries : list BlsEntry) (log : TrustLog) : list BlsEntry * TrustLog :=
  match entries with
  | [] => (deduped, log)
  | entry :: entries' =>
      match List.find (fun e => same_name e entry) deduped with
      | Some e =>
          if bls_eq e entry then dedup_bls_go deduped entries' log
          else
            dedup_bls_go (deduped ++ [entry]) entries'
              (record (with_note (lit "volume_a=" ++ fmt_dec (b_source_volume_index e)
                                  ++ lit " backend_a=" ++ b_source_backend_tag e
                                  ++ lit " volume_b=" ++ fmt_dec (b_source_volume_index entry)
                                  ++ lit " backend_b=" ++ b_source_backend_tag entry)
                         (with_path (b_filename entry) (event_new (lit "bls_duplicate_filename")))) log)
      | None => dedup_bls_go (deduped ++ [entry]) entries' log
      end
  end.

Definition dedup_bls_entries (entries : list BlsEntry) (log : TrustLog) : list BlsEntry * TrustLog :=
  dedup_bls_go [] entries log.

Definition extract_filename_lower (path : str) : list Z := to_lowercase (rsplit_next c_backslash path).

Definition dedup_key (e : BootEntry) : list Z :=
  match be_kind e with
  | Chainload path | Uki path _ => extract_filename_lower path
  | LinuxLegacy kernel_path _ _ => extract_filename_lower kernel_path
  | Iso (IsoFile iso_path) => extract_filename_lower iso_path
  | Iso (IsoOptical _ label) => lit "optical:" ++ to_lowercase label
  end.

(** [entries.retain(..)] with the keys seen so far. *)
Fixpoint dedup_go (seen : list (list Z)) (entries : list BootEntry) : list BootEntry :=
  match entries with
  | [] => []
  | e :: entries' =>
      if bool_decide (dedup_key e ∈ seen) then dedup_go seen entries'
      else e :: dedup_go (seen ++ [dedup_key e]) entries'
  end.

Definition dedup_entries (entries : list BootEntry) : list BootEntry := dedup_go [] entries.
End scan.

(** ** Mixed sort keys *)
Record CohortGroup : Type := mkCohort {
  cg_with_sort_key : Z;
  cg_without_sort_key : Z;
  cg_highest_in_without : option (list Z);
  cg_highest_in_with : option (list Z)
}.

Record CohortSplit : Type := mkSplit {
  cs_notice : list Z;
  cs_with_sort_key : Z;
  cs_without_sort_key : Z;
  cs_highest_version_without : option (list Z)
}.

(** Take [v] when it is newer than the newest so far. *)
Definition newer (v : option (list Z)) (cur : option (list Z)) : option (list Z) :=
  match v, cur with
  | Some v, None => Some v
  | Some v, Some c => match version_compare v c with Gt => Some v | _ => cur end
  | None, _ => cur
  end.

Definition cohort_add (e : BlsEntry) (g : CohortGroup) : CohortGroup :=
  match b_sort_key e with
  | Some _ => mkCohort (cg_with_sort_key g + 1) (cg_without_sort_key g) (cg_highest_in_without g)
                (newer (b_version e) (cg_highest_in_with g))
  | None => mkCohort (cg_with_sort_key g) (cg_without_sort_key g + 1)
              (newer (b_version e) (cg_highest_in_without g)) (cg_highest_in_with g)
  end.

Definition cohort_new : CohortGroup := mkCohort 0 0 None None.

(** The [BTreeMap] of the groups, as a list in the order of its keys. *)
Fixpoint cohort_insert (mid : list Z) (e : BlsEntry) (groups : list (list Z * CohortGroup))
    : list (list Z * CohortGroup) :=
  match groups with
  | [] => [(mid, cohort_add e cohort_new)]
  | (m, g) :: rest =>
      match str_cmp mid m with
      | Lt => (mid, cohort_add e cohort_new) :: groups
      | Eq => (m, cohort_add e g) :: rest
      | Gt => (m, g) :: cohort_insert mid e rest
      end
  end.

Definition cohort_step (groups : list (list Z * CohortGroup)) (e : BlsEntry) : list (list Z * CohortGroup) :=
  let mid := default [] (b_machine_id e) in
  if is_empty mid then groups else cohort_insert mid e groups.

Definition cohort_mixed (g : list Z * CohortGroup) : bool :=
  (0 <? cg_with_sort_key g.2) && (0 <? cg_without_sort_key g.2).

(** U+2014, the dash of the notice. *)
Definition em_dash : list Z := [8212].

Definition detect_cohort_split (entries : list BlsEntry) : option CohortSplit :=
  match List.find cohort_mixed (foldl cohort_step [] entries) with
  | Some (_, g) =>
      Some (mkSplit
        (lit "cohort split: " ++ fmt_dec (cg_with_sort_key g) ++ lit " entries with sort-key, "
         ++ fmt_dec (cg_without_sort_key g) ++ lit " without; newest in sort-key-less is "
         ++ default (lit "?") (cg_highest_in_without g) ++ lit " " ++ em_dash
         ++ lit " set bls_ignore_sort_key=true or default_pattern in policy.toml to override")
        (cg_with_sort_key g) (cg_without_sort_key g) (cg_highest_in_without g))
  | None => None
  end.

(** ** The scanners of the ESP *)
Definition fresh_entry (id name : list Z) (kind : EntryKind) (icon : Icon) : BootEntry :=
  mkBoot id name kind icon None None 0 [].

Definition discover_windows (esp : Volume) (p : Policy) : list BootEntry :=
  let windows_path := lit "\EFI\Microsoft\Boot\bootmgfw.efi" in
  if vol_exists esp windows_path && allowed p windows_path
  then [fresh_entry (lit "windows") (lit "Windows Boot Manager") (Chainload windows_path) IconWindows]
  else [].

Definition extract_filename (path : str) : list Z :=
  trim_end_matches (lit ".efi") (rsplit_next c_backslash path).

Definition uki_name (path : list Z) (metadata : option UkiMetadata) : list Z :=
  match metadata with
  | Some (mkUki (Some os) _ kv _ _) =>
      match kv with
      | Some kv => os ++ lit " (" ++ kv ++ [c_rparen]
      | None => os
      end
  | _ => lit "Linux (" ++ extract_filename path ++ [c_rparen]
  end.

Fixpoint uki_entries (b : FsBackend) (p : Policy) (n : Z) (paths : list (list Z)) : res unit (list BootEntry) :=
  match paths with
  | [] => Ok []
  | path :: paths' =>
      if negb (allowed p path) then uki_entries b p n paths'
      else
        let with_metadata m :=
          let options := match m with Some (mkUki _ _ _ (Some c) _) => c | _ => [] end in
          let? rest := uki_entries b p (n + 1) paths' in
          Ok (fresh_entry (lit "uki-" ++ fmt_dec n) (uki_name path m) (Uki path options) IconLinux :: rest) in
        match read_uki_metadata b path with
        | Ok m => with_metadata (Some m)
        | Err _ => with_metadata None
        | Panic => Panic
        end
  end.

Definition extract_uki_version (e : BootEntry) : list Z :=
  match rfind_char (Z.eqb c_lparen) (be_name e), rfind_char (Z.eqb c_rparen) (be_name e) with
  | Some start, Some stop =>
      if Nat.ltb start stop then take (stop - S start) (drop (S start) (be_name e)) else be_id e
  | _, _ => be_id e
  end.

Definition discover_linux_uki (esp : Volume) (p : Policy) : res unit (list BootEntry) :=
  let? entries := uki_entries (vol_backend esp) p 0 (VolumeFs.glob (vol_backend esp) (lit "/EFI/Linux/*.efi")) in
  Ok (sort_by (fun a b => CompOpp (version_compare (extract_uki_version a) (extract_uki_version b))) entries).

Definition BOOTX64 : list Z := lit "\EFI\BOOT\BOOTX64.EFI".

Definition loaders : list (list Z * list Z * list Z) :=
  [ (lit "\EFI\grub\grubx64.efi", lit "grub", lit "GRUB Bootloader");
    (lit "\EFI\refind\refind_x64.efi", lit "refind", lit "rEFInd Boot Manager");
    (BOOTX64, lit "fallback", lit "EFI Fallback") ].

Section esp.
(** The SHA-256 function, the hash of the running image and the path it was
    booted from. *)
Context (sha256 : list Z -> list Z) (self_image_sha256 : option (list Z)) (booted_from : option (list Z)).

(** The self-loop guards of the removable path. *)
Definition is_self (esp : Volume) (path : list Z) : bool :=
  if bool_decide (path = BOOTX64) then
    if booted_via_removable_fallback booted_from then true
    else match self_image_sha256 with
         | Some self_hash =>
             match path_from_str (lit "/EFI/BOOT/BOOTX64.EFI") with
             | Ok bootx_path =>
                 match fb_read (vol_backend esp) bootx_path with
                 | Ok bytes => bool_decide (sha256 bytes = self_hash)
                 | _ => false
                 end
             | _ => false
             end
         | None => false
         end
  else false.

Definition discover_other_loaders (esp : Volume) (p : Policy) : list BootEntry :=
  omap (fun '(path, id, name) =>
    if negb (vol_exists esp path && allowed p path) then None
    else if is_self esp path then None
    else Some (fresh_entry id name (Chainload path) IconEfi)) loaders.

(** One directory of /EFI. *)
Definition dir_style_entries (esp : Volume) (p : Policy) (de : DirEntry) : list BootEntry :=
  if match de_kind de with Regular | Symlink => true | _ => false end then []
  else if negb (looks_like_distro_uuid_dir (de_name de)) then []
  else
    let dir_path := lit "/EFI/" ++ de_name de in
    let kernel_path := dir_path ++ lit "/vmlinuz.efi" in
    let initrd_path := dir_path ++ lit "/initrd.img" in
    let prev_kernel_path := dir_path ++ lit "/vmlinuz-previous.efi" in
    let prev_initrd_path := dir_path ++ lit "/initrd.img-previous" in
    if negb (vol_exists esp kernel_path) then []
    else if negb (allowed p (forward_to_backslash kernel_path)) then []
    else
      let cmdline :=
        trim (match read_to_string_str (vol_backend esp) (dir_path ++ lit "/cmdline") with Ok t => t | _ => [] end) in
      let initrd_paths := if vol_exists esp initrd_path then [forward_to_backslash initrd_path] else [] in
      if is_empty cmdline && bool_decide (initrd_paths = []) then []
      else
        let display_name := pretty_name_from_distro_uuid_dir (de_name de) in
        fresh_entry (lit "sdboot-" ++ de_name de) display_name
          (LinuxLegacy (forward_to_backslash kernel_path) initrd_paths cmdline) IconLinux
        :: (if vol_exists esp prev_kernel_path && allowed p (forward_to_backslash prev_kernel_path) then
              [fresh_entry (lit "sdboot-" ++ de_name de ++ lit "-previous")
                 (display_name ++ lit " (previous kernel)")
                 (LinuxLegacy (forward_to_backslash prev_kernel_path)
                    (if vol_exists esp prev_initrd_path then [forward_to_backslash prev_initrd_path] else [])
                    cmdline) IconLinux]
            else []).

Definition discover_systemd_boot_dir_style (esp : Volume) (p : Policy) : list BootEntry :=
  match path_from_str (lit "/EFI") with
  | Ok efi_dir =>
      match fb_read_dir (vol_backend esp) efi_dir with
      | Ok dirs => sort_by (fun a b => str_cmp (be_id a) (be_id b)) (flat_map (dir_style_entries esp p) dirs)
      | _ => []
      end
  | _ => []
  end.

(** The manifest: the friendly names of the modules. *)
Fixpoint manifest_lines (ls : list (list Z)) (current : option (list Z)) : list (list Z * list Z) :=
  match ls with
  | [] => []
  | line :: ls' =>
      let line := trim line in
      if is_empty line || starts_with [c_hash] line then manifest_lines ls' current
      else if starts_with (lit "[modules.") line then
        match rfind_char (Z.eqb c_rbracket) line with
        | Some stop => manifest_lines ls' (Some (take (stop - 9) (drop 9 line)))
        | None => manifest_lines ls' current
        end
      else match current with
           | Some module_id =>
               match split_once c_equals line with
               | Some (key, value) =>
                   if bool_decide (trim key = lit "name")
                   then (module_id, trim_matches c_quote (trim value)) :: manifest_lines ls' current
                   else manifest_lines ls' current
               | None => manifest_lines ls' current
               end
           | None => manifest_lines ls' current
           end
  end.

Definition load_module_manifest (esp : Volume) : list (list Z * list Z) :=
  match read_to_string_str (vol_backend esp) (lit "\EFI\LamBoot\modules\manifest.toml") with
  | Ok content => manifest_lines (lines content) None
  | _ => []
  end.

Definition tool_entry (manifest : list (list Z * list Z)) (path : list Z) : BootEntry :=
  let filename := extract_filename path in
  let display_name :=
    match List.find (fun m => bool_decide (m.1 = filename)) manifest with
    | Some (_, name) => name
    | None => lit "Tool: " ++ filename
    end in
  fresh_entry (lit "tool-" ++ filename) display_name (Chainload path) IconTools.

Definition discover_tools (esp : Volume) (p : Policy) : list BootEntry :=
  if negb (modules_enabled p) then []
  else
    let manifest := load_module_manifest esp in
    map (tool_entry manifest)
      (List.filter (allowed p) (VolumeFs.glob (vol_backend esp) (lit "/EFI/LamBoot/modules/*.efi"))).

(** ** ISO files and optical drives *)
Definition iso_entry (dir : list Z) (de : DirEntry) : option BootEntry :=
  if bool_decide (de_kind de = Directory) then None
  else if negb (ends_with (lit ".iso") (to_ascii_lowercase (de_name de))) then None
  else Some (fresh_entry (lit "iso-" ++ de_name de) (lit "ISO: " ++ de_name de)
               (Iso (IsoFile (dir ++ [c_slash] ++ de_name de))) IconLinux).

Definition discover_iso_files (v : Volume) : list BootEntry :=
  flat_map (fun dir =>
    match path_from_str dir with
    | Ok pb => match fb_read_dir (vol_backend v) pb with
               | Ok listing => omap (iso_entry dir) listing
               | _ => []
               end
    | _ => []
    end) [lit "/isos"; lit "/boot/isos"].

Fixpoint discover_isos (vs : list Volume) (index : nat) : list BootEntry :=
  match vs with
  | [] => []
  | v :: vs' => map (stamp_source index (vol_tag v)) (discover_iso_files v) ++ discover_isos vs' (S index)
  end.

Definition optical_entry (d : Z * list Z) : BootEntry :=
  let '(handle, label) := d in
  let shown := if is_empty label then lit "optical disc" else label in
  mkBoot (lit "optical-" ++ to_lowercase label) (lit "Optical: " ++ shown) (Iso (IsoOptical handle label))
    IconLinux None None 0 (lit "optical").

Definition discover_optical (discs : list (Z * list Z)) (log : TrustLog) : list BootEntry * TrustLog :=
  (map optical_entry discs,
   foldl (fun log '(_, label) =>
     record (with_note (lit "label=" ++ label) (event_new (lit "iso_optical_discovered"))) log) log discs).

(** ** All of it *)
Context (target : target_arch) (show_error : FsError -> list Z) (discs : list (Z * list Z)).

Definition discover_esp (volumes : list Volume) (p : Policy) : res unit (list BootEntry) :=
  match volumes with
  | [] => Ok []
  | esp :: _ =>
      let? uki := discover_linux_uki esp p in
      Ok (map (stamp_source 0 (vol_tag esp))
            (discover_windows esp p ++ uki ++ discover_systemd_boot_dir_style esp p
             ++ discover_other_loaders esp p ++ discover_tools esp p))
  end.

Definition cohort_event (split : CohortSplit) : TrustEvent :=
  with_note (lit "with_sort_key=" ++ fmt_dec (cs_with_sort_key split)
             ++ lit " without_sort_key=" ++ fmt_dec (cs_without_sort_key split)
             ++ lit " highest_in_without=" ++ default (lit "?") (cs_highest_version_without split))
    (event_new (lit "cohort_split_detected")).

Record DiscoveryResult : Type := mkDiscovery {
  dr_entries : list BootEntry; dr_cohort_split : option CohortSplit }.

Definition discover_all_entries (volumes : list Volume) (p : Policy) (log : TrustLog)
    : res unit (DiscoveryResult * TrustLog) :=
  let '(all_bls, log) := scan_volumes target show_error volumes 0 p log in
  let '(all_bls, log) := dedup_bls_entries all_bls log in
  let cohort_split := detect_cohort_split all_bls in
  let log := match cohort_split with Some s => record (cohort_event s) log | None => log end in
  let isos := if iso_enabled p then discover_isos volumes 0 else [] in
  let '(optical, log) := if iso_optical_enabled p then discover_optical discs log else ([], log) in
  let? esp_entries := discover_esp volumes p in
  Ok (mkDiscovery (dedup_entries (map to_boot_entry all_bls ++ isos ++ optical ++ esp_entries)) cohort_split, log).
End esp.

(** ** Deduplication keeps the first entry of every key *)
Lemma dedup_go_keys (seen : list (list Z)) (es : list BootEntry) :
  NoDup (dedup_key <$> dedup_go seen es) /\ Forall (fun e => dedup_key e ∉ seen) (dedup_go seen es).
Proof.
  revert seen. induction es as [|e es IH]; intros seen; cbn [dedup_go]; [split; constructor|].
  case_bool_decide as Hin; [apply IH|]. destruct (IH (seen ++ [dedup_key e])) as [Hnd Hf]. split.
  - cbn. constructor; [|done]. intros (e' & Hk & He')%list_elem_of_fmap.
    rewrite Forall_forall in Hf. apply (Hf e' He'). apply elem_of_app. right. by apply list_elem_of_singleton.
  - constructor; [done|]. eapply Forall_impl; [exact Hf|]. intros e' Hk Hs. apply Hk. apply elem_of_app. by left.
Qed.

Lemma dedup_go_sublist (seen : list (list Z)) (es : list BootEntry) : dedup_go seen es `sublist_of` es.
Proof.
  revert seen. induction es as [|e es IH]; intros seen; cbn [dedup_go]; [done|].
  case_bool_decide; constructor; apply IH.
Qed.

Lemma dedup_go_first (seen : list (list Z)) (l1 l2 : list BootEntry) (e : BootEntry) :
  dedup_key e ∉ seen -> Forall (fun x => dedup_key x <> dedup_key e) l1 ->
  e ∈ dedup_go seen (l1 ++ e :: l2).
Proof.
  revert seen. induction l1 as [|x l1 IH]; intros seen Hs Hl; cbn [app dedup_go].
  - rewrite bool_decide_false by done. by left.
  - apply Forall_cons in Hl as [Hx Hl]. case_bool_decide; [by apply IH|]. right. apply IH; [|done].
    rewrite elem_of_app, list_elem_of_singleton. intros [?|?]; [done|congruence].
Qed.

(** ** What the menu is meant to offer *)
(** A file that the directory [dir] lists. *)
Definition listed (b : FsBackend) (dir path : list Z) : Prop :=
  exists pb listing de, path_from_str dir = Ok pb /\ fb_read_dir b pb = Ok listing /\ de ∈ listing /\
    path = dir ++ [c_slash] ++ de_name de.

(** The BLS file [f] of a volume reads and parses as [b]. *)
Definition bls_file (v : Volume) (f : list Z) (b : BlsEntry) : Prop :=
  let path := lit "/loader/entries" ++ [c_slash] ++ f in
  listed (vol_backend v) (lit "/loader/entries") path /\
  exists content, read_to_string_str (vol_backend v) path = Ok content /\ parse f content = Some b.

(** What an entry offers is on the volume [v]: its BLS file, which names the
    image, or the image itself. *)
Definition on_volume (v : Volume) (e : BootEntry) : Prop :=
  match be_bls_filename e with
  | Some f =>
      exists b, bls_file v f b /\
        match b_efi b, b_linux b with
        | Some efi, _ => be_kind e = Chainload efi
        | None, Some l => exists initrds, be_kind e = LinuxLegacy l initrds (combined_options b)
        | None, None => False
        end
  | None =>
      match be_kind e with
      | Chainload path => vol_exists v path = true \/ listed (vol_backend v) (lit "/EFI/LamBoot/modules") path
      | Uki path _ => listed (vol_backend v) (lit "/EFI/Linux") path
      | LinuxLegacy kernel_path _ _ => exists path, kernel_path = forward_to_backslash path /\ vol_exists v path = true
      | Iso (IsoFile path) => listed (vol_backend v) (lit "/isos") path \/ listed (vol_backend v) (lit "/boot/isos") path
      | Iso (IsoOptical _ _) => False
      end
  end.

(** The source an entry names: a drive, or the volume at its index. *)
Definition from_source (volumes : list Volume) (discs : list (Z * list Z)) (e : BootEntry) : Prop :=
  match be_kind e with
  | Iso (IsoOptical handle label) => (handle, label) ∈ discs
  | _ => exists v, volumes !! be_source_volume_index e = Some v /\ be_source_backend_tag e = vol_tag v /\ on_volume v e
  end.

Definition kind_allowed (p : Policy) (e : BootEntry) : Prop :=
  match be_kind e with
  | Chainload path => allowed p path = true \/ be_bls_filename e <> None
  | Uki path _ => allowed p path = true
  | LinuxLegacy kernel_path _ _ => allowed p kernel_path = true
  | Iso _ => True
  end.

(** The BLS files that are entries, and the image they boot. *)
Definition bls_accepted (target : target_arch) (p : Policy) (f : list Z) (b : BlsEntry) : Prop :=
  has_extension_ignore_case f (lit "conf") = true /\ starts_with [c_dot] f = false /\ starts_with (lit "auto-") f = false /\
  (forall a, b_architecture b = Some a -> is_native_architecture target a = true) /\
  (forall l, b_linux b = Some l -> allowed p l = true).

Definition bls_image (b : BlsEntry) : list Z := default (default [] (b_linux b)) (b_efi b).

(** ** What the scanners produce *)
Lemma glob_listed (b : FsBackend) (pattern dir path : list Z) (n : nat) :
  rfind_char (Z.eqb c_slash) (normalize_path_string pattern) = Some (S n) ->
  take (S n) (normalize_path_string pattern) = dir -> dir <> [c_slash] ->
  path ∈ VolumeFs.glob b pattern -> listed b dir path.
Proof.
  intros Hn Hd Hr. unfold VolumeFs.glob. rewrite Hn. cbv zeta. simpl Nat.eqb. cbv iota. rewrite Hd.
  destruct (path_from_str dir) as [pb| |] eqn:Ep; [|by intros []%not_elem_of_nil..].
  destruct (fb_read_dir b pb) as [listing| |] eqn:El; [|by intros []%not_elem_of_nil..].
  intros (de & Hin & H)%list_elem_of_omap. destruct (matches_glob _ _); [|done].
  rewrite bool_decide_false in H by done. injection H as <-. by exists pb, listing, de.
Qed.

(** A parsed file on the volume its index names, permitted if it names a kernel. *)
Definition bls_from (volumes : list Volume) (p : Policy) (e : BlsEntry) : Prop :=
  exists v b, volumes !! Z.to_nat (b_source_volume_index e) = Some v /\ b_source_backend_tag e = vol_tag v /\
    bls_file v (b_filename e) b /\ b_linux e = b_linux b /\ b_efi e = b_efi b /\ b_options e = b_options b /\
    (b_linux b <> None \/ b_efi b <> None) /\ (forall l, b_linux b = Some l -> allowed p l = true).

Definition sound (volumes : list Volume) (discs : list (Z * list Z)) (p : Policy) (e : BootEntry) : Prop :=
  kind_allowed p e /\ from_source volumes discs e.

Lemma to_boot_entry_sound (volumes : list Volume) (discs : list (Z * list Z)) (p : Policy) (e : BlsEntry) :
  bls_from volumes p e -> sound volumes discs p (to_boot_entry e).
Proof.
  intros (v & b & Hv & Ht & Hf & El & Ee & Eo & Hi & Ha). unfold to_boot_entry. rewrite El, Ee.
  destruct (b_efi b) as [efi|] eqn:Efi; [|destruct (b_linux b) as [l|] eqn:El'; [|by destruct Hi]];
    (split; [|exists v; split_and!; [done|done|]; exists b; split; [exact Hf|]; rewrite Efi, ?El'; try done]).
  - by right.
  - by apply Ha.
  - exists (cleaned_initrd e). unfold combined_options. by rewrite Eo.
Qed.

Lemma parse_filename (filename content : list Z) (e : BlsEntry) : parse filename content = Some e -> b_filename e = filename.
Proof.
  intros [He _]%parse_some. destruct (parse_name_blank filename) as [_ Hf].
  destruct (foldl_parse_line_name (lines content) (parse_name filename (bls_blank filename))) as (_ & Hs & _).
  by rewrite He, Hs.
Qed.

Lemma parse_names_image (filename content : list Z) (e : BlsEntry) :
  parse filename content = Some e -> b_linux e <> None \/ b_efi e <> None.
Proof. by intros [_ H]%parse_some. Qed.

Section scanned.
Context (target : target_arch) (show : FsError -> list Z) (p : Policy).

(** A file gives an entry exactly when it reads, parses and is accepted. *)
Lemma scan_file_spec (v : Volume) (i : nat) (f : list Z) (log : TrustLog) (e : BlsEntry) :
  (scan_file target show v i p f log).1 = Some e ->
  exists content b, read_to_string_str (vol_backend v) (lit "/loader/entries" ++ [c_slash] ++ f) = Ok content /\
    parse f content = Some b /\ bls_accepted target p f b /\
    b_filename e = f /\ b_source_volume_index e = Z.of_nat i /\ b_source_backend_tag e = vol_tag v /\
    b_linux e = b_linux b /\ b_efi e = b_efi b /\ b_options e = b_options b.
Proof.
  unfold scan_file. destruct (has_extension_ignore_case _ _) eqn:Hx; [cbn [negb]|done].
  destruct (starts_with [c_dot] f) eqn:Hd; [done|]. destruct (starts_with (lit "auto-") f) eqn:Hau; [done|]. cbn [orb].
  destruct (read_to_string_str _ _) as [content| |] eqn:Er; [|done..].
  destruct (parse f content) as [b|] eqn:Ep; [|done]. pose proof (parse_filename _ _ _ Ep) as Hf.
  set (e1 := set_source_backend_tag _ _).
  destruct (match b_architecture e1 with Some arch => _ | None => false end) eqn:Harch; [done|].
  destruct (match b_linux e1 with Some l => negb (allowed p l) | None => false end) eqn:Hal; [done|]. cbn [fst].
  assert (bls_accepted target p f b) as Hacc.
  { split_and!; [done..| |].
    - intros a Ha. change (b_architecture e1) with (b_architecture b) in Harch. rewrite Ha in Harch. by apply negb_false_iff.
    - intros l Hl. change (b_linux e1) with (b_linux b) in Hal. rewrite Hl in Hal. by apply negb_false_iff. }
  intros H. assert (exists initrds, e = e1 \/ e = set_initrd initrds e1) as (x & He).
  { destruct (b_initrd e1); [destruct (b_linux e1); [destruct (find_initrd _ _)|]|];
      injection H as <-; first [exists []; by left|eexists; by right]. }
  exists content, b. do 3 (split; [done|]). destruct He as [->| ->]; split_and!; done || exact Hf.
Qed.

Lemma scan_file_complete (v : Volume) (i : nat) (f content : list Z) (b : BlsEntry) (log : TrustLog) :
  read_to_string_str (vol_backend v) (lit "/loader/entries" ++ [c_slash] ++ f) = Ok content -> parse f content = Some b ->
  bls_accepted target p f b ->
  exists e, (scan_file target show v i p f log).1 = Some e /\ b_linux e = b_linux b /\ b_efi e = b_efi b.
Proof.
  intros Er Ep (Hx & Hd & Hau & Harch & Hal). unfold scan_file. rewrite Hx, Hd, Hau. cbn [negb orb]. cbv zeta.
  change (read_to_string_str (vol_backend v) (entries_dir ++ [c_slash] ++ f) = Ok content) in Er. rewrite Er, Ep.
  set (e1 := set_source_backend_tag _ _).
  change (b_architecture e1) with (b_architecture b). change (b_linux e1) with (b_linux b).
  assert (match b_architecture b with Some a => negb (is_native_architecture target a) | None => false end = false) as ->
    by (destruct (b_architecture b) as [a|]; [by rewrite Harch|done]).
  assert (match b_linux b with Some l => negb (allowed p l) | None => false end = false) as ->
    by (destruct (b_linux b) as [l|] eqn:El; [by rewrite Hal|done]).
  destruct (b_initrd e1); [destruct (b_linux b) as [l|] eqn:El; [destruct (find_initrd _ _)|]|];
    eexists; (split; [reflexivity|split; [first [reflexivity|exact El]|done]]).
Qed.

(** The entries of a list of files. *)
Lemma scan_files_elem (v : Volume) (i : nat) (fs : list (list Z)) (log : TrustLog) (e : BlsEntry) :
  e ∈ (scan_files target show v i p fs log).1 -> exists f log', f ∈ fs /\ (scan_file target show v i p f log').1 = Some e.
Proof.
  revert log. induction fs as [|f fs IH]; intros log; cbn [scan_files]; [by intros []%not_elem_of_nil|].
  destruct (scan_file target show v i p f log) as [o log1] eqn:Ef. specialize (IH log1).
  destruct (scan_files target show v i p fs log1) as [es log2]. simpl in *. intros Hin.
  assert ((exists e', o = Some e' /\ e = e') \/ e ∈ es) as [(e' & -> & ->)|He].
  { destruct o as [e'|]; [apply elem_of_cons in Hin as [->|?]; [left; by exists e'|by right]|by right]. }
  - exists f, log. split; [by left|by rewrite Ef].
  - destruct (IH He) as (f' & log' & Hf & E). exists f', log'. split; [by right|done].
Qed.

Lemma scan_files_complete (v : Volume) (i : nat) (fs : list (list Z)) (f : list Z) (P : BlsEntry -> Prop) (log : TrustLog) :
  f ∈ fs -> (forall log, exists e, (scan_file target show v i p f log).1 = Some e /\ P e) ->
  exists e, e ∈ (scan_files target show v i p fs log).1 /\ P e.
Proof.
  intros Hin Hf. revert log. induction Hin as [f fs|f g fs _ IH]; intros log; cbn [scan_files].
  - destruct (Hf log) as (e & Ee & HP). destruct (scan_file target show v i p f log) as [o log1]. simpl in Ee. subst o.
    destruct (scan_files _ _ _ _ _ _ _) as [es log2]. exists e. split; [by left|done].
  - destruct (scan_file target show v i p g log) as [o log1]. destruct (IH Hf log1) as (e & He & HP).
    destruct (scan_files _ _ _ _ _ _ _) as [es log2]. exists e. split; [|done]. simpl in *. destruct o; [by right|done].
Qed.

Lemma scan_volumes_elem (vs : list Volume) (i : nat) (log : TrustLog) (e : BlsEntry) :
  e ∈ (scan_volumes target show vs i p log).1 ->
  exists k v log' , vs !! k = Some v /\ e ∈ (scan_volume_for_bls target show v (i + k) p log').1.
Proof.
  revert i log. induction vs as [|v vs IH]; intros i log; cbn [scan_volumes]; [by intros []%not_elem_of_nil|].
  destruct (scan_volume_for_bls target show v i p log) as [es log1] eqn:Ev. specialize (IH (S i) log1).
  destruct (scan_volumes target show vs (S i) p log1) as [rest log2]. simpl in *. intros [He|He]%elem_of_app.
  - exists 0%nat, v, log. rewrite Nat.add_0_r, Ev. done.
  - destruct (IH He) as (k & v' & log' & Hk & Hin). exists (S k), v', log'. rewrite Nat.add_succ_r. done.
Qed.

Lemma scan_volumes_complete (vs : list Volume) (k : nat) (v : Volume) (i : nat) (P : BlsEntry -> Prop) (log : TrustLog) :
  vs !! k = Some v -> (forall i log, exists e, e ∈ (scan_volume_for_bls target show v i p log).1 /\ P e) ->
  exists e, e ∈ (scan_volumes target show vs i p log).1 /\ P e.
Proof.
  intros Hk Hv. revert k i log Hk. induction vs as [|v' vs IH]; intros k i log Hk; cbn [scan_volumes]; [done|].
  destruct k as [|k]; simpl in Hk.
  - injection Hk as ->. destruct (Hv i log) as (e & He & HP). destruct (scan_volume_for_bls _ _ _ _ _ _) as [es log1].
    destruct (scan_volumes _ _ _ _ _ _) as [rest log2]. exists e. split; [apply elem_of_app; by left|done].
  - destruct (scan_volume_for_bls target show v' i p log) as [es log1]. destruct (IH k (S i) log1 Hk) as (e & He & HP).
    destruct (scan_volumes _ _ _ _ _ _) as [rest log2]. exists e. split; [apply elem_of_app; by right|done].
Qed.

(** The listing the scanner walks. *)
Lemma read_entries_dir (b : FsBackend) (f : list Z) :
  listed b (lit "/loader/entries") (lit "/loader/entries" ++ [c_slash] ++ f) <->
  exists names, read_dir_str b entries_dir = Ok names /\ f ∈ names.
Proof.
  unfold read_dir_str, on_path, listed. change (normalize_path_string entries_dir) with (lit "/loader/entries").
  split.
  - intros (pb & listing & de & -> & -> & Hin & [= ->]%app_inv_head). exists (de_name <$> listing).
    split; [done|]. by apply list_elem_of_fmap_2.
  - intros (names & E & Hin). destruct (path_from_str _) as [pb| |]; [|done..].
    destruct (fb_read_dir b pb) as [listing| |] eqn:El; [|done..]. injection E as <-.
    apply list_elem_of_fmap in Hin as (de & -> & Hin). by exists pb, listing, de.
Qed.

Lemma scanned_from (volumes : list Volume) (log : TrustLog) (e : BlsEntry) :
  e ∈ (scan_volumes target show volumes 0 p log).1 -> bls_from volumes p e.
Proof.
  intros (k & v & log' & Hk & He)%scan_volumes_elem. simpl in He. unfold scan_volume_for_bls in He.
  destruct (read_dir_str _ _) as [names| |] eqn:Er; [|by apply not_elem_of_nil in He..].
  pose proof (scan_files_elem v k names log' e) as Hs. destruct (scan_files _ _ _ _ _ _ _) as [es log1]. cbn [fst] in *.
  rewrite sort_by_perm in He. destruct (Hs He) as (f & log2 & Hf & (content & b & Hr & Hp & Hacc & Ef & Ei & Et & El & Ee & Eo)%scan_file_spec).
  exists v, b. rewrite Ei, Nat2Z.id, Ef. split_and!; [done|done| |done|done|done|by eapply parse_names_image|apply Hacc].
  split; [apply read_entries_dir; by exists names|by exists content].
Qed.

Lemma accepted_scanned (volumes : list Volume) (k : nat) (v : Volume) (f : list Z) (b : BlsEntry) (log : TrustLog) :
  volumes !! k = Some v -> bls_file v f b -> bls_accepted target p f b ->
  exists e, e ∈ (scan_volumes target show volumes 0 p log).1 /\ b_linux e = b_linux b /\ b_efi e = b_efi b.
Proof.
  intros Hk [(names & En & Hf)%read_entries_dir (content & Er & Ep)] Hacc. apply (scan_volumes_complete _ k v); [done|].
  intros i log'. unfold scan_volume_for_bls. rewrite En.
  destruct (scan_files_complete v i names f (fun e => b_linux e = b_linux b /\ b_efi e = b_efi b) log' Hf
    (fun log => scan_file_complete v i f content b log Er Ep Hacc)) as (e & He & HP).
  destruct (scan_files _ _ _ _ _ _ _) as [es log1]. exists e. split; [|done]. cbn [fst] in *. by rewrite sort_by_perm.
Qed.
End scanned.

Lemma dedup_bls_elem (deduped entries : list BlsEntry) (log : TrustLog) (e : BlsEntry) :
  e ∈ (dedup_bls_go deduped entries log).1 -> e ∈ deduped ++ entries.
Proof.
  revert deduped log. induction entries as [|x entries IH]; intros deduped log; cbn [dedup_bls_go]; [by rewrite app_nil_r|].
  assert (forall log, e ∈ (dedup_bls_go (deduped ++ [x]) entries log).1 -> e ∈ deduped ++ x :: entries) as Hk
    by (intros l H%IH; by rewrite <- app_assoc in H).
  destruct (List.find _ deduped) as [e'|]; [destruct (bls_eq e' x)|]; try apply Hk.
  intros H%IH. apply elem_of_app in H as [H|H]; apply elem_of_app; [by left|by right; right].
Qed.

(** Only copies of an entry that stays are dropped. *)
Lemma dedup_bls_covers (deduped entries : list BlsEntry) (log : TrustLog) (e : BlsEntry) :
  e ∈ deduped ++ entries ->
  exists e', e' ∈ (dedup_bls_go deduped entries log).1 /\ b_linux e' = b_linux e /\ b_efi e' = b_efi e.
Proof.
  revert e deduped log. induction entries as [|x entries IH]; intros e deduped log; cbn [dedup_bls_go].
  { rewrite app_nil_r. intros He. by exists e. }
  assert (e ∈ deduped ++ x :: entries -> forall log, exists e', e' ∈ (dedup_bls_go (deduped ++ [x]) entries log).1 /\
    b_linux e' = b_linux e /\ b_efi e' = b_efi e) as Hk by (intros H l; apply IH; by rewrite <- app_assoc).
  intros He. destruct (List.find _ deduped) as [y|] eqn:Ef; [|by apply Hk]. destruct (bls_eq y x) eqn:Eq; [|by apply Hk].
  apply elem_of_app in He as [He|[->|He]%elem_of_cons]; [apply IH, elem_of_app; by left| |apply IH, elem_of_app; by right].
  apply List.find_some in Ef as [Hy _]. apply list_elem_of_In in Hy.
  destruct (IH y deduped log) as (e' & He' & Hl & Hx); [apply elem_of_app; left; exact Hy|].
  exists e'. split; [exact He'|]. unfold bls_eq in Eq. repeat (apply andb_true_iff in Eq as [Eq ?]).
  rewrite Hl, Hx. split; by eapply bool_decide_eq_true_1.
Qed.

Lemma dedup_go_covers (seen : list (list Z)) (es : list BootEntry) (e : BootEntry) :
  e ∈ es -> dedup_key e ∈ seen \/ dedup_key e ∈ dedup_key <$> dedup_go seen es.
Proof.
  revert seen. induction es as [|x es IH]; intros seen He; [by apply not_elem_of_nil in He|]. cbn [dedup_go].
  apply elem_of_cons in He as [->|He]; case_bool_decide as Hx; [by left|right; by left|by apply IH|].
  destruct (IH (seen ++ [dedup_key x]) He) as [Hs|Hs]; [|right; by right].
  apply elem_of_app in Hs as [Hs|Hs%list_elem_of_singleton]; [by left|]. rewrite Hs. right. by left.
Qed.

(** *** On the ESP *)
(** What the scanners of the ESP give, before it is stamped. *)
Definition esp_sound (esp : Volume) (p : Policy) (e : BootEntry) : Prop :=
  kind_allowed p e /\ on_volume esp e /\ match be_kind e with Iso (IsoOptical _ _) => False | _ => True end.

Lemma stamp_sound (volumes : list Volume) (discs : list (Z * list Z)) (p : Policy) (i : nat) (v : Volume) (e : BootEntry) :
  volumes !! i = Some v -> esp_sound v p e -> sound volumes discs p (stamp_source i (vol_tag v) e).
Proof.
  intros Hv (Hk & Hon & Hx). split; [done|]. unfold from_source. cbn [stamp_source be_kind be_source_volume_index be_source_backend_tag].
  destruct (be_kind e) as [| | |[]] eqn:E; [..|done]; (exists v; split_and!; [done|done|]; unfold on_volume in *; simpl; by rewrite ?E in * ).
Qed.

Lemma uki_entries_sound (b : FsBackend) (p : Policy) (n : Z) (paths : list (list Z)) (es : list BootEntry) :
  uki_entries b p n paths = Ok es ->
  Forall (fun e => exists path options, be_bls_filename e = None /\ be_kind e = Uki path options /\ path ∈ paths /\
    allowed p path = true) es.
Proof.
  revert n es. induction paths as [|path paths IH]; intros n es; cbn [uki_entries]; [intros [= <-]; constructor|].
  assert (forall n es, uki_entries b p n paths = Ok es -> Forall (fun e => exists path' options, be_bls_filename e = None /\
    be_kind e = Uki path' options /\ path' ∈ path :: paths /\ allowed p path' = true) es) as IH'.
  { intros n' es' Hes. eapply Forall_impl; [by eapply IH|]. intros e (path' & o & ? & ? & ? & ?). exists path', o.
    split_and!; [done|done|by right|done]. }
  destruct (allowed p path) eqn:Ha; [|apply IH']. cbn [negb]. intros H.
  destruct (read_uki_metadata b path); [| |done];
    apply res_bind_ok in H as (rest & Hr & [= <-]); (constructor; [|by eapply IH']); eexists path, _;
    (split_and!; [done|reflexivity|by left|done]).
Qed.

Lemma dir_style_sound (esp : Volume) (p : Policy) (de : DirEntry) : Forall (esp_sound esp p) (dir_style_entries esp p de).
Proof.
  unfold dir_style_entries. destruct (match de_kind de with Regular | Symlink => true | _ => false end); [constructor|].
  destruct (negb _); [constructor|]. destruct (vol_exists esp _) eqn:Hx; [|constructor]. cbn [negb].
  destruct (allowed p _) eqn:Ha; [|constructor]. cbn [negb]. destruct (_ && _); [constructor|].
  constructor; [split_and!; [done|by eexists|done]|]. destruct (vol_exists esp (_ ++ lit "/vmlinuz-previous.efi")) eqn:Hy; [|constructor].
  cbn [andb]. destruct (allowed p (forward_to_backslash (_ ++ lit "/vmlinuz-previous.efi"))) eqn:Hp; [|constructor].
  constructor; [split_and!; [done|by eexists|done]|constructor].
Qed.

Lemma iso_files_sound (v : Volume) (p : Policy) : Forall (esp_sound v p) (discover_iso_files v).
Proof.
  apply List.Forall_forall. intros e (dir & Hdir & He)%in_flat_map.
  destruct (path_from_str dir) as [pb| |] eqn:Ep; [|done..]. destruct (fb_read_dir _ pb) as [listing| |] eqn:El; [|done..].
  apply list_elem_of_In, list_elem_of_omap in He as (de & Hde & He). unfold iso_entry in He.
  destruct (bool_decide _); [done|]. destruct (negb _); [done|]. injection He as <-. split_and!; [done| |done].
  assert (listed (vol_backend v) dir (dir ++ [c_slash] ++ de_name de)) as Hl by (by exists pb, listing, de).
  destruct Hdir as [<-|[<-|[]]]; [by left|by right].
Qed.

Lemma isos_sound (volumes : list Volume) (discs : list (Z * list Z)) (p : Policy) (vs : list Volume) (i : nat) :
  (forall k v, vs !! k = Some v -> volumes !! (i + k)%nat = Some v) -> Forall (sound volumes discs p) (discover_isos vs i).
Proof.
  revert i. induction vs as [|v vs IH]; intros i Hv; cbn [discover_isos]; [constructor|].
  apply Forall_app. split.
  - apply Forall_fmap. eapply Forall_impl; [apply iso_files_sound|]. intros e He. apply stamp_sound; [|done].
    rewrite <- (Nat.add_0_r i). by apply (Hv 0%nat).
  - apply IH. intros k v' Hk. rewrite Nat.add_succ_comm. by apply (Hv (S k)).
Qed.

Section result.
Context (sha256 : list Z -> list Z) (self_hash booted_from : option (list Z)) (target : target_arch)
  (show_error : FsError -> list Z) (discs : list (Z * list Z)).

Lemma discover_esp_sound (volumes : list Volume) (p : Policy) (es : list BootEntry) :
  discover_esp sha256 self_hash booted_from volumes p = Ok es -> Forall (sound volumes discs p) es.
Proof.
  unfold discover_esp. destruct volumes as [|esp vs]; [intros [= <-]; constructor|].
  intros (uki & Hu & [= <-])%res_bind_ok. apply Forall_fmap. apply (Forall_impl (esp_sound esp p)).
  2: { intros e He. by apply stamp_sound. }
  unfold discover_linux_uki in Hu. apply res_bind_ok in Hu as (us & Hus & [= <-]). apply uki_entries_sound in Hus.
  rewrite !Forall_app. split_and!.
  - unfold discover_windows. destruct (vol_exists esp _) eqn:Hx; [|constructor]. cbn [andb].
    destruct (allowed p _) eqn:Ha; [|constructor]. constructor; [split_and!; [by left|by left|done]|constructor].
  - rewrite sort_by_perm. eapply Forall_impl; [exact Hus|]. intros e (path & o & Hb & Hk & Hin & Ha).
    unfold esp_sound, kind_allowed, on_volume. rewrite Hk, Hb. split_and!; [done| |done].
    by apply (glob_listed _ (lit "/EFI/Linux/*.efi") _ _ 9).
  - unfold discover_systemd_boot_dir_style. destruct (path_from_str _); [|constructor..].
    destruct (fb_read_dir _ _) as [dirs| |]; [|constructor..]. rewrite sort_by_perm.
    apply List.Forall_forall. intros e (de & _ & He)%in_flat_map.
    exact (proj1 (List.Forall_forall _ _) (dir_style_sound esp p de) e He).
  - unfold discover_other_loaders. apply Forall_forall. intros e ([[path id] name] & Hin & H)%list_elem_of_omap.
    destruct (vol_exists esp path) eqn:Hx; [|done]. cbn [andb] in H. destruct (allowed p path) eqn:Ha; [|done].
    cbn [negb] in H. destruct (is_self _ _ _ _ _); [done|]. injection H as <-. split_and!; [by left|by left|done].
  - unfold discover_tools. destruct (negb _); [constructor|]. apply List.Forall_forall.
    intros e (path & <- & [Hg Hp]%filter_In)%in_map_iff. split_and!; [by left| |done]. right.
    apply list_elem_of_In in Hg. by apply (glob_listed _ (lit "/EFI/LamBoot/modules/*.efi") _ _ 19).
Qed.

End result.

(** ** Concrete volumes *)
Definition tree (files : list (list Z * list Z)) (dirs : list (list Z * list DirEntry)) : FsBackend :=
  let file p := List.find (fun f => bool_decide (f.1 = p)) files in
  let dir p := List.find (fun d => bool_decide (d.1 = p)) dirs in
  {| fb_read p := match file p with Some f => Ok f.2 | None => Err FsNotFound end;
     fb_read_at p o n :=
       match file p with Some f => Ok (take (Z.to_nat n) (drop (Z.to_nat o) f.2)) | None => Err FsNotFound end;
     fb_exists p := Ok (bool_decide (is_Some (file p)) || bool_decide (is_Some (dir p)));
     fb_read_dir p := match dir p with Some d => Ok d.2 | None => Err FsNotFound end |}.

Definition demo_esp (files : list (list Z * list Z)) (dirs : list (list Z * list DirEntry)) : Volume :=
  mkVolume (lit "Uefi-FAT") None (tree files dirs).

#[local] Notation discover_demo esp p :=
  (discover_all_entries (fun _ => []) None None X86_64 (fun _ => []) [] [esp] p log_new).

Definition demo_names (r : res unit (DiscoveryResult * TrustLog)) : list (list Z) :=
  match r with Ok (d, _) => be_name <$> dr_entries d | _ => [] end.

Definition file_in (name : list Z) : DirEntry := mkDirEntry name Regular 1.
Definition dir_in (name : list Z) : DirEntry := mkDirEntry name Directory 0.

Definition conf (linux options : string) : list Z :=
  lit "title Fedora" ++ [c_lf] ++ lit "linux " ++ lit linux ++ [c_lf] ++ lit "options " ++ lit options ++ [c_lf].

Definition bls_esp : Volume :=
  demo_esp [(lit "/loader/entries/a.conf", conf "/vmlinuz-6.1" "root=/dev/sda1");
            (lit "/loader/entries/b.conf", conf "/vmlinuz-6.1" "root=/dev/sda1 single")]
           [(lit "/loader/entries", [file_in (lit "a.conf"); file_in (lit "b.conf")])].


(** ** Where the menu is not what the code sets out to offer *)
(** Two BLS entries for one kernel with different options: the second is lost. *)
Theorem same_kernel_entry_lost :
  match discover_demo bls_esp default_policy with
  | Ok (r, _) => be_id <$> dr_entries r = [lit "bls-a"]
  | _ => False
  end.
Proof. vm_compute. reflexivity. Qed.

(** Two installations in the directory style: only one is offered, since their
    kernels have the same file name. *)
Definition two_installs : Volume :=
  demo_esp [(lit "/EFI/Pop_OS-fc9ac3db/vmlinuz.efi", [1]); (lit "/EFI/Pop_OS-fc9ac3db/cmdline", lit "root=UUID=1");
            (lit "/EFI/Garuda-aabbccdd/vmlinuz.efi", [2]); (lit "/EFI/Garuda-aabbccdd/cmdline", lit "root=UUID=2")]
           [(lit "/EFI", [dir_in (lit "Pop_OS-fc9ac3db"); dir_in (lit "Garuda-aabbccdd")])].

Theorem second_install_lost : demo_names (discover_demo two_installs default_policy) = [lit "Garuda"].
Proof. vm_compute. reflexivity. Qed.

(** The friendly name of a module is never found: the manifest has file stems,
    the lookup uses the whole path. *)
Definition tools_esp : Volume :=
  demo_esp [(lit "/EFI/LamBoot/modules/manifest.toml",
             lit "[modules.diag-shell]" ++ [c_lf] ++ lit "name = " ++ [c_quote] ++ lit "Shell" ++ [c_quote])]
           [(lit "/EFI/LamBoot/modules", [file_in (lit "diag-shell.efi")])].

Theorem tool_name_not_found :
  load_module_manifest tools_esp = [(lit "diag-shell", lit "Shell")] /\
  demo_names (discover_demo tools_esp default_policy) = [lit "Tool: /EFI/LamBoot/modules/diag-shell"].
Proof. split; vm_compute; reflexivity. Qed.

Definition deny (pattern : list Z) : Policy := set_denylist [pattern] default_policy.

(** A deny rule in the documented form does not reach UKIs, whose paths are
    compared with forward slashes. *)
Definition uki_esp : Volume :=
  demo_esp [(lit "/EFI/Linux/a.efi", [1])] [(lit "/EFI/Linux", [file_in (lit "a.efi")])].

Theorem deny_rule_misses_uki :
  demo_names (discover_demo uki_esp (deny (lit "\EFI\Linux\*"))) = [lit "Linux (/EFI/Linux/a)"] /\
  demo_names (discover_demo uki_esp (deny (lit "/EFI/Linux/*"))) = [].
Proof. split; vm_compute; reflexivity. Qed.

(** The image that a BLS file names with its efi key is not checked. *)
Definition efi_esp : Volume :=
  demo_esp [(lit "/loader/entries/x.conf", lit "title X" ++ [c_lf] ++ lit "efi /EFI/evil/x.efi" ++ [c_lf])]
           [(lit "/loader/entries", [file_in (lit "x.conf")])].

Theorem deny_rule_misses_bls_efi :
  allowed (deny (lit "\EFI\evil\*")) (lit "\EFI\evil\x.efi") = false /\
  match discover_demo efi_esp (deny (lit "\EFI\evil\*")) with
  | Ok (r, _) => be_kind <$> dr_entries r = [Chainload (lit "\EFI\evil\x.efi")]
  | _ => False
  end.
Proof. split; vm_compute; reflexivity. Qed.
