(* ===== verification/Extras.v ===== *)
(** * Operations of the components that the boot path does not call
    (autodiscovery.rs, fw_cfg.rs, report.rs, acpi.rs, fs_backend.rs, fs_backend_lvm_btrfs.rs), and the path of the
    running image (boot_entry.rs)

    Most of these are kept in the source for later use; the path of the
    running image decides whether the firmware's fallback entry is offered. *)
From S2P Require Import Prelude Compare RustStr Utf8 VersionOrder BlsParse BootTypes Policy TrustLog Nvram Health NvBootEntry FsTypes SecureBoot SecurityOverride VolumeFs Partitions Acpi FatFs Dispatch Mounts InodeFs Report FwCfg Uki Discovery.
Local Open Scope Z_scope.

(** ** autodiscovery.rs *)
Definition kernel_alternatives (version : list Z) : list (list Z) :=
  [ lit "\boot\vmlinuz-" ++ version; lit "\vmlinuz-" ++ version; [c_backslash] ++ version ++ lit "\linux";
    [c_backslash] ++ version ++ lit "\vmlinuz" ].

Fixpoint try_volumes (alternatives : list (list Z)) (volumes : list Volume) : option (list Z) :=
  match volumes with
  | [] => None
  | vol :: rest =>
      match List.find (exists_str (vol_backend vol)) alternatives with
      | Some alt => Some alt
      | None => try_volumes alternatives rest
      end
  end.

Definition resolve_kernel_path (broken_path : str) (volumes : list Volume) : option (list Z) :=
  try_volumes (kernel_alternatives (extract_kernel_version broken_path)) volumes.

Definition identify_os (volume : Volume) : res unit (option (list Z * list Z)) :=
  let read := read_to_string_str (vol_backend volume) in
  let content :=
    match read (lit "/etc/os-release") with
    | Err _ => read (lit "/usr/lib/os-release")
    | r => r
    end in
  match content with
  | Ok content =>
      let? found := parse_os_release_text content in
      let '(name, id) := found in
      Ok (name ← name; Some (name, default (lit "linux") id))
  | Err _ => Ok None
  | Panic => Panic
  end.

(** ** fw_cfg.rs *)
Section list_files.
Context {St : Type} `{FwCfgPort St}.

Fixpoint list_entries (count : nat) : dev (list (list Z * Z)) :=
  match count with
  | O => mret []
  | S count' =>
      size ← fw_cfg_read_u32_be;
      _ ← fw_cfg_read_u16_be;
      _ ← fw_cfg_read_u16_be;
      name_buf ← read_bytes 56;
      rest ← list_entries count';
      let name := field_name name_buf in
      mret (if negb (is_empty name) then (name, size) :: rest else rest)
  end.

Definition list_files (a : target_arch) : dev (list (list Z * Z)) :=
  match a with
  | Aarch64 => mret []
  | X86_64 =>
      ok ← fw_cfg_available a;
      if (ok : bool) then
        _ ← fw_cfg_select 0x19;
        count ← fw_cfg_read_u32_be;
        if (count =? 0) || (1000 <? count) then mret [] else list_entries (Z.to_nat count)
      else mret []
  end.
End list_files.

(** ** report.rs *)
Definition ERROR_REPORT : list Z := lit "/EFI/LamBoot/reports/error.json".

Definition error_json (time : option efi_time) (error : str) : list Z :=
  [c_lbrace; c_lf] ++ lit "  " ++ [c_quote] ++ lit "timestamp" ++ [c_quote; c_colon; c_space; c_quote]
  ++ get_timestamp "unknown" time ++ [c_quote; c_comma; c_lf] ++ lit "  " ++ [c_quote] ++ lit "error"
  ++ [c_quote; c_colon; c_space; c_quote] ++ replace_char c_quote [c_squote] error ++ [c_quote; c_lf; c_rbrace; c_lf].

Section error_report.
Context {St : Type} `{Sfs St}.

(** [now] and [now'] are the clock at the report and at the audit line. *)
Definition write_error_report (now now' : option efi_time) (error : str) (esp : Vol St) : res Status unit * Vol St :=
  let '(r, esp) := with_writer (esp_write ERROR_REPORT (str_bytes (error_json now error))) esp in
  match writer_result r with
  | Ok _ =>
      append_audit_log ([c_lbracket] ++ get_timestamp "unknown" now' ++ lit "] ERROR: " ++ error ++ [c_lf]) esp
  | r => (r, esp)
  end.
End error_report.

(** ** acpi.rs *)
Definition bdf_string (s : DeviceScope) : list Z :=
  match last (sc_path s) with
  | Some (dev, func) =>
      fmt_hex_upper 2 (sc_start_bus s) ++ [c_colon] ++ fmt_hex_upper 2 dev ++ [c_dot] ++ fmt_dec func
  | None => fmt_hex_upper 2 (sc_start_bus s) ++ lit ":??"
  end.

(** ** fs_backend.rs *)
(** [Display] of errors; the firmware's and the crates' texts are parameters. *)
Definition fs_error_text (show_io : Status -> list Z) (show_other : list Z) (e : FsError) : list Z :=
  match e with
  | FsNotFound => lit "not found"
  | FsPermissionDenied => lit "permission denied"
  | FsIsDirectory => lit "is a directory"
  | FsNotDirectory => lit "not a directory"
  | FsInvalidPath reason => lit "invalid path: " ++ lit reason
  | FsUnsupported what => lit "unsupported: " ++ lit what
  | FsUnsupportedFeature feature backend => lit "unsupported feature " ++ lit feature ++ lit " on backend " ++ backend
  | FsCorrupt what => lit "filesystem corrupt: " ++ lit what
  | FsIntegrityFailed what => lit "integrity verification failed: " ++ lit what
  | FsFileTooLarge size max => lit "file too large: " ++ fmt_dec size ++ lit " bytes exceeds cap " ++ fmt_dec max
  | FsIo source => lit "I/O error: " ++ show_io source
  | FsBackendOther => lit "backend error: " ++ show_other
  end.

(** [is_not_found] *)
Definition is_not_found (e : FsError) : bool := match e with FsNotFound => true | _ => false end.

(** ** fs_backend_lvm_btrfs.rs *)
Definition lvm_btrfs_from_lv_parts_with_info {Src : Type} (open : Src -> res LbErr (InodeFs LbErr)) (owned : Src) (info : FsInfo)
    : res FsError Opened :=
  let? backend := lvm_btrfs_from_lv_parts open owned in
  Ok (mkOpened (op_backend backend) (op_tag backend) (fi_uuid info ≫= parse_btrfs_uuid_string) (op_label backend)).

(** ** boot_entry.rs *)
(** A node of the device path: a file path with its UTF-16 units, or another node. *)
Inductive path_node : Type := FilePathNode (units : list Z) | OtherNode.

(** The units that are characters of their own; a NUL ends a node's text and is dropped. *)
Definition node_chars (n : path_node) : list Z :=
  match n with
  | FilePathNode units => List.filter (fun u => negb (u =? 0) && is_scalar u) units
  | OtherNode => []
  end.

(** [dp] is nothing when the protocol does not open or gives no path. *)
Definition running_image_file_path (dp : option (list path_node)) : option (list Z) :=
  nodes ← dp;
  let out := flat_map node_chars nodes in
  if is_empty out then None else Some out.

(** ** What they do *)

(** The alternative found is the first on the first volume that has one; none is
    given only when no volume has any. *)
Theorem resolve_kernel_path_first (broken_path : list Z) (volumes : list Volume) :
  resolve_kernel_path broken_path volumes =
  head (flat_map (fun v => List.filter (exists_str (vol_backend v)) (kernel_alternatives (extract_kernel_version broken_path))) volumes).
Proof.
  unfold resolve_kernel_path. generalize (kernel_alternatives (extract_kernel_version broken_path)). intros alts.
  induction volumes as [|v volumes IH]; [done|]. cbn [try_volumes flat_map]. rewrite IH. clear IH.
  generalize (flat_map (fun v => List.filter (exists_str (vol_backend v)) alts) volumes). intros rest.
  induction alts as [|a alts IH]; [done|]. simpl. by destruct (exists_str _ a).
Qed.

Section list_files_ok.
Context {St : Type} `{FwCfgLaws St}.

Definition listed (f : DirFile) : list (list Z * Z) :=
  let name := field_name (df_name f) in if negb (is_empty name) then [(name, df_size f)] else [].

Lemma list_entries_spec (files : list DirFile) (s : St) (items : Z -> list Z) (rest : list Z) :
  Forall dir_file_ok files -> before s items 0x19 (flat_map dir_file_bytes files ++ rest) ->
  (list_entries (length files) s).1 = flat_map listed files /\ pt_items (list_entries (length files) s).2 = items.
Proof.
  intros Hf. revert s. induction Hf as [|f files (Hs & Hsel & Hr & Hn) _ IH]; intros s Hb; [by split; [|apply Hb]|].
  cbn [flat_map] in *. unfold dir_file_bytes at 1 in Hb. rewrite <- !app_assoc in Hb.
  apply read_u32_at in Hb as (s1 & E1 & Hb); [|done]. apply read_u16_at in Hb as (s2 & E2 & Hb); [|done].
  destruct (df_reserved f) as [|r1 [|r2 [|]]] eqn:Er; try (simpl in Hr; lia). cbn [app] in Hb.
  apply read_one in Hb as (s3 & E3 & Hb). apply read_one in Hb as (s4 & E4 & Hb).
  apply read_bytes_at in Hb as (s5 & E5 & Hb). rewrite Hn in E5. apply IH in Hb as [Hl Hi].
  cbn [list_entries length]. unfold mbind, dev_bind. rewrite E1, E2. unfold fw_cfg_read_u16_be, mbind, dev_bind. rewrite E3, E4.
  unfold mret, dev_ret. rewrite E5. destruct (list_entries (length files) s5) as [l s6]. simpl in *. subst l.
  split; [|done]. unfold listed. by destruct (negb _).
Qed.

(** On a machine with the device, the listing has the name and the size of every
    directory entry that has a name, in order, and changes nothing the device holds. *)
Theorem list_files_correct (s : St) (files : list DirFile) (sig_rest dir_rest : list Z) :
  pt_items s 0 = lit "QEMU" ++ sig_rest -> pt_items s 0x19 = dir_bytes files ++ dir_rest ->
  Forall dir_file_ok files -> 0 < len files <= 1000 ->
  (list_files X86_64 s).1 = flat_map listed files /\ pt_items (list_files X86_64 s).2 = pt_items s.
Proof.
  intros Hq Hd Hf Hn. set (items := pt_items s). unfold list_files, fw_cfg_available, mbind, dev_bind.
  pose proof (select_before s items 0 eq_refl) as Hb. unfold fw_cfg_select in *. simpl in Hb.
  unfold items in Hb at 2. rewrite Hq in Hb. apply read_bytes_at in Hb as (s1 & E1 & Hb). change (length (lit "QEMU")) with 4%nat in E1.
  rewrite E1. unfold mret, dev_ret. rewrite bool_decide_eq_true_2 by done. destruct Hb as [Hi _].
  pose proof (select_before s1 items 0x19 Hi) as Hb. unfold fw_cfg_select in Hb. simpl in Hb.
  unfold items in Hb at 2. rewrite Hd in Hb. unfold dir_bytes in Hb. rewrite <- app_assoc in Hb.
  apply read_u32_at in Hb as (s2 & E2 & Hb); [|unfold u32_max; lia]. rewrite E2.
  rewrite (proj2 (Z.eqb_neq _ 0)), (proj2 (Z.ltb_ge _ _)) by lia. cbn [orb].
  replace (Z.to_nat (len files)) with (length files) by (unfold len; lia). by apply (list_entries_spec files s2 items dir_rest).
Qed.
End list_files_ok.

(** What a volume identity adds to the backend of a logical volume: the identifier, when it is one. *)
Theorem lv_identity_kept {Src : Type} (open : Src -> res LbErr (InodeFs LbErr)) (owned : Src) (info : FsInfo) :
  match lvm_btrfs_from_lv_parts open owned, lvm_btrfs_from_lv_parts_with_info open owned info with
  | Ok o, Ok o' =>
      op_backend o' = op_backend o /\ op_tag o' = op_tag o /\ op_uuid o = None /\
      op_uuid o' = (fi_uuid info ≫= parse_btrfs_uuid_string)
  | Err e, Err e' => e = e'
  | Panic, Panic => True
  | _, _ => False
  end.
Proof.
  unfold lvm_btrfs_from_lv_parts_with_info, lvm_btrfs_from_lv_parts. by destruct (map_err translate_lb_error (open owned)).
Qed.

(** The text of the nodes, joined as they are. *)
Definition bmp (s : list Z) : Prop := Forall (fun c => 0 < c < 65536 /\ is_scalar c = true) s.

Lemma bmp_units (s : list Z) : bmp s -> encode_utf16 s = s.
Proof.
  unfold encode_utf16. induction 1 as [|c s [Hc _] _ IH]; [done|]. cbn [flat_map]. rewrite IH. unfold char_utf16.
  by rewrite (proj2 (Z.ltb_lt c 65536)) by lia.
Qed.

Lemma bmp_chars (s pad : list Z) : bmp s -> Forall (fun u => u = 0) pad -> node_chars (FilePathNode (s ++ pad)) = s.
Proof.
  intros Hs Hp. unfold node_chars. rewrite List.filter_app.
  assert (List.filter (fun u => negb (u =? 0) && is_scalar u) pad = []) as ->.
  { induction Hp as [|u pad -> _ IH]; [done|]. simpl. apply IH. }
  rewrite app_nil_r. induction Hs as [|c s [Hc Hsc] _ IH]; [done|]. simpl.
  rewrite (proj2 (Z.eqb_neq c 0)), Hsc by lia. simpl. by rewrite IH.
Qed.

(** The path of the running image is the text of its file-path nodes, without the
    NULs that end them; an image started from the firmware's fallback path is
    recognised in any spelling of its letters. *)
Theorem running_path_joined (texts : list (list Z)) (pads : list (list Z)) :
  Forall bmp texts -> Forall (Forall (fun u => u = 0)) pads -> length texts = length pads ->
  let nodes := OtherNode :: zip_with (fun s pad => FilePathNode (encode_utf16 s ++ pad)) texts pads in
  running_image_file_path (Some nodes) = (if is_empty (mjoin texts) then None else Some (mjoin texts)) /\
  forall pre, to_ascii_uppercase (mjoin texts) = pre ++ lit "\EFI\BOOT\BOOTX64.EFI" ->
    booted_via_removable_fallback (running_image_file_path (Some nodes)) = true.
Proof.
  intros Ht Hp Hl nodes.
  assert (flat_map node_chars nodes = mjoin texts) as E.
  { unfold nodes. clear nodes. cbn [flat_map node_chars app]. revert pads Hp Hl.
    induction Ht as [|s texts Hs _ IH]; intros [|pad pads] Hp Hl; try done. apply Forall_cons in Hp as [Hpad Hp].
    cbn [zip_with flat_map mjoin list_join]. rewrite bmp_units, bmp_chars by done. f_equal. apply IH; [done|]. by injection Hl. }
  assert (running_image_file_path (Some nodes) = if is_empty (mjoin texts) then None else Some (mjoin texts)) as Er.
  { unfold running_image_file_path. cbn [mbind option_bind]. by rewrite E. }
  split; [done|]. intros pre Hpre. rewrite Er. destruct (is_empty (mjoin texts)) eqn:Ee.
  { destruct (mjoin texts); [|done]. by destruct pre. }
  unfold booted_via_removable_fallback. rewrite Hpre, (proj2 (ends_with_spec _ _)); [done|]. by exists pre.
Qed.

(** A device path that splits the fallback path without separators, as the UEFI
    specification allows, is not recognised. *)
Theorem split_fallback_missed :
  booted_via_removable_fallback (running_image_file_path (Some (FilePathNode <$> [lit "\EFI"; lit "BOOT"; lit "BOOTX64.EFI"]))) = false.
Proof. vm_compute. reflexivity. Qed.

(** The error report takes only quotation marks into account: an error that names
    a UEFI path is not valid JSON. *)
Theorem error_report_unreadable :
  read_json 100 (error_json None (lit "no such file: a")) <> None /\
  read_json 100 (error_json None (lit "no such file: \EFI\Linux\a.efi")) = None.
Proof. split; [vm_compute; discriminate|vm_compute; reflexivity]. Qed.
