(* ===== verification/MainLoop.v ===== *)
(** * The menu and boot loop (phases 8 to 10 of main.rs)

    One session: show the menu (or pick the fallback), boot what was selected,
    come back when a tool returns.  The session composes the menus of Menu.v, the
    reports of Report.v, boot counting (FatFs.v), the boot state of Health.v and
    [boot_entry] of BootFlow.v.  Breadcrumbs and console output are left out. *)
From S2P Require Import Prelude Compare RustStr Utf8 VersionOrder BlsParse BootCount PeLoader PeLoad FsTypes BootTypes Policy TrustLog Nvram Health SecureBoot SecurityOverride Tpm VolumeFs IsoBoot BootFlow Drivers BootHoare BootSafety FatFs Report Menu.
Local Open Scope Z_scope.

(** ** Which entry *)
Fixpoint select_fallback (entries : list BootEntry) (fallback_order : list (list Z)) : option BootEntry :=
  match fallback_order with
  | [] => None
  | id :: rest =>
      match List.find (fun e => bool_decide (be_id e = id)) entries with
      | Some e => Some e
      | None => select_fallback entries rest
      end
  end.

(** Not a tool, and preflight found no error in it. *)
Definition preflight_clean (e : BootEntry) : bool :=
  negb (is_tool e) &&
  match be_preflight e with
  | Some pf => match pf_status pf with PfError => false | _ => true end
  | None => true
  end.

Definition select_crash_recovery_entry (entries : list BootEntry) : option BootEntry :=
  match List.find preflight_clean entries with
  | Some e => Some e
  | None => List.find (fun e => negb (is_tool e)) entries
  end.

(** What one round of the loop meets: the display, what arrives at the menu, the clock. *)
Record Round : Type := mkRound {
  rd_graphics : bool;                          (* [has_graphics] *)
  rd_gui_new : Status + Z * Z;                 (* [GuiContext::new] and the resolution *)
  rd_gui_open : option Status;                 (* an error of opening the display in [run_menu] *)
  rd_events : list InputEvent;
  rd_now : option efi_time;                    (* at the report *)
  rd_now' : option efi_time;                   (* at the audit line *)
  rd_end : option efi_time                     (* at [mark_boot_success] *)
}.

Inductive menu_run : Type := MenuWaits | MenuErr (e : Status) | MenuEnds (r : menu_end).

Definition menu_of {A : Type} (r : menu_end + A) : menu_run := match r with inl r => MenuEnds r | inr _ => MenuWaits end.

Definition run_menu_with_fallback (entries : list BootEntry) (p : Policy) (rd : Round) : menu_run :=
  let text := menu_of (text_menu entries p text_new (rd_events rd)) in
  if rd_graphics rd then
    match rd_gui_new rd with
    | inr (w, h) =>
        match rd_gui_open rd with
        | None => menu_of (gui_menu w h entries p gui_new (rd_events rd))
        | Some e => MenuErr e
        end
    | inl _ => text
    end
  else text.

Definition CRASH_RECOVERY_TIMEOUT_MS : Z := 8000.

Definition recovery_policy (e : BootEntry) (p : Policy) : Policy :=
  set_default_pattern None (set_default_entry (Some (be_id e)) (set_default_timeout_ms CRASH_RECOVERY_TIMEOUT_MS p)).

Definition menu_result (entries : list BootEntry) (p : Policy) (in_crash_loop : bool) (rd : Round) : menu_run :=
  if in_crash_loop then
    match select_fallback entries (fallback_order p) with
    | Some e => MenuEnds (Selected e)
    | None =>
        match select_crash_recovery_entry entries with
        | Some e => run_menu_with_fallback entries (recovery_policy e p) rd
        | None => run_menu_with_fallback entries p rd
        end
    end
  else run_menu_with_fallback entries p rd.

(** The [Debug] of a string and of a list of strings; characters beyond ASCII are taken as printable. *)
Definition debug_char (c : Z) : list Z :=
  if c =? c_backslash then [c_backslash; c_backslash]
  else if c =? c_quote then [c_backslash; c_quote]
  else if c =? c_lf then [c_backslash; 110]
  else if c =? c_cr then [c_backslash; 114]
  else if c =? c_tab then [c_backslash; 116]
  else if c =? 0 then [c_backslash; 48]
  else if (c <? 32) || (c =? 127) then lit "\u{" ++ (if c <? 16 then fmt_hex_lower 1 c else fmt_hex_lower 2 c) ++ [c_rbrace]
  else [c].

Definition debug_string (s : list Z) : list Z := [c_quote] ++ flat_map debug_char s ++ [c_quote].

Definition kind_debug (debug_handle : Z -> list Z) (k : EntryKind) : list Z :=
  match k with
  | Chainload path => lit "Chainload { path: " ++ debug_string path ++ lit " }"
  | Uki path options => lit "Uki { path: " ++ debug_string path ++ lit ", options: " ++ debug_string options ++ lit " }"
  | LinuxLegacy kernel initrds options =>
      lit "LinuxLegacy { kernel_path: " ++ debug_string kernel ++ lit ", initrd_paths: ["
      ++ join_with (lit ", ") (debug_string <$> initrds) ++ lit "], options: " ++ debug_string options ++ lit " }"
  | Iso (IsoFile path) => lit "Iso { source: File { iso_path: " ++ debug_string path ++ lit " } }"
  | Iso (IsoOptical h label) =>
      lit "Iso { source: Optical { handle: " ++ debug_handle h ++ lit ", label: " ++ debug_string label ++ lit " } }"
  end.

(** ** The session *)
Record Config : Type := mkConfig {
  cf_policy : Policy;
  cf_sb : SecureBootState;
  cf_conout_fat_coupling : bool;
  cf_entries : list BootEntry;
  cf_ctx : BootContext;
  cf_debug_handle : Z -> list Z;
  cf_status_debug : Status -> list Z
}.

(** How a session stands: waiting at the menu, or over. *)
Inductive session_end : Type :=
  | AtMenu
  | Resets (to_firmware : bool)
  | MachineTaken
  | SessionPanics
  | Returns (r : res Status Status).

Section session.
Context {St NV : Type} `{Sfs St} `{NvStore NV} (cf : Config).

#[local] Notation p := (cf_policy cf).
#[local] Notation sb := (cf_sb cf).

Record Session : Type := mkSession {
  se_env : Env;
  se_b : BState;
  se_nv : NV;
  se_esp : Vol St;
  se_extras : list (Vol St);
  se_bootlog : BootLog;
  se_diag : Diag;                              (* the statics of diag.rs *)
  se_crash : bool                              (* [in_crash_loop] *)
}.

(** Replace the part of a session that a step works on. *)
Definition with_b (b : BState) (s : Session) : Session :=
  mkSession (se_env s) b (se_nv s) (se_esp s) (se_extras s) (se_bootlog s) (se_diag s) (se_crash s).
Definition with_nv (nv : NV) (s : Session) : Session :=
  mkSession (se_env s) (se_b s) nv (se_esp s) (se_extras s) (se_bootlog s) (se_diag s) (se_crash s).
Definition with_esp (esp : Vol St) (s : Session) : Session :=
  mkSession (se_env s) (se_b s) (se_nv s) esp (se_extras s) (se_bootlog s) (se_diag s) (se_crash s).
Definition with_extras (extras : list (Vol St)) (s : Session) : Session :=
  mkSession (se_env s) (se_b s) (se_nv s) (se_esp s) extras (se_bootlog s) (se_diag s) (se_crash s).
Definition with_bootlog (l : BootLog) (s : Session) : Session :=
  mkSession (se_env s) (se_b s) (se_nv s) (se_esp s) (se_extras s) l (se_diag s) (se_crash s).

(** A step of the boot monad that always returns. *)
Definition do_m (m : M unit) (s : Session) : Session := with_b (m (se_b s)).2 s.

(** [diag::append] on the ESP: a line of the verbose diagnostics. *)
Definition crumb (msg : list Z) (s : Session) : Session :=
  let '(d, esp) := diag_append msg (se_diag s) (se_esp s) in
  mkSession (se_env s) (se_b s) (se_nv s) esp (se_extras s) (se_bootlog s) d (se_crash s).

Definition crumbs (msgs : list string) (s : Session) : Session :=
  fold_left (fun s m => crumb (lit m ++ [c_lf]) s) msgs s.

(** The volume the entry came from, and putting it back. *)
Definition source_volume (idx : nat) (s : Session) : Vol St :=
  match idx with
  | O => se_esp s
  | S i => default (se_esp s) (se_extras s !! i)
  end.

Definition put_source (idx : nat) (v : Vol St) (s : Session) : Session :=
  match idx with
  | O => with_esp v s
  | S i => if (i <? length (se_extras s))%nat then with_extras (<[i := v]> (se_extras s)) s else with_esp v s
  end.

Definition skipped_ro_event (bls_file : list Z) (idx : nat) (backend : list Z) : TrustEvent :=
  with_note (lit "vol_idx=" ++ fmt_dec (Z.of_nat idx) ++ lit " backend=" ++ backend)
    (with_path bls_file (event_new (lit "boot_counter_skipped_ro"))).

(** Measure the BLS file and count the attempt. *)
Definition count_attempt (e : BootEntry) (s : Session) : Session :=
  match be_bls_filename e with
  | None => s
  | Some bls_file =>
      let idx := be_source_volume_index e in
      let v := source_volume idx s in
      let backend := vol_tag (vol_view v) in
      match read_to_string_str (vol_backend (vol_view v)) (ENTRIES_DIR ++ [c_slash] ++ bls_file) with
      | Ok content =>
          let ok := measure_bls_entry (env_tpm (se_env s)) (str_bytes content) (be_id e) in
          let s := do_m (act (AMeasure (bls_measurement (str_bytes content) (be_id e)) ok)) s in
          match parse bls_file content with
          | Some entry =>
              if bool_decide (is_Some (b_tries_left entry)) then
                if bool_decide (backend = lit "fat") then
                  let '(_, v', nv) := decrement_boot_count entry v (se_nv s) in
                  with_nv nv (put_source idx v' s)
                else do_m (trust (skipped_ro_event bls_file idx backend)) s
              else s
          | None => s
          end
      | _ => s
      end
  end.

Definition measure_selected (e : BootEntry) (s : Session) : Session :=
  match be_kind e with
  | LinuxLegacy _ _ options | Uki _ options =>
      do_m (act (AMeasure (cmdline_measurement options) (measure_cmdline (env_tpm (se_env s)) options))) s
  | _ => s
  end.

Definition selected_event (e : BootEntry) : TrustEvent :=
  with_note (lit "id=" ++ be_id e) (with_path (be_name e) (event_new (lit "entry_selected"))).
Definition attempt_event (e : BootEntry) : TrustEvent :=
  with_note (lit "id=" ++ be_id e ++ lit " kind=" ++ kind_debug (cf_debug_handle cf) (be_kind e))
    (with_path (be_name e) (event_new (lit "boot_attempt"))).

Definition failed_event (e : BootEntry) (st : Status) (o : Override) : TrustEvent :=
  let '(hook2, shim, shim_true, delegate, not_found) := diagnostic_counters (counters o) in
  with_note (lit "status hint: ACCESS_DENIED/SECURITY_VIOLATION typically means kernel rejected by firmware DB after shim_validate returned false; hook_security2 invocations="
      ++ fmt_dec hook2 ++ lit ", shim_validate calls=" ++ fmt_dec shim ++ lit " (true=" ++ fmt_dec shim_true
      ++ lit "), delegations to original=" ++ fmt_dec delegate ++ lit ", ShimLock handle not found=" ++ fmt_dec not_found)
    (with_status (cf_status_debug cf st) (with_path (be_name e) (event_new (lit "kernel_load_failed")))).

(** Booting an ISO file turns the backend of its volume into a shared one, which
    is not written any more. *)
Definition after_boot (e : BootEntry) (s : Session) : Session :=
  match be_kind e, be_source_volume_index e with
  | Iso (IsoFile _), O =>
      mkSession (unwritable (se_env s)) (se_b s) (se_nv s) (RoVol (vol_view (se_esp s))) (se_extras s) (se_bootlog s)
        (se_diag s) (se_crash s)
  | Iso (IsoFile _), S i => with_extras (alter (fun v => RoVol (vol_view v)) i (se_extras s)) s
  | _, _ => s
  end.

(** From the selection to the hand-over: the report may end the session. *)
Definition prepare_boot (e : BootEntry) (rd : Round) (s : Session) : res Status unit * Session :=
  let s := with_bootlog (bootlog_log (rd_now rd) (lit "INFO")
             (lit "Selected: " ++ be_name e ++ lit " (" ++ be_id e ++ [c_rparen]) (se_bootlog s) (@None (Vol St))).1 s in
  let s := with_esp (bootlog_flush (se_bootlog s) (se_esp s)) s in
  let s := with_nv (record_boot_entry (be_id e) (se_nv s)).1 s in
  let '(r, esp) := write_boot_report (rd_now rd) (rd_now' rd) e (cf_ctx cf) (se_esp s) in
  let s := with_esp esp s in
  match r with
  | Ok _ =>
      let s := count_attempt e s in
      let s := crumbs ["LAMDIAG2 before_cmdline_tpm"] s in
      let s := measure_selected e s in
      let s := crumbs ["LAMDIAG2 after_cmdline_tpm_before_flush"; "LAMDIAG3a tight_post_diag2"; "LAMDIAG3b tight_5";
                       "LAMDIAG3c tight_6"] s in
      let s := if cf_conout_fat_coupling cf then crumb (lit "Booting: " ++ be_name e ++ [c_lf]) s else s in
      let s := crumbs ["LAMDIAG3d after_audit_replacement"; "LAMDIAG3e after_clones"] s in
      let s := do_m (trust (selected_event e)) s in
      let s := crumbs ["LAMDIAG3f after_first_record"] s in
      let s := do_m (trust (attempt_event e)) s in
      let s := crumbs ["LAMDIAG4 after_intervening_code"; "PREFLUSH before_trustlog_flush"] s in
      let s := do_m (flush_unless (se_env s) (cf_conout_fat_coupling cf)) s in
      (Ok tt, crumbs ["POSTFLUSH after_handoff_flush"] s)
  | r => (r, s)
  end.

(** [Vec::swap_remove]: take an element out and put the last one in its place. *)
Definition swap_remove {A : Type} (i : nat) (v : list A) : option (A * list A) :=
  match v !! i, last v with
  | Some x, Some y => Some (x, take (pred (length v)) (<[i := y]> v))
  | _, _ => None
  end.

(** A tool returned: the ESP is taken back out of [all_volumes] and the rest are
    the extra volumes of the next round. *)
Definition reclaim_volumes (s : Session) : Session :=
  match swap_remove 0 (se_esp s :: se_extras s) with
  | Some (esp, extras) => with_extras extras (with_esp esp s)
  | None => s
  end.

(** Boot the selected entry; [inr]: a tool returned, back to the menu. *)
Definition boot_selection (e : BootEntry) (rd : Round) (s : Session) : session_end * Session + Session :=
  match prepare_boot e rd s with
  | (Ok _, s) =>
      let volumes := vol_view <$> se_esp s :: se_extras s in
      let '(o, b) := boot_entry (se_env s) volumes e p (cf_conout_fat_coupling cf) sb (se_b s) in
      let s := after_boot e (with_b b s) in
      match o with
      | Taken => inl (MachineTaken, s)
      | Panicked => inl (SessionPanics, s)
      | Ret st =>
          if is_tool e then inr (reclaim_volumes s)
          else inl (Returns (Ok st), with_nv (mark_boot_success (rd_end rd) (se_nv s)).1 s)
      | Fail st =>
          let s := do_m (trust (failed_event e st (bs_ov (se_b s)))) s in
          let s := do_m (flush_log (se_env s)) s in
          if is_tool e then inr (reclaim_volumes s) else inl (Returns (Err st), s)
      end
  | (Err st, s) => inl (Returns (Err st), s)
  | (Panic, s) => inl (SessionPanics, s)
  end.

Definition leave_crash_loop (s : Session) : Session :=
  mkSession (se_env s) (se_b s) (se_nv s) (se_esp s) (se_extras s) (se_bootlog s) (se_diag s) false.

Fixpoint main_loop (rounds : list Round) (s : Session) : session_end * Session :=
  match rounds with
  | [] => (AtMenu, s)
  | rd :: rest =>
      let continue e :=
        match boot_selection e rd s with
        | inl r => r
        | inr s => main_loop rest (leave_crash_loop s)
        end in
      match menu_result (cf_entries cf) p (se_crash s) rd with
      | MenuWaits => (AtMenu, s)
      | MenuErr _ =>
          match select_crash_recovery_entry (cf_entries cf) with
          | Some e => continue e
          | None => (Resets true, with_nv (reboot_to_firmware_setup (se_nv s)) s)
          end
      | MenuEnds MenuPanic => (SessionPanics, s)
      | MenuEnds RebootToFirmware => (Resets true, with_nv (reboot_to_firmware_setup (se_nv s)) s)
      | MenuEnds Reboot => (Resets false, s)
      | MenuEnds (Selected e) => continue e
      end
  end.
End session.

(** A breadcrumb touches the ESP and the buffer only. *)
Lemma crumb_frame {St NV : Type} `{Sfs St} `{NvStore NV} (msg : list Z) (s : @Session St NV) :
  se_env (crumb msg s) = se_env s /\ se_b (crumb msg s) = se_b s /\ se_nv (crumb msg s) = se_nv s.
Proof. unfold crumb. by destruct (diag_append _ _ _). Qed.

Lemma crumbs_frame {St NV : Type} `{Sfs St} `{NvStore NV} (msgs : list string) (s : @Session St NV) :
  se_env (crumbs msgs s) = se_env s /\ se_b (crumbs msgs s) = se_b s /\ se_nv (crumbs msgs s) = se_nv s.
Proof.
  revert s. induction msgs as [|m ms IH]; intros s; [done|]. simpl.
  destruct (IH (crumb (lit m ++ [c_lf]) s)) as (-> & -> & ->). apply crumb_frame.
Qed.

(** Taking the volumes back changes nothing else. *)
Lemma reclaim_frame {St NV : Type} (s : @Session St NV) :
  se_env (reclaim_volumes s) = se_env s /\ se_b (reclaim_volumes s) = se_b s /\ se_nv (reclaim_volumes s) = se_nv s.
Proof. unfold reclaim_volumes. by destruct (swap_remove _ _) as [[esp extras]|]. Qed.

Lemma reclaim_volumes_spec {St NV : Type} (s : @Session St NV) :
  se_esp (reclaim_volumes s) = se_esp s /\
  se_extras (reclaim_volumes s) =
    match last (se_extras s) with
    | Some v => v :: take (pred (length (se_extras s))) (se_extras s)
    | None => []
    end.
Proof.
  unfold reclaim_volumes, swap_remove. cbn [lookup list_lookup]. destruct (se_extras s) as [|v vs] eqn:E; [by destruct s|].
  change (last (se_esp s :: v :: vs)) with (last (v :: vs)). by destruct (last (v :: vs)) eqn:Hl; [|apply last_None in Hl].
Qed.

(** After a tool the extra volumes are in another order: the last is the first
    and the others are one place further on, while the entries keep the index
    they were discovered with. *)
Theorem tool_return_moves_volumes {St NV : Type} (s : @Session St NV) (k : nat) :
  (1 <= k <= length (se_extras s))%nat ->
  source_volume 0 (reclaim_volumes s) = source_volume 0 s /\
  source_volume k (reclaim_volumes s) = source_volume (if decide (k = 1%nat) then length (se_extras s) else k - 1)%nat s.
Proof.
  intros Hk. destruct (reclaim_volumes_spec s) as [He Hx]. split; [exact He|]. destruct k as [|k]; [lia|].
  simpl source_volume at 1. rewrite Hx, He. destruct (se_extras s) as [|v vs] eqn:E; [simpl in Hk; lia|].
  rewrite last_lookup. destruct (lookup_lt_is_Some_2 (v :: vs) (pred (length (v :: vs)))) as [y Hy]; [simpl; lia|]. rewrite Hy.
  destruct k as [|k].
  - rewrite decide_True by done. simpl. rewrite E. simpl in Hy. by rewrite Hy.
  - rewrite decide_False by lia. simpl in Hk |- *. rewrite E, lookup_take_lt by lia. done.
Qed.

(** ** Safety of a whole session *)
Section safety.
Context {St NV : Type} `{Sfs St} `{NvStore NV} (cf : Config) (env0 : Env).

#[local] Notation p := (cf_policy cf).
#[local] Notation sb := (cf_sb cf).
#[local] Notation Session := (@Session St NV).

(** The environment of a session changes only in whether the log can be written. *)
Definition env_of (env : Env) : Prop := env = env0 \/ env = unwritable env0.

Definition sess_inv (s : Session) : Prop :=
  env_of (se_env s) /\ trace_ok env0 p sb (bs_trace (se_b s)) /\ calm (bs_ov (se_b s)).

Lemma env_of_hoare {A : Type} (env : Env) (m : M A) (Q : A -> list action -> Prop) :
  env_of env -> hoareI env p sb calm (known True) m Q -> hoareI env0 p sb calm (known True) m Q.
Proof. by intros [->| ->]. Qed.

(** A step that returns keeps the invariant. *)
Lemma do_m_inv (m : M unit) (Q : unit -> list action -> Prop) (s : Session) :
  hoareI env0 p sb calm (known True) m Q -> (forall b, (m b).1 = Ret tt) -> sess_inv s -> sess_inv (do_m m s).
Proof.
  intros Hm Hr (He & Ht & Hc). destruct (Hm (se_b s) Ht Hc I) as (Ht' & _ & Hc'). rewrite Hr in Hc'.
  split_and!; [done|exact Ht'|apply Hc'].
Qed.

Lemma trust_inv (ev : TrustEvent) (s : Session) : sess_inv s -> sess_inv (do_m (trust ev) s).
Proof. apply (do_m_inv (trust ev) (fun _ _ => True)); [|done]. eapply hoare_weaken; [apply hoare_trust|done..]. Qed.

Lemma measure_inv (m : Measurement) (ok : bool) (s : Session) : sess_inv s -> sess_inv (do_m (act (AMeasure m ok)) s).
Proof. apply (do_m_inv _ (fun _ _ => True)); [|done]. eapply hoare_weaken; [by apply hoare_act|done..]. Qed.

Lemma flush_log_returns (env : Env) (b : BState) : (flush_log env b).1 = Ret tt.
Proof. unfold flush_log. by destruct (flush _ _ _ _). Qed.

Lemma flush_inv (s : Session) : sess_inv s -> sess_inv (do_m (flush_log (se_env s)) s).
Proof.
  intros Hs. apply (do_m_inv _ (fun _ _ => True)); [|apply flush_log_returns|done].
  apply (env_of_hoare (se_env s)); [apply Hs|apply hoare_flush].
Qed.

Lemma flush_unless_inv (c : bool) (s : Session) : sess_inv s -> sess_inv (do_m (flush_unless (se_env s) c) s).
Proof. intros Hs. unfold flush_unless. destruct c; simpl; [by destruct s|by apply flush_inv]. Qed.

Lemma count_attempt_inv (e : BootEntry) (s : Session) : sess_inv s -> sess_inv (count_attempt e s).
Proof.
  intros Hs. unfold count_attempt. destruct (be_bls_filename e) as [f|]; [|done]. destruct (read_to_string_str _ _) as [content| |]; try done.
  set (s1 := do_m _ s). assert (sess_inv s1) as H1 by (by apply measure_inv).
  destruct (parse f content) as [entry|]; [|done]. case_bool_decide; [|done].
  case_bool_decide; [|by apply trust_inv]. destruct (decrement_boot_count _ _ _) as [[r v'] nv].
  destruct (be_source_volume_index e); simpl; [done|]. by destruct (_ <? _)%nat.
Qed.

Lemma measure_selected_inv (e : BootEntry) (s : Session) : sess_inv s -> sess_inv (measure_selected e s).
Proof. intros Hs. unfold measure_selected. destruct (be_kind e); first [done|by apply measure_inv]. Qed.

Lemma crumb_inv (msg : list Z) (s : Session) : sess_inv s -> sess_inv (crumb msg s).
Proof. unfold sess_inv. by destruct (crumb_frame msg s) as (-> & -> & _). Qed.

Lemma crumbs_inv (msgs : list string) (s : Session) : sess_inv s -> sess_inv (crumbs msgs s).
Proof. unfold sess_inv. by destruct (crumbs_frame msgs s) as (-> & -> & _). Qed.

Lemma prepare_boot_inv (e : BootEntry) (rd : Round) (s : Session) : sess_inv s -> sess_inv (prepare_boot cf e rd s).2.
Proof.
  intros Hs. unfold prepare_boot. cbv zeta. destruct (write_boot_report _ _ _ _ _) as [[[]| |] esp]; try exact Hs.
  cbn [snd]. apply crumbs_inv, flush_unless_inv, crumbs_inv, trust_inv, crumbs_inv, trust_inv, crumbs_inv.
  destruct (cf_conout_fat_coupling cf); [apply crumb_inv|];
    apply crumbs_inv, measure_selected_inv, crumbs_inv, count_attempt_inv; exact Hs.
Qed.

Lemma after_boot_trace (e : BootEntry) (s : Session) : se_b (after_boot e s) = se_b s /\ (env_of (se_env s) -> env_of (se_env (after_boot e s))).
Proof.
  unfold after_boot. destruct (be_kind e) as [| | |[]]; try done. destruct (be_source_volume_index e); [|done].
  split; [done|]. simpl. intros [->| ->]; by right.
Qed.

Lemma reclaim_inv (s : Session) : sess_inv s -> sess_inv (reclaim_volumes s).
Proof. unfold sess_inv. by destruct (reclaim_frame s) as (-> & -> & _). Qed.

(** What is left of the invariant when the machine is gone. *)
Definition sess_traced (s : Session) : Prop := trace_ok env0 p sb (bs_trace (se_b s)).

Lemma boot_selection_inv (e : BootEntry) (rd : Round) (s : Session) :
  sess_inv s -> match boot_selection cf e rd s with inl (_, s') => sess_traced s' | inr s' => sess_inv s' end.
Proof.
  intros Hs. unfold boot_selection. pose proof (prepare_boot_inv e rd s Hs) as H1.
  destruct (prepare_boot cf e rd s) as [[[]| |] s1]; [|by destruct H1 as (_ & ? & _)..]. simpl in H1. destruct H1 as (He & Ht & Hc).
  pose proof (env_of_hoare _ _ _ He (hoare_boot_entry (se_env s1) p sb (vol_view <$> se_esp s1 :: se_extras s1) e
    (cf_conout_fat_coupling cf)) (se_b s1) Ht Hc I) as (Ht2 & _ & Hc2).
  destruct (boot_entry _ _ _ _ _ _ (se_b s1)) as [o b]. simpl in Ht2, Hc2.
  destruct (after_boot_trace e (with_b b s1)) as [Hb Hen]. specialize (Hen He). set (s2 := after_boot e (with_b b s1)) in *.
  assert (sess_traced s2) as Htr by (unfold sess_traced; by rewrite Hb).
  destruct o as [st|st| |]; [|..|done|done].
  - assert (sess_inv s2) as Hinv by (split_and!; [done|done|rewrite Hb; apply Hc2]).
    destruct (is_tool e); [by apply reclaim_inv|done].
  - assert (sess_inv s2) as Hinv by (split_and!; [done|done|rewrite Hb; apply Hc2]).
    assert (sess_inv (do_m (flush_log (se_env (do_m (trust (failed_event cf e st (bs_ov (se_b s2)))) s2)))
      (do_m (trust (failed_event cf e st (bs_ov (se_b s2)))) s2))) as H3 by (by apply flush_inv, trust_inv).
    destruct (is_tool e); [by apply reclaim_inv|by destruct H3 as (_ & ? & _)].
Qed.

Lemma main_loop_inv (rounds : list Round) (s : Session) : sess_inv s -> sess_traced (main_loop cf rounds s).2.
Proof.
  revert s. induction rounds as [|rd rest IH]; intros s Hs; simpl; [apply Hs|].
  assert (forall e, sess_traced (match boot_selection cf e rd s with inl r => r
    | inr s => main_loop cf rest (leave_crash_loop s) end).2) as Hcont.
  { intros e. pose proof (boot_selection_inv e rd s Hs) as Hb. destruct (boot_selection cf e rd s) as [[r s']|s']; [done|].
    apply IH. exact Hb. }
  destruct (menu_result _ _ _ _) as [|e|[e| | |]]; try apply Hcont; try apply Hs.
  destruct (select_crash_recovery_entry _); [apply Hcont|apply Hs].
Qed.
End safety.

(** ** What a session does to the boot state *)
Section health.
Context {St NV : Type} `{Sfs St} `{NvLaws NV} (cf : Config).

#[local] Notation Session := (@Session St NV).

(** The variables the assessment of the next boot reads. *)
Definition health_vars : list var_key := [STATE_VAR; CRASH_COUNTER_VAR; VMGENID_VAR].

Definition same_health (nv nv' : NV) : Prop := forall k, k ∈ health_vars -> nv_get k nv' = nv_get k nv.

Lemma same_health_refl (nv : NV) : same_health nv nv.
Proof. by intros k _. Qed.

Lemma same_health_trans (nv1 nv2 nv3 : NV) : same_health nv1 nv2 -> same_health nv2 nv3 -> same_health nv1 nv3.
Proof. intros Hs1 Hs2 k Hk. by rewrite Hs2, Hs1. Qed.

Lemma set_other_health (key : var_key) (d : list Z) (nv : NV) : ~ key ∈ health_vars -> same_health nv (nv_set key d nv).1.
Proof. intros Hk k Hin. apply nv_get_other. congruence. Qed.

#[local] Ltac not_health := let E := fresh in intros E; repeat (apply elem_of_cons in E as [E|E]; [vm_compute in E; discriminate E|]); by apply not_elem_of_nil in E.

Lemma record_entry_health (id : list Z) (nv : NV) : same_health nv (record_boot_entry id nv).1.
Proof.
  unfold record_boot_entry. set (bytes := take 128 (str_bytes id)).
  assert (same_health nv (nv_set LAST_ENTRY_VAR bytes nv).1) as Hs1 by (apply set_other_health; not_health).
  destruct (nv_set LAST_ENTRY_VAR bytes nv) as [nv1 ok]. simpl in Hs1. destruct ok; [|done].
  eapply same_health_trans; [exact Hs1|]. apply set_other_health. not_health.
Qed.

Lemma firmware_setup_health (nv : NV) : same_health nv (reboot_to_firmware_setup nv).
Proof.
  unfold reboot_to_firmware_setup. destruct (negb _); [|apply same_health_refl]. apply set_other_health. not_health.
Qed.

Lemma decrement_health (entry : BlsEntry) (v : Vol St) (nv : NV) : same_health nv (decrement_boot_count entry v nv).2.
Proof.
  unfold decrement_boot_count. destruct (next_count_name entry) as [f|]; [|apply same_health_refl].
  destruct (with_writer _ v) as [[[[]| |]|] v']; simpl; try apply same_health_refl. apply set_other_health. not_health.
Qed.

Lemma count_attempt_health (e : BootEntry) (s : Session) : same_health (se_nv s) (se_nv (count_attempt e s)).
Proof.
  unfold count_attempt. destruct (be_bls_filename e) as [f|]; [|apply same_health_refl].
  destruct (read_to_string_str _ _) as [content| |]; try apply same_health_refl.
  destruct (parse f content) as [entry|]; [|apply same_health_refl].
  case_bool_decide; [|apply same_health_refl]. case_bool_decide; [|apply same_health_refl].
  set (s1 := do_m _ s). pose proof (decrement_health entry (source_volume (be_source_volume_index e) s) (se_nv s1)) as Hd.
  destruct (decrement_boot_count _ _ _) as [[r v'] nv]. exact Hd.
Qed.

Lemma prepare_boot_health (e : BootEntry) (rd : Round) (s : Session) : same_health (se_nv s) (se_nv (prepare_boot cf e rd s).2).
Proof.
  unfold prepare_boot. cbv zeta. destruct (write_boot_report _ _ _ _ _) as [[[]| |] esp]; try apply record_entry_health.
  cbn [snd]. eapply same_health_trans; [apply (record_entry_health (be_id e))|].
  match goal with |- context [count_attempt e ?s1] => pose proof (count_attempt_health e s1) as Hc end.
  eapply same_health_trans; [exact Hc|]. set (s1 := count_attempt e _).
  assert (forall m (s : Session), se_nv (do_m m s) = se_nv s) as Hm by done.
  assert (forall ms (s : Session), se_nv (crumbs ms s) = se_nv s) as Hcs by (intros; apply crumbs_frame).
  assert (se_nv (measure_selected e (crumbs ["LAMDIAG2 before_cmdline_tpm"] s1)) = se_nv s1) as Hsel
    by (unfold measure_selected; destruct (be_kind e); apply Hcs).
  rewrite Hcs, Hm, Hcs, Hm, Hcs, Hm, Hcs. destruct (cf_conout_fat_coupling cf);
    rewrite ?(proj2 (proj2 (crumb_frame _ _))), Hcs, Hsel; apply same_health_refl.
Qed.

Lemma after_boot_nv (e : BootEntry) (s : Session) : se_nv (after_boot e s) = se_nv s.
Proof. unfold after_boot. destruct (be_kind e) as [| | |[]]; try done. by destruct (be_source_volume_index e). Qed.

(** How an end of a session shows in the variables. *)
Definition end_health (nv : NV) (r : session_end) (nv' : NV) : Prop :=
  match r with
  | Returns (Ok _) => exists nv1 time, same_health nv nv1 /\ nv' = (mark_boot_success time nv1).1
  | _ => same_health nv nv'
  end.

Lemma boot_selection_health (e : BootEntry) (rd : Round) (s : Session) :
  match boot_selection cf e rd s with
  | inl (r, s') => end_health (se_nv s) r (se_nv s')
  | inr s' => same_health (se_nv s) (se_nv s')
  end.
Proof.
  unfold boot_selection. pose proof (prepare_boot_health e rd s) as Hs1.
  destruct (prepare_boot cf e rd s) as [[[]| |] s1]; try done. simpl in Hs1.
  destruct (boot_entry _ _ _ _ _ _ _) as [o b]. pose proof (after_boot_nv e (with_b b s1)) as Ha.
  set (s2 := after_boot e (with_b b s1)) in *. change (se_nv (with_b b s1)) with (se_nv s1) in Ha.
  destruct o as [st|st| |]; simpl; rewrite ?Ha; try done; destruct (is_tool e); simpl; rewrite ?(proj2 (proj2 (reclaim_frame _)));
    simpl; rewrite ?Ha; try done.
  by exists (se_nv s1), (rd_end rd).
Qed.

Lemma main_loop_health (rounds : list Round) (s : Session) :
  end_health (se_nv s) (main_loop cf rounds s).1 (se_nv (main_loop cf rounds s).2).
Proof.
  revert s. induction rounds as [|rd rest IH]; intros s; simpl; [apply same_health_refl|].
  assert (forall nv1 r nv2, same_health (se_nv s) nv1 -> end_health nv1 r nv2 -> end_health (se_nv s) r nv2) as Htr.
  { intros nv1 r nv2 Hs1 Hs2. destruct r as [| | | |[st| |]]; simpl in *; try by eapply same_health_trans.
    destruct Hs2 as (nv3 & time & Hs3 & ->). exists nv3, time. split; [by eapply same_health_trans|done]. }
  assert (forall e, let r := match boot_selection cf e rd s with inl r => r
    | inr s => main_loop cf rest (leave_crash_loop s) end in end_health (se_nv s) r.1 (se_nv r.2)) as Hcont.
  { intros e. pose proof (boot_selection_health e rd s) as Hb. destruct (boot_selection cf e rd s) as [[r s']|s']; [done|].
    eapply Htr; [exact Hb|]. apply (IH (leave_crash_loop s')). }
  destruct (menu_result _ _ _ _) as [|e|[e| | |]]; try apply Hcont; try apply same_health_refl.
  - destruct (select_crash_recovery_entry _); [apply Hcont|apply firmware_setup_health].
  - apply firmware_setup_health.
Qed.
End health.

(** ** Boots after boots *)
Section boots.
Context {NV : Type} `{NvLaws NV} `{!NvWritable NV} (g : option (list Z)) (v : pkg_version).


Definition returned_ok (r : session_end) : bool := match r with Returns (Ok _) => true | _ => false end.

Lemma same_health_seen (nv nv' : NV) :
  same_health nv nv' ->
  get_state nv' = get_state nv /\ get_crash_counter nv' = get_crash_counter nv /\ changed_genid g nv' = changed_genid g nv.
Proof.
  intros Hs. assert (forall n k, k ∈ health_vars -> get_variable n k nv' = get_variable n k nv) as Hg.
  { intros n k Hk. unfold get_variable. by rewrite (Hs k Hk). }
  unfold get_state, get_crash_counter, changed_genid, get_vmgenid.
  rewrite !Hg by (unfold health_vars; rewrite !elem_of_cons; tauto). done.
Qed.

(** A run assesses the store; what it does afterwards keeps the health variables or
    ends with [mark_boot_success]. *)
Lemma run_health_inv (time : option efi_time) (nv nv' : NV) (n : Z) (ok : bool) :
  health_inv g n nv ->
  (let nv1 := (assess_boot_health g time v nv).2 in
   if ok then exists nv2 time', same_health nv1 nv2 /\ nv' = (mark_boot_success time' nv2).1 else same_health nv1 nv') ->
  health_inv g (if ok then 0 else n + 1) nv'.
Proof.
  intros Hi. pose proof (health_inv_counter g n nv Hi) as Hc. destruct Hi as (Hn & Hg & _).
  pose proof (assess_counts g time v nv Hg) as Ha. destruct (assess_boot_health g time v nv) as [c nv1].
  cbn [snd]. destruct Ha as (-> & [Hst Hcn] & Hgen). destruct ok.
  - intros (nv2 & time' & Hs2 & ->). apply same_health_seen in Hs2 as (_ & _ & Eg).
    pose proof (mark_success_seen g time' nv2 ltac:(by rewrite Eg)) as Hk. destruct (mark_boot_success time' nv2) as [nv3 ok].
    destruct Hk as (_ & [Hst3 _] & Hg3). split_and!; [lia|done|]. rewrite decide_True by done. by right.
  - intros [Est [Ec Eg]]%same_health_seen. split_and!; [lia|by rewrite Eg|]. rewrite decide_False by lia.
    split; [by rewrite Est|]. rewrite Ec, Hcn, Hc. f_equal. lia.
Qed.
End boots.

(** ** Recovery *)
Lemma find_some_in (f : BootEntry -> bool) (entries : list BootEntry) (e : BootEntry) :
  List.find f entries = Some e -> e ∈ entries /\ f e = true.
Proof. intros Hf. apply List.find_some in Hf as [Hin Hf]. split; [by apply list_elem_of_In|done]. Qed.

Lemma recovery_entry_in (entries : list BootEntry) (e : BootEntry) :
  select_crash_recovery_entry entries = Some e -> e ∈ entries /\ is_tool e = false.
Proof.
  unfold select_crash_recovery_entry. destruct (List.find preflight_clean entries) as [e'|] eqn:E.
  - intros [= <-]. apply find_some_in in E as [Hin Hf]. split; [done|]. unfold preflight_clean in Hf.
    by destruct (is_tool e').
  - intros Hf. apply find_some_in in Hf as [Hin Hf]. split; [done|]. by destruct (is_tool e).
Qed.

Lemma recovery_entry_some (entries : list BootEntry) :
  has_bootable entries = true -> is_Some (select_crash_recovery_entry entries).
Proof.
  intros Hb. unfold select_crash_recovery_entry. destruct (List.find preflight_clean entries); [by eexists|].
  unfold has_bootable in Hb. apply List.existsb_exists in Hb as (e & Hin & He).
  destruct (List.find _ entries) eqn:E; [by eexists|]. by rewrite (List.find_none _ _ E e Hin) in He.
Qed.

(** The first configured fallback that is there. *)
Lemma select_fallback_spec (entries : list BootEntry) (order : list (list Z)) (e : BootEntry) :
  select_fallback entries order = Some e ->
  e ∈ entries /\ exists pre post, order = pre ++ be_id e :: post /\ forall e', e' ∈ entries -> ~ be_id e' ∈ pre.
Proof.
  induction order as [|id rest IH]; simpl; [done|].
  destruct (List.find _ entries) as [e'|] eqn:E.
  - intros [= <-]. apply find_some_in in E as [Hin Hid%bool_decide_eq_true]. split; [done|].
    exists [], rest. split; [by rewrite Hid|]. intros e'' _. apply not_elem_of_nil.
  - intros (Hin & pre & post & -> & Hpre)%IH. split; [done|]. exists (id :: pre), post. split; [done|].
    intros e' He' [Heq|Hp]%elem_of_cons; [|by eapply Hpre].
    apply list_elem_of_In in He'. pose proof (List.find_none _ _ E e' He') as Hn. simpl in Hn.
    by rewrite bool_decide_true in Hn.
Qed.

(** The default under the recovery policy is an entry with the recovery entry's id. *)
Lemma recovery_default (entries : list BootEntry) (eligible : list nat) (p : Policy) (r : BootEntry) (i : nat) :
  eligible_ok entries eligible -> i ∈ eligible -> entries !! i = Some r ->
  exists j e, select_default_entry entries eligible (recovery_policy r p) = Ok (Some j) /\
    entries !! j = Some e /\ be_id e = be_id r.
Proof.
  intros Hok Hi Hr. unfold select_default_entry. simpl.
  destruct (exact_match_spec entries (be_id r) eligible Hok) as (o & -> & Ho). destruct o as [j|].
  - destruct Ho as [_ (e & He & Hid)]. eauto.
  - exfalso. apply (Ho i). split; [done|]. eauto.
Qed.

Lemma boot_indices_in (entries : list BootEntry) (i : nat) (e : BootEntry) :
  entries !! i = Some e -> is_tool e = false -> i ∈ boot_indices entries.
Proof.
  unfold boot_indices. assert (forall k, entries !! i = Some e -> is_tool e = false ->
    (k + i)%nat ∈ indices_where (fun e => negb (is_tool e)) k entries) as Hgen; [|by apply (Hgen 0%nat)].
  revert i. induction entries as [|e' rest IH]; intros i k He Ht; [done|]. destruct i as [|i]; simpl in He |- *.
  - injection He as ->. rewrite Ht. simpl. rewrite Nat.add_0_r. apply elem_of_cons. by left.
  - replace (k + S i)%nat with (S k + i)%nat by lia. destruct (negb _); [apply elem_of_cons; right|]; by apply IH.
Qed.

Lemma no_press_no_key (evs : list InputEvent) : Forall no_press evs -> Forall no_key evs.
Proof. intros Hev. eapply Forall_impl; [exact Hev|]. by intros []. Qed.

(** Left alone for eight seconds, the recovery menu boots an entry with the
    recovery entry's id, unless the display fails. *)
Lemma recovery_menu_boots (entries : list BootEntry) (p : Policy) (rd : Round) (r : BootEntry) :
  select_crash_recovery_entry entries = Some r ->
  Forall no_press (rd_events rd) -> 500 <= idle_rounds (rd_events rd) ->
  (exists e, e ∈ entries /\ be_id e = be_id r /\ run_menu_with_fallback entries (recovery_policy r p) rd = MenuEnds (Selected e)) \/
  exists err, run_menu_with_fallback entries (recovery_policy r p) rd = MenuErr err.
Proof.
  intros Hr Hev Hidle. apply recovery_entry_in in Hr as [Hin Htool].
  apply list_elem_of_lookup in Hin as [i Hi].
  assert (has_bootable entries = true) as Hboot.
  { rewrite has_bootable_boots. apply negb_true_iff, bool_decide_eq_false. intros E.
    pose proof (boot_indices_in entries i r Hi Htool) as Hb. rewrite E in Hb. by apply not_elem_of_nil in Hb. }
  assert (0 < default_timeout_ms (recovery_policy r p) <= u32_max - 99) as Htime by (vm_compute; split; [reflexivity|discriminate]).
  assert (default_timeout_ms (recovery_policy r p) = 8000) as E8 by done.
  assert (exists e, e ∈ entries /\ be_id e = be_id r /\
    menu_of (text_menu entries (recovery_policy r p) text_new (rd_events rd)) = MenuEnds (Selected e)) as Htext.
  { destruct (text_unattended entries (recovery_policy r p) Hboot Htime (rd_events rd) text_new eq_refl eq_refl
      ltac:(simpl; lia) ltac:(rewrite E8; simpl; lia) (no_press_no_key _ Hev)) as (e & He & Hm).
    rewrite Hm, E8. replace (8000 <=? _) with true by (simpl; lia). simpl. exists e. revert He. unfold text_default.
    destruct (recovery_default entries (seq 0 (length entries)) p r i) as (j & e' & -> & He' & Hid); [apply seq_eligible| |done|].
    { apply elem_of_seq. apply lookup_lt_Some in Hi. lia. }
    simpl. rewrite He'. intros [= ->]. split; [by eapply list_elem_of_lookup_2|done]. }
  unfold run_menu_with_fallback. destruct (rd_graphics rd); [|by left].
  destruct (rd_gui_new rd) as [?|[w h]]; [by left|]. destruct (rd_gui_open rd) as [err|]; [right; by exists err|left].
  destruct (gui_unattended entries (recovery_policy r p) Hboot Htime w h (rd_events rd) gui_new eq_refl eq_refl eq_refl
    ltac:(simpl; lia) ltac:(rewrite E8; simpl; lia) Hev) as (e & g' & He & _ & _ & Hm).
  rewrite Hm, E8. replace (8000 <=? _) with true by (simpl; lia). simpl. exists e. revert He. unfold gui_default.
  destruct (recovery_default entries (boot_indices entries) p r i) as (j & e' & -> & He' & Hid);
    [apply boots_eligible|by eapply boot_indices_in|done|].
  simpl. rewrite He'. intros [= ->]. split; [by eapply list_elem_of_lookup_2|done].
Qed.


(** Nothing unverified or unmeasured runs in a whole session: through any
    number of menus, tools, failed attempts and the recovery paths, every image
    the session starts was measured before and is on the trust record with its
    hash; and under Secure Boot, with any native_pe mode but always, it was
    accepted by shim or by the firmware's authentication service. *)
Theorem session_starts_verified {St NV : Type} `{Sfs St} `{NvStore NV} (cf : Config) (rounds : list Round)
    (s : @Session St NV) (pre post : list action) (a : action) (b : list Z) :
  bs_trace (se_b s) = [] -> calm (bs_ov (se_b s)) ->
  bs_trace (se_b (main_loop cf rounds s).2) = pre ++ a :: post -> started a = Some b ->
  (measured (se_env s) b pre /\ audited (se_env s) b pre) /\
  (authenticates (env_load_image (se_env s)) -> cf_sb cf <> SbDisabled -> loader_native_pe (cf_policy cf) <> NativeAlways ->
   shim_accepts (env_shim (se_env s)) b = true \/
   exists dp policy, sf_auth (env_security (se_env s)) dp (Some b) policy = SUCCESS).
Proof.
  intros Ht Hc E Hs. assert (sess_inv cf (se_env s) s) as Hi.
  { split_and!; [by left| |done]. rewrite Ht. intros pre' a' post' E'. by destruct pre'. }
  pose proof (main_loop_inv cf (se_env s) rounds s Hi) as Hok. unfold sess_traced in Hok. rewrite E in Hok. split.
  - pose proof (Hok _ _ _ eq_refl) as Hj. destruct a; simpl in Hs; try done; injection Hs as ->; apply Hj.
  - intros Hauth Hsb Hp. by eapply trace_start_verified.
Qed.

(** ** A concrete session *)
Definition demo_ctx : BootContext :=
  mkCtx (lit "0.11.0") (lit "x86_64") None None None None None false false 0 None None None (lit "{}") ReportShim false.

Definition demo_config (entries : list BootEntry) : Config :=
  mkConfig default_policy SbActiveWithShim false entries demo_ctx (fun _ => []) (fun _ => []).

Definition demo_session (crash : bool) : @Session SimFat var_map :=
  mkSession demo_env (mkBState log_new ∅ override_init []) ∅
    (FatVol (mkFat (sim_of [(lit "/EFI/Linux/a.efi", demo_pe)] no_refusal) cache_new) None) [] bootlog_new (mkDiag false false None) crash.

Definition demo_round (evs : list InputEvent) : Round := mkRound false (inl NOT_FOUND) None evs None None None.

(** Enter at the text menu boots the UKI, which takes the machine over. *)
Definition demo_run : session_end * @Session SimFat var_map :=
  main_loop (demo_config [demo_uki]) [demo_round [KeyPress KeyEnter]] (demo_session false).

Lemma session_starts_verified_witness :
  demo_run.1 = MachineTaken /\
  exists pre post, bs_trace (se_b demo_run.2) = pre ++ AStartNative demo_pe (lit "quiet") :: post /\
    (measured demo_env demo_pe pre /\ audited demo_env demo_pe pre) /\
    (authenticates (env_load_image demo_env) -> SbActiveWithShim <> SbDisabled -> loader_native_pe default_policy <> NativeAlways ->
     shim_accepts (env_shim demo_env) demo_pe = true \/
     exists dp policy, sf_auth (env_security demo_env) dp (Some demo_pe) policy = SUCCESS).
Proof.
  split; [vm_compute; reflexivity|].
  exists (take 11 (bs_trace (se_b demo_run.2))), (drop 12 (bs_trace (se_b demo_run.2))).
  assert (bs_trace (se_b demo_run.2) = take 11 (bs_trace (se_b demo_run.2)) ++ AStartNative demo_pe (lit "quiet")
    :: drop 12 (bs_trace (se_b demo_run.2))) as E by (vm_compute; reflexivity).
  split; [exact E|].
  exact (session_starts_verified (demo_config [demo_uki]) [demo_round [KeyPress KeyEnter]] (demo_session false) _ _ _ _
    eq_refl override_init_calm E eq_refl).
Defined.

#[local] Notation idle_round := (demo_round (repeat NoEvent 500)).


(** Only tools come back to the menu. *)
Lemma only_tools_return {St NV : Type} `{Sfs St} `{NvStore NV} (cf : Config) (e : BootEntry) (rd : Round) (s s' : @Session St NV) :
  boot_selection cf e rd s = inr s' -> is_tool e = true.
Proof.
  unfold boot_selection. destruct (prepare_boot cf e rd s) as [[[]| |] s1]; try done.
  destruct (boot_entry _ _ _ _ _ _ _) as [[| | |] b]; destruct (is_tool e); done.
Qed.

(** Without a report there is no boot: when the ESP takes no report, whatever was
    selected is not booted and the session returns the error. *)
Theorem report_failure_aborts_boot {St NV : Type} `{Sfs St} `{NvStore NV} (cf : Config) (e : BootEntry) (rd : Round)
    (s : @Session St NV) (v : Volume) :
  se_esp s = RoVol v ->
  exists s', boot_selection cf e rd s = inl (Returns (Err UNSUPPORTED), s') /\ bs_trace (se_b s') = bs_trace (se_b s).
Proof.
  intros Hesp. unfold boot_selection, prepare_boot. cbv zeta. unfold with_bootlog. cbn [se_esp se_bootlog with_esp with_nv].
  unfold bootlog_flush. rewrite Hesp. destruct (is_empty _); simpl; by eexists.
Qed.

(** The command line of a UKI or kernel is measured twice into PCR 12: here and again by the boot. *)
Theorem cmdline_measured_twice :
  length (List.filter (fun a => match a with AMeasure m _ => Z.eqb (m_pcr m) PCR_KERNEL_CMDLINE | _ => false end)
    (bs_trace (se_b demo_run.2))) = 2%nat.
Proof. vm_compute. reflexivity. Qed.
