(* ===== verification/Startup.v ===== *)
(** * A whole run (main.rs: [efi_main], [run_bootloader]; [mount_esp] of fs.rs)

    The phases before the menu, in their order, and the run they start:
    platform data, the ESP, the logs, the policy, the drivers, the volumes,
    discovery, the NVRAM entry, preflight, the crash-loop check; then the main
    loop.  What the firmware answers is the record [Machine]. *)
From S2P Require Import Prelude Compare RustStr Utf8 VersionOrder BlsParse BootCount PeLoader PeLoad FsTypes BootTypes Policy Menu TrustLog Nvram Health NvBootEntry SecureBoot SecurityOverride Tpm VolumeFs BlockSource Partitions Initrd FatFs Report Uki IsoBoot BootFlow Drivers BootHoare BootSafety DriverSafety Preflight Discovery Smbios Acpi FwCfg Dispatch Mounts MainLoop.
Local Open Scope Z_scope.

(** ** The machine *)
Record Machine (St FS Lv : Type) : Type := mkMachine {
  mc_env : Env;
  mc_init : bool;                                   (* [uefi::helpers::init] *)
  mc_clock : nat -> option (efi_time * Z);          (* the readings of the clock, by the place that reads it *)
  mc_version : pkg_version;
  mc_version_text : list Z;
  mc_sb_reads : nat -> var_read;                    (* reads of the SecureBoot variable *)
  mc_memory : Z -> Z -> list Z;
  mc_tables : list (config_guid * Z);               (* the configuration tables *)
  mc_cpuid : Z -> Z -> Z * Z * Z * Z;
  mc_fw_cfg : FS;
  mc_loaded_image : res Status (option Z);          (* LoadedImage of the boot loader; its device *)
  mc_sfs : Z -> res Status unit;                    (* SimpleFileSystem of a handle *)
  mc_log_files : LogFiles;                          (* the trust logs on the ESP *)
  mc_inputs : Z * Z * Z;                            (* text input, pointer and USB handles *)
  mc_sfs_handles : res Status (list Z);
  mc_all_handles : res Status (list Z);
  mc_parts : PartFw;
  mc_readers : Readers Lv;
  mc_fat_state : Z -> bool -> St;
  mc_fat_label : Z -> option (list Z);
  mc_self : option (Z * list Z);                    (* base and bytes of the running image *)
  mc_booted_from : option (list Z);
  mc_device_path : device_path_result;              (* of the installed binary *)
  mc_status_debug : Status -> list Z;
  mc_show_error : FsError -> list Z;
  mc_debug_handle : Z -> list Z
}.
Arguments mc_env {_ _ _}. Arguments mc_init {_ _ _}. Arguments mc_clock {_ _ _}. Arguments mc_version {_ _ _}.
Arguments mc_version_text {_ _ _}. Arguments mc_sb_reads {_ _ _}. Arguments mc_memory {_ _ _}. Arguments mc_tables {_ _ _}.
Arguments mc_cpuid {_ _ _}. Arguments mc_fw_cfg {_ _ _}. Arguments mc_loaded_image {_ _ _}. Arguments mc_sfs {_ _ _}.
Arguments mc_log_files {_ _ _}. Arguments mc_inputs {_ _ _}. Arguments mc_sfs_handles {_ _ _}. Arguments mc_all_handles {_ _ _}.
Arguments mc_parts {_ _ _}. Arguments mc_readers {_ _ _}. Arguments mc_fat_state {_ _ _}. Arguments mc_fat_label {_ _ _}.
Arguments mc_self {_ _ _}. Arguments mc_booted_from {_ _ _}. Arguments mc_device_path {_ _ _}. Arguments mc_status_debug {_ _ _}.
Arguments mc_show_error {_ _ _}. Arguments mc_debug_handle {_ _ _}.

(** What the run knows of its platform. *)
Record Platform : Type := mkPlatform {
  pl_sb : SecureBootState;
  pl_sys : SystemInfo;
  pl_quirks : FirmwareQuirks;
  pl_hypervisor : HypervisorInfo;
  pl_iommu : IommuInfo;
  pl_fleet_id : option (list Z);
  pl_vmid : option (list Z);
  pl_role : option (list Z);
  pl_host_node : option (list Z)
}.

Definition sb_debug (sb : SecureBootState) : list Z :=
  match sb with
  | SbDisabled => lit "Disabled"
  | SbActiveWithShim => lit "ActiveWithShim"
  | SbActiveDirect => lit "ActiveDirect"
  end.

Definition BUILD_TARGET (a : target_arch) : list Z := match a with X86_64 => lit "x86_64" | Aarch64 => lit "aarch64" end.
Definition POLICY_PATH : list Z := lit "/EFI/LamBoot/policy.toml".
Definition MANIFEST_PATH : list Z := lit "/EFI/LamBoot/modules/manifest.toml".
Definition LAMBOOT_INSTALL_PATH (a : target_arch) : list Z :=
  match a with X86_64 => lit "\EFI\LamBoot\lambootx64.efi" | Aarch64 => lit "\EFI\LamBoot\lambootaa64.efi" end.

Definition report_sb (sb : SecureBootState) : ReportSbState :=
  match sb with SbDisabled => ReportOff | SbActiveWithShim => ReportShim | SbActiveDirect => ReportDirect end.

(** A run ends before the session, or with it. *)
Inductive run_end : Type :=
  | InitFailed
  | EspFailed (st : Status)
  | RunPanics
  | DriverTook
  | SessionEnds (r : session_end).

Section run.
Context {St NV FS Lv : Type} `{Sfs St} `{NvStore NV} `{FwCfgPort FS} `{BlockSource Lv} (mc : Machine St FS Lv).

#[local] Notation env := (mc_env mc).
#[local] Notation arch := (env_target (mc_env mc)).
#[local] Notation time k := (fst <$> mc_clock mc k).

(** *** Platform data *)
(** The host's object replaces what SMBIOS said, where it says anything. *)
Definition host_config (fleet_id vmid : option (list Z)) (fs : FS) : option (list Z) * option (list Z) * option (list Z) * option (list Z) :=
  let '(available, fs) := fw_cfg_available arch fs in
  if available : bool then
    match (read_file_string arch (lit "opt/lamboot/config") fs).1 with
    | Some config =>
        let parsed := fwcfg_parse config in
        (match fc_fleet_id parsed with Some x => Some x | None => fleet_id end,
         match fc_vmid parsed with Some x => Some x | None => vmid end,
         fc_role parsed, fc_host_node parsed)
    | None => (fleet_id, vmid, None, None)
    end
  else (fleet_id, vmid, None, None).

Definition identify_platform (fs : FS) : res Status Platform :=
  let sb := detect_secure_boot (mc_sb_reads mc) (shim_lock_present (env_shim env)) in
  let? smbios := read_smbios (mc_memory mc) (mc_tables mc) in
  let '(sys_info, oem_strings) := smbios in
  let? iommu := parse_iommu_tables (mc_memory mc) (mc_tables mc) in
  let '(fleet_id, vmid, role, host_node) :=
    host_config (get_lamboot_oem_value oem_strings (lit "fleet-id")) (get_lamboot_oem_value oem_strings (lit "vmid")) fs in
  Ok (mkPlatform sb sys_info (quirks_detect sys_info) (detect_hypervisor arch (mc_cpuid mc)) iommu fleet_id vmid role host_node).

(** *** The ESP *)
Definition mount_esp : res FsError (Vol St) :=
  match mc_loaded_image mc with
  | Ok (Some device_handle) =>
      match mc_sfs mc device_handle with
      | Ok _ => Ok (FatVol (mkFat (mc_fat_state mc device_handle false) cache_new) (mc_fat_label mc device_handle))
      | Err st => Err (FsIo st)
      | Panic => Panic
      end
  | Ok None => Err (FsIo NOT_FOUND)
  | Err st => Err (FsIo st)
  | Panic => Panic
  end.

(** *** The logs *)
Definition first_events (pl : Platform) (crash_count : Z) : list TrustEvent :=
  let '(n_text_input, n_pointer, n_usb_io) := mc_inputs mc in
  [with_note (lit "version=" ++ mc_version_text mc ++ lit " arch=" ++ BUILD_TARGET arch ++ lit " sb=" ++ sb_debug (pl_sb pl)
              ++ lit " crash_counter=" ++ fmt_dec crash_count) (event_new (lit "boot_start"));
   with_note (quirks_summary (pl_quirks pl)) (event_new (lit "firmware_quirks_applied"));
   with_note (lit "simple_text_input=" ++ fmt_dec n_text_input ++ lit " simple_pointer=" ++ fmt_dec n_pointer
              ++ lit " usb_io=" ++ fmt_dec n_usb_io) (event_new (lit "input_subsystem"))].

Definition start_log (pl : Platform) : TrustLog :=
  let coupled := conout_fat_coupling (pl_quirks pl) in
  let log := set_quiet coupled log_new in
  if coupled then set_log_path (lit "/EFI/LamBoot/reports/trust.log") log else log.

Fixpoint trust_all (evs : list TrustEvent) : M unit :=
  match evs with [] => mret tt | ev :: evs => _ ← trust ev; trust_all evs end.

(** [bootlog.info(Some(&mut esp), ..)]: the [k]th reading of the clock. *)
Definition esp_line (k : nat) (level message : list Z) (le : BootLog * Vol St) : BootLog * Vol St :=
  match bootlog_log (time k) level message le.1 (Some le.2) with
  | (l, Some esp) => (l, esp)
  | (l, None) => (l, le.2)
  end.

Definition start_bootlog (pl : Platform) (crash_count : Z) (esp : Vol St) : BootLog * Vol St :=
  let le := bootlog_start (time 4) (mc_version_text mc) (BUILD_TARGET arch) bootlog_new esp in
  let le := esp_line 5 (lit "INFO") (lit "Crash counter: " ++ fmt_dec crash_count) le in
  let le := esp_line 6 (lit "INFO") (lit "System: " ++ default (lit "unknown") (si_manufacturer (pl_sys pl)) ++ [c_space]
                                     ++ default [] (si_product_name (pl_sys pl))) le in
  if hv_present (pl_hypervisor pl)
  then esp_line 7 (lit "INFO") (lit "Hypervisor: " ++ default (lit "unknown") (hv_name (pl_hypervisor pl))) le
  else le.

(** *** The policy *)
Definition policy_event (r : res FsError (Policy * list PolicyClampReport)) : TrustEvent :=
  match r with
  | Ok _ => with_status (mc_status_debug mc SUCCESS) (with_path POLICY_PATH (event_new (lit "policy_loaded")))
  | Err e =>
      with_note (lit "falling back to compiled-in defaults")
        (with_status (mc_status_debug mc (to_uefi_status e)) (with_path POLICY_PATH (event_new (lit "policy_invalid"))))
  | Panic => event_new []
  end.

Definition policy_of (r : res FsError (Policy * list PolicyClampReport)) : Policy :=
  match r with Ok (p, _) => p | _ => default_policy end.

Definition measure_config_file (esp : Vol St) (path : list Z) : M unit :=
  match read_str (vol_backend (vol_view esp)) path with
  | Ok data =>
      act (AMeasure (mkMeasurement PCR_BOOT_CONFIG IPL false data (lit "LamBoot: Boot Configuration"))
             (measure_config (env_tpm env) data))
  | Err _ => mret tt
  | Panic => panicked
  end.

(** The first events, the policy and its measurements. *)
Definition policy_phase (pl : Platform) (crash_count : Z) (esp : Vol St) : M Policy :=
  let loaded := load_policy (read_to_string_str (vol_backend (vol_view esp)) POLICY_PATH) in
  _ ← trust_all (first_events pl crash_count);
  _ ← (match loaded with Panic => panicked | _ => trust (policy_event loaded) end);
  _ ← measure_config_file esp POLICY_PATH;
  _ ← measure_config_file esp MANIFEST_PATH;
  mret (policy_of loaded).

Definition drivers_phase (esp : Vol St) (p : Policy) : M Z :=
  load_drivers env (mc_sfs_handles mc) (mc_all_handles mc) (mc_status_debug mc) (vol_view esp) (drivers_legacy p).

(** *** Discovery *)
Definition self_image_sha256 : option (list Z) :=
  match mc_self mc with
  | Some (base, bytes) => if (base =? 0) || (len bytes =? 0) then None else Some (sha256_of env bytes)
  | None => None
  end.

Definition discovered_event (entries : list BootEntry) (extras : list (Vol St)) : TrustEvent :=
  with_note (lit "total=" ++ fmt_dec (len entries) ++ lit " extra_volumes=" ++ fmt_dec (len extras))
    (event_new (lit "entries_discovered")).

(** Volumes and entries, with the trust log. *)
Definition find_entries (p : Policy) (esp : Vol St) (log : TrustLog)
    : res FsError (list BootEntry * list DiscoveredPartition * list (Vol St) * TrustLog) :=
  let parts := scan_discoverable_partitions arch (mc_parts mc) in
  let? m := mount_all (mc_parts mc) (mc_readers mc) (mc_fat_state mc) (mc_fat_label mc) parts log in
  let extras := mv_vol <$> mo_vols m in
  let? discs := (if iso_optical_enabled p then scan_optical_handles (mc_parts mc) else Ok []) in
  match discover_all_entries (sha256_of env) self_image_sha256 (mc_booted_from mc) arch (mc_show_error mc) discs
          (vol_view <$> esp :: extras) p (mo_log m) with
  | Ok (r, log) => Ok (dr_entries r, parts, extras, record (discovered_event (dr_entries r) extras) log)
  | _ => Panic
  end.

(** *** The NVRAM entry *)
Definition install_event (r : SelfInstall) : TrustEvent :=
  match r with
  | Created num =>
      with_note (lit "num=" ++ fmt_hex_upper 4 num ++ lit " path=" ++ LAMBOOT_INSTALL_PATH arch ++ lit " status=created")
        (event_new (lit "boot_entry_self_installed"))
  | AlreadyPresent num =>
      with_note (lit "num=" ++ fmt_hex_upper 4 num ++ lit " status=already_present") (event_new (lit "boot_entry_self_installed"))
  | NoDevicePath => with_note (lit "reason=no_loaded_image_device_path") (event_new (lit "boot_entry_self_install_skipped"))
  | InstallFailed => with_note (lit "reason=nvram_or_devicepath_error") (event_new (lit "boot_entry_self_install_failed"))
  end.

Definition self_install (p : Policy) (esp : Vol St) (nv : NV) : M unit * NV :=
  if self_install_boot_entry p && vol_exists (vol_view esp) (LAMBOOT_INSTALL_PATH arch) then
    let '(r, nv) := ensure_named_boot_entry (mc_device_path mc) (lit "LamBoot") nv in
    (trust (install_event r), nv)
  else (mret tt, nv).

(** *** Ready for the menu *)
Definition count_line (entries : list BootEntry) (le : BootLog * Vol St) : BootLog * Vol St :=
  let bootable := len (List.filter (fun e => negb (bool_decide (be_icon e = IconTools))) entries) in
  if bootable =? 0 then esp_line 14 (lit "WARN") (lit "No bootable entries found") le
  else esp_line 14 (lit "INFO") (lit "Found " ++ fmt_dec bootable ++ lit " boot entries (" ++ fmt_dec (len entries)
                                ++ lit " total with tools)") le.

(** Preflight over all volumes, then the flush of the trust log. *)
Definition late_phase (esp : Vol St) (extras : list (Vol St)) (sb : SecureBootState) (entries : list BootEntry) : M (list BootEntry) :=
  entries ← preflight_entries env (vol_view esp) (vol_view <$> extras) sb entries;
  _ ← flush_log env;
  mret entries.

Definition boot_context (pl : Platform) (p : Policy) (t : BootTelemetry) : BootContext :=
  mkCtx (mc_version_text mc) (BUILD_TARGET arch) (si_manufacturer (pl_sys pl)) (si_product_name (pl_sys pl)) (pl_fleet_id pl) None
    (hv_name (pl_hypervisor pl)) (io_intel_vt_d (pl_iommu pl)) (io_amd_vi (pl_iommu pl)) (length (io_drhd_units (pl_iommu pl)))
    (pl_vmid pl) (pl_role pl) (pl_host_node pl) (telemetry_json (mc_clock mc 18) t) (report_sb (pl_sb pl))
    (match loader_native_pe p with NativeNever => true | _ => false end).

Definition set_log (log : TrustLog) (b : BState) : BState := mkBState log (bs_disk b) (bs_ov b) (bs_trace b).

(** The run ends in a phase of the boot monad. *)
Definition ends {A : Type} (r : outcome A) : run_end := match r with Taken => DriverTook | _ => RunPanics end.

(** From the drivers to the session. *)
Definition open_session (pl : Platform) (p : Policy) (driver_count : Z) (tele : BootTelemetry) (le : BootLog * Vol St)
    (nv : NV) (b : BState) : (run_end * BState * NV) + (Config * @Session St NV) :=
  let coupled := conout_fat_coupling (pl_quirks pl) in
  let tele := telemetry_record (lit "drivers") (timestamp_ms (mc_clock mc 8)) (mc_clock mc 9) tele in
  let le := if 0 <? driver_count
            then esp_line 10 (lit "INFO") (lit "Loaded " ++ fmt_dec driver_count ++ lit " filesystem driver(s)") le else le in
  let le := esp_line 11 (lit "INFO") (lit "Discovering boot entries...") le in
  match find_entries p le.2 (bs_log b) with
  | Ok (entries, parts, extras, log) =>
      let tele := telemetry_record (lit "discovery") (timestamp_ms (mc_clock mc 12)) (mc_clock mc 13) tele in
      let '(install, nv) := self_install p le.2 nv in
      let b := (install (set_log log b)).2 in
      let le := count_line entries le in
      let entries := match parts with [] => entries | _ => auto_append_root entries parts end in
      match late_phase le.2 extras (pl_sb pl) entries b with
      | (Ret entries, b) =>
          let crash := is_crash_loop (crash_threshold p) nv in
          let le := esp_line 16 (lit "INFO") (lit "Boot init: " ++ fmt_dec (total_ms (mc_clock mc 15) tele) ++ lit " ms") le in
          let nv := store_variable (mc_clock mc 17) tele nv in
          inr (mkConfig p (pl_sb pl) coupled entries (boot_context pl p tele) (mc_debug_handle mc) (mc_status_debug mc),
               mkSession env b nv le.2 extras (set_buffered le.1) (mkDiag (diagnostics_verbose p) coupled None) crash)
      | (r, b) => inl (ends r, b, nv)
      end
  | _ => inl (RunPanics, b, nv)
  end.

(** The phases from the trust log to the session; [inl]: the run ends before. *)
Definition start_up (pl : Platform) (crash_count : Z) (tele : BootTelemetry) (esp : Vol St) (nv : NV) (b : BState)
    : (run_end * BState * NV) + (Config * @Session St NV) :=
  let le := start_bootlog pl crash_count esp in
  match policy_phase pl crash_count le.2 b with
  | (Ret p, b) =>
      let nv := request_shim_retain_protocol (env_shim env) nv in
      match drivers_phase le.2 p b with
      | (Ret driver_count, b) => open_session pl p driver_count tele le nv b
      | (r, b) => inl (ends r, b, nv)
      end
  | (r, b) => inl (ends r, b, nv)
  end.

(** [run_bootloader] from a store, with what happens at the menus. *)
Definition run_bootloader (rounds : list Round) (nv : NV) : run_end * BState * NV :=
  let tele := telemetry_new (mc_clock mc 0) in
  let '(vmgenid, fs) := read_vmgenid arch (mc_fw_cfg mc) in
  let '(crash_count, nv) := assess_boot_health vmgenid (time 2) (mc_version mc) nv in
  let tele := telemetry_record (lit "health") (timestamp_ms (mc_clock mc 1)) (mc_clock mc 3) tele in
  let b0 := mkBState log_new (mc_log_files mc) override_init [] in
  match identify_platform fs with
  | Ok pl =>
      match mount_esp with
      | Ok esp =>
          match start_up pl crash_count tele esp nv (set_log (start_log pl) b0) with
          | inl r => r
          | inr (cf, s) => let '(r, s) := main_loop cf rounds s in (SessionEnds r, se_b s, se_nv s)
          end
      | Err e => (EspFailed (to_uefi_status e), b0, nv)
      | Panic => (RunPanics, b0, nv)
      end
  | _ => (RunPanics, b0, nv)
  end.

Definition run_status (r : run_end) : option Status :=
  match r with
  | InitFailed => Some ABORTED
  | EspFailed st => Some st
  | SessionEnds (Returns (Ok st)) => Some st
  | SessionEnds (Returns (Err st)) => Some st
  | _ => None
  end.

(** The status the firmware sees, when it sees one. *)
Definition efi_main (rounds : list Round) (nv : NV) : option Status * NV :=
  if negb (mc_init mc) then (run_status InitFailed, nv)
  else let '(r, _, nv) := run_bootloader rounds nv in (run_status r, nv).
End run.

(** ** Safety of a whole run *)
Section safety.
Context {St NV FS Lv : Type} `{Sfs St} `{NvStore NV} `{FwCfgPort FS} `{BlockSource Lv} (mc : Machine St FS Lv).

#[local] Notation env := (mc_env mc).

(** The posture of the run, and its policy: what the ESP's file says, or the defaults. *)
Definition run_sb : SecureBootState := detect_secure_boot (mc_sb_reads mc) (shim_lock_present (env_shim env)).

Definition run_policy (nv : NV) : Policy :=
  let '(vmgenid, fs) := read_vmgenid (env_target env) (mc_fw_cfg mc) in
  let '(crash_count, nv) := assess_boot_health vmgenid (fst <$> mc_clock mc 2) (mc_version mc) nv in
  match identify_platform mc fs, mount_esp mc with
  | Ok pl, Ok esp => policy_of (load_policy (read_to_string_str (vol_backend (vol_view (start_bootlog mc pl crash_count esp).2)) POLICY_PATH))
  | _, _ => default_policy
  end.

Section phases.
Context (p : Policy) (sb : SecureBootState).

#[local] Notation hoare := (hoareI env p sb calm).

Lemma hoare_trust_all (P : list action -> Prop) `{!Mono P} (evs : list TrustEvent) : hoare P (trust_all evs) (fun _ _ => True).
Proof.
  induction evs as [|ev evs IH]; [by apply hoare_ret|]. cbn [trust_all]. eapply hoare_skip; [done|apply hoare_trust|]. by intros _.
Qed.

Lemma hoare_measure_config (P : list action -> Prop) `{!Mono P} (esp : Vol St) (path : list Z) :
  hoare P (measure_config_file mc esp path) (fun _ _ => True).
Proof.
  unfold measure_config_file. destruct (read_str _ _) as [data|e|]; [|by apply hoare_ret|by apply hoare_stop].
  eapply hoare_weaken; [by apply hoare_act|done|done].
Qed.

Lemma hoare_policy_phase (pl : Platform) (crash_count : Z) (esp : Vol St) :
  hoare (known True) (policy_phase mc pl crash_count esp)
    (fun p' => known (p' = policy_of (load_policy (read_to_string_str (vol_backend (vol_view esp)) POLICY_PATH)))).
Proof.
  unfold policy_phase. eapply hoare_skip; [apply _|apply hoare_trust_all; apply _|]. intros _.
  eapply hoare_skip; [apply _| |intros _].
  { instantiate (1 := fun _ _ => True). destruct (load_policy _) as [x|e|]; [| |by apply hoare_stop];
      (eapply hoare_weaken; [apply hoare_trust|done|done]). }
  eapply hoare_skip; [apply _|apply hoare_measure_config; apply _|]. intros _.
  eapply hoare_skip; [apply _|apply hoare_measure_config; apply _|]. intros _. by apply hoare_ret.
Qed.

Lemma hoare_ask_shim (P : list action -> Prop) (bytes : list Z) : hoare P (ask_shim env bytes) (fun _ _ => True).
Proof.
  intros s Ht Ho HP. unfold ask_shim, shim_validate.
  destruct (shim_handle (env_shim env)); [destruct (shim_open (env_shim env))|]; simpl;
    (split; [done|split; [exists []; by rewrite app_nil_r|split; [|done]]]); try done; try by apply calm_bump_not_found.
Qed.

Lemma hoare_check_sb (P : list action -> Prop) `{!Mono P} (v : Volume) (path : list Z) :
  hoare P (check_secure_boot env v path sb) (fun _ _ => True).
Proof.
  unfold check_secure_boot. case_bool_decide; [by apply hoare_ret|].
  destruct (read_str _ _) as [data|e|]; [|by apply hoare_ret|by apply hoare_stop].
  eapply hoare_skip; [apply _| |intros ok].
  { instantiate (1 := fun _ _ => True). case_bool_decide; [apply hoare_ask_shim|by apply hoare_ret]. }
  destruct ok; [by apply hoare_ret|]. destruct (verify_image _ _ _); by apply hoare_ret.
Qed.

Lemma hoare_image_checks (P : list action -> Prop) `{!Mono P} (esp : Volume) (extras : list Volume) (path : list Z) :
  hoare P (image_checks env esp extras path sb) (fun _ _ => True).
Proof.
  unfold image_checks. case_bool_decide; [|by apply hoare_ret]. eapply hoare_skip; [apply _| |intros c1].
  { instantiate (1 := fun _ _ => True). unfold pe_header_check.
    destruct (check_pe_header _ _ _); [by apply hoare_ret|by apply hoare_ret|by apply hoare_stop]. }
  case_bool_decide; [by apply hoare_ret|]. eapply hoare_skip; [apply _|apply hoare_check_sb; apply _|]. intros c2. by apply hoare_ret.
Qed.

Lemma hoare_preflight (P : list action -> Prop) `{!Mono P} (esp : Volume) (extras : list Volume) (es : list BootEntry) :
  hoare P (preflight_entries env esp extras sb es) (fun _ _ => True).
Proof.
  induction es as [|e es IH]; cbn [preflight_entries]; [by apply hoare_ret|].
  eapply hoare_skip; [apply _| |intros pf].
  { instantiate (1 := fun _ _ => True). unfold run_preflight. destruct (be_kind e) as [path|kp ips o|path o|[]];
      try (by apply hoare_ret); (eapply hoare_skip; [apply _|apply hoare_image_checks; apply _|intros cs; by apply hoare_ret]). }
  eapply hoare_skip; [apply _|apply hoare_record_issues; apply _|]. intros _.
  eapply hoare_skip; [apply _|apply IH|]. intros es'. by apply hoare_ret.
Qed.

Lemma hoare_late_phase (esp : Vol St) (extras : list (Vol St)) (es : list BootEntry) :
  hoare (known True) (late_phase mc esp extras sb es) (fun _ _ => True).
Proof.
  unfold late_phase. eapply hoare_skip; [apply _|apply hoare_preflight; apply _|]. intros es'.
  eapply hoare_skip; [apply _|apply hoare_flush|]. intros _. by apply hoare_ret.
Qed.
End phases.

(** What the start-up leaves: a justified trace, and a session that meets the invariant of the main loop. *)
Definition started_ok (p : Policy) (sb : SecureBootState) (r : (run_end * BState * NV) + (Config * @Session St NV)) : Prop :=
  match r with
  | inl (_, b, _) => trace_ok env p sb (bs_trace b)
  | inr (cf, s) => cf_policy cf = p /\ cf_sb cf = sb /\ sess_inv cf env s
  end.

Lemma install_ok (p p' : Policy) (sb : SecureBootState) (esp : Vol St) (nv : NV) (b : BState) :
  trace_ok env p sb (bs_trace b) -> calm (bs_ov b) ->
  trace_ok env p sb (bs_trace ((self_install mc p' esp nv).1 b).2) /\ calm (bs_ov ((self_install mc p' esp nv).1 b).2).
Proof.
  intros Ht Hc. unfold self_install. destruct (_ && _); [|done]. destruct (ensure_named_boot_entry _ _ _) as [r nv'].
  split; [|done]. by apply trace_ok_snoc.
Qed.

Lemma open_session_ok (pl : Platform) (p : Policy) (n : Z) (tele : BootTelemetry) (le : BootLog * Vol St) (nv : NV) (b : BState) :
  trace_ok env p (pl_sb pl) (bs_trace b) -> calm (bs_ov b) -> started_ok p (pl_sb pl) (open_session mc pl p n tele le nv b).
Proof.
  intros Ht Hc. unfold open_session. cbv zeta. destruct (find_entries mc p _ _) as [[[[entries parts] extras] log]|e|]; [|done..].
  match goal with |- context [self_install mc p ?e nv] => pose proof (install_ok p p (pl_sb pl) e nv (set_log log b) Ht Hc) as Hi end.
  destruct (self_install mc p _ nv) as [install nv']. simpl in Hi. destruct Hi as [Hi1 Hi2].
  match goal with |- context [late_phase mc ?e ?x ?sb ?es ?b] =>
    pose proof (hoare_late_phase p sb e x es b Hi1 Hi2 I) as (Hl1 & _ & Hl2); destruct (late_phase mc e x sb es b) as [o b'] end.
  simpl in Hl1, Hl2. destruct o as [es'|st| |]; [|exact Hl1..]. split; [done|]. split; [done|].
  split_and!; [by left|exact Hl1|apply Hl2].
Qed.

Lemma start_up_ok (pl : Platform) (crash_count : Z) (tele : BootTelemetry) (esp : Vol St) (nv : NV) (b : BState) :
  bs_trace b = [] -> calm (bs_ov b) ->
  started_ok (policy_of (load_policy (read_to_string_str (vol_backend (vol_view (start_bootlog mc pl crash_count esp).2)) POLICY_PATH)))
    (pl_sb pl) (start_up mc pl crash_count tele esp nv b).
Proof.
  intros Ht Hc. unfold start_up. cbv zeta. set (esp1 := (start_bootlog mc pl crash_count esp).2).
  set (p := policy_of (load_policy (read_to_string_str (vol_backend (vol_view esp1)) POLICY_PATH))).
  assert (trace_ok env p (pl_sb pl) (bs_trace b)) as Ht0 by (rewrite Ht; intros pre a post E; by destruct pre).
  pose proof (hoare_policy_phase p (pl_sb pl) pl crash_count esp1 b Ht0 Hc I) as (Hp1 & _ & Hp2).
  destruct (policy_phase mc pl crash_count esp1 b) as [[p'|st| |] b1]; simpl in Hp1, Hp2; [|exact Hp1..].
  destruct Hp2 as [Hc1 Hp]. unfold known in Hp. fold p in Hp. subst p'.
  pose proof (hoare_load_drivers env p (pl_sb pl) (mc_sfs_handles mc) (mc_all_handles mc) (mc_status_debug mc) (vol_view esp1) b1 Hp1 Hc1 I)
    as (Hd1 & _ & Hd2). unfold drivers_phase.
  destruct (load_drivers _ _ _ _ _ _ b1) as [[n|st| |] b2]; simpl in Hd1, Hd2; [|exact Hd1..]. apply open_session_ok; [exact Hd1|apply Hd2].
Qed.

Lemma run_traced (rounds : list Round) (nv : NV) : trace_ok env (run_policy nv) run_sb (bs_trace (run_bootloader mc rounds nv).1.2).
Proof.
  unfold run_bootloader, run_policy. destruct (read_vmgenid _ _) as [vmgenid fs]. destruct (assess_boot_health _ _ _ nv) as [cc nv1].
  cbv zeta. assert (forall p sb, trace_ok env p sb []) as Hnil by (intros p sb pre a post E; by destruct pre).
  destruct (identify_platform mc fs) as [pl|e|] eqn:Epl; [|by apply Hnil..].
  assert (pl_sb pl = run_sb) as Hsb.
  { revert Epl. unfold identify_platform. destruct (read_smbios _ _) as [[si os]| |]; simpl; [|done..].
    destruct (parse_iommu_tables _ _) as [io| |]; simpl; [|done..]. destruct (host_config _ _ _ _) as [[[f v] r] h]. by intros [= <-]. }
  destruct (mount_esp mc) as [esp|e|]; [|by apply Hnil..].
  match goal with |- context [start_up mc pl cc ?t esp nv1 ?b] => pose proof (start_up_ok pl cc t esp nv1 b eq_refl override_init_calm) as Hs;
    destruct (start_up mc pl cc t esp nv1 b) as [[[r b'] nv2]|[cf s]] end; rewrite <- Hsb; [exact Hs|].
  destruct Hs as (<- & <- & Hs). pose proof (main_loop_inv cf env rounds s Hs) as Hm.
  destruct (main_loop cf rounds s) as [r s']. exact Hm.
Qed.
End safety.

(** C1. Nothing unverified or unmeasured runs, from power-on to the hand-over:
    whatever the firmware, the disks, the platform tables, the host and the
    user do, every image that a run starts - the drivers before the menu, then
    entries through any number of menus, tools, failed attempts and recovery
    paths - was measured before.  An entry's image is on the trust record with
    its hash and, under Secure Boot and with any native_pe mode but always,
    was accepted by shim or by the firmware's authentication service; a driver
    is permitted by the policy that is in force (the ESP's, or the compiled-in
    one when that cannot be read) and was authenticated by the service that
    loaded it. *)
Theorem run_starts_verified {St NV FS Lv : Type} `{Sfs St} `{NvStore NV} `{FwCfgPort FS} `{BlockSource Lv} (mc : Machine St FS Lv)
    (rounds : list Round) (nv : NV) (pre post : list action) (a : action) :
  bs_trace (run_bootloader mc rounds nv).1.2 = pre ++ a :: post ->
  (forall b, started a = Some b ->
     (measured (mc_env mc) b pre /\ audited (mc_env mc) b pre) /\
     (authenticates (env_load_image (mc_env mc)) -> run_sb mc <> SbDisabled -> loader_native_pe (run_policy mc nv) <> NativeAlways ->
      shim_accepts (env_shim (mc_env mc)) b = true \/
      exists dp policy, sf_auth (env_security (mc_env mc)) dp (Some b) policy = SUCCESS)) /\
  (forall path b h, a = AStartDriver path b h ->
     driver_permitted (drivers_legacy (run_policy mc nv)) path /\
     AMeasure (driver_measurement b path) (measure_driver (env_tpm (mc_env mc)) b path) ∈ pre /\
     (authenticates (env_load_image (mc_env mc)) ->
      shim_accepts (env_shim (mc_env mc)) b = true \/
      exists dp policy, sf_auth (env_security (mc_env mc)) dp (Some b) policy = SUCCESS)).
Proof.
  intros E. pose proof (run_traced mc rounds nv) as Hok. rewrite E in Hok. split.
  - intros b Hs. split.
    + pose proof (Hok _ _ _ eq_refl) as Hj. destruct a; simpl in Hs; try done; injection Hs as ->; apply Hj.
    + intros Hauth Hsb Hp. by eapply trace_start_verified.
  - intros path b h ->. destruct (Hok _ _ _ eq_refl) as (Hm & Hl & Hp). split; [done|]. split; [done|]. intros Ha.
    destruct (trace_ok_in _ _ _ _ _ _ _ Hok Hl) as [l Hj]. destruct (Ha _ _ _ _ Hj) as (dp & policy & Hd).
    destruct (hooked_auth_success _ _ _ _ _ Hd); [by left|right; by eauto].
Qed.

(** ** Runs after runs *)
Section health.
Context {St NV FS Lv : Type} `{Sfs St} `{NvLaws NV} `{FwCfgPort FS} `{BlockSource Lv}.

Definition run_returned_ok (r : run_end) : bool := match r with SessionEnds r => returned_ok r | _ => false end.

Definition run_health (nv : NV) (r : run_end) (nv' : NV) : Prop :=
  if run_returned_ok r then exists nv1 time, same_health nv nv1 /\ nv' = (mark_boot_success time nv1).1 else same_health nv nv'.

Lemma other_vendor_health (key : var_key) (d : list Z) (nv : NV) : key.1 <> LAMBOOT_VENDOR -> same_health nv (set_ignoring key d nv).
Proof.
  intros Hk. apply set_other_health. intros E. apply Hk.
  repeat (apply elem_of_cons in E as [->|E]; [done|]). by apply not_elem_of_nil in E.
Qed.

Lemma retain_health (sh : Shim) (nv : NV) : same_health nv (request_shim_retain_protocol sh nv).
Proof.
  unfold request_shim_retain_protocol. destruct (negb _); [apply same_health_refl|]. by apply other_vendor_health.
Qed.

Lemma install_health (mc : Machine St FS Lv) (p : Policy) (esp : Vol St) (nv : NV) : same_health nv (self_install mc p esp nv).2.
Proof.
  unfold self_install. destruct (_ && _); [|apply same_health_refl].
  destruct (mc_device_path mc) as [| |dp]; [apply same_health_refl..|].
  pose proof (ensure_spec dp (lit "LamBoot") nv) as Hs. destruct (ensure_named_boot_entry _ _ nv) as [r nv']. simpl.
  intros k Hk. assert (k.1 <> GLOBAL) as Hv.
  { repeat (apply elem_of_cons in Hk as [->|Hk]; [by vm_compute|]). by apply not_elem_of_nil in Hk. }
  destruct r as [n|n| |]; [|by destruct Hs as (_ & _ & ->)|done|by apply Hs].
  destruct Hs as (_ & _ & _ & _ & _ & Hs). by apply Hs; intros ->.
Qed.

Lemma telemetry_health (now : option (efi_time * Z)) (t : BootTelemetry) (nv : NV) : same_health nv (store_variable now t nv).
Proof.
  apply set_other_health. intros E. repeat (apply elem_of_cons in E as [E|E]; [vm_compute in E; discriminate E|]).
  by apply not_elem_of_nil in E.
Qed.

Definition start_health (nv : NV) (r : (run_end * BState * NV) + (Config * @Session St NV)) : Prop :=
  match r with inl (r, _, nv') => run_returned_ok r = false /\ same_health nv nv' | inr (_, s) => same_health nv (se_nv s) end.

Lemma open_session_health (mc : Machine St FS Lv) pl p n tele le (nv : NV) b : start_health nv (open_session mc pl p n tele le nv b).
Proof.
  unfold open_session. cbv zeta. destruct (find_entries mc p _ _) as [[[[entries parts] extras] log]|e|]; [|split; [done|apply same_health_refl]..].
  match goal with |- context [self_install mc p ?e nv] => pose proof (install_health mc p e nv) as Hi end.
  destruct (self_install mc p _ nv) as [install nv']. simpl in Hi.
  destruct (late_phase _ _ _ _ _ _) as [o b']. destruct o as [es| | |]; [|split; done..].
  eapply same_health_trans; [exact Hi|apply telemetry_health].
Qed.

Lemma start_up_health (mc : Machine St FS Lv) pl cc tele esp (nv : NV) b : start_health nv (start_up mc pl cc tele esp nv b).
Proof.
  unfold start_up. cbv zeta. destruct (policy_phase _ _ _ _ _) as [[p|st| |] b1]; [|split; [done|apply same_health_refl]..].
  pose proof (retain_health (env_shim (mc_env mc)) nv) as Hr.
  destruct (drivers_phase _ _ _ _) as [[n|st| |] b2]; [|split; done..].
  match goal with |- start_health _ ?o => pose proof (open_session_health mc pl p n tele (start_bootlog mc pl cc esp)
    (request_shim_retain_protocol (env_shim (mc_env mc)) nv) b2) as Ho; destruct o as [[[r b'] nv']|[cf s]] end; simpl in *.
  - split; [apply Ho|]. eapply same_health_trans; [exact Hr|apply Ho].
  - by eapply same_health_trans.
Qed.

Lemma run_health_ok (mc : Machine St FS Lv) (rounds : list Round) (nv : NV) :
  let '(r, _, nv') := run_bootloader mc rounds nv in
  run_health (assess_boot_health (read_vmgenid (env_target (mc_env mc)) (mc_fw_cfg mc)).1 (fst <$> mc_clock mc 2) (mc_version mc) nv).2 r nv'.
Proof.
  unfold run_bootloader. destruct (read_vmgenid _ _) as [g fs]. simpl fst. destruct (assess_boot_health g _ _ nv) as [cc nv1]. cbv zeta. simpl snd.
  destruct (identify_platform mc fs) as [pl|e|]; [|apply same_health_refl..].
  destruct (mount_esp mc) as [esp|e|]; [|apply same_health_refl..].
  match goal with |- context [start_up mc pl cc ?t esp nv1 ?b] => pose proof (start_up_health mc pl cc t esp nv1 b) as Hs;
    destruct (start_up mc pl cc t esp nv1 b) as [[[r b'] nv2]|[cf s]] end; simpl in Hs.
  - unfold run_health. destruct Hs as [-> Hs]. exact Hs.
  - pose proof (main_loop_health cf rounds s) as Hm. destruct (main_loop cf rounds s) as [r s']. simpl in Hm. unfold run_health.
    destruct r as [| | | |[st| |]]; simpl in *; try by eapply same_health_trans.
    destruct Hm as (nv3 & time & Hn3 & ->). exists nv3, time. split; [by eapply same_health_trans|done].
Qed.

(** A run on each machine in turn; did it return with success? *)
Fixpoint runs (ms : list (Machine St FS Lv * list Round)) (nv : NV) : list bool * NV :=
  match ms with
  | [] => ([], nv)
  | (mc, rounds) :: ms =>
      let '(r, _, nv) := run_bootloader mc rounds nv in
      let '(oks, nv) := runs ms nv in
      (run_returned_ok r :: oks, nv)
  end.

(** The host reports the same generation of the virtual machine (or none) to each run. *)
Definition same_generation (g : option (list Z)) (mc : Machine St FS Lv) : Prop :=
  (read_vmgenid (env_target (mc_env mc)) (mc_fw_cfg mc)).1 = g.

Lemma runs_inv `{!NvWritable NV} (g : option (list Z)) (ms : list (Machine St FS Lv * list Round)) (nv : NV) (n : Z) :
  Forall (fun m => same_generation g m.1) ms -> health_inv g n nv ->
  let '(oks, nv') := runs ms nv in health_inv g (foldl (fun n ok => if ok : bool then 0 else n + 1) n oks) nv'.
Proof.
  intros Hg. revert nv n. induction Hg as [|[mc rounds] ms Hm _ IH]; intros nv n Hi; [done|]. simpl in Hm |- *.
  pose proof (run_health_ok mc rounds nv) as Hr. rewrite Hm in Hr. destruct (run_bootloader mc rounds nv) as [[r b] nv1].
  pose proof (run_health_inv g (mc_version mc) (fst <$> mc_clock mc 2) nv nv1 n (run_returned_ok r) Hi Hr) as Hi1.
  specialize (IH nv1 _ Hi1). by destruct (runs ms nv1).
Qed.
End health.

(** C3. The crash counter counts runs.  Over any sequence of power-ons - each
    with its own firmware, disks, platform tables, host, policy and menu input
    - the next assessment reports the number of runs since the last that
    returned with success (saturating at 255): a run whose ESP did not mount,
    that a driver or an entry took over, that was reset, panicked, failed to
    boot or never left the menu counts as failed, tools run on the way do not
    count, and the crash-loop test fires exactly at the threshold.  Neither the
    self-installed boot entry, nor the telemetry, nor shim's variable disturb
    the count.  Assumed: the store starts Fresh or BootedOK with the generation
    of the machine, no run sees another VM generation, every write of a variable
    is accepted, and only the boot loader writes them between the runs. *)
Theorem crash_loop_over_runs {St NV FS Lv : Type} `{Sfs St} `{NvLaws NV} `{!NvWritable NV} `{FwCfgPort FS} `{BlockSource Lv}
    (g : option (list Z)) (v : pkg_version) (ms : list (Machine St FS Lv * list Round)) (nv : NV) (time : option efi_time) (threshold : Z) :
  Forall (fun m => same_generation g m.1) ms ->
  changed_genid g nv = None -> (get_state nv = Fresh \/ get_state nv = BootedOK) ->
  let '(oks, nv') := runs ms nv in
  let '(c, nv'') := assess_boot_health g time v nv' in
  c = Z.min 255 (trailing_failures oks) /\ is_crash_loop threshold nv'' = (threshold <=? Z.min 255 (trailing_failures oks)).
Proof.
  intros Hgen Hg Hst. assert (health_inv g 0 nv) as Hi.
  { split_and!; [lia|done|]. by rewrite decide_True by done. }
  pose proof (runs_inv g ms nv 0 Hgen Hi) as Hp. destruct (runs ms nv) as [oks nv'].
  fold (trailing_failures oks) in Hp. pose proof (health_inv_counter _ _ _ Hp) as Hc. destruct Hp as (_ & Hg' & _).
  pose proof (assess_counts g time v nv' Hg') as Ha. destruct (assess_boot_health g time v nv') as [c nv''].
  destruct Ha as (-> & [_ Hcc] & _). split; [done|]. unfold is_crash_loop. by rewrite Hcc, Hc.
Qed.

(** ** A whole run *)
(** A virtual machine without a host object: the ESP is handle 1 and carries the Windows boot manager. *)
Definition demo_mc : Machine SimFat SimCfg BlockIoSource := {|
  mc_env := demo_env;
  mc_init := true;
  mc_clock _ := None;
  mc_version := demo_version;
  mc_version_text := lit "0.11.0";
  mc_sb_reads _ := ReadOk [1];
  mc_memory := demo_memory;
  mc_tables := [];
  mc_cpuid _ _ := (0, 0, 0, 0);
  mc_fw_cfg := mkSimCfg (fun _ => []) (0, 0%nat);
  mc_loaded_image := Ok (Some 1);
  mc_sfs _ := Ok tt;
  mc_log_files := ∅;
  mc_inputs := (1, 0, 0);
  mc_sfs_handles := Ok [];
  mc_all_handles := Ok [];
  mc_parts := demo_machine (replicate 512 0) demo_xfs_root false;
  mc_readers := demo_readers;
  mc_fat_state _ _ := sim_of [(lit "/EFI/Microsoft/Boot/bootmgfw.efi", demo_pe); (POLICY_PATH, lit "[general]")] no_refusal;
  mc_fat_label _ := None;
  mc_self := None;
  mc_booted_from := None;
  mc_device_path := PathMissing;
  mc_status_debug _ := [];
  mc_show_error _ := [];
  mc_debug_handle _ := []
|}.

Definition demo_outcome : run_end * BState * var_map := run_bootloader demo_mc [demo_round [KeyPress KeyEnter]] ∅.

Lemma run_starts_verified_witness :
  demo_outcome.1.1 = SessionEnds MachineTaken /\
  exists pre post, bs_trace demo_outcome.1.2 = pre ++ AStartFirmware demo_pe 5 :: post /\
    (measured demo_env demo_pe pre /\ audited demo_env demo_pe pre) /\
    (authenticates (env_load_image demo_env) -> run_sb demo_mc <> SbDisabled ->
     loader_native_pe (run_policy demo_mc (∅ : var_map)) <> NativeAlways ->
     shim_accepts (env_shim demo_env) demo_pe = true \/
     exists dp policy, sf_auth (env_security demo_env) dp (Some demo_pe) policy = SUCCESS).
Proof.
  split; [vm_compute; reflexivity|].
  exists (take 11 (bs_trace demo_outcome.1.2)), (drop 12 (bs_trace demo_outcome.1.2)).
  assert (bs_trace demo_outcome.1.2 = take 11 (bs_trace demo_outcome.1.2) ++ AStartFirmware demo_pe 5 :: drop 12 (bs_trace demo_outcome.1.2))
    as E by (vm_compute; reflexivity).
  split; [exact E|].
  exact (proj1 (run_starts_verified demo_mc [demo_round [KeyPress KeyEnter]] (∅ : var_map) _ _ _ E) demo_pe eq_refl).
Defined.

(** The Windows boot manager takes the machine over; nothing is pressed; F12 is. *)
Definition demo_runs : list (Machine SimFat SimCfg BlockIoSource * list Round) :=
  [(demo_mc, [demo_round [KeyPress KeyEnter]]); (demo_mc, []); (demo_mc, [demo_round [KeyPress KeyF12]])].

Lemma crash_loop_over_runs_witness :
  let '(oks, nv') := runs demo_runs (∅ : var_map) in
  oks = [false; false; false] /\ (assess_boot_health None None demo_version nv').1 = 3.
Proof.
  pose proof (crash_loop_over_runs None demo_version demo_runs (∅ : var_map) None 3
    ltac:(repeat constructor; vm_compute; reflexivity) ltac:(vm_compute; reflexivity) ltac:(left; vm_compute; reflexivity)) as T.
  assert ((runs demo_runs (∅ : var_map)).1 = [false; false; false]) as E by (vm_compute; reflexivity).
  destruct (runs demo_runs (∅ : var_map)) as [oks nv']. simpl in E. subst oks. split; [reflexivity|].
  destruct (assess_boot_health None None demo_version nv') as [c nv'']. destruct T as [-> _]. reflexivity.
Defined.
