(* ===== verification/Draw.v ===== *)
(** * Drawing the graphical menu (gui.rs)

    The frame buffer is a list of pixels; every access to it and to the font is
    checked, so that an access out of range is a panic.  Arithmetic is that of
    the release profile: [usize] wraps at 64 bits, [i32] at 32.  The selection
    and the layout are those of [Menu]; the fonts and the logo are files of the
    repository, here arguments with what the code checks of them. *)
From S2P Require Import Prelude RustStr Utf8 BlsParse BootTypes Policy Menu.
Local Open Scope Z_scope.

Record BltPixel : Type := mkPx { px_red : Z; px_green : Z; px_blue : Z }.

Definition BACKGROUND_COLOR : BltPixel := mkPx 0x1e 0x1e 0x2e.
Definition TEXT_COLOR : BltPixel := mkPx 0xff 0xff 0xff.
Definition ACCENT_COLOR : BltPixel := mkPx 0x89 0xb4 0xfa.
Definition SELECTED_COLOR : BltPixel := mkPx 0x45 0x47 0x5a.
Definition TILE_COLOR : BltPixel := mkPx 0x31 0x32 0x44.
Definition SUBTITLE_COLOR : BltPixel := mkPx 0x80 0x80 0x90.
Definition WARNING_COLOR : BltPixel := mkPx 0xfa 0xb3 0x87.
Definition DIVIDER_COLOR : BltPixel := mkPx 0x40 0x40 0x55.

Definition LOGO_WIDTH : Z := 128.

Inductive Font : Type := Small | Large.

Definition font_width (f : Font) : Z := match f with Small => 8 | Large => 16 end.
Definition font_height (f : Font) : Z := match f with Small => 16 | Large => 32 end.
Definition bytes_per_row (f : Font) : Z := match f with Small => 1 | Large => 2 end.

(** The files that are compiled in, and the build's version strings. *)
Record Assets : Type := mkAssets {
  as_font_small : list Z; as_font_large : list Z; as_logo : list Z; as_version : list Z; as_target : list Z
}.

Definition font_data (a : Assets) (f : Font) : list Z := match f with Small => as_font_small a | Large => as_font_large a end.

(** ** The frame buffer *)
Record Framebuffer : Type := mkFb { fb_pixels : list BltPixel; fb_width : Z; fb_height : Z }.

Definition paint_op : Type := Framebuffer -> res Empty_set Framebuffer.

Definition fb_new (width height : Z) : Framebuffer :=
  mkFb (replicate (Z.to_nat (wrap 64 (width * height))) BACKGROUND_COLOR) width height.

Definition fb_clear : paint_op := fun fb => Ok (mkFb (replicate (length (fb_pixels fb)) BACKGROUND_COLOR) (fb_width fb) (fb_height fb)).

(** [self.pixels[i] = color] *)
Definition set_pixel (i : Z) (color : BltPixel) : paint_op := fun fb =>
  if (0 <=? i) && (i <? len (fb_pixels fb)) then Ok (mkFb (<[Z.to_nat i := color]> (fb_pixels fb)) (fb_width fb) (fb_height fb))
  else Panic.

Definition then_do (f g : paint_op) : paint_op := fun fb => let? fb := f fb in g fb.
Notation "f ;> g" := (then_do f g) (at level 95, right associativity) : lam_scope.

Definition nothing : paint_op := fun fb => Ok fb.

(** A [for] loop. *)
Fixpoint for_each {A : Type} (l : list A) (f : A -> paint_op) : paint_op :=
  match l with
  | [] => nothing
  | a :: rest => f a ;> for_each rest f
  end.

(** [lo..hi] *)
Definition range (lo hi : Z) : list Z := seqZ lo (hi - lo).

Definition fill_rect (x y w h : Z) (color : BltPixel) : paint_op := fun fb =>
  let x_end := Z.min (wrap 64 (x + w)) (fb_width fb) in
  let y_end := Z.min (wrap 64 (y + h)) (fb_height fb) in
  let x_start := Z.min x (fb_width fb) in
  for_each (range (Z.min y (fb_height fb)) y_end) (fun row =>
    for_each (range x_start x_end) (fun col => set_pixel (wrap 64 (wrap 64 (row * fb_width fb) + col)) color)) fb.

Definition draw_rect_border (x y w h thickness : Z) (color : BltPixel) : paint_op :=
  fill_rect x y w thickness color ;>
  (if thickness <? h then fill_rect x (wrap 64 (y + h - thickness)) w thickness color else nothing) ;>
  fill_rect x y thickness h color ;>
  (if thickness <? w then fill_rect (wrap 64 (x + w - thickness)) y thickness h color else nothing).

Section text.
Context (a : Assets).

Definition draw_char (ch x y : Z) (color : BltPixel) (font : Font) : paint_op := fun fb =>
  let data := font_data a font in
  let idx := if ch <? 256 then ch else 0xFE in
  let glyph_offset := idx * bytes_per_row font * font_height font in
  for_each (range 0 (font_height font)) (fun row =>
    let py := wrap_i32 (y + row) in
    if (py <? 0) || (fb_height fb <=? py) then nothing
    else
      let row_offset := glyph_offset + row * bytes_per_row font in
      for_each (range 0 (font_width font)) (fun col fb =>
        let? byte := index (row_offset + col / 8) data in
        if Z.testbit byte (7 - col mod 8) then
          let px := wrap_i32 (x + col) in
          if (0 <=? px) && (px <? fb_width fb) then set_pixel (wrap 64 (wrap 64 (py * fb_width fb) + px)) color fb
          else Ok fb
        else Ok fb)) fb.

Fixpoint draw_chars (i : Z) (text : list Z) (x y : Z) (color : BltPixel) (font : Font) : paint_op :=
  match text with
  | [] => nothing
  | ch :: rest => fun fb =>
      let char_x := wrap_i32 (x + wrap_i32 (wrap_i32 i * font_width font)) in
      if wrap_i32 (fb_width fb) <=? char_x then Ok fb
      else if wrap_i32 (char_x + font_width font) <? 0 then draw_chars (i + 1) rest x y color font fb
      else (draw_char ch char_x y color font ;> draw_chars (i + 1) rest x y color font) fb
  end.

Definition draw_text (text : list Z) (x y : Z) (color : BltPixel) (font : Font) : paint_op := draw_chars 0 text x y color font.

(** *** The logo *)
Definition blend (alpha fg bg : Z) : Z := wrap 8 ((fg * alpha + bg * (255 - alpha)) / 255).

(** One pixel of a run. *)
Definition logo_pixel (dest_x dest_y r g b alpha offset : Z) : paint_op := fun fb =>
  let px := wrap 64 (dest_x + offset mod LOGO_WIDTH) in
  let py := wrap 64 (dest_y + offset / LOGO_WIDTH) in
  if (fb_width fb <=? px) || (fb_height fb <=? py) then Ok fb
  else
    let idx := wrap 64 (wrap 64 (py * fb_width fb) + px) in
    if alpha =? 255 then set_pixel idx (mkPx b g r) fb
    else
      let? bg := index idx (fb_pixels fb) in
      set_pixel idx (mkPx (blend alpha b (px_red bg)) (blend alpha g (px_green bg)) (blend alpha r (px_blue bg))) fb.

Fixpoint logo_runs (runs : list Z) (palette_start runs_start dest_x dest_y px_offset : Z) : paint_op := fun fb =>
  match runs with
  | [] => Ok fb
  | i :: rest =>
      let data := as_logo a in
      let run_off := runs_start + i * 4 in
      let? c0 := index run_off data in
      let? c1 := index (run_off + 1) data in
      let count := from_le [c0; c1] in
      let? pal_idx := index (run_off + 2) data in
      let? alpha := index (run_off + 3) data in
      if alpha =? 0 then logo_runs rest palette_start runs_start dest_x dest_y (px_offset + count) fb
      else
        let pal_off := palette_start + pal_idx * 3 in
        let? r := index pal_off data in
        let? g := index (pal_off + 1) data in
        let? b := index (pal_off + 2) data in
        (for_each (range px_offset (px_offset + count)) (logo_pixel dest_x dest_y r g b alpha) ;>
         logo_runs rest palette_start runs_start dest_x dest_y (px_offset + count)) fb
  end.

Definition draw_logo (dest_x dest_y : Z) : paint_op := fun fb =>
  let data := as_logo a in
  if (len data <? 14) || negb (bool_decide (sub_list 0 4 data = lit "LBCL")) then Ok fb
  else
    let palette_count := from_le (sub_list 8 10 data) in
    let run_count := from_le (sub_list 10 14 data) in
    let runs_start := 14 + palette_count * 3 in
    if len data <? runs_start + run_count * 4 then Ok fb
    else logo_runs (range 0 run_count) 14 runs_start dest_x dest_y 0 fb.
End text.

(** ** Labels *)
Definition icon_label (i : Icon) : list Z :=
  match i with
  | IconWindows => lit "Win"
  | IconLinux => lit "Linux"
  | IconEfi => lit "EFI"
  | IconRecovery => lit "Rcvr"
  | IconNetwork => lit "Net"
  | IconTools => lit "Tool"
  end.

Definition entry_type_label (k : EntryKind) (i : Icon) : list Z :=
  match k, i with
  | LinuxLegacy _ _ _, _ => lit "Linux kernel + initrd"
  | Uki _ _, _ => lit "Unified Kernel Image"
  | Chainload _, IconWindows => lit "Windows Boot Manager"
  | Chainload _, IconTools => lit "Diagnostic module"
  | Chainload _, _ => lit "EFI bootloader"
  | Iso _, _ => lit "Bootable ISO image"
  end.

(** [text.len()] counts bytes. *)
Definition text_len (text : list Z) : Z := len (str_bytes text).

Definition truncate_to_fit (text : list Z) (max_pixels : Z) (font : Font) : list Z :=
  let max_chars := max_pixels / font_width font in
  if text_len text <=? max_chars then text
  else take (Z.to_nat (Z.max 0 (max_chars - 3))) text ++ lit "...".

(** ** The menu *)
Record SystemInfoDisplay : Type := mkSysDisplay {
  sd_vmid : option (list Z); sd_hypervisor : option (list Z); sd_system_product : option (list Z);
  sd_secure_boot : bool; sd_driver_count : Z
}.

(** What the menu is drawn from. *)
Record GuiView : Type := mkView {
  gv_gui : GuiMenu; gv_mouse_x : Z; gv_mouse_y : Z; gv_sys_info : SystemInfoDisplay; gv_cohort_notice : option (list Z)
}.

Section menu.
Context (a : Assets) (width height : Z) (entries : list BootEntry) (p : Policy).

#[local] Notation boots := (boot_indices entries).
#[local] Notation tools := (tool_indices entries).

(** [x as i32] *)
#[local] Notation i32 := wrap_i32.

Definition right_text (text : list Z) (edge y : Z) (color : BltPixel) (font : Font) : paint_op :=
  draw_text a text (i32 (edge - i32 (i32 (text_len text) * font_width font))) y color font.

Definition draw_header (sys : SystemInfoDisplay) : paint_op :=
  let logo_y := 8 in
  let text_x := MARGIN + LOGO_WIDTH + 16 in
  let right_edge := i32 (wrap 64 (width - MARGIN)) in
  let y0 := logo_y + 10 in
  let y1 := if sd_vmid sys then y0 + 40 else y0 in
  let parts := (match sd_hypervisor sys with Some h => [h] | None => [] end) ++
               (match sd_system_product sys with Some s => [s] | None => [] end) in
  let y2 := match parts with [] => y1 | _ => y1 + 18 end in
  draw_logo a MARGIN logo_y ;>
  draw_text a (lit "LamBoot") text_x (logo_y + 20) ACCENT_COLOR Large ;>
  draw_text a (lit "v" ++ as_version a ++ lit " (" ++ as_target a ++ lit ")") text_x (logo_y + 56) SUBTITLE_COLOR Small ;>
  (match sd_vmid sys with
   | Some vmid => right_text (lit "VM " ++ vmid) right_edge y0 ACCENT_COLOR Large
   | None => nothing
   end) ;>
  (match parts with
   | [] => nothing
   | _ => right_text (join_with (lit " | ") parts) right_edge y1 SUBTITLE_COLOR Small
   end) ;>
  right_text ((if sd_secure_boot sys then lit "SB: on" else lit "SB: off") ++ lit " | " ++ fmt_dec (sd_driver_count sys) ++ lit " driver(s)")
    right_edge y2 SUBTITLE_COLOR Small ;>
  fill_rect MARGIN (HEADER_H - 2) (wrap 64 (width - 2 * MARGIN)) 1 DIVIDER_COLOR.

(** The background of a tile, with a border when it is selected. *)
Definition tile_background (x y w h : Z) (selected : bool) : paint_op :=
  fill_rect x y w h (if selected then SELECTED_COLOR else TILE_COLOR) ;>
  (if selected then draw_rect_border x y w h 2 ACCENT_COLOR else nothing).

Definition preflight_mark (r : PreflightResult) : list Z * BltPixel :=
  match pf_status r with
  | PfOk => ([], TEXT_COLOR)
  | PfWarning => (lit "!", WARNING_COLOR)
  | PfError => (lit "X", mkPx 0xf3 0x8b 0xa8)
  end.

Definition draw_boot_tile (x y w : Z) (e : BootEntry) (selected : bool) : paint_op :=
  let name_x := i32 (i32 x + 60) in
  tile_background x y w BOOT_TILE_H selected ;>
  draw_text a (icon_label (be_icon e)) (i32 (i32 x + 10)) (i32 (i32 y + 8)) ACCENT_COLOR Small ;>
  draw_text a (truncate_to_fit (be_name e) (Z.max 0 (w - 90)) Small) name_x (i32 (i32 y + 10)) TEXT_COLOR Small ;>
  draw_text a (entry_type_label (be_kind e) (be_icon e)) name_x (i32 (i32 y + 30)) SUBTITLE_COLOR Small ;>
  match be_preflight e with
  | Some r =>
      let '(indicator, color) := preflight_mark r in
      match indicator with
      | [] => nothing
      | _ => draw_text a indicator (i32 (i32 (wrap 64 (x + w)) - 20)) (i32 (i32 y + 10)) color Small
      end
  | None => nothing
  end.

(** The tiles of the left column that are drawn: index and row. *)
Definition visible_boots (scroll_left : nat) : list (nat * nat) :=
  let vis_end := Nat.min (scroll_left + max_visible_boot height) (length boots) in
  (fun vi => (vi, (scroll_left + vi)%nat)) <$> seq 0 (vis_end - scroll_left).

Definition left_tile_y (vi : nat) : Z := HEADER_H + Z.of_nat vi * (BOOT_TILE_H + TILE_GAP).

(** [&entries[indices[i]]] *)
Definition entry_at (indices : list nat) (i : nat) : option BootEntry := indices !! i ≫= (entries !!.).

Definition draw_left_column (g : GuiMenu) : paint_op :=
  let x := MARGIN in
  let w := left_col_w width in
  let top := HEADER_H in
  let max_vis := max_visible_boot height in
  let vis_end := Nat.min (gm_scroll_left g + max_vis) (length boots) in
  draw_text a (lit "Boot Entries") x (top - 16 - 2) SUBTITLE_COLOR Small ;>
  match boots with
  | [] => draw_text a (lit "No bootable entries found.") (x + 8) (top + 10) WARNING_COLOR Small
  | _ =>
      for_each (visible_boots (gm_scroll_left g)) (fun '(vi, bi) =>
        match entry_at boots bi with
        | Some e => draw_boot_tile x (left_tile_y vi) w e (bool_decide (gm_sel_col g = ColLeft) && (bi =? gm_sel_idx g)%nat)
        | None => fun _ => Panic
        end) ;>
      (if (0 <? gm_scroll_left g)%nat
       then draw_text a (lit "^ more") (i32 (wrap 64 (x + w / 2 - 24))) (top - 18) ACCENT_COLOR Small else nothing) ;>
      (if (vis_end <? length boots)%nat
       then draw_text a (lit "v more") (i32 (wrap 64 (x + w / 2 - 24))) (i32 (left_tile_y max_vis)) ACCENT_COLOR Small else nothing)
  end.

Definition draw_tool_tile (x y w : Z) (name subtitle : list Z) (selected : bool) : paint_op :=
  tile_background x y w TOOL_TILE_H selected ;>
  draw_text a (truncate_to_fit (default name (strip_prefix (lit "Tool: ") name)) (Z.max 0 (w - 20)) Small)
    (i32 (i32 x + 10)) (i32 (i32 y + 4)) TEXT_COLOR Small ;>
  draw_text a subtitle (i32 (i32 x + 10)) (i32 (i32 y + 22)) SUBTITLE_COLOR Small.

Definition draw_action_tile (x y w : Z) (label key : list Z) (selected : bool) : paint_op :=
  tile_background x y w TOOL_TILE_H selected ;>
  draw_text a label (i32 (i32 x + 10)) (i32 (i32 y + 12)) TEXT_COLOR Small ;>
  draw_text a key (i32 (i32 (wrap 64 (x + w)) - text_len key * 8 - 10)) (i32 (i32 y + 12)) ACCENT_COLOR Small.

Definition tool_pitch : Z := TOOL_TILE_H + TILE_GAP.
Definition right_tile_y (i : nat) : Z := HEADER_H + Z.of_nat i * tool_pitch.
(** The actions are below the tools and a divider. *)
Definition action_tile_y (i : nat) : Z := right_tile_y (length tools) + 4 + 8 + Z.of_nat i * tool_pitch.

Definition draw_right_column (g : GuiMenu) : paint_op :=
  let x := right_col_x width in
  let w := right_col_w width in
  let selected i := bool_decide (gm_sel_col g = ColRight) && (i =? gm_sel_idx g)%nat in
  draw_text a (lit "Tools & Actions") (i32 x) (HEADER_H - 16 - 2) SUBTITLE_COLOR Small ;>
  for_each (seq 0 (length tools)) (fun i =>
    match entry_at tools i with
    | Some e => draw_tool_tile x (right_tile_y i) w (be_name e) (lit "Diagnostic module") (selected i)
    | None => fun _ => Panic
    end) ;>
  fill_rect x (right_tile_y (length tools) + 4) w 1 DIVIDER_COLOR ;>
  for_each [(0%nat, lit "Firmware Setup", lit "[F2]"); (1%nat, lit "Reboot", lit "[F12]")] (fun '(i, label, key) =>
    draw_action_tile x (action_tile_y i) w label key (selected (length tools + i)%nat)).

Definition get_selected_status (g : GuiMenu) : res Empty_set (list Z) :=
  let hint := lit "Use arrow keys to navigate. Press Enter to boot." in
  let entry_idx :=
    match gm_sel_col g with
    | ColLeft => boots !! gm_sel_idx g
    | ColRight => tools !! gm_sel_idx g
    end in
  match entry_idx with
  | Some idx =>
      match entries !! idx with
      | Some e => Ok (match be_preflight e ≫= first_issue with Some issue => ck_message issue | None => hint end)
      | None => Panic
      end
  | None => Ok hint
  end.

(** The text at the left of the footer. *)
Definition footer_status (g : GuiMenu) : res Empty_set (list Z) :=
  let timeout_ms := menu_timeout entries p in
  if negb (gm_interacted g) && (0 <? timeout_ms) then
    let elapsed_ms := wrap 32 (gm_frames g * 16) in
    if elapsed_ms <? timeout_ms then Ok (lit "Auto-boot in " ++ fmt_dec ((timeout_ms - elapsed_ms) / 1000) ++ lit "s...")
    else Ok (lit "Booting...")
  else get_selected_status g.

Definition draw_footer (g : GuiMenu) (notice : option (list Z)) : paint_op :=
  let footer_y := content_bottom height + 4 in
  fill_rect MARGIN footer_y (wrap 64 (width - 2 * MARGIN)) 1 DIVIDER_COLOR ;>
  (fun fb => let? status := footer_status g in draw_text a status (MARGIN + 8) (i32 (i32 footer_y + 10)) ACCENT_COLOR Small fb) ;>
  right_text (lit "Enter: Boot  F1: Help  F2: Setup  F12: Reboot") (i32 (wrap 64 (width - MARGIN))) (i32 (i32 footer_y + 10)) SUBTITLE_COLOR Small ;>
  match notice with
  | Some n => draw_text a n (MARGIN + 8) (i32 (i32 footer_y + 10 + 16 + 2)) WARNING_COLOR Small
  | None => nothing
  end.

(** [x as usize] of an [i32] *)
Definition draw_cursor (x y : Z) : paint_op :=
  let ux := wrap 64 x in
  let uy := wrap 64 y in
  (if 10 <=? ux then fill_rect (ux - 10) (Z.max 0 (uy - 1)) 20 2 TEXT_COLOR else nothing) ;>
  (if 10 <=? uy then fill_rect (Z.max 0 (ux - 1)) (uy - 10) 2 20 TEXT_COLOR else nothing).

(** The body of [if dirty]: the whole picture. *)
Definition draw_menu (v : GuiView) : paint_op :=
  fb_clear ;>
  draw_header (gv_sys_info v) ;>
  draw_left_column (gv_gui v) ;>
  draw_right_column (gv_gui v) ;>
  draw_footer (gv_gui v) (gv_cohort_notice v) ;>
  draw_cursor (gv_mouse_x v) (gv_mouse_y v).

Definition draw_boot_progress (name : list Z) : paint_op :=
  let msg := lit "Booting: " ++ name ++ lit "..." in
  fb_clear ;>
  draw_text a msg (i32 (Z.quot (i32 (i32 width - i32 (text_len msg * 16))) 2)) (i32 (Z.quot (i32 (i32 height - 32)) 2)) TEXT_COLOR Large.

Definition help_lines : list (list Z) :=
  [lit "Arrow Keys: Navigate entries"; lit "Left/Right: Switch columns"; lit "Enter: Boot selected entry";
   lit "Mouse: Click to select and boot"; lit "F1: This help screen"; lit "F2: Reboot to firmware setup";
   lit "F12: Reboot system"; lit "Esc: Cancel auto-boot timeout"].

Definition draw_help : paint_op :=
  fb_clear ;>
  draw_text a (lit "LamBoot Help") 50 50 ACCENT_COLOR Large ;>
  for_each (zip (range 0 8) help_lines) (fun '(i, line) => draw_text a line 50 (120 + i * 30) TEXT_COLOR Small) ;>
  draw_text a (lit "LamBoot v" ++ as_version a ++ lit " (" ++ as_target a ++ lit ")") 50 400 SUBTITLE_COLOR Small ;>
  draw_text a (lit "Press any key to continue...") 50 440 ACCENT_COLOR Small.

Definition draw_action (msg : list Z) : paint_op :=
  fb_clear ;> draw_text a msg 50 (i32 (height / 2)) ACCENT_COLOR Large.
End menu.

(** ** What an operation does to the picture *)
Definition pixel (fb : Framebuffer) (c r : Z) : option BltPixel := fb_pixels fb !! Z.to_nat (r * fb_width fb + c).

Section picture.
Context (W H : Z) (HW : 0 <= W) (HH : 0 <= H) (Hsize : W * H < 2 ^ 64).

Definition sized (fb : Framebuffer) : Prop := fb_width fb = W /\ fb_height fb = H /\ len (fb_pixels fb) = W * H.

(** [op] does not panic, keeps the size, and turns the pixel at column [c] and
    row [r] into [f c r] of what it was. *)
Definition draws (op : paint_op) (f : Z -> Z -> option BltPixel -> option BltPixel -> Prop) : Prop :=
  forall fb, sized fb -> exists fb', op fb = Ok fb' /\ sized fb' /\
    forall c r, 0 <= c < W -> 0 <= r < H -> f c r (pixel fb c r) (pixel fb' c r).

(** [op] changes at most the pixels in [R]. *)
Definition within (R : Z -> Z -> Prop) (op : paint_op) : Prop := draws op (fun c r old new => R c r \/ new = old).

Lemma sized_index (c r : Z) : 0 <= c < W -> 0 <= r < H -> 0 <= r * W + c < W * H.
Proof. intros Hc Hr. nia. Qed.

Lemma wrap_index (c r : Z) : 0 <= c < W -> 0 <= r < H -> wrap 64 (wrap 64 (r * W) + c) = r * W + c.
Proof. intros Hc Hr. pose proof (sized_index c r Hc Hr). unfold wrap. rewrite (Z.mod_small (r * W)) by nia. apply Z.mod_small. lia. Qed.

Lemma set_pixel_draws (c0 r0 : Z) (color : BltPixel) :
  0 <= c0 < W -> 0 <= r0 < H ->
  draws (set_pixel (r0 * W + c0) color) (fun c r old new => new = if (c =? c0) && (r =? r0) then Some color else old).
Proof.
  intros Hc0 Hr0 fb (Hw & Hh & Hl). pose proof (sized_index c0 r0 Hc0 Hr0). unfold set_pixel.
  rewrite (proj2 (Z.leb_le _ _)), (proj2 (Z.ltb_lt _ _)) by lia. cbn [andb]. eexists. split; [reflexivity|].
  split. { unfold sized, len. cbn. rewrite length_insert. done. }
  intros c r Hc Hr. unfold pixel. cbn [fb_pixels fb_width]. rewrite Hw. pose proof (sized_index c r Hc Hr).
  destruct (Z.eqb_spec c c0) as [->|Hne].
  - destruct (Z.eqb_spec r r0) as [->|Hne]; cbn [andb].
    + rewrite list_lookup_insert_eq; [done|]. unfold len in Hl. lia.
    + rewrite list_lookup_insert_ne; [done|]. intros E. apply Z2Nat.inj in E; nia.
  - cbn [andb]. rewrite list_lookup_insert_ne; [done|]. intros E. apply Z2Nat.inj in E; [|lia..].
    destruct (Z.lt_trichotomy r r0) as [?|[?|?]]; nia.
Qed.

Lemma draws_impl (op : paint_op) (f g : Z -> Z -> option BltPixel -> option BltPixel -> Prop) :
  draws op f -> (forall c r old new, 0 <= c < W -> 0 <= r < H -> f c r old new -> g c r old new) -> draws op g.
Proof. intros Hop Hfg fb Hs. destruct (Hop fb Hs) as (fb' & -> & Hs' & Hf). exists fb'. eauto 6. Qed.

Lemma draws_then (op1 op2 : paint_op) (f g : Z -> Z -> option BltPixel -> option BltPixel -> Prop) :
  draws op1 f -> draws op2 g -> draws (op1 ;> op2) (fun c r old new => exists mid, f c r old mid /\ g c r mid new).
Proof.
  intros H1 H2 fb Hs. unfold then_do. destruct (H1 fb Hs) as (fb1 & -> & Hs1 & Hf). cbn [res_bind].
  destruct (H2 fb1 Hs1) as (fb2 & -> & Hs2 & Hg). exists fb2. split; [done|]. split; [done|]. eauto 6.
Qed.

Lemma draws_nothing (f : Z -> Z -> option BltPixel -> option BltPixel -> Prop) : (forall c r o, f c r o o) -> draws nothing f.
Proof. intros Hf fb Hs. by exists fb. Qed.

(** *** Operations that stay within a region *)
Lemma within_mono (R R' : Z -> Z -> Prop) (op : paint_op) :
  (forall c r, 0 <= c < W -> 0 <= r < H -> R c r -> R' c r) -> within R op -> within R' op.
Proof. intros HR Hop. eapply draws_impl; [exact Hop|]. simpl. intros c r o n Hc Hr [?| ->]; auto. Qed.

Lemma within_nothing (R : Z -> Z -> Prop) : within R nothing.
Proof. apply draws_nothing. auto. Qed.

Lemma within_then (R : Z -> Z -> Prop) (op1 op2 : paint_op) : within R op1 -> within R op2 -> within R (op1 ;> op2).
Proof.
  intros H1 H2. eapply draws_impl; [exact (draws_then _ _ _ _ H1 H2)|]. simpl. intros c r o n _ _ (m & [?| ->] & [?| ->]); auto.
Qed.

Lemma within_for {A : Type} (R : Z -> Z -> Prop) (l : list A) (f : A -> paint_op) :
  (forall x, x ∈ l -> within R (f x)) -> within R (for_each l f).
Proof.
  induction l as [|x l IH]; intros Hf; cbn [for_each]; [apply within_nothing|]. apply within_then; [apply Hf; left|].
  apply IH. intros y Hy. apply Hf. by right.
Qed.

Lemma within_at (R : Z -> Z -> Prop) (op : paint_op) : (forall fb, sized fb -> exists op', within R op' /\ op fb = op' fb) -> within R op.
Proof. intros Hop fb Hs. destruct (Hop fb Hs) as (op' & Hw & ->). by apply Hw. Qed.

Lemma within_pixel (R : Z -> Z -> Prop) (c0 r0 : Z) (color : BltPixel) :
  0 <= c0 < W -> 0 <= r0 < H -> R c0 r0 -> within R (set_pixel (r0 * W + c0) color).
Proof.
  intros Hc Hr HR. eapply draws_impl; [by apply set_pixel_draws|]. simpl. intros c r o n _ _ ->.
  destruct (Z.eqb_spec c c0) as [->|]; [destruct (Z.eqb_spec r r0) as [->|]|]; simpl; auto.
Qed.

(** *** Rectangles *)
Definition in_rect (x y w h c r : Z) : bool := (x <=? c) && (c <? x + w) && (y <=? r) && (r <? y + h).

Lemma range_elem (lo hi i : Z) : i ∈ range lo hi <-> lo <= i < hi.
Proof. unfold range. rewrite elem_of_seqZ. lia. Qed.

(** A loop that colours what its index says. *)
Lemma for_colours {A : Type} (l : list A) (op : A -> paint_op) (inside : A -> Z -> Z -> bool) (color : BltPixel) :
  (forall x, x ∈ l -> draws (op x) (fun c r old new => new = if inside x c r then Some color else old)) ->
  draws (for_each l op) (fun c r old new => new = if existsb (fun x => inside x c r) l then Some color else old).
Proof.
  induction l as [|x l IH]; intros Hop; cbn [for_each existsb]; [by apply draws_nothing|].
  eapply draws_impl; [apply draws_then; [apply Hop; left|apply IH; intros y Hy; apply Hop; by right]|].
  simpl. intros c r o n _ _ (m & -> & ->). destruct (inside x c r), (existsb _ l); done.
Qed.

Lemma existsb_range (lo hi c : Z) : existsb (fun x => c =? x) (range lo hi) = (lo <=? c) && (c <? hi).
Proof.
  apply eq_iff_eq_true. rewrite existsb_exists. split.
  - intros (x & Hx & Hc%Z.eqb_eq). subst x. rewrite <- list_elem_of_In, range_elem in Hx. lia.
  - intros Hc. exists c. rewrite <- list_elem_of_In, range_elem. lia.
Qed.

(** A rectangle colours exactly the pixels of the screen that are in it. *)
Lemma fill_rect_draws (x y w h : Z) (color : BltPixel) :
  0 <= x -> 0 <= y -> 0 <= w -> 0 <= h -> x + w < 2 ^ 64 -> y + h < 2 ^ 64 ->
  draws (fill_rect x y w h color) (fun c r old new => new = if in_rect x y w h c r then Some color else old).
Proof.
  intros Hx Hy Hw Hh Hxw Hyh fb Hs. pose proof Hs as (Ew & Eh & _). unfold fill_rect. rewrite Ew, Eh.
  unfold wrap at 1 2. rewrite !(Z.mod_small (_ + _) (2 ^ 64)) by lia.
  set (rows := range (Z.min y H) (Z.min (y + h) H)). set (cols := range (Z.min x W) (Z.min (x + w) W)).
  assert (draws (for_each rows (fun row => for_each cols (fun col => set_pixel (wrap 64 (wrap 64 (row * W) + col)) color)))
    (fun c r old new => new = if existsb (fun row => existsb (fun col => (c =? col) && (r =? row)) cols) rows then Some color else old)) as Hd.
  { apply (for_colours rows _ (fun row c r => existsb (fun col => (c =? col) && (r =? row)) cols)). intros row Hrow.
    apply (for_colours cols _ (fun col c r => (c =? col) && (r =? row))). intros col Hcol.
    apply range_elem in Hrow, Hcol. rewrite wrap_index by lia. apply set_pixel_draws; lia. }
  destruct (Hd fb Hs) as (fb' & E & Hs' & Hp). exists fb'. split; [exact E|]. split; [done|]. intros c r Hc Hr. rewrite Hp by done.
  assert (existsb (fun row => existsb (fun col => (c =? col) && (r =? row)) cols) rows = in_rect x y w h c r) as ->; [|done].
  apply eq_iff_eq_true. rewrite existsb_exists. unfold in_rect. rewrite !andb_true_iff, !Z.leb_le, !Z.ltb_lt. split.
  - intros (row & Hrow & He). rewrite existsb_exists in He. destruct He as (col & Hcol & He).
    apply list_elem_of_In, range_elem in Hrow. apply list_elem_of_In, range_elem in Hcol. lia.
  - intros Hin. exists r. split; [apply list_elem_of_In, range_elem; lia|]. rewrite existsb_exists. exists c.
    split; [apply list_elem_of_In, range_elem; lia|lia].
Qed.

(** Whatever the numbers, a rectangle stays on the screen. *)
Lemma fill_rect_safe (x y w h : Z) (color : BltPixel) : 0 <= x -> 0 <= y -> within (fun _ _ => True) (fill_rect x y w h color).
Proof.
  intros Hx Hy. apply within_at. intros fb (Ew & Eh & _). unfold fill_rect. rewrite Ew, Eh.
  eexists. split; [|reflexivity]. apply within_for. intros row Hrow%range_elem. apply within_for. intros col Hcol%range_elem.
  pose proof (Z.mod_pos_bound (x + w) (2 ^ 64)). pose proof (Z.mod_pos_bound (y + h) (2 ^ 64)).
  rewrite wrap_index by (unfold wrap in *; lia). apply within_pixel; [lia|lia|done].
Qed.
End picture.

(** ** Safety of the whole menu *)

(** The sizes the source asserts of the fonts; a logo whose header is accepted
    has a palette of at most 256 colours, which must be in the file. *)
Definition assets_ok (a : Assets) : Prop :=
  len (as_font_small a) = 256 * 16 /\ len (as_font_large a) = 256 * 2 * 32 /\
  Forall is_byte (as_logo a) /\ 14 + 256 * 3 <= len (as_logo a).

(** Characters are not negative. *)
Definition text_ok (t : list Z) : Prop := Forall (fun c => 0 <= c) t.
Definition opt_text_ok (t : option (list Z)) : Prop := match t with Some t => text_ok t | None => True end.

Lemma lit_ok (s : string) : text_ok (lit s).
Proof. unfold lit, text_ok. induction s as [|c s IH]; simpl; constructor; [lia|done]. Qed.

Lemma text_ok_app (s t : list Z) : text_ok s -> text_ok t -> text_ok (s ++ t).
Proof. intros. by apply Forall_app. Qed.

Lemma fmt_dec_ok (n : Z) : text_ok (fmt_dec n).
Proof. pose proof (fmt_dec_digits n) as Hd. eapply Forall_impl; [exact Hd|]. intros c. unfold is_ascii_digit. lia. Qed.

Create HintDb paint.
#[export] Hint Resolve lit_ok text_ok_app fmt_dec_ok : paint.

Section safe.
Context (W H : Z) (HW : 0 <= W) (HH : 0 <= H) (Hsize : W * H < 2 ^ 64) (a : Assets) (Ha : assets_ok a).

#[local] Notation safe_op := (within W H (fun _ _ => True)).

Lemma font_len (f : Font) : len (font_data a f) = 256 * bytes_per_row f * font_height f.
Proof. destruct Ha as (Hs & Hl & _). by destruct f. Qed.

(** The rows a line of text can touch. *)
Definition text_rows (y : Z) (f : Font) (_ r : Z) : Prop := exists k, 0 <= k < font_height f /\ r = wrap_i32 (y + k).

Lemma draw_char_within (ch x y : Z) (color : BltPixel) (f : Font) :
  0 <= ch -> within W H (text_rows y f) (draw_char a ch x y color f).
Proof.
  intros Hch. apply within_at. intros fb (Ew & Eh & _). unfold draw_char. rewrite Eh. eexists. split; [|reflexivity].
  apply within_for. intros row Hrow%range_elem. destruct (_ || _) eqn:Epy; [apply within_nothing|].
  apply orb_false_iff in Epy as [Hp1%Z.ltb_ge Hp2%Z.leb_gt]. apply within_for. intros col Hcol%range_elem.
  apply within_at. intros fb1 (Ew1 & _ & _).
  destruct (@index_in Empty_set Z ((if ch <? 256 then ch else 254) * bytes_per_row f * font_height f + row * bytes_per_row f + col / 8)
    (font_data a f)) as [byte Hb].
  { rewrite font_len. destruct f; cbn in *; destruct (Z.ltb_spec ch 256); pose proof (Z.div_pos col 8);
      pose proof (Z.div_lt_upper_bound col 8 1); pose proof (Z.div_lt_upper_bound col 8 2); lia. }
  rewrite Hb. cbn [res_bind]. destruct (Z.testbit _ _); [|exists nothing; split; [apply within_nothing|done]].
  rewrite Ew1. destruct (_ && _) eqn:Epx; [|exists nothing; split; [apply within_nothing|done]].
  eexists. split; [|reflexivity]. rewrite (wrap_index W H) by (done || lia). apply within_pixel; [done..|lia|lia|]. by exists row.
Qed.

Lemma draw_text_within (text : list Z) (x y : Z) (color : BltPixel) (f : Font) :
  text_ok text -> within W H (text_rows y f) (draw_text a text x y color f).
Proof.
  unfold draw_text. generalize 0 as i. intros i Ht. revert i. induction Ht as [|ch text Hch _ IH]; intros i; cbn [draw_chars]; [apply within_nothing|].
  apply within_at. intros fb (Ew & _ & _). rewrite Ew. destruct (_ <=? _); [exists nothing; split; [apply within_nothing|done]|].
  destruct (_ <? 0); [eexists; split; [apply IH|reflexivity]|]. eexists. split; [|reflexivity].
  apply within_then; [by apply draw_char_within|apply IH].
Qed.

Lemma draw_text_safe (text : list Z) (x y : Z) (color : BltPixel) (f : Font) : text_ok text -> safe_op (draw_text a text x y color f).
Proof. intros Ht. eapply within_mono; [|by apply draw_text_within]. done. Qed.

Lemma logo_pixel_safe (dx dy r g b alpha offset : Z) : safe_op (logo_pixel dx dy r g b alpha offset).
Proof.
  apply within_at. intros fb (Ew & Eh & El). unfold logo_pixel. rewrite Ew, Eh.
  destruct (_ || _) eqn:E; [exists nothing; split; [apply within_nothing|done]|].
  apply orb_false_iff in E as [H1%Z.leb_gt H2%Z.leb_gt]. set (px := wrap 64 _) in *. set (py := wrap 64 (dy + _)) in *.
  assert (0 <= px) by (apply Z.mod_pos_bound; lia). assert (0 <= py) by (apply Z.mod_pos_bound; lia).
  rewrite (wrap_index W H) by (done || lia). destruct (alpha =? 255); [eexists; split; [|reflexivity]; apply within_pixel; (done || lia)|].
  pose proof (sized_index W H HW px py ltac:(lia) ltac:(lia)).
  destruct (@index_in Empty_set BltPixel (py * W + px) (fb_pixels fb)) as [bg ->]; [lia|]. cbn [res_bind].
  eexists. split; [|reflexivity]. apply within_pixel; (done || lia).
Qed.

Lemma logo_runs_safe (runs : list Z) (runs_start dx dy off : Z) :
  0 <= runs_start -> (forall i, i ∈ runs -> 0 <= i /\ runs_start + i * 4 + 4 <= len (as_logo a)) ->
  safe_op (logo_runs a runs 14 runs_start dx dy off).
Proof.
  destruct Ha as (_ & _ & Hb & Hl). intros Hrs. revert off. induction runs as [|i runs IH]; intros off Hr; cbn [logo_runs]; [apply within_nothing|].
  assert (forall off, safe_op (logo_runs a runs 14 runs_start dx dy off)) as Hrest by (intros; apply IH; intros; apply Hr; by right).
  destruct (Hr i) as [Hi Hend]; [by left|]. apply within_at. intros fb _.
  assert (forall k, 0 <= k < len (as_logo a) -> exists v, @index Empty_set Z k (as_logo a) = Ok v /\ is_byte v) as Hidx.
  { intros k Hk. destruct (@index_in Empty_set Z k (as_logo a) Hk) as [v Hv]. exists v. split; [done|].
    unfold index in Hv. rewrite (proj2 (Z.leb_le _ _)) in Hv by lia. destruct (as_logo a !! Z.to_nat k) eqn:E; [|done]. injection Hv as <-.
    rewrite Forall_forall in Hb. apply Hb. by eapply list_elem_of_lookup_2. }
  destruct (Hidx (runs_start + i * 4)) as (c0 & -> & _); [lia|]. destruct (Hidx (runs_start + i * 4 + 1)) as (c1 & -> & _); [lia|].
  destruct (Hidx (runs_start + i * 4 + 2)) as (pi & -> & Hpi); [lia|]. destruct (Hidx (runs_start + i * 4 + 3)) as (al & -> & _); [lia|].
  cbn [res_bind]. destruct (al =? 0); [eexists; split; [apply Hrest|reflexivity]|]. unfold is_byte in Hpi.
  destruct (Hidx (14 + pi * 3)) as (r & -> & _); [lia|]. destruct (Hidx (14 + pi * 3 + 1)) as (g & -> & _); [lia|].
  destruct (Hidx (14 + pi * 3 + 2)) as (b & -> & _); [lia|]. cbn [res_bind]. eexists. split; [|reflexivity].
  apply within_then; [|apply Hrest]. apply within_for. intros. apply logo_pixel_safe.
Qed.

Lemma draw_logo_safe (dx dy : Z) : safe_op (draw_logo a dx dy).
Proof.
  apply within_at. intros fb _. unfold draw_logo. destruct (_ || _); [exists nothing; split; [apply within_nothing|done]|].
  destruct (Z.ltb_spec (len (as_logo a)) (14 + from_le (sub_list 8 10 (as_logo a)) * 3 + from_le (sub_list 10 14 (as_logo a)) * 4));
    [exists nothing; split; [apply within_nothing|done]|].
  eexists. split; [|reflexivity]. pose proof Ha as (_ & _ & Hb & _).
  assert (forall lo hi, 0 <= from_le (sub_list lo hi (as_logo a))) as Hp by (intros; by apply from_le_bound, Forall_sub_list).
  pose proof (Hp 8 10). apply logo_runs_safe; [lia|]. intros i Hi%range_elem. lia.
Qed.

(** *** The parts of the menu *)
Lemma truncate_ok (t : list Z) (n : Z) (f : Font) : text_ok t -> text_ok (truncate_to_fit t n f).
Proof. intros Ht. unfold truncate_to_fit. destruct (_ <=? _); [done|]. apply text_ok_app; [by apply Forall_take|apply lit_ok]. Qed.

Lemma icon_label_ok (i : Icon) : text_ok (icon_label i).
Proof. destruct i; apply lit_ok. Qed.

Lemma entry_type_label_ok (k : EntryKind) (i : Icon) : text_ok (entry_type_label k i).
Proof. destruct k, i; apply lit_ok. Qed.

Lemma strip_prefix_ok (pre t : list Z) : text_ok t -> text_ok (default t (strip_prefix pre t)).
Proof.
  intros Ht. destruct (strip_prefix pre t) as [r|] eqn:E; [|done]. simpl. apply strip_prefix_some in E as ->.
  by apply Forall_app in Ht as [_ ?].
Qed.

Lemma wrap_nonneg (w z : Z) : 0 <= w -> 0 <= wrap w z.
Proof. intros Hw. apply Z.mod_pos_bound. apply Z.pow_pos_nonneg; lia. Qed.

Lemma if_safe (b : bool) (x y : paint_op) : safe_op x -> safe_op y -> safe_op (if b then x else y).
Proof. by destruct b. Qed.

Ltac paint_safe :=
  repeat first
    [apply within_then | apply within_nothing | apply if_safe
    |apply draw_text_safe | apply draw_logo_safe; done
    |apply fill_rect_safe; [done|done|done| |]];
  try (first [apply wrap_nonneg; lia | unfold HEADER_H, MARGIN in *; lia | solve [auto with paint]]).

Lemma draw_rect_border_safe (x y w h t : Z) (color : BltPixel) : 0 <= x -> 0 <= y -> safe_op (draw_rect_border x y w h t color).
Proof. intros Hx Hy. unfold draw_rect_border. paint_safe. Qed.

Lemma tile_background_safe (x y w h : Z) (selected : bool) : 0 <= x -> 0 <= y -> safe_op (tile_background x y w h selected).
Proof. intros Hx Hy. unfold tile_background. paint_safe. Qed.

(** The texts an entry can show. *)
Definition entry_texts_ok (e : BootEntry) : Prop :=
  text_ok (be_name e) /\
  match be_preflight e with Some r => Forall (fun c => text_ok (ck_message c)) (pf_checks r) | None => True end.

Definition system_texts_ok (s : SystemInfoDisplay) : Prop :=
  opt_text_ok (sd_vmid s) /\ opt_text_ok (sd_hypervisor s) /\ opt_text_ok (sd_system_product s).

Lemma draw_boot_tile_safe (x y w : Z) (e : BootEntry) (selected : bool) :
  0 <= x -> 0 <= y -> entry_texts_ok e -> safe_op (draw_boot_tile a x y w e selected).
Proof.
  intros Hx Hy [Hn Hp]. unfold draw_boot_tile. apply within_then; [by apply tile_background_safe|]. paint_safe.
  - apply icon_label_ok.
  - by apply truncate_ok.
  - apply entry_type_label_ok.
  - destruct (be_preflight e) as [r|]; [|apply within_nothing]. unfold preflight_mark.
    destruct (pf_status r); cbn [lit]; (apply within_nothing || (apply draw_text_safe; apply lit_ok)).
Qed.

Lemma draw_tool_tile_safe (x y w : Z) (name subtitle : list Z) (selected : bool) :
  0 <= x -> 0 <= y -> text_ok name -> text_ok subtitle -> safe_op (draw_tool_tile a x y w name subtitle selected).
Proof.
  intros Hx Hy Hn Hs. unfold draw_tool_tile. apply within_then; [by apply tile_background_safe|]. paint_safe.
  by apply truncate_ok, strip_prefix_ok.
Qed.

Lemma draw_action_tile_safe (x y w : Z) (label key : list Z) (selected : bool) :
  0 <= x -> 0 <= y -> text_ok label -> text_ok key -> safe_op (draw_action_tile a x y w label key selected).
Proof. intros Hx Hy Hn Hs. unfold draw_action_tile. apply within_then; [by apply tile_background_safe|]. by paint_safe. Qed.

Lemma draw_header_safe (width : Z) (sys : SystemInfoDisplay) :
  text_ok (as_version a) -> text_ok (as_target a) -> system_texts_ok sys -> safe_op (draw_header a width sys).
Proof.
  intros Hv Ht (H1 & H2 & H3). unfold draw_header, right_text. cbv zeta. paint_safe.
  - destruct (sd_vmid sys); [|apply within_nothing]. apply draw_text_safe. auto with paint.
  - destruct (sd_hypervisor sys), (sd_system_product sys); cbn [app join_with]; try apply within_nothing; apply draw_text_safe; auto with paint.
  - destruct (sd_secure_boot sys); auto 6 with paint.
Qed.

Context (entries : list BootEntry) (He : Forall entry_texts_ok entries).

Lemma entry_at_boots (i : nat) :
  (i < length (boot_indices entries))%nat -> exists e, entry_at entries (boot_indices entries) i = Some e /\ entry_texts_ok e.
Proof.
  intros Hi. destruct (lookup_lt_is_Some_2 _ _ Hi) as [j Hj]. unfold entry_at. rewrite Hj. simpl.
  destruct (boots_some entries j) as [e Ee]; [by eapply list_elem_of_lookup_2|]. exists e. split; [done|].
  rewrite Forall_forall in He. apply He. by eapply list_elem_of_lookup_2.
Qed.

Lemma entry_at_tools (i : nat) :
  (i < length (tool_indices entries))%nat -> exists e, entry_at entries (tool_indices entries) i = Some e /\ entry_texts_ok e.
Proof.
  intros Hi. destruct (lookup_lt_is_Some_2 _ _ Hi) as [j Hj]. unfold entry_at. rewrite Hj. simpl.
  destruct (tools_some entries j) as [e Ee]; [by eapply list_elem_of_lookup_2|]. exists e. split; [done|].
  rewrite Forall_forall in He. apply He. by eapply list_elem_of_lookup_2.
Qed.

Lemma left_tile_y_nonneg (vi : nat) : 0 <= left_tile_y vi.
Proof. unfold left_tile_y, HEADER_H, BOOT_TILE_H, TILE_GAP. lia. Qed.

Lemma draw_left_column_safe (width height : Z) (g : GuiMenu) : safe_op (draw_left_column a width height entries g).
Proof.
  unfold draw_left_column. cbv zeta. apply within_then; [paint_safe|].
  destruct (boot_indices entries) as [|b bs] eqn:Eb; [paint_safe|]. rewrite <- Eb.
  apply within_then; [|paint_safe]. apply within_for. intros [vi bi] Hin. unfold visible_boots in Hin.
  apply list_elem_of_fmap in Hin as (vi' & [= -> ->] & Hin). apply elem_of_seq in Hin.
  destruct (entry_at_boots (gm_scroll_left g + vi')) as (e & -> & Het); [lia|].
  apply draw_boot_tile_safe; [unfold MARGIN; lia|apply left_tile_y_nonneg|done].
Qed.

Lemma right_tile_y_nonneg (i : nat) : 0 <= right_tile_y i.
Proof. unfold right_tile_y, tool_pitch, HEADER_H, TOOL_TILE_H, TILE_GAP. lia. Qed.

Lemma action_tile_y_nonneg (i : nat) : 0 <= action_tile_y entries i.
Proof. unfold action_tile_y. pose proof (right_tile_y_nonneg (length (tool_indices entries))). unfold tool_pitch, TOOL_TILE_H, TILE_GAP. lia. Qed.

Lemma draw_right_column_safe (width : Z) (g : GuiMenu) : safe_op (draw_right_column a width entries g).
Proof.
  assert (0 <= right_col_x width) by (apply wrap_nonneg; lia). pose proof (right_tile_y_nonneg (length (tool_indices entries))).
  unfold draw_right_column. cbv zeta. apply within_then; [paint_safe|]. apply within_then; [|apply within_then].
  - apply within_for. intros i Hi%elem_of_seq. destruct (entry_at_tools i) as (e & -> & [Hn _]); [lia|].
    apply draw_tool_tile_safe; [done|apply right_tile_y_nonneg|done|apply lit_ok].
  - apply fill_rect_safe; done || lia.
  - apply within_for. intros [[i label] key] Hin. apply draw_action_tile_safe; [done|apply action_tile_y_nonneg| |];
      repeat (apply elem_of_cons in Hin as [[= -> -> ->]|Hin]; [apply lit_ok|]); by apply elem_of_nil in Hin.
Qed.

Lemma footer_status_ok (p : Policy) (g : GuiMenu) : exists t, footer_status entries p g = Ok t /\ text_ok t.
Proof.
  unfold footer_status. destruct (_ && _); [destruct (_ <? _); eauto 6 with paint|]. unfold get_selected_status.
  assert (forall ids : list nat, (forall j, j ∈ ids -> exists e, entries !! j = Some e) ->
    exists t, match ids !! gm_sel_idx g with
      | Some idx =>
          match entries !! idx with
          | Some e => @Ok Empty_set (list Z) (match be_preflight e ≫= first_issue with Some issue => ck_message issue
              | None => lit "Use arrow keys to navigate. Press Enter to boot." end)
          | None => Panic
          end
      | None => Ok (lit "Use arrow keys to navigate. Press Enter to boot.")
      end = Ok t /\ text_ok t) as Hids.
  { intros ids Hids. destruct (ids !! gm_sel_idx g) as [idx|] eqn:Ei; [|eauto with paint].
    destruct (Hids idx) as [e Ee]; [by eapply list_elem_of_lookup_2|]. rewrite Ee. eexists. split; [reflexivity|].
    rewrite Forall_forall in He. destruct (He e) as [_ Hp]; [by eapply list_elem_of_lookup_2|].
    destruct (be_preflight e) as [r|]; [|apply lit_ok]. simpl. destruct (first_issue r) as [c|] eqn:Ef; [|apply lit_ok].
    apply List.find_some in Ef as [Hin _]. rewrite Forall_forall in Hp. by apply Hp, list_elem_of_In. }
  destruct (gm_sel_col g); apply Hids; [apply boots_some|apply tools_some].
Qed.

Lemma draw_footer_safe (width height : Z) (p : Policy) (g : GuiMenu) (notice : option (list Z)) :
  opt_text_ok notice -> safe_op (draw_footer a width height entries p g notice).
Proof.
  intros Hn. unfold draw_footer, right_text. cbv zeta. apply within_then; [|apply within_then; [|apply within_then]].
  - apply fill_rect_safe; try done; unfold content_bottom, MARGIN; lia.
  - destruct (footer_status_ok p g) as (t & Et & Ht). rewrite Et. cbn [res_bind]. by apply draw_text_safe.
  - paint_safe.
  - destruct notice; [by apply draw_text_safe|apply within_nothing].
Qed.

Lemma draw_cursor_safe (x y : Z) : safe_op (draw_cursor x y).
Proof.
  unfold draw_cursor. cbv zeta. pose proof (wrap_nonneg 64 x ltac:(lia)). pose proof (wrap_nonneg 64 y ltac:(lia)).
  apply within_then; [destruct (Z.leb_spec 10 (wrap 64 x))|destruct (Z.leb_spec 10 (wrap 64 y))];
    try apply within_nothing; apply fill_rect_safe; done || lia.
Qed.

Lemma fb_clear_draws : draws W H fb_clear (fun _ _ _ new => new = Some BACKGROUND_COLOR).
Proof.
  intros fb (Ew & Eh & El). eexists. split; [reflexivity|]. split.
  { unfold sized, len. cbn. rewrite length_replicate. done. }
  intros c r Hc Hr. unfold pixel. cbn [fb_pixels fb_width]. rewrite Ew. pose proof (sized_index W H HW c r Hc Hr).
  apply lookup_replicate_2. unfold len in El. lia.
Qed.

Lemma fb_clear_safe : safe_op fb_clear.
Proof. eapply draws_impl; [exact fb_clear_draws|]. auto. Qed.

Definition view_ok (v : GuiView) : Prop :=
  text_ok (as_version a) /\ text_ok (as_target a) /\ system_texts_ok (gv_sys_info v) /\ opt_text_ok (gv_cohort_notice v).

Lemma draw_menu_safe (width height : Z) (p : Policy) (v : GuiView) :
  view_ok v -> safe_op (draw_menu a width height entries p v).
Proof.
  intros (Hv & Ht & Hs & Hn). unfold draw_menu. apply within_then; [apply fb_clear_safe|].
  apply within_then; [by apply draw_header_safe|]. apply within_then; [apply draw_left_column_safe|].
  apply within_then; [apply draw_right_column_safe|]. apply within_then; [by apply draw_footer_safe|apply draw_cursor_safe].
Qed.
End safe.

(** ** Redrawing *)

(** The loop of [run_menu] draws only when [dirty] is set or the displayed
    second changed; [present] copies the buffer to the screen. *)
Record GuiScreen : Type := mkScreen {
  gs_view : GuiView;
  gs_dirty : bool;
  gs_last_drawn_second : option Z;
  gs_fb : Framebuffer;
  gs_shown : list BltPixel                (* what the screen shows *)
}.

Definition with_gui (g : GuiMenu) (v : GuiView) : GuiView := mkView g (gv_mouse_x v) (gv_mouse_y v) (gv_sys_info v) (gv_cohort_notice v).

Definition move_mouse (x y : Z) (v : GuiView) : GuiView := mkView (gv_gui v) x y (gv_sys_info v) (gv_cohort_notice v).

Section loop.
Context (a : Assets) (width height : Z) (entries : list BootEntry) (p : Policy).

Definition countdown_second (g : GuiMenu) : option Z :=
  let timeout_ms := menu_timeout entries p in
  if negb (gm_interacted g) && (0 <? timeout_ms)
  then Some (Z.max 0 (timeout_ms - wrap 32 (gm_frames g * 16)) / 1000) else None.

Definition present (s : GuiScreen) : GuiScreen :=
  mkScreen (gs_view s) (gs_dirty s) (gs_last_drawn_second s) (gs_fb s) (fb_pixels (gs_fb s)).

Definition redraw (s : GuiScreen) : res Empty_set GuiScreen :=
  let second := countdown_second (gv_gui (gs_view s)) in
  if gs_dirty s || negb (bool_decide (second = gs_last_drawn_second s)) then
    let? fb := draw_menu a width height entries p (gs_view s) (gs_fb s) in
    Ok (present (mkScreen (gs_view s) false second fb (gs_shown s)))
  else Ok s.

Definition set_view (v : GuiView) (dirty : bool) (s : GuiScreen) : GuiScreen :=
  mkScreen v dirty (gs_last_drawn_second s) (gs_fb s) (gs_shown s).

(** Whether an event makes the next round draw. *)
Definition event_dirty (ev : InputEvent) (s : GuiScreen) : bool :=
  let v := gs_view s in
  let g := gv_gui v in
  match ev with
  | KeyPress _ | MouseClick _ _ _ => true
  | MouseMove x y =>
      gs_dirty s || negb ((x =? gv_mouse_x v) && (y =? gv_mouse_y v)) ||
      match hit_test width height entries (gm_scroll_left g) x y with
      | Some (c, i) => negb (bool_decide (c = gm_sel_col g) && (i =? gm_sel_idx g)%nat)
      | None => false
      end
  | NoEvent => gs_dirty s
  end.

(** An event that the menu survives; the help screen is drawn at once. *)
Definition screen_event (ev : InputEvent) (g' : GuiMenu) (s : GuiScreen) : res Empty_set GuiScreen :=
  let v := with_gui g' (match ev with MouseMove x y => move_mouse x y (gs_view s) | _ => gs_view s end) in
  let s := set_view v (event_dirty ev s) s in
  if gm_help g' then
    let? fb := draw_help a (gs_fb s) in Ok (present (mkScreen (gs_view s) (gs_dirty s) (gs_last_drawn_second s) fb (gs_shown s)))
  else Ok s.

(** Every time the loop polls for input: the state and what the screen shows. *)
Fixpoint polls (s : GuiScreen) (evs : list InputEvent) : res Empty_set (list (GuiView * list BltPixel)) :=
  let g := gv_gui (gs_view s) in
  if gm_help g then
    match evs with
    | [] => Ok []
    | KeyPress _ :: rest => polls (set_view (with_gui (gui_set_help false g) (gs_view s)) (gs_dirty s) s) rest
    | _ :: rest => polls s rest
    end
  else
    let? s := redraw s in
    match gui_auto entries p g with
    | (Some _, _) => Ok []
    | (None, g) =>
        let s := set_view (with_gui g (gs_view s)) (gs_dirty s) s in
        let here := (gs_view s, gs_shown s) in
        match evs with
        | [] => Ok [here]
        | ev :: rest =>
            match gui_event width height entries ev g with
            | inl _ => Ok [here]
            | inr g' => let? s := screen_event ev g' s in let? l := polls s rest in Ok (here :: l)
            end
        end
    end.

Definition screen_new (sys : SystemInfoDisplay) (notice : option (list Z)) : GuiScreen :=
  mkScreen (mkView gui_new (width / 2) (height / 2) sys notice) true None (fb_new width height) [].
End loop.

(** *** What the picture depends on *)
Section visible.
Context (a : Assets) (width height : Z) (entries : list BootEntry) (p : Policy).

(** The time is not up yet, so that the menu goes on. *)
Definition goes_on (g : GuiMenu) : Prop := fst (gui_auto entries p g) = None.

Lemma menu_timeout_boots : 0 < menu_timeout entries p -> boot_indices entries <> [].
Proof.
  unfold menu_timeout. destruct (has_bootable entries) eqn:E; [|lia]. intros _ Hb. rewrite has_bootable_boots, bool_decide_true in E by done. done.
Qed.

Lemma footer_when_going_on (g : GuiMenu) :
  goes_on g ->
  footer_status entries p g =
  match countdown_second entries p g with
  | Some sec => Ok (lit "Auto-boot in " ++ fmt_dec sec ++ lit "s...")
  | None => get_selected_status entries g
  end.
Proof.
  unfold goes_on, gui_auto, footer_status, countdown_second. cbv zeta. cbn [gm_interacted gm_timed_out].
  destruct (negb (gm_interacted g) && (0 <? menu_timeout entries p)) eqn:E; [|done]. apply andb_true_iff in E as [-> Ht%Z.ltb_lt].
  pose proof (menu_timeout_boots Ht) as Hb. rewrite bool_decide_false by done. cbn [negb]. rewrite !andb_true_r.
  destruct (Z.leb_spec (menu_timeout entries p) (wrap 32 (gm_frames g * 16))) as [Hle|Hlt]; cbn [orb].
  - destruct (select_default_entry _ _ _) as [[|]| |]; done.
  - intros _. rewrite (proj2 (Z.ltb_lt _ _)) by done. do 4 f_equal. f_equal. lia.
Qed.

(** What can be seen of a state. *)
Definition same_look (v v' : GuiView) : Prop :=
  gm_sel_idx (gv_gui v) = gm_sel_idx (gv_gui v') /\ gm_sel_col (gv_gui v) = gm_sel_col (gv_gui v') /\
  gm_scroll_left (gv_gui v) = gm_scroll_left (gv_gui v') /\ gv_mouse_x v = gv_mouse_x v' /\ gv_mouse_y v = gv_mouse_y v' /\
  gv_sys_info v = gv_sys_info v' /\ gv_cohort_notice v = gv_cohort_notice v' /\
  footer_status entries p (gv_gui v) = footer_status entries p (gv_gui v').

Lemma same_look_draw (v v' : GuiView) (fb : Framebuffer) :
  same_look v v' -> draw_menu a width height entries p v fb = draw_menu a width height entries p v' fb.
Proof.
  intros (E1 & E2 & E3 & E4 & E5 & E6 & E7 & E8). unfold draw_menu. rewrite E4, E5, E6, E7.
  unfold draw_left_column, draw_right_column, draw_footer. rewrite E1, E2, E3, E8. done.
Qed.
End visible.

(** *** The screen is up to date *)
Section current.
Context (a : Assets) (width height : Z) (entries : list BootEntry) (p : Policy).
Context (HW : 0 <= width) (HH : 0 <= height) (Hsize : width * height < 2 ^ 64).
Context (Ha : assets_ok a) (He : Forall entry_texts_ok entries).

(** The picture of a state. *)
Definition picture (v : GuiView) : list BltPixel :=
  match draw_menu a width height entries p v (fb_new width height) with Ok fb => fb_pixels fb | _ => [] end.

Lemma fb_new_sized : sized width height (fb_new width height).
Proof. unfold sized, fb_new, len. cbn. rewrite length_replicate. unfold wrap. rewrite Z.mod_small by nia. split_and!; [done|done|]. nia. Qed.

Lemma clear_sized (fb fb' : Framebuffer) : sized width height fb -> sized width height fb' -> fb_clear fb = fb_clear fb'.
Proof. intros (Ew & Eh & El) (Ew' & Eh' & El'). unfold fb_clear, len in *. rewrite Ew, Ew', Eh, Eh'. by replace (length (fb_pixels fb)) with (length (fb_pixels fb')) by lia. Qed.

(** Drawing the menu forgets what was in the buffer. *)
Lemma draw_menu_picture (v : GuiView) (fb : Framebuffer) :
  view_ok a v -> sized width height fb ->
  exists fb', draw_menu a width height entries p v fb = Ok fb' /\ sized width height fb' /\ fb_pixels fb' = picture v.
Proof.
  intros Hv Hs. destruct (draw_menu_safe width height HW HH Hsize a Ha entries He width height p v Hv fb Hs) as (fb' & E & Hs' & _).
  exists fb'. split; [done|]. split; [done|]. unfold picture.
  assert (draw_menu a width height entries p v (fb_new width height) = draw_menu a width height entries p v fb) as ->; [|by rewrite E].
  unfold draw_menu, then_do. by rewrite (clear_sized _ _ fb_new_sized Hs).
Qed.

Lemma draw_help_sized (fb : Framebuffer) :
  text_ok (as_version a) -> text_ok (as_target a) -> sized width height fb -> exists fb', draw_help a fb = Ok fb' /\ sized width height fb'.
Proof.
  intros Hv Ht Hs. assert (within width height (fun _ _ => True) (draw_help a)) as Hw.
  { unfold draw_help. apply within_then; [by apply fb_clear_safe|]. apply within_then; [apply draw_text_safe; [done..|apply lit_ok]|].
    apply within_then.
    - apply within_for. intros [i line] Hin. apply draw_text_safe; [done..|]. apply elem_of_zip_r in Hin. unfold help_lines in Hin.
      repeat (apply elem_of_cons in Hin as [->|Hin]; [apply lit_ok|]). by apply elem_of_nil in Hin.
    - apply within_then; apply draw_text_safe; auto with paint. }
  destruct (Hw fb Hs) as (fb' & E & Hs' & _). eauto.
Qed.

(** The same selection, page, pointer and texts. *)
Definition same_base (v v' : GuiView) : Prop :=
  gm_sel_idx (gv_gui v) = gm_sel_idx (gv_gui v') /\ gm_sel_col (gv_gui v) = gm_sel_col (gv_gui v') /\
  gm_scroll_left (gv_gui v) = gm_scroll_left (gv_gui v') /\ gv_mouse_x v = gv_mouse_x v' /\ gv_mouse_y v = gv_mouse_y v' /\
  gv_sys_info v = gv_sys_info v' /\ gv_cohort_notice v = gv_cohort_notice v'.

Lemma same_base_look (v v' : GuiView) :
  same_base v v' -> goes_on entries p (gv_gui v) -> goes_on entries p (gv_gui v') ->
  countdown_second entries p (gv_gui v) = countdown_second entries p (gv_gui v') -> same_look entries p v v'.
Proof.
  intros (E1 & E2 & E3 & E4 & E5 & E6 & E7) Hg Hg' Hc. unfold same_look. split_and!; try done.
  rewrite (footer_when_going_on entries p _ Hg), (footer_when_going_on entries p _ Hg'), Hc. destruct (countdown_second entries p (gv_gui v')); [done|]. unfold get_selected_status. by rewrite E1, E2.
Qed.

(** Unless a redraw is due, the screen shows a state that looks the same apart
    from the countdown. *)
Definition clean (s : GuiScreen) : Prop :=
  gs_dirty s = false -> exists v0, goes_on entries p (gv_gui v0) /\ same_base v0 (gs_view s) /\
    countdown_second entries p (gv_gui v0) = gs_last_drawn_second s /\ gs_shown s = picture v0.

Definition screen_inv (s : GuiScreen) : Prop :=
  sized width height (gs_fb s) /\ view_ok a (gs_view s) /\ clean s /\ (gm_help (gv_gui (gs_view s)) = true -> gs_dirty s = true).

(** After the drawing part of a round that goes on, the screen shows the state. *)
Lemma redraw_current (s : GuiScreen) :
  screen_inv s ->
  exists s', redraw a width height entries p s = Ok s' /\ sized width height (gs_fb s') /\ gs_view s' = gs_view s /\ gs_dirty s' = false /\
    (goes_on entries p (gv_gui (gs_view s)) ->
     gs_shown s' = picture (gs_view s) /\ gs_last_drawn_second s' = countdown_second entries p (gv_gui (gs_view s))).
Proof.
  intros (Hs & Hv & Hc & _). unfold redraw. cbv zeta. destruct (gs_dirty s || _) eqn:Ed.
  - destruct (draw_menu_picture (gs_view s) (gs_fb s) Hv Hs) as (fb & -> & Hs' & Hp). cbn [res_bind].
    eexists. split; [reflexivity|]. split_and!; done.
  - apply orb_false_iff in Ed as [Hd Hl]. apply negb_false_iff, bool_decide_eq_true in Hl. exists s. split_and!; try done.
    intros Hg. destruct (Hc Hd) as (v0 & Hg0 & Hb & Hc0 & ->). split; [|done]. unfold picture.
    rewrite (same_look_draw a width height entries p v0 (gs_view s)); [done|]. apply same_base_look; try done. congruence.
Qed.

Lemma gui_auto_same (g g' : GuiMenu) :
  gui_auto entries p g = (None, g') -> gm_sel_idx g' = gm_sel_idx g /\ gm_sel_col g' = gm_sel_col g /\ gm_scroll_left g' = gm_scroll_left g /\
    gm_interacted g' = gm_interacted g /\ gm_frames g' = gm_frames g /\ gm_help g' = gm_help g.
Proof.
  unfold gui_auto. cbv zeta. destruct (_ && _); [destruct (select_default_entry _ _ _) as [[|]| |]; done|]. by intros [= <-].
Qed.

(** An event that does not set [dirty] changes nothing that is drawn but the countdown. *)
Lemma quiet_event (ev : InputEvent) (g g' : GuiMenu) (s : GuiScreen) :
  gv_gui (gs_view s) = g -> gui_event width height entries ev g = inr g' -> event_dirty width height entries ev s = false ->
  gs_dirty s = false ->
  same_base (gs_view s) (with_gui g' (match ev with MouseMove x y => move_mouse x y (gs_view s) | _ => gs_view s end)) /\ gm_help g' = gm_help g.
Proof.
  intros <- Hev Hd Hq. destruct ev as [k|x y|x y b|]; cbn [event_dirty] in Hd; try done.
  - rewrite Hq in Hd. cbn [orb] in Hd. apply orb_false_iff in Hd as [Hm Hh].
    apply negb_false_iff, andb_true_iff in Hm as [Hx%Z.eqb_eq Hy%Z.eqb_eq]. subst x y. cbn [gui_event] in Hev.
    destruct (hit_test _ _ _ _ _ _) as [[c i]|]; [|injection Hev as <-; done].
    apply negb_false_iff, andb_true_iff in Hh as [Hc%bool_decide_eq_true Hi%Nat.eqb_eq]. injection Hev as <-. subst c i. done.
  - cbn [gui_event] in Hev. injection Hev as <-. done.
Qed.

Lemma gui_event_help (ev : InputEvent) (g g' : GuiMenu) :
  gm_help g = false -> gui_event width height entries ev g = inr g' -> gm_help g' = true -> exists k, ev = KeyPress k.
Proof.
  intros Hg. destruct ev as [k|x y|x y b|]; [eauto| | |]; cbn [gui_event].
  - destruct (hit_test _ _ _ _ _ _) as [[c i]|]; intros [= <-] Hh; simpl in Hh; congruence.
  - destruct (hit_test _ _ _ _ _ _) as [[c i]|]; [|intros [= <-] Hh; simpl in Hh; congruence].
    intros H%gui_activate_inr Hh. subst. simpl in Hh. congruence.
  - intros [= <-] Hh. simpl in Hh. congruence.
Qed.

Lemma screen_event_inv (ev : InputEvent) (g' : GuiMenu) (s : GuiScreen) (v0 : GuiView) :
  sized width height (gs_fb s) -> view_ok a (gs_view s) -> gs_dirty s = false -> gm_help (gv_gui (gs_view s)) = false ->
  goes_on entries p (gv_gui v0) -> same_base v0 (gs_view s) -> countdown_second entries p (gv_gui v0) = gs_last_drawn_second s ->
  gs_shown s = picture v0 -> gui_event width height entries ev (gv_gui (gs_view s)) = inr g' ->
  exists s', screen_event a width height entries ev g' s = Ok s' /\ screen_inv s'.
Proof.
  intros Hs Hv Hq Hh Hg0 Hb Hc Hsh Hev. unfold screen_event. cbv zeta.
  set (v := with_gui g' _). assert (view_ok a v) as Hv' by (unfold v; destruct ev; exact Hv).
  destruct (gm_help g') eqn:Ehelp.
  - destruct (gui_event_help ev _ g' Hh Hev Ehelp) as [k ->]. destruct Hv as (Hver & Htar & _).
    destruct (draw_help_sized (gs_fb s) Hver Htar Hs) as (fb & E & Hs'). cbn [gs_fb set_view]. rewrite E. cbn [res_bind].
    eexists. split; [reflexivity|]. split_and!; [done|done| |done]. intros Hd. done.
  - eexists. split; [reflexivity|]. split_and!; [done|done| |intros H; cbn in H; unfold v, with_gui in H; cbn in H; congruence].
    intros Hd. cbn [gs_dirty set_view] in Hd. destruct (quiet_event ev _ g' s eq_refl Hev Hd Hq) as [Hb' _].
    exists v0. cbn [gs_view gs_last_drawn_second gs_shown set_view]. split_and!; try done.
    destruct Hb as (? & ? & ? & ? & ? & ? & ?), Hb' as (? & ? & ? & ? & ? & ? & ?). unfold v, same_base. split_and!; congruence.
Qed.

Lemma auto_picture (v : GuiView) (g : GuiMenu) :
  gui_auto entries p (gv_gui v) = (None, g) -> picture (with_gui g v) = picture v.
Proof.
  intros (E1 & E2 & E3 & E4 & E5 & _)%gui_auto_same. unfold picture.
  rewrite (same_look_draw a width height entries p (with_gui g v) v); [done|]. unfold same_look.
  cbn [gv_gui with_gui gv_mouse_x gv_mouse_y gv_sys_info gv_cohort_notice].
  split_and!; try done. unfold footer_status, get_selected_status. by rewrite E1, E2, E4, E5.
Qed.

Lemma polls_current (evs : list InputEvent) (s : GuiScreen) :
  screen_inv s ->
  exists l, polls a width height entries p s evs = Ok l /\ Forall (fun vp => view_ok a vp.1 /\ vp.2 = picture vp.1) l.
Proof.
  revert s. induction evs as [|ev evs IH]; intros s Hinv; pose proof Hinv as (Hs & Hv & Hc & Hhelp); cbn [polls];
    (destruct (gm_help (gv_gui (gs_view s))) eqn:Eh; [first [by exists []|by destruct ev; apply IH]|]);
    destruct (redraw_current s Hinv) as (s1 & -> & Hs1 & Ev & Hd1 & Hcur); cbn [res_bind];
    (destruct (gui_auto entries p (gv_gui (gs_view s))) as [[r|] g] eqn:Ea; [by exists []|]);
    (destruct Hcur as [Hsh Hlast]; [unfold goes_on; by rewrite Ea|]); cbn [gs_shown gs_view set_view]; rewrite Ev;
    assert (gs_shown s1 = picture (with_gui g (gs_view s))) as Hp by (by rewrite auto_picture).
  { eexists. split; [reflexivity|]. apply Forall_cons_2; [done|constructor]. }
  destruct (gui_event width height entries ev g) as [|g'] eqn:Eg; [eexists; split; [reflexivity|apply Forall_cons_2; [done|constructor]]|].
  pose proof (gui_auto_same _ _ Ea) as (E1 & E2 & E3 & E4 & E5 & E6).
  destruct (screen_event_inv ev g' (set_view (with_gui g (gs_view s)) (gs_dirty s1) s1) (gs_view s)) as (s2 & -> & Hinv2); try done.
  - cbn. by rewrite E6.
  - unfold goes_on. by rewrite Ea.
  - cbn [res_bind]. destruct (IH s2 Hinv2) as (l & -> & Hl). cbn [res_bind]. eexists. split; [reflexivity|]. by constructor.
Qed.

Lemma screen_new_inv (sys : SystemInfoDisplay) (notice : option (list Z)) :
  text_ok (as_version a) -> text_ok (as_target a) -> system_texts_ok sys -> opt_text_ok notice -> screen_inv (screen_new width height sys notice).
Proof. intros. unfold screen_inv, view_ok. split_and!; try done. apply fb_new_sized. Qed.
End current.

(** C22. In every round in which the graphical menu waits for input, the screen
    shows exactly the picture of the current state, although the menu draws only
    when it finds something changed; no drawing leaves the buffer, whatever the
    size of the screen and the texts. *)
Theorem menu_screen_current (a : Assets) (width height : Z) (entries : list BootEntry) (p : Policy)
    (sys : SystemInfoDisplay) (notice : option (list Z)) (evs : list InputEvent) :
  0 <= width -> 0 <= height -> width * height < 2 ^ 64 -> assets_ok a -> text_ok (as_version a) -> text_ok (as_target a) ->
  Forall entry_texts_ok entries -> system_texts_ok sys -> opt_text_ok notice ->
  exists l, polls a width height entries p (screen_new width height sys notice) evs = Ok l /\
    Forall (fun vp => exists fb, draw_menu a width height entries p vp.1 (fb_new width height) = Ok fb /\ vp.2 = fb_pixels fb) l.
Proof.
  intros HW HH Hsize Ha Hv Ht He Hs Hn.
  destruct (polls_current a width height entries p HW HH Hsize Ha He evs (screen_new width height sys notice)) as (l & Hl & Hp).
  { by apply screen_new_inv. }
  exists l. split; [done|]. eapply Forall_impl; [exact Hp|]. intros [v pic] [Hv' Hpic]. cbn [fst snd] in *.
  destruct (draw_menu_picture a width height entries p HW HH Hsize Ha He v (fb_new width height) Hv' (fb_new_sized width height HW HH Hsize))
    as (fb & E & _ & Hf). exists fb. split; [done|]. congruence.
Qed.

(** ** The pointer and the tiles *)
Lemma tile_at_spec (n i : nat) (y h pitch my : Z) (j : nat) :
  0 < h <= pitch ->
  tile_at n i y h pitch my = Some j <->
  exists k, (k < n)%nat /\ j = (i + k)%nat /\ y + Z.of_nat k * pitch <= my < y + Z.of_nat k * pitch + h.
Proof.
  intros Hh. revert i y. induction n as [|n IH]; intros i y; cbn [tile_at].
  { split; [done|]. intros (k & Hk & _). lia. }
  destruct ((y <=? my) && (my <? y + h)) eqn:E.
  - split.
    + intros [= <-]. exists 0%nat. lia.
    + intros (k & Hk & -> & Hm). destruct k as [|k]; [f_equal; lia|]. nia.
  - rewrite IH. split.
    + intros (k & Hk & -> & Hm). exists (S k). lia.
    + intros (k & Hk & -> & Hm). destruct k as [|k]; [lia|]. exists k. lia.
Qed.

(** The rectangle that is drawn for a tile. *)
Definition tile_rect (width height : Z) (entries : list BootEntry) (scroll_left : nat) (c : Column) (i : nat) : option (Z * Z * Z * Z) :=
  match c with
  | ColLeft =>
      if (scroll_left <=? i)%nat && (i <? Nat.min (scroll_left + max_visible_boot height) (length (boot_indices entries)))%nat
      then Some (MARGIN, left_tile_y (i - scroll_left), left_col_w width, BOOT_TILE_H) else None
  | ColRight =>
      let n := length (tool_indices entries) in
      if (i <? n)%nat then Some (right_col_x width, right_tile_y i, right_col_w width, TOOL_TILE_H)
      else if (i <? n + 2)%nat then Some (right_col_x width, action_tile_y entries (i - n), right_col_w width, TOOL_TILE_H)
      else None
  end.

Definition in_tile (o : option (Z * Z * Z * Z)) (mx my : Z) : Prop :=
  match o with Some (x, y, w, h) => in_rect x y w h mx my = true | None => False end.

Section columns.
Context (width : Z) (Hw : 60 <= width < 2 ^ 31).

Lemma left_col_w_eq : left_col_w width = (width - 60) * 55 / 100.
Proof. unfold left_col_w, wrap, MARGIN, COL_GAP. rewrite (Z.mod_small (width - _ - _)) by lia. rewrite Z.mod_small by lia. f_equal. f_equal. lia. Qed.

Lemma left_col_w_bound : 0 <= left_col_w width <= width - 60.
Proof. rewrite left_col_w_eq. split; [apply Z.div_pos; lia|apply Z.div_le_upper_bound; lia]. Qed.

Lemma right_col_eq : right_col_x width = 40 + left_col_w width /\ right_col_w width = width - 60 - left_col_w width.
Proof.
  pose proof left_col_w_bound. unfold right_col_w, right_col_x, wrap, MARGIN, COL_GAP. rewrite (Z.mod_small (20 + _ + 20)) by lia.
  split; [lia|]. rewrite Z.mod_small by lia. lia.
Qed.

Lemma i32_small (z : Z) : 0 <= z < 2 ^ 31 -> wrap_i32 z = z.
Proof. intros Hz. unfold wrap_i32. rewrite Z.mod_small by lia. lia. Qed.
End columns.

Lemma in_tile_left (width height : Z) (entries : list BootEntry) (scroll_left i : nat) (mx my : Z) :
  (scroll_left + Nat.min (max_visible_boot height) (length (boot_indices entries)) <= length (boot_indices entries))%nat ->
  in_tile (tile_rect width height entries scroll_left ColLeft i) mx my <->
  MARGIN <= mx < MARGIN + left_col_w width /\
  exists vi, tile_at (Nat.min (max_visible_boot height) (length (boot_indices entries))) 0 HEADER_H BOOT_TILE_H (BOOT_TILE_H + TILE_GAP) my = Some vi /\
    i = (scroll_left + vi)%nat.
Proof.
  intros Hpage. setoid_rewrite tile_at_spec; [|unfold BOOT_TILE_H, TILE_GAP; lia]. unfold in_tile, tile_rect, in_rect, left_tile_y, BOOT_TILE_H, TILE_GAP.
  set (nb := length _) in *. set (mv := max_visible_boot height) in *. clearbody nb mv.
  destruct ((scroll_left <=? i)%nat && (i <? Nat.min (scroll_left + mv) nb)%nat) eqn:E.
  - apply andb_true_iff in E as [E1%Nat.leb_le E2%Nat.ltb_lt]. split.
    + intros Hin. rewrite !andb_true_iff, !Z.leb_le, !Z.ltb_lt in Hin. split; [lia|]. exists (i - scroll_left)%nat. split; [|lia]. exists (i - scroll_left)%nat. lia.
    + intros (Hx & vi & (k & Hk & -> & Hm) & ->). replace (scroll_left + (0 + k) - scroll_left)%nat with k by lia. lia.
  - split; [done|]. intros (_ & vi & (k & Hk & -> & _) & ->). apply andb_false_iff in E as [E%Nat.leb_gt|E%Nat.ltb_ge]; lia.
Qed.

Lemma in_tile_right (width height : Z) (entries : list BootEntry) (scroll_left i : nat) (mx my : Z) :
  let n := length (tool_indices entries) in
  in_tile (tile_rect width height entries scroll_left ColRight i) mx my <->
  right_col_x width <= mx < right_col_x width + right_col_w width /\
  (tile_at n 0 HEADER_H TOOL_TILE_H (TOOL_TILE_H + TILE_GAP) my = Some i \/
   exists k, tile_at 2 0 (HEADER_H + Z.of_nat n * (TOOL_TILE_H + TILE_GAP) + 12) TOOL_TILE_H (TOOL_TILE_H + TILE_GAP) my = Some k /\ i = (n + k)%nat).
Proof.
  cbv zeta. assert (0 < TOOL_TILE_H <= TOOL_TILE_H + TILE_GAP) as Hp by (unfold TOOL_TILE_H, TILE_GAP; lia).
  rewrite tile_at_spec by done. setoid_rewrite tile_at_spec; [|done]. unfold in_tile, tile_rect, in_rect, action_tile_y, right_tile_y, tool_pitch, TOOL_TILE_H, TILE_GAP.
  set (n := length (tool_indices entries)) in *. clearbody n. destruct (Nat.ltb_spec i n) as [Hi|Hi].
  - split.
    + intros Hin. split; [lia|]. left. exists i. lia.
    + intros (Hx & [(k & Hk & -> & Hm)|(k & _ & ->)]); [|lia]. replace (0 + k)%nat with k by lia. lia.
  - destruct (Nat.ltb_spec i (n + 2)) as [Hi2|Hi2].
    + split.
      * intros Hin. rewrite !andb_true_iff, !Z.leb_le, !Z.ltb_lt in Hin. split; [lia|]. right. exists (i - n)%nat. split; [|lia]. exists (i - n)%nat. lia.
      * intros (Hx & [(k & Hk & -> & Hm)|(k & (k' & Hk & -> & Hm) & ->)]); [lia|]. replace (n + (0 + k') - n)%nat with k' by lia. lia.
    + split; [done|]. intros (_ & [(k & Hk & -> & _)|(k & (k' & Hk & -> & _) & ->)]); lia.
Qed.

(** No tool tile and no action tile share a row. *)
Lemma tools_above_actions (n : nat) (my : Z) (i k : nat) :
  tile_at n 0 HEADER_H TOOL_TILE_H (TOOL_TILE_H + TILE_GAP) my = Some i ->
  tile_at 2 0 (HEADER_H + Z.of_nat n * (TOOL_TILE_H + TILE_GAP) + 12) TOOL_TILE_H (TOOL_TILE_H + TILE_GAP) my = Some k -> False.
Proof.
  assert (0 < TOOL_TILE_H <= TOOL_TILE_H + TILE_GAP) as Hp by (unfold TOOL_TILE_H, TILE_GAP; lia).
  rewrite !tile_at_spec by done. unfold TOOL_TILE_H, TILE_GAP. intros (a & Ha & _ & Hm) (b & Hb & _ & Hm'). lia.
Qed.

(** A point selects a tile exactly when it lies in the rectangle that is drawn
    for the tile: on a screen at least as wide as its margins, in every state
    whose left page is full. *)
Theorem pointer_hits_drawn_tile (width height : Z) (entries : list BootEntry) (scroll_left : nat) (mx my : Z) (c : Column) (i : nat) :
  60 <= width < 2 ^ 31 ->
  (scroll_left + Nat.min (max_visible_boot height) (length (boot_indices entries)) <= length (boot_indices entries))%nat ->
  hit_test width height entries scroll_left mx my = Some (c, i) <-> in_tile (tile_rect width height entries scroll_left c i) mx my.
Proof.
  intros Hw Hpage. pose proof (left_col_w_bound width Hw) as Hlw. destruct (right_col_eq width Hw) as [Hrx Hrw].
  pose proof (in_tile_left width height entries scroll_left i mx my Hpage) as Hleft.
  pose proof (in_tile_right width height entries scroll_left i mx my) as Hright. cbv zeta in Hright. rewrite Hrx, Hrw in Hright.
  unfold hit_test. cbv zeta. rewrite Hrx, Hrw. unfold MARGIN in *.
  rewrite (i32_small (left_col_w width)), (i32_small (20 + left_col_w width)), (i32_small (40 + left_col_w width)),
    (i32_small (width - 60 - left_col_w width)), (i32_small (40 + left_col_w width + (width - 60 - left_col_w width))) by lia.
  destruct ((20 <=? mx) && (mx <? 20 + left_col_w width)) eqn:El.
  - assert ((40 + left_col_w width <=? mx) = false) as -> by lia. cbn [andb]. destruct c.
    + rewrite Hleft. destruct (tile_at _ _ _ _ _ _) as [vi|]; [|naive_solver].
      split; [intros [= <-]; split; [lia|eauto]|]. intros (_ & vi' & [= <-] & ->). done.
    + rewrite Hright. destruct (tile_at (Nat.min _ _) _ _ _ _ _); (split; [done|]; intros [? _]; lia).
  - destruct c.
    + rewrite Hleft. split; [|intros [? _]; lia]. destruct ((40 + left_col_w width <=? mx) && _); [|discriminate].
      destruct (tile_at (length _) _ _ _ _ _); [done|]. destruct (tile_at 2 _ _ _ _ _); done.
    + rewrite Hright. destruct ((40 + left_col_w width <=? mx) && _) eqn:Er; [|split; [done|]; intros [? _]; lia].
      destruct (tile_at (length _) _ _ _ _ _) as [j|] eqn:Et.
      * split; [intros [= <-]; split; [lia|by left]|]. intros (_ & [[= <-]|(k & Hk & ->)]); [done|]. by destruct (tools_above_actions _ _ _ _ Et Hk).
      * destruct (tile_at 2 _ _ _ _ _) as [k|]; [|naive_solver].
        split; [intros [= <-]; split; [lia|right; eauto]|]. intros (_ & [|(k' & [= <-] & ->)]); done.
Qed.

(** ** The selected tile *)
Section marked.
Context (W H : Z) (HW : 0 <= W) (HH : 0 <= H) (Hsize : W * H < 2 ^ 64) (a : Assets) (Ha : assets_ok a).

(** After [op] the pixels in [R] have the colour. *)
Definition coloured (R : Z -> Z -> Prop) (color : BltPixel) (op : paint_op) : Prop :=
  draws W H op (fun c r _ new => R c r -> new = Some color).

(** [op] does not undo it. *)
Definition respects (R : Z -> Z -> Prop) (color : BltPixel) (op : paint_op) : Prop :=
  draws W H op (fun c r old new => R c r -> old = Some color -> new = Some color).

Lemma coloured_then (R : Z -> Z -> Prop) (color : BltPixel) (op1 op2 : paint_op) :
  coloured R color op1 -> respects R color op2 -> coloured R color (op1 ;> op2).
Proof. intros H1 H2. eapply draws_impl; [exact (draws_then _ _ _ _ _ _ H1 H2)|]. simpl. naive_solver. Qed.

Lemma respects_then (R : Z -> Z -> Prop) (color : BltPixel) (op1 op2 : paint_op) :
  respects R color op1 -> respects R color op2 -> respects R color (op1 ;> op2).
Proof. intros H1 H2. eapply draws_impl; [exact (draws_then _ _ _ _ _ _ H1 H2)|]. simpl. naive_solver. Qed.

Lemma respects_nothing (R : Z -> Z -> Prop) (color : BltPixel) : respects R color nothing.
Proof. apply draws_nothing. done. Qed.

Lemma respects_within (R R' : Z -> Z -> Prop) (color : BltPixel) (op : paint_op) :
  within W H R' op -> (forall c r, R c r -> R' c r -> False) -> respects R color op.
Proof. intros Hw HR. eapply draws_impl; [exact Hw|]. simpl. intros c r o n _ _ [HR'| ->] Hin Ho; [by destruct (HR c r)|done]. Qed.

Lemma respects_rect (R : Z -> Z -> Prop) (x y w h : Z) (color : BltPixel) :
  0 <= x -> 0 <= y -> 0 <= w -> 0 <= h -> x + w < 2 ^ 64 -> y + h < 2 ^ 64 -> respects R color (fill_rect x y w h color).
Proof. intros. eapply draws_impl; [by apply fill_rect_draws|]. simpl. intros c r o n _ _ -> _ Ho. by destruct (in_rect _ _ _ _ _ _). Qed.

(** The upper edge of a tile. *)
Definition top_edge (x y w c r : Z) : Prop := x <= c < x + w /\ y <= r < y + 2.

Definition edge_color (selected : bool) : BltPixel := if selected then ACCENT_COLOR else TILE_COLOR.

Lemma tile_background_edge (x y w h : Z) (selected : bool) :
  0 <= x -> 0 <= y -> 0 <= w -> 2 < h -> x + w < 2 ^ 31 -> y + h < 2 ^ 64 ->
  coloured (top_edge x y w) (edge_color selected) (tile_background x y w h selected).
Proof.
  intros Hx Hy Hw Hh Hxw Hyh. unfold tile_background, top_edge. destruct selected; cbn [edge_color].
  - eapply draws_impl; [apply (draws_then _ _ _ _ (fun _ _ _ _ => True));
      [eapply draws_impl; [apply fill_rect_draws; done || lia|done]|]|simpl; intros ???? _ _ (m & _ & Hm); exact Hm].
    apply (coloured_then (top_edge x y w) ACCENT_COLOR).
    { eapply draws_impl; [apply fill_rect_draws; done || lia|]. simpl. unfold top_edge, in_rect. intros c r o n _ _ -> Hin.
      by rewrite !(proj2 (Z.leb_le _ _)), !(proj2 (Z.ltb_lt _ _)) by lia. }
    rewrite (proj2 (Z.ltb_lt 2 h)) by done. unfold wrap. rewrite (Z.mod_small (y + h - 2)) by lia.
    apply respects_then; [apply respects_rect; done || lia|]. apply respects_then; [apply respects_rect; done || lia|].
    destruct (Z.ltb_spec 2 w); [|apply respects_nothing]. rewrite Z.mod_small by lia. apply respects_rect; done || lia.
  - apply (coloured_then (top_edge x y w) TILE_COLOR); [|apply respects_nothing].
    eapply draws_impl; [apply fill_rect_draws; done || lia|]. simpl. unfold top_edge, in_rect. intros c r o n _ _ -> Hin.
    by rewrite !(proj2 (Z.leb_le _ _)), !(proj2 (Z.ltb_lt _ _)) by lia.
Qed.

Lemma text_below_edge (text : list Z) (x y w tx k : Z) (color tcolor : BltPixel) :
  text_ok text -> 0 <= y -> y + 60 < 2 ^ 31 -> 2 <= k <= 40 ->
  respects (top_edge x y w) color (draw_text a text tx (wrap_i32 (wrap_i32 y + k)) tcolor Small).
Proof.
  intros Ht Hy Hy2 Hk. rewrite (i32_small y) by lia. rewrite i32_small by lia.
  eapply respects_within; [by apply draw_text_within|]. unfold top_edge, text_rows. intros c r [_ Hr] (j & Hj & ->).
  cbn [font_height] in Hj. rewrite i32_small in Hr by lia. lia.
Qed.

Lemma boot_tile_edge (x y w : Z) (e : BootEntry) (selected : bool) :
  0 <= x -> 0 <= y -> 0 <= w -> x + w < 2 ^ 31 -> y + 60 < 2 ^ 31 -> entry_texts_ok e ->
  coloured (top_edge x y w) (edge_color selected) (draw_boot_tile a x y w e selected).
Proof.
  intros Hx Hy Hw Hxw Hyh [Hn _]. unfold draw_boot_tile. cbv zeta.
  apply coloured_then; [apply tile_background_edge; unfold BOOT_TILE_H; lia|].
  apply respects_then; [apply text_below_edge; [apply icon_label_ok|lia..]|].
  apply respects_then; [apply text_below_edge; [by apply truncate_ok|lia..]|].
  apply respects_then; [apply text_below_edge; [apply entry_type_label_ok|lia..]|].
  destruct (be_preflight e) as [r|]; [|apply respects_nothing]. unfold preflight_mark.
  destruct (pf_status r); (apply respects_nothing || (apply text_below_edge; [apply lit_ok|lia..])).
Qed.
End marked.

(** A boot tile is drawn with an accent line along its upper edge exactly when
    it is selected, on every part of it that is on the screen: whatever the
    entry is called and whatever was drawn before. *)
Theorem selected_tile_marked (W H : Z) (a : Assets) (x y w : Z) (e : BootEntry) (selected : bool) (fb : Framebuffer) :
  0 <= W -> 0 <= H -> W * H < 2 ^ 64 -> assets_ok a -> 0 <= x -> 0 <= y -> 0 <= w -> x + w < 2 ^ 31 -> y + 60 < 2 ^ 31 ->
  entry_texts_ok e -> sized W H fb ->
  exists fb', draw_boot_tile a x y w e selected fb = Ok fb' /\ sized W H fb' /\
    forall c r, 0 <= c < W -> 0 <= r < H -> x <= c < x + w -> y <= r < y + 2 ->
      (pixel fb' c r = Some ACCENT_COLOR <-> selected = true).
Proof.
  intros HW HH Hsize Ha Hx Hy Hw Hxw Hyh He Hs.
  destruct (boot_tile_edge W H HW HH Hsize a Ha x y w e selected Hx Hy Hw Hxw Hyh He fb Hs) as (fb' & E & Hs' & Hp).
  exists fb'. split; [done|]. split; [done|]. intros c r Hc Hr Hcx Hry. rewrite (Hp c r Hc Hr) by done.
  by destruct selected.
Qed.

(** ** Labels that fit *)

(** A shortened label takes no more characters than fit, if three do. *)
Theorem truncated_label_fits (text : list Z) (max_pixels : Z) (f : Font) :
  3 * font_width f <= max_pixels -> Forall (fun c => is_scalar c = true) text ->
  len (truncate_to_fit text max_pixels f) * font_width f <= max_pixels.
Proof.
  intros Hm Hs. assert (0 < font_width f) as Hf by (destruct f; reflexivity). unfold truncate_to_fit.
  assert (3 <= max_pixels / font_width f) by (apply Z.div_le_lower_bound; lia).
  pose proof (Z.mul_div_le max_pixels (font_width f) Hf).
  assert (len text <= text_len text) as Hlen.
  { clear -Hs. unfold text_len, str_bytes. induction text as [|c t IH]; [done|]. apply Forall_cons in Hs as [_ Hs]. specialize (IH Hs).
    cbn [flat_map]. rewrite len_app, len_cons. pose proof (char_utf8_nonempty c). destruct (char_utf8 c); [done|]. rewrite len_cons.
    pose proof (len_nonneg l). lia. }
  destruct (Z.leb_spec (text_len text) (max_pixels / font_width f)); [nia|].
  rewrite len_app. assert (len (take (Z.to_nat (Z.max 0 (max_pixels / font_width f - 3))) text) <= max_pixels / font_width f - 3).
  { unfold len. rewrite length_take. lia. }
  change (len (lit "...")) with 3. nia.
Qed.

(** A label is measured in bytes: five letters of two bytes each are cut to two
    and dots where all five fit. *)
Theorem wide_label_cut : truncate_to_fit (replicate 5 233) 40 Small = [233; 233] ++ lit "...".
Proof. vm_compute. reflexivity. Qed.

(** ** The right column *)

(** The right column is not scrolled: on a screen of 600 rows with twelve tools
    the selection can be on a tile that lies below the screen. *)
Definition a_tool : BootEntry := mkBoot (lit "tool") (lit "Tool: x") (Chainload (lit "\x.efi")) IconTools None None 0 (lit "fat").

Theorem selected_tool_off_screen :
  let entries := replicate 12 a_tool in
  let keys := KeyPress KeyRight :: replicate 11 (KeyPress KeyDown) in
  exists g, gui_menu 800 600 entries default_policy gui_new keys = inr g /\ gm_sel_col g = ColRight /\
    match tile_rect 800 600 entries (gm_scroll_left g) ColRight (gm_sel_idx g) with
    | Some (_, y, _, _) => 600 <= y
    | None => False
    end.
Proof. vm_compute. eexists. split; [reflexivity|]. split; [reflexivity|]. discriminate. Qed.

(** ** Witnesses *)
Definition demo_assets : Assets :=
  mkAssets (replicate (256 * 16) 0x81) (replicate (256 * 2 * 32) 0x3C) (lit "LBCL" ++ replicate 800 1) (lit "0.16.5") (lit "x86_64").

Lemma demo_assets_ok : assets_ok demo_assets.
Proof.
  split_and!; [vm_compute; reflexivity|vm_compute; reflexivity| |vm_compute; discriminate].
  apply Forall_app. split; [repeat constructor; discriminate|]. apply Forall_replicate. split; discriminate.
Qed.

Definition a_boot : BootEntry := mkBoot (lit "arch") (lit "Arch Linux") (Chainload (lit "\a.efi")) IconLinux None None 0 (lit "fat").

Lemma demo_entry_ok (e : BootEntry) : e = a_boot \/ e = a_tool -> entry_texts_ok e.
Proof. intros [->| ->]; (split; [apply lit_ok|done]). Qed.

(** A countdown, a key, a pointer that moves over the tool and one that does not move. *)
Definition demo_events : list InputEvent :=
  [NoEvent; MouseMove 400 300; NoEvent; KeyPress KeyRight; NoEvent; KeyPress KeyF1; NoEvent; KeyPress KeyEnter; NoEvent].

Lemma menu_screen_current_witness :
  exists l, polls demo_assets 96 64 [a_boot; a_tool] default_policy (screen_new 96 64 (mkSysDisplay None None None false 0) None) demo_events = Ok l /\
    Forall (fun vp => exists fb, draw_menu demo_assets 96 64 [a_boot; a_tool] default_policy vp.1 (fb_new 96 64) = Ok fb /\ vp.2 = fb_pixels fb) l.
Proof.
  apply (menu_screen_current demo_assets 96 64 [a_boot; a_tool] default_policy (mkSysDisplay None None None false 0) None demo_events);
    [lia|lia|lia|exact demo_assets_ok|apply lit_ok|apply lit_ok| |by split_and!|done].
  repeat apply Forall_cons_2; try apply Forall_nil_2; apply demo_entry_ok; auto.
Defined.

Lemma pointer_hits_drawn_tile_witness :
  hit_test 800 600 [a_boot; a_boot; a_tool] 0 50 210 = Some (ColLeft, 1%nat).
Proof. apply (pointer_hits_drawn_tile 800 600 [a_boot; a_boot; a_tool] 0 50 210 ColLeft 1); [lia|vm_compute; lia|vm_compute; reflexivity]. Defined.

Lemma selected_tile_marked_witness :
  exists fb', draw_boot_tile demo_assets 4 2 20 a_boot true (fb_new 32 16) = Ok fb' /\ sized 32 16 fb' /\
    forall c r, 0 <= c < 32 -> 0 <= r < 16 -> 4 <= c < 4 + 20 -> 2 <= r < 2 + 2 -> (pixel fb' c r = Some ACCENT_COLOR <-> true = true).
Proof.
  apply (selected_tile_marked 32 16 demo_assets 4 2 20 a_boot true (fb_new 32 16)); try lia; [exact demo_assets_ok|apply demo_entry_ok; auto|].
  apply fb_new_sized; lia.
Defined.

Lemma truncated_label_fits_witness : len (truncate_to_fit (lit "Fedora Linux 42 (Workstation Edition)") 200 Small) * 8 <= 200.
Proof. apply (truncated_label_fits (lit "Fedora Linux 42 (Workstation Edition)") 200 Small); [simpl; lia|repeat constructor]. Defined.
