(* ===== verification/Console.v ===== *)
(** * The text menu on the console (console.rs)

    What the menu of [Menu] prints, and when: the loop prints the whole menu
    again after Up and Down and every tenth idle round of the countdown. *)
From S2P Require Import Prelude RustStr BlsParse BootTypes Policy Menu.
Local Open Scope Z_scope.

Section text.
Context (version target : list Z) (notice : option (list Z)) (entries : list BootEntry) (p : Policy).

Definition marker (on : bool) : list Z := if on then lit ">" else lit " ".

Definition status_mark (e : BootEntry) : list Z :=
  match pf_status <$> be_preflight e with
  | Some PfWarning => lit " [!]"
  | Some PfError => lit " [X]"
  | _ => []
  end.

Definition entry_line (selected : nat) (i : nat) (e : BootEntry) : list Z :=
  lit " " ++ marker (i =? selected)%nat ++ lit " " ++ fmt_dec (Z.of_nat i) ++ lit ") " ++ be_name e ++ status_mark e.

(** The lines on the cleared screen. *)
Definition text_draw_menu (selected : nat) (timeout_remaining : option Z) : list (list Z) :=
  [lit "=== LamBoot v" ++ version ++ lit " (" ++ target ++ lit ") ==="; []] ++
  match notice with Some n => [lit "[!] " ++ n; []] | None => [] end ++
  match entries with
  | [] => [lit "  No bootable entries found."; lit "  LamBoot searched: BLS entries, UKIs, Windows, GRUB, rEFInd"; []]
  | _ => imap (entry_line selected) entries
  end ++
  [[]; lit "--- System Actions ---";
   lit " " ++ marker (selected =? length entries)%nat ++ lit " F2) Reboot to Firmware Setup";
   lit " " ++ marker (selected =? length entries + 1)%nat ++ lit " F12) Reboot"; []] ++
  [match timeout_remaining with
   | Some secs => lit "Auto-boot in " ++ fmt_dec secs ++ lit "s... Press any key to stop."
   | None => lit "Up/Down: Navigate  Enter: Select  F2: Firmware  F12: Reboot"
   end].

(** The part of a round before the poll prints the countdown. *)
Definition print_countdown (t : TextMenu) (shown : list (list Z)) : list (list Z) :=
  let timeout := menu_timeout entries p in
  if negb (tm_interacted t) && (0 <? timeout) then
    let elapsed := wrap 32 (tm_frames t * 100) in
    let remaining := (timeout - Z.min elapsed timeout) / 1000 in
    if tm_frames t mod 10 =? 0 then text_draw_menu (tm_selected t) (Some remaining) else shown
  else shown.

(** Up and Down print the menu. *)
Definition print_event (ev : InputEvent) (t' : TextMenu) (shown : list (list Z)) : list (list Z) :=
  match ev with
  | KeyPress KeyUp | KeyPress KeyDown => text_draw_menu (tm_selected t') None
  | _ => shown
  end.

(** Every time the loop polls for input: the state and what the console shows. *)
Fixpoint text_polls (t : TextMenu) (shown : list (list Z)) (evs : list InputEvent) : list (TextMenu * list (list Z)) :=
  match text_auto entries p t with
  | (Some _, _) => []
  | (None, t) =>
      let shown := print_countdown t shown in
      (t, shown) ::
      match evs with
      | [] => []
      | ev :: rest =>
          match text_event entries ev t with
          | inl _ => []
          | inr t' => text_polls t' (print_event ev t' shown) rest
          end
      end
  end.

Definition text_run : list InputEvent -> list (TextMenu * list (list Z)) := text_polls text_new (text_draw_menu 0 None).

(** ** The console shows the selection *)
Lemma text_event_selected (ev : InputEvent) (t t' : TextMenu) :
  text_event entries ev t = inr t' ->
  tm_selected t' = tm_selected t \/ ev = KeyPress KeyUp \/ ev = KeyPress KeyDown.
Proof.
  destruct ev as [k| | |]; cbn [text_event]; try (intros [= <-]; auto).
  destruct k; cbn [text_key]; auto; try (intros [= <-]; auto); repeat case_match; intros; simplify_eq/=; auto.
Qed.

Lemma text_event_interacted (ev : InputEvent) (t t' : TextMenu) :
  text_event entries ev t = inr t' ->
  (ev = NoEvent /\ tm_interacted t' = tm_interacted t /\ tm_frames t' = wrap 32 (tm_frames t + 1)) \/
  (tm_interacted t' = true) \/ t' = t.
Proof.
  destruct ev as [k| | |]; cbn [text_event]; try (intros [= <-]; auto).
  destruct k; cbn [text_key]; auto; try (intros [= <-]; auto); repeat case_match; intros; simplify_eq/=; auto.
Qed.

(** Before the first key the selection is the first entry. *)
Definition untouched (t : TextMenu) : Prop := tm_interacted t = false -> tm_selected t = 0%nat.

Lemma text_auto_none (t t' : TextMenu) : untouched t -> text_auto entries p t = (None, t') -> t' = t.
Proof.
  intros Hu. unfold text_auto. destruct (tm_interacted t) eqn:Ei; [by intros [= <-]|]. cbn [negb andb].
  destruct (0 <? menu_timeout entries p); [|by intros [= <-]].
  destruct ((_ <=? _) && has_bootable entries) eqn:E; [|by intros [= <-]]. apply andb_true_iff in E as [_ Hb].
  destruct (text_default_some entries p Hb) as [e He]. revert He. unfold text_default.
  destruct (select_default_entry _ _ _) as [o| |]; try done. cbn [tm_selected]. rewrite (Hu Ei). by intros ->.
Qed.

Lemma text_event_untouched (ev : InputEvent) (t t' : TextMenu) :
  untouched t -> text_event entries ev t = inr t' -> untouched t'.
Proof.
  intros Hu He. pose proof (text_event_selected ev t t' He) as Hs. pose proof (text_event_interacted ev t t' He) as Hi.
  intros Hn. destruct Hi as [(-> & Hi & _)|[Hi| ->]]; [|congruence|by apply Hu].
  destruct Hs as [->|[|]]; [|done|done]. apply Hu. congruence.
Qed.

Lemma text_polls_shown (evs : list InputEvent) (t : TextMenu) (shown : list (list Z)) :
  untouched t -> (exists rem, shown = text_draw_menu (tm_selected t) rem) ->
  Forall (fun ts => exists rem, ts.2 = text_draw_menu (tm_selected ts.1) rem) (text_polls t shown evs).
Proof.
  revert t shown. induction evs as [|ev evs IH]; intros t shown Hu Hs; cbn [text_polls];
    (destruct (text_auto entries p t) as [[r|] t1] eqn:Ea; [constructor|]); apply text_auto_none in Ea as ->; try done;
    (assert (exists rem, print_countdown t shown = text_draw_menu (tm_selected t) rem) as Hs'
       by (unfold print_countdown; repeat case_match; eauto)); (apply Forall_cons_2; [done|]); [constructor|].
  destruct (text_event entries ev t) as [r|t'] eqn:Ee; [constructor|]. apply IH; [by eapply text_event_untouched|].
  apply text_event_selected in Ee as [E|[-> | ->]]; cbn [print_event]; [|eauto|eauto].
  destruct ev as [[]| | |]; cbn [print_event]; first [by eauto|by rewrite E].
Qed.

(** *** The countdown *)
#[local] Notation timeout := (menu_timeout entries p).

(** The state of a menu nobody has touched. *)
Definition waiting (t : TextMenu) : Prop :=
  tm_interacted t = false /\ tm_selected t = 0%nat /\ 0 <= tm_frames t /\ 100 * tm_frames t < timeout + 100.

Definition countdown_screen (n : Z) : list (list Z) := text_draw_menu 0 (Some (timeout / 1000 - n / 10)).

Lemma text_auto_waits (t t' : TextMenu) :
  0 < timeout <= u32_max - 99 -> waiting t -> text_auto entries p t = (None, t') -> t' = t /\ 100 * tm_frames t < timeout.
Proof.
  intros Ht (Hi & Hs & H0 & Hk) Ea. assert (has_bootable entries = true) as Hb.
  { unfold menu_timeout in Ht. destruct (has_bootable entries); [done|lia]. }
  pose proof (menu_timeout_bootable entries p Hb) as Et. rewrite Et in *.
  split; [apply text_auto_none in Ea; [done|intros _; done]|].
  destruct (text_auto_unattended entries p Hb Ht t Hs Hi H0 Hk) as [t1 E1]. rewrite Ea in E1.
  destruct (text_default_some entries p Hb) as [e He]. rewrite He in E1. destruct (Z.leb_spec (default_timeout_ms p) (100 * tm_frames t)); [done|lia].
Qed.

Lemma print_countdown_waiting (t : TextMenu) (shown : list (list Z)) :
  0 < timeout <= u32_max - 99 -> waiting t -> 100 * tm_frames t < timeout ->
  (tm_frames t mod 10 <> 0 -> shown = countdown_screen (tm_frames t)) -> print_countdown t shown = countdown_screen (tm_frames t).
Proof.
  unfold u32_max. intros Ht (Hi & Hs & H0 & _) Hlt Hsh. unfold print_countdown. rewrite Hi, (proj2 (Z.ltb_lt 0 _)) by lia. cbn [negb andb].
  unfold wrap. rewrite (Z.mod_small (_ * 100)) by lia. destruct (Z.eqb_spec (tm_frames t mod 10) 0) as [Hz|Hz]; [|by apply Hsh].
  rewrite Hs, Z.min_l by lia. unfold countdown_screen. do 2 f_equal. pose proof (Z.div_mod (tm_frames t) 10 ltac:(lia)).
  replace (timeout - tm_frames t * 100) with (timeout + - (tm_frames t / 10) * 1000) by lia. rewrite Z.div_add by lia. lia.
Qed.

Lemma next_frame (n : Z) : 0 <= n -> (n + 1) mod 10 <> 0 -> (n + 1) / 10 = n / 10.
Proof.
  intros Hn Hm. pose proof (Z.div_mod (n + 1) 10 ltac:(lia)). pose proof (Z.mod_pos_bound (n + 1) 10 ltac:(lia)).
  apply (Z.div_unique n 10 ((n + 1) / 10) ((n + 1) mod 10 - 1)); lia.
Qed.

Lemma text_polls_countdown (evs : list InputEvent) (t : TextMenu) (shown : list (list Z)) :
  0 < timeout <= u32_max - 99 -> Forall no_key evs -> waiting t ->
  (tm_frames t mod 10 <> 0 -> shown = countdown_screen (tm_frames t)) ->
  Forall (fun ts => ts.2 = countdown_screen (tm_frames ts.1)) (text_polls t shown evs).
Proof.
  intros Ht Hev. revert t shown. induction Hev as [|ev evs Hno _ IH]; intros t shown Hw Hsh; cbn [text_polls];
    (destruct (text_auto entries p t) as [[r|] t1] eqn:Ea; [constructor|]); apply text_auto_waits in Ea as [-> Hlt]; try done;
    rewrite print_countdown_waiting by done; (apply Forall_cons_2; [done|]); [constructor|].
  destruct ev as [k|x y|x y b|]; [done|apply IH; done|apply IH; done|]. cbn [text_event print_event].
  destruct Hw as (Hi & Hs & H0 & Hk). unfold u32_max in Ht. rewrite wrap32_small by lia. apply IH.
  - unfold waiting. simpl. split_and!; [done|done|lia|lia].
  - cbn [tm_frames]. intros Hm. unfold countdown_screen. by rewrite next_frame.
Qed.
End text.

(** Whenever the text menu waits for input, the console shows the menu with the
    marker at the current selection. *)
Theorem console_shows_selection (version target : list Z) (notice : option (list Z)) (entries : list BootEntry) (p : Policy) (evs : list InputEvent) :
  Forall (fun ts => exists rem, ts.2 = text_draw_menu version target notice entries (tm_selected ts.1) rem)
    (text_run version target notice entries p evs).
Proof. apply text_polls_shown; [done|eauto]. Qed.

(** Until a key is pressed the console shows the whole seconds that are left: the
    timeout's seconds less one for every ten idle rounds of a tenth of a second. *)
Theorem console_counts_down (version target : list Z) (notice : option (list Z)) (entries : list BootEntry) (p : Policy) (evs : list InputEvent) :
  0 < menu_timeout entries p <= u32_max - 99 -> Forall no_key evs ->
  Forall (fun ts => ts.2 = text_draw_menu version target notice entries 0 (Some (menu_timeout entries p / 1000 - tm_frames ts.1 / 10)))
    (text_run version target notice entries p evs).
Proof.
  intros Ht Hev. apply (text_polls_countdown version target notice entries p evs text_new); [done|done| |done].
  unfold waiting. simpl. split_and!; [done|done|lia|lia].
Qed.

(** The digit of a printed line boots the entry of that line. *)
Theorem digit_boots_line (version target : list Z) (notice : option (list Z)) (entries : list BootEntry) (p : Policy) (t : TextMenu) (i : nat) (e : BootEntry) :
  (i < 10)%nat -> entries !! i = Some e ->
  text_key entries (KeyChar (48 + Z.of_nat i)) t = inl (Selected e) /\
  entry_line (tm_selected t) i e ∈ text_draw_menu version target notice entries (tm_selected t) None /\
  exists pre, entry_line (tm_selected t) i e = pre ++ [48 + Z.of_nat i] ++ lit ") " ++ be_name e ++ status_mark e.
Proof.
  intros Hi He. split_and!.
  - cbn [text_key]. rewrite (proj2 (Z.eqb_neq _ 13)) by lia. rewrite (proj2 (Z.leb_le _ _)), (proj2 (Z.leb_le _ 57)) by lia. cbn [andb].
    replace (Z.to_nat (48 + Z.of_nat i - 48)) with i by lia. by rewrite He.
  - unfold text_draw_menu. rewrite !elem_of_app. do 2 right. left. destruct entries as [|e0 es]; [done|].
    apply list_elem_of_lookup. exists i. rewrite list_lookup_imap, He. done.
  - exists (lit " " ++ marker (i =? tm_selected t)%nat ++ lit " "). unfold entry_line. rewrite <- !app_assoc. do 3 f_equal.
    do 10 (destruct i as [|i]; [reflexivity|]). lia.
Qed.

(** A key that does not move the selection stops the countdown, but the console
    goes on saying that it runs: here after Escape and a minute of waiting. *)
Definition text_entry : BootEntry := mkBoot (lit "arch") (lit "Arch Linux") (Chainload (lit "\a.efi")) IconLinux None None 0 (lit "fat").

Theorem stopped_countdown_shown :
  let evs := KeyPress KeyEscape :: replicate 600 NoEvent in
  0 < menu_timeout [text_entry] default_policy /\
  exists t, last (text_run (lit "1") (lit "x86_64") None [text_entry] default_policy evs) =
    Some (t, text_draw_menu (lit "1") (lit "x86_64") None [text_entry] 0 (Some (menu_timeout [text_entry] default_policy / 1000))) /\
    tm_interacted t = true.
Proof. vm_compute. split; [reflexivity|]. eexists. split; reflexivity. Qed.

Lemma console_counts_down_witness :
  Forall (fun ts => ts.2 = text_draw_menu (lit "1") (lit "x86_64") None [text_entry] 0
      (Some (menu_timeout [text_entry] default_policy / 1000 - tm_frames ts.1 / 10)))
    (text_run (lit "1") (lit "x86_64") None [text_entry] default_policy [NoEvent; NoEvent; MouseMove 3 4; NoEvent]).
Proof.
  apply (console_counts_down (lit "1") (lit "x86_64") None [text_entry] default_policy [NoEvent; NoEvent; MouseMove 3 4; NoEvent]).
  - vm_compute. split; [reflexivity|discriminate].
  - repeat constructor.
Defined.

Lemma digit_boots_line_witness :
  text_key [text_entry] (KeyChar (48 + Z.of_nat 0)) text_new = inl (Selected text_entry).
Proof. apply (digit_boots_line (lit "1") (lit "x86_64") None [text_entry] default_policy text_new 0 text_entry); [lia|reflexivity]. Defined.
