(* ===== verification/InputInit.v ===== *)
(** * Finding the input devices (input.rs: [InputManager::new], [find_usb_tablet], [wait_for_key])

    The handle database and the USB devices are the firmware's: the class
    [InputFw].  Opening a USB device exclusively and connecting a controller may
    change what is there, so that every call passes the state on. *)
From S2P Require Import Prelude BootTypes Policy Menu.
Local Open Scope Z_scope.

Inductive InputProtocol : Type := ProtoUsbIo | ProtoTextInput | ProtoSimplePointer | ProtoAbsolutePointer.

Record UsbInterface : Type := mkIface { ui_class : Z; ui_subclass : Z; ui_num_endpoints : Z }.
Record UsbEndpoint : Type := mkEndpoint { ue_attributes : Z; ue_address : Z }.
Record UsbDevice : Type := mkUsb { ud_interface : option UsbInterface; ud_endpoint : Z -> option UsbEndpoint }.

Class InputFw (Fw : Type) := {
  in_handles : InputProtocol -> Fw -> option (list Z);      (* [find_handles] *)
  in_open_usb : Z -> Fw -> option UsbDevice * Fw;           (* [open_protocol_exclusive::<UsbIo>] *)
  in_connect : Z -> Fw -> Fw;                               (* [connect_controller], recursively *)
  in_reset : InputProtocol -> Z -> Fw -> Fw                 (* open and [reset], where it opens *)
}.

Definition USB_CLASS_HID : Z := 3.
Definition USB_SUBCLASS_BOOT : Z := 1.

(** The first interrupt IN endpoint, without its direction bit. *)
Fixpoint interrupt_in (d : UsbDevice) (eps : list Z) : option Z :=
  match eps with
  | [] => None
  | i :: rest =>
      match ud_endpoint d i with
      | None => interrupt_in d rest
      | Some ep =>
          if (Z.land (ue_attributes ep) 0x03 =? 0x03) && negb (Z.land (ue_address ep) 0x80 =? 0)
          then Some (Z.land (ue_address ep) 0x0F)
          else interrupt_in d rest
      end
  end.

(** The endpoint of a device that is taken for a tablet. *)
Definition tablet_endpoint (d : UsbDevice) : option Z :=
  match ud_interface d with
  | None => None
  | Some iface =>
      if negb (ui_class iface =? USB_CLASS_HID) then None
      else if ui_subclass iface =? USB_SUBCLASS_BOOT then None
      else interrupt_in d (seqZ 0 (ui_num_endpoints iface))
  end.

Section fw.
Context {Fw : Type} `{InputFw Fw}.

Fixpoint tablet_loop (handles : list Z) (fw : Fw) : option Z * Z * Fw :=
  match handles with
  | [] => (None, 0, fw)
  | handle :: rest =>
      let '(o, fw) := in_open_usb handle fw in
      match o ≫= tablet_endpoint with
      | Some endpoint => (Some handle, endpoint, fw)
      | None => tablet_loop rest fw
      end
  end.

Definition find_usb_tablet (fw : Fw) : option Z * Z * Fw :=
  match in_handles ProtoUsbIo fw with
  | Some handles => tablet_loop handles fw
  | None => (None, 0, fw)
  end.

Definition connect_all (handles : list Z) (fw : Fw) : Fw := fold_left (fun fw h => in_connect h fw) handles fw.
Definition reset_all (proto : InputProtocol) (handles : list Z) (fw : Fw) : Fw := fold_left (fun fw h => in_reset proto h fw) handles fw.

(** The devices that are polled, beside the pointer's state. *)
Record InputHandles : Type := mkHandles {
  ih_tablet : option Z; ih_endpoint : Z; ih_keyboards : list Z; ih_pointers : list Z; ih_absolute : list Z
}.

Definition input_new (screen_width screen_height : Z) (fw : Fw) : InputManager * InputHandles * Fw :=
  let '(tablet, endpoint, fw) := find_usb_tablet fw in
  let fw := match in_handles ProtoUsbIo fw with Some hs => connect_all hs fw | None => fw end in
  let keyboards := default [] (in_handles ProtoTextInput fw) in
  let pointers := default [] (in_handles ProtoSimplePointer fw) in
  let absolute := default [] (in_handles ProtoAbsolutePointer fw) in
  let fw := connect_all (keyboards ++ pointers ++ absolute) fw in
  let fw := reset_all ProtoSimplePointer pointers fw in
  let fw := reset_all ProtoAbsolutePointer absolute fw in
  (mkInput (wrap_i32 (screen_width / 2)) (wrap_i32 (screen_height / 2)) false (wrap_i32 screen_width) (wrap_i32 screen_height)
     (bool_decide (is_Some tablet)),
   mkHandles tablet endpoint keyboards pointers absolute, fw).

(** [wait_for_key], over what the devices answer at successive polls. *)
Fixpoint wait_for_menu_key (ds : list Devices) (im : InputManager) : option (Key * InputManager * list Devices) :=
  match ds with
  | [] => None
  | d :: rest =>
      match poll d im with
      | (KeyPress k, im) => Some (k, im, rest)
      | (_, im) => wait_for_menu_key rest im
      end
  end.

(** ** What is found *)

(** An interrupt IN endpoint and its number. *)
Definition interrupt_endpoint (d : UsbDevice) (i ep : Z) : Prop :=
  exists e, ud_endpoint d i = Some e /\ Z.land (ue_attributes e) 0x03 = 0x03 /\ Z.land (ue_address e) 0x80 <> 0 /\ ep = Z.land (ue_address e) 0x0F.

Lemma interrupt_in_spec (d : UsbDevice) (eps : list Z) (ep : Z) :
  interrupt_in d eps = Some ep <->
  exists pre i post, eps = pre ++ i :: post /\ interrupt_endpoint d i ep /\ Forall (fun j => forall ep', ~ interrupt_endpoint d j ep') pre.
Proof.
  induction eps as [|x eps IH]; cbn [interrupt_in].
  { split; [done|]. intros (pre & i & post & E & _). by destruct pre. }
  assert ((exists ep', interrupt_endpoint d x ep') \/ forall ep', ~ interrupt_endpoint d x ep') as Hdec.
  { unfold interrupt_endpoint. destruct (ud_endpoint d x) as [e|]; [|right; naive_solver].
    destruct (decide (Z.land (ue_attributes e) 3 = 3)); [|right; naive_solver].
    destruct (decide (Z.land (ue_address e) 128 = 0)); [right; naive_solver|left; eauto 8]. }
  destruct Hdec as [[ep' Hx]|Hx].
  - pose proof Hx as (e & He & Ha & Hb & Hep). rewrite He, Ha, (proj2 (Z.eqb_neq _ 0)) by done. cbn [andb negb Z.eqb]. rewrite Z.eqb_refl. cbn [andb].
    split.
    + intros [= <-]. exists [], x, eps. split_and!; [done|by exists e|constructor].
    + intros (pre & i & post & E & (e' & He' & _ & _ & ->) & Hpre). destruct pre as [|y pre]; [injection E as <- <-; congruence|].
      injection E as <- ->. apply Forall_cons in Hpre as [Hy _]. by destruct (Hy ep').
  - assert (match ud_endpoint d x with
            | Some e => if (Z.land (ue_attributes e) 3 =? 3) && negb (Z.land (ue_address e) 128 =? 0) then Some (Z.land (ue_address e) 15) else interrupt_in d eps
            | None => interrupt_in d eps
            end = interrupt_in d eps) as ->.
    { destruct (ud_endpoint d x) as [e|] eqn:He; [|done]. destruct (_ && _) eqn:Em; [|done].
      apply andb_true_iff in Em as [H1%Z.eqb_eq H2%negb_true_iff%Z.eqb_neq]. destruct (Hx (Z.land (ue_address e) 15)). by exists e. }
    rewrite IH. split.
    + intros (pre & i & post & -> & Hi & Hpre). exists (x :: pre), i, post. split_and!; [done|done|by constructor].
    + intros (pre & i & post & E & Hi & Hpre). destruct pre as [|y pre]; [injection E as <- <-; by destruct (Hx ep)|].
      injection E as <- ->. apply Forall_cons in Hpre as [_ Hpre]. eauto 8.
Qed.

(** Only a HID device that does not use the boot protocol is taken for a tablet,
    through its first interrupt IN endpoint. *)
Theorem tablet_endpoint_correct (d : UsbDevice) (ep : Z) :
  tablet_endpoint d = Some ep <->
  exists iface, ud_interface d = Some iface /\ ui_class iface = USB_CLASS_HID /\ ui_subclass iface <> USB_SUBCLASS_BOOT /\
  exists pre i post, seqZ 0 (ui_num_endpoints iface) = pre ++ i :: post /\ interrupt_endpoint d i ep /\
    Forall (fun j => forall ep', ~ interrupt_endpoint d j ep') pre.
Proof.
  unfold tablet_endpoint. destruct (ud_interface d) as [iface|]; [|naive_solver].
  destruct (Z.eqb_spec (ui_class iface) USB_CLASS_HID) as [Hc|Hc]; cbn [negb]; [|naive_solver].
  destruct (Z.eqb_spec (ui_subclass iface) USB_SUBCLASS_BOOT) as [Hs|Hs]; [naive_solver|]. rewrite interrupt_in_spec. naive_solver.
Qed.

(** The tablet is the first device of the list that opens and is one. *)
Lemma tablet_loop_some (handles : list Z) (fw fw' : Fw) (h ep : Z) :
  tablet_loop handles fw = (Some h, ep, fw') ->
  h ∈ handles /\ exists fw1 d, in_open_usb h fw1 = (Some d, fw') /\ tablet_endpoint d = Some ep.
Proof.
  revert fw. induction handles as [|x handles IH]; intros fw; cbn [tablet_loop]; [done|].
  destruct (in_open_usb x fw) as [o fw1] eqn:Eo. destruct (o ≫= tablet_endpoint) as [e|] eqn:Et.
  - intros [= -> -> ->]. split; [by left|]. destruct o as [d|]; [|done]. eauto.
  - intros H'. apply IH in H' as (Hin & Hd). split; [by right|done].
Qed.

(** A new manager polls the devices that are there after every USB device has
    been connected, starts with the pointer on the screen, and has a tablet only
    if one was opened and recognised. *)
Theorem input_new_correct (screen_width screen_height : Z) (fw : Fw) :
  0 < screen_width < 2 ^ 31 -> 0 < screen_height < 2 ^ 31 ->
  let '(im, hs, _) := input_new screen_width screen_height fw in
  on_screen im /\ im_button_down im = false /\
  (im_tablet im = true <-> is_Some (ih_tablet hs)) /\
  (forall h, ih_tablet hs = Some h -> exists fw1 fw2 d, in_open_usb h fw1 = (Some d, fw2) /\ tablet_endpoint d = Some (ih_endpoint hs)) /\
  exists fw1 fw2, fw2 = match in_handles ProtoUsbIo fw1 with Some l => connect_all l fw1 | None => fw1 end /\
    ih_keyboards hs = default [] (in_handles ProtoTextInput fw2) /\ ih_pointers hs = default [] (in_handles ProtoSimplePointer fw2) /\
    ih_absolute hs = default [] (in_handles ProtoAbsolutePointer fw2).
Proof.
  intros Hw Hh. unfold input_new. destruct (find_usb_tablet fw) as [[tablet ep] fw1] eqn:Ef.
  assert (forall z, 0 < z < 2 ^ 31 -> wrap_i32 z = z /\ wrap_i32 (z / 2) = z / 2 /\ 0 <= z / 2 < z) as Hsmall.
  { intros z Hz. assert (0 <= z / 2 < z) by (split; [apply Z.div_pos; lia|apply Z.div_lt; lia]). unfold wrap_i32. rewrite !Z.mod_small by lia. lia. }
  destruct (Hsmall screen_width Hw) as (Ew & Ew2 & ?), (Hsmall screen_height Hh) as (Eh & Eh2 & ?).
  split_and!.
  - unfold on_screen. cbn. rewrite Ew, Ew2, Eh, Eh2. lia.
  - done.
  - cbn. by rewrite bool_decide_eq_true.
  - cbn. intros h ->. unfold find_usb_tablet in Ef. destruct (in_handles ProtoUsbIo fw) as [l|]; [|done].
    apply tablet_loop_some in Ef as (_ & fw0 & d & Ho & Ht). eauto.
  - exists fw1. eexists. split; [reflexivity|]. done.
Qed.

(** Waiting for a key passes over the pointer's events and ends with the first key. *)
Theorem wait_for_key_first (ds : list Devices) (im : InputManager) (k : Key) (im' : InputManager) (rest : list Devices) :
  wait_for_menu_key ds im = Some (k, im', rest) <->
  exists skipped d im1, ds = skipped ++ d :: rest /\ poll d im1 = (KeyPress k, im') /\
    im1 = fold_left (fun im d => (poll d im).2) skipped im /\
    forall i x, skipped !! i = Some x -> forall key, (poll x (fold_left (fun im d => (poll d im).2) (take i skipped) im)).1 <> KeyPress key.
Proof.
  revert im. induction ds as [|d ds IH]; intros im; cbn [wait_for_menu_key].
  { split; [done|]. intros (sk & d & im1 & E & _). by destruct sk. }
  destruct (poll d im) as [ev im1] eqn:Ep.
  assert ((exists key, ev = KeyPress key) \/ (forall key, ev <> KeyPress key)) as [[key ->]|Hno] by (destruct ev; eauto).
  - split.
    + intros [= -> -> ->]. exists [], d, im. split_and!; [done|done|done|]. intros i x Hx. by rewrite lookup_nil in Hx.
    + intros (sk & d' & im2 & E & Hp & -> & Hsk). destruct sk as [|x sk].
      * injection E as -> ->. cbn [fold_left] in Hp. rewrite Ep in Hp. by injection Hp as -> ->.
      * injection E as <- ->. specialize (Hsk 0%nat d eq_refl key). cbn [take fold_left] in Hsk. by rewrite Ep in Hsk.
  - assert (match ev with KeyPress k => Some (k, im1, ds) | _ => wait_for_menu_key ds im1 end = wait_for_menu_key ds im1) as ->
      by (destruct ev; [by destruct (Hno k0)|done..]).
    rewrite IH. split.
    + intros (sk & d' & im2 & -> & Hp & -> & Hsk). exists (d :: sk), d', (fold_left (fun im d => (poll d im).2) sk im1).
      split_and!; [done|done|cbn [fold_left]; by rewrite Ep|]. intros [|i] x Hx; cbn [take fold_left] in *.
      * injection Hx as <-. rewrite Ep. apply Hno.
      * rewrite Ep. by apply Hsk.
    + intros (sk & d' & im2 & E & Hp & -> & Hsk). destruct sk as [|x sk].
      * injection E as -> ->. cbn [fold_left] in Hp. rewrite Ep in Hp. injection Hp as -> _. by destruct (Hno k).
      * injection E as <- ->. exists sk, d', (fold_left (fun im d => (poll d im).2) sk im1). cbn [fold_left] in Hp. rewrite Ep in Hp.
        split_and!; [done|done|done|]. intros i y Hy key. specialize (Hsk (S i) y Hy key). cbn [take fold_left] in Hsk. by rewrite Ep in Hsk.
Qed.
End fw.

(** ** A firmware *)

(** Handles with the USB device behind them; connecting 7 brings the keyboard 20. *)
Record DemoFw : Type := mkDemo { df_connected : list Z }.

Definition demo_tablet : UsbDevice := mkUsb (Some (mkIface 3 0 1)) (fun i => if i =? 0 then Some (mkEndpoint 3 0x81) else None).

#[export] Instance demo_input : InputFw DemoFw := {
  in_handles proto fw :=
    match proto with
    | ProtoUsbIo => Some [7; 8]
    | ProtoTextInput => if bool_decide (7 ∈ df_connected fw) then Some ([20] ++ (if bool_decide (20 ∈ df_connected fw) then [21] else [])) else None
    | _ => None
    end;
  in_open_usb h fw := (if h =? 8 then Some demo_tablet else None, fw);
  in_connect h fw := mkDemo (h :: df_connected fw);
  in_reset _ _ fw := fw
}.

Lemma input_new_correct_witness :
  let '(im, hs, _) := input_new 800 600 (mkDemo []) in
  on_screen im /\ ih_tablet hs = Some 8 /\ ih_endpoint hs = 1 /\ ih_keyboards hs = [20].
Proof.
  pose proof (input_new_correct 800 600 (mkDemo []) ltac:(lia) ltac:(lia)) as Hn.
  destruct (input_new 800 600 (mkDemo [])) as [[im hs] fw] eqn:E. destruct Hn as (Hs & _). split; [exact Hs|].
  vm_compute in E. injection E as <- <- <-. repeat split.
Defined.

(** A device that only appears when the input devices themselves are connected,
    the second round of connecting, is not polled: the lists are made before. *)
Theorem late_keyboard_not_polled :
  let '(_, hs, fw) := input_new 800 600 (mkDemo []) in
  in_handles ProtoTextInput fw = Some [20; 21] /\ ih_keyboards hs = [20].
Proof. vm_compute. split; reflexivity. Qed.
