(* ===== verification/HostMirror.v ===== *)
(** * The mirrors of the host test crate (lamboot-fs-tests: cache.rs, mock.rs)

    The tests that run on a host use a copy of the volume cache and an in-memory
    filesystem.  The copy is translated on its own, from its own file, and
    proved to simulate the cache of the boot loader; the filesystem is proved to
    keep the contract the tests rely on. *)
From S2P Require Import Prelude Compare RustStr FsTypes SecurityOverride VolumeFs.
Local Open Scope Z_scope.

(** ** cache.rs *)
Record MirrorKey : Type := mkMKey { mkey_path : list Z; mkey_offset : Z; mkey_length : Z }.

#[export] Instance MirrorKey_eq_dec : EqDecision MirrorKey.
Proof. solve_decision. Defined.

Definition mirror_full_read (p : list Z) : MirrorKey := mkMKey p 0 usize_max.
Definition mirror_range (p : list Z) (o n : Z) : MirrorKey := mkMKey p o n.

Record MirrorEntry : Type := mkMEntry { me_key : MirrorKey; me_data : list Z }.

(** [entries] from the front to the back of the deque. *)
Record MirrorCache : Type := mkMirror { mc_entries : list MirrorEntry; mc_used_bytes : Z; mc_limit_bytes : Z }.

Definition mirror_with_limit (limit : Z) : MirrorCache := mkMirror [] 0 limit.
Definition mirror_new : MirrorCache := mirror_with_limit CACHE_BYTES_LIMIT.
Definition mirror_len (c : MirrorCache) : Z := len (mc_entries c).
Definition mirror_is_empty (c : MirrorCache) : bool := bool_decide (mc_entries c = []).

(** [iter().position(|e| e.key == *key)] *)
Fixpoint mirror_position (k : MirrorKey) (es : list MirrorEntry) : option nat :=
  match es with
  | [] => None
  | e :: rest => if decide (me_key e = k) then Some O else S <$> mirror_position k rest
  end.

Definition mirror_get (k : MirrorKey) (c : MirrorCache) : option (list Z * MirrorCache) :=
  pos ← mirror_position k (mc_entries c);
  e ← mc_entries c !! pos;
  Some (me_data e, mkMirror (e :: delete pos (mc_entries c)) (mc_used_bytes c) (mc_limit_bytes c)).

Definition pop_back (es : list MirrorEntry) : option (MirrorEntry * list MirrorEntry) :=
  match rev es with [] => None | e :: rest => Some (e, rev rest) end.

(** [while used + data_len > limit]: each round takes an entry away or leaves. *)
Fixpoint make_room (fuel : nat) (n limit used : Z) (es : list MirrorEntry) : list MirrorEntry * Z :=
  match fuel with
  | O => (es, used)
  | S fuel' =>
      if limit <? used + n then
        match pop_back es with
        | Some (e, rest) => make_room fuel' n limit (Z.max 0 (used - len (me_data e))) rest
        | None => (es, used)
        end
      else (es, used)
  end.

Definition mirror_insert_arc (k : MirrorKey) (d : list Z) (c : MirrorCache) : MirrorCache :=
  let data_len := len d in
  if mc_limit_bytes c <? data_len then c
  else
    let '(es, used) := make_room (S (List.length (mc_entries c))) data_len (mc_limit_bytes c) (mc_used_bytes c) (mc_entries c) in
    mkMirror (mkMEntry k d :: es) (used + data_len) (mc_limit_bytes c).

Definition mirror_insert (k : MirrorKey) (d : list Z) (c : MirrorCache) : MirrorCache := mirror_insert_arc k d c.

(** [retain] with the count of the freed bytes. *)
Fixpoint mirror_retain (p : list Z) (freed : Z) (es : list MirrorEntry) : list MirrorEntry * Z :=
  match es with
  | [] => ([], freed)
  | e :: rest =>
      if decide (mkey_path (me_key e) = p) then mirror_retain p (freed + len (me_data e)) rest
      else let '(kept, f) := mirror_retain p freed rest in (e :: kept, f)
  end.

Definition mirror_invalidate_path (p : list Z) (c : MirrorCache) : MirrorCache :=
  let '(es, freed) := mirror_retain p 0 (mc_entries c) in
  mkMirror es (Z.max 0 (mc_used_bytes c - freed)) (mc_limit_bytes c).

(** ** mock.rs *)
Inductive MockError : Type :=
  | MockNotFound
  | MockIsDirectory
  | MockNotDirectory
  | MockInvalidPath
  | MockUnsupported (what : string)
  | InjectedFailure (what : string).

Inductive Node : Type := NodeFile (bytes : list Z) | NodeDirectory.

(** A [BTreeMap] over strings: its entries in the order of the keys. *)
Section btree.
Context {A : Type}.

Fixpoint bt_get (k : list Z) (m : list (list Z * A)) : option A :=
  match m with
  | [] => None
  | (q, a) :: rest => match str_cmp k q with Eq => Some a | Lt => None | Gt => bt_get k rest end
  end.

Fixpoint bt_insert (k : list Z) (a : A) (m : list (list Z * A)) : list (list Z * A) :=
  match m with
  | [] => [(k, a)]
  | (q, b) :: rest =>
      match str_cmp k q with
      | Eq => (q, a) :: rest
      | Lt => (k, a) :: m
      | Gt => (q, b) :: bt_insert k a rest
      end
  end.

(** [entry(k).or_insert(a)] *)
Definition bt_or_insert (k : list Z) (a : A) (m : list (list Z * A)) : list (list Z * A) :=
  match bt_get k m with Some _ => m | None => bt_insert k a m end.
End btree.

Record MockBackend : Type := mkMock {
  mk_tag : list Z;
  mk_nodes : list (list Z * Node);
  mk_counts : list (list Z * Z);
  mk_fail_reads : bool
}.

Definition mock_new (tag : list Z) : MockBackend :=
  mkMock tag (bt_insert [c_slash] NodeDirectory []) [] false.

Definition with_nodes (m : MockBackend) (nodes : list (list Z * Node)) : MockBackend :=
  mkMock (mk_tag m) nodes (mk_counts m) (mk_fail_reads m).

(** The components of the directory part of a canonical path. *)
Definition parent_components (p : list Z) : list (list Z) :=
  match rsplit_once c_slash (drop_while (Z.eqb c_slash) p) with
  | Some (head, _) => split_char c_slash head
  | None => []
  end.

Fixpoint ensure_dirs (seg : list Z) (components : list (list Z)) (nodes : list (list Z * Node)) : list (list Z * Node) :=
  match components with
  | [] => nodes
  | component :: rest =>
      if is_empty component then ensure_dirs seg rest nodes
      else
        let seg := (if bool_decide (seg = [c_slash]) then seg else seg ++ [c_slash]) ++ component in
        ensure_dirs seg rest (bt_or_insert seg NodeDirectory nodes)
  end.

(** [expect] on the path. *)
Definition add_file (path data : list Z) (m : MockBackend) : res MockError MockBackend :=
  match path_from_str path with
  | Ok canonical =>
      Ok (with_nodes m
        (bt_insert canonical (NodeFile data) (ensure_dirs [c_slash] (parent_components canonical) (mk_nodes m))))
  | _ => Panic
  end.

Definition add_dir (path : list Z) (m : MockBackend) : res MockError MockBackend :=
  match path_from_str path with
  | Ok canonical => Ok (with_nodes m (bt_insert canonical NodeDirectory (mk_nodes m)))
  | _ => Panic
  end.

Definition inject_read_failure (fail : bool) (m : MockBackend) : MockBackend :=
  mkMock (mk_tag m) (mk_nodes m) (mk_counts m) fail.

Definition call_count (method : list Z) (m : MockBackend) : Z := default 0 (bt_get method (mk_counts m)).

(** [*entry += 1] on a u32; the tests are built with overflow checks. *)
Definition bump (method : list Z) (m : MockBackend) : option MockBackend :=
  let n := call_count method m in
  if n <? u32_max then Some (mkMock (mk_tag m) (mk_nodes m) (bt_insert method (n + 1) (mk_counts m)) (mk_fail_reads m))
  else None.

Definition counted {A : Type} (method : list Z) (k : MockBackend -> res MockError A) (m : MockBackend)
    : res MockError A * MockBackend :=
  match bump method m with
  | Some m' => (k m', m')
  | None => (Panic, m)
  end.

Definition mock_read (path : list Z) : MockBackend -> res MockError (list Z) * MockBackend :=
  counted (lit "read") (fun m =>
    if mk_fail_reads m then Err (InjectedFailure "read disabled")
    else match bt_get path (mk_nodes m) with
         | Some (NodeFile bytes) => Ok bytes
         | Some NodeDirectory => Err MockIsDirectory
         | None => Err MockNotFound
         end).

(** [off + len] is checked. *)
Definition mock_read_at (path : list Z) (offset n : Z) : MockBackend -> res MockError (list Z) * MockBackend :=
  counted (lit "read_at") (fun m =>
    if mk_fail_reads m then Err (InjectedFailure "read_at disabled")
    else match bt_get path (mk_nodes m) with
         | Some (NodeFile bytes) =>
             if len bytes <=? offset then Ok []
             else if usize_max <? offset + n then Panic
             else slice offset (Z.min (offset + n) (len bytes)) bytes
         | Some NodeDirectory => Err MockIsDirectory
         | None => Err MockNotFound
         end).

Definition mock_exists (path : list Z) : MockBackend -> res MockError bool * MockBackend :=
  counted (lit "exists") (fun m =>
    if mk_fail_reads m then Err (InjectedFailure "exists disabled")
    else Ok (bool_decide (is_Some (bt_get path (mk_nodes m))))).

Definition mock_metadata (path : list Z) : MockBackend -> res MockError Metadata * MockBackend :=
  counted (lit "metadata") (fun m =>
    match bt_get path (mk_nodes m) with
    | Some (NodeFile bytes) => Ok (mkMetadata Regular (len bytes) 420 false (mk_tag m))
    | Some NodeDirectory => Ok (mkMetadata Directory 0 493 false (mk_tag m))
    | None => Err MockNotFound
    end).

Definition entry_of (name : list Z) (node : Node) : DirEntry :=
  match node with
  | NodeFile b => mkDirEntry name Regular (len b)
  | NodeDirectory => mkDirEntry name Directory 0
  end.

(** One round of the loop over the nodes. *)
Definition child_entry (path prefix : list Z) (full_node : list Z * Node) : option DirEntry :=
  let '(full, node) := full_node in
  if bool_decide (full = path) then None
  else match strip_prefix prefix full with
       | None => None
       | Some remainder =>
           if is_empty remainder || contains_char c_slash remainder then None
           else Some (entry_of remainder node)
       end.

Definition mock_read_dir (path : list Z) : MockBackend -> res MockError (list DirEntry) * MockBackend :=
  counted (lit "read_dir") (fun m =>
    match bt_get path (mk_nodes m) with
    | Some NodeDirectory =>
        let prefix := if bool_decide (path = [c_slash]) then [c_slash] else path ++ [c_slash] in
        Ok (omap (child_entry path prefix) (mk_nodes m))
    | Some (NodeFile _) => Err MockNotDirectory
    | None => Err MockNotFound
    end).

(** ** The mirror simulates the cache *)
Definition real_key (k : MirrorKey) : CacheKey := mkKey (mkey_path k) (mkey_offset k) (mkey_length k).
Definition real_entry (e : MirrorEntry) : CacheKey * list Z := (real_key (me_key e), me_data e).
Definition real_cache (c : MirrorCache) : VolumeCache :=
  mkCache (real_entry <$> mc_entries c) (mc_used_bytes c) (mc_limit_bytes c).

#[export] Instance real_key_inj : Inj (=) (=) real_key.
Proof. intros [p o n] [p' o' n']. unfold real_key. simpl. by intros [= -> -> ->]. Qed.

Lemma position_remove_key (k : MirrorKey) (es : list MirrorEntry) :
  remove_key (real_key k) (real_entry <$> es) =
  (pos ← mirror_position k es; e ← es !! pos; Some (me_data e, real_entry <$> delete pos es)) /\
  (forall pos e, mirror_position k es = Some pos -> es !! pos = Some e -> me_key e = k).
Proof.
  induction es as [|e es [IH1 IH2]]; [done|]. cbn [fmap list_fmap remove_key real_entry mirror_position].
  destruct (decide (me_key e = k)) as [Hk|Hk].
  - rewrite bool_decide_true by (simpl; congruence). split; [done|]. intros pos e' Hp He. by simplify_eq/=.
  - rewrite bool_decide_false by (intros E%(inj real_key); congruence). rewrite IH1.
    destruct (mirror_position k es) as [pos|]; simpl; [|done]. split.
    + by destruct (es !! pos).
    + intros ? e' [= <-]. simpl. by apply IH2.
Qed.

Lemma make_room_evict (fuel : nat) (n limit used : Z) (es : list MirrorEntry) :
  (List.length es < fuel)%nat ->
  evict n limit used (rev (real_entry <$> es)) =
  let '(es', u) := make_room fuel n limit used es in (rev (real_entry <$> es'), u).
Proof.
  revert used es. induction fuel as [|fuel IH]; intros used es Hf; [lia|].
  destruct es as [|e es _] using rev_ind; cbn [make_room].
  { simpl. by destruct (_ <? _). }
  unfold pop_back. rewrite rev_unit, rev_involutive.
  assert (rev (real_entry <$> es ++ [e]) = real_entry e :: rev (real_entry <$> es)) as E by (by rewrite fmap_app, rev_app_distr).
  rewrite E. cbn [evict real_entry]. rewrite length_app in Hf. simpl in Hf.
  destruct (limit <? used + n); [apply IH; lia|by rewrite E].
Qed.

Lemma retain_filter (p : list Z) (freed : Z) (es : list MirrorEntry) :
  let '(kept, f) := mirror_retain p freed es in
  real_entry <$> kept = List.filter (fun e => negb (has_path p e)) (real_entry <$> es) /\
  f = freed + total (List.filter (has_path p) (real_entry <$> es)).
Proof.
  revert freed. induction es as [|e es IH]; intros freed; cbn [mirror_retain fmap list_fmap List.filter]; [simpl; split; [done|lia]|].
  change (has_path p (real_entry e)) with (bool_decide (mkey_path (me_key e) = p)).
  destruct (decide (mkey_path (me_key e) = p)) as [E|E].
  - rewrite bool_decide_true by done. specialize (IH (freed + len (me_data e))).
    destruct (mirror_retain _ _ _) as [kept f]. destruct IH as [-> ->]. simpl. split; [done|lia].
  - rewrite bool_decide_false by done. specialize (IH freed).
    destruct (mirror_retain _ _ _) as [kept f]. destruct IH as [IH ->]. simpl. split; [by rewrite <- IH|done].
Qed.

Inductive cache_op : Type :=
  | CGet (k : MirrorKey)
  | CInsert (k : MirrorKey) (d : list Z)
  | CInvalidate (p : list Z).

(** An operation on the mirror and on the cache: what it returns and leaves. *)
Definition mirror_step (op : cache_op) (c : MirrorCache) : option (list Z) * MirrorCache :=
  match op with
  | CGet k => match mirror_get k c with Some (d, c') => (Some d, c') | None => (None, c) end
  | CInsert k d => (None, mirror_insert k d c)
  | CInvalidate p => (None, mirror_invalidate_path p c)
  end.

Definition real_step (op : cache_op) (c : VolumeCache) : option (list Z) * VolumeCache :=
  match op with
  | CGet k => match cache_get (real_key k) c with Some (d, c') => (Some d, c') | None => (None, c) end
  | CInsert k d => (None, cache_insert (real_key k) d c)
  | CInvalidate p => (None, invalidate_path p c)
  end.

Fixpoint run_ops {C : Type} (step : cache_op -> C -> option (list Z) * C) (ops : list cache_op) (c : C)
    : list (option (list Z)) * C :=
  match ops with
  | [] => ([], c)
  | op :: rest => let '(r, c1) := step op c in let '(rs, c2) := run_ops step rest c1 in (r :: rs, c2)
  end.

Lemma mirror_step_ok (op : cache_op) (c : MirrorCache) :
  real_step op (real_cache c) = ((mirror_step op c).1, real_cache (mirror_step op c).2).
Proof.
  destruct op as [k|k d|p]; unfold real_step, mirror_step; cbn [fst snd].
  - unfold cache_get, mirror_get. cbn [vc_entries real_cache].
    pose proof (position_remove_key k (mc_entries c)) as [-> Hk].
    destruct (mirror_position k _) as [pos|]; simpl; [|done]. destruct (mc_entries c !! pos) as [e|] eqn:E; simpl; [|done].
    unfold real_cache. simpl. do 3 f_equal. unfold real_entry. by rewrite (Hk pos e).
  - unfold cache_insert, mirror_insert, mirror_insert_arc. cbn [vc_entries vc_used vc_limit real_cache].
    destruct (_ <? _); [done|]. cbv zeta. rewrite (make_room_evict (S (List.length (mc_entries c)))) by lia.
    destruct (make_room _ _ _ _ _) as [es u]. unfold real_cache. simpl. by rewrite rev_involutive.
  - unfold invalidate_path, mirror_invalidate_path. cbn [vc_entries vc_used vc_limit real_cache].
    pose proof (retain_filter p 0 (mc_entries c)) as H.
    destruct (mirror_retain _ _ _) as [kept f]. destruct H as [H ->]. unfold real_cache. simpl. by rewrite H.
Qed.

(** The mirror the host tests run on is the cache of the boot loader: from any
    cache, and so from an empty one of any limit, every sequence of lookups,
    insertions and invalidations returns the same results and leaves the same
    entries in the same order with the same count of bytes. *)
Theorem mirror_is_cache (ops : list cache_op) (c : MirrorCache) :
  run_ops real_step ops (real_cache c) =
    ((run_ops mirror_step ops c).1, real_cache (run_ops mirror_step ops c).2) /\
  real_cache mirror_new = cache_new.
Proof.
  split; [|done]. revert c. induction ops as [|op ops IH]; intros c; [done|]. simpl.
  rewrite mirror_step_ok. destruct (mirror_step op c) as [r c1]. simpl. rewrite IH.
  by destruct (run_ops mirror_step ops c1).
Qed.

(** ** Ordered maps *)
Lemma str_cmp_eq (p q : list Z) : str_cmp p q = Eq <-> p = q.
Proof. split; [|intros ->; apply (cmp_refl str_cmp)]. apply lex_cmp_eq. intros x y. apply Z.compare_eq. Qed.

Section btree_ok.
Context {A : Type}.

Definition bt_sorted (m : list (list Z * A)) : Prop := StronglySorted (fun x y => str_cmp x.1 y.1 = Lt) m.

Lemma bt_insert_in (k : list Z) (a : A) (m : list (list Z * A)) (x : list Z * A) :
  x ∈ bt_insert k a m -> x = (k, a) \/ x ∈ m.
Proof.
  induction m as [|[q b] m IH]; simpl; [set_solver|]. destruct (str_cmp k q) eqn:E; [|set_solver..].
  apply str_cmp_eq in E as ->. set_solver.
Qed.

Lemma bt_insert_sorted (k : list Z) (a : A) (m : list (list Z * A)) : bt_sorted m -> bt_sorted (bt_insert k a m).
Proof.
  unfold bt_sorted. induction 1 as [|[q b] m Hm IH Hq]; simpl; [by repeat constructor|].
  destruct (str_cmp k q) eqn:E.
  - by constructor.
  - constructor; [by constructor|]. constructor; [done|]. eapply Forall_impl; [exact Hq|].
    intros [q' b'] Hlt. simpl in *. by eapply (cmp_lt_trans str_cmp).
  - constructor; [done|]. apply Forall_forall. intros x [->|Hx]%bt_insert_in; simpl.
    + rewrite (cmp_opp str_cmp k q), E. done.
    + by apply (proj1 (Forall_forall _ _) Hq).
Qed.

Lemma bt_get_insert (k q : list Z) (a : A) (m : list (list Z * A)) :
  bt_sorted m -> bt_get q (bt_insert k a m) = if decide (q = k) then Some a else bt_get q m.
Proof.
  unfold bt_sorted. induction 1 as [|[r b] m Hm IH Hr]; simpl.
  - destruct (decide (q = k)) as [->|Hq]; [by rewrite (cmp_refl str_cmp)|].
    destruct (str_cmp q k) eqn:E; [by apply str_cmp_eq in E|done..].
  - destruct (str_cmp k r) eqn:E.
    + apply str_cmp_eq in E as ->. simpl. destruct (decide (q = r)) as [->|Hq]; [by rewrite (cmp_refl str_cmp)|].
      destruct (str_cmp q r) eqn:E; [by apply str_cmp_eq in E|done..].
    + simpl. destruct (decide (q = k)) as [->|Hq]; [by rewrite (cmp_refl str_cmp)|].
      destruct (str_cmp q k) eqn:E'; [by apply str_cmp_eq in E'| |done].
      by rewrite (cmp_lt_trans str_cmp q k r).
    + simpl. rewrite IH. destruct (decide (q = k)) as [->|Hq]; [by rewrite E|done].
Qed.

Lemma bt_get_in (k : list Z) (a : A) (m : list (list Z * A)) : bt_sorted m -> bt_get k m = Some a <-> (k, a) ∈ m.
Proof.
  unfold bt_sorted. induction 1 as [|[r b] m Hm IH Hr]; simpl; [set_solver|].
  assert (str_cmp k r <> Gt -> (k, a) ∉ m) as Hnot.
  { intros Hle Hin. apply (proj1 (Forall_forall _ _) Hr) in Hin. simpl in Hin.
    rewrite (cmp_opp str_cmp r k), Hin in Hle. done. }
  rewrite elem_of_cons. destruct (str_cmp k r) eqn:E.
  - apply str_cmp_eq in E as ->. split; [intros [= ->]; by left|]. intros [[= ->]|Hin]; [done|]. by apply Hnot in Hin.
  - split; [done|]. intros [[= -> ->]|Hin]; [by rewrite (cmp_refl str_cmp) in E|]. by apply Hnot in Hin.
  - rewrite IH. split; [by right|]. intros [[= -> ->]|Hin]; [by rewrite (cmp_refl str_cmp) in E|done].
Qed.

Lemma bt_or_insert_sorted (k : list Z) (a : A) (m : list (list Z * A)) : bt_sorted m -> bt_sorted (bt_or_insert k a m).
Proof. unfold bt_or_insert. intros Hm. destruct (bt_get k m); [done|by apply bt_insert_sorted]. Qed.

Lemma bt_get_or_insert (k q : list Z) (a : A) (m : list (list Z * A)) :
  bt_sorted m -> bt_get q (bt_or_insert k a m) = if decide (q = k) then Some (default a (bt_get k m)) else bt_get q m.
Proof.
  intros Hm. unfold bt_or_insert. destruct (bt_get k m) eqn:E.
  - by destruct (decide (q = k)) as [->|].
  - rewrite bt_get_insert by done. done.
Qed.
End btree_ok.

(** ** The tree of the mock *)
Definition slash_free (s : list Z) : Prop := Forall (fun c => (c_slash =? c) = false) s.

(** Nodes are at canonical paths, in the order of the map. *)
Definition nodes_ok (nodes : list (list Z * Node)) : Prop := bt_sorted nodes /\ Forall (fun x => canonical x.1) nodes.

(** [path] with the slash that its children's paths have. *)
Definition below (ns : list (list Z)) : list Z := match ns with [] => [c_slash] | _ => path_render ns ++ [c_slash] end.

Lemma path_render_below (ns : list (list Z)) (n : list Z) : path_render (ns ++ [n]) = below ns ++ n.
Proof. rewrite path_render_snoc. destruct ns; [done|]. simpl. by rewrite <- !app_assoc. Qed.

Lemma render_is_root (ns : list (list Z)) : Forall path_name ns -> path_render ns = [c_slash] <-> ns = [].
Proof. intros Hns. split; [|by intros ->]. apply (path_render_inj ns []); [done|constructor]. Qed.

Lemma drop_slashes (ns : list (list Z)) (n : list Z) :
  Forall path_name (ns ++ [n]) ->
  exists r, path_render (ns ++ [n]) = c_slash :: r /\ drop_while (Z.eqb c_slash) (c_slash :: r) = r.
Proof.
  intros H. destruct (ns ++ [n]) as [|x xs] eqn:E; [by destruct ns|]. cbn [path_render flat_map app]. eexists. split; [done|].
  apply Forall_cons in H as [(Hne & _ & _ & Hx) _]. cbn [drop_while]. rewrite Z.eqb_refl.
  destruct x as [|c x]; [done|]. apply Forall_cons in Hx as [Hc _]. cbn [app drop_while]. by rewrite Hc.
Qed.

Lemma parent_components_render (ns : list (list Z)) (n : list Z) :
  Forall path_name (ns ++ [n]) -> parent_components (path_render (ns ++ [n])) = ns.
Proof.
  intros H. destruct (drop_slashes ns n H) as (r & E & Ed). unfold parent_components. rewrite E, Ed.
  apply Forall_app in H as [Hns [(_ & _ & _ & Hn) _]%Forall_cons].
  rewrite path_render_snoc in E. destruct ns as [|m ns].
  - injection E as <-. unfold rsplit_once. by apply rfind_char_none in Hn as ->.
  - destruct (path_render_slash (m :: ns)) as [r' Er]. rewrite Er in E. injection E as <-.
    rewrite rsplit_once_app by done. pose proof (split_path_render (m :: ns) Hns) as Hs. rewrite Er in Hs.
    change (split_char c_slash (c_slash :: r')) with ([] :: split_char c_slash r') in Hs. by injection Hs.
Qed.

(** The directories an added file brings along: the ones that were missing. *)
Lemma ensure_dirs_spec (pre cs : list (list Z)) (nodes : list (list Z * Node)) :
  Forall path_name (pre ++ cs) -> nodes_ok nodes ->
  let nodes' := ensure_dirs (path_render pre) cs nodes in
  nodes_ok nodes' /\
  (forall k, (0 < k <= length cs)%nat -> is_Some (bt_get (path_render (pre ++ take k cs)) nodes')) /\
  (forall q, bt_get q nodes' = bt_get q nodes \/
     bt_get q nodes = None /\ bt_get q nodes' = Some NodeDirectory /\
     exists k, (0 < k <= length cs)%nat /\ q = path_render (pre ++ take k cs)).
Proof.
  revert pre nodes. induction cs as [|c cs IH]; intros pre nodes Hn Hok; cbn [ensure_dirs].
  { split; [done|]. split; [simpl; intros k ?; lia|by left]. }
  assert (Hc : path_name c) by (apply Forall_app in Hn as [_ Hn]; by apply Forall_cons in Hn as [? _]).
  assert (is_empty c = false) as -> by (destruct c; [by destruct Hc|done]).
  assert ((if bool_decide (path_render pre = [c_slash]) then path_render pre else path_render pre ++ [c_slash]) ++ c
    = path_render (pre ++ [c])) as ->.
  { rewrite path_render_below. f_equal. apply Forall_app in Hn as [Hp _].
    destruct pre; [done|]. rewrite bool_decide_false; [done|]. intros E%render_is_root; done. }
  cbv zeta. change (c :: cs) with ([c] ++ cs) in Hn. rewrite app_assoc in Hn.
  pose proof Hok as [Hs Hcan].
  specialize (IH (pre ++ [c]) (bt_or_insert (path_render (pre ++ [c])) NodeDirectory nodes) Hn).
  destruct IH as (Hok' & Hin & Hq).
  { split; [by apply bt_or_insert_sorted|]. unfold bt_or_insert. destruct (bt_get _ nodes); [done|].
    apply Forall_forall. intros x [->|Hx]%bt_insert_in; [|by apply (proj1 (Forall_forall _ _) Hcan)].
    exists (pre ++ [c]). split; [|done]. by apply Forall_app in Hn as [? _]. }
  split; [done|]. assert (forall k, pre ++ take (S k) (c :: cs) = (pre ++ [c]) ++ take k cs) as Et by (intros k; by rewrite <- app_assoc).
  split.
  - intros [|[|k]] Hk; [lia| |].
    + specialize (Hq (path_render (pre ++ [c]))). rewrite bt_get_or_insert, decide_True in Hq by done.
      change (take 1 (c :: cs)) with [c]. destruct Hq as [->|(? & -> & _)]; eauto.
    + rewrite Et. apply Hin. simpl in Hk. lia.
  - intros q. destruct (Hq q) as [E|(E1 & E2 & k & Hk & ->)].
    + rewrite E, bt_get_or_insert by done. destruct (decide (q = path_render (pre ++ [c]))) as [->|]; [|by left].
      destruct (bt_get _ nodes) eqn:Eg; [by left|]. right. split; [done|]. split; [done|]. exists 1%nat. change (take 1 (c :: cs)) with [c]. simpl. split; [lia|done].
    + right. rewrite bt_get_or_insert in E1 by done. destruct (decide _); [done|]. split; [done|]. split; [done|].
      exists (S k). rewrite Et. simpl. split; [lia|done].
Qed.

Lemma mock_new_ok (tag : list Z) : nodes_ok (mk_nodes (mock_new tag)).
Proof. split; [repeat constructor|]. constructor; [by exists []|constructor]. Qed.

(** Adding a file puts it at the canonical form of its path, and every directory
    on the way that was missing; nothing else changes, and every path below the
    new file's directories is there. *)
Theorem add_file_spec (path data : list Z) (ns : list (list Z)) (n : list Z) (m : MockBackend) :
  nodes_ok (mk_nodes m) -> Forall path_name (ns ++ [n]) -> path_from_str path = Ok (path_render (ns ++ [n])) ->
  exists m', add_file path data m = Ok m' /\ nodes_ok (mk_nodes m') /\
    bt_get (path_render (ns ++ [n])) (mk_nodes m') = Some (NodeFile data) /\
    (forall k, (0 < k <= length ns)%nat -> is_Some (bt_get (path_render (take k ns)) (mk_nodes m'))) /\
    (forall q, q <> path_render (ns ++ [n]) ->
       bt_get q (mk_nodes m') = bt_get q (mk_nodes m) \/
       bt_get q (mk_nodes m) = None /\ bt_get q (mk_nodes m') = Some NodeDirectory /\
       exists k, (0 < k <= length ns)%nat /\ q = path_render (take k ns)).
Proof.
  intros Hok Hn Hp. unfold add_file. rewrite Hp, parent_components_render by done.
  pose proof Hn as [Hns _]%Forall_app.
  destruct (ensure_dirs_spec [] ns (mk_nodes m) Hns Hok) as ([Hs Hcan] & Hin & Hq).
  change (path_render []) with [c_slash] in *. eexists. split; [done|]. simpl.
  split; [|split; [|split]].
  - split; [by apply bt_insert_sorted|]. apply Forall_forall. intros x [->|Hx]%bt_insert_in; [by exists (ns ++ [n])|].
    by apply (proj1 (Forall_forall _ _) Hcan).
  - by rewrite bt_get_insert, decide_True.
  - intros k Hk. rewrite bt_get_insert by done. destruct (decide _); [eauto|]. by apply Hin.
  - intros q Hne. rewrite bt_get_insert, decide_False by done. apply Hq.
Qed.

Lemma slash_free_iff (s : list Z) : slash_free s <-> contains_char c_slash s = false.
Proof.
  unfold slash_free, contains_char. induction s as [|c s IH]; simpl; [by split|].
  rewrite Forall_cons, IH. by destruct (c_slash =? c); naive_solver.
Qed.

(** The part of a path below a directory: one name, or not a child. *)
Lemma below_inv (ns ms : list (list Z)) (r : list Z) :
  Forall path_name ns -> Forall path_name ms -> path_render ms = below ns ++ r -> r <> [] -> slash_free r ->
  ms = ns ++ [r].
Proof.
  intros Hns Hms E Hr Hs. pose proof (split_path_render ms Hms) as H1. rewrite E in H1.
  assert (split_char c_slash (below ns ++ r) = [] :: ns ++ [r]) as H2.
  { unfold below. pose proof (split_path_render ns Hns) as H3. destruct ns as [|x ns].
    - change ([c_slash] ++ r) with ([] ++ [c_slash] ++ r). rewrite split_char_join. unfold split_char.
      rewrite (split_on_none _ r) by done. done.
    - rewrite <- app_assoc, split_char_join, H3. unfold split_char. by rewrite (split_on_none _ r). }
  rewrite H2 in H1. destruct ms as [|y ms]; [|by injection H1].
  destruct ns as [|x [|]]; simplify_eq/=.
Qed.

Lemma child_entry_spec (ns ms : list (list Z)) (node : Node) (e : DirEntry) :
  Forall path_name ns -> Forall path_name ms ->
  child_entry (path_render ns) (below ns) (path_render ms, node) = Some e <->
  exists n, ms = ns ++ [n] /\ e = entry_of n node.
Proof.
  intros Hns Hms. unfold child_entry. split.
  - destruct (bool_decide _); [done|]. destruct (strip_prefix _ _) as [r|] eqn:Er; [|done].
    apply strip_prefix_some in Er. destruct (is_empty r) eqn:Ee; [done|]. simpl.
    destruct (contains_char c_slash r) eqn:Ec; [done|]. intros [= <-]. exists r. split; [|done].
    apply below_inv; [done..|by destruct r|by apply slash_free_iff].
  - intros (n & -> & ->). pose proof Hms as [_ [(Hne & _ & _ & Hn) _]%Forall_cons]%Forall_app.
    rewrite bool_decide_false.
    2:{ intros E%path_render_inj; [|done..]. apply (f_equal length) in E. rewrite length_app in E. simpl in E. lia. }
    rewrite path_render_below, (proj2 (strip_prefix_some _ _ n) eq_refl).
    apply slash_free_iff in Hn as ->. by destruct n.
Qed.

Lemma de_name_entry_of (n : list Z) (node : Node) : de_name (entry_of n node) = n.
Proof. by destruct node. Qed.

(** Children have different names: the paths of the map differ. *)
Lemma children_NoDup (ns : list (list Z)) (nodes : list (list Z * Node)) :
  Forall path_name ns -> nodes_ok nodes -> NoDup (de_name <$> omap (child_entry (path_render ns) (below ns)) nodes).
Proof.
  intros Hns [Hs Hcan]. unfold bt_sorted in Hs. induction Hs as [|[q node] nodes Hs IH Hq]; [constructor|].
  apply Forall_cons in Hcan as [(ms & Hms & Eq) Hcan]. simpl in Eq. subst q. specialize (IH Hcan). cbn [omap list_omap].
  destruct (child_entry _ _ (path_render ms, node)) as [e|] eqn:Ee; [|done].
  apply child_entry_spec in Ee as (n & -> & ->); [|done..]. simpl in Hms. cbn [fmap list_fmap]. constructor; [|done].
  rewrite de_name_entry_of. intros (e & En & (x & Hx & Hc)%list_elem_of_omap)%list_elem_of_fmap.
  pose proof (proj1 (Forall_forall _ _) Hq _ Hx) as Hlt. pose proof (proj1 (Forall_forall _ _) Hcan _ Hx) as (ks & Hks & Ek).
  destruct x as [q' node']. simpl in Ek, Hlt. subst q'. apply child_entry_spec in Hc as (n' & -> & ->); [|done..].
  rewrite de_name_entry_of in En. subst n'. by rewrite (cmp_refl str_cmp) in Hlt.
Qed.

(** Calls are counted per method; a call past the last count of a u32 panics. *)
Lemma counted_ok {A : Type} (method : list Z) (k : MockBackend -> res MockError A) (m : MockBackend) :
  call_count method m < u32_max ->
  counted method k m = (k (mkMock (mk_tag m) (mk_nodes m) (bt_insert method (call_count method m + 1) (mk_counts m)) (mk_fail_reads m)),
    mkMock (mk_tag m) (mk_nodes m) (bt_insert method (call_count method m + 1) (mk_counts m)) (mk_fail_reads m)).
Proof. intros H. unfold counted, bump. by rewrite (proj2 (Z.ltb_lt _ _)). Qed.

Theorem calls_counted {A : Type} (method other : list Z) (k : MockBackend -> res MockError A) (m : MockBackend) :
  bt_sorted (mk_counts m) -> call_count method m < u32_max ->
  let m' := (counted method k m).2 in
  bt_sorted (mk_counts m') /\ mk_nodes m' = mk_nodes m /\
  call_count other m' = if decide (other = method) then call_count method m + 1 else call_count other m.
Proof.
  intros Hs Hn. rewrite counted_ok by done. simpl. split; [by apply bt_insert_sorted|]. split; [done|].
  unfold call_count at 1. simpl. rewrite bt_get_insert by done. by destruct (decide _).
Qed.

(** [read_dir] of a directory lists its children, each once, with its kind and
    its size, and nothing else. *)
Theorem read_dir_children (ns : list (list Z)) (m : MockBackend) :
  nodes_ok (mk_nodes m) -> Forall path_name ns -> call_count (lit "read_dir") m < u32_max ->
  match (mock_read_dir (path_render ns) m).1 with
  | Ok out =>
      NoDup (de_name <$> out) /\
      forall e, e ∈ out <->
        exists n node, path_name n /\ bt_get (path_render (ns ++ [n])) (mk_nodes m) = Some node /\ e = entry_of n node
  | Err e =>
      e = MockNotFound /\ bt_get (path_render ns) (mk_nodes m) = None \/
      e = MockNotDirectory /\ exists d, bt_get (path_render ns) (mk_nodes m) = Some (NodeFile d)
  | Panic => False
  end.
Proof.
  intros Hok Hns Hc. unfold mock_read_dir. rewrite counted_ok by done. cbn [fst mk_nodes].
  destruct (bt_get (path_render ns) (mk_nodes m)) as [[d|]|]; eauto.
  assert ((if bool_decide (path_render ns = [c_slash]) then [c_slash] else path_render ns ++ [c_slash]) = below ns) as ->.
  { destruct ns as [|x ns]; [done|]. rewrite bool_decide_false; [done|]. by intros ?%render_is_root. }
  split; [by apply children_NoDup|]. intros e. rewrite list_elem_of_omap. destruct Hok as [Hs Hcan]. split.
  - intros ([q node] & Hin & Hce). pose proof (proj1 (Forall_forall _ _) Hcan _ Hin) as (ms & Hms & Eq). simpl in Eq. subst q.
    apply child_entry_spec in Hce as (n & -> & ->); [|done..]. exists n, node.
    apply Forall_app in Hms as [_ [? _]%Forall_cons]. split; [done|]. split; [by apply bt_get_in|done].
  - intros (n & node & Hn & Hg & ->). exists (path_render (ns ++ [n]), node). split; [by apply bt_get_in|].
    apply child_entry_spec; [done|by apply Forall_app; auto|by exists n].
Qed.

(** [read_at] is the range of what [read] returns, cut at the end of the file; it
    fails as [read] does, and panics when a range within the file ends past the
    address space. *)
Theorem read_at_is_range (path : list Z) (offset n : Z) (m : MockBackend) :
  0 <= offset -> 0 <= n -> call_count (lit "read") m < u32_max -> call_count (lit "read_at") m < u32_max ->
  match (mock_read path m).1, (mock_read_at path offset n m).1 with
  | Ok bytes, Ok got => got = take (Z.to_nat n) (drop (Z.to_nat offset) bytes)
  | Ok bytes, Panic => offset < len bytes /\ usize_max < offset + n
  | Err (InjectedFailure _), Err (InjectedFailure _) => mk_fail_reads m = true
  | Err e, Err e' => e = e' /\ mk_fail_reads m = false
  | _, _ => False
  end.
Proof.
  intros Ho Hn H1 H2. unfold mock_read, mock_read_at. rewrite !counted_ok by done. cbn [fst mk_nodes mk_fail_reads].
  destruct (mk_fail_reads m); [done|]. destruct (bt_get path (mk_nodes m)) as [[bytes|]|]; [|done..].
  destruct (Z.leb_spec (len bytes) offset).
  { rewrite drop_ge by (unfold len in *; lia). by rewrite take_nil. }
  destruct (Z.ltb_spec usize_max (offset + n)); [done|]. rewrite slice_ok by lia. unfold sub_list.
  destruct (Z.min_spec (offset + n) (len bytes)) as [[? ->]|[? ->]].
  - f_equal. lia.
  - rewrite (take_ge _ (Z.to_nat n)) by (rewrite length_drop; unfold len in *; lia).
    apply take_ge. rewrite length_drop. unfold len in *. lia.
Qed.

(** [add_dir] does not make the directories above it: a directory that exists is
    below one that does not, and no listing shows it; [add_file] at the root
    makes the root a file. *)
Theorem orphan_dir :
  match add_dir (lit "/a/b") (mock_new (lit "mock")), add_file (lit "/") [] (mock_new (lit "mock")) with
  | Ok m, Ok m' =>
      (mock_exists (lit "/a/b") m).1 = Ok true /\ (mock_exists (lit "/a") m).1 = Ok false /\
      (mock_read_dir (lit "/") m).1 = Ok [] /\ (mock_read_dir (lit "/a") m).1 = Err MockNotFound /\
      (mock_read_dir (lit "/") m').1 = Err MockNotDirectory
  | _, _ => False
  end.
Proof. vm_compute. by split_and!. Qed.
