(* ===== verification/UnitTests.v ===== *)
(** * The repository's own unit tests, on the model (fw_cfg_config.rs, loopback_cfg.rs, distro_iso.rs, version.rs,
    lamboot-fs-tests)

    Each test function of the source is a boolean: the conjunction of its
    assertions, with an [unwrap] of nothing or a panic as a failure.  That they all hold says that
    the definitions of this development answer the cases the authors wrote down
    as the program does. *)
From S2P Require Import Prelude Compare RustStr FsTypes SecurityOverride VolumeFs Nvram Health NvBootEntry SecureBoot VersionOrder BlsParse FwCfg IsoBoot Discovery HostMirror.
Local Open Scope Z_scope.

(** ** Assertions *)

(** A string of the source, with a backquote for each quotation mark. *)
Definition qlit (s : string) : list Z := (fun c => if c =? 96 then c_quote else c) <$> lit s.

Definition lns (ls : list string) : list Z := flat_map (fun l => qlit l ++ [c_lf]) ls.

Definition eqs (a : list Z) (s : string) : bool := bool_decide (a = qlit s).
Definition some_is (o : option (list Z)) (s : string) : bool := bool_decide (o = Some (qlit s)).
Definition none_is {A : Type} (o : option A) : bool := match o with None => true | Some _ => false end.
Definition has (s : list Z) (pat : string) : bool := contains (qlit pat) s.

(** [unwrap] followed by assertions. *)
Definition on {A : Type} (o : option A) (f : A -> bool) : bool := match o with Some a => f a | None => false end.
Definition on_ok {E A : Type} (r : res E A) (f : A -> bool) : bool := match r with Ok a => f a | _ => false end.
Definition errs {E A : Type} `{EqDecision E} (r : res E A) (e : E) : bool :=
  match r with Err e' => bool_decide (e' = e) | _ => false end.

(** ** fw_cfg_config.rs *)
Definition SAMPLE : list Z := removelast (lns [
  "{"; "  `schema_version`: `v1`,"; "  `vmid`: `364`,"; "  `hostname`: `pve2`,"; "  `fleet_id`: `lamco-pve2`,";
  "  `role`: `lamboot-archinstall-target`,"; "  `written_by`: `lamboot-hookscript 0.8.4`,";
  "  `written_at`: `2026-05-29T01:12:12Z`,"; "  `tags_at_setup`: []"; "}"])%string.

Definition parses_full_v1_blob : bool :=
  let cfg := fwcfg_parse SAMPLE in
  some_is (fc_fleet_id cfg) "lamco-pve2" && some_is (fc_vmid cfg) "364" &&
  some_is (fc_role cfg) "lamboot-archinstall-target" && some_is (fc_host_node cfg) "pve2".

Definition missing_keys_yield_none : bool :=
  let cfg := fwcfg_parse (qlit "{`schema_version`:`v1`}") in
  none_is (fc_fleet_id cfg) && none_is (fc_vmid cfg) && none_is (fc_role cfg) && none_is (fc_host_node cfg).

Definition empty_string_value_yields_none : bool :=
  let cfg := fwcfg_parse (qlit "{`fleet_id`:``,`vmid`:`x`}") in
  none_is (fc_fleet_id cfg) && some_is (fc_vmid cfg) "x".

Definition array_value_yields_none : bool :=
  some_is (fc_vmid (fwcfg_parse (qlit "{`tags_at_setup`: [], `vmid`: `5`}"))) "5".

Definition escaped_quote_handled : bool :=
  some_is (fc_role (fwcfg_parse (qlit "{`role`: `has \`quote\` in it`}"))) "has `quote` in it".

Definition malformed_blob_silently_returns_empty : bool := none_is (fc_fleet_id (fwcfg_parse (lit "not json"))).

Definition substring_collision_avoided : bool :=
  some_is (fc_vmid (fwcfg_parse (qlit "{`old_vmid`: `999`, `vmid`: `364`}"))) "364".

(** ** loopback_cfg.rs *)
Definition ubuntu_casper_first_entry : bool :=
  let cfg := lns [
    EmptyString;
    "        menuentry `Try or Install Ubuntu` {";
    "            set gfxpayload=keep";
    "            linux /casper/vmlinuz boot=casper iso-scan/filename=${iso_path} quiet splash ---";
    "            initrd /casper/initrd";
    "        }";
    "        menuentry `OEM install (for manufacturers)` {";
    "            linux /casper/vmlinuz boot=casper oem-config/enable=true iso-scan/filename=${iso_path} ---";
    "            initrd /casper/initrd";
    "        }"]%string ++ lit "        " in
  on (parse_first_menuentry cfg (lit "/isos/ubuntu.iso")) (fun e =>
    eqs (lb_kernel e) "/casper/vmlinuz" && eqs (lb_initrd e) "/casper/initrd" &&
    eqs (lb_options e) "boot=casper iso-scan/filename=/isos/ubuntu.iso quiet splash ---" &&
    negb (has (lb_options e) "oem-config")).

Definition debian_live_findiso : bool :=
  let cfg := lns [
    EmptyString;
    "        menuentry `Debian GNU/Linux Live` {";
    "            linux  /live/vmlinuz-6.1.0 boot=live components findiso=${iso_path}";
    "            initrd /live/initrd.img-6.1.0";
    "        }"]%string ++ lit "        " in
  on (parse_first_menuentry cfg (lit "/boot/isos/debian.iso")) (fun e =>
    eqs (lb_kernel e) "/live/vmlinuz-6.1.0" && eqs (lb_initrd e) "/live/initrd.img-6.1.0" &&
    eqs (lb_options e) "boot=live components findiso=/boot/isos/debian.iso").

Definition skips_leading_non_menuentry_and_comments : bool :=
  let cfg := lns ["# generated"; "set timeout=30"; "if loadfont unicode ; then"; "  set gfxmode=auto"; "fi";
    "menuentry 'Live' {"; " linux16 /isolinux/vmlinuz root=live:CDLABEL=X iso-scan/filename=${iso_path}";
    " initrd16 /isolinux/initrd.img"; "}"]%string in
  on (parse_first_menuentry cfg (lit "/x.iso")) (fun e =>
    eqs (lb_kernel e) "/isolinux/vmlinuz" && eqs (lb_initrd e) "/isolinux/initrd.img" &&
    eqs (lb_options e) "root=live:CDLABEL=X iso-scan/filename=/x.iso").

Definition no_initrd_returns_none : bool :=
  none_is (parse_first_menuentry (lns ["menuentry 'x' {"; " linux /vmlinuz ro"; "}"]%string) (lit "/x.iso")).

Definition empty_or_garbage_returns_none : bool :=
  none_is (parse_first_menuentry [] (lit "/x.iso")) &&
  none_is (parse_first_menuentry (lit "just some text" ++ [c_lf] ++ lit "no entries") (lit "/x.iso")).

(** ** distro_iso.rs *)
Definition probe (paths : list string) (p : list Z) : bool := existsb (fun q => bool_decide (lit q = p)) paths.

Definition family_is (paths : list string) (family : string) : bool :=
  on (fingerprint (probe paths)) (fun r => eqs (dr_family r) family).

Definition fingerprints_arch_by_arch_boot : bool :=
  on (fingerprint (probe ["/arch/boot"; "/arch/version"]%string)) (fun r =>
    eqs (dr_family r) "arch" && some_is (dr_kernel r !! 0%nat) "/arch/boot/x86_64/vmlinuz-linux" &&
    some_is (dr_initrd r !! 0%nat) "/arch/boot/intel-ucode.img" &&
    some_is (last (dr_initrd r)) "/arch/boot/x86_64/initramfs-linux.img").

Definition fingerprints_ubuntu_casper : bool :=
  on (fingerprint (probe ["/casper"; "/.disk/info"]%string)) (fun r =>
    eqs (dr_family r) "ubuntu-casper" && eqs (dr_media_cmdline r) "boot=casper").

Definition fingerprints_debian_live_not_ubuntu : bool := family_is ["/live"; "/.disk/info"]%string "debian-live".

Definition fingerprints_fedora_by_liveos_squashfs : bool :=
  none_is (fingerprint (probe ["/LiveOS"]%string)) &&
  on (fingerprint (probe ["/LiveOS/squashfs.img"]%string)) (fun r =>
    eqs (dr_family r) "fedora" && bool_decide (lit "/boot/x86_64/loader/linux" ∈ dr_kernel r)).

Definition fedora44_layout_beats_opensuse : bool :=
  family_is ["/LiveOS/squashfs.img"; "/boot/x86_64/loader"]%string "fedora".

Definition fingerprints_opensuse_and_alpine : bool :=
  family_is ["/boot/x86_64/loader"]%string "opensuse" && family_is ["/apks"]%string "alpine".

Definition unknown_layout_returns_none : bool :=
  none_is (fingerprint (probe ["/EFI/BOOT"; "/some/random/dir"]%string)) && none_is (fingerprint (probe [])).

Definition split_glob_recognizes_trailing_star : bool :=
  bool_decide (split_glob (lit "/live/vmlinuz*") = Some (lit "/live", lit "vmlinuz")) &&
  bool_decide (split_glob (lit "/live/initrd.img*") = Some (lit "/live", lit "initrd.img")) &&
  none_is (split_glob (lit "/casper/vmlinuz")) && none_is (split_glob (lit "noslash*")).

Definition glob_pick_takes_newest : bool :=
  let names := lit <$> ["vmlinuz-6.1.0-9-amd64"; "vmlinuz-6.1.0-10-amd64"; "other"]%string in
  some_is (glob_pick names (lit "vmlinuz")) "vmlinuz-6.1.0-9-amd64" && none_is (glob_pick names (lit "initrd")).

Definition glob_pick_single_match : bool :=
  let names := lit <$> ["vmlinuz-6.1.0-10-amd64"; "config"; "initrd.img-6.1.0-10-amd64"]%string in
  some_is (glob_pick names (lit "vmlinuz")) "vmlinuz-6.1.0-10-amd64" &&
  some_is (glob_pick names (lit "initrd.img")) "initrd.img-6.1.0-10-amd64".

Definition render_media_cmdline_substitutes_label : bool :=
  on (fingerprint (probe ["/arch/boot"]%string)) (fun r =>
    let cmd := render_cmdline (dr_media_cmdline r) (lit "/isos/arch.iso") (lit "ARCH_202606") in
    eqs cmd "archisobasedir=arch archisolabel=ARCH_202606" && negb (has cmd "/isos/arch.iso")).

Definition render_file_cmdline_substitutes_iso : bool :=
  on (fingerprint (probe ["/casper"]%string)) (fun r =>
    eqs (render_cmdline (dr_file_cmdline r) (lit "/boot/isos/ubuntu.iso") (lit "Ubuntu 24.04 amd64"))
      "boot=casper iso-scan/filename=/boot/isos/ubuntu.iso").

Definition render_escapes_label_spaces_for_cdlabel : bool :=
  on (fingerprint (probe ["/boot/x86_64/loader"]%string)) (fun r =>
    eqs (render_cmdline (dr_media_cmdline r) [] (lit "openSUSE Tumbleweed")) "root=live:CDLABEL=openSUSE\x20Tumbleweed").

(** ** version.rs *)
(** The version of the workspace (Cargo.toml). *)
Definition this_version : pkg_version := mkVersion (lit "0.16.5") (lit "0") (lit "16") (lit "5").

Definition packed_version_matches_string : bool :=
  let packed := VERSION_PACKED_U32 this_version in
  let major := Z.land (Z.shiftr packed 16) 255 in
  let minor := Z.land (Z.shiftr packed 8) 255 in
  let patch := Z.land packed 255 in
  bool_decide (fmt_dec major ++ lit "." ++ fmt_dec minor ++ lit "." ++ fmt_dec patch = v_string this_version).

Definition loader_info_bytes_have_null_terminator : bool :=
  let bytes := loader_info_utf16le this_version in
  bool_decide (drop (length bytes - 2) bytes = [0; 0]).

Definition loader_info_starts_with_name_in_utf16 : bool :=
  bool_decide (take 2 (loader_info_utf16le this_version) = lit "L" ++ [0]).

Definition parse_u32_handles_two_digits : bool :=
  (parse_u32_or_zero (lit "10") =? 10) && (parse_u32_or_zero (lit "99") =? 99) && (parse_u32_or_zero (lit "0") =? 0).

Definition parse_u32_returns_zero_on_non_numeric : bool :=
  (parse_u32_or_zero (lit "1-pre") =? 0) && (parse_u32_or_zero [] =? 0).

(** ** The mock backend (lamboot-fs-tests/src/tests.rs) *)
#[export] Instance MockError_eq_dec : EqDecision MockError.
Proof. solve_decision. Defined.

Definition pb (s : string) (f : list Z -> bool) : bool := on_ok (path_from_str (lit s)) f.

(** A mock with files added, and a call on it. *)
Definition be : MockBackend := mock_new (lit "mock").
Definition with_file (p : string) (d : list Z) (m : MockBackend) (f : MockBackend -> bool) : bool :=
  on_ok (add_file (lit p) d m) f.
Definition with_dir (p : string) (m : MockBackend) (f : MockBackend -> bool) : bool := on_ok (add_dir (lit p) m) f.

Definition read_returns_exact_bytes : bool :=
  with_file "/hello.txt" (lit "hello world") be (fun m => pb "/hello.txt" (fun p =>
    on_ok (mock_read p m).1 (fun bytes => eqs bytes "hello world"))).

Definition read_on_missing_returns_not_found : bool := pb "/nope" (fun p => errs (mock_read p be).1 MockNotFound).

Definition read_on_directory_returns_is_directory : bool :=
  with_dir "/dir" be (fun m => pb "/dir" (fun p => errs (mock_read p m).1 MockIsDirectory)).

Definition read_at_returns_correct_slice : bool :=
  with_file "/big" (Z.of_nat <$> seq 0 255) be (fun m => pb "/big" (fun p =>
    on_ok (mock_read_at p 10 5 m).1 (fun s => bool_decide (s = [10; 11; 12; 13; 14])))).

Definition read_at_offset_past_eof_returns_empty : bool :=
  with_file "/small" (lit "abc") be (fun m => pb "/small" (fun p => on_ok (mock_read_at p 10 100 m).1 is_empty)).

Definition read_at_caps_at_eof : bool :=
  with_file "/small" (lit "abcde") be (fun m => pb "/small" (fun p =>
    on_ok (mock_read_at p 3 10 m).1 (fun s => eqs s "de"))).

Definition exists_returns_ok_true_for_present_file : bool :=
  with_file "/here" [] be (fun m => pb "/here" (fun p => on_ok (mock_exists p m).1 id)).

Definition exists_returns_ok_false_for_absent_without_error : bool :=
  pb "/nope" (fun p => on_ok (mock_exists p be).1 negb).

Definition exists_errors_only_on_io_failure : bool :=
  pb "/anything" (fun p =>
    match (mock_exists p (inject_read_failure true be)).1 with Err _ => true | _ => false end).

Definition names_of (r : res MockError (list DirEntry)) (f : list (list Z) -> bool) : bool :=
  on_ok r (fun es => f (de_name <$> es)).

Definition read_dir_returns_immediate_children_only : bool :=
  with_file "/a/b/c.txt" [] be (fun m => with_file "/a/top.txt" [] m (fun m => with_dir "/a/subdir" m (fun m =>
    pb "/a" (fun p => names_of (mock_read_dir p m).1 (fun names =>
      bool_decide (lit "b" ∈ names) && bool_decide (lit "top.txt" ∈ names) && bool_decide (lit "subdir" ∈ names) &&
      negb (bool_decide (lit "c.txt" ∈ names))))))).

Definition read_dir_excludes_dot_and_dotdot : bool :=
  with_file "/x/file" [] be (fun m => pb "/x" (fun p => names_of (mock_read_dir p m).1 (fun names =>
    negb (existsb (fun n => eqs n "." || eqs n "..") names)))).

Definition read_dir_on_file_returns_not_directory : bool :=
  with_file "/f" [] be (fun m => pb "/f" (fun p => errs (mock_read_dir p m).1 MockNotDirectory)).

Definition metadata_regular_file_kind_and_size : bool :=
  with_file "/file.txt" (lit "hello") be (fun m => pb "/file.txt" (fun p => on_ok (mock_metadata p m).1 (fun meta =>
    bool_decide (md_kind meta = Regular) && (md_size meta =? 5) && eqs (md_source_backend meta) "mock"))).

Definition metadata_directory_kind_and_zero_size : bool :=
  with_dir "/d" be (fun m => pb "/d" (fun p => on_ok (mock_metadata p m).1 (fun meta =>
    bool_decide (md_kind meta = Directory) && (md_size meta =? 0)))).

(** ** Paths (lamboot-fs-tests/src/tests.rs) *)
#[export] Instance PathError_eq_dec : EqDecision PathError.
Proof. solve_decision. Defined.

Definition canon (s t : string) : bool := pb s (fun p => eqs p t).

Definition path_rejects_empty : bool := errs (path_from_str []) PathEmpty.
Definition path_rejects_relative : bool :=
  errs (path_from_str (lit "foo")) NotAbsolute && errs (path_from_str (lit "./foo")) NotAbsolute.
Definition path_rejects_above_root : bool := errs (path_from_str (lit "/../x")) AboveRoot.
Definition path_collapses_redundant_separators : bool := canon "/a//b" "/a/b" && canon "//" "/".
Definition path_drops_dot_segments : bool := canon "/a/./b" "/a/b" && canon "/./a" "/a".
Definition path_resolves_dotdot : bool := canon "/a/../b" "/b" && canon "/a/b/../c" "/a/c".
Definition path_root_stays_root : bool := canon "/" "/".
Definition path_file_name_test : bool :=
  pb "/a/b/c" (fun p => eqs (path_file_name p) "c") && pb "/a" (fun p => eqs (path_file_name p) "a") &&
  pb "/" (fun p => is_empty (path_file_name p)).
Definition path_parent_test : bool :=
  pb "/a/b/c" (fun p => eqs (path_parent p) "/a/b") && pb "/a" (fun p => eqs (path_parent p) "/") &&
  pb "/" (fun p => eqs (path_parent p) "/").

Definition joins (base child result : string) : bool :=
  pb base (fun p => on_ok (path_join p (lit child)) (fun q => eqs q result)).

Definition path_join_relative : bool := joins "/a/b" "c" "/a/b/c" && joins "/a" "b/c" "/a/b/c".
Definition path_join_absolute_child_replaces_base : bool := joins "/a" "/x/y" "/x/y".
Definition path_join_canonicalizes : bool := joins "/a" "./b" "/a/b" && joins "/a" "../b" "/b".

(** ** The cache (lamboot-fs-tests/src/tests.rs) *)
Definition fk (s : string) : MirrorKey := mirror_full_read (lit s).
Definition zeros (n : nat) : list Z := replicate n 0.

(** A lookup, which moves what it finds to the front. *)
Definition hit (k : MirrorKey) (c : MirrorCache) : bool :=
  match mirror_get k c with Some _ => true | None => false end.
Definition after_get (k : MirrorKey) (c : MirrorCache) : MirrorCache :=
  match mirror_get k c with Some (_, c') => c' | None => c end.
Definition holds (k : MirrorKey) (d : string) (c : MirrorCache) : bool :=
  on (mirror_get k c) (fun '(b, _) => eqs b d).

Definition cache_stores_and_returns_same_bytes : bool :=
  pb "/f" (fun p => let key := mirror_full_read p in holds key "hello" (mirror_insert key (lit "hello") mirror_new)).

Definition cache_lru_eviction_on_limit : bool :=
  let c := mirror_insert (fk "/c") (zeros 40) (mirror_insert (fk "/b") (zeros 40)
    (mirror_insert (fk "/a") (zeros 40) (mirror_with_limit 100))) in
  negb (hit (fk "/a") c) && hit (fk "/b") c && hit (fk "/c") (after_get (fk "/b") c).

Definition cache_hit_promotes_to_mru : bool :=
  let c := mirror_insert (fk "/b") (zeros 40) (mirror_insert (fk "/a") (zeros 40) (mirror_with_limit 100)) in
  let c := mirror_insert (fk "/c") (zeros 40) (after_get (fk "/a") c) in
  hit (fk "/a") c && (let c := after_get (fk "/a") c in negb (hit (fk "/b") c) && hit (fk "/c") c).

Definition cache_full_and_range_reads_are_distinct_slots : bool :=
  pb "/f" (fun p =>
    let c := mirror_insert (mirror_range p 0 4) (lit "rang") (mirror_insert (mirror_full_read p) (lit "full") mirror_new) in
    holds (mirror_full_read p) "full" c && holds (mirror_range p 0 4) "rang" (after_get (mirror_full_read p) c)).

Definition cache_invalidate_path_drops_all_entries_for_that_path : bool :=
  pb "/f" (fun p => pb "/g" (fun q =>
    let c := mirror_insert (mirror_full_read q) (lit "g-full") (mirror_insert (mirror_range p 0 3) (lit "f-r")
      (mirror_insert (mirror_full_read p) (lit "f-full") mirror_new)) in
    let c := mirror_invalidate_path p c in
    negb (hit (mirror_full_read p) c) && negb (hit (mirror_range p 0 3) c) && hit (mirror_full_read q) c)).

Definition cache_oversized_insert_is_silently_dropped : bool :=
  let c := mirror_insert (fk "/f") (zeros 100) (mirror_with_limit 10) in
  negb (hit (fk "/f") c) && (mc_used_bytes c =? 0).

Definition cache_second_read_does_not_hit_backend : bool :=
  pb "/k" (fun p =>
    let c := mirror_insert (mirror_full_read p) (lit "primed") mirror_new in
    hit (mirror_full_read p) c &&
    match (mock_read p (inject_read_failure true be)).1 with Err _ => true | _ => false end).

(** ** Identifiers (lamboot-fs-tests/src/tests.rs) *)
Definition uuid_display_lowercase_hyphenated : bool :=
  eqs (uuid_display [0x01; 0x23; 0x45; 0x67; 0x89; 0xab; 0xcd; 0xef; 0xfe; 0xdc; 0xba; 0x98; 0x76; 0x54; 0x32; 0x10])
    "01234567-89ab-cdef-fedc-ba9876543210".

Definition uuid_from_fat_serial_little_endian_padded : bool :=
  let uuid := uuid_from_fat_serial 0x12345678 in
  bool_decide (take 4 uuid = [0x78; 0x56; 0x34; 0x12]) && bool_decide (drop 4 uuid = zeros 12).

(** ** BLS entries (lamboot-fs-tests/tests/bls_parse.rs) *)
Definition entry (filename : string) (content : list string) (f : BlsEntry -> bool) : bool :=
  on (parse (lit filename) (lns content)) f.
Definition paths_are (l : list (list Z)) (names : list string) : bool := bool_decide (l = qlit <$> names).

Definition parse_fedora_style_entry_populates_every_field : bool :=
  entry "4a9f6c93f81e4736982abea00129918b-6.19.12-200.fc43.x86_64.conf" [
    "title Fedora Linux (6.19.12-200.fc43.x86_64) 43 (Sway Atomic)";
    "version 6.19.12-200.fc43.x86_64";
    "linux /vmlinuz-6.19.12-200.fc43.x86_64";
    "initrd /initramfs-6.19.12-200.fc43.x86_64.img";
    "options root=UUID=4a9f6c93-f81e-4736-982a-bea00129918b ro rootflags=subvol=root rd.luks.uuid=luks-xyz rhgb quiet";
    "machine-id 4a9f6c93f81e4736982abea00129918b"]%string (fun e =>
    eqs (b_id e) "4a9f6c93f81e4736982abea00129918b-6.19.12-200.fc43.x86_64" &&
    eqs (b_filename e) "4a9f6c93f81e4736982abea00129918b-6.19.12-200.fc43.x86_64.conf" &&
    some_is (b_title e) "Fedora Linux (6.19.12-200.fc43.x86_64) 43 (Sway Atomic)" &&
    some_is (b_version e) "6.19.12-200.fc43.x86_64" && some_is (b_linux e) "\vmlinuz-6.19.12-200.fc43.x86_64" &&
    paths_are (b_initrd e) ["\initramfs-6.19.12-200.fc43.x86_64.img"]%string &&
    some_is (b_machine_id e) "4a9f6c93f81e4736982abea00129918b" && (len (b_options e) =? 1) &&
    on (b_options e !! 0%nat) (fun o => has o "root=UUID=") && bool_decide (boot_count_state e = Good)).

Definition parse_multi_value_initrd_splits_on_whitespace : bool :=
  entry "test.conf" ["title Test"; "linux /vmlinuz"; "initrd /amd-ucode.img /initramfs.img"]%string (fun e =>
    paths_are (b_initrd e) ["\amd-ucode.img"; "\initramfs.img"]%string).

Definition parse_multiple_options_lines_preserved_as_vec : bool :=
  entry "test.conf" ["title Test"; "linux /vmlinuz"; "options foo=bar"; "options baz=qux"]%string (fun e =>
    paths_are (b_options e) ["foo=bar"; "baz=qux"]%string && eqs (combined_options e) "foo=bar baz=qux").

Definition parse_fedora_grub_variables_stripped_from_options_and_initrd : bool :=
  entry "fedora.conf" ["title Fedora"; "linux /vmlinuz"; "initrd /initramfs.img $tuned_initrd";
    "options ro $grub_users rhgb quiet"]%string (fun e =>
    paths_are (b_initrd e) ["\initramfs.img"; "\$tuned_initrd"]%string &&
    paths_are (cleaned_initrd e) ["\initramfs.img"]%string &&
    has (combined_options e) "ro" && has (combined_options e) "rhgb" && has (combined_options e) "quiet" &&
    negb (has (combined_options e) "$grub_users")).

Definition cleaned_initrd_filters_all_grub_var_forms : bool :=
  entry "x.conf" ["title X"; "linux /vmlinuz"; "initrd /real1.img $bare /real2.img \$backslash /$forward"]%string (fun e =>
    let cleaned := cleaned_initrd e in
    existsb (fun s => eqs s "\real1.img") cleaned && existsb (fun s => eqs s "\real2.img") cleaned &&
    negb (existsb (fun s => has s "bare") cleaned) && negb (existsb (fun s => has s "backslash") cleaned) &&
    negb (existsb (fun s => has s "forward") cleaned)).

Definition parse_unknown_fields_silently_ignored : bool :=
  entry "test.conf" ["title Test"; "linux /vmlinuz"; "fuzzbucket hello"; "devicetree not-yet-supported"]%string (fun e =>
    some_is (b_title e) "Test" && some_is (b_linux e) "\vmlinuz").

Definition parse_rejects_entry_lacking_both_linux_and_efi : bool :=
  none_is (parse (lit "empty.conf") (lns ["title Test"; "version 1.0"; "options nothing-actionable"]%string)).

Definition parse_tolerates_comments_and_blank_lines : bool :=
  entry "test.conf" ["# This is a comment"; "title Test"; EmptyString; "# Another comment"; "linux /vmlinuz";
    EmptyString; EmptyString; "options ro"]%string (fun e =>
    some_is (b_title e) "Test" && paths_are (b_options e) ["ro"]%string).

Definition counted_as (filename : string) (left done : Z) (st : BootCountState) : bool :=
  entry filename ["title X"; "linux /vmlinuz"]%string (fun e =>
    eqs (b_id e) "system" && bool_decide (b_tries_left e = Some left) && bool_decide (b_tries_done e = Some done) &&
    bool_decide (boot_count_state e = st)).

Definition parse_boot_counter_suffix_plus_n : bool := counted_as "system+3.conf" 3 0 Indeterminate.
Definition parse_boot_counter_suffix_plus_n_m : bool := counted_as "system+2-1.conf" 2 1 Indeterminate.
Definition parse_boot_counter_tries_left_zero_is_bad : bool := counted_as "system+0-3.conf" 0 3 Bad.

Definition digits (filename : string) (marker : Z) (n : nat) : bool :=
  Nat.eqb (count_digits_in_filename (lit filename) marker) n.

Definition count_digits_preserves_padding : bool :=
  digits "entry+03-02.conf" c_plus 2 && digits "entry+03-02.conf" c_dash 2 && digits "entry+3.conf" c_plus 1 &&
  digits "entry+3.conf" c_dash 0 && digits "no-marker.conf" c_plus 0.

Definition ordered (a b : string) (c : comparison) : bool := bool_decide (version_compare (lit a) (lit b) = c).

Definition version_compare_numeric_and_tilde_and_dash_rules : bool :=
  ordered "1.10" "1.9" Gt && ordered "1.10" "1.11" Lt && ordered "005" "5" Eq && ordered "1.0~rc1" "1.0" Lt &&
  ordered "1.0-alpha" "1.0.alpha" Lt && ordered "1.0A" "1.0a" Lt &&
  ordered "6.19.12-200.fc43" "6.19.12-200.fc43" Eq && ordered "1.0^post" "1.0" Gt && ordered "1.0-beta" "1.0" Gt.

(** Two entries in the order of the menu. *)
Definition sorted_two (f1 : string) (c1 : list string) (f2 : string) (c2 : list string) (f : BlsEntry -> BlsEntry -> bool) : bool :=
  entry f1 c1 (fun a => entry f2 c2 (fun b =>
    match sort_by (fun x y => bls_sort_compare x y false) [a; b] with [x; y] => f x y | _ => false end)).

Definition bls_sort_places_bad_entries_last : bool :=
  sorted_two "bad+0-3.conf" ["title B"; "linux /v"]%string "good.conf" ["title G"; "linux /v"]%string (fun x y =>
    eqs (b_id x) "good" && eqs (b_id y) "bad").

Definition bls_sort_prefers_entries_with_sort_key : bool :=
  sorted_two "b.conf" ["title B"; "linux /v"]%string "a.conf" ["title A"; "sort-key zzzz"; "linux /v"]%string (fun x _ =>
    is_some (b_sort_key x)).

Definition bls_sort_version_descending_when_both_have_version : bool :=
  sorted_two "fedora-6.18.conf" ["title Old"; "version 6.18"; "linux /v"]%string
    "fedora-6.19.conf" ["title New"; "version 6.19"; "linux /v"]%string (fun x _ => eqs (b_id x) "fedora-6.19").

Definition bls_sort_filename_ascending_when_missing_version : bool :=
  sorted_two "Recovery-79EB-58C6.conf" ["title Recovery"; "linux /v"]%string
    "Pop_OS-current.conf" ["title Pop_OS"; "linux /v"]%string (fun x _ => eqs (b_id x) "Pop_OS-current").

Definition has_extension_ignore_case_accepts_mixed_case : bool :=
  let h f := has_extension_ignore_case (lit f) (lit "conf") in
  h "entry.conf"%string && h "entry.CONF"%string && h "entry.Conf"%string &&
  negb (h "entry.confx"%string) && negb (h "entry"%string).

Definition is_native_architecture_x86_64_variants : bool :=
  let n a := is_native_architecture X86_64 (lit a) in
  n "x64"%string && n "x86_64"%string && n "x86-64"%string && n "X64"%string && negb (n "aa64"%string) && negb (n "riscv64"%string).

Definition parse_filename_without_plus_has_no_boot_counter : bool :=
  entry "plain-entry.conf" ["title X"; "linux /vmlinuz"]%string (fun e =>
    eqs (b_id e) "plain-entry" && none_is (b_tries_left e) && none_is (b_tries_done e) &&
    bool_decide (boot_count_state e = Good)).

Definition parse_defaults_source_fields_to_zero_and_empty : bool :=
  entry "x.conf" ["title X"; "linux /v"]%string (fun e =>
    (b_source_volume_index e =? 0) && is_empty (b_source_backend_tag e)).

(** Two files parsed, with the sources set as the scan of two volumes sets them, and compared. *)
Definition same_content (sources : bool) (o1 o2 : string) : bool :=
  entry "x.conf" ["title X"; "linux /vmlinuz"; o1]%string (fun a => entry "x.conf" ["title X"; "linux /vmlinuz"; o2]%string (fun b =>
    if sources then bls_eq (set_source_backend_tag (lit "fat") (set_source_volume_index 0 a))
                           (set_source_backend_tag (lit "ext4-view@0.9.3") (set_source_volume_index 1 b))
    else bls_eq a b)).

Definition parsed_entries_with_identical_content_are_equal : bool := same_content false "options ro" "options ro".
Definition parsed_entries_with_different_options_differ : bool := negb (same_content false "options ro" "options rw").
Definition parsed_entry_equality_ignores_source_volume_fields : bool := same_content true "options ro" "options ro".
Definition parsed_entry_equality_catches_options_change_across_sources : bool := negb (same_content true "options ro" "options rw").

(** ** The decision tables (lamboot-fs-tests/tests: one list of assertions per file) *)

(** A fixed sequence of reads; a further read gives [poison], which must not matter. *)
Definition reads (seq : list SbReadOutcome) (poison : SbReadOutcome) (n : nat) : SbReadOutcome := default poison (seq !! n).
Definition sb_is (seq : list SbReadOutcome) (b : bool) : bool :=
  forallb (fun poison => Bool.eqb (classify_secure_boot (reads seq poison)) b)
    [SbValue (Some 0); SbValue (Some 1); SbTransientError; SbNotFound].

Definition sb_classify_pure_tests : list bool := [
  sb_is [SbValue (Some 1)] true; sb_is [SbValue (Some 0)] false; sb_is [SbValue (Some 2)] false;
  sb_is [SbNotFound] false; sb_is [SbUnsupported] false; sb_is [SbBufferTooSmall] true;
  sb_is [SbValue None; SbValue (Some 0)] false; sb_is [SbTransientError; SbValue (Some 1)] true;
  sb_is [SbTransientError; SbTransientError] true; sb_is [SbValue None; SbValue None] true;
  sb_is [SbBufferTooSmall] true
].

#[export] Instance LoadRoute_eq_dec : EqDecision LoadRoute.
Proof. solve_decision. Defined.

Definition routes (mode : NativePeMode) (sb : SbPosture) (r : LoadRoute) : bool := bool_decide (decide_load_route mode sb = r).

Definition boot_route_pure_tests : list bool := [
  routes PeNever PostureDisabled RouteFirmware; routes PeNever PostureActiveWithShim RouteFirmware;
  routes PeNever PostureActiveDirect RouteFirmware; routes PeAlways PostureDisabled RouteNative;
  routes PeAlways PostureActiveWithShim RouteNative; routes PeAlways PostureActiveDirect RouteNative;
  routes PeAuto PostureDisabled RouteNative; routes PeAuto PostureActiveWithShim RouteNative;
  routes PeAuto PostureActiveDirect RouteFirmware
].

Definition len_ok (size : Z) : bool := on_ok (checked_read_len size) (Z.eqb size).
Definition too_large (size : Z) : bool :=
  match checked_read_len size with Err e => (tl_size e =? size) && (tl_max e =? MAX_BOOT_FILE_BYTES) | _ => false end.

Definition read_limit_pure_tests : list bool := [
  MAX_BOOT_FILE_BYTES =? 512 * 1024 * 1024; MAX_BOOT_FILE_BYTES =? 536870912; len_ok 0; len_ok 1;
  len_ok (400 * 1024 * 1024); len_ok MAX_BOOT_FILE_BYTES; too_large (MAX_BOOT_FILE_BYTES + 1);
  too_large (8 * 1024 * 1024 * 1024); too_large u64_max
].

Definition partition_classify_pure_tests : list bool :=
  (mbr_os_type_is_mountable <$> [0x83; 0x8E; 0x07; 0x0C; 0x0B; 0x82]) ++
  ((fun t => negb (mbr_os_type_is_mountable t)) <$> [0x00; 0x05; 0x0F; 0x85; 0xEE; 0xEF]).

Definition uuid_dir (d : string) : bool := looks_like_distro_uuid_dir (lit d).
Definition pretty (d name : string) : bool := eqs (pretty_name_from_distro_uuid_dir (lit d)) name.

Definition recognizer_tests : list bool :=
  (uuid_dir <$> ["Pop_OS-fc9ac3db-cac4-48bd-b437-cd47301f1c7f"; "Recovery-79EB-58C6";
     "Garuda-aabbccdd-eeff-0011-2233-445566778899"; "ubuntu-12345678-90ab-cdef-1234-567890abcdef";
     "My_Distro-abcd1234"]%string) ++
  ((fun d => negb (uuid_dir d)) <$> ["Linux"; "BOOT"; "fedora"; "LamBoot"; "systemd"; "Microsoft"; "-fc9ac3db";
     "foo-aa"; "foo-zzzzzzzz"; "1Pop_OS-fc9ac3db-cac4-48bd-b437-cd47301f1c7f"; "foo.bar-aabbccdd"; EmptyString]%string).

Definition discovery_pure_tests : list bool :=
  [pretty "Pop_OS-fc9ac3db-cac4-48bd-b437-cd47301f1c7f" "Pop!_OS"; pretty "Recovery-79EB-58C6" "Recovery";
   pretty "Garuda-aabbccdd-eeff-0011-2233-445566778899" "Garuda";
   pretty "ubuntu-12345678-90ab-cdef-1234-567890abcdef" "ubuntu";
   eqs (forward_to_backslash (lit "/EFI/Pop_OS-foo/vmlinuz.efi")) "\EFI\Pop_OS-foo\vmlinuz.efi";
   eqs (forward_to_backslash (lit "\EFI\foo\bar")) "\EFI\foo\bar"; is_empty (forward_to_backslash [])].

Definition end_node : list Z := [0x7f; 0xff; 0x04; 0x00].
Definition lamboot_option : list Z := encode_load_option LOAD_OPTION_ACTIVE (lit "LamBoot") end_node [].

Definition boot_entry_pure_tests : list bool :=
  let desc := flat_map (to_le 2) (encode_utf16 (lit "LamBoot")) ++ [0; 0] in
  let bytes := [0x02; 0x00; 0x00; 0x00; 0x01; 0x00] in
  [bool_decide (take 4 lamboot_option = [1; 0; 0; 0]); bool_decide (take 2 (drop 4 lamboot_option) = [4; 0]);
   bool_decide (take (length desc) (drop 6 lamboot_option) = desc);
   bool_decide (drop (6 + length desc) lamboot_option = end_node);
   some_is (parse_load_option_description lamboot_option) "LamBoot";
   none_is (parse_load_option_description [1; 0; 0]);
   bool_decide (encode_boot_order [2; 0; 1] = bytes); bool_decide (decode_boot_order bytes = [2; 0; 1]);
   bool_decide (decode_boot_order [0x02; 0x00; 0x09] = [2]);
   bool_decide (boot_order_with_front [0; 1] 2 = [2; 0; 1]); bool_decide (boot_order_with_front [0; 1] 1 = [0; 1]);
   bool_decide (first_free_boot_number [0; 1; 3] 255 = Some 2); bool_decide (first_free_boot_number [] 255 = Some 0);
   none_is (first_free_boot_number [0; 1; 2] 2);
   eqs (boot_var_name 2) "Boot0002"; eqs (boot_var_name 26) "Boot001A"; eqs (boot_var_name 65535) "BootFFFF"].

(** ** All of them *)
Definition unit_tests : list bool := [
  parses_full_v1_blob; missing_keys_yield_none; empty_string_value_yields_none; array_value_yields_none;
  escaped_quote_handled; malformed_blob_silently_returns_empty; substring_collision_avoided;
  ubuntu_casper_first_entry; debian_live_findiso; skips_leading_non_menuentry_and_comments;
  no_initrd_returns_none; empty_or_garbage_returns_none;
  fingerprints_arch_by_arch_boot; fingerprints_ubuntu_casper; fingerprints_debian_live_not_ubuntu;
  fingerprints_fedora_by_liveos_squashfs; fedora44_layout_beats_opensuse; fingerprints_opensuse_and_alpine;
  unknown_layout_returns_none; split_glob_recognizes_trailing_star; glob_pick_takes_newest; glob_pick_single_match;
  render_media_cmdline_substitutes_label; render_file_cmdline_substitutes_iso; render_escapes_label_spaces_for_cdlabel;
  packed_version_matches_string; loader_info_bytes_have_null_terminator; loader_info_starts_with_name_in_utf16;
  parse_u32_handles_two_digits; parse_u32_returns_zero_on_non_numeric
].

Definition host_tests : list bool := [
  read_returns_exact_bytes; read_on_missing_returns_not_found; read_on_directory_returns_is_directory;
  read_at_returns_correct_slice; read_at_offset_past_eof_returns_empty; read_at_caps_at_eof;
  exists_returns_ok_true_for_present_file; exists_returns_ok_false_for_absent_without_error;
  exists_errors_only_on_io_failure; read_dir_returns_immediate_children_only; read_dir_excludes_dot_and_dotdot;
  read_dir_on_file_returns_not_directory; metadata_regular_file_kind_and_size; metadata_directory_kind_and_zero_size;
  path_rejects_empty; path_rejects_relative; path_rejects_above_root; path_collapses_redundant_separators;
  path_drops_dot_segments; path_resolves_dotdot; path_root_stays_root; path_file_name_test; path_parent_test;
  path_join_relative; path_join_absolute_child_replaces_base; path_join_canonicalizes;
  cache_stores_and_returns_same_bytes; cache_lru_eviction_on_limit; cache_hit_promotes_to_mru;
  cache_full_and_range_reads_are_distinct_slots; cache_invalidate_path_drops_all_entries_for_that_path;
  cache_oversized_insert_is_silently_dropped; cache_second_read_does_not_hit_backend;
  uuid_display_lowercase_hyphenated; uuid_from_fat_serial_little_endian_padded
].

Definition bls_tests : list bool := [
  parse_fedora_style_entry_populates_every_field; parse_multi_value_initrd_splits_on_whitespace;
  parse_multiple_options_lines_preserved_as_vec; parse_fedora_grub_variables_stripped_from_options_and_initrd;
  cleaned_initrd_filters_all_grub_var_forms; parse_unknown_fields_silently_ignored;
  parse_rejects_entry_lacking_both_linux_and_efi; parse_tolerates_comments_and_blank_lines;
  parse_boot_counter_suffix_plus_n; parse_boot_counter_suffix_plus_n_m; parse_boot_counter_tries_left_zero_is_bad;
  count_digits_preserves_padding; version_compare_numeric_and_tilde_and_dash_rules;
  bls_sort_places_bad_entries_last; bls_sort_prefers_entries_with_sort_key;
  bls_sort_version_descending_when_both_have_version; bls_sort_filename_ascending_when_missing_version;
  has_extension_ignore_case_accepts_mixed_case; is_native_architecture_x86_64_variants;
  parse_filename_without_plus_has_no_boot_counter; parse_defaults_source_fields_to_zero_and_empty;
  parsed_entries_with_identical_content_are_equal; parsed_entries_with_different_options_differ;
  parsed_entry_equality_ignores_source_volume_fields; parsed_entry_equality_catches_options_change_across_sources
].

Definition table_tests : list bool :=
  sb_classify_pure_tests ++ boot_route_pure_tests ++ read_limit_pure_tests ++ partition_classify_pure_tests ++
  recognizer_tests ++ discovery_pure_tests ++ boot_entry_pure_tests.

(** The model passes the tests the program passes. *)
Theorem repository_tests_pass : Forall (fun b => b = true) (unit_tests ++ host_tests ++ bls_tests ++ table_tests).
Proof. vm_compute. repeat constructor. Qed.
