(* ===== verification/PureTests.v ===== *)
(** * The repository's tests of the PE loader and of the trust log, on the model
    (lamboot-fs-tests/tests/pe_loader_pure.rs, trust_log_pure.rs)

    As in [UnitTests], a test function is the conjunction of its assertions.
    The fixtures of the PE tests are built by [build_pe], translated with them;
    the tests that need a built boot loader or an implementation of SHA-256 are
    not here. *)
From S2P Require Import Prelude Compare RustStr BlsParse PeLoader FsTypes SecurityOverride VolumeFs TrustLog HostMirror UnitTests.
Local Open Scope Z_scope.

(** ** tests/pe_loader_pure.rs *)

(** [b[at..at + n].copy_from_slice(src)], in range in every fixture. *)
Definition put (at_ : Z) (src : list Z) (b : list Z) : list Z := splice at_ src b.
Definition zeros (n : nat) : list Z := replicate n 0.
Definition bytes_of (s : string) : list Z := lit s.

#[export] Instance PeLoadError_eq_dec : EqDecision PeLoadError.
Proof. solve_decision. Defined.

Definition fails_with {A : Type} (e : PeLoadError) (r : res PeLoadError A) : bool :=
  match r with Err e' => bool_decide (e' = e) | _ => false end.

Definition too_short_byte_slice_rejected : bool := fails_with (TooShort 32 64) (parse_headers (zeros 32)).

Definition bad_dos_signature_rejected : bool :=
  fails_with BadDosSignature (parse_headers (put 0 (bytes_of "ZM") (zeros 128))).

Definition nt_offset_out_of_bounds_rejected : bool :=
  fails_with (NtOffsetOutOfBounds 0xFFFF0000)
    (parse_headers (put 0x3C (to_le 4 0xFFFF0000) (put 0 (bytes_of "MZ") (zeros 128)))).

Definition bad_nt_signature_rejected : bool :=
  let bytes := put 0 (bytes_of "MZ") (zeros 256) in
  let bytes := put 0x3C (to_le 4 0x80) bytes in
  let bytes := put 0x80 (bytes_of "XE" ++ [0; 0]) bytes in
  fails_with BadNtSignature (parse_headers bytes).

(** One block of the directory: page, size and the 16-bit words that follow. *)
Definition block (page size : Z) (words : list Z) : list Z :=
  to_le 4 page ++ to_le 4 size ++ flat_map (to_le 2) words.

Definition relocation_zero_delta_is_noop_even_on_malformed_bytes : bool :=
  let image := replicate 4096 0xAA in
  on_ok (apply_relocations_to_slice image 0x100000000 0x100000000 (replicate 64 0xFF))
    (fun image' => bool_decide (image' = image)).

Definition relocation_dir64_applies_delta_to_u64_at_rva : bool :=
  let page_rva := 0x1000 in
  let within_page := 0x8 in
  let target_rva := page_rva + within_page in
  let preferred_base := 0x100000000 in
  let actual_base := 0x200000000 in
  let delta := actual_base - preferred_base in
  let original_value := preferred_base + 0xDEAD in
  let image := put target_rva (to_le 8 original_value) (zeros (16 * 1024)) in
  let entry := Z.lor (Z.shiftl REL_DIR64 12) within_page in
  on_ok (apply_relocations_to_slice image preferred_base actual_base (block page_rva 12 [entry; 0]))
    (fun image' => from_le (sub_list target_rva (target_rva + 8) image') =? wrap 64 (original_value + delta)).

Definition relocation_absolute_type_is_noop : bool :=
  let image := replicate 4096 0xAA in
  on_ok (apply_relocations_to_slice image 0x100000000 0x200000000 (block 0 12 [0; 0]))
    (fun image' => bool_decide (image' = image)).

Definition relocation_size_of_block_zero_terminates : bool :=
  on_ok (apply_relocations_to_slice (zeros 4096) 0x1000 0x2000 (zeros 8)) (fun _ => true).

Definition relocation_size_of_block_less_than_8_rejected : bool :=
  fails_with (RelocationMalformed "SizeOfBlock < 8")
    (apply_relocations_to_slice (zeros 4096) 0x1000 0x2000 (block 0 4 [])).

Definition relocation_block_extends_past_directory_rejected : bool :=
  let r := apply_relocations_to_slice (zeros 4096) 0x1000 0x2000 (block 0 1024 []) in
  fails_with (RelocationMalformed "block extends past directory") r
  || fails_with (RelocationMalformed "odd entries_bytes") r.

Definition relocation_unsupported_type_rejected : bool :=
  fails_with (UnsupportedRelocationType 7)
    (apply_relocations_to_slice (zeros 4096) 0x1000 0x2000 (block 0 12 [Z.shiftl 7 12; 0])).

Definition relocation_high_low_types_explicitly_refused : bool :=
  forallb (fun t => fails_with (UnsupportedRelocationType t)
             (apply_relocations_to_slice (zeros 4096) 0x1000 0x2000 (block 0 12 [Z.shiftl t 12; 0]))) [1; 2].

Definition relocation_target_out_of_bounds_rejected : bool :=
  match apply_relocations_to_slice (zeros 4096) 0x1000 0x2000
          (block 0 12 [Z.lor (Z.shiftl REL_DIR64 12) 0x0FFC; 0]) with
  | Err (RelocationMalformed _) => true
  | _ => false
  end.

Definition every_error_variant_has_stable_log_token : bool :=
  forallb (fun c => String.eqb (as_log_token c.1) c.2) [
    (TooShort 1 64, "pe_too_short"); (BadDosSignature, "pe_bad_dos_sig");
    (NtOffsetOutOfBounds 0x10000000, "pe_nt_offset_oob"); (BadNtSignature, "pe_bad_nt_sig");
    (UnsupportedMachine 0x1234, "pe_unsupported_machine"); (UnsupportedPe32, "pe_unsupported_pe32");
    (BadOptionalHeaderMagic 0xBEEF, "pe_bad_opt_magic"); (UnsupportedSubsystem 3, "pe_unsupported_subsystem");
    (ImageTooLarge (2 ^ 40) MAX_IMAGE_SIZE, "pe_image_too_large");
    (TooManySections 9000 MAX_SECTIONS, "pe_too_many_sections"); (HasImports, "pe_has_imports");
    (HasTlsCallbacks, "pe_has_tls"); (SectionOutOfBounds 3 "test", "pe_section_oob");
    (RelocationMalformed "x", "pe_reloc_malformed"); (UnsupportedRelocationType 99, "pe_reloc_unsupported");
    (EntryPointOutOfBounds, "pe_entry_oob"); (ParseFailed "x", "pe_parse_failed")]%string.

Definition hex_encode_round_trip : bool :=
  eqs (hex_encode_32
         [0x00; 0x11; 0x22; 0x33; 0x44; 0x55; 0x66; 0x77; 0x88; 0x99; 0xAA; 0xBB; 0xCC; 0xDD; 0xEE; 0xFF;
          0x01; 0x23; 0x45; 0x67; 0x89; 0xAB; 0xCD; 0xEF; 0xFE; 0xDC; 0xBA; 0x98; 0x76; 0x54; 0x32; 0x10])
    "00112233445566778899aabbccddeeff0123456789abcdeffedcba9876543210".

(** A minimal image with its header at [e_lfanew]; sixteen directory slots are
    laid out, [declared_n_rva] of them are announced. *)
Definition build_pe (target : target_arch) (e_lfanew opt_magic declared_n_rva : Z) (tls_at_9 : option (Z * Z))
    : list Z :=
  let soh := 24 + 88 + 16 * 8 in
  let coff := e_lfanew + 4 in
  let opt := coff + 20 in
  let sec := opt + soh in
  let buf_len := Z.max (sec + 40) 0x400 in
  let b := zeros (Z.to_nat buf_len) in
  let b := put 0 (bytes_of "MZ") b in
  let b := put 0x3C (to_le 4 e_lfanew) b in
  let b := put e_lfanew (bytes_of "PE" ++ [0; 0]) b in
  let b := put coff (to_le 2 (expected_machine target)) b in
  let b := put (coff + 2) (to_le 2 1) b in
  let b := put (coff + 16) (to_le 2 soh) b in
  let b := put (coff + 18) (to_le 2 0x0022) b in
  let b := put opt (to_le 2 opt_magic) b in
  let b := put (opt + 0x10) (to_le 4 0x1000) b in
  let b := put (opt + 0x18) (to_le 8 0x140000000) b in
  let b := put (opt + 0x38) (to_le 4 0x2000) b in
  let b := put (opt + 0x44) (to_le 2 10) b in
  let b := put (opt + 0x6C) (to_le 4 declared_n_rva) b in
  let b := match tls_at_9 with
           | Some (va, size) =>
               let slot := opt + 0x70 + 9 * 8 in
               put (slot + 4) (to_le 4 size) (put slot (to_le 4 va) b)
           | None => b
           end in
  let b := put sec (bytes_of ".text") b in
  let b := put (sec + 8) (to_le 4 0x1000) b in
  let b := put (sec + 12) (to_le 4 0x1000) b in
  let b := put (sec + 16) (to_le 4 0x200) b in
  let b := put (sec + 20) (to_le 4 0x200) b in
  put (sec + 36) (to_le 4 0x20000000) b.

(** [parse_headers(..).expect(..)], [validate_headers(..).expect(..)], then assertions. *)
Definition accepted (target : target_arch) (img : list Z) (f : PeSummary -> bool) : bool :=
  on_ok (parse_headers img) (fun s => on_ok (validate_headers target s img) (fun _ => f s)).

Definition omitted_dos_stub_kernel_layout_parses_and_validates (target : target_arch) : bool :=
  accepted target (build_pe target 0x40 PE32_PLUS_MAGIC 16 None) (fun s =>
    (pe_opt_magic s =? PE32_PLUS_MAGIC) && (pe_machine s =? expected_machine target) && (pe_num_sections s =? 1)
    && (pe_size_of_image s =? 0x2000) && (pe_entry_rva s =? 0x1000) && pe_entry_in_executable_section s
    && (pe_import_dir_size s =? 0) && (pe_tls_dir_size s =? 0)).

Definition dos_stub_present_layout_also_parses (target : target_arch) : bool :=
  accepted target (build_pe target 0x80 PE32_PLUS_MAGIC 16 None) (fun s => pe_entry_rva s =? 0x1000).

Definition data_directory_count_is_bounded_by_number_of_rva_and_sizes (target : target_arch) : bool :=
  let image n := build_pe target 0x40 PE32_PLUS_MAGIC n (Some (0x9000, 0x40)) in
  on_ok (parse_headers (image 6)) (fun s => pe_tls_dir_size s =? 0)
  && on_ok (parse_headers (image 16)) (fun s => pe_tls_dir_size s =? 0x40).

Definition pe32_image_is_rejected_cleanly (target : target_arch) : bool :=
  let img := build_pe target 0x40 PE32_MAGIC 16 None in
  on_ok (parse_headers img) (fun s =>
    (pe_opt_magic s =? PE32_MAGIC) && fails_with UnsupportedPe32 (validate_headers target s img)).

(** ** tests/trust_log_pure.rs *)
Definition vocabulary_tokens_are_exact_strings : bool :=
  eqs V_SHIM_MOK "shim_mok" && eqs V_FIRMWARE_DB_FALLBACK "firmware_db_fallback"
  && eqs V_DEGRADED_TRUST_SB_OFF "degraded_trust_sb_off" && eqs V_DEGRADED_TRUST_SB_DIRECT "degraded_trust_sb_direct"
  && eqs V_SHIM_REJECTED "shim_rejected" && eqs V_NATIVE_PE_LOADER "native_pe_loader"
  && eqs V_FIRMWARE_LOADIMAGE "firmware_loadimage".

Definition same (a b : list Z) : bool := bool_decide (a = b).
Definition listed (token : list Z) : bool := bool_decide (token ∈ ALL_VERIFIED_VIA).

Definition report_verified_via_maps_each_sb_state : bool :=
  same (report_verified_via ReportOff) V_DEGRADED_TRUST_SB_OFF
  && same (report_verified_via ReportDirect) V_DEGRADED_TRUST_SB_DIRECT
  && same (report_verified_via ReportShim) V_SHIM_MOK.

Definition report_verified_via_emits_only_stable_vocabulary : bool :=
  forallb (fun sb => listed (report_verified_via sb)) [ReportOff; ReportDirect; ReportShim].

Definition report_loader_native_unless_never_or_chainload : bool :=
  same (report_loader false false) V_NATIVE_PE_LOADER && same (report_loader true false) V_FIRMWARE_LOADIMAGE
  && same (report_loader false true) V_FIRMWARE_LOADIMAGE && same (report_loader true true) V_FIRMWARE_LOADIMAGE.

Definition all_verified_via_lists_every_constant : bool :=
  forallb listed [V_SHIM_MOK; V_FIRMWARE_DB_FALLBACK; V_DEGRADED_TRUST_SB_OFF; V_DEGRADED_TRUST_SB_DIRECT;
                  V_SHIM_REJECTED; V_NATIVE_PE_LOADER; V_FIRMWARE_LOADIMAGE].

Definition vocabulary_tokens_are_unique : bool := bool_decide (NoDup ALL_VERIFIED_VIA).

Definition vocabulary_tokens_are_non_empty_and_snake_case : bool :=
  forallb (fun token => negb (is_empty token)
             && forallb (fun c => is_ascii_lowercase c || (c =? 95) || is_ascii_digit c) token) ALL_VERIFIED_VIA.

(** [find] from a cursor that moves past each token found. *)
Fixpoint in_order (tokens : list string) (line : list Z) : bool :=
  match tokens with
  | [] => true
  | t :: ts => on (find_sub (qlit t) line) (fun i => in_order ts (drop (i + length (qlit t)) line))
  end.

(** Both are found, the first one first. *)
Definition precedes (a b : string) (s : list Z) : bool :=
  on (find_sub (qlit a) s) (fun i => on (find_sub (qlit b) s) (fun j => Nat.ltb i j)).

Definition newlines (s : list Z) : nat := length (filter (fun c => c = c_lf) s).
Definition ev (event : string) : TrustEvent := event_new (lit event).

Definition full_event_emits_all_mandatory_fields_in_order : bool :=
  let e := with_status (lit "SUCCESS") (with_verified_via V_SHIM_MOK (with_sha256 (lit "ab01")
             (with_size 42 (with_path (lit "/EFI/Linux/fedora.efi") (ev "image_verified"))))) in
  in_order ["`seq`:"; "`event`:`image_verified`"; "`path`:`/EFI/Linux/fedora.efi`"; "`size`:42"; "`sha256`:`ab01`";
            "`verified_via`:`shim_mok`"; "`status`:`SUCCESS`"]%string (trim_end (serialize_events [e] 0)).

Definition optional_fields_are_elided_when_empty : bool :=
  let json := serialize_events [with_verified_via V_SHIM_MOK (ev "boot_start")] 0 in
  negb (has json "verifier_tag") && negb (has json "`note`").

Definition optional_fields_are_included_when_set : bool :=
  let e := with_note (lit "MOK chain") (with_verifier_tag (lit "shim-15.8")
             (with_verified_via V_SHIM_MOK (ev "image_verified"))) in
  let json := serialize_events [e] 0 in
  has json "`verifier_tag`:`shim-15.8`" && has json "`note`:`MOK chain`" && precedes "verifier_tag" "`note`" json.

Definition each_event_is_a_single_json_line : bool :=
  let events := [with_verified_via V_SHIM_MOK (ev "boot_start"); with_verified_via V_SHIM_MOK (ev "image_verified")] in
  let json := serialize_events events 0 in
  Nat.eqb (newlines json) (length events)
  && forallb (fun line => starts_with [123] line && ends_with [125] line) (lines json).

Definition json_special_characters_in_path_are_escaped : bool :=
  let e := with_verified_via V_SHIM_MOK (with_path (qlit "C:\weird`path\with`quotes") (ev "boot_attempt")) in
  has (serialize_events [e] 0) "C:\\weird\`path\\with\`quotes".

Definition control_characters_are_unicode_escaped : bool :=
  let note := lit "line1" ++ [c_lf] ++ lit "line2" ++ [7] ++ lit "bell" in
  let json := serialize_events [with_verified_via V_SHIM_MOK (with_note note (ev "boot_attempt"))] 0 in
  let line := trim_end json in
  has line "line1\nline2" && has line "\u0007" && Nat.eqb (newlines json) 1.

Definition shim_event (event : string) : TrustEvent := with_verified_via V_SHIM_MOK (ev event).

Definition sequence_numbers_start_at_zero_and_increase : bool :=
  let log := record (shim_event "image_verified") (record (shim_event "driver_loaded")
               (record (shim_event "boot_start") log_new)) in
  let (json, _) := serialize_merged log in
  precedes "`seq`:0" "`seq`:1" json && precedes "`seq`:1" "`seq`:2" json.

Definition accumulation_preserves_events_across_flushes : bool :=
  let log := record (shim_event "boot_start") log_new in
  let (first, log) := serialize_merged log in
  let log := record (shim_event "image_verified") log in
  let (second, _) := serialize_merged log in
  has first "boot_start" && has second "boot_start" && has second "image_verified" && has second "`seq`:0"
  && has second "`seq`:1".

Definition committed_events (t : TrustLog) : list TrustEvent := tl_committed t.
Definition pending_events (t : TrustLog) : list TrustEvent := tl_events t.
Definition counts (t : TrustLog) (pending committed : nat) : bool :=
  Nat.eqb (length (pending_events t)) pending && Nat.eqb (length (committed_events t)) committed.

Definition pending_and_committed_views_are_disjoint_after_flush : bool :=
  let log := record (shim_event "boot_start") log_new in
  let (_, flushed) := serialize_merged log in
  counts log 1 0 && counts flushed 0 1 && counts (record (shim_event "image_verified") flushed) 1 1.

Definition empty_log_serializes_to_empty_string : bool := is_empty (serialize_events (committed_events log_new) 0).

Definition image_verified_precedes_image_loaded_native_in_recorded_order : bool :=
  let log := record (with_verified_via V_SHIM_MOK (with_sha256 (lit "deadbeef") (ev "image_verified"))) log_new in
  let log := record (with_verified_via V_NATIVE_PE_LOADER (with_sha256 (lit "deadbeef") (ev "image_loaded_native"))) log in
  let (json, _) := serialize_merged log in
  precedes "`event`:`image_verified`" "`event`:`image_loaded_native`" json.

(** [s.matches(pat).count()]: matches that do not overlap. *)
Fixpoint count_matches (fuel : nat) (pat s : list Z) : nat :=
  match fuel with
  | O => O
  | S f => match find_sub pat s with
           | Some i => S (count_matches f pat (drop (i + length pat) s))
           | None => O
           end
  end.

Definition sha256_round_trips_from_verified_to_loaded : bool :=
  let digest_hex := lit "abcdef0123456789abcdef0123456789abcdef0123456789abcdef0123456789" in
  let events := [with_verified_via V_SHIM_MOK (with_sha256 digest_hex (ev "image_verified"));
                 with_verified_via V_NATIVE_PE_LOADER (with_sha256 digest_hex (ev "image_loaded_native"))] in
  let json := serialize_events events 0 in
  Nat.eqb (count_matches (length json) digest_hex json) 2.

Definition default_trust_event_has_empty_fields : bool :=
  let e := ev "whatever" in
  eqs (ev_event e) "whatever" && is_empty (ev_path e) && (ev_size e =? 0) && is_empty (ev_sha256_hex e)
  && is_empty (ev_verified_via e) && is_empty (ev_status e) && is_empty (ev_note e) && is_empty (ev_verifier_tag e).

Definition builders_are_independent : bool :=
  let e := with_size 99 (with_verified_via V_SHIM_MOK (with_sha256 (lit "d") (with_verifier_tag (lit "c")
             (with_note (lit "b") (with_path (lit "a") (ev "x")))))) in
  eqs (ev_path e) "a" && eqs (ev_note e) "b" && eqs (ev_verifier_tag e) "c" && eqs (ev_sha256_hex e) "d"
  && same (ev_verified_via e) V_SHIM_MOK && (ev_size e =? 99).

Definition log_default : TrustLog := log_new.
Definition default_trust_log_is_empty_and_accumulator_ready : bool := counts log_default 0 0.

(** ** All of them *)
Definition pe_loader_tests (target : target_arch) : list bool := [
  too_short_byte_slice_rejected; bad_dos_signature_rejected; nt_offset_out_of_bounds_rejected;
  bad_nt_signature_rejected; relocation_zero_delta_is_noop_even_on_malformed_bytes;
  relocation_dir64_applies_delta_to_u64_at_rva; relocation_absolute_type_is_noop;
  relocation_size_of_block_zero_terminates; relocation_size_of_block_less_than_8_rejected;
  relocation_block_extends_past_directory_rejected; relocation_unsupported_type_rejected;
  relocation_high_low_types_explicitly_refused; relocation_target_out_of_bounds_rejected;
  every_error_variant_has_stable_log_token; hex_encode_round_trip;
  omitted_dos_stub_kernel_layout_parses_and_validates target; dos_stub_present_layout_also_parses target;
  data_directory_count_is_bounded_by_number_of_rva_and_sizes target; pe32_image_is_rejected_cleanly target
].

Definition trust_log_tests : list bool := [
  vocabulary_tokens_are_exact_strings; report_verified_via_maps_each_sb_state;
  report_verified_via_emits_only_stable_vocabulary; report_loader_native_unless_never_or_chainload;
  all_verified_via_lists_every_constant; vocabulary_tokens_are_unique;
  vocabulary_tokens_are_non_empty_and_snake_case; full_event_emits_all_mandatory_fields_in_order;
  optional_fields_are_elided_when_empty; optional_fields_are_included_when_set; each_event_is_a_single_json_line;
  json_special_characters_in_path_are_escaped; control_characters_are_unicode_escaped;
  sequence_numbers_start_at_zero_and_increase; accumulation_preserves_events_across_flushes;
  pending_and_committed_views_are_disjoint_after_flush; empty_log_serializes_to_empty_string;
  image_verified_precedes_image_loaded_native_in_recorded_order; sha256_round_trips_from_verified_to_loaded;
  default_trust_event_has_empty_fields; builders_are_independent; default_trust_log_is_empty_and_accumulator_ready
].

(** They hold for both targets. *)
Theorem loader_and_log_tests_pass (target : target_arch) :
  Forall (fun b => b = true) (pe_loader_tests target ++ trust_log_tests).
Proof. destruct target; vm_compute; repeat constructor. Qed.
