(* ===== verification/Pci.v ===== *)
(** * The PCI inventory (lamboot-modules/pci-inventory, the PCI screen of lamboot-modules/diag-shell)

    Two programs scan the configuration space the same way.  The configuration
    space of a root bridge is a function from bus, device, function and
    register to a 32-bit word, [None] where the read fails. *)
From S2P Require Import Prelude RustStr FsTypes SecurityOverride VolumeFs FatFs NvBootEntry TrustLog Report.
Local Open Scope Z_scope.

Definition pci_config : Type := Z -> Z -> Z -> Z -> option Z.

Definition VIRTIO_VENDOR_ID : Z := 0x1AF4.

Record PciDevice : Type := mkPci {
  pd_bus : Z; pd_device : Z; pd_function : Z;
  pd_vendor_id : Z; pd_device_id : Z;
  pd_class_code : Z; pd_subclass : Z; pd_prog_if : Z
}.

(** ** Names *)
Definition bdf (b d f : Z) : list Z := fmt_hex_upper 2 b ++ [c_colon] ++ fmt_hex_upper 2 d ++ [c_dot] ++ fmt_dec f.

Definition bdf_string (d : PciDevice) : list Z := bdf (pd_bus d) (pd_device d) (pd_function d).

Definition class_string (d : PciDevice) : list Z :=
  match pd_class_code d, pd_subclass d with
  | 0x00, _ => lit "Unclassified"
  | 0x01, 0x00 => lit "SCSI Controller"
  | 0x01, 0x01 => lit "IDE Controller"
  | 0x01, 0x06 => lit "SATA Controller"
  | 0x01, 0x08 => lit "NVMe Controller"
  | 0x01, _ => lit "Mass Storage"
  | 0x02, 0x00 => lit "Ethernet Controller"
  | 0x02, _ => lit "Network Controller"
  | 0x03, 0x00 => lit "VGA Controller"
  | 0x03, 0x02 => lit "3D Controller"
  | 0x03, _ => lit "Display Controller"
  | 0x04, 0x00 => lit "Video Device"
  | 0x04, (0x01 | 0x03) => lit "Audio Device"
  | 0x04, _ => lit "Multimedia"
  | 0x05, _ => lit "Memory Controller"
  | 0x06, 0x00 => lit "Host Bridge"
  | 0x06, 0x01 => lit "ISA Bridge"
  | 0x06, 0x04 => lit "PCI-PCI Bridge"
  | 0x06, _ => lit "Bridge Device"
  | 0x07, _ => lit "Communication"
  | 0x08, _ => lit "System Peripheral"
  | 0x09, _ => lit "Input Device"
  | 0x0C, 0x03 => lit "USB Controller"
  | 0x0C, _ => lit "Serial Bus"
  | 0x0D, _ => lit "Wireless"
  | 0x10, _ => lit "Encryption"
  | 0x11, _ => lit "Signal Processing"
  | _, _ => lit "Other"
  end.

(** ** The scan *)

(** Fields of a word. *)
Definition low16 (reg : Z) : Z := Z.land reg 0xFFFF.
Definition reg_byte (shift reg : Z) : Z := Z.land (Z.shiftr reg shift) 0xFF.

Section scan.
Context (cfg : pci_config).

(** [read_one(bus:00.0).map_or(true, |v| v & 0xFFFF == 0xFFFF)] *)
Definition bus_empty (bus : Z) : bool :=
  match cfg bus 0 0 0 with
  | Some v => low16 v =? 0xFFFF
  | None => true
  end.

(** The device pushed for a function whose first word is [reg0]. *)
Definition device_at (bus device function reg0 : Z) : PciDevice :=
  let reg2 := default 0 (cfg bus device function 8) in
  mkPci bus device function (low16 reg0) (Z.land (Z.shiftr reg0 16) 0xFFFF) (reg_byte 24 reg2) (reg_byte 16 reg2) (reg_byte 8 reg2).

Definition header_type (bus device : Z) : Z := reg_byte 16 (default 0 (cfg bus device 0 0x0C)).

Fixpoint scan_functions (bus device : Z) (functions : list Z) : list PciDevice :=
  match functions with
  | [] => []
  | function :: rest =>
      match cfg bus device function 0 with
      | None => scan_functions bus device rest
      | Some reg0 =>
          if low16 reg0 =? 0xFFFF then
            if function =? 0 then [] else scan_functions bus device rest
          else
            device_at bus device function reg0 ::
            (if (function =? 0) && (Z.land (header_type bus device) 0x80 =? 0) then []
             else scan_functions bus device rest)
      end
  end.

Definition scan_bus (bus : Z) : list PciDevice :=
  if bus_empty bus then [] else flat_map (fun device => scan_functions bus device (seqZ 0 8)) (seqZ 0 32).

Definition scan_root : list PciDevice := flat_map scan_bus (seqZ 0 256).
End scan.

(** [handles]: what [find_handles] gives, and for each handle what
    [open_protocol] gives. *)
Definition scan_pci_devices (handles : option (list (option pci_config))) : list PciDevice :=
  match handles with
  | None => []
  | Some hs => flat_map (fun h => match h with Some cfg => scan_root cfg | None => [] end) hs
  end.

(** ** The inventory program *)
Definition dev_type (d : PciDevice) : list Z :=
  if pd_vendor_id d =? VIRTIO_VENDOR_ID then lit "VirtIO (emulated)"
  else if pd_vendor_id d =? 0x8086 then lit "Intel"
  else if pd_vendor_id d =? 0x1022 then lit "AMD"
  else if pd_vendor_id d =? 0x10DE then lit "NVIDIA (passthrough?)"
  else if pd_vendor_id d =? 0x1002 then lit "AMD GPU (passthrough?)"
  else lit "Hardware".

(** [{:<w$}] *)
Definition pad_right (w : nat) (s : list Z) : list Z := s ++ replicate (w - length s) c_space.

Definition inventory_line (d : PciDevice) : list Z :=
  pad_right 8 (bdf_string d) ++ [c_space] ++ fmt_hex_upper 4 (pd_vendor_id d) ++ lit "  " ++ fmt_hex_upper 4 (pd_device_id d) ++
  lit "  " ++ pad_right 24 (class_string d) ++ [c_space] ++ dev_type d.

Definition virtio_count (ds : list PciDevice) : Z := len (filter (fun d => pd_vendor_id d = VIRTIO_VENDOR_ID) ds).

Definition passthrough_count (ds : list PciDevice) : Z :=
  len (filter (fun d => pd_vendor_id d <> VIRTIO_VENDOR_ID /\ pd_vendor_id d <> 0x8086 /\ pd_vendor_id d <> 0x1B36) ds).

(** What the program logs before the report is written. *)
Definition inventory_log (ds : list PciDevice) : list (list Z) :=
  [lit "PCI Device Inventory v0.1.0"; lit "==========================="; []] ++
  (match ds with
   | [] => [lit "No PCI devices found."]
   | _ =>
     [lit "Found " ++ fmt_dec (len ds) ++ lit " PCI device(s):"; [];
      pad_right 8 (lit "BDF") ++ [c_space] ++ pad_right 6 (lit "VID") ++ [c_space] ++ pad_right 6 (lit "DID") ++ [c_space] ++
        pad_right 24 (lit "Class") ++ lit " Type";
      replicate 60 c_dash] ++
     (inventory_line <$> ds) ++
     [[]; lit "VirtIO emulated: " ++ fmt_dec (virtio_count ds)] ++
     (if 0 <? passthrough_count ds then [lit "Possible passthrough: " ++ fmt_dec (passthrough_count ds)] else [])
   end).

(** *** The report *)
Definition json_quoted (s : list Z) : list Z := [c_quote] ++ s ++ [c_quote].
Definition json_field (key : string) (val : list Z) : list Z := json_quoted (lit key) ++ [c_colon] ++ json_quoted val.

Definition device_json (d : PciDevice) : list Z :=
  lit "    {" ++
  json_field "bdf" (bdf_string d) ++ [c_comma] ++
  json_field "vendor" (lit "0x" ++ fmt_hex_upper 4 (pd_vendor_id d)) ++ [c_comma] ++
  json_field "device" (lit "0x" ++ fmt_hex_upper 4 (pd_device_id d)) ++ [c_comma] ++
  json_field "class" (class_string d) ++ [c_comma] ++
  json_field "prog_if" (lit "0x" ++ fmt_hex_upper 2 (pd_prog_if d)) ++ [c_comma] ++
  json_field "type" (if pd_vendor_id d =? VIRTIO_VENDOR_ID then lit "virtio" else lit "hardware") ++
  lit "}".

Definition report_json (ds : list PciDevice) : list Z :=
  [c_lbrace; c_lf] ++ lit "  " ++ json_quoted (lit "devices") ++ lit ": [" ++ [c_lf] ++
  join_with [c_comma; c_lf] (device_json <$> ds) ++
  [c_lf] ++ lit "  ]" ++ [c_lf; c_rbrace; c_lf].

Definition PCI_REPORT : list Z := lit "\EFI\LamBoot\reports\pci-inventory.json".

(** Every failure ends the function in silence; the result is whether the
    message that the report was written is logged. [volume]: the loaded image
    has a device, and its file system opens. *)
Definition write_report {St : Type} `{Sfs St} (volume : bool) (ds : list PciDevice) (s : St) : bool * St :=
  if negb volume then (false, s)
  else match sfs_root s, sfs_name (St := St) PCI_REPORT with
  | Ok _, Some path =>
      match sfs_create path false s with
      | (Ok Regular, s) => (true, (sfs_write path (Some 0) (str_bytes (report_json ds)) s).2)
      | (_, s) => (false, s)
      end
  | _, _ => (false, s)
  end.

(** ** The screen of the shell *)
Definition pci_class_name (class subclass : Z) : list Z :=
  match class, subclass with
  | 0x01, 0x00 => lit "SCSI"
  | 0x01, 0x06 => lit "SATA"
  | 0x01, 0x08 => lit "NVMe"
  | 0x01, _ => lit "Storage"
  | 0x02, _ => lit "Network"
  | 0x03, 0x00 => lit "VGA"
  | 0x03, _ => lit "Display"
  | 0x04, _ => lit "Multimedia"
  | 0x06, 0x00 => lit "Host Bridge"
  | 0x06, 0x01 => lit "ISA Bridge"
  | 0x06, 0x04 => lit "PCI Bridge"
  | 0x06, _ => lit "Bridge"
  | 0x08, _ => lit "System"
  | 0x0C, 0x03 => lit "USB"
  | 0x0C, _ => lit "Serial Bus"
  | _, _ => lit "Other"
  end.

Definition shell_pci_line (bus device function vid did class subclass : Z) : list Z :=
  bdf bus device function ++ lit "  " ++ fmt_hex_upper 4 vid ++ lit "  " ++ fmt_hex_upper 4 did ++ lit "  " ++
  pci_class_name class subclass ++ (if vid =? 0x1AF4 then lit " [virtio]" else []).

(** The lines printed so far and the count. *)
Definition screen : Type := (list (list Z) * Z)%type.

Section shell_scan.
Context (cfg : pci_config).

Fixpoint shell_functions (bus device : Z) (functions : list Z) (out : screen) : screen :=
  match functions with
  | [] => out
  | function :: rest =>
      match cfg bus device function 0 with
      | None => shell_functions bus device rest out
      | Some reg0 =>
          let vid := low16 reg0 in
          if vid =? 0xFFFF then
            if function =? 0 then out else shell_functions bus device rest out
          else
            let did := Z.land (Z.shiftr reg0 16) 0xFFFF in
            let reg2 := default 0 (cfg bus device function 8) in
            let line := shell_pci_line bus device function vid did (reg_byte 24 reg2) (reg_byte 16 reg2) in
            let out := (out.1 ++ [line], out.2 + 1) in
            if (function =? 0) && (Z.land (Z.shiftr (default 0 (cfg bus device 0 0x0C)) 16) 0x80 =? 0) then out
            else shell_functions bus device rest out
      end
  end.

Definition shell_bus (out : screen) (bus : Z) : screen :=
  if bus_empty cfg bus then out
  else fold_left (fun out device => shell_functions bus device (seqZ 0 8) out) (seqZ 0 32) out.

Definition shell_root (out : screen) : screen := fold_left shell_bus (seqZ 0 256) out.
End shell_scan.

Definition show_pci_devices (handles : option (list (option pci_config))) : list (list Z) :=
  lit "=== PCI Device Inventory ===" :: [] ::
  match handles with
  | None => [lit "No PCI Root Bridge found."]
  | Some hs =>
      let '(lines, count) :=
        fold_left (fun out h => match h with Some cfg => shell_root cfg out | None => out end) hs ([], 0) in
      [pad_right 8 (lit "BDF") ++ [c_space] ++ pad_right 6 (lit "VID") ++ [c_space] ++ pad_right 6 (lit "DID") ++ lit " Class";
       replicate 38 c_dash] ++ lines ++ [[]; lit "Total: " ++ fmt_dec count ++ lit " devices"]
  end.

(** ** What is listed *)
Section listed.
Context (cfg : pci_config).

(** A function that answers with a vendor. *)
Definition answers (b d f : Z) (x : PciDevice) : Prop :=
  exists reg0, cfg b d f 0 = Some reg0 /\ low16 reg0 <> 0xFFFF /\ x = device_at cfg b d f reg0.

(** Function 0 says that there is no device, or that it is the only function. *)
Definition slot_closed (b d : Z) : Prop :=
  exists reg0, cfg b d 0 0 = Some reg0 /\ (low16 reg0 = 0xFFFF \/ Z.land (header_type cfg b d) 0x80 = 0).

Definition listed (x : PciDevice) : Prop :=
  exists b d f, 0 <= b < 256 /\ 0 <= d < 32 /\ 0 <= f < 8 /\ bus_empty cfg b = false /\ answers b d f x /\
    (f = 0 \/ ~ slot_closed b d).

Lemma scan_functions_rest (b d : Z) (fs : list Z) (x : PciDevice) :
  0 ∉ fs -> (x ∈ scan_functions cfg b d fs <-> exists f, f ∈ fs /\ answers b d f x).
Proof.
  unfold answers. induction fs as [|f fs IH]; intros H0; [set_solver|]. apply not_elem_of_cons in H0 as [Hf H0]. specialize (IH H0).
  cbn [scan_functions]. rewrite (proj2 (Z.eqb_neq f 0)) by congruence. cbn [andb]. cbv iota.
  setoid_rewrite elem_of_cons.
  destruct (cfg b d f 0) as [r|] eqn:E; [destruct (Z.eqb_spec (low16 r) 0xFFFF) as [Hr|Hr]|]; cbv iota.
  - rewrite IH. naive_solver.
  - rewrite elem_of_cons, IH. naive_solver.
  - rewrite IH. naive_solver.
Qed.

Lemma scan_functions_spec (b d : Z) (x : PciDevice) :
  x ∈ scan_functions cfg b d (seqZ 0 8) <-> exists f, 0 <= f < 8 /\ answers b d f x /\ (f = 0 \/ ~ slot_closed b d).
Proof.
  change (seqZ 0 8) with (0 :: seqZ 1 7). cbn [scan_functions]. rewrite Z.eqb_refl. cbn [andb].
  pose proof (scan_functions_rest b d (seqZ 1 7) x) as Hrest. rewrite elem_of_seqZ in Hrest. specialize (Hrest ltac:(lia)).
  setoid_rewrite elem_of_seqZ in Hrest.
  assert (forall P : Z -> Prop, (exists f, 0 <= f < 8 /\ P f) <-> P 0 \/ exists f, 1 <= f < 1 + 7 /\ P f) as Hsplit.
  { intros P. split.
    - intros (f & Hf & HP). destruct (decide (f = 0)) as [->|]; [by left|]. right. exists f. split; [lia|done].
    - intros [HP|(f & Hf & HP)]; [exists 0|exists f]; (split; [lia|done]). }
  rewrite (Hsplit (fun f => answers b d f x /\ (f = 0 \/ ~ slot_closed b d))). clear Hsplit.
  assert ((exists f, 1 <= f < 1 + 7 /\ answers b d f x /\ (f = 0 \/ ~ slot_closed b d)) <->
          ~ slot_closed b d /\ exists f, 1 <= f < 1 + 7 /\ answers b d f x) as ->
    by (split; [intros (f & Hf & Ha & [->|Hc]); [lia|eauto]|intros (Hc & f & Hf & Ha); eauto 6]).
  rewrite <- Hrest. clear Hrest. generalize (scan_functions cfg b d (seqZ 1 7)) as l. intros l.
  destruct (cfg b d 0 0) as [r|] eqn:E.
  2: { split; [intros Hx; right; split; [intros (r & Hr & _); congruence|done]|].
       intros [((r & Hr & _) & _)|[_ Hx]]; [congruence|done]. }
  destruct (Z.eqb_spec (low16 r) 0xFFFF) as [Hr|Hr].
  { rewrite elem_of_nil. split; [done|]. intros [((r' & Hr' & Hn & _) & _)|[Hc _]]; [congruence|]. apply Hc. exists r. auto. }
  assert (answers b d 0 x <-> x = device_at cfg b d 0 r) as ->
    by (split; [intros (r' & Hr' & _ & ->); congruence|intros ->; exists r; auto]).
  destruct (Z.eqb_spec (Z.land (header_type cfg b d) 128) 0) as [Hh|Hh]; rewrite elem_of_cons.
  - rewrite elem_of_nil. split; [intros [->|[]]; auto|]. intros [[-> _]|[Hc _]]; [auto|]. destruct Hc. exists r. auto.
  - assert (~ slot_closed b d) as Hc by (intros (r' & Hr' & [?|?]); congruence). split; [intros [->|Hx]; auto|]. intros [[-> _]|[_ Hx]]; auto.
Qed.

Lemma elem_of_flat_map {A B : Type} (f : A -> list B) (l : list A) (x : B) : x ∈ flat_map f l <-> exists a, a ∈ l /\ x ∈ f a.
Proof. rewrite list_elem_of_In, in_flat_map. setoid_rewrite list_elem_of_In. done. Qed.

Lemma scan_root_spec (x : PciDevice) : x ∈ scan_root cfg <-> listed x.
Proof.
  assert (forall b, x ∈ scan_bus cfg b <-> bus_empty cfg b = false /\
    exists d, 0 <= d < 32 /\ exists f, 0 <= f < 8 /\ answers b d f x /\ (f = 0 \/ ~ slot_closed b d)) as Hb.
  { intros b. unfold scan_bus. destruct (bus_empty cfg b); [set_solver|]. rewrite elem_of_flat_map.
    split; [intros (d & Hd%elem_of_seqZ & Hx%scan_functions_spec); eauto|].
    intros (_ & d & Hd & Hx%scan_functions_spec). exists d. by rewrite elem_of_seqZ. }
  unfold scan_root, listed. rewrite elem_of_flat_map. split.
  - intros (b & Hr%elem_of_seqZ & (Hne & d & Hd & f & Hf & Ha & Ho)%Hb). by exists b, d, f.
  - intros (b & d & f & Hr & Hd & Hf & Hne & Ha & Ho). exists b. rewrite elem_of_seqZ, Hb. eauto 10.
Qed.
End listed.

(** The position of a device. *)
Definition position (x : PciDevice) : Z * Z * Z := (pd_bus x, pd_device x, pd_function x).

Lemma NoDup_flat_map {A B K : Type} (key : B -> K) (kind : B -> A) (f : A -> list B) (l : list A) :
  NoDup l -> (forall a, a ∈ l -> NoDup (key <$> f a)) -> (forall a x, x ∈ f a -> kind x = a) ->
  (forall x y, key x = key y -> kind x = kind y) -> NoDup (key <$> flat_map f l).
Proof.
  intros Hl Hf Hk Hkey. induction Hl as [|a l Ha Hl IH]; [constructor|]. cbn [flat_map]. rewrite fmap_app. apply NoDup_app. split_and!.
  - apply Hf. set_solver.
  - intros k Hin1 Hin2. apply list_elem_of_fmap in Hin1 as (x & -> & Hx). apply list_elem_of_fmap in Hin2 as (y & Hxy & Hy).
    rewrite elem_of_flat_map in Hy. destruct Hy as (a' & Ha' & Hy). apply Hkey in Hxy. rewrite (Hk a x Hx), (Hk a' y Hy) in Hxy. by subst.
  - apply IH. intros a' Ha'. apply Hf. set_solver.
Qed.

Lemma scan_functions_position (cfg : pci_config) (b d : Z) (fs : list Z) (x : PciDevice) :
  x ∈ scan_functions cfg b d fs -> pd_bus x = b /\ pd_device x = d /\ pd_function x ∈ fs.
Proof.
  induction fs as [|f fs IH]; cbn [scan_functions]; [set_solver|].
  destruct (cfg b d f 0) as [r|]; [|set_solver]. destruct (low16 r =? 0xFFFF); [destruct (f =? 0); set_solver|].
  rewrite elem_of_cons. intros [->|Hx]; [set_solver|]. destruct (_ && _); set_solver.
Qed.

Lemma scan_functions_NoDup (cfg : pci_config) (b d : Z) (fs : list Z) : NoDup fs -> NoDup (position <$> scan_functions cfg b d fs).
Proof.
  induction 1 as [|f fs Hf Hfs IH]; cbn [scan_functions]; [constructor|].
  destruct (cfg b d f 0) as [r|]; [|done]. destruct (low16 r =? 0xFFFF); [destruct (f =? 0); [constructor|done]|].
  rewrite fmap_cons. constructor; [|by destruct (_ && _); [constructor|]]. destruct (_ && _); [set_solver|].
  intros (x & Hp & Hx)%list_elem_of_fmap. apply scan_functions_position in Hx as (_ & _ & Hx). by injection Hp as _ _ ->.
Qed.

Lemma scan_root_NoDup (cfg : pci_config) : NoDup (position <$> scan_root cfg).
Proof.
  assert (forall b x, x ∈ scan_bus cfg b -> pd_bus x = b) as Hbus.
  { intros b x. unfold scan_bus. destruct (bus_empty cfg b); [set_solver|]. rewrite elem_of_flat_map.
    intros (d & _ & Hx). by apply scan_functions_position in Hx as (? & _). }
  apply (NoDup_flat_map position pd_bus); [apply NoDup_seqZ| |done|by intros x y [= ? ? ?]].
  intros b _. unfold scan_bus. destruct (bus_empty cfg b); [constructor|].
  apply (NoDup_flat_map position pd_device); [apply NoDup_seqZ| | |by intros x y [= ? ? ?]].
  - intros d _. apply scan_functions_NoDup, NoDup_seqZ.
  - intros d x Hx. by apply scan_functions_position in Hx as (_ & ? & _).
Qed.

(** Root bridges answer for different buses. *)
Definition disjoint_bridges (hs : list (option pci_config)) : Prop :=
  forall i j c c' b, hs !! i = Some (Some c) -> hs !! j = Some (Some c') -> bus_empty c b = false -> bus_empty c' b = false -> i = j.

(** The inventory lists every function of every root bridge that answers, on a
    bus whose first device answers, with function 0 of its slot open, and lists
    nothing else; no function is listed twice when the bridges share no bus. *)
Theorem scan_lists_functions (hs : list (option pci_config)) :
  (forall x, x ∈ scan_pci_devices (Some hs) <-> exists cfg, Some cfg ∈ hs /\ listed cfg x) /\
  (disjoint_bridges hs -> NoDup (position <$> scan_pci_devices (Some hs))).
Proof.
  split.
  - intros x. unfold scan_pci_devices. rewrite elem_of_flat_map. split.
    + intros ([cfg|] & Hc & Hx); [|set_solver]. exists cfg. by rewrite <- scan_root_spec.
    + intros (cfg & Hc & Hx). exists (Some cfg). by rewrite scan_root_spec.
  - intros Hd. unfold scan_pci_devices. induction hs as [|h hs IH]; [constructor|]. cbn [flat_map]. rewrite fmap_app.
    apply NoDup_app. split_and!.
    + destruct h; [apply scan_root_NoDup|constructor].
    + intros p (x & -> & Hx)%list_elem_of_fmap (y & Hxy & Hy)%list_elem_of_fmap.
      destruct h as [c|]; [|set_solver]. apply elem_of_flat_map in Hy as ([c'|] & Hc' & Hy); [|set_solver].
      apply list_elem_of_lookup in Hc' as [j Hj].
      apply scan_root_spec in Hx as (b & d & f & _ & _ & _ & Hb & (r & _ & _ & ->) & _).
      apply scan_root_spec in Hy as (b' & d' & f' & _ & _ & _ & Hb' & (r' & _ & _ & ->) & _).
      injection Hxy as -> _ _. by specialize (Hd 0%nat (S j) c c' b' eq_refl Hj Hb Hb').
    + apply IH. intros i j c c' b Hi Hj Hb Hb'. by injection (Hd (S i) (S j) c c' b Hi Hj Hb Hb').
Qed.

(** ** The two scans agree *)
Definition screen_of (out : screen) (ds : list PciDevice) : screen :=
  (out.1 ++ ((fun x => shell_pci_line (pd_bus x) (pd_device x) (pd_function x) (pd_vendor_id x) (pd_device_id x)
                        (pd_class_code x) (pd_subclass x)) <$> ds), out.2 + len ds).

Lemma screen_of_nil (out : screen) : screen_of out [] = out.
Proof. destruct out. unfold screen_of. simpl. rewrite app_nil_r, len_nil. f_equal. lia. Qed.

Lemma screen_of_app (out : screen) (l k : list PciDevice) : screen_of out (l ++ k) = screen_of (screen_of out l) k.
Proof. unfold screen_of. simpl. rewrite fmap_app, app_assoc, len_app. f_equal. lia. Qed.

Lemma fold_screen {A : Type} (f : screen -> A -> screen) (g : A -> list PciDevice) (l : list A) (out : screen) :
  (forall out a, f out a = screen_of out (g a)) -> fold_left f l out = screen_of out (flat_map g l).
Proof.
  intros Hf. revert out. induction l as [|a l IH]; intros out; cbn [fold_left flat_map]; [by rewrite screen_of_nil|].
  by rewrite Hf, IH, screen_of_app.
Qed.

Lemma multi_function_bit (reg : Z) : Z.land (reg_byte 16 reg) 0x80 = Z.land (Z.shiftr reg 16) 0x80.
Proof. unfold reg_byte. by rewrite <- Z.land_assoc. Qed.

Lemma shell_functions_spec (cfg : pci_config) (b d : Z) (fs : list Z) (out : screen) :
  shell_functions cfg b d fs out = screen_of out (scan_functions cfg b d fs).
Proof.
  revert out. induction fs as [|f fs IH]; intros out; cbn [shell_functions scan_functions]; [by rewrite screen_of_nil|].
  destruct (cfg b d f 0) as [r|]; [|done].
  destruct (low16 r =? 0xFFFF); [destruct (f =? 0); [by rewrite screen_of_nil|done]|].
  unfold header_type. rewrite multi_function_bit, IH.
  assert (forall l, screen_of out (device_at cfg b d f r :: l) =
    screen_of (out.1 ++ [shell_pci_line b d f (low16 r) (Z.land (Z.shiftr r 16) 65535)
      (reg_byte 24 (default 0 (cfg b d f 8))) (reg_byte 16 (default 0 (cfg b d f 8)))], out.2 + 1) l) as Hs.
  { intros l. unfold screen_of. simpl. rewrite <- app_assoc, len_cons. f_equal. lia. }
  destruct (_ && _); rewrite Hs; [by rewrite screen_of_nil|done].
Qed.

Lemma shell_root_spec (cfg : pci_config) (out : screen) : shell_root cfg out = screen_of out (scan_root cfg).
Proof.
  apply fold_screen. intros o b. unfold shell_bus, scan_bus. destruct (bus_empty cfg b); [by rewrite screen_of_nil|].
  apply fold_screen. intros. apply shell_functions_spec.
Qed.

(** The screen of the shell shows exactly the devices of the inventory, in the
    same order, and their number. *)
Theorem shell_shows_inventory (hs : list (option pci_config)) :
  let ds := scan_pci_devices (Some hs) in
  exists heading,
    show_pci_devices (Some hs) =
    heading ++ ((fun x => shell_pci_line (pd_bus x) (pd_device x) (pd_function x) (pd_vendor_id x) (pd_device_id x)
                  (pd_class_code x) (pd_subclass x)) <$> ds) ++ [[]; lit "Total: " ++ fmt_dec (len ds) ++ lit " devices"].
Proof.
  cbv zeta. unfold show_pci_devices, scan_pci_devices.
  rewrite (fold_screen _ (fun h => match h with Some cfg => scan_root cfg | None => [] end))
    by (intros o [cfg|]; [apply shell_root_spec|by rewrite screen_of_nil]).
  unfold screen_of. cbn [fst snd app]. eexists (_ :: _ :: _ :: [_]). cbn [app]. reflexivity.
Qed.

(** A bus is taken for empty when its device 0 is: a network card in slot 1 of
    a bus behind a bridge is not listed. *)
Definition card_in_slot_1 : pci_config := fun b d f reg =>
  if (f =? 0) && (((b =? 0) && (d =? 0)) || ((b =? 1) && (d =? 1))) then
    if reg =? 0 then Some 0x10001AF4 else if reg =? 8 then Some 0x02000000 else Some 0
  else Some 0xFFFFFFFF.

Theorem slot_0_hides_bus :
  answers card_in_slot_1 1 1 0 (mkPci 1 1 0 0x1AF4 0x1000 2 0 0) /\
  position <$> scan_pci_devices (Some [Some card_in_slot_1]) = [(0, 0, 0)].
Proof. split; [exists 0x10001AF4; split_and!; [reflexivity|discriminate|reflexivity]|]. vm_compute. reflexivity. Qed.

(** ** The names and the report *)
Lemma bdf_inj (b d f b' d' f' : Z) :
  0 <= b < 256 -> 0 <= b' < 256 -> 0 <= d < 256 -> 0 <= d' < 256 -> 0 <= f -> 0 <= f' ->
  bdf b d f = bdf b' d' f' -> (b, d, f) = (b', d', f').
Proof.
  intros Hb Hb' Hd Hd' Hf Hf' E. unfold bdf in E.
  assert (forall n, length (fmt_hex_upper 2 n) = 2%nat) as Hl by (intros; apply length_fmt_hex_go).
  assert (forall n m, 0 <= n < 256 -> 0 <= m < 256 -> fmt_hex_upper 2 n = fmt_hex_upper 2 m -> n = m) as Hi
    by (intros n m Hn Hm; apply fmt_hex_inj; [apply hex_upper_digit_inj|done..]).
  apply app_inj_1 in E as [Eb E]; [|by rewrite !Hl]. apply app_inj_1 in E as [_ E]; [|done].
  apply app_inj_1 in E as [Ed E]; [|by rewrite !Hl]. apply app_inj_1 in E as [_ E]; [|done].
  apply Hi in Eb; [|done..]. apply Hi in Ed; [|done..].
  apply (f_equal (parse_digits 0)) in E. rewrite !parse_digits_fmt_dec in E by done. congruence.
Qed.

(** Two entries of the inventory have different names. *)
Theorem bdf_names_distinct (cfg : pci_config) : NoDup (bdf_string <$> scan_root cfg).
Proof.
  pose proof (scan_root_NoDup cfg) as Hn. assert (Forall (listed cfg) (scan_root cfg)) as Hl
    by (apply Forall_forall; intros x; apply scan_root_spec).
  revert Hn Hl. induction (scan_root cfg) as [|x l IH]; intros Hn Hl; [constructor|].
  rewrite fmap_cons in *. apply NoDup_cons in Hn as [Hx Hn]. apply Forall_cons in Hl as [Hlx Hl]. apply NoDup_cons.
  split; [|by apply IH]. intros (y & Hxy & Hy)%list_elem_of_fmap. apply Hx, list_elem_of_fmap. exists y. split; [|done].
  rewrite Forall_forall in Hl. specialize (Hl y Hy).
  destruct Hlx as (b & d & f & ? & ? & ? & _ & (r & _ & _ & ->) & _). destruct Hl as (b' & d' & f' & ? & ? & ? & _ & (r' & _ & _ & ->) & _).
  change (bdf b d f = bdf b' d' f') in Hxy. apply bdf_inj in Hxy; [|lia..]. exact Hxy.
Qed.

(** What a device's entry of the report says. *)
Definition device_object (d : PciDevice) : json :=
  JsObj [(lit "bdf", JsStr (bdf_string d));
         (lit "vendor", JsStr (lit "0x" ++ fmt_hex_upper 4 (pd_vendor_id d)));
         (lit "device", JsStr (lit "0x" ++ fmt_hex_upper 4 (pd_device_id d)));
         (lit "class", JsStr (class_string d));
         (lit "prog_if", JsStr (lit "0x" ++ fmt_hex_upper 2 (pd_prog_if d)));
         (lit "type", JsStr (if pd_vendor_id d =? VIRTIO_VENDOR_ID then lit "virtio" else lit "hardware"))].

(** Text that needs no escape. *)
Definition plain_text (s : list Z) : Prop := Forall (fun c => 32 <= c < 127 /\ c <> c_quote /\ c <> c_backslash) s.

Lemma plain_app (s t : list Z) : plain_text s -> plain_text t -> plain_text (s ++ t).
Proof. intros. by apply Forall_app. Qed.

Lemma plain_digits (s : list Z) : Forall (fun c => is_ascii_digit c = true) s -> plain_text s.
Proof. intros Hs. eapply Forall_impl; [exact Hs|]. intros c. unfold is_ascii_digit, c_quote, c_backslash. lia. Qed.

Lemma plain_hex (w : nat) (n : Z) : plain_text (fmt_hex_upper w n).
Proof.
  unfold fmt_hex_upper. assert (forall acc, plain_text acc -> plain_text (fmt_hex_go hex_upper_digit w n acc)) as Hg; [|by apply Hg; constructor].
  revert n. induction w as [|w IH]; intros n acc Ha; [done|]. cbn [fmt_hex_go]. apply IH. constructor; [|done].
  unfold hex_upper_digit, c_quote, c_backslash. pose proof (Z.mod_pos_bound n 16). destruct (Z.ltb_spec (n mod 16) 10); lia.
Qed.

Lemma plain_dec (s : list Z) : forallb (fun c => (32 <=? c) && (c <? 127) && negb (c =? c_quote) && negb (c =? c_backslash)) s = true -> plain_text s.
Proof.
  rewrite forallb_forall. intros Hs. apply Forall_forall. intros c Hc%list_elem_of_In. apply Hs in Hc. lia.
Qed.

Lemma plain_class (d : PciDevice) : plain_text (class_string d).
Proof. unfold class_string. repeat case_match; by apply plain_dec. Qed.

Lemma plain_escape (s : list Z) : plain_text s -> json_escape s = s.
Proof.
  unfold json_escape. induction 1 as [|c s (Hc & Hq & Hb) _ IH]; [done|]. cbn [flat_map]. rewrite IH. unfold json_escape_char.
  unfold c_lf, c_cr, c_tab. by rewrite !(proj2 (Z.eqb_neq _ _)), (proj2 (Z.ltb_ge _ _)) by lia.
Qed.

Lemma plain_bdf (d : PciDevice) : plain_text (bdf_string d).
Proof.
  unfold bdf_string, bdf. repeat apply plain_app; try apply plain_hex; try (by apply plain_dec).
  apply plain_digits, fmt_dec_digits.
Qed.

(** A field of the report as a member. *)
Definition plain_member (key : string) (val : list Z) : member := (lit key, json_quoted val, JsStr val).

Lemma reads_json_quoted (fuel : nat) (s : list Z) : plain_text s -> reads (S fuel) (json_quoted s) (JsStr s).
Proof.
  intros Hs d rest _. unfold json_quoted. rewrite <- (plain_escape s Hs) at 1. cbn [app]. rewrite <- app_assoc. cbn [app read_json].
  change (skip_ws (c_quote :: ?x)) with (c_quote :: x). cbv iota. rewrite Z.eqb_refl.
  rewrite read_json_escaped; [done|]. eapply Forall_impl; [exact Hs|]. simpl. lia.
Qed.

Lemma plain_member_ok (key : string) (val : list Z) : plain_text (lit key) -> plain_text val -> member_ok 1 (plain_member key val).
Proof.
  intros Hk Hv. split_and!; [by apply plain_escape|eapply Forall_impl; [exact Hk|simpl; lia]|].
  intros [|fuel] Hf; [lia|]. by apply reads_json_quoted.
Qed.

(** The text of every entry of the report is a JSON object with the device's
    name, its numbers, its class and its type. *)
Theorem device_json_reads (d : PciDevice) : reads 8 (device_json d) (device_object d).
Proof.
  set (ms := [plain_member "bdf" (bdf_string d); plain_member "vendor" (lit "0x" ++ fmt_hex_upper 4 (pd_vendor_id d));
    plain_member "device" (lit "0x" ++ fmt_hex_upper 4 (pd_device_id d)); plain_member "class" (class_string d);
    plain_member "prog_if" (lit "0x" ++ fmt_hex_upper 2 (pd_prog_if d));
    plain_member "type" (if pd_vendor_id d =? VIRTIO_VENDOR_ID then lit "virtio" else lit "hardware")]).
  assert (device_json d = lit "    " ++ [c_lbrace] ++ join_with [c_comma] (print_member [] <$> ms) ++ [] ++ [c_rbrace]) as ->.
  { unfold ms. cbn [fmap list_fmap join_with]. unfold device_json, print_member, plain_member, json_field, json_quoted.
    cbn [fst snd]. rewrite <- !app_assoc. reflexivity. }
  apply (reads_object _ _ _ ms 1 8); [repeat constructor|constructor|constructor| |done|simpl; lia].
  unfold ms. repeat apply Forall_cons_2; try apply Forall_nil_2; apply plain_member_ok; try (by apply plain_dec);
    try (apply plain_app; [by apply plain_dec|apply plain_hex]); [apply plain_bdf|apply plain_class|].
  destruct (_ =? _); by apply plain_dec.
Qed.

(** The bytes a file starts with: none when it does not exist yet. *)
Definition bytes_before {St : Type} `{SfsLaws St} (s : St) (path : list Z) : option (list Z) :=
  match sfs_view s path with
  | Some (NFile d) => Some d
  | Some NDir => None
  | None => Some []
  end.

(** The report is written over the old one from its start: when the message is
    logged, the file is a first part of the new report (all of it when the write
    succeeds) followed by what the old report had after that. *)
Theorem report_keeps_tail {St : Type} `{SfsLaws St} (ds : list PciDevice) (path old : list Z) (s s' : St) :
  sfs_name (St := St) PCI_REPORT = Some path -> bytes_before s path = Some old -> write_report true ds s = (true, s') ->
  exists n, let data := take n (str_bytes (report_json ds)) in
    sfs_view s' path = Some (NFile (data ++ drop (length data) old)).
Proof.
  intros Hn Ho. unfold write_report. rewrite Hn. cbn [negb]. generalize (str_bytes (report_json ds)) as data. intros data.
  destruct (sfs_root s); try done. pose proof (create_view path false s) as Hc.
  destruct (sfs_create path false s) as [[k|?|] s1]; try done.
  assert (k = Regular -> sfs_view s1 path = Some (NFile old)) as Hv.
  { unfold bytes_before in Ho. destruct (sfs_view s path) as [[d|]|] eqn:E; [|done|]; injection Ho as <-; destruct Hc as [-> Hc]; intros _.
    - by rewrite Hc.
    - by rewrite Hc, bool_decide_true. }
  destruct k; [|done..]. specialize (Hv eq_refl). intros [= <-].
  pose proof (write_view path (Some 0) data s1 old Hv) as Hw. destruct (sfs_write path (Some 0) data s1) as [r s2].
  destruct Hw as (n & _ & Hw). exists n. cbn [snd]. by rewrite Hw, bool_decide_true.
Qed.

(** With one device less than the last time, the file ends with the end of the
    old report after the end of the new one, so it is no JSON text. *)
Definition pci_demo_device (b : Z) : PciDevice := mkPci b 0 0 0x1AF4 0x1000 2 0 0.
Definition pci_demo_volume : SimFat :=
  sim_of [(PCI_REPORT, str_bytes (report_json [pci_demo_device 0; pci_demo_device 1]))] no_refusal.

Theorem shorter_report_garbled :
  let '(said, s) := write_report true [pci_demo_device 0] pci_demo_volume in
  said = true /\
  exists tail, sim_look s PCI_REPORT = Some (NFile (str_bytes (report_json [pci_demo_device 0]) ++ tail)) /\ length tail = 122%nat.
Proof. vm_compute. split; [reflexivity|]. eexists. split; [reflexivity|]. reflexivity. Qed.

Lemma scan_lists_functions_witness :
  NoDup (position <$> scan_pci_devices (Some [Some card_in_slot_1; None])).
Proof.
  apply (proj2 (scan_lists_functions [Some card_in_slot_1; None])). intros i j c c' b Hi Hj _ _.
  destruct i as [|[|[]]], j as [|[|[]]]; simpl in *; congruence.
Defined.
