(* ===== verification/MemTest.v ===== *)
(** * The memory test (lamboot-modules/mem-quick, the memory screen of lamboot-modules/diag-shell)

    The tests write a buffer and read it back.  What a memory cell returns is
    up to the hardware, so the tests are over an interface of two operations;
    [faulty] is a memory with stuck bits and a faulty address decoder, for
    which the theorems say what each test finds. *)
From S2P Require Import Prelude RustStr.
From Stdlib Require Import Znumtheory.
Local Open Scope Z_scope.

(** ** The memory map *)
Record MemoryDescriptor : Type := mkDesc { md_type : Z; md_page_count : Z }.

Definition CONVENTIONAL : Z := 7.

Record MemorySums : Type := mkSums { ms_total : Z; ms_conventional : Z; ms_regions : Z }.

(** 64-bit sums; an overflow wraps in a release build. *)
Definition add_region (s : MemorySums) (d : MemoryDescriptor) : MemorySums :=
  let size := wrap 64 (md_page_count d * 4096) in
  let total := wrapping_add 64 (ms_total s) size in
  if md_type d =? CONVENTIONAL then
    mkSums total (wrapping_add 64 (ms_conventional s) size) (wrapping_add 32 (ms_regions s) 1)
  else mkSums total (ms_conventional s) (ms_regions s).

Definition memory_sums (entries : list MemoryDescriptor) : MemorySums := fold_left add_region entries (mkSums 0 0 0).

Definition MB : Z := 1024 * 1024.

(** The screen; [None]: the map cannot be read. *)
Definition show_memory_map (map : option (list MemoryDescriptor)) (error : list Z) : list (list Z) :=
  [lit "=== UEFI Memory Map ==="; []] ++
  match map with
  | Some entries =>
      let s := memory_sums entries in
      [lit "  Total memory:       " ++ fmt_dec (ms_total s / MB) ++ lit " MB";
       lit "  Conventional:       " ++ fmt_dec (ms_conventional s / MB) ++ lit " MB (" ++ fmt_dec (ms_regions s) ++ lit " regions)";
       lit "  Used by firmware:   " ++ fmt_dec (wrapping_sub 64 (ms_total s) (ms_conventional s) / MB) ++ lit " MB"]
  | None => [lit "  Failed to get memory map: " ++ error]
  end.

(** ** The tests *)
Class Ram (M : Type) := {
  ram_read : Z -> M -> Z;
  ram_write : Z -> Z -> M -> M
}.

Section tests.
Context {M : Type} `{Ram M}.

Definition write_all (pattern : Z -> Z) (size : Z) (m : M) : M :=
  fold_left (fun m i => ram_write i (pattern i) m) (seqZ 0 size) m.

(** The first mismatch: offset, expected and found. *)
Fixpoint verify (pattern : Z -> Z) (offsets : list Z) (m : M) : option (Z * Z * Z) :=
  match offsets with
  | [] => None
  | i :: rest => if ram_read i m =? pattern i then verify pattern rest m else Some (i, pattern i, ram_read i m)
  end.

Fixpoint walking_loop (bits : list Z) (size : Z) (m : M) : option (Z * Z * Z) * M :=
  match bits with
  | [] => (None, m)
  | bit :: rest =>
      let pattern := fun _ => wrap 8 (Z.shiftl 1 bit) in
      let m := write_all pattern size m in
      match verify pattern (seqZ 0 size) m with
      | Some e => (Some e, m)
      | None => walking_loop rest size m
      end
  end.

(** The mismatch that is logged, if any; the result of the source's function is
    whether there is none.  The buffer starts zeroed. *)
Definition run_walking_ones_test (size : Z) (m : M) : option (Z * Z * Z) * M :=
  walking_loop (seqZ 0 8) size (write_all (fun _ => 0) size m).

Definition address_pattern (i : Z) : Z := wrap 8 (i mod 251).

Definition run_address_pattern_test (size : Z) (m : M) : option (Z * Z * Z) * M :=
  let m := write_all (fun _ => 0) size m in
  let m := write_all address_pattern size m in
  (verify address_pattern (seqZ 0 size) m, m).

Definition mismatch_line (e : Z * Z * Z) : list Z :=
  let '(i, expected, got) := e in
  lit "Mismatch at offset " ++ fmt_dec i ++ lit ": expected 0x" ++ fmt_hex_lower 2 expected ++ lit ", got 0x" ++ fmt_hex_lower 2 got.

Definition test_lines (name : string) (r : option (Z * Z * Z)) : list (list Z) :=
  match r with
  | None => [lit name ++ lit " test: PASSED"]
  | Some e => [mismatch_line e; lit name ++ lit " test: FAILED"]
  end.

(** What the program logs. *)
Definition mem_quick (map : option (list MemoryDescriptor)) (error : list Z) (m : M) : list (list Z) :=
  [lit "Quick Memory Test v0.1.0"; lit "========================"; []] ++
  match map with
  | Some entries =>
      let s := memory_sums entries in
      let '(walking, m1) := run_walking_ones_test 4096 m in
      let '(addressed, _) := run_address_pattern_test 4096 m1 in
      [lit "Total memory: " ++ fmt_dec (ms_total s / MB) ++ lit " MB";
       lit "Available (conventional): " ++ fmt_dec (ms_conventional s / MB) ++ lit " MB in " ++ fmt_dec (ms_regions s) ++ lit " regions";
       []; lit "Running walking-ones test..."] ++
      test_lines "Walking-ones" walking ++
      [[]; lit "Running address-pattern test..."] ++
      test_lines "Address-pattern" addressed
  | None => [lit "Failed to get memory map: " ++ error]
  end ++
  [[]; lit "Test complete. Press any key to return to LamBoot..."].
End tests.

(** ** The sums *)
Definition map_bytes (entries : list MemoryDescriptor) : Z := foldr (fun d n => md_page_count d * 4096 + n) 0 entries.

Lemma map_bytes_cons (d : MemoryDescriptor) (l : list MemoryDescriptor) : map_bytes (d :: l) = md_page_count d * 4096 + map_bytes l.
Proof. done. Qed.

(** A map that describes less than 2^64 bytes. *)
Definition map_fits (entries : list MemoryDescriptor) : Prop :=
  Forall (fun d => 0 <= md_page_count d) entries /\ map_bytes entries < 2 ^ 64 /\ len entries < 2 ^ 32.

Lemma filter_bytes_le (P : MemoryDescriptor -> Prop) `{!forall d, Decision (P d)} (l : list MemoryDescriptor) :
  Forall (fun d => 0 <= md_page_count d) l -> 0 <= map_bytes (filter P l) <= map_bytes l.
Proof.
  induction 1 as [|d l Hd _ IH]; [done|]. rewrite filter_cons. case_decide; rewrite ?map_bytes_cons; lia.
Qed.

Lemma sums_from (l : list MemoryDescriptor) (t c r : Z) :
  Forall (fun d => 0 <= md_page_count d) l -> 0 <= c <= t -> 0 <= r -> t + map_bytes l < 2 ^ 64 -> r + len l < 2 ^ 32 ->
  let conv := filter (fun d => md_type d = CONVENTIONAL) l in
  fold_left add_region l (mkSums t c r) = mkSums (t + map_bytes l) (c + map_bytes conv) (r + len conv).
Proof.
  intros Hl. revert t c r. induction Hl as [|d l Hd Hl IH]; intros t c r Hc Hr Hfit Hlen; cbv zeta.
  { rewrite filter_nil. change (map_bytes []) with 0. change (len (@nil MemoryDescriptor)) with 0. cbn [fold_left]. f_equal; lia. }
  rewrite map_bytes_cons in *. pose proof (filter_bytes_le (fun d => md_type d = CONVENTIONAL) l Hl).
  pose proof (len_nonneg l). rewrite len_cons in Hlen. cbn [fold_left]. unfold add_region at 2. cbn [ms_total ms_conventional ms_regions].
  unfold wrapping_add, wrap. rewrite (Z.mod_small (md_page_count d * 4096)) by lia. rewrite !(Z.mod_small _ (2 ^ 64)) by lia.
  rewrite (Z.mod_small (r + 1)) by lia. rewrite filter_cons. destruct (Z.eqb_spec (md_type d) CONVENTIONAL) as [Ht|Ht].
  - rewrite decide_True by done. rewrite IH by lia. cbv zeta. rewrite map_bytes_cons, len_cons. f_equal; lia.
  - rewrite decide_False by done. rewrite IH by lia. cbv zeta. f_equal; lia.
Qed.

(** When the map describes less than 2^64 bytes, the sums are the bytes of all
    regions and of the conventional ones, and what is shown as used is the
    bytes of the other regions. *)
Theorem memory_sums_exact (entries : list MemoryDescriptor) :
  map_fits entries ->
  let conv := filter (fun d => md_type d = CONVENTIONAL) entries in
  let rest := filter (fun d => md_type d <> CONVENTIONAL) entries in
  memory_sums entries = mkSums (map_bytes entries) (map_bytes conv) (len conv) /\
  wrapping_sub 64 (ms_total (memory_sums entries)) (ms_conventional (memory_sums entries)) = map_bytes rest.
Proof.
  intros (Hp & Hb & Hl). cbv zeta. unfold memory_sums. rewrite sums_from by (done || lia). cbv zeta. split; [f_equal; lia|].
  cbn [ms_total ms_conventional]. unfold wrapping_sub, wrap.
  assert (map_bytes entries = map_bytes (filter (fun d => md_type d = CONVENTIONAL) entries) +
    map_bytes (filter (fun d => md_type d <> CONVENTIONAL) entries)) as Hs.
  { clear. induction entries as [|d l IH]; [done|]. rewrite !filter_cons. repeat case_decide; rewrite ?map_bytes_cons; try lia; done. }
  pose proof (filter_bytes_le (fun d => md_type d <> CONVENTIONAL) entries Hp). rewrite Z.mod_small by lia. lia.
Qed.

(** ** A memory with faults *)

(** An address decoder that may send two addresses to one cell, and bits of a
    cell that always read 0 (absent from [f_and]) or 1 (present in [f_or]). *)
Record Fault : Type := mkFault { f_decode : Z -> Z; f_and : Z -> Z; f_or : Z -> Z }.

Record FaultyRam : Type := mkRam { fr_fault : Fault; fr_cells : Z -> Z }.

Definition cell_value (f : Fault) (i v : Z) : Z := Z.lor (Z.land v (f_and f (f_decode f i))) (f_or f (f_decode f i)).

#[export] Instance faulty : Ram FaultyRam := {
  ram_read i m := cell_value (fr_fault m) i (fr_cells m (f_decode (fr_fault m) i));
  ram_write i v m :=
    mkRam (fr_fault m) (fun c => if c =? f_decode (fr_fault m) i then v else fr_cells m c)
}.

Lemma write_all_snoc (pattern : Z -> Z) (size : Z) (m : FaultyRam) :
  0 <= size -> write_all pattern (size + 1) m = ram_write size (pattern size) (write_all pattern size m).
Proof.
  intros Hs. unfold write_all. rewrite (seqZ_app 0 size 1) by lia. rewrite fold_left_app. reflexivity.
Qed.

(** A cell holds the pattern of an address that is decoded to it. *)
Lemma write_all_cells (pattern : Z -> Z) (size : Z) (m : FaultyRam) :
  0 <= size ->
  let m' := write_all pattern size m in
  fr_fault m' = fr_fault m /\
  forall i, 0 <= i < size -> exists j, 0 <= j < size /\ f_decode (fr_fault m) j = f_decode (fr_fault m) i /\
    fr_cells m' (f_decode (fr_fault m) i) = pattern j.
Proof.
  cbv zeta. intros Hs. pattern size. apply natlike_ind; [|clear size Hs; intros size Hs [IHf IH]|done].
  { split; [done|]. intros i Hi. lia. }
  change (Z.succ size) with (size + 1). rewrite write_all_snoc by done. split; [done|]. intros i Hi. cbn [ram_write faulty fr_cells]. rewrite IHf.
  destruct (Z.eqb_spec (f_decode (fr_fault m) i) (f_decode (fr_fault m) size)) as [E|E]; [exists size; split_and!; [lia|lia|done|done]|].
  destruct (IH i) as (j & Hj & Hd & Hc); [|exists j; split_and!; [lia|lia|done|done]].
  destruct (decide (i = size)) as [->|]; [done|lia].
Qed.

Lemma verify_none {M : Type} `{Ram M} (pattern : Z -> Z) (offsets : list Z) (m : M) :
  verify pattern offsets m = None <-> Forall (fun i => ram_read i m = pattern i) offsets.
Proof.
  induction offsets as [|i l IH]; cbn [verify]; [split; [constructor|done]|]. rewrite Forall_cons, <- IH.
  destruct (Z.eqb_spec (ram_read i m) (pattern i)); naive_solver.
Qed.

Lemma verify_all {M : Type} `{Ram M} (pattern : Z -> Z) (size : Z) (m : M) :
  verify pattern (seqZ 0 size) m = None <-> forall i, 0 <= i < size -> ram_read i m = pattern i.
Proof.
  rewrite verify_none, Forall_forall. split; intros Hv i Hi; apply Hv; [by apply elem_of_seqZ|apply elem_of_seqZ in Hi; lia].
Qed.

Lemma write_verify (pattern : Z -> Z) (size : Z) (m : FaultyRam) :
  0 <= size ->
  (verify pattern (seqZ 0 size) (write_all pattern size m) = None <->
   forall i j, 0 <= i < size -> 0 <= j < size -> f_decode (fr_fault m) i = f_decode (fr_fault m) j ->
     fr_cells (write_all pattern size m) (f_decode (fr_fault m) i) = pattern j -> cell_value (fr_fault m) i (pattern j) = pattern i).
Proof.
  intros Hs. destruct (write_all_cells pattern size m Hs) as [Hf Hc]. rewrite verify_all. cbn [ram_read faulty]. rewrite Hf. split.
  - intros Hv i j Hi Hj Hd Hp. specialize (Hv i Hi). by rewrite Hp in Hv.
  - intros Hv i Hi. destruct (Hc i Hi) as (j & Hj & Hd & Hp). rewrite Hp. by apply (Hv i j).
Qed.

(** One round of the walking ones: every cell returns the pattern. *)
Lemma constant_verify (v size : Z) (m : FaultyRam) :
  0 <= size ->
  (verify (fun _ => v) (seqZ 0 size) (write_all (fun _ => v) size m) = None <->
   forall i, 0 <= i < size -> cell_value (fr_fault m) i v = v).
Proof.
  intros Hs. rewrite write_verify by done. split; [|naive_solver]. intros Hv i Hi.
  destruct (write_all_cells (fun _ => v) size m Hs) as [_ Hc]. destruct (Hc i Hi) as (j & Hj & Hd & Hp). by apply (Hv i j).
Qed.

Lemma walking_loop_none (bits : list Z) (size : Z) (m : FaultyRam) :
  0 <= size ->
  ((walking_loop bits size m).1 = None <->
   forall bit, bit ∈ bits -> forall i, 0 <= i < size -> cell_value (fr_fault m) i (wrap 8 (Z.shiftl 1 bit)) = wrap 8 (Z.shiftl 1 bit)).
Proof.
  intros Hs. revert m. induction bits as [|bit bits IH]; intros m; cbn [walking_loop]; [split; [set_solver|done]|].
  set (v := wrap 8 (Z.shiftl 1 bit)). pose proof (constant_verify v size m Hs) as Hv.
  destruct (verify _ _ _) as [e|] eqn:E.
  - split; [done|]. intros Hall. apply Hv. intros i Hi. apply Hall; [set_solver|done].
  - rewrite IH. destruct (write_all_cells (fun _ => v) size m Hs) as [-> _]. setoid_rewrite elem_of_cons.
    destruct Hv as [Hv _]. specialize (Hv eq_refl). naive_solver.
Qed.

(** The cells behind the buffer return every byte that is written to them. *)
Definition no_stuck_bits (f : Fault) (size : Z) : Prop :=
  forall i, 0 <= i < size -> forall v, is_byte v -> cell_value f i v = v.

Lemma walking_ones_bits (f : Fault) (i : Z) :
  (forall bit, 0 <= bit < 8 -> cell_value f i (2 ^ bit) = 2 ^ bit) -> forall v, is_byte v -> cell_value f i v = v.
Proof.
  intros Hw v Hv. unfold cell_value in *. set (a := f_and f (f_decode f i)) in *. set (o := f_or f (f_decode f i)) in *.
  assert (forall b n, 0 <= b < 8 -> 0 <= n -> (bool_decide (b = n) && Z.testbit a n) || Z.testbit o n = bool_decide (b = n)) as Hb.
  { intros b n Hb Hn. specialize (Hw b Hb). apply (f_equal (fun z => Z.testbit z n)) in Hw.
    rewrite Z.lor_spec, Z.land_spec, Z.pow2_bits_eqb in Hw by lia. rewrite bool_decide_decide. destruct (decide (b = n)) as [->|].
    - by rewrite Z.eqb_refl in Hw.
    - by rewrite (proj2 (Z.eqb_neq b n)) in Hw by done. }
  apply Z.bits_inj'. intros n Hn. rewrite Z.lor_spec, Z.land_spec.
  assert (Z.testbit o n = false) as Ho.
  { destruct (decide (n = 0)) as [->|]; [specialize (Hb 1 0)|specialize (Hb 0 n)]; rewrite bool_decide_false in Hb by lia; apply Hb; lia. }
  rewrite Ho, orb_false_r. destruct (decide (n < 8)).
  - specialize (Hb n n ltac:(lia) Hn). rewrite bool_decide_true, Ho, orb_false_r in Hb by done. simpl in Hb. by rewrite Hb, andb_true_r.
  - rewrite (Z.bits_above_log2 v n); [done|unfold is_byte in Hv; lia|]. unfold is_byte in Hv.
    destruct (decide (v = 0)) as [->|]; [simpl; lia|]. apply Z.log2_lt_pow2; [lia|].
    apply Z.lt_le_trans with (2 ^ 8); [lia|]. apply Z.pow_le_mono_r; lia.
Qed.

(** The walking-ones test passes exactly when no cell behind the buffer has a
    bit stuck at 0 or at 1, whatever the memory held before; addresses that are
    decoded to one cell make no difference to it. *)
Theorem walking_ones_finds_stuck_bits (size : Z) (m : FaultyRam) :
  0 <= size -> ((run_walking_ones_test size m).1 = None <-> no_stuck_bits (fr_fault m) size).
Proof.
  intros Hs. unfold run_walking_ones_test. rewrite walking_loop_none by done.
  destruct (write_all_cells (fun _ => 0) size m Hs) as [-> _].
  assert (forall bit, 0 <= bit < 8 -> wrap 8 (Z.shiftl 1 bit) = 2 ^ bit) as Hw.
  { intros bit Hb. rewrite Z.shiftl_1_l. unfold wrap. apply Z.mod_small. split; [apply Z.pow_nonneg; lia|apply Z.pow_lt_mono_r; lia]. }
  split.
  - intros Hall i Hi. apply walking_ones_bits. intros bit Hb. rewrite <- Hw by done. apply Hall; [apply elem_of_seqZ; lia|done].
  - intros Hn bit Hb%elem_of_seqZ i Hi. rewrite Hw by lia. apply Hn; [done|]. unfold is_byte.
    assert (2 ^ bit < 2 ^ 8) by (apply Z.pow_lt_mono_r; lia). pose proof (Z.pow_nonneg 2 bit). lia.
Qed.

(** On memory without stuck bits, the address test passes exactly when
    addresses that share a cell are equal modulo 251. *)
Theorem address_test_finds_aliases (size : Z) (m : FaultyRam) :
  0 <= size -> no_stuck_bits (fr_fault m) size ->
  ((run_address_pattern_test size m).1 = None <->
   forall i j, 0 <= i < size -> 0 <= j < size -> f_decode (fr_fault m) i = f_decode (fr_fault m) j -> i mod 251 = j mod 251).
Proof.
  intros Hs Hn. unfold run_address_pattern_test. cbn [fst]. set (m0 := write_all (fun _ => 0) size m).
  assert (fr_fault m0 = fr_fault m) as Hf by apply (write_all_cells (fun _ => 0) size m Hs).
  assert (forall i, address_pattern i = i mod 251) as Hp.
  { intros i. unfold address_pattern, wrap. pose proof (Z.mod_pos_bound i 251). apply Z.mod_small. lia. }
  assert (forall i, is_byte (address_pattern i)) as Hb
    by (intros i; rewrite Hp; unfold is_byte; pose proof (Z.mod_pos_bound i 251); lia).
  rewrite write_verify, Hf by done. split.
  - intros Hv i j Hi Hj Hd. destruct (write_all_cells address_pattern size m0 Hs) as [_ Hc]. rewrite Hf in Hc.
    destruct (Hc i Hi) as (k & Hk & Hdk & Hck). rewrite <- !Hp.
    transitivity (address_pattern k).
    + rewrite <- (Hv i k) by done. by apply Hn.
    + rewrite <- (Hv j k), Hn by (done || congruence). done.
  - intros Ha i j Hi Hj Hd _. rewrite Hn by done. rewrite !Hp. by apply Ha.
Qed.

Lemma power_of_two_mod_251 (k : Z) : 0 <= k -> 2 ^ k mod 251 <> 0.
Proof.
  intros Hk. pattern k. apply natlike_ind; [by vm_compute| |done]. clear k Hk. intros k Hk IH E. apply IH.
  rewrite Z.pow_succ_r in E by done. apply Z.mod_divide in E; [|done]. apply Z.mod_divide; [done|].
  eapply Gauss; [exact E|]. apply Zgcd_1_rel_prime. reflexivity.
Qed.

(** An address line stuck at 0 within the buffer is found. *)
Theorem stuck_address_line_found (size k : Z) (m : FaultyRam) :
  0 <= k -> 2 ^ k < size -> no_stuck_bits (fr_fault m) size ->
  f_decode (fr_fault m) = (fun i => Z.clearbit i k) -> (run_address_pattern_test size m).1 <> None.
Proof.
  intros Hk Hs Hn Hd E. pose proof (Z.pow_nonneg 2 k).
  apply (address_test_finds_aliases size m) with (i := 2 ^ k) (j := 0) in E; [|lia|done|lia|lia|].
  - by apply (power_of_two_mod_251 k Hk).
  - rewrite Hd. apply Z.bits_inj'. intros n Hb. rewrite !Z.clearbit_eqb, Z.pow2_bits_eqb, Z.bits_0 by lia.
    destruct (Z.eqb_spec k n); by simpl.
Qed.

(** Cells shared at a distance of 251 are not found. *)
Definition folded : Fault := mkFault (fun i => i mod 251) (fun _ => 255) (fun _ => 0).

Lemma folded_no_stuck_bits (size : Z) : no_stuck_bits folded size.
Proof.
  intros i _ v Hv. unfold cell_value. simpl. rewrite Z.lor_0_r. change 255 with (Z.ones 8). unfold is_byte in Hv.
  rewrite Z.land_ones by lia. apply Z.mod_small. lia.
Qed.

Theorem distance_251_missed (size : Z) (cells : Z -> Z) :
  0 <= size -> (run_walking_ones_test size (mkRam folded cells)).1 = None /\
               (run_address_pattern_test size (mkRam folded cells)).1 = None.
Proof.
  intros Hs. split; [apply walking_ones_finds_stuck_bits; [done|apply folded_no_stuck_bits]|].
  apply address_test_finds_aliases; [done|apply folded_no_stuck_bits|done].
Qed.

Definition stuck_high : Fault := mkFault id (fun _ => 255) (fun c => if c =? 1000 then 16 else 0).

Lemma walking_ones_finds_stuck_bits_witness :
  (run_walking_ones_test 4096 (mkRam stuck_high (fun _ => 7))).1 <> None.
Proof.
  intros Hw. apply (walking_ones_finds_stuck_bits 4096) in Hw; [|lia].
  specialize (Hw 1000 ltac:(lia) 0 ltac:(unfold is_byte; lia)). vm_compute in Hw. discriminate.
Defined.

Definition stuck_line : Fault := mkFault (fun i => Z.clearbit i 11) (fun _ => 255) (fun _ => 0).

Lemma stuck_address_line_found_witness :
  (run_address_pattern_test 4096 (mkRam stuck_line (fun _ => 7))).1 <> None.
Proof.
  apply (stuck_address_line_found 4096 11); [lia|vm_compute; reflexivity| |reflexivity].
  intros i _. exact (folded_no_stuck_bits 1 0 ltac:(lia)).
Defined.

Lemma memory_sums_exact_witness :
  memory_sums [mkDesc CONVENTIONAL 256; mkDesc 2 16; mkDesc CONVENTIONAL 512] = mkSums (784 * 4096) (768 * 4096) 2.
Proof.
  apply (proj1 (memory_sums_exact [mkDesc CONVENTIONAL 256; mkDesc 2 16; mkDesc CONVENTIONAL 512]
    ltac:(split_and!; [repeat constructor; simpl; lia|vm_compute; reflexivity|vm_compute; reflexivity]))).
Defined.
