(* ===== verification/DiagShell.v ===== *)
(** * The diagnostic shell (lamboot-modules/diag-shell)

    A menu of five screens.  What is printed is a list of screen operations;
    the keys are the results of successive [read_key] calls.  The walk over the
    SMBIOS structures is a second implementation of the one in smbios.rs. *)
From S2P Require Import Prelude RustStr Utf8 BlsParse Nvram Health Smbios Pci MemTest.
Local Open Scope Z_scope.

Inductive out : Type := Clear | Line (msg : list Z).

(** What the console shows of a message: one that is no UCS-2 string becomes
    an empty line.  [cstring16] is [CString16::try_from]. *)
Definition println (cstring16 : list Z -> option (list Z)) (msg : list Z) : list Z := default [] (cstring16 msg).

(** ** 1. Boot variables *)
Definition state_name (b : Z) : list Z :=
  match b with
  | 0 => lit "Fresh"
  | 1 => lit "Booting"
  | 2 => lit "BootedOK"
  | 3 => lit "CrashLoop"
  | _ => lit "Unknown"
  end.

(** [char::from_u32] of the units that are not zero, over [chunks(2)]. *)
Fixpoint loader_info_chars (data : list Z) : list Z :=
  match data with
  | lo :: hi :: rest =>
      let ch := from_le [lo; hi] in
      if (ch =? 0) || negb (is_scalar ch) then loader_info_chars rest else ch :: loader_info_chars rest
  | _ => []
  end.

Definition timestamp_text (data : list Z) : option (list Z) :=
  match data with
  | y0 :: y1 :: mo :: d :: h :: mi :: s :: _ =>
      Some (pad_zero 4 (fmt_dec (from_le [y0; y1])) ++ [c_dash] ++ pad_zero 2 (fmt_dec mo) ++ [c_dash] ++ pad_zero 2 (fmt_dec d) ++
            lit "T" ++ pad_zero 2 (fmt_dec h) ++ [c_colon] ++ pad_zero 2 (fmt_dec mi) ++ [c_colon] ++ pad_zero 2 (fmt_dec s))
  | _ => None
  end.

Definition show_boot_variables `{NvStore St} (s : St) : list (list Z) :=
  [lit "=== LamBoot Boot Variables ==="; []] ++
  [lit "  LamBootState:      " ++
   match get_variable 1 STATE_VAR s with
   | Some (b :: _) => state_name b ++ lit " (" ++ fmt_dec b ++ lit ")"
   | _ => lit "(not set)"
   end] ++
  [lit "  LamBootCrashCount: " ++
   match get_variable 1 CRASH_COUNTER_VAR s with
   | Some (b :: _) => fmt_dec b
   | _ => lit "(not set)"
   end] ++
  match get_variable 128 LAST_ENTRY_VAR s with
  | Some (b :: data) =>
      match from_utf8 (b :: data) with
      | Some t => [lit "  LamBootLastEntry:  " ++ drop_while_end (Z.eqb 0) t]
      | None => []
      end
  | _ => [lit "  LamBootLastEntry:  (not set)"]
  end ++
  [lit "  LamBootTimestamp:  " ++
   match get_variable 8 TIMESTAMP_VAR s ≫= timestamp_text with
   | Some t => t
   | None => lit "(not set)"
   end] ++
  [[]; lit "=== Boot Loader Interface ==="] ++
  [lit "  LoaderInfo:        " ++
   match get_variable 64 LOADER_INFO_VAR s with
   | Some data => if 2 <=? len data then loader_info_chars data else lit "(not set)"
   | None => lit "(not set)"
   end].

(** ** 4. System information *)
Section system.
Context {E : Type} (table : list Z) (struct_len : Z).

(** The strings after a structure and the position after them. *)
Fixpoint shell_strings (fuel : nat) (pos : Z) (strings : list (list Z)) : res E (list (list Z) * Z) :=
  match fuel with
  | O => Panic
  | S fuel' =>
      if struct_len <=? pos then Ok (strings, pos)
      else
        let? b := index pos table in
        if b =? 0 then Ok (strings, pos + 1)
        else
          let? stop := skip_string table struct_len (S (Z.to_nat (struct_len - pos))) pos in
          let? raw := slice pos stop table in
          let strings := match from_utf8 raw with Some s => strings ++ [s] | None => strings end in
          shell_strings fuel' (if stop <? struct_len then stop + 1 else stop) strings
  end.

Definition str_idx (strings : list (list Z)) (i : Z) : list Z :=
  if (0 <? i) && (i <=? len strings) then default [] (strings !! Z.to_nat (i - 1)) else lit "(none)".

(** One line for a field that holds the number of a string. *)
Definition string_line (label : string) (strings : list (list Z)) (at_ : Z) : res E (list (list Z)) :=
  let? i := index at_ table in Ok [lit label ++ str_idx strings i].

Definition oem_lines (count : Z) (strings : list (list Z)) : list (list Z) :=
  if 0 <? count then
    [lit "  --- OEM Strings ---"] ++
    imap (fun i s => lit "  [" ++ fmt_dec (Z.of_nat i) ++ lit "] " ++ s) (take (Z.to_nat count) strings) ++ [[]]
  else [].

(** What is printed for a structure; [None] ends the walk. *)
Definition shell_structure_lines (offset stype slen : Z) (strings : list (list Z)) : res E (option (list (list Z))) :=
  if (stype =? 0) && (18 <=? slen) then
    let? v := string_line "  Vendor:    " strings (offset + 4) in
    let? r := string_line "  Version:   " strings (offset + 5) in
    let? d := string_line "  Date:      " strings (offset + 8) in
    Ok (Some ([lit "  --- BIOS ---"] ++ v ++ r ++ d ++ [[]]))
  else if (stype =? 1) && (27 <=? slen) then
    let? m := string_line "  Manufacturer: " strings (offset + 4) in
    let? p := string_line "  Product:      " strings (offset + 5) in
    let? v := string_line "  Version:      " strings (offset + 6) in
    let? s := string_line "  Serial:       " strings (offset + 7) in
    Ok (Some ([lit "  --- System ---"] ++ m ++ p ++ v ++ s ++ [[]]))
  else if stype =? 11 then
    let? count := (if 5 <=? slen then index (offset + 4) table else Ok 0) in
    Ok (Some (oem_lines count strings))
  else if stype =? 127 then Ok None
  else Ok (Some []).

Fixpoint shell_walk (fuel : nat) (offset : Z) (lines : list (list Z)) : res E (list (list Z)) :=
  match fuel with
  | O => Panic
  | S fuel' =>
      if offset + 4 <=? struct_len then
        let? stype := index offset table in
        let? slen := index (offset + 1) table in
        if (slen <? 4) || (struct_len <? offset + slen) then Ok lines
        else
          let? found := shell_strings (S (Z.to_nat (struct_len - (offset + slen)))) (offset + slen) [] in
          let? printed := shell_structure_lines offset stype slen found.1 in
          match printed with
          | None => Ok lines
          | Some l => shell_walk fuel' found.2 (lines ++ l)
          end
      else Ok lines
  end.
End system.

(** The first SMBIOS entry of the configuration table, and whether it is 3.x. *)
Fixpoint shell_find_smbios (entries : list (config_guid * Z)) : option (Z * bool) :=
  match entries with
  | [] => None
  | (g, addr) :: rest =>
      if bool_decide (g = SMBIOS3_GUID) then Some (addr, true)
      else if bool_decide (g = SMBIOS_GUID) then Some (addr, false)
      else shell_find_smbios rest
  end.

(** [raw addr n]: the bytes at an address, for [read_unaligned] and [from_raw_parts]. *)
Definition shell_entry_point (raw : Z -> Z -> list Z) (ep : Z) (is_v3 : bool) : Z * Z :=
  if is_v3 then (from_le (raw (ep + 16) 8), from_le (raw (ep + 12) 4))
  else (from_le (raw (ep + 24) 4), from_le (raw (ep + 22) 2)).

Definition show_system_info {E : Type} (raw : Z -> Z -> list Z) (entries : list (config_guid * Z)) : res E (list (list Z)) :=
  let heading := [lit "=== System Information (SMBIOS) ==="; []] in
  match shell_find_smbios entries with
  | None => Ok (heading ++ [lit "  SMBIOS table: not found"])
  | Some (ep, is_v3) =>
      let heading := heading ++ [lit "  SMBIOS table: found (" ++ (if is_v3 then lit "3.x 64-bit" else lit "2.x") ++ lit ")"; []] in
      let '(struct_addr, struct_len) := shell_entry_point raw ep is_v3 in
      if (struct_addr =? 0) || (struct_len =? 0) then Ok (heading ++ [lit "  Structure table: invalid"])
      else shell_walk (raw struct_addr struct_len) struct_len (S (Z.to_nat struct_len)) 0 heading
  end.

(** ** 5. Firmware information *)
Record FirmwareInfo : Type := mkFwInfo {
  fi_vendor : list Z; fi_revision : Z; fi_uefi_revision : list Z; fi_arch : target_arch
}.

Definition SECURE_BOOT_VAR : var_key := (EFI_GLOBAL_VARIABLE, lit "SecureBoot").
Definition SETUP_MODE_VAR : var_key := (EFI_GLOBAL_VARIABLE, lit "SetupMode").

Definition config_table_name (g : config_guid) : option (list Z) :=
  if bool_decide (g = ACPI2_GUID) then Some (lit "ACPI 2.0 RSDP")
  else if bool_decide (g = ACPI_GUID) then Some (lit "ACPI 1.0 RSDP")
  else if bool_decide (g = SMBIOS_GUID) then Some (lit "SMBIOS 2.x")
  else if bool_decide (g = SMBIOS3_GUID) then Some (lit "SMBIOS 3.x")
  else None.

Definition show_firmware_info `{NvStore St} (fw : FirmwareInfo) (entries : list (config_guid * Z)) (s : St) : list (list Z) :=
  [lit "=== Firmware Information ==="; [];
   lit "  Firmware Vendor:   " ++ fi_vendor fw;
   lit "  Firmware Revision: 0x" ++ fmt_hex_upper 8 (fi_revision fw);
   lit "  UEFI Revision:     " ++ fi_uefi_revision fw;
   lit "  Architecture:      " ++ (match fi_arch fw with X86_64 => lit "x86_64" | Aarch64 => lit "aarch64" end);
   []] ++
  [lit "  Secure Boot:       " ++
   match get_variable 1 SECURE_BOOT_VAR s with
   | Some (b :: _) => if b =? 1 then lit "ENABLED" else lit "disabled"
   | _ => lit "unknown"
   end] ++
  match get_variable 1 SETUP_MODE_VAR s with
  | Some (b :: _) => [lit "  Setup Mode:        " ++ (if b =? 1 then lit "setup mode (keys not enrolled)" else lit "user mode")]
  | _ => []
  end ++
  [[]; lit "  --- Configuration Tables ---"; lit "  Total entries: " ++ fmt_dec (len entries)] ++
  ((fun name => lit "  " ++ name) <$> omap (fun e => config_table_name e.1) entries).

(** ** The loop *)
Inductive ShellKey : Type := Printable (c : Z) | Special (scan : Z).

Definition SCAN_ESCAPE : Z := 0x17.
Definition c_escape : Z := 0x1B.

(** [events]: the results of [read_key().ok().flatten()].  [None]: no more of
    them, the loop is still waiting. *)
Fixpoint wait_for_key (events : list (option ShellKey)) : option (Z * list (option ShellKey)) :=
  match events with
  | [] => None
  | Some (Printable c) :: rest => Some (c, rest)
  | Some (Special sc) :: rest => if sc =? SCAN_ESCAPE then Some (c_escape, rest) else wait_for_key rest
  | None :: rest => wait_for_key rest
  end.

Definition show_menu : list (list Z) :=
  [replicate 40 c_equals; lit "  LamBoot Diagnostic Shell v0.1.0"; replicate 40 c_equals; [];
   lit "  1) Boot Variables (LamBoot state)"; lit "  2) PCI Device Inventory"; lit "  3) Memory Map";
   lit "  4) System Information (SMBIOS)"; lit "  5) Firmware Information"; []; lit "  Q) Return to LamBoot"; []; lit "Select: "].

(** What the screens are made from. *)
Record ShellPlatform (St : Type) : Type := mkPlatform {
  pf_vars : St;
  pf_pci : option (list (option pci_config));
  pf_memory_map : option (list MemoryDescriptor);
  pf_memory_error : list Z;
  pf_raw : Z -> Z -> list Z;
  pf_tables : list (config_guid * Z);
  pf_firmware : FirmwareInfo
}.
Arguments pf_vars {St} _. Arguments pf_pci {St} _. Arguments pf_memory_map {St} _. Arguments pf_memory_error {St} _.
Arguments pf_raw {St} _. Arguments pf_tables {St} _. Arguments pf_firmware {St} _.

Definition paint (lines : list (list Z)) : list out := Clear :: (Line <$> lines).

Definition is_quit (c : Z) : bool := (c =? 113) || (c =? 81) || (c =? c_escape).

Section shell.
Context `{NvStore St} {E : Type} (pf : ShellPlatform St).

(** The screen of a choice; another key shows nothing. *)
Definition shell_screen (c : Z) : res E (list out) :=
  if c =? 49 then Ok (paint (show_boot_variables (pf_vars pf)))
  else if c =? 50 then Ok (paint (show_pci_devices (pf_pci pf)))
  else if c =? 51 then Ok (paint (show_memory_map (pf_memory_map pf) (pf_memory_error pf)))
  else if c =? 52 then let? l := show_system_info (pf_raw pf) (pf_tables pf) in Ok (paint l)
  else if c =? 53 then Ok (paint (show_firmware_info (pf_firmware pf) (pf_tables pf) (pf_vars pf)))
  else Ok [].

(** Whether the program has returned, and what it has printed. *)
Fixpoint shell_loop (fuel : nat) (events : list (option ShellKey)) (printed : list out) : res E (bool * list out) :=
  match fuel with
  | O => Panic
  | S fuel' =>
      let printed := printed ++ paint show_menu in
      match wait_for_key events with
      | None => Ok (false, printed)
      | Some (c, events) =>
          if is_quit c then Ok (true, printed ++ [Line (lit "Returning to LamBoot...")])
          else
            let? screen := shell_screen c in
            let printed := printed ++ screen ++ [Line []; Line (lit "Press any key to continue...")] in
            match wait_for_key events with
            | None => Ok (false, printed)
            | Some (_, events) => shell_loop fuel' events printed
            end
      end
  end.

Definition diag_shell (events : list (option ShellKey)) : res E (bool * list out) := shell_loop (S (length events)) events [].
End shell.

(** ** The SMBIOS screen *)
Section total.
Context {E : Type} (table : list Z).
#[local] Notation n := (len table).

Ltac at_index := eapply safe_bind; [apply safe_index; lia|intros ? _].

Lemma shell_strings_total (fuel : nat) (pos : Z) (strings : list (list Z)) :
  0 <= pos <= n -> n - pos < Z.of_nat fuel -> safe (fun r => pos <= r.2 <= n) (@shell_strings E table n fuel pos strings).
Proof.
  revert pos strings. induction fuel as [|fuel IH]; intros pos strings Hp Hf; [lia|]. cbn [shell_strings].
  destruct (Z.leb_spec n pos); [simpl; lia|].
  destruct (index pos table) as [b|?|] eqn:Eb; [|done|by pose proof (@safe_index E pos table ltac:(lia)) as Hs; rewrite Eb in Hs].
  cbn [res_bind]. destruct (Z.eqb_spec b 0) as [|Hb]; [simpl; lia|].
  pose proof (@skip_string_total E table (S (Z.to_nat (n - pos))) pos) as Hs.
  destruct (skip_string _ _ _ pos) as [e|?|] eqn:Ee; [|exact I|exfalso; apply Hs; lia]. cbn [res_bind].
  apply (skip_string_moves _ _ _ b) in Ee; [|lia..|done|done]. rewrite slice_ok by lia. cbn [res_bind].
  eapply safe_mono; [apply IH; destruct (Z.ltb_spec e n); lia|]. simpl. intros r Hr. destruct (Z.ltb_spec e n); lia.
Qed.

Lemma string_line_total (label : string) (strings : list (list Z)) (at_ : Z) :
  0 <= at_ < n -> safe (fun _ => True) (@string_line E table label strings at_).
Proof. intros Ha. unfold string_line. by at_index. Qed.

Lemma shell_structure_total (offset stype slen : Z) (strings : list (list Z)) :
  0 <= offset -> offset + slen <= n -> safe (fun _ => True) (@shell_structure_lines E table offset stype slen strings).
Proof.
  intros Ho Hl. unfold shell_structure_lines.
  destruct (stype =? 0); [destruct (Z.leb_spec 18 slen); cbn [andb]; [|]|cbn [andb]].
  - repeat (eapply safe_bind; [apply string_line_total; lia|intros ? _]). done.
  - repeat case_match; try done; repeat (eapply safe_bind; [first [apply string_line_total; lia|apply safe_index; lia|done]|intros ? _]); done.
  - repeat case_match; try done; repeat (eapply safe_bind; [first [apply string_line_total; lia|apply safe_index; lia|done]|intros ? _]); done.
Qed.

Lemma shell_walk_total (fuel : nat) (offset : Z) (lines : list (list Z)) :
  0 <= offset <= n -> n - offset < Z.of_nat fuel -> safe (fun _ => True) (@shell_walk E table n fuel offset lines).
Proof.
  revert offset lines. induction fuel as [|fuel IH]; intros offset lines Ho Hf; [lia|]. cbn [shell_walk].
  destruct (Z.leb_spec (offset + 4) n); [|done]. at_index. at_index.
  destruct (Z.ltb_spec a0 4); [done|]. destruct (Z.ltb_spec n (offset + a0)); [done|]. cbn [orb].
  eapply safe_bind; [apply shell_strings_total; lia|intros [strings pos] Hpos]. cbn [fst snd] in *.
  eapply safe_bind; [apply shell_structure_total; lia|intros [l|] _; [|done]]. apply IH; lia.
Qed.
End total.

(** *** What is printed for a structure as the standard describes it *)
Definition field_line (label : string) (s : Structure) (at_ : Z) : list Z :=
  lit label ++ default (lit "(none)") (field s at_ None).

Definition described (s : Structure) : list (list Z) :=
  if (ss_type s =? 0) && (18 <=? len (formatted s)) then
    [lit "  --- BIOS ---"; field_line "  Vendor:    " s 4; field_line "  Version:   " s 5; field_line "  Date:      " s 8; []]
  else if (ss_type s =? 1) && (27 <=? len (formatted s)) then
    [lit "  --- System ---"; field_line "  Manufacturer: " s 4; field_line "  Product:      " s 5; field_line "  Version:      " s 6;
     field_line "  Serial:       " s 7; []]
  else if ss_type s =? 11 then oem_lines (default 0 (formatted s !! 4%nat)) (ss_strings s)
  else [].

Section described.
Context {E : Type}.

Lemma str_idx_get (strings : list (list Z)) (i : Z) : 0 <= i -> str_idx strings i = default (lit "(none)") (get_string strings i).
Proof.
  intros Hi. unfold str_idx, get_string. destruct (Z.eqb_spec i 0) as [->|]; [done|].
  rewrite (proj2 (Z.ltb_lt 0 i)) by lia. cbn [andb]. destruct (Z.leb_spec i (len strings)) as [Hl|Hl].
  - destruct (lookup_lt_is_Some_2 strings (Z.to_nat (i - 1))) as [s ->]; [unfold len in Hl; lia|done].
  - by rewrite lookup_ge_None_2 by (unfold len in Hl; lia).
Qed.

Lemma formatted_index (s : Structure) (pre rest : list Z) (at_ : Z) :
  0 <= at_ < len (formatted s) ->
  exists i, @index E Z (len pre + at_) (pre ++ formatted s ++ rest) = Ok i /\ formatted s !! Z.to_nat at_ = Some i.
Proof.
  intros Ha. rewrite index_app_r by lia. unfold index. rewrite (proj2 (Z.leb_le _ _)) by lia.
  rewrite lookup_app_l by (unfold len in Ha; lia).
  destruct (lookup_lt_is_Some_2 (formatted s) (Z.to_nat at_)) as [i ->]; [unfold len in Ha; lia|]. eauto.
Qed.

Lemma string_line_spec (label : string) (s : Structure) (pre rest : list Z) (at_ : Z) :
  structure_ok s -> 0 <= at_ < len (formatted s) ->
  @string_line E (pre ++ formatted s ++ rest) label (ss_strings s) (len pre + at_) = Ok [field_line label s at_].
Proof.
  intros Hs Ha. unfold string_line, field_line, field. destruct (formatted_index s pre rest at_ Ha) as (i & -> & Hi). rewrite Hi.
  pose proof (formatted_bytes s Hs) as Hb. rewrite Forall_lookup in Hb. destruct (Hb _ _ Hi) as [Hi0 _].
  cbn [res_bind]. by rewrite str_idx_get, get_string_numbered.
Qed.

Lemma structure_lines_spec (s : Structure) (pre rest : list Z) :
  structure_ok s ->
  @shell_structure_lines E (pre ++ formatted s ++ rest) (len pre) (ss_type s) (len (formatted s)) (ss_strings s) = Ok (Some (described s)).
Proof.
  intros Hs. unfold shell_structure_lines, described.
  destruct ((ss_type s =? 0) && (18 <=? len (formatted s))) eqn:E0; [rewrite !string_line_spec by (done || lia); done|].
  destruct ((ss_type s =? 1) && (27 <=? len (formatted s))) eqn:E1; [rewrite !string_line_spec by (done || lia); done|].
  destruct (ss_type s =? 11); [|rewrite (proj2 (Z.eqb_neq _ _)); [done|by destruct Hs as (_ & ? & _)]].
  destruct (Z.leb_spec 5 (len (formatted s))).
  - destruct (formatted_index s pre rest 4) as (i & -> & Hi); [lia|]. change (Z.to_nat 4) with 4%nat in Hi. by rewrite Hi.
  - rewrite lookup_ge_None_2 by (unfold len in *; lia). done.
Qed.

Lemma shell_strings_spec (ss : list (list Z)) (pre rest : list Z) (fuel : nat) (acc : list (list Z)) :
  Forall smb_string ss -> (length ss < fuel)%nat ->
  let table := pre ++ flat_map nul_terminated ss ++ 0 :: rest in
  @shell_strings E table (len table) fuel (len pre) acc = Ok (acc ++ ss, len pre + len (flat_map nul_terminated ss) + 1).
Proof.
  intros Hs. cbv zeta. revert pre fuel acc. induction Hs as [|s ss Hs _ IH]; intros pre fuel acc Hf;
    (destruct fuel as [|fuel]; [simpl in Hf; lia|]).
  - cbn [shell_strings app flat_map]. rewrite (proj2 (Z.leb_gt _ _)) by (autorewrite with lamlen; pose proof (len_nonneg rest); lia).
    rewrite index_at. simpl. rewrite app_nil_r, len_nil. do 2 f_equal. lia.
  - set (tail := flat_map nul_terminated ss ++ 0 :: rest).
    replace (pre ++ flat_map nul_terminated (s :: ss) ++ 0 :: rest) with (pre ++ str_bytes s ++ 0 :: tail)
      by (unfold tail, nul_terminated; cbn [flat_map]; by rewrite <- !app_assoc).
    set (table := pre ++ str_bytes s ++ 0 :: tail). cbn [shell_strings].
    destruct (@string_at E s pre tail (S (Z.to_nat (len table - len pre))) Hs) as ((b & Hb & Hbz) & Hskip & Hslice & Hu & Hl1 & Hl2).
    { unfold table. autorewrite with lamlen. pose proof (len_nonneg tail). unfold len. lia. }
    fold table in Hb, Hskip, Hslice, Hl1, Hl2. rewrite (proj2 (Z.leb_gt _ _)) by done. rewrite Hb. cbn [res_bind].
    rewrite (proj2 (Z.eqb_neq b 0)) by done. rewrite Hskip. cbn [res_bind]. rewrite Hslice. cbn [res_bind].
    rewrite Hu. rewrite (proj2 (Z.ltb_lt _ _)) by done.
    specialize (IH (pre ++ str_bytes s ++ [0]) fuel (acc ++ [s])).
    replace ((pre ++ str_bytes s ++ [0]) ++ flat_map nul_terminated ss ++ 0 :: rest) with table in IH
      by (unfold table, tail; by rewrite <- !app_assoc).
    replace (len pre + len (str_bytes s) + 1) with (len (pre ++ str_bytes s ++ [0])) by (autorewrite with lamlen; lia).
    rewrite IH by (simpl in Hf; lia). rewrite <- app_assoc. cbn [flat_map]. unfold nul_terminated at 2. do 2 f_equal.
    autorewrite with lamlen. lia.
Qed.

(** One structure: its lines are printed, and the walk goes on after the NUL
    that ends its strings. *)
Lemma shell_walk_step (s : Structure) (pre rest : list Z) (fuel : nat) (lines : list (list Z)) :
  structure_ok s ->
  let table := pre ++ formatted s ++ flat_map nul_terminated (ss_strings s) ++ 0 :: rest in
  @shell_walk E table (len table) (S fuel) (len pre) lines =
  shell_walk table (len table) fuel (len pre + len (formatted s) + len (flat_map nul_terminated (ss_strings s)) + 1)
    (lines ++ described s).
Proof.
  intros Hs table. pose proof Hs as (Hty & H127 & Hb & Hbytes & Hss).
  assert (len (formatted s) = 2 + len (ss_body s)) as Hlf by (unfold formatted; rewrite !len_cons; lia).
  set (strs := flat_map nul_terminated (ss_strings s)) in *.
  assert (len table = len pre + len (formatted s) + len strs + 1 + len rest) as Hlt by (unfold table; autorewrite with lamlen; lia).
  pose proof (len_nonneg rest). pose proof (len_nonneg strs). pose proof (len_nonneg pre).
  cbn [shell_walk]. rewrite (proj2 (Z.leb_le _ _)) by lia.
  assert (@index E Z (len pre) table = Ok (ss_type s)) as -> by (unfold table, formatted; apply index_at). cbn [res_bind].
  assert (@index E Z (len pre + 1) table = Ok (len (formatted s))) as -> by (unfold table; rewrite index_app_r, Hlf by lia; done).
  cbn [res_bind]. rewrite (proj2 (Z.ltb_ge _ _)) by lia. rewrite (proj2 (Z.ltb_ge _ _)) by lia. cbn [orb].
  assert (table = (pre ++ formatted s) ++ strs ++ 0 :: rest) as Et2 by (unfold table; by rewrite <- !app_assoc).
  replace (len pre + len (formatted s)) with (len (pre ++ formatted s)) by (autorewrite with lamlen; lia).
  assert (Z.of_nat (length (ss_strings s)) <= len strs) as Hle.
  { unfold strs. generalize (ss_strings s) as l. clear. induction l as [|x l IH]; [done|].
    cbn [flat_map length]. unfold nul_terminated at 1. autorewrite with lamlen. pose proof (len_nonneg (str_bytes x)). lia. }
  pose proof (shell_strings_spec (ss_strings s) (pre ++ formatted s) rest (S (Z.to_nat (len table - len (pre ++ formatted s)))) [] Hss) as Hst.
  cbv zeta in Hst. fold strs in Hst. rewrite <- Et2 in Hst. rewrite Hst by (rewrite len_app; lia). cbn [res_bind fst snd app].
  unfold table at 1. rewrite structure_lines_spec by done. done.
Qed.

Definition has_strings (s : Structure) : Prop := ss_strings s <> [].

Lemma with_strings_bytes (s : Structure) (rest : list Z) :
  has_strings s -> structure_bytes s ++ rest = formatted s ++ flat_map nul_terminated (ss_strings s) ++ 0 :: rest.
Proof. unfold has_strings, structure_bytes, string_section. intros Hs. destruct (ss_strings s); [done|]. by rewrite <- !app_assoc. Qed.

End described.

Lemma shell_walk_spec (l : list Structure) (pre tail : list Z) (fuel : nat) (lines : list (list Z)) :
  Forall structure_ok l -> Forall has_strings l -> table_end tail ->
  let table := pre ++ flat_map structure_bytes l ++ tail in
  len table - len pre < Z.of_nat fuel ->
  @shell_walk Empty_set table (len table) fuel (len pre) lines = Ok (lines ++ flat_map described l).
Proof.
  intros Hl Hss Htail. cbv zeta. revert pre fuel lines Hss. induction Hl as [|s l Hs _ IH]; intros pre fuel lines Hss Hf.
  { cbn [flat_map app] in *. rewrite app_nil_r. rewrite len_app in *. pose proof (len_nonneg tail). pose proof (len_nonneg pre).
    destruct fuel as [|fuel]; [lia|]. cbn [shell_walk]. destruct Htail as [Hlt|[rest ->]].
    { rewrite (proj2 (Z.leb_gt _ _)) by lia. done. }
    destruct (Z.leb_spec (len pre + 4) (len pre + len (127 :: rest))); [|done]. rewrite index_at. cbn [res_bind].
    rewrite index_app_r by lia. destruct (@index_in Empty_set Z 1 (127 :: rest)) as [a Ha]; [rewrite len_cons in *; lia|]. rewrite Ha. cbn [res_bind].
    destruct (Z.ltb_spec a 4); [done|]. destruct (Z.ltb_spec (len pre + len (127 :: rest)) (len pre + a)); [done|]. cbn [orb].
    pose proof (@shell_strings_total Empty_set (pre ++ 127 :: rest)
      (S (Z.to_nat (len pre + len (127 :: rest) - (len pre + a)))) (len pre + a) []) as Hst.
    rewrite len_app in Hst. destruct (shell_strings _ _ _ _ _) as [[strings pos]|[]|]; [done|exfalso; apply Hst; lia]. }
  apply Forall_cons in Hss as [Hs1 Hss]. cbn [flat_map] in *. rewrite <- app_assoc in *. rewrite with_strings_bytes in * by done.
  destruct fuel as [|fuel]; [pose proof (len_nonneg (formatted s ++ flat_map nul_terminated (ss_strings s) ++ 0 :: flat_map structure_bytes l ++ tail)); rewrite len_app in Hf; lia|].
  rewrite shell_walk_step by done.
  specialize (IH (pre ++ formatted s ++ flat_map nul_terminated (ss_strings s) ++ [0]) fuel (lines ++ described s) Hss).
  rewrite <- !app_assoc in IH. cbn [app] in IH.
  replace (len pre + len (formatted s) + len (flat_map nul_terminated (ss_strings s)) + 1)
    with (len (pre ++ formatted s ++ flat_map nul_terminated (ss_strings s) ++ [0])) by (autorewrite with lamlen; lia).
  rewrite IH; [reflexivity|]. autorewrite with lamlen in *. pose proof (len_nonneg (formatted s)).
  pose proof (len_nonneg (flat_map nul_terminated (ss_strings s))). lia.
Qed.

(** A table on which every structure has strings. *)
Definition well_described (raw : Z -> Z -> list Z) (addr n : Z) (l : list Structure) : Prop :=
  exists tail, raw addr n = flat_map structure_bytes l ++ tail /\ Forall structure_ok l /\ Forall has_strings l /\ table_end tail.

(** The SMBIOS screen returns whatever the memory holds: no access is out of
    range and the walk ends.  On a table whose structures all have strings it
    shows for each structure what the standard says, the strings that smbios.rs
    reads for the same fields. *)
Theorem system_info_correct (raw : Z -> Z -> list Z) (entries : list (config_guid * Z)) :
  memory raw ->
  @show_system_info Empty_set raw entries <> Panic /\
  (forall ep v3 addr n l,
     shell_find_smbios entries = Some (ep, v3) -> shell_entry_point raw ep v3 = (addr, n) -> addr <> 0 -> 0 < n ->
     well_described raw addr n l ->
     exists heading, @show_system_info Empty_set raw entries = Ok (heading ++ flat_map described l)).
Proof.
  intros Hm. assert (forall a k, 0 <= from_le (raw a k)) as Hpos by (intros a k; apply from_le_bound, Hm).
  assert (forall a n, 0 <= n -> len (raw a n) = n) as Hlen by (intros a n Hn; destruct (Hm a n) as [-> _]; lia).
  split.
  - unfold show_system_info. destruct (shell_find_smbios entries) as [[ep v3]|]; [|done].
    destruct (shell_entry_point raw ep v3) as [addr n] eqn:E.
    assert (0 <= n) by (unfold shell_entry_point in E; destruct v3; injection E as _ <-; apply Hpos).
    destruct (_ || _); [done|]. eapply safe_no_panic.
    pose proof (@shell_walk_total Empty_set (raw addr n)) as Hw. rewrite Hlen in Hw by done. apply Hw; lia.
  - intros ep v3 addr n l Hf He Ha Hn (tail & Hr & Hl & Hs & Ht). unfold show_system_info. rewrite Hf, He.
    rewrite (proj2 (Z.eqb_neq addr 0)), (proj2 (Z.eqb_neq n 0)) by lia. cbn [orb]. eexists.
    pose proof (shell_walk_spec l [] tail (S (Z.to_nat n))) as Hw. cbn [app] in Hw. rewrite <- Hr, Hlen in Hw by lia.
    apply Hw; [done..|]. rewrite len_nil. lia.
Qed.

(** A structure without strings ends with two NULs, of which the walk takes one:
    when the structure after it has a type below 4, the walk ends there and
    shows nothing that follows. *)
Theorem stringless_ends_walk {E : Type} (s t : Structure) (pre rest : list Z) (fuel : nat) (lines : list (list Z)) :
  structure_ok s -> ss_strings s = [] -> ss_type t < 4 ->
  let table := pre ++ structure_bytes s ++ structure_bytes t ++ rest in
  @shell_walk E table (len table) (S (S fuel)) (len pre) lines = Ok (lines ++ described s).
Proof.
  intros Hs Hno Ht. set (rest' := structure_bytes t ++ rest).
  assert (structure_bytes s ++ rest' = formatted s ++ flat_map nul_terminated (ss_strings s) ++ 0 :: (0 :: rest')) as ->
    by (unfold structure_bytes; rewrite Hno, <- app_assoc; done).
  cbv zeta. rewrite shell_walk_step by done. rewrite Hno. cbn [flat_map app].
  assert (pre ++ formatted s ++ 0 :: 0 :: rest' = (pre ++ formatted s ++ [0]) ++ 0 :: rest') as ->
    by (by rewrite <- !app_assoc).
  set (pre' := pre ++ formatted s ++ [0]).
  replace (len pre + len (formatted s) + len [] + 1) with (len pre') by (unfold pre'; autorewrite with lamlen; lia).
  cbn [shell_walk]. destruct (Z.leb_spec (len pre' + 4) (len (pre' ++ 0 :: rest'))); [|done].
  rewrite index_at. cbn [res_bind]. rewrite index_app_r by lia. change (@index E Z 1 (0 :: rest')) with (@Ok E Z (ss_type t)).
  cbn [res_bind]. by rewrite (proj2 (Z.ltb_lt _ _)).
Qed.

(** So on a table that smbios.rs reads, the screen does not show the system:
    here a structure without strings comes before it. *)
Definition derailing : list Structure :=
  [mkStruct 19 (replicate 13 0) [];
   mkStruct 1 ([0; 1] ++ [1; 2; 0; 3] ++ replicate 19 0) [lit "QEMU"; lit "Standard PC"; lit "serial-7"]].

Theorem walks_disagree :
  let table := flat_map structure_bytes derailing ++ [127; 4; 0; 0; 0; 0] in
  @walk_loop Empty_set table (len table) (S (length table)) 0 system_info_default [] =
    Ok (mkSys (Some (lit "QEMU")) (Some (lit "Standard PC")) None (Some (lit "serial-7")) None, []) /\
  @shell_walk Empty_set table (len table) (S (length table)) 0 [] = Ok [].
Proof. vm_compute. split; reflexivity. Qed.

(** ** The boot variables *)
Section health.
Context `{NvLaws St} `{!NvWritable St}.

Lemma record_boot_entry_other (entry_id : list Z) (k : var_key) (s : St) :
  k <> LAST_ENTRY_VAR -> k <> LOADER_ENTRY_SELECTED_VAR -> nv_get k (record_boot_entry entry_id s).1 = nv_get k s.
Proof.
  intros H1 H2. unfold record_boot_entry. pose proof (nv_get_other LAST_ENTRY_VAR k (take 128 (str_bytes entry_id)) s) as Ho.
  destruct (nv_set LAST_ENTRY_VAR (take 128 (str_bytes entry_id)) s) as [s1 [|]]; cbn [fst] in *; [rewrite get_ignoring_other by congruence|];
    apply Ho; congruence.
Qed.

Lemma record_boot_entry_same (entry_id : list Z) (s : St) :
  entry_id <> [] -> nv_get LAST_ENTRY_VAR (record_boot_entry entry_id s).1 = Some (take 128 (str_bytes entry_id)).
Proof.
  intros Hne. assert (take 128 (str_bytes entry_id) <> []) as Ht.
  { destruct entry_id as [|c t]; [done|]. unfold str_bytes. cbn [flat_map]. pose proof (char_utf8_nonempty c). by destruct (char_utf8 c). }
  unfold record_boot_entry. pose proof (nv_accepts LAST_ENTRY_VAR (take 128 (str_bytes entry_id)) s) as Ha.
  pose proof (nv_get_set LAST_ENTRY_VAR _ s Ht Ha) as Hg.
  destruct (nv_set LAST_ENTRY_VAR (take 128 (str_bytes entry_id)) s) as [s1 ok]. cbn [fst snd] in *. subst ok. cbn [fst].
  rewrite get_ignoring_other by key_neq. done.
Qed.

Lemma set_loader_info_same (v : pkg_version) (s : St) : nv_get LOADER_INFO_VAR (set_loader_info v s) = Some (loader_info_utf16le v).
Proof.
  unfold set_loader_info. pose proof (nv_accepts LOADER_INFO_VAR (loader_info_utf16le v) s) as Ha.
  pose proof (nv_get_set LOADER_INFO_VAR (loader_info_utf16le v) s) as Hg.
  destruct (nv_set LOADER_INFO_VAR (loader_info_utf16le v) s) as [s1 ok]. cbn [fst snd] in *. subst ok.
  rewrite get_ignoring_other by key_neq. apply Hg; [|done]. unfold loader_info_utf16le. by destruct (flat_map _ _).
Qed.

Lemma write_timestamp_same (t : efi_time) (s : St) :
  nv_get TIMESTAMP_VAR (write_timestamp (Some t) s) =
  Some [Z.land (t_year t) 255; wrap 8 (Z.shiftr (t_year t) 8); t_month t; t_day t; t_hour t; t_minute t; t_second t; 0].
Proof. unfold write_timestamp. by apply get_ignoring_same. Qed.
End health.

Definition ascii_text (s : list Z) : Prop := Forall (fun c => 0 < c < 128) s.

Lemma loader_info_chars_ascii (t : list Z) :
  ascii_text t -> loader_info_chars (flat_map (to_le 2) (encode_utf16 t) ++ [0; 0]) = t.
Proof.
  unfold encode_utf16. induction 1 as [|c t Hc _ IH]; [done|]. cbn [flat_map].
  assert (char_utf16 c = [c]) as -> by (unfold char_utf16; rewrite (proj2 (Z.ltb_lt _ _)) by lia; done).
  cbn [app flat_map]. rewrite <- app_assoc. set (tl := flat_map (to_le 2) _ ++ [0; 0]) in *.
  assert (exists lo hi, to_le 2 c = [lo; hi]) as (lo & hi & Hb) by (do 2 eexists; reflexivity).
  pose proof (from_to_le 2 c) as Hf. rewrite Hb in *. cbn [app loader_info_chars]. rewrite Hf by (simpl; lia).
  rewrite (proj2 (Z.eqb_neq c 0)) by lia. assert (is_scalar c = true) as -> by (unfold is_scalar; lia). cbn [orb negb]. by rewrite IH.
Qed.

Lemma loader_info_length (v : pkg_version) : ascii_text (v_string v) -> len (loader_info_utf16le v) = 18 + 2 * len (v_string v).
Proof.
  intros Hv. unfold loader_info_utf16le. assert (forall t, ascii_text t -> len (flat_map (to_le 2) (encode_utf16 t)) = 2 * len t) as Hlen.
  { clear. unfold encode_utf16. induction 1 as [|c t Hc _ IH]; [done|]. cbn [flat_map].
    assert (char_utf16 c = [c]) as -> by (unfold char_utf16; rewrite (proj2 (Z.ltb_lt _ _)) by lia; done).
    cbn [app flat_map]. rewrite len_app, len_to_le, len_cons. lia. }
  rewrite len_app, Hlen by (apply Forall_app; split; [repeat constructor; lia|apply Forall_app; split; [repeat constructor; lia|done]]).
  rewrite !len_app. change (len NAME) with 7. change (len [c_space]) with 1. change (len [0; 0]) with 2. lia.
Qed.

(** The two bytes of a year. *)
Lemma year_bytes (y : Z) : 0 <= y < 2 ^ 16 -> from_le [Z.land y 255; wrap 8 (Z.shiftr y 8)] = y.
Proof.
  intros Hy. cbn [from_le]. change 255 with (Z.ones 8). rewrite Z.land_ones, Z.shiftr_div_pow2 by lia. unfold wrap.
  change (2 ^ 8) with 256. rewrite (Z.mod_small (y / 256)).
  - pose proof (Z.div_mod y 256). lia.
  - split; [apply Z.div_pos; lia|apply Z.div_lt_upper_bound; lia].
Qed.

(** A time stamp as it is shown. *)
Definition time_text (t : efi_time) : list Z :=
  pad_zero 4 (fmt_dec (t_year t)) ++ [c_dash] ++ pad_zero 2 (fmt_dec (t_month t)) ++ [c_dash] ++ pad_zero 2 (fmt_dec (t_day t)) ++
  lit "T" ++ pad_zero 2 (fmt_dec (t_hour t)) ++ [c_colon] ++ pad_zero 2 (fmt_dec (t_minute t)) ++ [c_colon] ++ pad_zero 2 (fmt_dec (t_second t)).

(** An entry id that fits the variable. *)
Definition id_fits (id : list Z) : Prop :=
  id <> [] /\ Forall (fun c => is_scalar c = true) id /\ len (str_bytes id) <= 128 /\ drop_while_end (Z.eqb 0) id = id.

(** The shell shows what this boot recorded: the state and the count that
    [assess_boot_health] wrote, the entry of [record_boot_entry], the time, and
    the loader's name with its version. *)
Theorem shell_shows_health `{NvLaws St} `{!NvWritable St} (g : option (list Z)) (t : efi_time) (v : pkg_version) (id : list Z) (s : St) :
  changed_genid g s = None -> 0 <= t_year t < 2 ^ 16 -> ascii_text (v_string v) -> len (v_string v) <= 23 -> id_fits id ->
  let '(count, s1) := assess_boot_health g (Some t) v s in
  show_boot_variables (record_boot_entry id s1).1 =
  [lit "=== LamBoot Boot Variables ==="; [];
   lit "  LamBootState:      Booting (1)";
   lit "  LamBootCrashCount: " ++ fmt_dec count;
   lit "  LamBootLastEntry:  " ++ id;
   lit "  LamBootTimestamp:  " ++ time_text t;
   []; lit "=== Boot Loader Interface ===";
   lit "  LoaderInfo:        LamBoot " ++ v_string v].
Proof.
  intros Hg Hy Hv Hvl (Hne & Hsc & Hl & Htrim). unfold assess_boot_health. rewrite Hg. cbv zeta.
  set (s1 := set_loader_info v _). unfold show_boot_variables, get_variable.
  assert (nv_get STATE_VAR (record_boot_entry id s1).1 = Some [1]) as ->
    by (rewrite record_boot_entry_other by key_neq; unfold s1; nv_frame; apply (set_state_same Booting)).
  assert (nv_get CRASH_COUNTER_VAR (record_boot_entry id s1).1 = Some [next_counter (get_state s) (get_crash_counter s)]) as ->
    by (rewrite record_boot_entry_other by key_neq; unfold s1; nv_frame; by apply get_ignoring_same).
  assert (nv_get TIMESTAMP_VAR (record_boot_entry id s1).1 = _) as ->
    by (rewrite record_boot_entry_other by key_neq; unfold s1; rewrite set_loader_info_other by key_neq; apply write_timestamp_same).
  assert (nv_get LOADER_INFO_VAR (record_boot_entry id s1).1 = Some (loader_info_utf16le v)) as ->
    by (rewrite record_boot_entry_other by key_neq; apply set_loader_info_same).
  rewrite record_boot_entry_same by done. clear s1. rewrite take_ge by (unfold len in Hl; lia).
  rewrite (proj2 (Z.leb_le _ _) Hl).
  assert (exists b bs, str_bytes id = b :: bs) as (b & bs & Eb).
  { destruct id as [|c r]; [done|]. unfold str_bytes. cbn [flat_map]. pose proof (char_utf8_nonempty c). destruct (char_utf8 c); [done|]. simpl. eauto. }
  pose proof (from_utf8_bytes id Hsc) as Hu. rewrite Eb in *. rewrite Hu, Htrim.
  assert (len (loader_info_utf16le v) = 18 + 2 * len (v_string v)) as Hll by (by apply loader_info_length).
  pose proof (len_nonneg (v_string v)). rewrite (proj2 (Z.leb_le (len (loader_info_utf16le v)) 64)) by lia.
  rewrite (proj2 (Z.leb_le 2 (len (loader_info_utf16le v)))) by lia. unfold loader_info_utf16le at 1.
  rewrite loader_info_chars_ascii by (apply Forall_app; split; [repeat constructor; lia|apply Forall_app; split; [repeat constructor; lia|done]]).
  repeat match goal with |- context [len (?a :: ?l) <=? ?k] => change (len (a :: l) <=? k) with true end.
  cbn [mbind option_bind timestamp_text]. unfold time_text. rewrite year_bytes by done. reflexivity.
Qed.

(** An entry id whose 128th byte is inside a character is recorded cut, and the
    screen then shows no line for it, not even that it is not set. *)
Theorem cut_entry_not_shown :
  let id := replicate 127 97 ++ [233] in
  forall s : var_map, is_Some (nv_get LAST_ENTRY_VAR (record_boot_entry id s).1) /\
    match get_variable 128 LAST_ENTRY_VAR (record_boot_entry id s).1 with
    | Some (b :: data) => from_utf8 (b :: data) = None
    | _ => False
    end.
Proof.
  intros id s. assert (nv_get LAST_ENTRY_VAR (record_boot_entry id s).1 = Some (take 128 (str_bytes id))) as Hg
    by (by apply record_boot_entry_same).
  unfold get_variable. rewrite Hg. split; [by eexists|]. vm_compute. reflexivity.
Qed.

(** ** The loop *)

(** The keys the shell can see. *)
Definition usable (e : option ShellKey) : option Z :=
  match e with
  | Some (Printable c) => Some c
  | Some (Special sc) => if sc =? SCAN_ESCAPE then Some c_escape else None
  | None => None
  end.

Lemma wait_for_key_spec (events : list (option ShellKey)) :
  match wait_for_key events with
  | None => omap usable events = []
  | Some (c, rest) => omap usable events = c :: omap usable rest /\ (length rest < length events)%nat
  end.
Proof.
  induction events as [|e events IH]; [done|]. cbn [wait_for_key omap list_omap usable length].
  destruct e as [[c|sc]|]; [split; [done|lia]| |].
  - cbn [usable]. destruct (sc =? SCAN_ESCAPE); [split; [done|lia]|].
    destruct (wait_for_key events) as [[c rest]|]; [|done]. destruct IH as [-> ?]. split; [done|lia].
  - cbn [usable]. destruct (wait_for_key events) as [[c rest]|]; [|done]. destruct IH as [-> ?]. split; [done|lia].
Qed.

(** The choices: every other key, because the one after a choice only closes
    its screen. *)
Fixpoint choices (keys : list Z) : list Z :=
  match keys with
  | [] => []
  | [c] => [c]
  | c :: _ :: rest => c :: choices rest
  end.

(** What a session prints, choice by choice. *)
Fixpoint session (screen : Z -> list out) (keys : list Z) : list out :=
  paint show_menu ++
  match keys with
  | [] => []
  | c :: rest =>
      if is_quit c then [Line (lit "Returning to LamBoot...")]
      else screen c ++ [Line []; Line (lit "Press any key to continue...")] ++
        match rest with [] => [] | _ :: rest => session screen rest end
  end.

Section loop.
Context `{NvStore St} (pf : ShellPlatform St).

Lemma shell_screen_total (c : Z) : memory (pf_raw pf) -> exists l, @shell_screen St _ Empty_set pf c = Ok l.
Proof.
  intros Hm. unfold shell_screen. repeat case_match; eauto. destruct (system_info_correct (pf_raw pf) (pf_tables pf) Hm) as [Hp _].
  destruct (show_system_info _ _) as [l|[]|]; [eexists; reflexivity|done].
Qed.

Definition screen_of_choice (c : Z) : list out := match @shell_screen St _ Empty_set pf c with Ok l => l | _ => [] end.

Lemma shell_loop_spec (fuel : nat) (events : list (option ShellKey)) (printed : list out) :
  memory (pf_raw pf) -> (length events < fuel)%nat ->
  let keys := omap usable events in
  @shell_loop St _ Empty_set pf fuel events printed =
  Ok (existsb is_quit (choices keys), printed ++ session screen_of_choice keys).
Proof.
  intros Hm. cbv zeta. revert events printed. induction fuel as [|fuel IH]; intros events printed Hf; [lia|]. cbn [shell_loop].
  pose proof (wait_for_key_spec events) as Hw. destruct (wait_for_key events) as [[c rest]|].
  2: { rewrite Hw. cbn [choices existsb session]. by rewrite app_nil_r. }
  destruct Hw as [-> Hr]. destruct (is_quit c) eqn:Eq.
  { cbn [session]. rewrite Eq, <- app_assoc. destruct (omap usable rest); cbn [choices existsb]; by rewrite Eq. }
  destruct (shell_screen_total c Hm) as [l Hl]. assert (screen_of_choice c = l) as Hsc by (unfold screen_of_choice; by rewrite Hl).
  rewrite Hl. cbn [res_bind]. pose proof (wait_for_key_spec rest) as Hw. destruct (wait_for_key rest) as [[c' rest']|].
  - destruct Hw as [-> Hr']. rewrite IH by lia. cbn [choices existsb session]. rewrite Eq, Hsc. cbn [orb]. by rewrite <- !app_assoc.
  - rewrite Hw. cbn [choices existsb session]. rewrite Eq, Hsc. cbn [orb]. by rewrite app_nil_r, <- !app_assoc.
Qed.

(** The shell never fails, whatever the platform's tables hold, and it returns
    to the boot loader exactly when one of the choices is Q, q or Escape; until
    then it shows the screen of every choice, in order. *)
Theorem diag_shell_correct (events : list (option ShellKey)) :
  memory (pf_raw pf) ->
  let keys := omap usable events in
  @diag_shell St _ Empty_set pf events = Ok (existsb is_quit (choices keys), session screen_of_choice keys).
Proof. intros Hm. unfold diag_shell. by rewrite shell_loop_spec by (done || lia). Qed.
End loop.

(** ** Waiting in the other modules *)

(** pci-inventory and mem-quick poll until a key comes. *)
Fixpoint wait_any (events : list (option ShellKey)) : option (list (option ShellKey)) :=
  match events with
  | [] => None
  | Some _ :: rest => Some rest
  | None :: rest => wait_any rest
  end.

(** nvme-diag polls once. *)
Definition nvme_wait (events : list (option ShellKey)) : option (list (option ShellKey)) := Some (drop 1 events).

Definition nvme_diag : list (list Z) :=
  [lit "NVMe Diagnostic Tool v0.1.0"; lit "=========================="; lit "Scanning for NVMe devices...";
   lit "(Module functionality not yet implemented)"; []; lit "In full implementation, this would:"; lit "- Detect NVMe controllers";
   lit "- Read S.M.A.R.T. data"; lit "- Check temperature and wear level"; lit "- Report health status"; [];
   lit "Press any key to return to LamBoot..."].

(** The NVMe module asks for a key and returns without one: its text is gone as
    soon as it is printed, where the other modules wait. *)
Theorem nvme_does_not_wait (n : nat) : nvme_wait (replicate n None) <> None /\ wait_any (replicate n None) = None.
Proof. split; [done|]. by induction n. Qed.

(** ** Witnesses *)
Definition shell_structures : list Structure :=
  [mkStruct 1 ([0; 1] ++ [1; 2; 0; 3] ++ replicate 19 0) [lit "QEMU"; lit "Standard PC"; lit "serial-7"];
   mkStruct 11 ([0; 2] ++ [1]) [lit "lamboot.vmid=100"; lit "unused"]].
Definition shell_table : list Z := flat_map structure_bytes shell_structures ++ [127; 4; 0; 0; 0; 0].
Definition shell_memory : Z -> Z -> list Z :=
  raw_of [(0x1010, to_le 8 0x2000); (0x100C, to_le 4 (len shell_table)); (0x2000, shell_table)].

Lemma shell_memory_ok : memory shell_memory.
Proof. apply raw_of_bytes. vm_compute. reflexivity. Qed.

Definition demo_platform : ShellPlatform var_map :=
  mkPlatform _ ∅ (Some [Some card_in_slot_1]) (Some [mkDesc CONVENTIONAL 256]) [] shell_memory [(SMBIOS3_GUID, 0x1000)]
    (mkFwInfo (lit "EDK II") 0x10000 (lit "2.7") X86_64).

(** A q that answers a screen does not end the shell. *)
Lemma diag_shell_correct_witness :
  exists printed printed',
    @diag_shell _ _ Empty_set demo_platform [Some (Printable 51); Some (Printable 113)] = Ok (false, printed) /\
    @diag_shell _ _ Empty_set demo_platform [Some (Printable 51); Some (Printable 113); None; Some (Special 23)] = Ok (true, printed').
Proof.
  eexists _, _. split.
  - apply (diag_shell_correct demo_platform [Some (Printable 51); Some (Printable 113)]). exact shell_memory_ok.
  - apply (diag_shell_correct demo_platform [Some (Printable 51); Some (Printable 113); None; Some (Special 23)]). exact shell_memory_ok.
Defined.

Lemma system_info_correct_witness :
  exists heading, @show_system_info Empty_set shell_memory [(SMBIOS3_GUID, 0x1000)] = Ok (heading ++
    [lit "  --- System ---"; lit "  Manufacturer: QEMU"; lit "  Product:      Standard PC"; lit "  Version:      (none)";
     lit "  Serial:       serial-7"; []; lit "  --- OEM Strings ---"; lit "  [0] lamboot.vmid=100"; []]).
Proof.
  apply (proj2 (system_info_correct shell_memory [(SMBIOS3_GUID, 0x1000)] shell_memory_ok) 0x1000 true 0x2000 (len shell_table) shell_structures).
  - reflexivity.
  - vm_compute. reflexivity.
  - lia.
  - vm_compute. reflexivity.
  - exists [127; 4; 0; 0; 0; 0]. split_and!.
    + vm_compute. reflexivity.
    + repeat constructor; try discriminate; vm_compute; discriminate.
    + repeat constructor; discriminate.
    + right. eauto.
Defined.

Lemma shell_shows_health_witness :
  let t := mkTime 2026 3 7 9 5 0 in
  show_boot_variables (record_boot_entry (lit "arch.conf") (assess_boot_health None (Some t) demo_version (∅ : var_map)).2).1 =
  [lit "=== LamBoot Boot Variables ==="; []; lit "  LamBootState:      Booting (1)"; lit "  LamBootCrashCount: 0";
   lit "  LamBootLastEntry:  arch.conf"; lit "  LamBootTimestamp:  2026-03-07T09:05:00"; []; lit "=== Boot Loader Interface ===";
   lit "  LoaderInfo:        LamBoot 0.11.0"].
Proof.
  intros t. pose proof (shell_shows_health (St := var_map) None t demo_version (lit "arch.conf") ∅) as Hs.
  destruct (assess_boot_health None (Some t) demo_version (∅ : var_map)) as [count s1] eqn:E.
  cbn [snd]. rewrite Hs.
  - replace count with 0 by (apply (f_equal fst) in E; vm_compute in E; done). vm_compute. reflexivity.
  - reflexivity.
  - simpl. lia.
  - repeat constructor; vm_compute; reflexivity.
  - vm_compute. discriminate.
  - split_and!; [discriminate|repeat constructor|vm_compute; discriminate|vm_compute; reflexivity].
Defined.
